(* ===== verification/_CoqProject ===== *)
-Q . S2P
Prelude.v
RoutingCalculations.v
TreeMapper.v
WholeDoubles.v
NodeInfo.v
ProcedureInfo.v
RoutingInformation.v
RoutingInvariants.v
RoutingLookup.v
RoutingQueries.v
Containers.v
NodeData.v
BooleanExpression.v
FindQuery.v
DsnHandler.v
DsnProperties.v
TreeHelper.v
Minhcast.v
StaticNetwork.v
MinhcastNetwork.v
MinhcastInvariants.v
Message.v
Fsm.v
MinhtonNode.v
MinhtonNodeExamples.v
Framing.v
Access.v
FindEnd.v
SearchExact.v
Response.v
Join.v
Leave.v
Algorithms.v
Effects.v
NodeInvariants.v
Delivery.v
SearchProperties.v
JoinProperties.v
Protocol.v
ProtocolRuns.v
ProtocolExamples.v
EntitySearch.v
SearchEffects.v
Forwarding.v
SearchOutcomes.v
SearchExamples.v
RouteCalculation.v
CentralServer.v
Paxos.v
PaxosSafety.v
PaxosRuns.v
PaxosLedger.v
Graph.v
GraphProperties.v
NetworkDoubles.v
MaterialFlow.v
Precedence.v
PrecedenceProperties.v
Metrics.v
Auction.v
AuctionParticipant.v
AuctionProperties.v
Mobility.v
MobilityProperties.v
TaskManagement.v
StnTaskManagement.v
TaskProperties.v
AuctionRuns.v
Asset.v
AssetProperties.v
LogicalAgent.v
VehicleProperties.v
RoundRobin.v
RoundRobinProperties.v
Dissemination.v
DisseminationProperties.v
