(* ===== verification/Prelude.v ===== *)
(** * SOLA: verification of the MINHTON overlay, of Minhcast and of the logistics on top

    SOLA is a decentralised service architecture in C++. Its nodes form a MINHTON tree overlay
    ([src/minhton]); topics are disseminated over that tree by Minhcast ([src/natter]); the
    simulation [src/daisi] builds such networks in ns-3 and runs logistics over them: vehicles
    that agree on routes and that bid for the tasks of material flows. This development models
    the overlay core, the dissemination and the decisions of the logistics as executable
    definitions and proves what makes them correct.

    ** The program and its parts

    A position of the tree is a level and a number; the fanout bounds the children.
    [routing_calculations.cpp] is the arithmetic on positions: parents, children, routing
    tables, the nodes that store data (DSNs) and the [double] that orders all positions from
    left to right. [LogicalNodeInfo], [PhysicalNodeInfo] and [NodeInfo] carry a position and an
    address. [RoutingInformation] is the state of a node: its links to parent, children,
    adjacent nodes, routing-table neighbours and their children, which messages update.
    [FiniteStateMachine] says which signals, messages and timeouts a node may process in which
    state; [MinhtonNode] puts it in front of everything the node sends and receives and hands
    admitted events to the algorithms of the logic container. Nodes have attributes; an entity
    search asks the data-storing nodes of every second level for the nodes that satisfy a
    boolean expression over attributes, which these answer from what they know of the nodes
    they cover or by inquiring. Minhcast keeps per topic the
    positions and peers of a node and forwards a published message along the tree so that
    every node gets it once; [natter_manager.cpp] connects the nodes of a scenario.

    Stations plan routes that must not conflict: either a central server grants them, or all
    agree with a variant of Paxos; both look for the earliest start of a route. The tasks of a
    material flow form a precedence graph; an initiator auctions the tasks that are free,
    iteration by iteration, to vehicles that bid by the metrics of their task management, which
    keeps their tasks in order by a simple temporal network.

    ** Files

    - [Prelude]: machine integers with their wrap-around, the [Platform] parameter for
      conversions C++ leaves open, exceptions and outcomes, the state-and-exception monad [M]
      in which member functions are written, library algorithms ([std::lower_bound],
      [std::sort], [std::set]) and the shared lemmas and tactics.
    - [RoutingCalculations]: [minhton/src/core/routing_calculations.cpp], all functions but the
      tree mapper. Theorems: left and right routing tables are one symmetric relation; parents
      and children are inverse; data-storing nodes are the priority nodes; cover areas and
      covering DSNs agree. Shown failures: an overflow that is not detected, a loop that never
      ends, a dereferenced end iterator.
    - [TreeMapper]: [treeMapper] of the same file in binary64 (the standard library's executable
      specification of IEEE-754). The horizontal order is the in-order traversal up to the checked depths; the number
      narrowed to 16 bits makes positions collide below.
    - [NodeInfo]: [logical_node_info.cpp], [physical_node_info.cpp], [node_info.cpp].
      [inet_pton] is a parameter ([Inet]) with the documented law on dotted quads.
    - [RoutingInformation]: every operation and query of [routing_information.cpp],
      [routing_information_table.cpp] and [routing_information_general_helper.cpp].
      [RoutingInvariants]: every sequence of operations keeps the tables exactly those of the
      node's position (by a contract [edit] each operation meets). [RoutingLookup]: binary
      search finds what linear search finds, an update is read back, the left and right views
      cut the tables correctly. [RoutingQueries]: the lowest node, merging of node vectors,
      and two failures.
    - [TreeHelper]: [natter/src/utils/tree_helper.*]; the tables Minhcast recomputes are those
      of MINHTON; printing and parsing of positions.
    - [Minhcast]: [natter/src/minhcast/minhcast_impl.cpp], the whole member functions, with the
      forwarding limits and messages. [StaticNetwork]: [static_network_calculation.cpp] and
      [natter_manager.cpp] of [daisi/src/natter-ns3], which build a connected network.
      [MinhcastNetwork]: a network of such nodes as a step relation (one message in flight is
      delivered per step, in any order); a published message reaches every other node exactly
      once. [MinhcastInvariants]: the subscription invariant over all operation sequences.
    - [Message]: message types, the header and its validation, the messages with their
      constructors. [Fsm]: [utils/fsm.h], [fsm.cpp], [fsm_exception.cpp] and the row selection
      of the vendored fsmlite; the verdict on an event, the influence of the row order,
      membership, reachability of the connected state, the bootstrap messages. [MinhtonNode]:
      [core/node.cpp], the dispatch of [logic_container.cpp] and the job queue of
      [watchdog.cpp], over an interface [Logic] of the algorithms; what sending, receiving and
      timeouts do on every branch and the invariant of the acknowledgement flag.
      [MinhtonNodeExamples]: concrete nodes.
    - [ProcedureInfo]: [utils/procedure_info.cpp], the store of procedures in progress.
      [Access]: the state the algorithms share ([core/access_container.h]) and own.
    - The algorithms: [FindEnd] ([algorithms/find_end], how a request finds the end of the
      tree), [SearchExact] ([algorithms/search_exact]), [Response] ([algorithms/misc]: neighbour
      updates, acknowledgements, bootstrap), [Join] ([algorithms/join]), [Leave]
      ([algorithms/leave]), each handler in full. [Algorithms] puts them together as
      [logic_container.cpp] does, an instance of [Logic]; the entity search is behind the class
      [EntitySearch].
    - [Effects]: every algorithm only performs atomic changes [act] (sends a valid message,
      changes its routing information by an operation of [RoutingInvariants], ...).
      [NodeInvariants]: therefore, through all events, the tables of a node match its position,
      its messages are well typed, its address stays. [Delivery]: a node that delivers messages
      to itself while it handles one does so at most two levels deep. [SearchProperties]: an
      exact search gets closer with every hop and visits no node twice. [JoinProperties]: where
      a new child goes, when acknowledgements are complete, that the search for a parent ends,
      and that an exception during a join request blocks the node.
    - [Protocol]: networks of nodes as a step relation (one sent message is delivered per step,
      in any order) and an exploration of all runs, sound for it. [ProtocolRuns]: joins and
      departures in every order of delivery end with a complete tree and correct links; two
      joins at once; a race that blocks the root. [ProtocolExamples]: concrete instances.
    - The entity search ([algorithms/esearch]). [Containers]: unordered containers, whose order
      is a parameter (of the bidding vehicle too). [NodeData]: attributes, own and remembered ones. [BooleanExpression]: the
      three-valued evaluation; asking for the missing keys decides, decisions are final, with
      all information it is classical logic. [FindQuery]: the query. [DsnHandler]: what a
      data-storing node covers and knows; [DsnProperties]: an invariant of it over all
      operations, and where it departs from its comments. [EntitySearch]: the algorithm, every
      handler, with its messages, an instance of the class of [Algorithms]; [SearchEffects]: it
      meets what [Effects] and [Delivery] ask of it. [Forwarding]: a query reaches every DSN of
      a level exactly once. [SearchOutcomes]: a node that has answered is judged as it judges
      itself, inquiries are valid, where a search goes and when it is concluded, and failures.
      [SearchExamples]: concrete instances.
    - [Framing]: [daisi/src/network_tcp/framing_manager.cpp]; framed messages come out of the
      stream as they went in, however it is cut outside the length prefixes, and no input
      makes the receiver loop or copy out of bounds.
    - Routes ([daisi/src/path_planning]). [RouteCalculation]: [route_calculation_helper.cpp], the
      earliest start without conflicts. [CentralServer]: [consensus/central]; what the server
      grants is free of conflicts. [Paxos]: [consensus/paxos], proposer, acceptor, replication
      manager. [PaxosSafety]: participants as a step relation in which messages arrive in any
      order or not at all, but none twice; agreement under the quorum rule, as long as promises
      are of the current proposal, which the code does not check. [PaxosRuns]: a run without
      that, where two participants commit different times for a crossing.
      [PaxosLedger]: when a decision is logged.
    - Material flows. [Graph]: [daisi/src/datastructure] (directed and weighted graphs, simple
      temporal networks) over any vertices, edges and numbers with the operations of doubles.
      [GraphProperties]: over exact integer times, [solve] decides whether all constraints can be
      met, the solutions are the earliest and the latest; where removal of a vertex goes wrong.
      [WholeDoubles]: whole numbers below 2^53 are added and compared in binary64 without error.
      [NetworkDoubles]: hence the same of [solve] and the earliest solution over doubles, for
      weights that are whole numbers and not too large, and a network where rounding makes [solve]
      wrong. [MaterialFlow]: orders, tasks,
      abilities, the fleet, and what a vehicle does for an order.
    - Auctions ([cpps/logical/algorithms/assignment]). [Precedence]:
      [layered_precedence_graph.cpp]; [PrecedenceProperties]: [initLayers] and [next] keep the
      layers consistent, and without cycles all tasks are scheduled. [Metrics]: metrics and bids,
      with a [std::sort] that is undefined when its comparison is no weak order. [Auction]: the
      initiator with all its handlers; [AuctionParticipant]: the bidding vehicle, over the class
      [AuctionBasedTaskManagement]. [AuctionProperties]: who wins; auctions conclude; awards are
      final even if refused; renotification, early material flows and late messages go wrong.
    - Vehicles ([cpps/amr], [cpps/logical/task_management]). [Mobility]: the description of a
      vehicle, [amr_topology.cpp] and [amr_mobility_helper.cpp] in binary64, over the vectors of
      ns-3, a parameter ([Ns3Vector]). [MobilityProperties]: a plan consists of the phases in
      their order and ends at the destination after the estimated time.
      [TaskManagement]: the base class and [simple_task_management.cpp]. [StnTaskManagement]:
      [stn_task_management.cpp], an instance of [AuctionBasedTaskManagement]. [TaskProperties]:
      the simple one is a queue; a task that can be added is added, a law ([KeepsPromises]) from
      which a winning vehicle answers truthfully; the metrics of bids are those of the last task;
      what goes wrong when tasks are started and time passes. [AuctionRuns]: the initiator and
      two vehicles on a network that delivers in order: the material flow is served; what happens
      to a vehicle that refuses, when bids are lost, and when a vehicle starts a task between its
      bid and its award.
    - A vehicle at work ([cpps/amr]). [Asset]: [amr_physical_asset.cpp] with its state machine, the
      mobility model and the queue of events of the simulator, over [AssetEnvironment] (equality
      of vectors and [atan2] of ns-3). [AssetProperties]: transport orders are carried out and
      reported in order. [LogicalAgent]: [amr_logical_agent.cpp] and the state of its execution,
      and the scheduler's side of its updates. [VehicleProperties]: assigned tasks are not started
      under the simple task management; tasks of several orders are never finished.
    - Round robin ([centralized_initiator.cpp], [round_robin_initiator.cpp],
      [centralized_participant.cpp]). [RoundRobin]: the handlers, over [RoundRobinEnvironment]
      (which of the least elements a priority queue has on top, random numbers, UUIDs), whose laws
      are the class [RoundRobinLaws]. [RoundRobinProperties]: vehicles of the same ability get
      equally many tasks; what happens when an answer is missing.
    - Topics ([src/sola]). [Dissemination]: [event_dissemination_minhcast.cpp], a MINHTON node per
      topic whose reports become peers of Minhcast. [DisseminationProperties]: the peers are the
      linked nodes as long as no node directly takes the place of another; nodes that are replaced
      and adjacent nodes that are lost go wrong.

    ** State, errors and undefined behaviour

    A member function is [M S A]: it maps the object to an outcome and the object it leaves
    behind. An outcome is a value, an exception ([exn], what was written before stays
    written), or [Undefined], for what C++ leaves undefined (an index out of range, a
    dereferenced end iterator, a failed assertion, a loop that does not end). Theorems that
    something returns exclude all three.

    ** Bounds and fuel

    The loops over the priority nodes of a level advance by twice the fanout; [step_fuel] is
    that many steps plus two, which the termination lemmas show to be enough whenever the loop
    ends at all ([calcPrioSet_diverges] is about the level where it does not); the loops over
    table distances take 33 iterations, since a distance that grows by a factor of at least two
    leaves 32 bits by then; the level loop of the scenarios takes 64 for the same reason.
    [checked_depth] (the depths at which binary64 orders positions exactly, per fanout, by
    evaluation) and [checked_nodes] (the networks explored exhaustively) are what the kernel
    evaluates in seconds, as are the sizes of the networks of [ProtocolRuns], whose
    [explore] takes more rounds than any run has deliveries (it answers [false] when it runs out);
    [node_logic] allows two deliveries within a delivery, which [nested_delivery_bounded] shows
    to be as good as any number; the loop of [selectWinner] takes one round per bid, each of which
    removes the best one; [closestParentLoop] takes one round per parent to the left and
    two more, enough by [parent_search_terminates]. [OrderedLevels] is the interface through which the theorems on
    routing information use the former, so they hold for any fanout and depth for which the
    order is shown.

    ** Not modelled

    Logging and its databases; sockets, serialization and UUID generation ([src/solanet]);
    the parser of query texts, which a third-party PEG library runs (a parameter of
    [FindQuery]); the parser of material-flow descriptions; the TCP sockets, the ns-3 applications
    and managers other than the connection of static networks; of [src/sola], the template [SOLA],
    which hands calls on, and the storage over MINHTON. The notifications of the routing
    information to the entity search are an operation of their own ([onNotification]), not part of
    each routing operation; the networks of [ProtocolRuns] have no entity search at all
    ([no_search]) and have grown by joins through the root, one after the other. Messages are
    neither lost nor duplicated in [Protocol], and not duplicated in [PaxosSafety]. The
    subscribers of routing information are modelled by the sequence of notifications sent to them;
    [Dissemination] hands them to the callback of a topic after the step of the node. Concurrency
    between the watchdog's thread and the receiving thread is not modelled: events are
    atomic. *)

From Stdlib Require Export ZArith Lia Ascii.
From stdpp Require Export base list strings option sorting sets gmap.

#[global] Open Scope Z_scope.

(** The lemmas that close the routine side conditions of the components. *)
Create HintDb sola.

(** ** Machine integers

    The source computes on [uint8_t], [uint16_t], [uint32_t] and [uint64_t]; a value of such
    a type is a [Z] in range, and every operation of the source that can leave the range is
    wrapped explicitly. *)

Definition u8 (z : Z) : Z := z mod 2 ^ 8.
Definition u16 (z : Z) : Z := z mod 2 ^ 16.
Definition u32 (z : Z) : Z := z mod 2 ^ 32.
Definition u64 (z : Z) : Z := z mod 2 ^ 64.

Definition UINT32_MAX : Z := 2 ^ 32 - 1.

Definition in_u32 (z : Z) : Prop := 0 <= z < 2 ^ 32.
Definition in_u16 (z : Z) : Prop := 0 <= z < 2 ^ 16.

(** Conversions from [double] to an unsigned type are only defined by C++ when the truncated
    value fits ([conv.fpint]); what a platform yields otherwise is a parameter, of which
    nothing but its range is known. *)
Class Platform := {
  cvt_u32_oor : Z -> Z;
  cvt_u64_oor : Z -> Z;
  cvt_u32_oor_range : forall z, 0 <= cvt_u32_oor z < 2 ^ 32;
  cvt_u64_oor_range : forall z, 0 <= cvt_u64_oor z < 2 ^ 64;
}.

Definition cvt_u32 `{Platform} (z : Z) : Z :=
  if (0 <=? z) && (z <? 2 ^ 32) then z else cvt_u32_oor z.

Definition cvt_u64 `{Platform} (z : Z) : Z :=
  if (0 <=? z) && (z <? 2 ^ 64) then z else cvt_u64_oor z.

(** The conversion x86-64 performs ([cvttsd2si] to 64 bits, then truncation). *)
Definition x86_cvt (w z : Z) : Z :=
  if (- 2 ^ 63 <=? z) && (z <? 2 ^ 63) then z mod 2 ^ w else 2 ^ 63 mod 2 ^ w.

Lemma x86_cvt_range w z : 0 <= w -> 0 <= x86_cvt w z < 2 ^ w.
Proof. intros. unfold x86_cvt. case_match; apply Z.mod_pos_bound; lia. Qed.

Definition x86_64 : Platform := {|
  cvt_u32_oor := x86_cvt 32;
  cvt_u64_oor := x86_cvt 64;
  cvt_u32_oor_range := fun z => x86_cvt_range 32 z ltac:(lia);
  cvt_u64_oor_range := fun z => x86_cvt_range 64 z ltac:(lia);
|}.

Lemma cvt_u32_in `{Platform} z : in_u32 z -> cvt_u32 z = z.
Proof. unfold in_u32, cvt_u32. intros. case_match; lia. Qed.

Lemma cvt_u32_range `{Platform} z : in_u32 (cvt_u32 z).
Proof.
  unfold in_u32, cvt_u32. case_match; [lia | apply cvt_u32_oor_range].
Qed.

Lemma cvt_u64_in `{Platform} z : 0 <= z < 2 ^ 64 -> cvt_u64 z = z.
Proof. unfold cvt_u64. intros. case_match; lia. Qed.

Lemma u32_id z : in_u32 z -> u32 z = z.
Proof. apply Z.mod_small. Qed.

Lemma u32_range z : in_u32 (u32 z).
Proof. apply Z.mod_pos_bound. lia. Qed.

Lemma u16_id z : in_u16 z -> u16 z = z.
Proof. apply Z.mod_small. Qed.

Lemma u32_id_u16 z : in_u16 z -> u32 z = z.
Proof. unfold in_u16, u32. intros. apply Z.mod_small. lia. Qed.

(** ** Numbers as text *)

Definition digit_char (d : Z) : ascii := ascii_of_nat (Z.to_nat (48 + d)).

(** [std::to_string] of an unsigned number; a [uint32_t] has at most ten digits. *)
Fixpoint decimal (fuel : nat) (z : Z) : list ascii :=
  match fuel with
  | O => []
  | S fuel' => if z <? 10 then [digit_char z] else decimal fuel' (z / 10) ++ [digit_char (z mod 10)]
  end.
Definition to_string (z : Z) : list ascii := decimal 10 z.

(** ** Exceptions and outcomes

    A call of the source returns, throws one of the exceptions below, or has undefined
    behaviour (an index out of range, a dereferenced end iterator). *)

Inductive AlgorithmType := kUndefinedAlgorithm | kJoinAlgorithm | kLeaveAlgorithm | kUpdatingAlgorithm.

#[export] Instance AlgorithmType_eq_dec : EqDecision AlgorithmType.
Proof. solve_decision. Defined.

Definition getAlgorithmTypeString (type : AlgorithmType) : string :=
  match type with
  | kUndefinedAlgorithm => "AlgorithmException: "
  | kJoinAlgorithm => "JoinAlgorithmException: "
  | kLeaveAlgorithm => "LeaveAlgorithmException: "
  | kUpdatingAlgorithm => ""
  end%string.

Inductive exn :=
| invalid_argument (what : string)
| logic_error (what : string)
| out_of_range (what : string)
| runtime_error (what : string)
| AlgorithmException (type : AlgorithmType) (message : string)
| FSMException (what : string)
| InvalidMessageException (what : string)
| bad_optional_access
| bad_variant_access
| bad_function_call.

Inductive outcome (A : Type) :=
| Ok (a : A)
| Throw (e : exn)
| Undefined.
Arguments Ok {A} _.
Arguments Throw {A} _.
Arguments Undefined {A}.

#[export] Instance exn_eq_dec : EqDecision exn.
Proof. solve_decision. Defined.

#[export] Instance outcome_eq_dec `{EqDecision A} : EqDecision (outcome A).
Proof. solve_decision. Defined.

#[export] Instance outcome_ret : MRet outcome := fun A a => Ok a.
#[export] Instance outcome_bind : MBind outcome := fun A B f m =>
  match m with Ok a => f a | Throw e => Throw e | Undefined => Undefined end.
#[export] Instance outcome_fmap : FMap outcome := fun A B f m =>
  match m with Ok a => Ok (f a) | Throw e => Throw e | Undefined => Undefined end.

Definition is_Ok {A} (m : outcome A) : bool := match m with Ok _ => true | _ => false end.

Definition from_Ok {A} (m : outcome A) : is_Ok m = true -> A :=
  match m with
  | Ok a => fun _ => a
  | _ => fun H => match Bool.diff_false_true H with end
  end.

(** [v[i]] on a [std::vector]. *)
Definition vec_at {A} (v : list A) (i : nat) : outcome A :=
  match v !! i with Some a => Ok a | None => Undefined end.

(** ** Objects: state with exceptions

    A non-[const] member function maps the object to an outcome and the object it leaves
    behind; what was written before a [throw] stays written. *)

Definition M (S A : Type) : Type := S -> outcome A * S.

#[export] Instance M_ret {S} : MRet (M S) := fun A a s => (Ok a, s).
#[export] Instance M_bind {S} : MBind (M S) := fun A B f m s =>
  match m s with
  | (Ok a, s') => f a s'
  | (Throw e, s') => (Throw e, s')
  | (Undefined, s') => (Undefined, s')
  end.

Definition get {S} : M S S := fun s => (Ok s, s).
Definition gets {S A} (f : S -> A) : M S A := fun s => (Ok (f s), s).
Definition modify {S} (f : S -> S) : M S unit := fun s => (Ok tt, f s).
Definition throw {S A} (e : exn) : M S A := fun s => (Throw e, s).
Definition lift {S A} (m : outcome A) : M S A := fun s => (m, s).

(** [if (b) throw e;] *)
Definition throw_if {S} (b : bool) (e : exn) : M S unit :=
  fun s => if b then (Throw e, s) else (Ok tt, s).
Definition throw_when (b : bool) (e : exn) : outcome unit :=
  if b then Throw e else Ok tt.

(** A member function of the sub-object [sel] selects, run on the enclosing object. *)
Definition zoom {S T A} (sel : S -> T) (upd : T -> S -> S) (m : M T A) : M S A :=
  fun s => let '(r, t) := m (sel s) in (r, upd t s).

(** Evaluates the monadic glue of a statement, and nothing else. *)
Ltac mred :=
  cbv beta delta [mbind M_bind mret M_ret outcome_bind outcome_ret get gets modify throw lift
                  throw_if throw_when zoom];
  cbn beta iota zeta.
Ltac mred_in H :=
  cbv beta delta [mbind M_bind mret M_ret outcome_bind outcome_ret get gets modify throw lift
                  throw_if throw_when zoom] in H;
  cbn beta iota zeta in H.

(** [for (x : l) f(x);] *)
Fixpoint for_each {S A} (l : list A) (f : A -> M S unit) : M S unit :=
  match l with
  | [] => mret tt
  | x :: l' => f x;; for_each l' f
  end.

(** Statements that cannot fail step on. *)
Section Steps.
Context {S B : Type}.

Lemma bind_modify (f : S -> S) (k : unit -> M S B) s : (modify f ≫= k) s = k tt (f s).
Proof. done. Qed.
Lemma bind_gets {A} (f : S -> A) (k : A -> M S B) s : (gets f ≫= k) s = k (f s) s.
Proof. done. Qed.
Lemma bind_get (k : S -> M S B) s : (get ≫= k) s = k s s.
Proof. done. Qed.
Lemma bind_ret {A} (a : A) (k : A -> M S B) s : ((mret a : M S A) ≫= k) s = k a s.
Proof. done. Qed.
Lemma bind_throw_if b e (k : unit -> M S B) s :
  (throw_if b e ≫= k) s = if b then (Throw e, s) else k tt s.
Proof. mred. by destruct b. Qed.
Lemma bind_lift {A} (m : outcome A) (k : A -> M S B) s :
  (lift m ≫= k) s = match m with Ok a => k a s | Throw e => (Throw e, s) | Undefined => (Undefined, s) end.
Proof. done. Qed.
End Steps.
#[export] Hint Rewrite @bind_modify @bind_gets @bind_get @bind_ret @bind_throw_if @bind_lift : sola.

(** What it means that a composite statement returns. *)
Section Returns.
Context {S : Type}.

Lemma bind_Ok {A B} (m : M S A) (k : A -> M S B) s b s' :
  (m ≫= k) s = (Ok b, s') <-> exists a s1, m s = (Ok a, s1) /\ k a s1 = (Ok b, s').
Proof. mred. destruct (m s) as [[a| |] s1]; naive_solver. Qed.

Lemma bind_throws {A B} (m : M S A) (k : A -> M S B) s e s' :
  (m ≫= k) s = (Throw e, s') ->
  m s = (Throw e, s') \/ exists a s1, m s = (Ok a, s1) /\ k a s1 = (Throw e, s').
Proof. mred. destruct (m s) as [[a| |] s1]; naive_solver. Qed.

Lemma modify_Ok (f : S -> S) s a s' : modify f s = (Ok a, s') <-> s' = f s.
Proof. unfold modify. destruct a. naive_solver. Qed.

Lemma gets_Ok {A} (f : S -> A) s a s' : gets f s = (Ok a, s') <-> a = f s /\ s' = s.
Proof. unfold gets. naive_solver. Qed.

Lemma lift_Ok {A} (m : outcome A) (s : S) a s' : lift m s = (Ok a, s') <-> m = Ok a /\ s' = s.
Proof. unfold lift. naive_solver. Qed.

Lemma throw_if_Ok b e (s : S) a s' : throw_if b e s = (Ok a, s') <-> b = false /\ s' = s.
Proof. unfold throw_if. destruct b, a; naive_solver. Qed.

Lemma ret_Ok {A} (x : A) (s : S) a s' : (mret x : M S A) s = (Ok a, s') <-> a = x /\ s' = s.
Proof. mred. naive_solver. Qed.
End Returns.

Lemma outcome_bind_Ok {A B} (m : outcome A) (k : A -> outcome B) b :
  m ≫= k = Ok b <-> exists a, m = Ok a /\ k a = Ok b.
Proof. mred. destruct m; naive_solver. Qed.

(** ** Iterator algorithms of the C++ library *)

Section Algorithms.
Context {A : Type} (lt : A -> A -> bool).

(** [std::lower_bound] as a binary search on [first + len]; [fuel] bounds the number of
    halvings, for which the length of the range is always enough. *)
Fixpoint lower_bound_loop (fuel : nat) (l : list A) (x : A) (first len : nat) : nat :=
  match fuel with
  | O => first
  | S fuel' =>
      if Nat.eqb len 0 then first
      else
        let half := Nat.div2 len in
        match l !! (first + half)%nat with
        | None => first
        | Some y =>
            if lt y x
            then lower_bound_loop fuel' l x (first + half + 1) (len - half - 1)
            else lower_bound_loop fuel' l x first half
        end
  end.

Definition lower_bound (l : list A) (x : A) : nat :=
  lower_bound_loop (length l) l x 0 (length l).

(** The reference definition: the first index whose element is not smaller. *)
Fixpoint first_not_less (l : list A) (x : A) : nat :=
  match l with
  | [] => O
  | y :: l' => if lt y x then S (first_not_less l' x) else O
  end.

(** [std::sort]: an insertion sort, which fixes one of the orders the library may choose
    for equivalent elements. *)
Fixpoint sort_insert (x : A) (l : list A) : list A :=
  match l with
  | [] => [x]
  | y :: l' => if lt x y then x :: l else y :: sort_insert x l'
  end.

Definition std_sort (l : list A) : list A := foldr sort_insert [] l.

(** A list partitioned by [fun y => lt y x]: the precondition of [std::lower_bound]. *)
Definition partitioned (l : list A) (x : A) : Prop :=
  forall i j y z, (i <= j)%nat -> l !! i = Some y -> l !! j = Some z ->
    lt z x = true -> lt y x = true.

Lemma first_not_less_char (l : list A) x n :
  (forall i y, (i < n)%nat -> l !! i = Some y -> lt y x = true) ->
  (forall y, l !! n = Some y -> lt y x = false) ->
  (n <= length l)%nat ->
  first_not_less l x = n.
Proof.
  revert n; induction l as [|z l IH]; intros n Hlo Hhi Hlen; simpl in *; [lia|].
  destruct n as [|n].
  - by rewrite (Hhi z eq_refl).
  - rewrite (Hlo 0%nat z ltac:(lia) eq_refl). f_equal. apply IH; [|done|lia].
    intros i y Hi Hy. apply (Hlo (S i) y); [lia|done].
Qed.

Lemma lower_bound_loop_spec (l : list A) x fuel first len :
  partitioned l x -> (len <= fuel)%nat -> (first + len <= length l)%nat ->
  (forall i y, (i < first)%nat -> l !! i = Some y -> lt y x = true) ->
  (forall y, l !! (first + len)%nat = Some y -> lt y x = false) ->
  lower_bound_loop fuel l x first len = first_not_less l x.
Proof.
  intros Hp. revert first len.
  induction fuel as [|fuel IH]; intros first len Hfuel Hlen Hlo Hhi; simpl.
  - symmetry. apply first_not_less_char; [done| |lia].
    replace first with (first + len)%nat by lia. done.
  - destruct (Nat.eqb_spec len 0) as [->|Hne].
    + symmetry. apply first_not_less_char; [done| |lia].
      by rewrite Nat.add_0_r in Hhi.
    + assert (Hhalf : (Nat.div2 len < len)%nat) by (apply Nat.lt_div2; lia).
      revert Hhalf. generalize (Nat.div2 len) as half. intros half Hhalf.
      destruct (lookup_lt_is_Some_2 l (first + half)%nat ltac:(lia)) as [y Hy].
      rewrite Hy. destruct (lt y x) eqn:Ey.
      * apply IH; [lia|lia| |].
        -- intros i z Hi Hz. apply (Hp i (first + half)%nat z y); [lia|done..].
        -- by replace (first + half + 1 + (len - half - 1))%nat
             with (first + len)%nat by lia.
      * apply IH; [lia|lia|done|].
        intros z Hz. congruence.
Qed.

(** The binary search returns the partition point. *)
Lemma lower_bound_first_not_less (l : list A) x :
  partitioned l x -> lower_bound l x = first_not_less l x.
Proof.
  intros Hp. apply lower_bound_loop_spec; [done|lia|lia|lia|].
  intros y Hy. apply lookup_lt_Some in Hy. lia.
Qed.

Lemma sort_insert_Permutation x (l : list A) : sort_insert x l ≡ₚ x :: l.
Proof.
  induction l as [|y l IH]; simpl; [done|].
  case_match; [done|]. rewrite IH. apply Permutation_swap.
Qed.

Lemma std_sort_Permutation (l : list A) : std_sort l ≡ₚ l.
Proof.
  induction l as [|x l IH]; simpl; [done|].
  by rewrite sort_insert_Permutation, IH.
Qed.

(** Adjacent elements are strictly increasing: the executable form of sortedness. *)
Fixpoint increasing (l : list A) : bool :=
  match l with
  | x :: ((y :: _) as l') => lt x y && increasing l'
  | _ => true
  end.

End Algorithms.

(** [std::find_if], giving the index of the match. *)
Fixpoint find_index {A} (p : A -> bool) (l : list A) : option nat :=
  match l with
  | [] => None
  | x :: l' => if p x then Some O else S <$> find_index p l'
  end.

Lemma find_index_Some {A} (p : A -> bool) (l : list A) i :
  find_index p l = Some i ->
  exists x, l !! i = Some x /\ p x = true /\
    forall j y, (j < i)%nat -> l !! j = Some y -> p y = false.
Proof.
  revert i; induction l as [|x l IH]; intros i; simpl; [done|].
  destruct (p x) eqn:Ep.
  - intros [= <-]. exists x. split; [done|]. split; [done|]. lia.
  - destruct (find_index p l) as [k|]; [|done]. intros [= <-].
    destruct (IH k eq_refl) as (y & ? & ? & Hlo). exists y. split; [done|]. split; [done|].
    intros [|j] z Hj Hz; simpl in Hz; [congruence|]. apply (Hlo j); [lia|done].
Qed.

Lemma find_index_None {A} (p : A -> bool) (l : list A) :
  find_index p l = None <-> forall x, x ∈ l -> p x = false.
Proof.
  induction l as [|x l IH]; simpl.
  - split; [intros _ y Hy; by apply elem_of_nil in Hy|done].
  - destruct (p x) eqn:Ep.
    + split; [done|]. intros H. rewrite (H x) in Ep by set_solver. done.
    + split.
      * intros Hn y [->|Hy]%elem_of_cons; [done|].
        apply IH; [|done]. by destruct (find_index p l).
      * intros H. rewrite (proj2 IH); [done|]. intros y Hy. apply H. set_solver.
Qed.

(** [for (i = from; i < to; i++)] over integers. *)
Definition zrange (from to : Z) : list Z := (fun k => from + Z.of_nat k) <$> seq 0 (Z.to_nat (to - from)).

Lemma elem_of_zrange x a b : x ∈ zrange a b <-> a <= x < b.
Proof.
  unfold zrange. rewrite list_elem_of_fmap. split.
  - intros (k & -> & Hk%elem_of_seq). lia.
  - intros. exists (Z.to_nat (x - a)). split; [lia|]. apply elem_of_seq. lia.
Qed.

Lemma length_zrange a b : length (zrange a b) = Z.to_nat (b - a).
Proof. unfold zrange. by rewrite length_fmap, length_seq. Qed.

Lemma zrange_lookup a b i :
  (i < Z.to_nat (b - a))%nat -> zrange a b !! i = Some (a + Z.of_nat i).
Proof.
  intros. unfold zrange. rewrite list_lookup_fmap, lookup_seq_lt by lia. done.
Qed.

(** [std::set<uint32_t>] as its increasing list of elements. *)
Fixpoint zset_insert (x : Z) (l : list Z) : list Z :=
  match l with
  | [] => [x]
  | y :: l' => if x <? y then x :: l else if x =? y then l else y :: zset_insert x l'
  end.

(** [v.back()] / [*s.rbegin()]. *)
Definition back {A} (l : list A) : outcome A :=
  match last l with Some x => Ok x | None => Undefined end.

Lemma zrange_nil a b : b <= a -> zrange a b = [].
Proof. intros. unfold zrange. by replace (Z.to_nat (b - a)) with 0%nat by lia. Qed.

Lemma zrange_app a b c : a <= b <= c -> zrange a c = zrange a b ++ zrange b c.
Proof.
  intros. unfold zrange.
  replace (Z.to_nat (c - a)) with (Z.to_nat (b - a) + Z.to_nat (c - b))%nat by lia.
  rewrite seq_app, fmap_app, Nat.add_0_l. f_equal.
  apply list_eq. intros i. rewrite !list_lookup_fmap.
  destruct (decide (i < Z.to_nat (c - b))%nat).
  - rewrite !lookup_seq_lt by lia. simpl. f_equal. lia.
  - rewrite !lookup_seq_ge by lia. done.
Qed.

Lemma zrange_cons a b : a < b -> zrange a b = a :: zrange (a + 1) b.
Proof.
  intros. rewrite (zrange_app a (a + 1) b) by lia. f_equal.
  unfold zrange. replace (Z.to_nat (a + 1 - a)) with 1%nat by lia. simpl. f_equal. lia.
Qed.

Lemma zrange_snoc a b : a <= b -> zrange a (b + 1) = zrange a b ++ [b].
Proof. intros. rewrite (zrange_app a b) by lia. by rewrite (zrange_cons b), (zrange_nil (b + 1)) by lia. Qed.

Lemma zrange_ind (a : Z) (P : Z -> Prop) :
  P a -> (forall b, a <= b -> P b -> P (b + 1)) -> forall b, a <= b -> P b.
Proof.
  intros H0 HS b Hb. pattern b. apply Z.right_induction with (z := a); [solve_proper|done| |done].
  intros n Hn Hp. replace (Z.succ n) with (n + 1) by lia. by apply HS.
Qed.

(** ** Sorted lists of integers *)

Lemma StronglySorted_snoc_lt (l : list Z) x :
  StronglySorted Z.lt l -> (forall y, y ∈ l -> y < x) -> StronglySorted Z.lt (l ++ [x]).
Proof.
  induction 1 as [|y l Hs IH Hy]; intros Hx; simpl; [repeat constructor|].
  constructor; [apply IH; set_solver|].
  rewrite Forall_app, Forall_singleton. split; [done|]. apply Hx. set_solver.
Qed.

Lemma StronglySorted_app_lt (l k : list Z) :
  StronglySorted Z.lt l -> StronglySorted Z.lt k ->
  (forall x y, x ∈ l -> y ∈ k -> x < y) -> StronglySorted Z.lt (l ++ k).
Proof.
  induction 1 as [|x l Hs IH Hx]; intros Hk Hlt; simpl; [done|].
  constructor; [apply IH; set_solver|].
  rewrite Forall_app. split; [done|]. apply Forall_forall. intros y Hy. apply Hlt; set_solver.
Qed.

Lemma elem_of_list_bind_Z {A B} (f : A -> list B) (l : list A) y :
  y ∈ (l ≫= f) <-> exists x, x ∈ l /\ y ∈ f x.
Proof. rewrite list_elem_of_bind. naive_solver. Qed.

Lemma mapM_app_outcome {A B} (g : A -> outcome B) (l k : list A) :
  mapM g (l ++ k) = x ← mapM g l; y ← mapM g k; mret (x ++ y).
Proof.
  induction l as [|a l IH]; simpl.
  - by destruct (mapM g k).
  - destruct (g a); simpl; [|done..]. rewrite IH.
    destruct (mapM g l); simpl; [|done..]. by destruct (mapM g k).
Qed.

(** Strictly increasing integer vectors, by index. *)
Definition increasing_at (D : list Z) : Prop :=
  forall i j x y, (i < j)%nat -> D !! i = Some x -> D !! j = Some y -> x < y.

Lemma increasing_at_inj D i j x :
  increasing_at D -> D !! i = Some x -> D !! j = Some x -> i = j.
Proof.
  intros HD Hi Hj. destruct (Nat.lt_trichotomy i j) as [Hlt|[?|Hlt]]; [|done|].
  - specialize (HD i j x x Hlt Hi Hj). lia.
  - specialize (HD j i x x Hlt Hj Hi). lia.
Qed.

Lemma lower_bound_at D n i :
  increasing_at D -> (i <= length D)%nat ->
  (forall x, (0 < i)%nat -> D !! (i - 1)%nat = Some x -> x < n) ->
  (forall x, D !! i = Some x -> n <= x) ->
  lower_bound Z.ltb D n = i.
Proof.
  intros HD Hlen Hlo Hhi. rewrite lower_bound_first_not_less.
  - apply first_not_less_char; [| |done].
    + intros j y Hj Hy. apply Z.ltb_lt.
      destruct (lookup_lt_is_Some_2 D (i - 1) ltac:(lia)) as [x Hx].
      specialize (Hlo x ltac:(lia) Hx). destruct (decide (j = i - 1)%nat) as [->|]; [congruence|].
      specialize (HD j (i - 1)%nat y x ltac:(lia) Hy Hx). lia.
    + intros y Hy. apply Z.ltb_ge. by apply Hhi.
  - intros j k y z Hjk Hy Hz Hlt%Z.ltb_lt. apply Z.ltb_lt.
    destruct (decide (j = k)) as [->|]; [congruence|].
    specialize (HD j k y z ltac:(lia) Hy Hz). lia.
Qed.

Lemma lower_bound_at_spec D n :
  increasing_at D ->
  (lower_bound Z.ltb D n <= length D)%nat /\
  (forall x, (0 < lower_bound Z.ltb D n)%nat ->
     D !! (lower_bound Z.ltb D n - 1)%nat = Some x -> x < n) /\
  (forall x, D !! lower_bound Z.ltb D n = Some x -> n <= x).
Proof.
  intros HD.
  assert (Hex : exists i, (i <= length D)%nat /\
    (forall x, (0 < i)%nat -> D !! (i - 1)%nat = Some x -> x < n) /\
    (forall x, D !! i = Some x -> n <= x)).
  { clear HD. induction D as [|y D IH]; [exists 0%nat; simpl; naive_solver lia|].
    destruct (Z_lt_le_dec y n) as [Hy|Hy].
    - destruct IH as (i & Hi & Hlo & Hhi). exists (S i). simpl. split; [lia|]. split; [|done].
      intros x _ Hx. rewrite Nat.sub_0_r in Hx. destruct i as [|i]; simpl in *; [congruence|].
      apply Hlo; [lia|]. by rewrite Nat.sub_0_r.
    - exists 0%nat. simpl. split; [lia|]. split; [lia|]. intros x [= <-]. done. }
  destruct Hex as (i & Hi & Hlo & Hhi).
  by rewrite (lower_bound_at D n i HD Hi Hlo Hhi).
Qed.

(** [lia] with quotients and remainders by constants expanded. *)
Ltac divlia := Z.to_euclidean_division_equations; lia.

Lemma mapM_Ok {A B} (g : A -> outcome B) (h : A -> B) (l : list A) :
  (forall x, x ∈ l -> g x = Ok (h x)) -> mapM g l = Ok (h <$> l).
Proof.
  induction l as [|a l IH]; intros Hg; simpl; [done|].
  rewrite (Hg a) by set_solver. simpl. rewrite IH by set_solver. done.
Qed.

Lemma find_index_eqb (D : list Z) k d :
  increasing_at D -> D !! k = Some d -> find_index (Z.eqb d) D = Some k.
Proof.
  intros HD Hk. destruct (find_index (Z.eqb d) D) as [i|] eqn:E.
  - apply find_index_Some in E as (x & Hx & ->%Z.eqb_eq & _). f_equal.
    by apply (increasing_at_inj D i k x).
  - rewrite find_index_None in E. specialize (E d (list_elem_of_lookup_2 _ _ _ Hk)). lia.
Qed.
