(* ===== verification/RoutingCalculations.v ===== *)
(** * Positions of the MINHTON tree

    Model of [minhton/src/core/routing_calculations.cpp]: which positions [level:number] exist
    in a tree of a given fanout, the parent, the children, the left and right routing tables,
    the priority nodes and the data-storing nodes (DSNs) with the area each of them covers.

    Every [pow(fanout, level)] of the source is the integer power: both arguments are
    integers, the results that matter are below 2^53 and hence exact, and larger ones only
    take part in comparisons with 32-bit values. *)

From S2P Require Import Prelude.

Definition kFanoutMinimum : Z := 2.
Definition kFanoutMaximum : Z := 255.
Definition kTreeMapperRootValue : Z := 100.

(** A position: level and number. *)
Abbreviation Pos := (Z * Z)%type.

Section Positions.
Context `{Platform}.

Definition getFillLevelRightToLeft (level : Z) : bool := level mod 2 =? 0.

Definition isFanoutValid (fanout : Z) : bool :=
  if fanout <? kFanoutMinimum then false
  else if fanout >? kFanoutMaximum then false
  else true.

Definition isPositionValid (level number fanout : Z) : bool :=
  if negb (isFanoutValid fanout) then false
  else if number >? fanout ^ level - 1 then false
  else true.

Definition calcParent (level number fanout : Z) : outcome Pos :=
  if negb (isPositionValid level number fanout) then Throw (invalid_argument "Invalid Position")
  else if level =? 0 then Throw (invalid_argument "Cannot get the parent of root")
  else
    let t := u32 (number - number mod fanout) in
    let offset := if negb (t mod fanout =? 0) then 1 else 0 in
    let p_number := u32 (t / fanout + offset) in
    let p_level := u32 (level - 1) in
    Ok (p_level, p_number).

(** One iteration of the loop of [calcChildren]. *)
Definition calcChild (c_level number fanout i : Z) : outcome Pos :=
  let c_number := u32 (u32 (number * fanout) + i) in
  if c_number <? number then Throw (invalid_argument "Overflow in Number")
  else Ok (c_level, c_number).

Definition calcChildren (level number fanout : Z) : outcome (list Pos) :=
  if negb (isPositionValid level number fanout) then Throw (invalid_argument "Invalid Position")
  else if level =? UINT32_MAX then Throw (invalid_argument "Overflow in Level")
  else
    let c_level := u32 (level + 1) in
    mapM (calcChild c_level number fanout) (zrange 0 fanout).

Definition calcRoutingSequence (level fanout : Z) : outcome (list Z) :=
  if negb (isFanoutValid fanout) then Throw (invalid_argument "Invalid Fanout")
  else
    Ok (i ← zrange 0 (u32 ((fanout - 1) * level));
        d ← zrange 1 fanout;
        [cvt_u32 (d * fanout ^ i)]).

Fixpoint leftRT_loop (level number : Z) (seq : list Z) : list Pos :=
  match seq with
  | [] => []
  | i :: seq' =>
      if i >? number then [] else (level, number - i) :: leftRT_loop level number seq'
  end.

Definition calcLeftRT (level number fanout : Z) : outcome (list Pos) :=
  if negb (isPositionValid level number fanout) then Throw (invalid_argument "Invalid Position")
  else
    seq ← calcRoutingSequence level fanout;
    mret (leftRT_loop level number seq).

Fixpoint rightRT_loop (level number max_number : Z) (seq : list Z) : outcome (list Pos) :=
  match seq with
  | [] => Ok []
  | i :: seq' =>
      let k := u32 (number + i) in
      if k >=? max_number then Ok []
      else if k <? number then Throw (invalid_argument "Overflow in Number")
      else rrt ← rightRT_loop level number max_number seq'; mret ((level, k) :: rrt)
  end.

Definition calcRightRT (level number fanout : Z) : outcome (list Pos) :=
  if negb (isPositionValid level number fanout) then Throw (invalid_argument "Invalid Position")
  else
    seq ← calcRoutingSequence level fanout;
    let max_number := cvt_u64 (fanout ^ level) in
    rightRT_loop level number max_number seq.

(** The loops of [calcPrioSet] and [getDSNSet] step a [uint32_t] by [2 * fanout] up to the
    largest number of the level. They end after at most [max_num / (2 * fanout) + 2] tests
    unless the counter wraps around; the model gives up (undefined) when that fuel is used up,
    and [getDSNSet_form] and [calcPrioSet_form] show when it is not. *)
Definition step_fuel (max_num fanout : Z) : nat := Z.to_nat (max_num / (2 * fanout) + 2).

Fixpoint prio_loop (fuel : nat) (i max_num fanout : Z) (prio_set : list Z) : outcome (list Z) :=
  if i <=? max_num then
    match fuel with
    | O => Undefined
    | S fuel' =>
        let i' := u32 (i + 2 * fanout) in
        prio_loop fuel' i' max_num fanout
          (if i' <=? max_num then zset_insert i' prio_set else prio_set)
    end
  else Ok prio_set.

Definition calcPrioSet (level fanout : Z) : outcome (list Z) :=
  if level =? 0 then Ok [0]
  else if level =? 1 then Ok [(fanout + 1) / 2]
  else
    let max_num := cvt_u32 (fanout ^ level - 1) in
    prio_set ← prio_loop (step_fuel max_num fanout) fanout max_num fanout [fanout];
    last_prio ← back prio_set;
    mret (if last_prio <? u32 (max_num - fanout)
          then zset_insert (u32 (max_num - fanout)) prio_set else prio_set).

Definition isNodePartOfPrioSet (level number fanout : Z) : outcome bool :=
  prio_set ← calcPrioSet level fanout;
  mret (bool_decide (number ∈ prio_set)).

Fixpoint dsn_loop (fuel : nat) (i max_number fanout : Z) : outcome (list Z) :=
  if i <=? max_number then
    match fuel with
    | O => Undefined
    | S fuel' =>
        rest ← dsn_loop fuel' (u32 (i + 2 * fanout)) max_number fanout;
        mret (i :: rest)
    end
  else Ok [].

Definition getDSNSet (level fanout : Z) : outcome (list Z) :=
  if level mod 2 =? 1 then Ok []
  else if level =? 0 then Ok [0]
  else
    let max_number := cvt_u32 (fanout ^ level - 1) in
    dsn_set ← dsn_loop (step_fuel max_number fanout) fanout max_number fanout;
    last_dsn ← back dsn_set;
    mret (if last_dsn <? u32 (max_number - fanout)
          then dsn_set ++ [u32 (max_number - fanout)] else dsn_set).

(** The part of the level a DSN covers, before the children are added: the nodes to its left
    and those to its right. *)
Definition coverLeft (dsn_set : list Z) (index : nat) (number : Z) : outcome (list Z) :=
  if Nat.eqb index 0 then Ok (zrange 0 number)
  else
    prior ← vec_at dsn_set (index - 1);
    let our_gap := u32 (number - prior) / 2 in
    Ok (zrange (u32 (number - our_gap + 1)) number).

Definition coverRight (dsn_set : list Z) (index : nat) (number max_number : Z)
    : outcome (list Z) :=
  if Nat.eqb index (length dsn_set - 1) then
    if max_number =? UINT32_MAX then Undefined
    else Ok (zrange (number + 1) (max_number + 1))
  else
    after ← vec_at dsn_set (index + 1);
    let our_gap := u32 (after - number) / 2 in
    Ok (zrange (number + 1) (number + our_gap + 1)).

Definition coverLevel (dsn_set : list Z) (index : nat) (number max_number : Z)
    : outcome (list Z) :=
  left_part ← coverLeft dsn_set index number;
  right_part ← coverRight dsn_set index number max_number;
  mret (left_part ++ right_part).

Definition getCoverArea (level number fanout : Z) : outcome (list Pos) :=
  if (level =? 0) && (number =? 0) then Ok (pair 1 <$> zrange 0 fanout)
  else
    dsn_set ← getDSNSet level fanout;
    match find_index (Z.eqb number) dsn_set with
    | None => Ok []
    | Some index =>
        let max_number := cvt_u32 (fanout ^ level - 1) in
        numbers ← coverLevel dsn_set index number max_number;
        let area := pair level <$> numbers in
        covered_children ← mapM (fun c => calcChildren c.1 c.2 fanout) area;
        dsn_children ← calcChildren level number fanout;
        mret (area ++ mjoin covered_children ++ dsn_children)
    end.

Definition getCoveringDSN (level number fanout : Z) : outcome Pos :=
  '(dsn_set, (level, number)) ←
    (if level mod 2 =? 0 then
       dsn_set ← getDSNSet level fanout; mret (dsn_set, (level, number))
     else
       dsn_set ← getDSNSet (level - 1) fanout;
       parent_pos ← calcParent level number fanout;
       mret (dsn_set, parent_pos));
  last_dsn ← back dsn_set;
  let lower := lower_bound Z.ltb dsn_set number in
  at_lower ← vec_at dsn_set lower;
  let is_dsn := at_lower =? number in
  let before_first_dsn := Nat.eqb lower 0 && (number <? at_lower) in
  let after_last_dsn := number >? last_dsn in
  if is_dsn || before_first_dsn then Ok (level, at_lower)
  else if after_last_dsn then Ok (level, last_dsn)
  else
    prior ← vec_at dsn_set (lower - 1);
    let lower_dist := u32 (number - prior) in
    let upper_dist := u32 (at_lower - number) in
    Ok (level, if upper_dist <? lower_dist then at_lower else prior).

End Positions.

(** ** Well-formed positions *)

Definition valid_fanout (f : Z) : Prop := kFanoutMinimum <= f <= kFanoutMaximum.

(** A level whose numbers, and the sums of two of them, fit 32 bits. *)
Definition level_fits (l f : Z) : Prop := 0 <= l /\ 2 * f ^ l <= 2 ^ 32.

Lemma isFanoutValid_spec f : isFanoutValid f = true <-> valid_fanout f.
Proof. unfold isFanoutValid, valid_fanout. repeat case_match; unfold kFanoutMinimum, kFanoutMaximum in *; lia. Qed.

Lemma isPositionValid_spec l n f :
  isPositionValid l n f = true <-> valid_fanout f /\ n < f ^ l.
Proof.
  unfold isPositionValid. rewrite <- isFanoutValid_spec.
  destruct (isFanoutValid f); simpl; [case_match; lia|naive_solver].
Qed.

Lemma valid_position l n f : valid_fanout f -> n < f ^ l -> isPositionValid l n f = true.
Proof. by rewrite isPositionValid_spec. Qed.

Lemma valid_fanout_bounds f : valid_fanout f -> 2 <= f <= 255.
Proof. done. Qed.

Lemma pow_pos f l : valid_fanout f -> 0 <= l -> 0 < f ^ l.
Proof. intros ?%valid_fanout_bounds ?. apply Z.pow_pos_nonneg; lia. Qed.

Lemma pow_S f l : 0 <= l -> f ^ (l + 1) = f ^ l * f.
Proof. intros. rewrite Z.pow_add_r by lia. lia. Qed.

Lemma pow_lt_exp f i l : valid_fanout f -> 0 <= i -> f ^ i < f ^ l -> i < l.
Proof.
  intros ?%valid_fanout_bounds Hi Hlt. destruct (Z_lt_le_dec i l) as [|Hle]; [done|].
  destruct (Z_lt_le_dec l 0).
  - rewrite (Z.pow_neg_r f l) in Hlt by lia. pose proof (Z.pow_pos_nonneg f i). lia.
  - pose proof (Z.pow_le_mono_r f l i ltac:(lia) Hle). lia.
Qed.

(** A level that fits 32 bits is at most level 31. *)
Lemma level_fits_lt l f : valid_fanout f -> level_fits l f -> l < 32.
Proof.
  intros Hf%valid_fanout_bounds [Hl Hfit]. destruct (Z_lt_le_dec l 32) as [|Hle]; [done|].
  pose proof (Z.pow_le_mono_l 2 f 32 ltac:(lia)).
  pose proof (Z.pow_le_mono_r f 32 l ltac:(lia) Hle). lia.
Qed.

(** ** The exact routing sequence

    [d * f^i] for [i < l] and [1 <= d < f], in the order the code produces it. *)
Definition exact_seq (l f : Z) : list Z := i ← zrange 0 l; d ← zrange 1 f; [d * f ^ i].

Definition seq_block (f i : Z) : list Z := d ← zrange 1 f; [d * f ^ i].

Lemma exact_seq_snoc l f : 0 <= l -> exact_seq (l + 1) f = exact_seq l f ++ seq_block f l.
Proof.
  intros. unfold exact_seq. rewrite zrange_snoc by lia.
  rewrite bind_app, bind_singleton. done.
Qed.

Lemma elem_of_seq_block f i x : x ∈ seq_block f i <-> exists d, 1 <= d < f /\ x = d * f ^ i.
Proof.
  unfold seq_block. rewrite elem_of_list_bind_Z. setoid_rewrite elem_of_zrange.
  setoid_rewrite list_elem_of_singleton. done.
Qed.

Lemma elem_of_exact_seq l f x :
  x ∈ exact_seq l f <-> exists i d, 0 <= i < l /\ 1 <= d < f /\ x = d * f ^ i.
Proof.
  unfold exact_seq. rewrite elem_of_list_bind_Z. setoid_rewrite elem_of_zrange.
  change (fun i => d ← zrange 1 f; [d * f ^ i]) with (seq_block f).
  split.
  - intros (i & Hi & Hx). apply (elem_of_seq_block f i x) in Hx as (d & ? & ->). eauto.
  - intros (i & d & Hi & Hd & ->). exists i. split; [done|].
    apply (elem_of_seq_block f i). eauto.
Qed.

Lemma seq_block_sorted f i : 0 < f ^ i -> StronglySorted Z.lt (seq_block f i).
Proof.
  intros Hp. unfold seq_block. destruct (Z_le_gt_dec 1 f) as [Hf|]; [|rewrite zrange_nil by lia; constructor].
  revert f Hf Hp. intros f Hf Hp.
  assert (Hg : forall b, 1 <= b -> StronglySorted Z.lt (d ← zrange 1 b; [d * f ^ i])); [|by apply Hg].
  apply zrange_ind; [rewrite zrange_nil by lia; constructor|].
  intros b Hb IH. rewrite zrange_snoc, bind_app, bind_singleton by lia.
  apply StronglySorted_snoc_lt; [done|]. intros y Hy.
  apply elem_of_list_bind_Z in Hy as (d & Hd%elem_of_zrange & ->%list_elem_of_singleton). nia.
Qed.

Lemma exact_seq_bound l f x : valid_fanout f -> 0 <= l -> x ∈ exact_seq l f -> 1 <= x < f ^ l.
Proof.
  intros Hf Hl (i & d & Hi & Hd & ->)%elem_of_exact_seq.
  pose proof (pow_pos f i Hf ltac:(lia)). split; [nia|].
  apply Z.lt_le_trans with (f * f ^ i); [nia|].
  rewrite <- Z.pow_succ_r by lia. apply valid_fanout_bounds in Hf.
  apply Z.pow_le_mono_r; lia.
Qed.

Lemma exact_seq_sorted l f : valid_fanout f -> 0 <= l -> StronglySorted Z.lt (exact_seq l f).
Proof.
  intros Hf. revert l. apply zrange_ind; [constructor|]. intros l Hl IH.
  rewrite exact_seq_snoc by done.
  pose proof (pow_pos f l Hf Hl). apply StronglySorted_app_lt; [done|by apply seq_block_sorted|].
  intros x y Hx (d & Hd & ->)%elem_of_seq_block.
  pose proof (exact_seq_bound l f x Hf Hl Hx). nia.
Qed.

Lemma exact_seq_cvt `{Platform} l f :
  valid_fanout f -> 0 <= l -> f ^ l < 2 ^ 32 ->
  (i ← zrange 0 l; d ← zrange 1 f; [cvt_u32 (d * f ^ i)]) = exact_seq l f.
Proof.
  intros Hf Hl Hfit. unfold exact_seq.
  revert Hfit. pattern l. revert l Hl. apply zrange_ind; [done|].
  intros l Hl IH Hfit. rewrite zrange_snoc by done. rewrite !bind_app, !bind_singleton.
  pose proof (pow_pos f l Hf Hl) as Hp. rewrite pow_S in Hfit by done.
  pose proof (valid_fanout_bounds f Hf).
  f_equal; [apply IH; nia|].
  assert (Hg : forall b, 1 <= b -> b <= f ->
    (d ← zrange 1 b; [cvt_u32 (d * f ^ l)]) = d ← zrange 1 b; [d * f ^ l]); [|apply Hg; lia].
  apply (zrange_ind 1 (fun b => b <= f -> _)); [done|].
  intros b Hb IHb Hbf. rewrite zrange_snoc, !bind_app, !bind_singleton by lia.
  rewrite IHb by lia. rewrite cvt_u32_in; [done|]. unfold in_u32. nia.
Qed.

(** The list the code computes starts with the exact sequence; what follows, if anything, starts
    with the capacity of the level. *)
Lemma calcRoutingSequence_prefix `{Platform} l f :
  valid_fanout f -> level_fits l f ->
  exists rest, calcRoutingSequence l f = Ok (exact_seq l f ++ rest) /\
    (rest = [] \/ exists rest', rest = f ^ l :: rest').
Proof.
  intros Hf Hfit. pose proof (level_fits_lt l f Hf Hfit) as Hl32. destruct Hfit as [Hl Hfit].
  pose proof (valid_fanout_bounds f Hf) as Hb. pose proof (pow_pos f l Hf Hl) as Hp.
  unfold calcRoutingSequence. rewrite (proj2 (isFanoutValid_spec f) Hf). simpl.
  rewrite u32_id by (unfold in_u32; nia).
  rewrite (zrange_app 0 l), bind_app, exact_seq_cvt by (done || nia).
  eexists. split; [done|].
  destruct (Z_lt_le_dec l ((f - 1) * l)); [right|left; by rewrite (zrange_nil l) by lia].
  rewrite (zrange_cons l), bind_cons, (zrange_cons 1 f), bind_cons by lia. simpl.
  rewrite Z.mul_1_l, cvt_u32_in by (unfold in_u32; lia). eauto.
Qed.

(** ** Routing tables *)

Lemma elem_of_leftRT_loop l n s rest p :
  StronglySorted Z.lt s -> (forall x, head rest = Some x -> n < x) ->
  p ∈ leftRT_loop l n (s ++ rest) <-> exists i, i ∈ s /\ i <= n /\ p = (l, n - i).
Proof.
  intros Hs Hrest. induction Hs as [|x s Hs IH Hx]; simpl.
  - assert (leftRT_loop l n rest = []) as ->.
    { destruct rest as [|y rest]; simpl; [done|]. specialize (Hrest y eq_refl).
      case_match; [done|lia]. }
    set_solver.
  - rewrite Forall_forall in Hx. destruct (x >? n) eqn:E.
    + split; [set_solver|]. intros (i & [->|Hi]%elem_of_cons & ? & _); [lia|].
      specialize (Hx i Hi). lia.
    + rewrite elem_of_cons, IH. split.
      * intros [->|(i & ? & ? & ->)]; [exists x|exists i]; set_solver by lia.
      * intros (i & [->|Hi]%elem_of_cons & ? & ->); eauto.
Qed.

Lemma rightRT_loop_elem l n max s rest :
  StronglySorted Z.lt s -> (forall x, x ∈ s -> 0 <= n + x < 2 ^ 32 /\ 0 <= x) ->
  (forall x, head rest = Some x -> max <= u32 (n + x)) ->
  exists rrt, rightRT_loop l n max (s ++ rest) = Ok rrt /\
    forall p, p ∈ rrt <-> exists i, i ∈ s /\ n + i < max /\ p = (l, n + i).
Proof.
  intros Hs Hin Hrest. induction Hs as [|x s Hs IH Hx]; simpl.
  - exists []. split; [|set_solver]. destruct rest as [|y rest]; simpl; [done|].
    specialize (Hrest y eq_refl). case_match; [done|lia].
  - rewrite Forall_forall in Hx. destruct (Hin x) as [? ?]; [set_solver|].
    rewrite u32_id by done. destruct (n + x >=? max) eqn:E.
    + exists []. split; [done|]. intros p. split; [set_solver|].
      intros (i & [->|Hi]%elem_of_cons & ? & _); [lia|]. specialize (Hx i Hi). lia.
    + destruct (Z.ltb_spec (n + x) n); [lia|].
      destruct IH as (rrt & -> & Hrrt); [intros; apply Hin; set_solver|].
      simpl. eexists. split; [done|]. intros p. rewrite elem_of_cons, Hrrt. split.
      * intros [->|(i & ? & ? & ->)]; [exists x|exists i]; set_solver by lia.
      * intros (i & [->|Hi]%elem_of_cons & ? & ->); eauto.
Qed.

(** A routing-table distance: [d * f^i] with [1 <= d < f]. *)
Definition rt_distance (f x : Z) : Prop := exists i d, 0 <= i /\ 1 <= d < f /\ x = d * f ^ i.

Lemma rt_distance_exact l f x :
  valid_fanout f -> 0 <= l -> x < f ^ l -> rt_distance f x <-> x ∈ exact_seq l f.
Proof.
  intros Hf Hl Hx. rewrite elem_of_exact_seq. unfold rt_distance. split; [|naive_solver].
  intros (i & d & Hi & Hd & ->). exists i, d. split; [|done]. split; [done|].
  pose proof (pow_pos f i Hf Hi). apply (pow_lt_exp f i l Hf Hi). nia.
Qed.

Section RoutingTables.
Context `{Platform} (l f : Z) (Hf : valid_fanout f) (Hfit : level_fits l f).

Lemma calcLeftRT_elem n :
  0 <= n < f ^ l ->
  exists lrt, calcLeftRT l n f = Ok lrt /\
    forall p, p ∈ lrt <-> exists x, rt_distance f x /\ x <= n /\ p = (l, n - x).
Proof.
  intros Hn. unfold calcLeftRT.
  rewrite valid_position by (done || lia). simpl.
  destruct (calcRoutingSequence_prefix l f Hf Hfit) as (rest & -> & Hrest). simpl.
  destruct Hfit as [Hl _]. eexists. split; [done|]. intros p.
  rewrite elem_of_leftRT_loop; [|by apply exact_seq_sorted|].
  - split; intros (x & Hx & Hxn & ->); exists x; (split; [|done]).
    + destruct (exact_seq_bound l f x Hf Hl Hx). by apply (rt_distance_exact l).
    + assert (x < f ^ l) by lia. by apply (rt_distance_exact l) in Hx.
  - destruct Hrest as [->|[rest' ->]]; simpl; [done|]. intros x [= <-]. lia.
Qed.

Lemma calcRightRT_elem n :
  0 <= n < f ^ l ->
  exists rrt, calcRightRT l n f = Ok rrt /\
    forall p, p ∈ rrt <-> exists x, rt_distance f x /\ n + x < f ^ l /\ p = (l, n + x).
Proof.
  intros Hn. unfold calcRightRT.
  rewrite valid_position by (done || lia). simpl.
  destruct (calcRoutingSequence_prefix l f Hf Hfit) as (rest & -> & Hrest). simpl.
  destruct Hfit as [Hl Hfit']. pose proof (pow_pos f l Hf Hl).
  rewrite cvt_u64_in by lia.
  destruct (rightRT_loop_elem l n (f ^ l) (exact_seq l f) rest) as (rrt & -> & Hrrt).
  - by apply exact_seq_sorted.
  - intros x Hx. pose proof (exact_seq_bound l f x Hf Hl Hx). lia.
  - destruct Hrest as [->|[rest' ->]]; simpl; [done|]. intros x [= <-].
    rewrite u32_id by (unfold in_u32; lia). lia.
  - eexists. split; [done|]. intros p. rewrite Hrrt.
    split; intros (x & Hx & Hxn & ->); exists x; (split; [|done]).
    + destruct (exact_seq_bound l f x Hf Hl Hx). by apply (rt_distance_exact l).
    + assert (x < f ^ l) by lia. by apply (rt_distance_exact l) in Hx.
Qed.

End RoutingTables.

(** Membership in the outcome of a call: it returned, and the list holds the element. *)
Definition returned_in {A} (x : A) (m : outcome (list A)) : Prop :=
  match m with Ok l => x ∈ l | _ => False end.

(** The left and the right routing table describe one neighbour relation: on a level whose
    numbers fit 32 bits, position [m] is in the right routing table of [n] exactly when [n] is
    in the left routing table of [m]. *)
Theorem routing_tables_symmetric `{Platform} l f n m :
  valid_fanout f -> level_fits l f -> 0 <= n < f ^ l -> 0 <= m < f ^ l ->
  returned_in (l, m) (calcRightRT l n f) <-> returned_in (l, n) (calcLeftRT l m f).
Proof.
  intros Hf Hfit Hn Hm.
  destruct (calcRightRT_elem l f Hf Hfit n Hn) as (rrt & -> & Hr).
  destruct (calcLeftRT_elem l f Hf Hfit m Hm) as (lrt & -> & Hl). simpl.
  rewrite Hr, Hl. split; intros (x & Hx & Hlt & [= E]); exists x; (split; [done|]);
    (split; [lia|f_equal; lia]).
Qed.

Section OnX86.
#[local] Existing Instance x86_64.

Lemma routing_tables_symmetric_witness :
  returned_in (3, 7) (calcRightRT 3 5 2) <-> returned_in (3, 5) (calcLeftRT 3 7 2).
Proof. apply (routing_tables_symmetric 3 2 5 7); unfold valid_fanout, level_fits; vm_compute; intuition congruence. Defined.

End OnX86.

(** ** Parents and children *)

Lemma calcParent_div l n f :
  valid_fanout f -> 0 < l < 2 ^ 32 -> 0 <= n < f ^ l -> n < 2 ^ 32 ->
  calcParent l n f = Ok (l - 1, n / f).
Proof.
  intros Hf Hl Hn Hn32. unfold calcParent. pose proof (valid_fanout_bounds f Hf).
  rewrite valid_position by (done || lia). simpl.
  rewrite (proj2 (Z.eqb_neq l 0)) by lia.
  pose proof (Z.div_mod n f ltac:(lia)). pose proof (Z.mod_pos_bound n f ltac:(lia)).
  pose proof (Z.div_pos n f ltac:(lia) ltac:(lia)).
  rewrite (u32_id (n - n mod f)) by (unfold in_u32; lia).
  replace (n - n mod f) with (n / f * f) by lia.
  rewrite Z.mod_mul, Z.div_mul by lia. simpl. rewrite Z.add_0_r.
  rewrite !u32_id by (unfold in_u32; nia). done.
Qed.

Lemma calcChildren_fits l n f :
  valid_fanout f -> level_fits (l + 1) f -> 0 <= l -> 0 <= n < f ^ l ->
  calcChildren l n f = Ok ((fun i => (l + 1, n * f + i)) <$> zrange 0 f).
Proof.
  intros Hf Hfit Hl Hn. pose proof (level_fits_lt _ _ Hf Hfit). destruct Hfit as [_ Hfit].
  rewrite pow_S in Hfit by done. pose proof (valid_fanout_bounds f Hf).
  unfold calcChildren. rewrite valid_position by (done || lia). simpl.
  rewrite (proj2 (Z.eqb_neq l UINT32_MAX)) by (unfold UINT32_MAX; lia).
  rewrite (u32_id (l + 1)) by (unfold in_u32; lia).
  assert (Hg : forall b, 0 <= b -> b <= f ->
    mapM (calcChild (l + 1) n f) (zrange 0 b) = Ok ((fun i => (l + 1, n * f + i)) <$> zrange 0 b));
    [|apply Hg; lia].
  apply (zrange_ind 0 (fun b => b <= f -> _)); [done|]. intros b Hb IH Hbf.
  rewrite zrange_snoc, fmap_app by lia. rewrite mapM_app_outcome, IH by lia. simpl.
  unfold calcChild. rewrite (u32_id (n * f)) by (unfold in_u32; nia).
  rewrite u32_id by (unfold in_u32; nia). case_match; [nia|]. done.
Qed.

(** C35: parents and children are inverse, on the levels that fit 32 bits with a bit to spare ([2 * f ^ (l + 1) <= 2 ^ 32]
    for the fanout [f]): for valid positions of two such levels, one is
    among the children [calcChildren] lists for the other exactly if that is its [calcParent]. *)
Theorem children_parent_roundtrip l n m f :
  valid_fanout f -> level_fits (l + 1) f -> 0 <= l -> 0 <= n < f ^ l -> 0 <= m < f ^ (l + 1) ->
  returned_in (l + 1, m) (calcChildren l n f) <-> calcParent (l + 1) m f = Ok (l, n).
Proof.
  intros Hf Hfit Hl Hn Hm. pose proof (level_fits_lt _ _ Hf Hfit).
  rewrite calcChildren_fits by done. destruct Hfit as [_ Hfit].
  rewrite calcParent_div by (done || lia). simpl. rewrite list_elem_of_fmap.
  setoid_rewrite elem_of_zrange. pose proof (valid_fanout_bounds f Hf).
  replace (l + 1 - 1) with l by lia. split.
  - intros (i & [= ->] & Hi). f_equal. f_equal.
    rewrite Z.div_add_l, (Z.div_small i) by lia. lia.
  - intros [= <-]. exists (m mod f).
    pose proof (Z.mod_pos_bound m f ltac:(lia)). pose proof (Z.div_mod m f ltac:(lia)).
    split; [f_equal; lia|lia].
Qed.

Lemma children_parent_roundtrip_witness :
  returned_in (2, 5) (calcChildren 1 1 3) <-> calcParent 2 5 3 = Ok (1, 1).
Proof. apply (children_parent_roundtrip 1 1 5 3); unfold valid_fanout, level_fits; vm_compute; intuition congruence. Defined.

(** ** Data-storing nodes *)

(** [f], [3f], [5f], ...: the first [k] odd multiples of the fanout. *)
Definition odd_multiples (f i : Z) (k : nat) : list Z :=
  (fun j => i + 2 * f * Z.of_nat j) <$> seq 0 k.

Lemma odd_multiples_S f i k : odd_multiples f i (S k) = i :: odd_multiples f (i + 2 * f) k.
Proof.
  unfold odd_multiples. rewrite <- cons_seq, fmap_cons. f_equal; [lia|].
  rewrite <- fmap_S_seq, <- list_fmap_compose. apply list_fmap_ext. intros. simpl. lia.
Qed.

Lemma dsn_loop_odd_multiples f max k fuel i :
  0 < f -> 0 <= i -> (k <= fuel)%nat ->
  max < i + 2 * f * Z.of_nat k -> i + 2 * f * Z.of_nat k < 2 ^ 32 ->
  (k <> 0%nat -> i + 2 * f * (Z.of_nat k - 1) <= max) ->
  dsn_loop fuel i max f = Ok (odd_multiples f i k).
Proof.
  revert fuel i. induction k as [|k IH]; intros fuel i Hf Hi Hfuel Hmax Hwrap Hk.
  - destruct fuel; simpl; (case_match; [lia|done]).
  - destruct fuel as [|fuel]; [lia|]. simpl.
    specialize (Hk ltac:(lia)). case_match; [|nia].
    rewrite u32_id by (unfold in_u32; nia).
    rewrite (IH fuel (i + 2 * f)) by nia. simpl. by rewrite odd_multiples_S.
Qed.

(** The last multiple below the end of the level is not the last DSN when the fanout is odd. *)
Definition dsn_tail (l f : Z) : list Z := if Z.odd f then [f ^ l - 1 - f] else [].
Definition dsn_count (l f : Z) : nat := Z.to_nat (f ^ (l - 1) / 2).

Section DSN.
Context `{Platform} (l f : Z) (Hf : valid_fanout f) (Hl : 1 < l).

Lemma dsn_arith :
  exists q, f ^ (l - 1) = 2 * q + (if Z.odd f then 1 else 0) /\ 1 <= q /\
    dsn_count l f = Z.to_nat q /\ f ^ l = f ^ (l - 1) * f.
Proof.
  pose proof (valid_fanout_bounds f Hf).
  assert (Hodd : Z.odd (f ^ (l - 1)) = Z.odd f).
  { rewrite Z.odd_pow by lia. done. }
  pose proof (Z.div2_odd (f ^ (l - 1))) as Hd. rewrite Hodd in Hd.
  rewrite Z.div2_div in Hd. unfold Z.b2z in Hd.
  exists (f ^ (l - 1) / 2). split; [by destruct (Z.odd f)|].
  assert (f ^ 1 <= f ^ (l - 1)) as Hge by (apply Z.pow_le_mono_r; lia).
  rewrite Z.pow_1_r in Hge. split; [apply Z.div_le_lower_bound; lia|]. split; [done|].
  rewrite <- pow_S by lia. f_equal. lia.
Qed.

Context (Hfit : level_fits l f).

(** The loop of [getDSNSet] ends, with the odd multiples of the fanout. *)
Lemma getDSNSet_form :
  l mod 2 = 0 -> getDSNSet l f = Ok (odd_multiples f f (dsn_count l f) ++ dsn_tail l f).
Proof.
  intros Heven.
  destruct dsn_arith as (q & Hq & Hq1 & Hc & Hpow). rewrite Hc. destruct Hfit as [_ Hfit'].
  assert (2 * q <= f ^ (l - 1) <= 2 * q + 1) by (destruct (Z.odd f); lia).
  pose proof (valid_fanout_bounds f Hf).
  unfold getDSNSet. rewrite Heven. simpl. rewrite (proj2 (Z.eqb_neq l 0)) by lia.
  rewrite cvt_u32_in by (unfold in_u32; nia).
  rewrite (dsn_loop_odd_multiples f (f ^ l - 1) (Z.to_nat q)); try nia.
  - simpl. unfold back.
    destruct (Z.to_nat q) as [|k] eqn:Ek; [lia|].
    assert (last (odd_multiples f f (S k)) = Some (f + 2 * f * Z.of_nat k)) as ->.
    { unfold odd_multiples. rewrite seq_S, fmap_app. simpl. by rewrite last_snoc. }
    simpl. rewrite u32_id by (unfold in_u32; nia).
    unfold dsn_tail. destruct (Z.odd f) eqn:Eo.
    + rewrite (proj2 (Z.ltb_lt _ _)) by nia. done.
    + rewrite (proj2 (Z.ltb_ge _ _)) by nia. by rewrite app_nil_r.
  - unfold step_fuel.
    assert (q - 1 <= (f ^ l - 1) / (2 * f)) by (apply Z.div_le_lower_bound; nia). lia.
Qed.

(** The loop of [calcPrioSet] appends to the set. *)
Lemma zset_insert_snoc x (s : list Z) : (forall y, y ∈ s -> y < x) -> zset_insert x s = s ++ [x].
Proof.
  induction s as [|y s IH]; intros Hs; simpl; [done|].
  pose proof (Hs y ltac:(set_solver)). do 2 (case_match; [lia|]). f_equal. apply IH. set_solver.
Qed.

Lemma prio_loop_odd_multiples max k fuel i s :
  0 <= i <= max -> (S k <= fuel)%nat -> (forall y, y ∈ s -> y <= i) ->
  max < i + 2 * f * Z.of_nat (S k) -> i + 2 * f * Z.of_nat (S k) < 2 ^ 32 ->
  i + 2 * f * Z.of_nat k <= max ->
  prio_loop fuel i max f s = Ok (s ++ odd_multiples f (i + 2 * f) k).
Proof.
  pose proof (valid_fanout_bounds f Hf) as Hb.
  revert fuel i s. induction k as [|k IH]; intros fuel i s Hi Hfuel Hs Hmax Hwrap Hk.
  - destruct fuel as [|fuel]; [lia|]. simpl. case_match; [|lia].
    rewrite u32_id by (unfold in_u32; lia). case_match; [lia|].
    destruct fuel; simpl; (case_match; [lia|]); by rewrite app_nil_r.
  - destruct fuel as [|fuel]; [lia|]. simpl. case_match; [|lia].
    rewrite u32_id by (unfold in_u32; nia). case_match; [|nia].
    rewrite zset_insert_snoc by (intros y Hy; specialize (Hs y Hy); lia).
    rewrite (IH fuel (i + 2 * f)); try nia.
    + by rewrite odd_multiples_S, <- app_assoc.
    + intros y [Hy| ->%list_elem_of_singleton]%elem_of_app; [specialize (Hs y Hy); lia|lia].
Qed.

Lemma calcPrioSet_form :
  calcPrioSet l f = Ok (odd_multiples f f (dsn_count l f) ++ dsn_tail l f).
Proof.
  destruct dsn_arith as (q & Hq & Hq1 & Hc & Hpow). rewrite Hc. destruct Hfit as [_ Hfit'].
  assert (2 * q <= f ^ (l - 1) <= 2 * q + 1) by (destruct (Z.odd f); lia).
  pose proof (valid_fanout_bounds f Hf).
  unfold calcPrioSet. rewrite !(proj2 (Z.eqb_neq _ _)) by lia.
  rewrite cvt_u32_in by (unfold in_u32; nia).
  destruct (Z.to_nat q) as [|k] eqn:Ek; [lia|].
  rewrite (prio_loop_odd_multiples (f ^ l - 1) k); try nia.
  - change ([f] ++ odd_multiples f (f + 2 * f) k) with (f :: odd_multiples f (f + 2 * f) k).
    rewrite <- odd_multiples_S. unfold mbind, outcome_bind, back.
    assert (last (odd_multiples f f (S k)) = Some (f + 2 * f * Z.of_nat k)) as ->.
    { unfold odd_multiples. rewrite seq_S, fmap_app. simpl. by rewrite last_snoc. }
    rewrite u32_id by (unfold in_u32; nia).
    unfold dsn_tail. destruct (Z.odd f) eqn:Eo.
    + rewrite (proj2 (Z.ltb_lt _ _)) by nia. unfold mret, outcome_ret. f_equal. apply zset_insert_snoc.
      intros y (j & -> & Hj%elem_of_seq)%list_elem_of_fmap. nia.
    + rewrite (proj2 (Z.ltb_ge _ _)) by nia. by rewrite app_nil_r.
  - unfold step_fuel.
    assert (q - 1 <= (f ^ l - 1) / (2 * f)) by (apply Z.div_le_lower_bound; nia). lia.
  - set_solver.
Qed.

End DSN.

(** On the even levels below the root the data-storing nodes are the priority nodes: the
    two loops end and compute the same numbers. *)
Theorem dsn_set_is_prio_set `{Platform} l f :
  valid_fanout f -> level_fits l f -> 0 < l -> l mod 2 = 0 ->
  exists D, getDSNSet l f = Ok D /\ calcPrioSet l f = Ok D.
Proof.
  intros Hf Hfit Hl Heven. assert (1 < l) by (destruct (decide (l = 1)) as [->|]; [done|lia]).
  eexists. split; [by apply getDSNSet_form|by apply calcPrioSet_form].
Qed.

Section OnX86.
#[local] Existing Instance x86_64.

Lemma dsn_set_is_prio_set_witness :
  exists D, getDSNSet 2 5 = Ok D /\ calcPrioSet 2 5 = Ok D.
Proof. apply (dsn_set_is_prio_set 2 5); unfold valid_fanout, level_fits; vm_compute; intuition congruence. Defined.

End OnX86.

(** On a level whose last number is the largest [uint32_t], such as level 32 of a binary
    tree, the counter of [calcPrioSet] wraps around and its loop never ends: no number of
    iterations reaches the exit. *)
Theorem calcPrioSet_diverges fuel i f prio_set :
  in_u32 i -> prio_loop fuel i UINT32_MAX f prio_set = Undefined.
Proof.
  revert i prio_set. induction fuel as [|fuel IH]; intros i s Hi; simpl;
    (case_match; [|unfold in_u32, UINT32_MAX in *; lia]); [done|].
  apply IH, u32_range.
Qed.

Lemma calcPrioSet_diverges_witness :
  prio_loop 1000 2 (2 ^ 32 - 1) 2 [2] = Undefined.
Proof. apply (calcPrioSet_diverges 1000 2 2 [2]). vm_compute. intuition congruence. Defined.


Section Covering.
Context `{Platform} (l f : Z) (Hf : valid_fanout f) (Hfit : level_fits l f).
Context (Heven : l mod 2 = 0) (Hl : 1 < l).

Definition dsns : list Z := odd_multiples f f (dsn_count l f) ++ dsn_tail l f.

Lemma dsns_lookup i x :
  dsns !! i = Some x ->
  (i < dsn_count l f)%nat /\ x = f + 2 * f * Z.of_nat i \/
  i = dsn_count l f /\ Z.odd f = true /\ x = f ^ l - 1 - f.
Proof.
  unfold dsns. intros [Hx|[Hlen Hx]]%lookup_app_Some.
  - left. unfold odd_multiples in Hx. rewrite list_lookup_fmap in Hx.
    apply fmap_Some in Hx as (j & Hj & ->). apply lookup_seq in Hj as [-> ?]. split; [lia|f_equal; lia].
  - right. unfold odd_multiples in *. rewrite length_fmap, length_seq in *.
    unfold dsn_tail in Hx. destruct (Z.odd f); [|done].
    apply list_lookup_singleton_Some in Hx as [Hi <-]. split; [lia|done].
Qed.

Lemma dsns_increasing : increasing_at dsns.
Proof.
  intros i j x y Hij Hx Hy. pose proof (valid_fanout_bounds f Hf).
  destruct (dsn_arith l f) as (q & Hq & Hq1 & Hc & Hpow); [done..|].
  apply dsns_lookup in Hx, Hy. rewrite Hc in *.
  destruct Hx as [[? ->]|(? & _ & ->)], Hy as [[? ->]|(? & Ho & ->)]; [nia| |lia..].
  rewrite Ho in Hq. nia.
Qed.

Lemma dsns_even_gap i x y : dsns !! i = Some x -> dsns !! S i = Some y -> (y - x) mod 2 = 0.
Proof.
  intros Hx Hy. destruct (dsn_arith l f) as (q & Hq & Hq1 & Hc & Hpow); [done..|].
  apply dsns_lookup in Hx, Hy. rewrite Hc in *.
  destruct Hx as [[? ->]|(? & _ & ->)], Hy as [[? ->]|(? & Ho & ->)]; try lia.
  - replace (f + 2 * f * Z.of_nat (S i) - _) with (f * 2) by nia. by rewrite Z.mod_mul.
  - rewrite Ho in Hq. pose proof (Zodd_bool_iff f) as [Hodd _].
    destruct (Zodd_ex f (Hodd Ho)) as [h Hh].
    replace (_ - _) with (h * 2) by nia. by rewrite Z.mod_mul.
Qed.

Lemma dsns_bounds i x : dsns !! i = Some x -> 0 < x < f ^ l.
Proof.
  intros Hx%dsns_lookup. pose proof (valid_fanout_bounds f Hf).
  destruct (dsn_arith l f) as (q & Hq & Hq1 & Hc & Hpow); [done..|]. rewrite Hc in *.
  assert (2 * q <= f ^ (l - 1) <= 2 * q + 1) by (destruct (Z.odd f); lia).
  destruct Hx as [[? ->]|(_ & Ho & ->)]; [nia|]. rewrite Ho in Hq. nia.
Qed.

Lemma in_u32_diff a b : 0 <= b <= a -> a < f ^ l -> u32 (a - b) = a - b.
Proof. intros. destruct Hfit. apply u32_id. unfold in_u32. lia. Qed.

(** [getCoveringDSN] on an even level, with the DSN vector computed. *)
Lemma getCoveringDSN_even n :
  getCoveringDSN l n f =
    (last_dsn ← back dsns;
     at_lower ← vec_at dsns (lower_bound Z.ltb dsns n);
     if (at_lower =? n) || (Nat.eqb (lower_bound Z.ltb dsns n) 0 && (n <? at_lower))
     then Ok (l, at_lower)
     else if n >? last_dsn then Ok (l, last_dsn)
     else
       prior ← vec_at dsns (lower_bound Z.ltb dsns n - 1);
       Ok (l, if u32 (at_lower - n) <? u32 (n - prior) then at_lower else prior)).
Proof.
  unfold getCoveringDSN. rewrite Heven. simpl.
  rewrite getDSNSet_form by done. done.
Qed.

Lemma vec_at_Some {A} (v : list A) i x : v !! i = Some x -> vec_at v i = Ok x.
Proof. unfold vec_at. by intros ->. Qed.

(** The numbers a DSN covers on its own level. *)
Definition covers (k : nat) (d n : Z) : Prop :=
  n = d \/
  (n < d /\ forall p, (0 < k)%nat -> dsns !! (k - 1)%nat = Some p -> d - (d - p) / 2 < n) \/
  (d < n /\ forall a, dsns !! S k = Some a -> n <= d + (a - d) / 2).

Lemma back_dsns last : back dsns = Ok last -> dsns !! (length dsns - 1)%nat = Some last.
Proof.
  unfold back. rewrite last_lookup, <- Nat.sub_1_r. by destruct (dsns !! _); intros [= ->].
Qed.

(** Where the search lands decides the covering DSN. *)
Lemma covering_at i a n last :
  0 <= n <= last -> back dsns = Ok last -> dsns !! i = Some a -> n <= a ->
  (forall p, (0 < i)%nat -> dsns !! (i - 1)%nat = Some p -> p < n) ->
  exists d, getCoveringDSN l n f = Ok (l, d) /\
    ((n = a \/ i = 0%nat) /\ d = a \/
     n < a /\ exists p, (0 < i)%nat /\ dsns !! (i - 1)%nat = Some p /\
       d = if a - n <? n - p then a else p).
Proof.
  intros Hn Hlast Ha Hna Hlo.
  assert (Hlb : lower_bound Z.ltb dsns n = i).
  { apply lower_bound_at; [apply dsns_increasing| |done|].
    - apply lookup_lt_Some in Ha. lia.
    - intros x Hx. congruence. }
  pose proof (dsns_bounds i a Ha). rewrite getCoveringDSN_even, Hlast, Hlb.
  rewrite (vec_at_Some _ _ _ Ha). simpl.
  destruct (Z.eqb_spec a n) as [->|Han]; simpl; [exists n; eauto|].
  destruct (Nat.eqb_spec i 0) as [->|Hi]; simpl.
  { rewrite (proj2 (Z.ltb_lt n a)) by lia. eauto 6. }
  case_match; [lia|].
  destruct (lookup_lt_is_Some_2 dsns (i - 1)) as [p Hp].
  { apply lookup_lt_Some in Ha. lia. }
  rewrite (vec_at_Some _ _ _ Hp). simpl. pose proof (Hlo p ltac:(lia) Hp).
  pose proof (dsns_bounds _ p Hp).
  rewrite (in_u32_diff a n), (in_u32_diff n p) by lia.
  eexists. split; [done|]. right. split; [lia|]. exists p. split; [lia|done].
Qed.

Lemma covers_covering k d n last :
  0 <= n <= last -> back dsns = Ok last -> dsns !! k = Some d ->
  covers k d n -> getCoveringDSN l n f = Ok (l, d).
Proof.
  intros Hn Hlast Hk Hc. pose proof dsns_increasing as Hinc.
  destruct Hc as [->|[[Hlt Hc]|[Hlt Hc]]].
  - destruct (covering_at k d d last) as (d' & -> & Hd'); [done|done|done|lia| |].
    + intros p Hk0 Hp. apply (Hinc (k - 1)%nat k); [lia|done..].
    + destruct Hd' as [[_ ->]|(? & _)]; [done|lia].
  - destruct (covering_at k d n last) as (d' & -> & Hd'); [done|done|done|lia| |].
    + intros p Hk0 Hp. specialize (Hc p Hk0 Hp).
      pose proof (Hinc (k - 1)%nat k p d ltac:(lia) Hp Hk). divlia.
    + destruct Hd' as [[_ ->]|(? & p & Hk0 & Hp & ->)]; [done|].
      specialize (Hc p Hk0 Hp).
      assert ((d - p) mod 2 = 0).
      { apply (dsns_even_gap (k - 1)); [done|]. by replace (S (k - 1)) with k by lia. }
      rewrite (proj2 (Z.ltb_lt _ _)) by divlia. done.
  - destruct (dsns !! S k) as [a|] eqn:Ha.
    2:{ pose proof (back_dsns last Hlast) as Hll. apply lookup_ge_None in Ha.
        pose proof (lookup_lt_Some _ _ _ Hk). replace (length dsns - 1)%nat with k in Hll by lia.
        assert (d = last) by congruence. divlia. }
    specialize (Hc a eq_refl). pose proof (Hinc k (S k) d a ltac:(lia) Hk Ha).
    destruct (covering_at (S k) a n last) as (d' & -> & Hd'); [done|done|done|divlia| |].
    + intros p _ Hp. simpl in Hp. rewrite Nat.sub_0_r in Hp. congruence.
    + destruct Hd' as [[[?|?] _]|(? & p & _ & Hp & ->)]; [divlia|done|].
      simpl in Hp. rewrite Nat.sub_0_r in Hp. assert (p = d) as -> by congruence.
      rewrite (proj2 (Z.ltb_ge _ _)) by divlia. done.
Qed.

Lemma covering_covers k d n last :
  0 <= n <= last -> back dsns = Ok last -> dsns !! k = Some d ->
  getCoveringDSN l n f = Ok (l, d) -> covers k d n.
Proof.
  intros Hn Hlast Hk Hcov. pose proof dsns_increasing as Hinc.
  destruct (lower_bound_at_spec dsns n Hinc) as (Hlen & Hlo & Hhi).
  revert Hlen Hlo Hhi. generalize (lower_bound Z.ltb dsns n). intros i Hlen Hlo Hhi.
  pose proof (back_dsns last Hlast) as Hll. pose proof (lookup_lt_Some _ _ _ Hll).
  destruct (dsns !! i) as [a|] eqn:Ha.
  2:{ apply lookup_ge_None in Ha. replace i with (length dsns) in Hlo by lia.
      specialize (Hlo last ltac:(lia) Hll). lia. }
  specialize (Hhi a eq_refl).
  destruct (covering_at i a n last Hn Hlast Ha Hhi Hlo) as (d' & Hd & Hd').
  rewrite Hd in Hcov. injection Hcov as ->. unfold covers.
  destruct Hd' as [[Hor ->]|(Hna & p & Hi & Hp & Hif)].
  - assert (i = k) as -> by (apply (increasing_at_inj dsns i k a); done).
    destruct Hor as [->| ->]; [by left|]. destruct (decide (n = a)) as [|]; [by left|].
    right; left. split; [lia|]. lia.
  - specialize (Hlo p Hi Hp). destruct (Z.ltb_spec (a - n) (n - p)) as [Hd2|Hd2]; subst d.
    + assert (i = k) as -> by (apply (increasing_at_inj dsns i k a); done).
      right; left. split; [done|]. intros p' _ Hp'. assert (p' = p) as -> by congruence.
      pose proof (Z.div_mod (a - p) 2 ltac:(lia)).
      assert ((a - p) mod 2 = 0); [|divlia].
      apply (dsns_even_gap (k - 1)); [done|]. by replace (S (k - 1)) with k by lia.
    + assert ((i - 1)%nat = k) as <- by (apply (increasing_at_inj dsns _ k p); done).
      right; right. split; [done|]. replace (S (i - 1)) with i by lia.
      intros a' Ha'. assert (a' = a) as -> by congruence. divlia.
Qed.

Lemma elem_of_coverLeft k d n :
  0 <= n -> dsns !! k = Some d ->
  exists lp, coverLeft dsns k d = Ok lp /\
    (n ∈ lp <-> n < d /\ forall p, (0 < k)%nat -> dsns !! (k - 1)%nat = Some p -> d - (d - p) / 2 < n) /\
    forall m, m ∈ lp -> 0 <= m < f ^ l.
Proof.
  intros Hn Hk. pose proof (dsns_bounds k d Hk) as Hd. destruct Hfit as [_ Hfit'].
  unfold coverLeft. destruct (Nat.eqb_spec k 0) as [->|Hk0].
  - eexists. split; [done|]. setoid_rewrite elem_of_zrange. split; [|lia].
    split; [intros; split; [lia|]; lia|intros [? _]; lia].
  - destruct (lookup_lt_is_Some_2 dsns (k - 1)) as [p Hp].
    { apply lookup_lt_Some in Hk. lia. }
    pose proof (dsns_increasing (k - 1)%nat k p d ltac:(lia) Hp Hk). pose proof (dsns_bounds _ p Hp).
    rewrite (vec_at_Some _ _ _ Hp). simpl. rewrite (in_u32_diff d p) by lia.
    rewrite u32_id by (unfold in_u32; divlia).
    eexists. split; [done|]. setoid_rewrite elem_of_zrange. split; [|divlia]. split.
    + intros. split; [lia|]. intros p' _ Hp'. assert (p' = p) as -> by congruence. divlia.
    + intros [? Hc]. specialize (Hc p ltac:(lia) Hp). divlia.
Qed.

Lemma elem_of_coverRight k d n last :
  n <= last -> back dsns = Ok last -> dsns !! k = Some d ->
  exists rp, coverRight dsns k d (f ^ l - 1) = Ok rp /\
    (n ∈ rp <-> d < n /\ forall a, dsns !! S k = Some a -> n <= d + (a - d) / 2) /\
    forall m, m ∈ rp -> 0 <= m < f ^ l.
Proof.
  intros Hn Hlast Hk. pose proof (dsns_bounds k d Hk) as Hd. destruct Hfit as [_ Hfit'].
  pose proof (back_dsns last Hlast) as Hll. pose proof (lookup_lt_Some _ _ _ Hk).
  pose proof (dsns_bounds _ _ Hll).
  unfold coverRight. destruct (Nat.eqb_spec k (length dsns - 1)) as [Hkl|Hkl].
  - rewrite Hkl in Hk. assert (d = last) as -> by congruence.
    rewrite (proj2 (Z.eqb_neq _ _)) by (unfold UINT32_MAX; lia).
    eexists. split; [done|]. setoid_rewrite elem_of_zrange. split; lia.
  - destruct (lookup_lt_is_Some_2 dsns (k + 1)) as [a Ha]; [lia|].
    pose proof (dsns_increasing k (k + 1)%nat d a ltac:(lia) Hk Ha). pose proof (dsns_bounds _ a Ha).
    rewrite (vec_at_Some _ _ _ Ha). simpl. rewrite (in_u32_diff a d) by lia.
    replace (k + 1)%nat with (S k) in Ha by lia.
    eexists. split; [done|]. setoid_rewrite elem_of_zrange. split; [|divlia]. split.
    + intros. split; [lia|]. intros a' Ha'. assert (a' = a) as -> by congruence. divlia.
    + intros [? Hc]. specialize (Hc a Ha). divlia.
Qed.

Lemma elem_of_coverLevel k d n last :
  0 <= n <= last -> back dsns = Ok last -> dsns !! k = Some d ->
  exists ns, coverLevel dsns k d (f ^ l - 1) = Ok ns /\ (n ∈ ns <-> n <> d /\ covers k d n) /\
    forall m, m ∈ ns -> 0 <= m < f ^ l.
Proof.
  intros Hn Hlast Hk. unfold coverLevel.
  destruct (elem_of_coverLeft k d n) as (lp & -> & Hlp & Hlb); [lia|done|].
  destruct (elem_of_coverRight k d n last) as (rp & -> & Hrp & Hrb); [lia|done|done|]. simpl.
  eexists. split; [done|]. setoid_rewrite elem_of_app. split; [|naive_solver].
  rewrite Hlp, Hrp. unfold covers. split; [|naive_solver].
  intros [[]|[]]; (split; [lia|]); [right; left|right; right]; done.
Qed.

(** The children of a node as the closed form of [calcChildren]. *)
Definition children_of (f : Z) (p : Pos) : list Pos :=
  (fun i => (p.1 + 1, p.2 * f + i)) <$> zrange 0 f.

Lemma elem_of_children_of n m : 0 <= m -> (l + 1, m) ∈ children_of f (l, n) <-> n = m / f.
Proof.
  intros Hm. pose proof (valid_fanout_bounds f Hf). unfold children_of. simpl.
  rewrite list_elem_of_fmap. setoid_rewrite elem_of_zrange. split.
  - intros (i & [= ->] & Hi). rewrite Z.div_add_l, (Z.div_small i) by lia. lia.
  - intros ->. exists (m mod f). pose proof (Z.mod_pos_bound m f ltac:(lia)).
    pose proof (Z.div_mod m f ltac:(lia)). split; [f_equal; lia|lia].
Qed.

(** Membership in such an area, on the level and on the level below. *)
Definition area_of (ns : list Z) (d : Z) : list Pos :=
  (pair l <$> ns) ++ mjoin (children_of f <$> (pair l <$> ns)) ++ children_of f (l, d).

Lemma children_of_level p q : q ∈ children_of f p -> q.1 = p.1 + 1.
Proof. unfold children_of. by intros (i & -> & _)%list_elem_of_fmap. Qed.

Lemma elem_of_area_level ns d n : (l, n) ∈ area_of ns d <-> n ∈ ns.
Proof.
  unfold area_of. rewrite !elem_of_app, list_elem_of_fmap, list_elem_of_join. split.
  - intros [(x & [= ->] & Hx)|[(c & Hc & (p & -> & Hp)%list_elem_of_fmap)|Hc]]; [done| |].
    + apply list_elem_of_fmap in Hp as (x & -> & _). apply children_of_level in Hc. simpl in Hc. lia.
    + apply children_of_level in Hc. simpl in Hc. lia.
  - intros Hn. left. eauto.
Qed.

Lemma elem_of_area_below ns d m :
  0 <= m -> (l + 1, m) ∈ area_of ns d <-> m / f ∈ ns \/ m / f = d.
Proof.
  intros Hm. unfold area_of. rewrite !elem_of_app, list_elem_of_fmap, list_elem_of_join.
  rewrite elem_of_children_of by done. split.
  - intros [(x & [= ?] & _)|[(c & Hc & (p & -> & Hp)%list_elem_of_fmap)|Hc]]; [lia| |by right].
    apply list_elem_of_fmap in Hp as (x & -> & Hx). apply elem_of_children_of in Hc; [|done].
    left. by subst x.
  - intros [Hn|Hn]; [|by right; right]. right; left. exists (children_of f (l, m / f)).
    rewrite elem_of_children_of by done. split; [done|]. apply list_elem_of_fmap.
    exists (l, m / f). split; [done|]. apply list_elem_of_fmap. eauto.
Qed.

(** [getCoverArea] of a DSN: its part of the level, the children of that part, its own. *)
Lemma getCoverArea_form k d ns :
  level_fits (l + 1) f -> dsns !! k = Some d -> coverLevel dsns k d (f ^ l - 1) = Ok ns ->
  (forall m, m ∈ ns -> 0 <= m < f ^ l) ->
  getCoverArea l d f = Ok (area_of ns d).
Proof.
  intros Hfit1 Hk Hns Hb. pose proof (dsns_bounds k d Hk). destruct Hfit as [_ Hfit'].
  unfold getCoverArea. rewrite (proj2 (Z.eqb_neq l 0)) by lia. simpl.
  rewrite getDSNSet_form by done. fold dsns. simpl.
  rewrite (find_index_eqb dsns k d) by (done || apply dsns_increasing).
  rewrite cvt_u32_in by (unfold in_u32; lia). rewrite Hns. simpl.
  rewrite (mapM_Ok _ (children_of f)).
  - simpl. rewrite calcChildren_fits by (done || lia). done.
  - intros p (m & -> & Hm)%list_elem_of_fmap. simpl.
    apply calcChildren_fits; [done|done|lia|by apply Hb].
Qed.

Lemma getCoveringDSN_odd m :
  level_fits (l + 1) f -> 0 <= m < f ^ (l + 1) ->
  getCoveringDSN (l + 1) m f = getCoveringDSN l (m / f) f.
Proof.
  intros Hfit1 Hm. pose proof (level_fits_lt _ _ Hf Hfit1). destruct Hfit1 as [_ Hfit1].
  unfold getCoveringDSN. rewrite Heven.
  assert ((l + 1) mod 2 = 1) as -> by divlia. simpl.
  replace (l + 1 - 1) with l by lia. rewrite getDSNSet_form by done. simpl.
  rewrite calcParent_div by (done || lia). simpl. replace (l + 1 - 1) with l by lia. done.
Qed.

End Covering.

(** The two views of the DSN assignment agree. For a DSN [d] of an even level, the nodes
    [getCoverArea] lists, on the level itself and on the level below, are exactly those for
    which [getCoveringDSN] answers [d]; this is for the nodes up to the last DSN of the
    level, to the right of which [getCoveringDSN] is not defined. *)
Theorem dsn_cover_consistent `{Platform} l f D d last :
  valid_fanout f -> level_fits (l + 1) f -> 0 < l -> l mod 2 = 0 ->
  getDSNSet l f = Ok D -> d ∈ D -> back D = Ok last ->
  (forall n, 0 <= n <= last -> n <> d ->
     returned_in (l, n) (getCoverArea l d f) <-> getCoveringDSN l n f = Ok (l, d)) /\
  (forall m, 0 <= m < f ^ (l + 1) -> m / f <= last ->
     returned_in (l + 1, m) (getCoverArea l d f) <-> getCoveringDSN (l + 1) m f = Ok (l, d)).
Proof.
  intros Hf Hfit1 Hl0 Heven HD Hd Hlast.
  assert (Hl : 1 < l) by (destruct (decide (l = 1)) as [->|]; [done|lia]). pose proof (valid_fanout_bounds f Hf).
  assert (Hfit : level_fits l f).
  { destruct Hfit1 as [_ Hfit1]. rewrite pow_S in Hfit1 by lia.
    split; [lia|]. pose proof (pow_pos f l Hf ltac:(lia)). nia. }
  rewrite getDSNSet_form in HD by done. injection HD as <-. fold (dsns l f) in *.
  apply list_elem_of_lookup in Hd as [k Hk].
  assert (Hn : forall n, 0 <= n <= last -> exists ns,
    coverLevel (dsns l f) k d (f ^ l - 1) = Ok ns /\
    (n ∈ ns <-> n <> d /\ getCoveringDSN l n f = Ok (l, d)) /\
    (forall m, m ∈ ns -> 0 <= m < f ^ l) /\ (n = d -> getCoveringDSN l n f = Ok (l, d))).
  { intros n Hn. destruct (elem_of_coverLevel l f Hf Hfit Hl k d n last) as (ns & ? & Hns & ?); [done..|].
    exists ns. split; [done|].
    assert (Hc : covers l f k d n <-> getCoveringDSN l n f = Ok (l, d)).
    { split; [by eapply covers_covering|by eapply covering_covers]. }
    rewrite <- Hc. split; [done|]. split; [done|]. intros ->. by left. }
  split.
  - intros n Hnl Hne. destruct (Hn n Hnl) as (ns & Hns & Hiff & Hb & _).
    rewrite (getCoverArea_form l f Hf Hfit Heven Hl k d ns) by done. simpl.
    rewrite elem_of_area_level, Hiff. naive_solver.
  - intros m Hm Hml. destruct (Hn (m / f)) as (ns & Hns & Hiff & Hb & Hself).
    { split; [apply Z.div_pos; lia|done]. }
    rewrite (getCoverArea_form l f Hf Hfit Heven Hl k d ns), getCoveringDSN_odd by done. simpl.
    rewrite elem_of_area_below, Hiff by (done || lia).
    destruct (decide (m / f = d)); naive_solver.
Qed.

Section OnX86.
#[local] Existing Instance x86_64.

Lemma dsn_cover_consistent_witness :
  (returned_in (2, 1) (getCoverArea 2 3 3) <-> getCoveringDSN 2 1 3 = Ok (2, 3)) /\
  (returned_in (3, 13) (getCoverArea 2 3 3) <-> getCoveringDSN 3 13 3 = Ok (2, 3)).
Proof.
  destruct (dsn_cover_consistent 2 3 [3; 5] 3 5) as [H1 H2];
    [unfold valid_fanout, level_fits; vm_compute; intuition congruence..|set_solver| |].
  - vm_compute. reflexivity.
  - split; [apply H1|apply H2]; vm_compute; intuition congruence.
Defined.

End OnX86.

(** [getCoveringDSN] compares the number behind the iterator of [std::lower_bound] before it
    has checked that there is one: for every node to the right of the last DSN of an even
    level it dereferences the end iterator. *)
Theorem getCoveringDSN_past_last `{Platform} l f D last n :
  valid_fanout f -> level_fits l f -> 0 < l -> l mod 2 = 0 ->
  getDSNSet l f = Ok D -> back D = Ok last -> last < n ->
  getCoveringDSN l n f = Undefined.
Proof.
  intros Hf Hfit Hl0 Heven HD Hlast Hn.
  assert (Hl : 1 < l) by (destruct (decide (l = 1)) as [->|]; [done|lia]).
  rewrite getDSNSet_form in HD by done. injection HD as <-. fold (dsns l f) in *.
  rewrite getCoveringDSN_even, Hlast by done. simpl.
  pose proof (back_dsns l f last Hlast) as Hll.
  rewrite (lower_bound_at (dsns l f) n (length (dsns l f))).
  - unfold vec_at. by rewrite (lookup_ge_None_2 (dsns l f) (length (dsns l f)) ltac:(lia)).
  - by apply dsns_increasing.
  - done.
  - intros x _ Hx. assert (x = last) as -> by congruence. done.
  - intros x Hx%lookup_lt_Some. lia.
Qed.

Section OnX86.
#[local] Existing Instance x86_64.

Lemma getCoveringDSN_past_last_witness : getCoveringDSN 2 3 2 = Undefined.
Proof.
  apply (getCoveringDSN_past_last 2 2 [2] 2 3); unfold valid_fanout, level_fits;
    vm_compute; intuition congruence.
Defined.

End OnX86.

(** *** Overflow *)

(** A child whose number has been taken modulo 2^32 once. *)
Lemma calcChild_wrapped l n f i :
  0 <= n -> 0 <= i < f -> 2 ^ 32 <= n * f + i < 2 ^ 33 ->
  calcChild l n f i = if n * (f - 1) + i <? 2 ^ 32 then Throw (invalid_argument "Overflow in Number") else Ok (l, n * f + i - 2 ^ 32).
Proof.
  intros Hn Hi Hw. unfold calcChild.
  assert (Hu : u32 (u32 (n * f) + i) = n * f + i - 2 ^ 32).
  { unfold u32. rewrite Z.add_mod_idemp_l by lia.
    replace (n * f + i) with (n * f + i - 2 ^ 32 + 1 * 2 ^ 32) at 1 by lia. rewrite Z.mod_add, Z.mod_small by lia. done. }
  rewrite Hu. destruct (Z.ltb_spec (n * f + i - 2 ^ 32) n), (Z.ltb_spec (n * (f - 1) + i) (2 ^ 32)); (done || lia).
Qed.

Lemma calcChild_exact l n f i :
  valid_fanout f -> 0 <= n -> 0 <= i < f -> n * f + i < 2 ^ 32 -> calcChild l n f i = Ok (l, n * f + i).
Proof.
  intros Hf%valid_fanout_bounds Hn Hi Hw. unfold calcChild. rewrite (u32_id (n * f)) by (unfold in_u32; nia).
  rewrite u32_id by (unfold in_u32; nia). by rewrite (proj2 (Z.ltb_ge _ _)) by nia.
Qed.

(** One exception is enough, if there is only one kind of it. *)
Lemma mapM_one_throws {A B} (g : A -> outcome B) (l : list A) x e :
  x ∈ l -> g x = Throw e -> (forall y, y ∈ l -> g y = Throw e \/ exists b, g y = Ok b) -> mapM g l = Throw e.
Proof.
  induction l as [|y l IH]; intros Hx Hg Hall; [by apply elem_of_nil in Hx|]. simpl.
  destruct (Hall y) as [->|[b Hb]]; [by left|done|]. rewrite Hb. simpl.
  apply elem_of_cons in Hx as [->|Hx]; [congruence|]. rewrite IH; [done|done|done|]. intros z Hz. apply Hall. by right.
Qed.

(** C40: when [calcChildren] detects an overflow. The numbers of the children of [n] are computed modulo 2^32, and an
    exception is thrown if one of them is smaller than [n]. For every valid position: if all numbers fit, up to
    [n * f + f - 1], the children are the exact ones; if they do not and [n * (f - 1)] is below 2^32, the overflow is
    detected; but from [n * (f - 1) >= 2^32] on, while no number reaches 2^33, it is missed: all positions returned are too
    small by 2^32, and no exception is thrown. For the fanout 2 an overflow is never missed, as no 32-bit number is in the
    last range; for every larger fanout there are such numbers. *)
Theorem calcChildren_overflow level n f :
  isPositionValid level n f = true -> 0 <= level < UINT32_MAX -> 0 <= n < 2 ^ 32 ->
  (n * f + f <= 2 ^ 32 -> calcChildren level n f = Ok ((fun i => (level + 1, n * f + i)) <$> zrange 0 f)) /\
  (2 ^ 32 < n * f + f -> n * (f - 1) < 2 ^ 32 -> calcChildren level n f = Throw (invalid_argument "Overflow in Number")) /\
  (2 ^ 32 <= n * (f - 1) -> n * f + f <= 2 ^ 33 ->
    calcChildren level n f = Ok ((fun i => (level + 1, n * f + i - 2 ^ 32)) <$> zrange 0 f)) /\
  (f = 2 -> n * (f - 1) < 2 ^ 32) /\
  (3 <= f -> exists m, 0 <= m < 2 ^ 32 /\ 2 ^ 32 <= m * (f - 1) /\ m * f + f <= 2 ^ 33).
Proof.
  intros Hvalid Hl Hn. pose proof Hvalid as [Hf _]%isPositionValid_spec. pose proof (valid_fanout_bounds f Hf) as Hb.
  assert (Hc : calcChildren level n f = mapM (calcChild (level + 1) n f) (zrange 0 f)).
  { unfold calcChildren. rewrite Hvalid. simpl. rewrite (proj2 (Z.eqb_neq level UINT32_MAX)) by lia.
    by rewrite (u32_id (level + 1)) by (unfold in_u32, UINT32_MAX in *; lia). }
  rewrite Hc. split_and!.
  - intros Hfit. apply mapM_Ok. intros i Hi%elem_of_zrange. by apply calcChild_exact; [done|lia..].
  - intros Hover Hdetect. apply (mapM_one_throws _ _ (Z.max 0 (2 ^ 32 - n * f))).
    + apply elem_of_zrange. lia.
    + rewrite calcChild_wrapped by nia. by rewrite (proj2 (Z.ltb_lt _ _)) by nia.
    + intros i Hi%elem_of_zrange. destruct (Z.lt_ge_cases (n * f + i) (2 ^ 32)).
      * right. eexists. by apply calcChild_exact; [done|lia..].
      * rewrite calcChild_wrapped by nia. destruct (_ <? _); [by left|right; by eexists].
  - intros Hmiss Honce. apply mapM_Ok. intros i Hi%elem_of_zrange. rewrite calcChild_wrapped by nia.
    by rewrite (proj2 (Z.ltb_ge _ _)) by nia.
  - intros ->. lia.
  - intros Hf3. exists (2 ^ 32 / (f - 1) + 1). pose proof (Z.div_mod (2 ^ 32) (f - 1) ltac:(lia)) as Hd.
    pose proof (Z.mod_pos_bound (2 ^ 32) (f - 1) ltac:(lia)) as Hm. set (q := 2 ^ 32 / (f - 1)) in *.
    assert (0 <= q <= 2 ^ 31) by (split; [apply Z.div_pos; lia|]; apply Z.div_le_upper_bound; lia). nia.
Qed.

(** On level 20 of a ternary tree the children of 20:2147483648 are wrong. *)
Lemma calcChildren_overflow_witness :
  calcChildren 20 2147483648 3 = Ok ((fun i => (20 + 1, 2147483648 * 3 + i - 2 ^ 32)) <$> zrange 0 3).
Proof. apply (calcChildren_overflow 20 2147483648 3); [reflexivity|unfold UINT32_MAX; lia|lia|lia|lia]. Defined.

(** ** Hints *)
#[export] Hint Resolve valid_position cvt_u32_range u32_range : sola.
