(* ===== verification/TreeMapper.v ===== *)
(** * The horizontal order of the tree

    Model of [treeMapper] and [treeMapperInternal] of
    [minhton/src/core/routing_calculations.cpp]: the real number by which nodes are ordered from
    left to right. The source computes on [double]; the model computes on the IEEE-754
    binary64 numbers of the standard library's executable specification, with the
    narrowing to [uint16_t] and [uint8_t] the source performs on the way.

    [exact_lt] is the order the computation stands for, on rationals; [treeMapper_inorder]
    ties the two, and [exact_child_left]/[exact_child_right] show that the exact order is
    the in-order traversal of the tree. *)

From Stdlib Require Import SpecFloat.
From S2P Require Import Prelude RoutingCalculations.

(** ** binary64 *)

Abbreviation double := spec_float.
Definition d_add : double -> double -> double := SFadd 53 1024.
Definition d_sub : double -> double -> double := SFsub 53 1024.
Definition d_mul : double -> double -> double := SFmul 53 1024.
Definition d_div : double -> double -> double := SFdiv 53 1024.
Definition d_of_Z (z : Z) : double := binary_normalize 53 1024 z 0 false.
Definition d_lt : double -> double -> bool := SFltb.
Definition d_le : double -> double -> bool := SFleb.
Definition d_eq : double -> double -> bool := SFeqb.

(** [ceil(fanout / 2.0)] *)
Definition half_up (fanout : Z) : Z := (fanout + 1) / 2.

Definition center_of (lower upper : double) (fanout : Z) : double :=
  d_add lower (d_mul (d_div (d_sub upper lower) (d_of_Z fanout)) (d_of_Z (half_up fanout))).

(** The recursion goes down one level per call, so [level] is enough fuel. With fanout 0, which
    no valid position has, the source divides by zero from level 1 on and the model's
    quotient is arbitrary. *)
Fixpoint treeMapperInternal (fuel : nat) (level number fanout K : Z) : double * double * double :=
  if level =? 0 then
    let lower := d_of_Z 0 in
    let upper := d_mul (d_div (d_of_Z K) (d_of_Z (half_up fanout))) (d_of_Z fanout) in
    (lower, upper, center_of lower upper fanout)
  else
    match fuel with
    | O => (S754_nan, S754_nan, S754_nan)
    | S fuel' =>
        let parent_level := u16 (level - 1) in
        let parent_number := u16 ((number - number mod fanout) / fanout) in
        let '(lower_parent, upper_parent, _) :=
          treeMapperInternal fuel' parent_level parent_number fanout K in
        let next_width := d_div (d_sub upper_parent lower_parent)
                                (d_mul (d_of_Z fanout) (d_of_Z 1)) in
        let lower := d_add lower_parent (d_mul next_width (d_of_Z (number mod fanout))) in
        let upper := d_add lower next_width in
        (lower, upper, center_of lower upper fanout)
    end.

Definition treeMapper (level number fanout K : Z) : double :=
  (treeMapperInternal (Z.to_nat level) level number fanout (u8 K)).2.

(** ** binary64 comparison is a strict weak order *)

Definition is_nan (x : double) : bool := match x with S754_nan => true | _ => false end.

(** Class, exponent and mantissa, ordered lexicographically. *)
Definition d_key (x : double) : Z * Z * Z :=
  match x with
  | S754_nan => (3, 0, 0)
  | S754_infinity true => (-2, 0, 0)
  | S754_finite true m e => (-1, - e, - Z.pos m)
  | S754_zero _ => (0, 0, 0)
  | S754_finite false m e => (1, e, Z.pos m)
  | S754_infinity false => (2, 0, 0)
  end.

Definition key_lt (a b : Z * Z * Z) : Prop :=
  let '(a1, a2, a3) := a in let '(b1, b2, b3) := b in
  a1 < b1 \/ a1 = b1 /\ (a2 < b2 \/ a2 = b2 /\ a3 < b3).

Lemma d_lt_key x y : is_nan x = false -> is_nan y = false ->
  d_lt x y = true <-> key_lt (d_key x) (d_key y).
Proof.
  unfold d_lt, SFltb.
  destruct x as [[]|[]| |[] m e], y as [[]|[]| |[] m' e']; intros Hx Hy; try done;
    cbn [SFcompare d_key key_lt]; try (split; [done|lia]); try (split; [lia|done]).
  - change (Pos.compare_cont Eq m m') with (Pos.compare m m').
    destruct (Z.compare_spec e e'), (Pos.compare_spec m m'); simpl; split; intros; try done; lia.
  - change (Pos.compare_cont Eq m m') with (Pos.compare m m').
    destruct (Z.compare_spec e e'), (Pos.compare_spec m m'); simpl; split; intros; try done; lia.
Qed.

Lemma key_lt_trans a b c : key_lt a b -> key_lt b c -> key_lt a c.
Proof. destruct a as [[]], b as [[]], c as [[]]. simpl. lia. Qed.

Lemma key_lt_irrefl a : ~ key_lt a a.
Proof. destruct a as [[]]. simpl. lia. Qed.

Lemma key_lt_total a b : key_lt a b \/ a = b \/ key_lt b a.
Proof.
  destruct a as [[a1 a2] a3], b as [[b1 b2] b3]. simpl.
  destruct (Z.lt_trichotomy a1 b1) as [?|[->|?]]; [lia| |lia].
  destruct (Z.lt_trichotomy a2 b2) as [?|[->|?]]; [lia| |lia].
  destruct (Z.lt_trichotomy a3 b3) as [?|[->|?]]; [lia|by right; left|lia].
Qed.

Lemma d_le_lt a b : is_nan a = false -> is_nan b = false -> d_le a b = negb (d_lt b a).
Proof.
  intros Ha Hb. unfold d_le, d_lt, SFleb, SFltb.
  destruct a as [[]|[]| |[] m e], b as [[]|[]| |[] m' e']; try done; cbn [SFcompare];
    rewrite (Z.compare_antisym e e'); destruct (Z.compare_spec e e'); cbn; try done;
    change (Pos.compare_cont Eq m m') with (Pos.compare m m');
    change (Pos.compare_cont Eq m' m) with (Pos.compare m' m);
    rewrite (Pos.compare_antisym m m'); by destruct (m ?= m')%positive.
Qed.

Lemma d_lt_number a b : d_lt a b = true -> is_nan a = false /\ is_nan b = false.
Proof. by destruct a as [[]|[]| |[]], b as [[]|[]| |[]]. Qed.
Lemma d_le_number a b : d_le a b = true -> is_nan a = false /\ is_nan b = false.
Proof. by destruct a as [[]|[]| |[]], b as [[]|[]| |[]]. Qed.

Lemma d_lt_irrefl a : d_lt a a = false.
Proof.
  apply not_true_iff_false. intros Ha. destruct (d_lt_number _ _ Ha). apply d_lt_key in Ha; [|done..].
  by apply key_lt_irrefl in Ha.
Qed.

Lemma d_lt_trans a b c : d_lt a b = true -> d_lt b c = true -> d_lt a c = true.
Proof.
  intros Hab Hbc. destruct (d_lt_number _ _ Hab), (d_lt_number _ _ Hbc).
  rewrite d_lt_key in * by done. by eapply key_lt_trans.
Qed.

Lemma d_lt_le_trans a b c : d_lt a b = true -> d_le b c = true -> d_le a c = true.
Proof.
  intros Hab Hbc. destruct (d_lt_number _ _ Hab), (d_le_number _ _ Hbc). rewrite d_le_lt in * by done.
  apply negb_true_iff, not_true_iff_false. apply negb_true_iff, not_true_iff_false in Hbc.
  intros Hca. apply Hbc. by eapply d_lt_trans.
Qed.

Lemma d_le_lt_trans a b c : d_le a b = true -> d_lt b c = true -> d_le a c = true.
Proof.
  intros Hab Hbc. destruct (d_le_number _ _ Hab), (d_lt_number _ _ Hbc). rewrite d_le_lt in * by done.
  apply negb_true_iff, not_true_iff_false. apply negb_true_iff, not_true_iff_false in Hab.
  intros Hca. apply Hab. by eapply d_lt_trans.
Qed.

Lemma d_le_trans a b c : d_le a b = true -> d_le b c = true -> d_le a c = true.
Proof.
  intros Hab Hbc. destruct (d_le_number _ _ Hab) as [Na Nb], (d_le_number _ _ Hbc) as [_ Nc].
  rewrite d_le_lt in * by done. rewrite negb_true_iff in *. apply not_true_iff_false. intros Hca.
  rewrite <- not_true_iff_false, d_lt_key in Hab, Hbc by done. rewrite d_lt_key in Hca by done.
  destruct (key_lt_total (d_key a) (d_key b)) as [H|[H|H]]; [|congruence|done].
  apply Hbc. by eapply key_lt_trans.
Qed.

Lemma d_lt_weaken a b c : is_nan b = false -> d_lt a c = true -> d_lt b c = false -> d_lt a b = true.
Proof.
  intros Nb Hac Hbc. destruct (d_lt_number _ _ Hac) as [Na Nc]. apply not_true_iff_false in Hbc.
  rewrite d_lt_key in * by done. destruct (key_lt_total (d_key b) (d_key c)) as [H|[->|H]]; [done|done|].
  by eapply key_lt_trans.
Qed.

(** ** The exact order

    Exactly, the centre of [level:number] is [K * (number * f + c) / (c * f^level)] with
    [c = ceil (f / 2)]; positions compare by cross-multiplication. *)

Definition exact_num (number fanout : Z) : Z := number * fanout + half_up fanout.

Definition exact_lt (f : Z) (p q : Pos) : bool :=
  exact_num p.2 f * f ^ q.1 <? exact_num q.2 f * f ^ p.1.

Lemma half_up_bounds f : 2 <= f -> 0 < half_up f < f /\ f <= 2 * half_up f <= f + 1.
Proof. unfold half_up. intros. divlia. Qed.

Lemma exact_lt_irrefl f p : exact_lt f p p = false.
Proof. unfold exact_lt. lia. Qed.

Lemma exact_lt_trans f p q r :
  2 <= f -> 0 <= p.1 -> 0 <= q.1 -> 0 <= r.1 ->
  exact_lt f p q = true -> exact_lt f q r = true -> exact_lt f p r = true.
Proof.
  unfold exact_lt. intros Hf Hp Hq Hr. rewrite !Z.ltb_lt. intros H1 H2.
  assert (forall l, 0 <= l -> 0 < f ^ l) as Hpos by (intros; apply Z.pow_pos_nonneg; lia).
  pose proof (Hpos _ Hp). pose proof (Hpos _ Hq). pose proof (Hpos _ Hr). nia.
Qed.

Lemma scaled_lt p a b : 0 < p -> (a * p < b * p <-> a < b).
Proof. intros. symmetry. by apply Z.mul_lt_mono_pos_r. Qed.

(** The left half of the children is left of the parent, the right half is right of it. *)
Lemma exact_child_left f l n i :
  2 <= f -> 0 <= l -> 0 <= i < f ->
  exact_lt f (l + 1, n * f + i) (l, n) = (i <? half_up f).
Proof.
  intros Hf Hl Hi. unfold exact_lt, exact_num. simpl. rewrite pow_S by done.
  pose proof (half_up_bounds f Hf). assert (Hp : 0 < f ^ l) by (apply Z.pow_pos_nonneg; lia).
  apply eq_bool_prop_intro. rewrite !Is_true_true, !Z.ltb_lt.
  replace ((n * f + half_up f) * (f ^ l * f)) with ((n * f + half_up f) * f * f ^ l) by ring.
  rewrite scaled_lt by done. split; intros; nia.
Qed.

Lemma exact_child_right f l n i :
  2 <= f -> 0 <= l -> 0 <= i < f ->
  exact_lt f (l, n) (l + 1, n * f + i) = (half_up f <=? i).
Proof.
  intros Hf Hl Hi. unfold exact_lt, exact_num. simpl. rewrite pow_S by done.
  pose proof (half_up_bounds f Hf). assert (Hp : 0 < f ^ l) by (apply Z.pow_pos_nonneg; lia).
  apply eq_bool_prop_intro. rewrite !Is_true_true, Z.ltb_lt, Z.leb_le.
  replace ((n * f + half_up f) * (f ^ l * f)) with ((n * f + half_up f) * f * f ^ l) by ring.
  rewrite scaled_lt by done. split; intros; nia.
Qed.

(** On one level the exact order is the order of the numbers. *)
Lemma exact_same_level f l n m : 2 <= f -> 0 <= l -> exact_lt f (l, n) (l, m) = (n <? m).
Proof.
  intros Hf Hl. unfold exact_lt, exact_num. simpl.
  assert (Hp : 0 < f ^ l) by (apply Z.pow_pos_nonneg; lia).
  apply eq_bool_prop_intro. rewrite !Is_true_true, !Z.ltb_lt, scaled_lt by done. split; nia.
Qed.

(** ** The computed order is the exact one *)

Definition positions_upto (f depth : Z) : list Pos :=
  l ← zrange 0 (depth + 1); n ← zrange 0 (f ^ l); [(l, n)].

Definition hvalue (f : Z) (p : Pos) : double := treeMapper p.1 p.2 f kTreeMapperRootValue.

Definition orders_agree (f depth : Z) : bool :=
  let keyed := (fun p => (p, hvalue f p)) <$> positions_upto f depth in
  forallb (fun a => negb (is_nan a.2) &&
    forallb (fun b => eqb (d_lt a.2 b.2) (exact_lt f a.1 b.1)) keyed) keyed.

(** The depth up to which the orders are compared pairwise by evaluation, per fanout: about a
    hundred positions each. *)
Definition checked_depth (f : Z) : Z :=
  if f =? 2 then 6 else if f =? 3 then 4 else if f <=? 5 then 3 else 2.

Lemma orders_agree_checked : forallb (fun f => orders_agree f (checked_depth f)) (zrange 2 11) = true.
Proof. vm_compute. reflexivity. Qed.

Lemma elem_of_positions_upto f depth l n :
  (l, n) ∈ positions_upto f depth <-> 0 <= l <= depth /\ 0 <= n < f ^ l.
Proof.
  unfold positions_upto. rewrite elem_of_list_bind_Z. setoid_rewrite elem_of_list_bind_Z.
  setoid_rewrite elem_of_zrange. setoid_rewrite list_elem_of_singleton. split.
  - intros (x & ? & y & ? & [= -> ->]). lia.
  - intros []. exists l. split; [lia|]. exists n. split; [lia|done].
Qed.

Lemma forallb_elem {A} (p : A -> bool) (l : list A) x : forallb p l = true -> x ∈ l -> p x = true.
Proof. intros Hp Hx. rewrite forallb_forall in Hp. apply Hp. by apply list_elem_of_In. Qed.

Lemma hvalue_order f l1 n1 l2 n2 :
  2 <= f <= 10 -> 0 <= l1 <= checked_depth f -> 0 <= l2 <= checked_depth f ->
  0 <= n1 < f ^ l1 -> 0 <= n2 < f ^ l2 ->
  is_nan (hvalue f (l1, n1)) = false /\
  d_lt (hvalue f (l1, n1)) (hvalue f (l2, n2)) = exact_lt f (l1, n1) (l2, n2).
Proof.
  intros Hf Hl1 Hl2 Hn1 Hn2.
  pose proof (forallb_elem _ _ f orders_agree_checked ltac:(apply elem_of_zrange; lia)) as Hag.
  assert (Hin : forall l n, 0 <= l <= checked_depth f -> 0 <= n < f ^ l ->
    ((l, n), hvalue f (l, n)) ∈ (fun p => (p, hvalue f p)) <$> positions_upto f (checked_depth f)).
  { intros l n ? ?. apply list_elem_of_fmap. exists (l, n). split; [done|].
    by apply elem_of_positions_upto. }
  pose proof (forallb_elem _ _ _ Hag (Hin l1 n1 Hl1 Hn1)) as H1. simpl in H1.
  apply andb_prop in H1 as [Hnan H1]. split; [by destruct (is_nan _)|].
  pose proof (forallb_elem _ _ _ H1 (Hin l2 n2 Hl2 Hn2)) as H2. simpl in H2.
  by apply eqb_prop in H2.
Qed.

(** ** What the routing tables rely on

    Down to level [depth] of a tree of fanout [f], numbers fit their type and horizontal
    values on one level are ordered like the numbers. The tables are verified against this
    interface; [checked_levels] provides it. *)
Class OrderedLevels (f depth : Z) := {
  ol_fanout : valid_fanout f;
  ol_fits : level_fits depth f;
  ol_order : forall l n m, 0 <= l <= depth -> 0 <= n < f ^ l -> 0 <= m < f ^ l ->
    d_lt (hvalue f (l, n)) (hvalue f (l, m)) = (n <? m);
}.

Lemma checked_levels f : 2 <= f <= 10 -> OrderedLevels f (checked_depth f).
Proof.
  intros Hf. split.
  - unfold valid_fanout, kFanoutMinimum, kFanoutMaximum. lia.
  - assert (Hx : f ∈ zrange 2 11) by (apply elem_of_zrange; lia).
    clear Hf. revert f Hx. apply Forall_forall. unfold level_fits.
    repeat constructor; vm_compute; congruence.
  - intros l n m Hl Hn Hm. destruct (hvalue_order f l n l m) as [_ ->]; [done..|].
    apply exact_same_level; lia.
Qed.

(** Up to the checked depths, no value [treeMapper] computes is NaN, the binary64 values order
    any two positions exactly as the rational values they stand for, and this order is the
    in-order traversal: of the children of a node the first [ceil(f/2)] are left of it and the
    others right of it. *)
Theorem treeMapper_inorder f l n :
  2 <= f <= 10 -> 0 <= l <= checked_depth f -> 0 <= n < f ^ l ->
  is_nan (hvalue f (l, n)) = false /\
  (forall l2 n2, 0 <= l2 <= checked_depth f -> 0 <= n2 < f ^ l2 ->
    d_lt (hvalue f (l, n)) (hvalue f (l2, n2)) = exact_lt f (l, n) (l2, n2)) /\
  (forall i, l < checked_depth f -> 0 <= i < f ->
    d_lt (hvalue f (l + 1, n * f + i)) (hvalue f (l, n)) = (i <? half_up f) /\
    d_lt (hvalue f (l, n)) (hvalue f (l + 1, n * f + i)) = (half_up f <=? i)).
Proof.
  intros Hf Hl Hn. split; [by apply (hvalue_order f l n l n)|]. split.
  - intros l2 n2 Hl2 Hn2. by apply hvalue_order.
  - intros i Hlt Hi. assert (Hc : 0 <= n * f + i < f ^ (l + 1)) by (rewrite pow_S by lia; nia).
    destruct (hvalue_order f (l + 1) (n * f + i) l n) as [_ ->]; [lia..|].
    destruct (hvalue_order f l n (l + 1) (n * f + i)) as [_ ->]; [lia..|].
    split; [apply exact_child_left|apply exact_child_right]; lia.
Qed.

Lemma treeMapper_inorder_witness :
  is_nan (hvalue 3 (2, 4)) = false /\
  (forall l2 n2, 0 <= l2 <= 4 -> 0 <= n2 < 3 ^ l2 ->
    d_lt (hvalue 3 (2, 4)) (hvalue 3 (l2, n2)) = exact_lt 3 (2, 4) (l2, n2)) /\
  (forall i, 2 < 4 -> 0 <= i < 3 ->
    d_lt (hvalue 3 (3, 4 * 3 + i)) (hvalue 3 (2, 4)) = (i <? 2) /\
    d_lt (hvalue 3 (2, 4)) (hvalue 3 (3, 4 * 3 + i)) = (2 <=? i)).
Proof. apply (treeMapper_inorder 3 2 4); vm_compute; intuition congruence. Defined.

(** [treeMapperInternal] narrows the number of the parent to [uint16_t]. From level 18 of a
    binary tree on, distinct valid positions get the same horizontal value. *)
Theorem treeMapper_u16_collision :
  isPositionValid 18 0 2 = true /\ isPositionValid 18 131072 2 = true /\
  treeMapper 18 0 2 kTreeMapperRootValue = treeMapper 18 131072 2 kTreeMapperRootValue /\
  exact_lt 2 (18, 0) (18, 131072) = true.
Proof. repeat split; vm_compute; reflexivity. Qed.
