(* ===== verification/WholeDoubles.v ===== *)
(** * Whole numbers among the doubles

    Whole numbers below 2^53 are doubles, and as long as sums stay below 2^53 the doubles add and
    compare them exactly. *)

From Stdlib Require Import SpecFloat.
From S2P Require Import Prelude TreeMapper.

(** [x] is the whole number [z]: its mantissa has 53 bits and is a multiple of a power of two. *)
Inductive whole : double -> Z -> Prop :=
| whole_zero s : whole (S754_zero s) 0
| whole_finite s m k v :
    0 <= k <= 52 -> 2 ^ 52 <= Z.pos m < 2 ^ 53 -> Z.pos m = v * 2 ^ k -> whole (S754_finite s m (- k)) (cond_Zopp s v).

(** ** Bits *)

Lemma digits_log2 p : Z.pos (digits2_pos p) = Z.log2 (Z.pos p) + 1.
Proof.
  induction p as [p IH|p IH|]; cbn [digits2_pos]; [| |done].
  - rewrite Pos2Z.inj_succ, IH. change (Z.pos p~1) with (2 * Z.pos p + 1). rewrite Z.log2_succ_double by lia. lia.
  - rewrite Pos2Z.inj_succ, IH. change (Z.pos p~0) with (2 * Z.pos p). rewrite Z.log2_double by lia. lia.
Qed.

Lemma shl_align_left m k k' :
  0 <= k <= k' -> exists q, shl_align m (- k) (- k') = (q, - k') /\ Z.pos q = Z.pos m * 2 ^ (k' - k).
Proof.
  intros Hk. unfold shl_align. destruct (Z.eq_dec k k') as [<-|Hne].
  - rewrite Z.sub_diag. exists m. rewrite Z.sub_diag. split; [done|lia].
  - replace (- k' - - k) with (- (k' - k)) by lia. destruct (k' - k) as [|d|d] eqn:Ed; [lia| |lia]. cbn [Z.opp].
    eexists. split; [reflexivity|]. clear. induction d as [|d IH] using Pos.peano_ind; [cbn; lia|].
    rewrite Pos2Z.inj_succ, Z.pow_succ_r by done.
    replace (PosDef.Pos.iter xO m (Pos.succ d)) with (xO (PosDef.Pos.iter xO m d)) by (symmetry; apply Pos.iter_succ).
    rewrite Pos2Z.inj_xO, IH. lia.
Qed.

Lemma shl_align_right m e e' : e <= e' -> shl_align m e e' = (m, e).
Proof. intros He. unfold shl_align. by destruct (e' - e) eqn:E; [..|lia]. Qed.

Lemma scaled_pos v k : 0 < v -> 0 <= k -> exists a, Z.pos a = v * 2 ^ k.
Proof. intros Hv Hk. exists (Z.to_pos (v * 2 ^ k)). apply Z2Pos.id, Z.mul_pos_pos; [done|]. by apply Z.pow_pos_nonneg. Qed.

(** Shifting zeros out leaves nothing behind. *)
Lemma shr_zeros (p q : positive) : SpecFloat.iter_pos shr_1 p (Build_shr_record (Z.pos q * 2 ^ Z.pos p) false false) = Build_shr_record (Z.pos q) false false.
Proof.
  assert (H1 : forall x, shr_1 (Build_shr_record (Z.pos x * 2) false false) = Build_shr_record (Z.pos x) false false).
  { intros x. by rewrite Z.mul_comm. }
  revert q. induction p as [p IH|p IH|]; intros q; cbn [SpecFloat.iter_pos]; [| |apply H1].
  - rewrite Pos2Z.inj_xI, Z.add_1_r, Z.pow_succ_r by done. replace (2 * Z.pos p) with (Z.pos p + Z.pos p) by lia.
    rewrite Z.pow_add_r by done.
    destruct (scaled_pos (Z.pos q) (Z.pos p)) as [a Ha]; [done..|]. destruct (scaled_pos (Z.pos a) (Z.pos p)) as [b Hb]; [done..|].
    replace (Z.pos q * (2 * (2 ^ Z.pos p * 2 ^ Z.pos p))) with (Z.pos b * 2) by (rewrite Hb, Ha; ring). rewrite H1, Hb, IH, Ha. apply IH.
  - rewrite (Pos2Z.inj_xO p). replace (2 * Z.pos p) with (Z.pos p + Z.pos p) by lia. rewrite Z.pow_add_r by done.
    destruct (scaled_pos (Z.pos q) (Z.pos p)) as [a Ha]; [done..|].
    rewrite Z.mul_assoc, <- Ha, IH, Ha. apply IH.
Qed.

(** ** Rounding does nothing *)

(** A mantissa of 53 bits is not shifted. *)
Lemma round_fits s m k :
  0 <= k <= 52 -> 2 ^ 52 <= Z.pos m < 2 ^ 53 -> binary_round_aux 53 1024 s (Z.pos m) (- k) loc_Exact = S754_finite s m (- k).
Proof.
  intros Hk Hm. assert (Hl : Z.log2 (Z.pos m) = 52) by (apply Z.log2_unique; lia).
  assert (Hs : shr_fexp 53 1024 (Z.pos m) (- k) loc_Exact = (Build_shr_record (Z.pos m) false false, - k)).
  { unfold shr_fexp. cbn [Zdigits2]. rewrite digits_log2, Hl. unfold fexp, emin.
    replace (Z.max (52 + 1 + - k - 53) (3 - 1024 - 53) - - k) with 0 by lia. done. }
  unfold binary_round_aux. rewrite Hs. cbn [shr_m loc_of_shr_record round_nearest_even]. rewrite Hs. cbn [shr_m].
  by rewrite (proj2 (Z.leb_le _ _)) by lia.
Qed.

(** A multiple of a power of two is normalized exactly. *)
Lemma round_whole s v k q :
  0 < v < 2 ^ 53 -> 0 <= k <= 52 -> Z.pos q = v * 2 ^ k -> whole (binary_round 53 1024 s q (- k)) (cond_Zopp s v).
Proof.
  intros Hv Hk Hq. set (l := Z.log2 v).
  assert (Hl : 0 <= l <= 52) by (split; [apply Z.log2_nonneg|apply Z.lt_succ_r, Z.log2_lt_pow2; lia]).
  assert (Hlv : 2 ^ l <= v < 2 ^ (l + 1)) by (apply Z.log2_spec; lia).
  assert (Hlq : Z.log2 (Z.pos q) = l + k) by (rewrite Hq, Z.log2_mul_pow2 by lia; fold l; lia).
  assert (Hnorm : 2 ^ 52 <= v * 2 ^ (52 - l) < 2 ^ 53).
  { replace (2 ^ 52) with (2 ^ l * 2 ^ (52 - l)) by (rewrite <- Z.pow_add_r by lia; f_equal; lia).
    replace (2 ^ 53) with (2 ^ (l + 1) * 2 ^ (52 - l)) by (rewrite <- Z.pow_add_r by lia; f_equal; lia).
    pose proof (Z.pow_pos_nonneg 2 (52 - l)). nia. }
  unfold binary_round. rewrite digits_log2, Hlq. unfold fexp, emin.
  replace (Z.max (l + k + 1 + - k - 53) (3 - 1024 - 53)) with (- (52 - l)) by lia.
  destruct (Z.le_ge_cases k (52 - l)) as [Hle|Hge].
  - destruct (shl_align_left q k (52 - l)) as (m & -> & Hm); [lia|].
    assert (Hmv : Z.pos m = v * 2 ^ (52 - l)).
    { rewrite Hm, Hq, <- Z.mul_assoc, <- Z.pow_add_r by lia. do 2 f_equal. lia. }
    rewrite round_fits by lia. apply whole_finite; [lia|lia|done].
  - rewrite shl_align_right by lia. destruct (Z.eq_dec k (52 - l)) as [->|Hne].
    { rewrite round_fits by lia. apply whole_finite; [lia|lia|done]. }
    destruct (k - (52 - l)) as [|d|d] eqn:Ed; [lia| |lia].
    destruct (scaled_pos v (52 - l)) as [m Hm]; [lia..|].
    assert (Hqm : Z.pos q = Z.pos m * 2 ^ Z.pos d).
    { rewrite Hq, Hm, <- Ed, <- Z.mul_assoc, <- Z.pow_add_r by lia. do 2 f_equal. lia. }
    assert (Hs : shr_fexp 53 1024 (Z.pos q) (- k) loc_Exact = (Build_shr_record (Z.pos m) false false, - (52 - l))).
    { unfold shr_fexp. cbn [Zdigits2]. rewrite digits_log2, Hlq. unfold fexp, emin.
      replace (Z.max (l + k + 1 + - k - 53) (3 - 1024 - 53) - - k) with (Z.pos d) by lia.
      cbn [shr shr_record_of_loc]. rewrite Hqm, shr_zeros. f_equal. lia. }
    unfold binary_round_aux. rewrite Hs. cbn [shr_m loc_of_shr_record round_nearest_even].
    pose proof (round_fits s m (52 - l) ltac:(lia) ltac:(lia)) as Hf. unfold binary_round_aux in Hf.
    assert (Hs2 : shr_fexp 53 1024 (Z.pos m) (- (52 - l)) loc_Exact = (Build_shr_record (Z.pos m) false false, - (52 - l))).
    { assert (Hlm : Z.log2 (Z.pos m) = 52) by (apply Z.log2_unique; lia).
      unfold shr_fexp. cbn [Zdigits2]. rewrite digits_log2, Hlm. unfold fexp, emin.
      replace (Z.max (52 + 1 + - (52 - l) - 53) (3 - 1024 - 53) - - (52 - l)) with 0 by lia. done. }
    rewrite Hs2. cbn [shr_m]. rewrite (proj2 (Z.leb_le _ _)) by lia. apply whole_finite; [lia|lia|done].
Qed.

Lemma normalize_whole c k sz : Z.abs c < 2 ^ 53 -> 0 <= k <= 52 -> whole (binary_normalize 53 1024 (c * 2 ^ k) (- k) sz) c.
Proof.
  intros Hc Hk. pose proof (Z.pow_pos_nonneg 2 k ltac:(lia) ltac:(lia)) as Hp.
  destruct (Z.eq_dec c 0) as [->|Hne]; [constructor|]. unfold binary_normalize.
  destruct (c * 2 ^ k) as [|q|q] eqn:Eq; [nia| |].
  - apply (round_whole false c); [nia|done|done].
  - replace c with (cond_Zopp true (- c)) by (cbn; lia). apply round_whole; [nia|done|nia].
Qed.

(** ** The operations *)

Lemma whole_of_Z z : Z.abs z < 2 ^ 53 -> whole (d_of_Z z) z.
Proof. intros Hz. pose proof (normalize_whole z 0 false Hz ltac:(lia)) as H. by rewrite Z.mul_1_r in H. Qed.

Lemma whole_add x y a b : whole x a -> whole y b -> Z.abs (a + b) < 2 ^ 53 -> whole (d_add x y) (a + b).
Proof.
  intros [s|s m k v Hk Hm Hv] Hy Hab.
  - destruct Hy as [t|t m k v Hk Hm Hv]; cbn.
    + destruct s, t; constructor.
    + by constructor.
  - destruct Hy as [t|t m' k' v' Hk' Hm' Hv'].
    + rewrite Z.add_0_r. by constructor.
    + cbn [d_add SFadd]. set (h := Z.max k k'). assert (Hh : 0 <= h <= 52) by lia.
      replace (Z.min (- k) (- k')) with (- h) by lia.
      destruct (shl_align_left m k h) as (q & -> & Hq); [lia|]. destruct (shl_align_left m' k' h) as (q' & -> & Hq'); [lia|].
      cbn [fst].
      assert (Hsum : cond_Zopp s (Z.pos q) + cond_Zopp t (Z.pos q') = (cond_Zopp s v + cond_Zopp t v') * 2 ^ h).
      { assert (Z.pos q = v * 2 ^ h) as -> by (rewrite Hq, Hv, <- Z.mul_assoc, <- Z.pow_add_r by lia; do 2 f_equal; lia).
        assert (Z.pos q' = v' * 2 ^ h) as -> by (rewrite Hq', Hv', <- Z.mul_assoc, <- Z.pow_add_r by lia; do 2 f_equal; lia).
        destruct s, t; cbn [cond_Zopp]; lia. }
      rewrite Hsum. by apply normalize_whole.
Qed.

Lemma whole_opp x a : whole x a -> whole (SFopp x) (- a).
Proof.
  intros [s|s m k v Hk Hm Hv]; cbn; [constructor|]. replace (- cond_Zopp s v) with (cond_Zopp (negb s) v) by (destruct s; cbn; lia).
  by constructor.
Qed.

(** The exponent and then the mantissa decide, as with the values. *)
Lemma whole_compare_pos m k v m' k' v' :
  0 <= k <= 52 -> 0 <= k' <= 52 -> 2 ^ 52 <= Z.pos m < 2 ^ 53 -> 2 ^ 52 <= Z.pos m' < 2 ^ 53 ->
  Z.pos m = v * 2 ^ k -> Z.pos m' = v' * 2 ^ k' ->
  match Z.compare (- k) (- k') with Lt => Lt | Gt => Gt | Eq => Pos.compare_cont Eq m m' end = Z.compare v v'.
Proof.
  intros Hk Hk' Hm Hm' Hv Hv'.
  pose proof (Z.pow_pos_nonneg 2 k ltac:(lia) ltac:(lia)). pose proof (Z.pow_pos_nonneg 2 k' ltac:(lia) ltac:(lia)).
  destruct (Z.compare_spec (- k) (- k')) as [He|He|He].
  - assert (k = k') as <- by lia. change (Pos.compare_cont Eq m m') with (Z.compare (Z.pos m) (Z.pos m')). rewrite Hv, Hv'.
    symmetry. apply Zmult_compare_compat_r. lia.
  - symmetry. apply Z.compare_lt_iff.
    assert (2 ^ k = 2 ^ (k - k' - 1) * 2 ^ k' * 2) as E
      by (rewrite <- Z.pow_add_r, Z.mul_comm, <- Z.pow_succ_r by lia; f_equal; lia).
    pose proof (Z.pow_pos_nonneg 2 (k - k' - 1) ltac:(lia) ltac:(lia)). assert (v * 2 ^ k < v' * 2 ^ k' * 2) by lia. rewrite E in *. nia.
  - symmetry. apply Z.compare_gt_iff.
    assert (2 ^ k' = 2 ^ (k' - k - 1) * 2 ^ k * 2) as E
      by (rewrite <- Z.pow_add_r, Z.mul_comm, <- Z.pow_succ_r by lia; f_equal; lia).
    pose proof (Z.pow_pos_nonneg 2 (k' - k - 1) ltac:(lia) ltac:(lia)). assert (v' * 2 ^ k' < v * 2 ^ k * 2) by lia. rewrite E in *. nia.
Qed.

Lemma whole_compare x y a b : whole x a -> whole y b -> SFcompare x y = Some (Z.compare a b).
Proof.
  intros [s|s m k v Hk Hm Hv] [t|t m' k' v' Hk' Hm' Hv'].
  - done.
  - pose proof (Z.pow_pos_nonneg 2 k' ltac:(lia) ltac:(lia)). assert (0 < v') by nia. cbn [SFcompare]. f_equal. symmetry.
    destruct t; cbn [cond_Zopp]; [apply Z.compare_gt_iff|apply Z.compare_lt_iff]; lia.
  - pose proof (Z.pow_pos_nonneg 2 k ltac:(lia) ltac:(lia)). assert (0 < v) by nia. cbn [SFcompare]. f_equal. symmetry.
    destruct s; cbn [cond_Zopp]; [apply Z.compare_lt_iff|apply Z.compare_gt_iff]; lia.
  - pose proof (Z.pow_pos_nonneg 2 k ltac:(lia) ltac:(lia)). pose proof (Z.pow_pos_nonneg 2 k' ltac:(lia) ltac:(lia)).
    assert (0 < v /\ 0 < v') as [? ?] by nia.
    pose proof (whole_compare_pos m k v m' k' v' Hk Hk' Hm Hm' Hv Hv') as Hc.
    cbn [SFcompare]. f_equal. destruct s, t; cbn [cond_Zopp].
    + rewrite (Z.compare_opp v v'), (Z.compare_antisym v v'), <- Hc. by destruct (Z.compare (- k) (- k')).
    + symmetry. apply Z.compare_lt_iff. lia.
    + symmetry. apply Z.compare_gt_iff. lia.
    + exact Hc.
Qed.

Lemma whole_lt x y a b : whole x a -> whole y b -> d_lt x y = (a <? b).
Proof. intros Hx Hy. unfold d_lt, SFltb. rewrite (whole_compare x y a b Hx Hy). unfold Z.ltb. by destruct (Z.compare a b). Qed.
Lemma whole_le x y a b : whole x a -> whole y b -> d_le x y = (a <=? b).
Proof. intros Hx Hy. unfold d_le, SFleb. rewrite (whole_compare x y a b Hx Hy). unfold Z.leb. by destruct (Z.compare a b). Qed.
Lemma whole_eq x y a b : whole x a -> whole y b -> d_eq x y = (a =? b).
Proof.
  intros Hx Hy. unfold d_eq, SFeqb. rewrite (whole_compare x y a b Hx Hy). destruct (Z.compare_spec a b); symmetry;
    [apply Z.eqb_eq|apply Z.eqb_neq..]; lia.
Qed.

Lemma whole_unique x a b : whole x a -> whole x b -> a = b.
Proof. intros Ha Hb. apply Z.eqb_eq. rewrite <- (whole_eq x x a b Ha Hb). rewrite (whole_eq x x a a Ha Ha). apply Z.eqb_refl. Qed.
