(* ===== verification/NodeInfo.v ===== *)
(** * Node identities

    Model of [minhton/src/core/logical_node_info.cpp] (a position in the tree),
    [physical_node_info.cpp] (an address) and [node_info.cpp] (the two together). Setters
    are members of the monad [M]: what they wrote before a [throw] stays written. [inet_pton]
    is the operating system's and a parameter, of which the accepted IPv4 form is known. *)

From Stdlib Require Import Ascii.
From S2P Require Import Prelude RoutingCalculations TreeMapper.

Arguments isPositionValid : simpl never.
Arguments isFanoutValid : simpl never.
Arguments treeMapper : simpl never.

(** [solanet::UUID]: random bytes. Nothing in the modelled code compares two of them; the
    model keeps apart a freshly generated one and one copied from elsewhere. *)
Inductive UUID :=
| UUID_generated
| UUID_bytes (bytes : list Z).

#[export] Instance UUID_eq_dec : EqDecision UUID.
Proof. solve_decision. Defined.

(** ** LogicalNodeInfo *)

Record LogicalNodeInfo := {
  level_ : Z;
  number_ : Z;
  fanout_ : Z;
  uuid_ : UUID;
  initialized_ : bool;
}.

#[export] Instance LogicalNodeInfo_eq_dec : EqDecision LogicalNodeInfo.
Proof. solve_decision. Defined.

Module Logical.

Definition default : LogicalNodeInfo :=
  {| level_ := 0; number_ := 0; fanout_ := 0; uuid_ := UUID_generated; initialized_ := false |}.

(** [setPosition(uint32_t, uint32_t)] *)
Definition setPosition (level number : Z) : M LogicalNodeInfo unit :=
  this ← get;
  if isPositionValid level number (fanout_ this)
  then modify (fun p => {| level_ := level; number_ := number; fanout_ := fanout_ p;
                           uuid_ := UUID_generated; initialized_ := initialized_ p |})
  else throw (invalid_argument "Invalid Parameter Level or Number").

(** [setPosition(LogicalNodeInfo)] *)
Definition setPositionFrom (other : LogicalNodeInfo) : M LogicalNodeInfo unit :=
  if isPositionValid (level_ other) (number_ other) (fanout_ other)
  then modify (fun _ => {| level_ := level_ other; number_ := number_ other;
                           fanout_ := fanout_ other; uuid_ := uuid_ other;
                           initialized_ := initialized_ other |})
  else throw (invalid_argument "Peer has invalid Position").

Definition setFanout (fanout : Z) : M LogicalNodeInfo unit :=
  throw_if (negb (isFanoutValid fanout))
    (invalid_argument "Fanout has to be >= 2 and <= 255");;
  this ← get;
  if isPositionValid (level_ this) (number_ this) fanout
  then modify (fun p => {| level_ := level_ p; number_ := number_ p; fanout_ := fanout;
                           uuid_ := uuid_ p; initialized_ := initialized_ p |})
  else throw (invalid_argument "Position with the given Fanout is not valid").

(** A constructor that calls a setter yields an object only if the setter returns. *)
Definition construct {S} (init : S) (body : M S unit) : outcome S :=
  match body init with
  | (Ok _, s) => Ok s
  | (Throw e, _) => Throw e
  | (Undefined, _) => Undefined
  end.

Definition of_fanout (fanout : Z) : outcome LogicalNodeInfo := construct default (setFanout fanout).

Definition of_level_number (level number : Z) : LogicalNodeInfo :=
  {| level_ := level; number_ := number; fanout_ := 0; uuid_ := UUID_generated;
     initialized_ := false |}.

Definition of_position (level number fanout : Z) : outcome LogicalNodeInfo :=
  construct {| level_ := 0; number_ := 0; fanout_ := fanout; uuid_ := UUID_generated;
               initialized_ := true |} (setPosition level number).

Definition isRoot (this : LogicalNodeInfo) : bool :=
  if negb (number_ this =? 0) || negb (level_ this =? 0) then false
  else if negb (initialized_ this) && (number_ this =? 0) && (level_ this =? 0) then false
  else true.

Definition isInitialized (this : LogicalNodeInfo) : bool := initialized_ this.

Definition isSameLevel (this other : LogicalNodeInfo) : bool :=
  if negb (isInitialized this) || negb (isInitialized other) then false
  else level_ this =? level_ other.

Definition isDeeperThan (this other : LogicalNodeInfo) : bool :=
  if negb (isInitialized this) || negb (isInitialized other) then false
  else level_ other <? level_ this.

Definition isDeeperThanOrSameLevel (this other : LogicalNodeInfo) : bool :=
  if negb (isInitialized this) || negb (isInitialized other) then false
  else level_ other <=? level_ this.

Definition isPrioNode `{Platform} (this : LogicalNodeInfo) : outcome bool :=
  if isInitialized this
  then isNodePartOfPrioSet (level_ this) (number_ this) (fanout_ this)
  else mret false.

Definition getHorizontalValue (this : LogicalNodeInfo) : double :=
  treeMapper (level_ this) (number_ this) (fanout_ this) kTreeMapperRootValue.

(** The comparison operators; [==] ignores the UUID. *)
Definition eqb (p1 p2 : LogicalNodeInfo) : bool :=
  (level_ p1 =? level_ p2) && (number_ p1 =? number_ p2) &&
  (fanout_ p1 =? fanout_ p2) && Bool.eqb (isInitialized p1) (isInitialized p2).
Definition ltb (p1 p2 : LogicalNodeInfo) : bool := d_lt (getHorizontalValue p1) (getHorizontalValue p2).
Definition leb (p1 p2 : LogicalNodeInfo) : bool := d_le (getHorizontalValue p1) (getHorizontalValue p2).
Definition gtb (p1 p2 : LogicalNodeInfo) : bool := negb (leb p1 p2).
Definition geb (p1 p2 : LogicalNodeInfo) : bool := negb (ltb p1 p2).

(** *** Properties *)

(** What every position that ever counts as a peer satisfies. *)
Definition wf (p : LogicalNodeInfo) : bool :=
  negb (initialized_ p) || isPositionValid (level_ p) (number_ p) (fanout_ p).

Lemma eqb_spec p q : eqb p q = true <->
  level_ p = level_ q /\ number_ p = number_ q /\ fanout_ p = fanout_ q /\
  initialized_ p = initialized_ q.
Proof.
  unfold eqb, isInitialized. rewrite !andb_true_iff, !Z.eqb_eq, Bool.eqb_true_iff. tauto.
Qed.

Lemma eqb_refl p : eqb p p = true.
Proof. by apply eqb_spec. Qed.

(** [==] is coarser than equality; the order and every observer but the UUID respect it. *)
#[export] Instance eqb_equivalence : Equivalence (fun p q => eqb p q = true).
Proof.
  split.
  - intros p. apply eqb_refl.
  - intros p q. rewrite !eqb_spec. naive_solver.
  - intros p q r. rewrite !eqb_spec. naive_solver congruence.
Qed.

Lemma eqb_hvalue p q : eqb p q = true -> getHorizontalValue p = getHorizontalValue q.
Proof. rewrite eqb_spec. intros (? & ? & ? & _). unfold getHorizontalValue. congruence. Qed.

Lemma of_position_Ok l n f :
  isPositionValid l n f = true ->
  of_position l n f = Ok {| level_ := l; number_ := n; fanout_ := f;
                            uuid_ := UUID_generated; initialized_ := true |}.
Proof. intros H. unfold of_position, construct, setPosition. mred. simpl. by rewrite H. Qed.

Lemma of_position_inv l n f p :
  of_position l n f = Ok p ->
  isPositionValid l n f = true /\
  p = {| level_ := l; number_ := n; fanout_ := f; uuid_ := UUID_generated; initialized_ := true |}.
Proof.
  unfold of_position, construct, setPosition. mred. simpl.
  destruct (isPositionValid l n f) eqn:E; cbn; [|done]. intros [= <-]. done.
Qed.

Lemma setPosition_wf l n p : wf p = true -> wf (setPosition l n p).2 = true.
Proof.
  unfold setPosition, wf. mred. intros H.
  destruct (isPositionValid l n (fanout_ p)) eqn:E; cbn; [|done]. rewrite E. by rewrite orb_true_r.
Qed.

Lemma setPositionFrom_wf q p : wf p = true -> wf (setPositionFrom q p).2 = true.
Proof.
  unfold setPositionFrom, wf. mred. intros H.
  destruct (isPositionValid (level_ q) (number_ q) (fanout_ q)) eqn:E; cbn; [|done]. rewrite E. by rewrite orb_true_r.
Qed.

Lemma setFanout_wf f p : wf p = true -> wf (setFanout f p).2 = true.
Proof.
  unfold setFanout, wf. mred. intros H.
  destruct (isFanoutValid f); cbn; [|done].
  destruct (isPositionValid (level_ p) (number_ p) f) eqn:E; cbn; [|done]. rewrite E. by rewrite orb_true_r.
Qed.

End Logical.

(** ** PhysicalNodeInfo *)

Definition kPortMin : Z := 1024.
Definition kPortMax : Z := 65535.

Definition is_digit (c : ascii) : bool :=
  (48 <=? Z.of_nat (nat_of_ascii c)) && (Z.of_nat (nat_of_ascii c) <=? 57).
Definition digit_value (c : ascii) : Z := Z.of_nat (nat_of_ascii c) - 48.

(** [std::stoi] on a string of digits. *)
Definition stoi (digits : list ascii) : Z := foldl (fun acc c => 10 * acc + digit_value c) 0 digits.

(** The matches of [std::regex("\\d{1,3}")] from left to right: [cur] is the match being
    extended, greedily and up to three digits. *)
Fixpoint regex_matches (cur : list ascii) (s : list ascii) : list (list ascii) :=
  match s with
  | [] => if decide (cur = []) then [] else [cur]
  | c :: s' =>
      if is_digit c then
        if (length cur =? 3)%nat then cur :: regex_matches [c] s'
        else regex_matches (cur ++ [c]) s'
      else (if decide (cur = []) then [] else [cur]) ++ regex_matches [] s'
  end.

(** [str.c_str()] ends at the first NUL. *)
Fixpoint c_str (s : list ascii) : list ascii :=
  match s with
  | [] => []
  | c :: s' => if (nat_of_ascii c =? 0)%nat then [] else c :: c_str s'
  end.

(** One group of a dotted-decimal address. *)
Definition octet (o : list ascii) : Prop :=
  (1 <= length o <= 3)%nat /\ forallb is_digit o = true /\ 0 <= stoi o <= 255.

Definition dot : ascii := "."%char.
Definition dotted (o1 o2 o3 o4 : list ascii) : list ascii :=
  o1 ++ dot :: o2 ++ dot :: o3 ++ dot :: o4.

(** [inet_pton] of the operating system, as far as the code looks at it (whether it returns
    non-zero). POSIX: for [AF_INET] the string is "ddd.ddd.ddd.ddd" with one- to three-digit
    decimal numbers between 0 and 255. *)
Class Inet := {
  inet_pton4 : list ascii -> bool;
  inet_pton6 : list ascii -> bool;
  inet_pton4_dotted : forall s, inet_pton4 s = true ->
    exists o1 o2 o3 o4, Forall octet [o1; o2; o3; o4] /\ s = dotted o1 o2 o3 o4;
}.

Record PhysicalNodeInfo := {
  port_ : Z;
  address_ : list ascii;
}.

#[export] Instance PhysicalNodeInfo_eq_dec : EqDecision PhysicalNodeInfo.
Proof. solve_decision. Defined.

Module Physical.
Section Addresses.
Context `{Inet}.

Definition default : PhysicalNodeInfo := {| port_ := 0; address_ := [] |}.

Definition isIpv4Address (str : list ascii) : bool := inet_pton4 (c_str str).
Definition isIpv6Address (str : list ascii) : bool := inet_pton6 (c_str str).

Definition setPort (port : Z) : M PhysicalNodeInfo unit :=
  throw_if ((port <? kPortMin) || (kPortMax <=? port)) (invalid_argument "Invalid Port");;
  modify (fun p => {| port_ := port; address_ := address_ p |}).

Definition setAddress (address : list ascii) : M PhysicalNodeInfo unit :=
  throw_if (Nat.eqb (length address) 0) (invalid_argument "Adress has to be valid");;
  throw_if (negb (isIpv4Address address) && negb (isIpv6Address address))
    (invalid_argument "Adress has to be valid");;
  modify (fun p => {| port_ := port_ p; address_ := address |}).

(** [e.what()] *)
Definition what (e : exn) : string :=
  match e with
  | invalid_argument w | logic_error w | out_of_range w | runtime_error w
  | FSMException w | InvalidMessageException w => w
  | AlgorithmException type message => getAlgorithmTypeString type ++ message
  | bad_optional_access => "bad optional access"
  | bad_variant_access => "bad variant access"
  | bad_function_call => "bad_function_call"
  end.

(** [try m catch (e) throw handler(e)] *)
Definition rethrow {S A} (m : M S A) (handler : exn -> exn) : M S A :=
  fun s => match m s with (Throw e, s') => (Throw (handler e), s') | r => r end.

Definition of_address (address : list ascii) (port : Z) : outcome PhysicalNodeInfo :=
  Logical.construct default
    (rethrow (setAddress address) (fun e => invalid_argument (what e));;
     rethrow (setPort port) (fun _ => invalid_argument "Port has to be valid")).

Definition isInitialized (this : PhysicalNodeInfo) : bool :=
  negb (port_ this =? 0) && negb (bool_decide (address_ this = [])) &&
  isIpv4Address (address_ this).

Definition getAddressValue (this : PhysicalNodeInfo) : outcome Z :=
  if negb (isInitialized this) then Ok 0
  else
    let bytes := stoi <$> regex_matches [] (address_ this) in
    b0 ← vec_at bytes 0;
    let ip := u32 (Z.shiftl b0 24) in
    b1 ← vec_at bytes 1;
    let ip := Z.lor ip (Z.shiftl b1 16) in
    b2 ← vec_at bytes 2;
    let ip := Z.lor ip (Z.shiftl b2 8) in
    b3 ← vec_at bytes 3;
    Ok (Z.lor ip b3).

Definition eqb (n1 n2 : PhysicalNodeInfo) : bool :=
  (port_ n1 =? port_ n2) && bool_decide (address_ n1 = address_ n2).

(** [address + port * 256^4] is below 2^48 and exact in a [double]. *)
Definition order_value (n : PhysicalNodeInfo) : outcome Z :=
  v ← getAddressValue n; mret (v + port_ n * 256 ^ 4).
Definition ltb (n1 n2 : PhysicalNodeInfo) : outcome bool :=
  v1 ← order_value n1; v2 ← order_value n2; mret (v1 <? v2).
Definition leb (n1 n2 : PhysicalNodeInfo) : outcome bool :=
  v1 ← order_value n1; v2 ← order_value n2; mret (v1 <=? v2).

(** *** Properties *)

Lemma regex_matches_digits cur o s :
  forallb is_digit o = true -> (length cur + length o <= 3)%nat ->
  regex_matches cur (o ++ s) = regex_matches (cur ++ o) s.
Proof.
  revert cur; induction o as [|c o IH]; intros cur Hd Hlen; simpl in *.
  - by rewrite app_nil_r.
  - apply andb_prop in Hd as [Hc Ho]. rewrite Hc.
    destruct (Nat.eqb_spec (length cur) 3); [lia|].
    rewrite IH; [by rewrite <- app_assoc|done|]. rewrite length_app. simpl. lia.
Qed.

Lemma regex_matches_octet o s : octet o ->
  regex_matches [] (o ++ dot :: s) = o :: regex_matches [] s.
Proof.
  intros (Hlen & Hd & _). rewrite regex_matches_digits by (done || simpl; lia). simpl.
  destruct (decide (o = [])) as [->|]; [simpl in Hlen; lia|done].
Qed.

Lemma regex_matches_last o : octet o -> regex_matches [] o = [o].
Proof.
  intros (Hlen & Hd & _). rewrite <- (app_nil_r o) at 1.
  rewrite regex_matches_digits by (done || simpl; lia). simpl.
  destruct (decide (o = [])) as [->|]; [simpl in Hlen; lia|done].
Qed.

Lemma regex_matches_dotted o1 o2 o3 o4 :
  Forall octet [o1; o2; o3; o4] -> regex_matches [] (dotted o1 o2 o3 o4) = [o1; o2; o3; o4].
Proof.
  rewrite !Forall_cons. intros (H1 & H2 & H3 & H4 & _). unfold dotted.
  by rewrite !regex_matches_octet, regex_matches_last.
Qed.

(** Disjoint bit ranges: [|] is [+]. *)
Lemma lor_add a b k : 0 <= k -> 0 <= b < 2 ^ k -> Z.lor (a * 2 ^ k) b = a * 2 ^ k + b.
Proof.
  intros Hk Hb. rewrite <- Z.shiftl_mul_pow2 by lia.
  assert (Hland : Z.land (Z.shiftl a k) b = 0).
  { apply Z.bits_inj'. intros i Hi. rewrite Z.land_spec, Z.bits_0.
    destruct (Z.lt_ge_cases i k); [by rewrite Z.shiftl_spec_low|].
    destruct (Z.eq_dec b 0) as [->|]; [by rewrite Z.bits_0, andb_false_r|].
    rewrite (Z.bits_above_log2 b i); [by rewrite andb_false_r|lia|].
    apply Z.lt_le_trans with k; [|done]. by apply Z.log2_lt_pow2; lia. }
  rewrite <- Z.lxor_lor by done. by rewrite Z.add_nocarry_lxor.
Qed.

Lemma shift_octets a b c d :
  0 <= a <= 255 -> 0 <= b <= 255 -> 0 <= c <= 255 -> 0 <= d <= 255 ->
  Z.lor (Z.lor (Z.lor (u32 (Z.shiftl a 24)) (Z.shiftl b 16)) (Z.shiftl c 8)) d =
  a * 2 ^ 24 + b * 2 ^ 16 + c * 2 ^ 8 + d.
Proof.
  intros. rewrite !Z.shiftl_mul_pow2 by lia. rewrite u32_id by (unfold in_u32; lia).
  rewrite (lor_add a (b * 2 ^ 16) 24) by lia.
  replace (a * 2 ^ 24 + b * 2 ^ 16) with ((a * 2 ^ 8 + b) * 2 ^ 16) by lia.
  rewrite (lor_add (a * 2 ^ 8 + b) (c * 2 ^ 8) 16) by lia.
  replace ((a * 2 ^ 8 + b) * 2 ^ 16 + c * 2 ^ 8) with ((a * 2 ^ 16 + b * 2 ^ 8 + c) * 2 ^ 8) by lia.
  rewrite lor_add by lia. lia.
Qed.

Lemma getAddressValue_dotted p o1 o2 o3 o4 :
  isInitialized p = true -> Forall octet [o1; o2; o3; o4] -> address_ p = dotted o1 o2 o3 o4 ->
  getAddressValue p =
    Ok (stoi o1 * 2 ^ 24 + stoi o2 * 2 ^ 16 + stoi o3 * 2 ^ 8 + stoi o4).
Proof.
  intros Hi Ho Ha. unfold getAddressValue. rewrite Hi, Ha, regex_matches_dotted by done.
  rewrite !Forall_cons in Ho. destruct Ho as ((_ & _ & ?) & (_ & _ & ?) & (_ & _ & ?) & (_ & _ & ?) & _).
  simpl. f_equal. by apply shift_octets.
Qed.

Lemma isInitialized_dotted p :
  isInitialized p = true -> c_str (address_ p) = address_ p ->
  exists o1 o2 o3 o4, Forall octet [o1; o2; o3; o4] /\ address_ p = dotted o1 o2 o3 o4.
Proof.
  unfold isInitialized, isIpv4Address. rewrite !andb_true_iff. intros [_ Hi] Hc.
  rewrite Hc in Hi. by apply inet_pton4_dotted.
Qed.

(** A constructed physical node has a port that [setPort] accepts and an address of either
    family. *)
Lemma of_address_inv a port p :
  of_address a port = Ok p ->
  p = {| port_ := port; address_ := a |} /\ kPortMin <= port < kPortMax /\ a <> [] /\
  (isIpv4Address a || isIpv6Address a) = true.
Proof.
  unfold of_address, Logical.construct, rethrow, setAddress, setPort. mred.
  destruct a as [|c a]; simpl; [done|].
  destruct (isIpv4Address (c :: a)) eqn:E4, (isIpv6Address (c :: a)) eqn:E6; simpl; try done;
    destruct (port <? kPortMin) eqn:E1; simpl; try done;
    destruct (kPortMax <=? port) eqn:E2; simpl; try done;
    intros [= <-]; repeat split; try done; lia.
Qed.

End Addresses.
End Physical.

(** ** NodeInfo *)

Inductive NodeStatus := kUninit | kRunning | kLeft | kFailed.

#[export] Instance NodeStatus_eq_dec : EqDecision NodeStatus.
Proof. solve_decision. Defined.

Record NodeInfo := {
  l_node_info_ : LogicalNodeInfo;
  p_node_info_ : PhysicalNodeInfo;
  status_ : NodeStatus;
}.

#[export] Instance NodeInfo_eq_dec : EqDecision NodeInfo.
Proof. solve_decision. Defined.

Module Node.
Section Nodes.
Context `{Inet}.

Definition default : NodeInfo :=
  {| l_node_info_ := Logical.default; p_node_info_ := Physical.default; status_ := kUninit |}.

Definition of_position (level number fanout : Z) : outcome NodeInfo :=
  l ← Logical.of_position level number fanout;
  mret {| l_node_info_ := l; p_node_info_ := Physical.default; status_ := kUninit |}.

Definition of_position_address (level number fanout : Z) (address : list ascii) (port : Z)
    : outcome NodeInfo :=
  l ← Logical.of_position level number fanout;
  p ← Physical.of_address address port;
  mret {| l_node_info_ := l; p_node_info_ := p; status_ := kUninit |}.

Definition setLogicalNodeInfo (l : LogicalNodeInfo) (n : NodeInfo) : NodeInfo :=
  {| l_node_info_ := l; p_node_info_ := p_node_info_ n; status_ := status_ n |}.
Definition setPhysicalNodeInfo (p : PhysicalNodeInfo) (n : NodeInfo) : NodeInfo :=
  {| l_node_info_ := l_node_info_ n; p_node_info_ := p; status_ := status_ n |}.
Definition setStatus (s : NodeStatus) (n : NodeInfo) : NodeInfo :=
  {| l_node_info_ := l_node_info_ n; p_node_info_ := p_node_info_ n; status_ := s |}.

Definition setPosition (level number : Z) : M NodeInfo unit :=
  zoom l_node_info_ setLogicalNodeInfo (Logical.setPosition level number).
Definition setPositionFrom (other : LogicalNodeInfo) : M NodeInfo unit :=
  zoom l_node_info_ setLogicalNodeInfo (Logical.setPositionFrom other).
Definition setFanout (fanout : Z) : M NodeInfo unit :=
  zoom l_node_info_ setLogicalNodeInfo (Logical.setFanout fanout).
Definition setPort (port : Z) : M NodeInfo unit :=
  zoom p_node_info_ setPhysicalNodeInfo (Physical.setPort port).
Definition setAddress (address : list ascii) : M NodeInfo unit :=
  zoom p_node_info_ setPhysicalNodeInfo (Physical.setAddress address).

Definition getLevel (n : NodeInfo) : Z := level_ (l_node_info_ n).
Definition getNumber (n : NodeInfo) : Z := number_ (l_node_info_ n).
Definition getFanout (n : NodeInfo) : Z := fanout_ (l_node_info_ n).

Definition isInitialized (n : NodeInfo) : bool :=
  Logical.isInitialized (l_node_info_ n) && Physical.isInitialized (p_node_info_ n).
Definition isValidPeer (n : NodeInfo) : bool := Logical.isInitialized (l_node_info_ n).

Definition eqb (n1 n2 : NodeInfo) : bool :=
  Logical.eqb (l_node_info_ n1) (l_node_info_ n2) && Physical.eqb (p_node_info_ n1) (p_node_info_ n2).
Definition ltb (n1 n2 : NodeInfo) : bool := Logical.ltb (l_node_info_ n1) (l_node_info_ n2).
Definition leb (n1 n2 : NodeInfo) : bool := Logical.leb (l_node_info_ n1) (l_node_info_ n2).

Lemma isInitialized_valid n : isInitialized n = true -> isValidPeer n = true.
Proof. unfold isInitialized, isValidPeer. by intros [? ?]%andb_prop. Qed.

End Nodes.
End Node.

(** ** Addresses as one number *)

(** An initialised physical node whose address holds no NUL has a dotted-quad address, and
    [getAddressValue] returns the 32-bit number its four octets spell, the first one most
    significant; so nodes with the same value have the same octets. *)
Theorem getAddressValue_octets `{Inet} p :
  Physical.isInitialized p = true -> c_str (address_ p) = address_ p ->
  exists o1 o2 o3 o4, Forall octet [o1; o2; o3; o4] /\ address_ p = dotted o1 o2 o3 o4 /\
    Physical.getAddressValue p =
      Ok (stoi o1 * 2 ^ 24 + stoi o2 * 2 ^ 16 + stoi o3 * 2 ^ 8 + stoi o4).
Proof.
  intros Hi Hc. destruct (Physical.isInitialized_dotted p Hi Hc) as (o1 & o2 & o3 & o4 & Ho & Ha).
  exists o1, o2, o3, o4. split; [done|]. split; [done|].
  by apply Physical.getAddressValue_dotted.
Qed.

(** An [inet_pton] for IPv4 only: four groups between dots, checked one by one. *)
Fixpoint split_dots (cur s : list ascii) : list (list ascii) :=
  match s with
  | [] => [cur]
  | c :: s' => if decide (c = dot) then cur :: split_dots [] s' else split_dots (cur ++ [c]) s'
  end.

Definition octetb (o : list ascii) : bool :=
  (1 <=? length o)%nat && (length o <=? 3)%nat && forallb is_digit o &&
  (0 <=? stoi o) && (stoi o <=? 255).

Lemma octetb_octet o : octetb o = true -> octet o.
Proof. unfold octetb, octet. rewrite !andb_true_iff, !Nat.leb_le, !Z.leb_le. tauto. Qed.

Definition dotted_quad (s : list ascii) : bool :=
  match split_dots [] s with
  | [o1; o2; o3; o4] => forallb octetb [o1; o2; o3; o4] && bool_decide (s = dotted o1 o2 o3 o4)
  | _ => false
  end.

Lemma dotted_quad_dotted s : dotted_quad s = true ->
  exists o1 o2 o3 o4, Forall octet [o1; o2; o3; o4] /\ s = dotted o1 o2 o3 o4.
Proof.
  unfold dotted_quad. destruct (split_dots [] s) as [|o1 [|o2 [|o3 [|o4 [|]]]]]; try done.
  intros [Ho Hs%bool_decide_eq_true]%andb_prop. exists o1, o2, o3, o4. split; [|done].
  apply Forall_forall. intros o Hin. apply octetb_octet.
  rewrite forallb_forall in Ho. apply Ho. by apply list_elem_of_In.
Qed.

Definition ipv4_only : Inet := {|
  inet_pton4 := dotted_quad;
  inet_pton6 := fun _ => false;
  inet_pton4_dotted := dotted_quad_dotted;
|}.

Definition localhost : PhysicalNodeInfo :=
  {| port_ := 2000; address_ := String.list_ascii_of_string "127.0.0.1" |}.

Section OnIpv4.
#[local] Existing Instance ipv4_only.

Lemma getAddressValue_octets_witness :
  exists o1 o2 o3 o4, Forall octet [o1; o2; o3; o4] /\ address_ localhost = dotted o1 o2 o3 o4 /\
    Physical.getAddressValue localhost =
      Ok (stoi o1 * 2 ^ 24 + stoi o2 * 2 ^ 16 + stoi o3 * 2 ^ 8 + stoi o4).
Proof. apply (getAddressValue_octets localhost); vm_compute; reflexivity. Defined.

End OnIpv4.
