(* ===== verification/ProcedureInfo.v ===== *)
(** * Procedure info

    Model of [minhton/utils/procedure_info.h] and [procedure_info.cpp]: what a node remembers
    of the procedures it has begun. Procedures are named by a [ProcedureKey], which has a
    vector of nodes, an event id, or (by [operator[]] on a missing entry) both; entity searches
    are named by the id of their first event, in eight maps. The values of the entity search
    (queries, attributes, promises) are opaque here. *)

From S2P Require Import Prelude NodeInfo.

Inductive ProcedureKey :=
| kBootstrapProcess | kJoinProcedure | kLeaveProcedure | kAcceptChildProcedure
| kFindReplacementProcedure | kEntitySearchUndecidedNodeInquiries.

#[export] Instance ProcedureKey_eq_dec : EqDecision ProcedureKey.
Proof. solve_decision. Defined.

Definition ProcedureKey_index (key : ProcedureKey) : nat :=
  match key with
  | kBootstrapProcess => 0 | kJoinProcedure => 1 | kLeaveProcedure => 2 | kAcceptChildProcedure => 3
  | kFindReplacementProcedure => 4 | kEntitySearchUndecidedNodeInquiries => 5
  end.

#[export] Program Instance ProcedureKey_countable : Countable ProcedureKey :=
  inj_countable ProcedureKey_index
    (fun n => [kBootstrapProcess; kJoinProcedure; kLeaveProcedure; kAcceptChildProcedure;
               kFindReplacementProcedure; kEntitySearchUndecidedNodeInquiries] !! n) _.
Next Obligation. by intros []. Qed.

(** ** One map from event ids

    The maps of the entity search have the same four functions each. *)
Module Entries.
Section Entries.
Context {V : Type}.

Definition has (ref_event_id : Z) (map : gmap Z V) : bool := bool_decide (is_Some (map !! ref_event_id)).

Definition save (ref_event_id : Z) (value : V) : M (gmap Z V) unit :=
  map ← get;
  throw_if (has ref_event_id map) (AlgorithmException kUndefinedAlgorithm "Event already exists. Extremely unlikely.");;
  modify <[ref_event_id := value]>.

(** The [operator[]] behind the guard finds the entry; a missing one is not reached. *)
Definition load (ref_event_id : Z) : M (gmap Z V) V :=
  map ← get;
  match map !! ref_event_id with
  | Some value => mret value
  | None => throw (AlgorithmException kUndefinedAlgorithm "Event does not exist. You cannot load a non-existent entry.")
  end.

Definition update (ref_event_id : Z) (value : V) : M (gmap Z V) unit :=
  map ← get;
  throw_if (negb (has ref_event_id map))
    (AlgorithmException kUndefinedAlgorithm "Event does not exist. You cannot update a non-existent entry.");;
  modify <[ref_event_id := value]>.

Definition remove (ref_event_id : Z) : M (gmap Z V) unit :=
  map ← get;
  throw_if (negb (has ref_event_id map))
    (AlgorithmException kUndefinedAlgorithm "Event does not exist. You cannot remove a non-existent entry.");;
  modify (delete ref_event_id).

(** An entry that was free is free again once it is removed, and the map is what it was. *)
Lemma lifecycle id v w (map : gmap Z V) :
  has id map = false ->
  (save id v;; update id w;; value ← load id; remove id;; mret value) map = (Ok w, map).
Proof.
  unfold has. intros Hn%bool_decide_eq_false. apply eq_None_not_Some in Hn.
  unfold save, update, load, remove, has. mred. rewrite Hn. cbn.
  rewrite lookup_insert_eq. cbn. rewrite insert_insert_eq, lookup_insert_eq. cbn.
  rewrite lookup_insert_eq. cbn. by rewrite delete_insert_id.
Qed.

(** Reading never changes the map. *)
Lemma load_pure id (map : gmap Z V) : (load id map).2 = map.
Proof. unfold load. mred. by destruct (map !! id). Qed.

End Entries.
End Entries.

Section ProcedureInfos.
Context {FindQuery Attribute FindResultPromise : Type}.

(** [NodeData::NodesWithAttributes]: keyed by [==] on nodes. *)
Definition Attributes : Type := list Attribute.
Definition NodesWithAttributes : Type := list (NodeInfo * Attributes).

Record ProcedureInfo := {
  map_ : gmap ProcedureKey (list NodeInfo);
  event_ids_ : gmap ProcedureKey Z;
  find_query_requests_ : gmap Z FindQuery;
  find_query_undecided_nodes_ : gmap Z (list NodeInfo);
  find_query_preliminary_results_ : gmap Z NodesWithAttributes;
  dsn_aggregation_start_timestamp_ : gmap Z Z;
  inquiry_aggregation_start_timestamp_ : gmap Z Z;
  number_of_addressed_dsns_ : gmap Z Z;
  number_of_answered_dsns_ : gmap Z Z;
  find_result_promises_ : gmap Z FindResultPromise;
}.

Definition empty_ProcedureInfo : ProcedureInfo :=
  Build_ProcedureInfo ∅ ∅ ∅ ∅ ∅ ∅ ∅ ∅ ∅ ∅.

Definition set_map v p :=
  let '(Build_ProcedureInfo _ b c d e f g h i j) := p in Build_ProcedureInfo v b c d e f g h i j.
Definition set_event_ids v p :=
  let '(Build_ProcedureInfo a _ c d e f g h i j) := p in Build_ProcedureInfo a v c d e f g h i j.
Definition set_find_query_requests v p :=
  let '(Build_ProcedureInfo a b _ d e f g h i j) := p in Build_ProcedureInfo a b v d e f g h i j.
Definition set_undecided_nodes v p :=
  let '(Build_ProcedureInfo a b c _ e f g h i j) := p in Build_ProcedureInfo a b c v e f g h i j.
Definition set_preliminary_results v p :=
  let '(Build_ProcedureInfo a b c d _ f g h i j) := p in Build_ProcedureInfo a b c d v f g h i j.
Definition set_dsn_timestamps v p :=
  let '(Build_ProcedureInfo a b c d e _ g h i j) := p in Build_ProcedureInfo a b c d e v g h i j.
Definition set_inquiry_timestamps v p :=
  let '(Build_ProcedureInfo a b c d e f _ h i j) := p in Build_ProcedureInfo a b c d e f v h i j.
Definition set_addressed_dsns v p :=
  let '(Build_ProcedureInfo a b c d e f g _ i j) := p in Build_ProcedureInfo a b c d e f g v i j.
Definition set_answered_dsns v p :=
  let '(Build_ProcedureInfo a b c d e f g h _ j) := p in Build_ProcedureInfo a b c d e f g h v j.
Definition set_promises v p :=
  let '(Build_ProcedureInfo a b c d e f g h i _) := p in Build_ProcedureInfo a b c d e f g h i v.

(** ** Procedures named by a key *)

Definition hasEvent (key : ProcedureKey) (p : ProcedureInfo) : bool :=
  bool_decide (is_Some (event_ids_ p !! key)).
Definition hasNodeInfo (key : ProcedureKey) (p : ProcedureInfo) : bool :=
  bool_decide (is_Some (map_ p !! key)).
Definition hasKey (key : ProcedureKey) (p : ProcedureInfo) : bool :=
  hasEvent key p || hasNodeInfo key p.

Definition key_exists : exn :=
  AlgorithmException kUndefinedAlgorithm "Key already exists. You must wait until it has been removed.".

Definition save (key : ProcedureKey) (value : list NodeInfo) : M ProcedureInfo unit :=
  p ← get;
  throw_if (hasKey key p) key_exists;;
  modify (fun p => set_map (<[key := value]> (map_ p)) p).

Definition saveEventId (key : ProcedureKey) (event_id : Z) : M ProcedureInfo unit :=
  p ← get;
  throw_if (hasKey key p) key_exists;;
  modify (fun p => set_event_ids (<[key := event_id]> (event_ids_ p)) p).

Definition update (key : ProcedureKey) (value : list NodeInfo) : M ProcedureInfo unit :=
  p ← get;
  throw_if (negb (hasKey key p))
    (AlgorithmException kUndefinedAlgorithm "Key does not exist. You cannot update a non-existent entry.");;
  modify (fun p => set_map (<[key := value]> (map_ p)) p).

(** [map_[key]] inserts an empty vector when the key has only an event id. *)
Definition load (key : ProcedureKey) : M ProcedureInfo (list NodeInfo) :=
  p ← get;
  throw_if (negb (hasKey key p))
    (AlgorithmException kUndefinedAlgorithm "Key does not exist. You cannot load a non-existent entry.");;
  match map_ p !! key with
  | Some value => mret value
  | None => modify (fun p => set_map (<[key := []]> (map_ p)) p);; mret []
  end.

(** [event_ids_[key]] inserts 0 when the key has only nodes. *)
Definition loadEventId (key : ProcedureKey) : M ProcedureInfo Z :=
  p ← get;
  throw_if (negb (hasKey key p))
    (AlgorithmException kUndefinedAlgorithm "Key does not exist. You cannot load a non-existent entry.");;
  match event_ids_ p !! key with
  | Some value => mret value
  | None => modify (fun p => set_event_ids (<[key := 0]> (event_ids_ p)) p);; mret 0
  end.

Definition key_missing_remove : exn :=
  AlgorithmException kUndefinedAlgorithm "Key does not exist. You cannot remove a non-existent entry.".

Definition remove (key : ProcedureKey) : M ProcedureInfo unit :=
  p ← get;
  throw_if (negb (hasKey key p)) key_missing_remove;;
  modify (fun p => set_map (delete key (map_ p)) p).

Definition removeEventId (key : ProcedureKey) : M ProcedureInfo unit :=
  p ← get;
  throw_if (negb (hasKey key p)) key_missing_remove;;
  modify (fun p => set_event_ids (delete key (event_ids_ p)) p).

(** ** Entity searches named by an event id *)

Definition hasFindQueryEvent id p := Entries.has id (find_query_requests_ p).
Definition saveFindQuery id value := zoom find_query_requests_ set_find_query_requests (Entries.save id value).
Definition loadFindQuery id := zoom find_query_requests_ set_find_query_requests (Entries.load id).
Definition updateFindQuery id value :=
  zoom find_query_requests_ set_find_query_requests (Entries.update id value).
Definition removeFindQuery id := zoom find_query_requests_ set_find_query_requests (Entries.remove id).

Definition hasFindQueryUndecidedNodes id p := Entries.has id (find_query_undecided_nodes_ p).
Definition saveFindQueryUndecidedNodes id value :=
  zoom find_query_undecided_nodes_ set_undecided_nodes (Entries.save id value).
Definition loadFindQueryUndecidedNodes id :=
  zoom find_query_undecided_nodes_ set_undecided_nodes (Entries.load id).
Definition updateFindQueryUndecidedNodes id value :=
  zoom find_query_undecided_nodes_ set_undecided_nodes (Entries.update id value).
Definition removeFindQueryUndecidedNodes id :=
  zoom find_query_undecided_nodes_ set_undecided_nodes (Entries.remove id).

Definition hasFindQueryPreliminaryResults id p := Entries.has id (find_query_preliminary_results_ p).
Definition saveFindQueryPreliminaryResults id value :=
  zoom find_query_preliminary_results_ set_preliminary_results (Entries.save id value).
Definition loadFindQueryPreliminaryResults id :=
  zoom find_query_preliminary_results_ set_preliminary_results (Entries.load id).

(** [results[node] = value], or [value] appended to what the node has. *)
Fixpoint add_attributes (node : NodeInfo) (value : Attributes) (results : NodesWithAttributes)
    : NodesWithAttributes :=
  match results with
  | [] => [(node, value)]
  | (key, attributes) :: results' =>
      if Node.eqb key node then (key, attributes ++ value) :: results'
      else (key, attributes) :: add_attributes node value results'
  end.

Definition addFindQueryPreliminaryResults (id : Z) (node : NodeInfo) (value : Attributes)
    : M ProcedureInfo unit :=
  p ← get;
  match find_query_preliminary_results_ p !! id with
  | None => throw (AlgorithmException kUndefinedAlgorithm "Event does not exist. You cannot update a non-existent entry.")
  | Some results =>
      modify (fun p => set_preliminary_results
                         (<[id := add_attributes node value results]> (find_query_preliminary_results_ p)) p)
  end.
Definition removeFindQueryPreliminaryResults id :=
  zoom find_query_preliminary_results_ set_preliminary_results (Entries.remove id).

Definition hasDSNAggregationStartTimestamp id p := Entries.has id (dsn_aggregation_start_timestamp_ p).
Definition saveDSNAggregationStartTimestamp id value :=
  zoom dsn_aggregation_start_timestamp_ set_dsn_timestamps (Entries.save id value).
Definition loadDSNAggregationStartTimestamp id :=
  zoom dsn_aggregation_start_timestamp_ set_dsn_timestamps (Entries.load id).
Definition updateDSNAggregationStartTimestamp id value :=
  zoom dsn_aggregation_start_timestamp_ set_dsn_timestamps (Entries.update id value).
Definition removeDSNAggregationStartTimestamp id :=
  zoom dsn_aggregation_start_timestamp_ set_dsn_timestamps (Entries.remove id).
Definition getDSNAggregationStartTimestampMap (p : ProcedureInfo) := dsn_aggregation_start_timestamp_ p.

Definition hasInquiryAggregationStartTimestamp id p := Entries.has id (inquiry_aggregation_start_timestamp_ p).
Definition saveInquiryAggregationStartTimestamp id value :=
  zoom inquiry_aggregation_start_timestamp_ set_inquiry_timestamps (Entries.save id value).
Definition loadInquiryAggregationStartTimestamp id :=
  zoom inquiry_aggregation_start_timestamp_ set_inquiry_timestamps (Entries.load id).
Definition updateInquiryAggregationStartTimestamp id value :=
  zoom inquiry_aggregation_start_timestamp_ set_inquiry_timestamps (Entries.update id value).
Definition removeInquiryAggregationStartTimestamp id :=
  zoom inquiry_aggregation_start_timestamp_ set_inquiry_timestamps (Entries.remove id).
Definition getInquiryAggregationStartTimestampMap (p : ProcedureInfo) :=
  inquiry_aggregation_start_timestamp_ p.

Definition hasNumberOfAddressedDSNs id p := Entries.has id (number_of_addressed_dsns_ p).
Definition saveNumberOfAddressedDSNs id value :=
  zoom number_of_addressed_dsns_ set_addressed_dsns (Entries.save id value).
Definition loadNumberOfAddressedDSNs id := zoom number_of_addressed_dsns_ set_addressed_dsns (Entries.load id).
Definition updateNumberOfAddressedDSNs id value :=
  zoom number_of_addressed_dsns_ set_addressed_dsns (Entries.update id value).
Definition removeNumberOfAddressedDSNs id :=
  zoom number_of_addressed_dsns_ set_addressed_dsns (Entries.remove id).

Definition hasNumberOfAnsweredDSNs id p := Entries.has id (number_of_answered_dsns_ p).
Definition saveNumberOfAnsweredDSNs id value :=
  zoom number_of_answered_dsns_ set_answered_dsns (Entries.save id value).
Definition loadNumberOfAnsweredDSNs id := zoom number_of_answered_dsns_ set_answered_dsns (Entries.load id).
Definition updateNumberOfAnsweredDSNs id value :=
  zoom number_of_answered_dsns_ set_answered_dsns (Entries.update id value).
Definition removeNumberOfAnsweredDSNs id :=
  zoom number_of_answered_dsns_ set_answered_dsns (Entries.remove id).

Definition hasFindResultFuture id p := Entries.has id (find_result_promises_ p).
Definition saveFindResultPromise id value := zoom find_result_promises_ set_promises (Entries.save id value).
Definition loadFindResultPromise id := zoom find_result_promises_ set_promises (Entries.load id).
Definition removeFindResultPromise id := zoom find_result_promises_ set_promises (Entries.remove id).

(** ** Properties *)

(** The life of a procedure. When the key is free, saving nodes under it succeeds, loading
    gives back what the last update stored, every other key keeps its nodes and all event ids
    and searches are untouched, and removing the key brings the whole object back to what it
    was, so that the key is free again. *)
Theorem procedure_roundtrip key v w p :
  hasKey key p = false ->
  (exists p', (save key v;; update key w;; nodes ← load key; mret nodes) p = (Ok w, p') /\
     (forall key', key' <> key -> map_ p' !! key' = map_ p !! key') /\
     set_map (map_ p) p' = p) /\
  (save key v;; update key w;; nodes ← load key; remove key;; mret nodes) p = (Ok w, p).
Proof.
  unfold hasKey, hasEvent, hasNodeInfo. intros [He Hm]%orb_false_iff.
  apply bool_decide_eq_false, eq_None_not_Some in He, Hm.
  assert (Hk : forall u, hasKey key (set_map (<[key := u]> (map_ p)) p) = true).
  { intros u. unfold hasKey, hasNodeInfo. destruct p. cbn. rewrite lookup_insert_eq. by rewrite orb_true_r. }
  assert (Hf : hasKey key p = false).
  { unfold hasKey, hasEvent, hasNodeInfo. by rewrite He, Hm. }
  unfold save, update, load, remove. mred. rewrite Hf, Hk. cbn [negb].
  destruct p as [m e]; cbn in *. rewrite !insert_insert_eq, Hk. cbn [negb]. rewrite lookup_insert_eq.
  split; [eexists; split_and!; [done| |done]|].
  - intros key' Hne. cbn. by rewrite lookup_insert_ne.
  - rewrite Hk. cbn. by rewrite delete_insert_id.
Qed.

(** The two halves of a key share one guard. Nodes and an event id cannot be saved under
    the same key; asking for the event id of a key that has only nodes answers 0 and records
    it, and from then on [remove] no longer frees the key: the next save is refused until
    [removeEventId] has been called too. *)
Theorem event_id_lookup_occupies_key key v v' id p :
  hasKey key p = false ->
  saveEventId key id (save key v p).2 = (Throw key_exists, (save key v p).2) /\
  exists p', (save key v;; loadEventId key) p = (Ok 0, p') /\
    (remove key;; save key v') p' = (Throw key_exists, (remove key p').2) /\
    (remove key;; removeEventId key;; save key v') p' = (Ok tt, (save key v' p).2).
Proof.
  intros Hf. pose proof Hf as Hf'. unfold hasKey, hasEvent, hasNodeInfo in Hf'.
  apply orb_false_iff in Hf' as [He Hm]. apply bool_decide_eq_false, eq_None_not_Some in He, Hm.
  unfold saveEventId, save, loadEventId, remove, removeEventId. mred. rewrite Hf.
  destruct p as [m e]. unfold hasKey, hasEvent, hasNodeInfo in *. cbn in *.
  rewrite He, lookup_insert_eq. cbn. split; [done|]. eexists. split; [done|].
  repeat first [progress cbn | rewrite lookup_insert_eq | rewrite lookup_delete_eq
               | rewrite Hm | rewrite He]. split; [done|].
  by rewrite delete_insert_id, delete_insert_id.
Qed.


End ProcedureInfos.
Arguments ProcedureInfo : clear implicits.
