(* ===== verification/RoutingInformation.v ===== *)
(** * The routing information of a node

    Model of [minhton/src/core/routing_information.cpp], [routing_information_table.cpp] and
    [routing_information_general_helper.cpp]: the links a node keeps to its parent, children,
    adjacent nodes, routing-table neighbours and their children, and every operation on
    them. Callbacks are modelled by what they are called with: [notified_] is the sequence of
    notifications sent to each subscriber. The logger is not modelled. *)

From S2P Require Import Prelude RoutingCalculations TreeMapper NodeInfo.

Inductive NeighborRelationship :=
| kParent | kChild | kAdjacentLeft | kAdjacentRight | kRoutingTableNeighbor
| kRoutingTableNeighborChild | kUnknownRelationship.

#[export] Instance NeighborRelationship_eq_dec : EqDecision NeighborRelationship.
Proof. solve_decision. Defined.

Inductive Notification :=
| NeighborChange (new_node : NodeInfo) (relationship : NeighborRelationship)
    (old_node : NodeInfo) (index : Z)
| NodeInfoChange (previous_node_info new_node_info : NodeInfo).

#[export] Instance Notification_eq_dec : EqDecision Notification.
Proof. solve_decision. Defined.

Record RoutingInformation := {
  self_node_info_ : NodeInfo;
  parent_ : NodeInfo;
  adjacent_left_ : NodeInfo;
  adjacent_right_ : NodeInfo;
  children_ : list NodeInfo;
  routing_table_neighbors_ : list NodeInfo;
  routing_table_neighbor_children_ : list NodeInfo;
  right_table_neighbor_start_index_ : Z;
  notified_ : list Notification;
}.

#[export] Instance RoutingInformation_eq_dec : EqDecision RoutingInformation.
Proof. solve_decision. Defined.

(** Assignments to one member. *)
Definition set_self (v : NodeInfo) (s : RoutingInformation) : RoutingInformation :=
  let '(Build_RoutingInformation _ p l r c n k i t) := s in
  Build_RoutingInformation v p l r c n k i t.
Definition set_parent_ (v : NodeInfo) (s : RoutingInformation) : RoutingInformation :=
  let '(Build_RoutingInformation f _ l r c n k i t) := s in
  Build_RoutingInformation f v l r c n k i t.
Definition set_left (v : NodeInfo) (s : RoutingInformation) : RoutingInformation :=
  let '(Build_RoutingInformation f p _ r c n k i t) := s in
  Build_RoutingInformation f p v r c n k i t.
Definition set_right (v : NodeInfo) (s : RoutingInformation) : RoutingInformation :=
  let '(Build_RoutingInformation f p l _ c n k i t) := s in
  Build_RoutingInformation f p l v c n k i t.
Definition set_children (v : list NodeInfo) (s : RoutingInformation) : RoutingInformation :=
  let '(Build_RoutingInformation f p l r _ n k i t) := s in
  Build_RoutingInformation f p l r v n k i t.
Definition set_neighbors (v : list NodeInfo) (s : RoutingInformation) : RoutingInformation :=
  let '(Build_RoutingInformation f p l r c _ k i t) := s in
  Build_RoutingInformation f p l r c v k i t.
Definition set_neighbor_children (v : list NodeInfo) (s : RoutingInformation) : RoutingInformation :=
  let '(Build_RoutingInformation f p l r c n _ i t) := s in
  Build_RoutingInformation f p l r c n v i t.
Definition set_start_index (v : Z) (s : RoutingInformation) : RoutingInformation :=
  let '(Build_RoutingInformation f p l r c n k _ t) := s in
  Build_RoutingInformation f p l r c n k v t.
Definition set_notified (v : list Notification) (s : RoutingInformation) : RoutingInformation :=
  let '(Build_RoutingInformation f p l r c n k i _) := s in
  Build_RoutingInformation f p l r c n k i v.

Abbreviation RI := (M RoutingInformation).

Section Operations.
Context `{Platform} `{Inet}.

Definition default_RI : RoutingInformation :=
  {| self_node_info_ := Node.default; parent_ := Node.default; adjacent_left_ := Node.default;
     adjacent_right_ := Node.default; children_ := []; routing_table_neighbors_ := [];
     routing_table_neighbor_children_ := []; right_table_neighbor_start_index_ := 0;
     notified_ := [] |}.

(** ** Notifications *)

Definition notifyNeighborChange (new_node : NodeInfo) (relationship : NeighborRelationship)
    (old_node : NodeInfo) (index : Z) : RI unit :=
  modify (fun s => set_notified (notified_ s ++ [NeighborChange new_node relationship old_node index]) s).

Definition notifyNodeInfoChange (previous_node_info new_node_info : NodeInfo) : RI unit :=
  if Node.eqb previous_node_info new_node_info then mret tt
  else modify (fun s => set_notified (notified_ s ++ [NodeInfoChange previous_node_info new_node_info]) s).

(** ** Setting up the tables *)

Definition getFanout (s : RoutingInformation) : outcome Z :=
  throw_when (negb (Node.isValidPeer (self_node_info_ s)))
    (logic_error "We don't know our NodeInfo. Therefore we can't know the fanout.");;
  mret (Node.getFanout (self_node_info_ s)).

(** A [const] member function called on [this]. *)
Definition call {A} (f : RoutingInformation -> outcome A) : RI A := fun s => (f s, s).

Definition clearRoutingTable : RI unit :=
  modify (set_parent_ Node.default);;
  modify (set_children []);;
  modify (set_left Node.default);;
  modify (set_right Node.default);;
  modify (set_neighbors []);;
  modify (set_neighbor_children []).

Definition initParentAndChildren : RI unit :=
  modify (set_parent_ Node.default);;
  self ← gets self_node_info_;
  (if 0 <? Node.getLevel self then
     fanout ← call getFanout;
     parent ← lift (calcParent (Node.getLevel self) (Node.getNumber self) fanout);
     node ← lift (Node.of_position parent.1 parent.2 fanout);
     modify (set_parent_ node)
   else mret tt);;
  children_pos ← lift (calcChildren (Node.getLevel self) (Node.getNumber self) (Node.getFanout self));
  throw_if (negb (Node.getFanout self =? Z.of_nat (length children_pos)))
    (logic_error "Calculated children vector for Node is not the same as Fanout; Error in RoutingCalculations");;
  modify (set_children []);;
  for_each (zrange 0 (Node.getFanout self)) (fun i =>
    pos ← lift (vec_at children_pos (Z.to_nat i));
    node ← lift (Node.of_position pos.1 pos.2 (Node.getFanout self));
    modify (fun s => set_children (children_ s ++ [node]) s)).

Definition initRoutingTableNeighborChildren (parent_level parent_number : Z) : RI unit :=
  fanout ← call getFanout;
  children ← lift (calcChildren parent_level parent_number fanout);
  for_each children (fun pos =>
    fanout ← call getFanout;
    child ← lift (Node.of_position pos.1 pos.2 fanout);
    modify (fun s => set_neighbor_children (routing_table_neighbor_children_ s ++ [child]) s)).

Definition initRoutingTableNeighbors : RI unit :=
  self ← gets self_node_info_;
  let level := Node.getLevel self in
  let number := Node.getNumber self in
  fanout ← call getFanout;
  neighbor_list ← lift (calcLeftRT level number fanout);
  neighbor_list_right ← lift (calcRightRT level number fanout);
  modify (set_neighbors []);;
  modify (set_neighbor_children []);;
  modify (set_start_index (Z.of_nat (length neighbor_list)));;
  for_each (neighbor_list ++ neighbor_list_right) (fun pos =>
    fanout ← call getFanout;
    neighbor ← lift (Node.of_position pos.1 pos.2 fanout);
    modify (fun s => set_neighbors (routing_table_neighbors_ s ++ [neighbor]) s);;
    initRoutingTableNeighborChildren pos.1 pos.2);;
  modify (fun s => set_neighbors (std_sort Node.ltb (routing_table_neighbors_ s)) s);;
  modify (fun s => set_neighbor_children (std_sort Node.ltb (routing_table_neighbor_children_ s)) s).

Definition initTables : RI unit :=
  initParentAndChildren;;
  initRoutingTableNeighbors;;
  modify (set_left Node.default);;
  modify (set_right Node.default).

(** The constructor [RoutingInformation(self_node_info, logger)]. *)
Definition construct_RI (self_node_info : NodeInfo) : outcome RoutingInformation :=
  Logical.construct (set_self self_node_info default_RI)
    (if Node.isValidPeer self_node_info then initTables else mret tt).

Definition resetPosition : RI unit :=
  temp_previous ← gets self_node_info_;
  modify (fun s => set_self (Node.setLogicalNodeInfo Logical.default (self_node_info_ s)) s);;
  clearRoutingTable;;
  self ← gets self_node_info_;
  notifyNodeInfoChange temp_previous self.

Definition setPosition (peer_position : LogicalNodeInfo) : RI unit :=
  temp_previous ← gets self_node_info_;
  zoom self_node_info_ set_self (Node.setPositionFrom peer_position);;
  self ← gets self_node_info_;
  (if Node.isInitialized self then initTables else clearRoutingTable);;
  notifyNodeInfoChange temp_previous self.

Definition setNodeStatus (status : NodeStatus) : RI unit :=
  modify (fun s => set_self (Node.setStatus status (self_node_info_ s)) s).

(** ** Parent, children and adjacent nodes *)

Definition require_valid_self (message : string) : RI unit :=
  self ← gets self_node_info_;
  throw_if (negb (Node.isValidPeer self)) (logic_error message).

Definition wrong_position : exn :=
  invalid_argument "The NodeInfo needs to have the correct LogicalNodeInfo position in the tree.".
Definition wrong_fanout : exn :=
  invalid_argument "The Fanout needs to be set properly in the LogicalNodeInfo object".

Definition setParent (parent : NodeInfo) : RI unit :=
  require_valid_self "Cannot set Parent for uninitialized RoutingInformation.";;
  this ← get;
  throw_if (Node.getLevel (self_node_info_ this) =? 0) (logic_error "Root cannot have a parent");;
  throw_if (negb (Logical.eqb (l_node_info_ (parent_ this)) (l_node_info_ parent))) wrong_position;;
  fanout ← call getFanout;
  throw_if (negb (fanout =? Node.getFanout parent)) wrong_fanout;;
  throw_if (negb (Node.isInitialized parent))
    (invalid_argument "Parent must be initialized / must exist");;
  if negb (Physical.eqb (p_node_info_ parent) (p_node_info_ (parent_ this))) then
    modify (set_parent_ parent);;
    notifyNeighborChange parent kParent (parent_ this) 0
  else mret tt.

Definition setChild (child : NodeInfo) (position : Z) : RI unit :=
  require_valid_self "Cannot set Child for uninitialized RoutingInformation.";;
  this ← get;
  throw_if (Node.getFanout (self_node_info_ this) <=? position) (out_of_range "Position not in range");;
  current ← lift (vec_at (children_ this) (Z.to_nat position));
  throw_if (negb (Logical.eqb (l_node_info_ current) (l_node_info_ child))) wrong_position;;
  fanout ← call getFanout;
  throw_if (negb (fanout =? Node.getFanout child)) wrong_fanout;;
  throw_if (negb (Node.isInitialized child))
    (invalid_argument "Child must be initialized / must exist");;
  if negb (Physical.eqb (p_node_info_ child) (p_node_info_ current)) then
    modify (fun s => set_children (<[Z.to_nat position := child]> (children_ s)) s);;
    notifyNeighborChange child kChild current position
  else mret tt.

Definition getChild (child_position : Z) (s : RoutingInformation) : outcome NodeInfo :=
  throw_when (negb (Node.isValidPeer (self_node_info_ s)))
    (logic_error "Cannot get Child for uninitialized RoutingInformation.");;
  throw_when (Node.getFanout (self_node_info_ s) <=? child_position)
    (out_of_range "Position not in range");;
  vec_at (children_ s) (Z.to_nat child_position).

Definition horizontal (n : NodeInfo) : double := Logical.getHorizontalValue (l_node_info_ n).

Definition setAdjacentLeft (adjacent_left : NodeInfo) : RI unit :=
  require_valid_self "Cannot set Adjacent for uninitialized RoutingInformation.";;
  this ← get;
  fanout ← call getFanout;
  throw_if (negb (Node.getFanout adjacent_left =? fanout)) wrong_fanout;;
  throw_if (negb (Node.isInitialized adjacent_left))
    (invalid_argument "Adjacent must be initialized / must exist");;
  throw_if (d_le (horizontal (self_node_info_ this)) (horizontal adjacent_left))
    (invalid_argument "Adjacent is not to the left of us");;
  if negb (Node.eqb (adjacent_left_ this) adjacent_left) then
    modify (set_left adjacent_left);;
    notifyNeighborChange adjacent_left kAdjacentLeft (adjacent_left_ this) 0
  else mret tt.

Definition setAdjacentRight (adjacent_right : NodeInfo) : RI unit :=
  require_valid_self "Cannot set Adjacent for uninitialized RoutingInformation.";;
  this ← get;
  fanout ← call getFanout;
  throw_if (negb (Node.getFanout adjacent_right =? fanout)) wrong_fanout;;
  throw_if (negb (Node.isInitialized adjacent_right))
    (invalid_argument "Adjacent must be initialized / must exist");;
  throw_if (d_le (horizontal adjacent_right) (horizontal (self_node_info_ this)))
    (invalid_argument "Adjacent is not to the right of us");;
  if negb (Node.eqb (adjacent_right_ this) adjacent_right) then
    modify (set_right adjacent_right);;
    notifyNeighborChange adjacent_right kAdjacentRight (adjacent_right_ this) 0
  else mret tt.

Definition resetAdjacentRight : RI unit :=
  require_valid_self "RoutingInformation not initialized";;
  this ← get;
  if Node.isInitialized (adjacent_right_ this) then
    modify (set_right Node.default);;
    notifyNeighborChange Node.default kAdjacentRight (adjacent_right_ this) 0
  else mret tt.

Definition resetAdjacentLeft : RI unit :=
  require_valid_self "RoutingInformation not initialized";;
  this ← get;
  if Node.isInitialized (adjacent_left_ this) then
    modify (set_left Node.default);;
    notifyNeighborChange Node.default kAdjacentLeft (adjacent_left_ this) 0
  else mret tt.

Definition resetChild (position : Z) : RI unit :=
  require_valid_self "RoutingInformation not initialized";;
  fanout ← call getFanout;
  throw_if (fanout <=? position) (invalid_argument "Invalid Position to reset Child");;
  this ← get;
  current ← lift (vec_at (children_ this) (Z.to_nat position));
  if Physical.isInitialized (p_node_info_ current) then
    let node := Node.setPhysicalNodeInfo Physical.default current in
    modify (fun s => set_children (<[Z.to_nat position := node]> (children_ s)) s);;
    notifyNeighborChange node kChild current position
  else mret tt.

(** ** Routing-table neighbours and their children *)

(** The entry [std::lower_bound] finds, if it has the position of [node]. *)
Definition find_entry (table : list NodeInfo) (node : NodeInfo) : option (nat * NodeInfo) :=
  let i := lower_bound Node.ltb table node in
  match table !! i with
  | Some entry =>
      if Logical.eqb (l_node_info_ entry) (l_node_info_ node) then Some (i, entry) else None
  | None => None
  end.

Definition resetRoutingTableNeighbor (routing_table_neighbor : NodeInfo) : RI bool :=
  require_valid_self "RoutingInformation not initialized";;
  throw_if (negb (Node.isValidPeer routing_table_neighbor))
    (invalid_argument "LogicalNodeInfo to reset is not initialized");;
  this ← get;
  match find_entry (routing_table_neighbors_ this) routing_table_neighbor with
  | Some (i, entry) =>
      if Physical.isInitialized (p_node_info_ entry) then
        let node := Node.setPhysicalNodeInfo Physical.default entry in
        modify (fun s => set_neighbors (<[i := node]> (routing_table_neighbors_ s)) s);;
        notifyNeighborChange node kRoutingTableNeighbor entry 0;;
        mret true
      else mret false
  | None => mret false
  end.

Definition resetRoutingTableNeighborChild (routing_table_neighbor_child : NodeInfo) : RI bool :=
  require_valid_self "RoutingInformation not initialized";;
  throw_if (negb (Node.isValidPeer routing_table_neighbor_child))
    (invalid_argument "LogicalNodeInfo to reset is not initialized");;
  this ← get;
  match find_entry (routing_table_neighbor_children_ this) routing_table_neighbor_child with
  | Some (i, entry) =>
      if Physical.isInitialized (p_node_info_ entry) then
        let node := Node.setPhysicalNodeInfo Physical.default entry in
        modify (fun s => set_neighbor_children (<[i := node]> (routing_table_neighbor_children_ s)) s);;
        notifyNeighborChange node kRoutingTableNeighborChild Node.default 0;;
        mret true
      else mret false
  | None => mret false
  end.

Definition resetChildOrRoutingTableNeighborChild (child : NodeInfo) : RI bool :=
  throw_if (negb (Node.isValidPeer child))
    (invalid_argument "Childs LogicalNodeInfo to reset is not initialized");;
  this ← get;
  let self := self_node_info_ this in
  throw_if (negb (Node.getLevel child =? u32 (Node.getLevel self + 1)))
    (invalid_argument "Childs to reset is not on one level lower");;
  if Node.getFanout self =? 0 then lift Undefined
  else if Node.getNumber child / Node.getFanout self =? Node.getNumber self then
    match find_index (fun c => Node.isInitialized c &&
                               Logical.eqb (l_node_info_ c) (l_node_info_ child)) (children_ this) with
    | Some i =>
        entry ← lift (vec_at (children_ this) i);
        fanout ← call getFanout;
        resetChild (Node.getNumber entry mod fanout);;
        mret true
    | None => mret false
    end
  else resetRoutingTableNeighborChild child.

Definition updateRoutingTableNeighbor (routing_table_neighbor : NodeInfo) : RI unit :=
  require_valid_self "RoutingInformation not initialized";;
  throw_if (negb (Node.isInitialized routing_table_neighbor))
    (invalid_argument "Neighbor Node to update is not initialized");;
  this ← get;
  match find_entry (routing_table_neighbors_ this) routing_table_neighbor with
  | Some (i, entry) =>
      if negb (Physical.eqb (p_node_info_ entry) (p_node_info_ routing_table_neighbor)) then
        let node := Node.setPhysicalNodeInfo (p_node_info_ routing_table_neighbor)
                      (Node.setLogicalNodeInfo (l_node_info_ routing_table_neighbor) entry) in
        modify (fun s => set_neighbors (<[i := node]> (routing_table_neighbors_ s)) s);;
        notifyNeighborChange node kRoutingTableNeighbor entry 0
      else mret tt
  | None => mret tt
  end.

Definition updateRoutingTableNeighborChild (routing_table_neighbor_child : NodeInfo) : RI unit :=
  require_valid_self "RoutingInformation not initialized";;
  throw_if (negb (Node.isInitialized routing_table_neighbor_child))
    (invalid_argument "Child to update is not initialized");;
  fanout ← call getFanout;
  throw_if (negb (Node.getFanout routing_table_neighbor_child =? fanout))
    (invalid_argument "Child has wrong Fanout set");;
  this ← get;
  match find_entry (routing_table_neighbor_children_ this) routing_table_neighbor_child with
  | Some (i, entry) =>
      if negb (Physical.eqb (p_node_info_ entry) (p_node_info_ routing_table_neighbor_child)) then
        let node := Node.setPhysicalNodeInfo (p_node_info_ routing_table_neighbor_child)
                      (Node.setLogicalNodeInfo (l_node_info_ routing_table_neighbor_child) entry) in
        modify (fun s => set_neighbor_children (<[i := node]> (routing_table_neighbor_children_ s)) s);;
        notifyNeighborChange routing_table_neighbor_child kRoutingTableNeighborChild Node.default 0
      else mret tt
  | None => mret tt
  end.

(** ** Updating and removing any neighbour *)

Definition removeNeighbor (position_to_remove : NodeInfo) : RI unit :=
  this ← get;
  let pos := l_node_info_ position_to_remove in
  throw_if (Logical.eqb (l_node_info_ (parent_ this)) pos)
    (logic_error "Parent cannot be removed from routing information. Only updated.");;
  (if Logical.eqb (l_node_info_ (adjacent_left_ this)) pos then resetAdjacentLeft
   else if Logical.eqb (l_node_info_ (adjacent_right_ this)) pos then resetAdjacentRight
   else mret tt);;
  self ← gets self_node_info_;
  if Node.getLevel position_to_remove =? Node.getLevel self then
    resetRoutingTableNeighbor position_to_remove;; mret tt
  else if Node.getLevel position_to_remove =? u32 (Node.getLevel self + 1) then
    resetChildOrRoutingTableNeighborChild position_to_remove;; mret tt
  else mret tt.

Definition updateNeighbor (position_to_update : NodeInfo) : RI unit :=
  throw_if (negb (Node.isInitialized position_to_update))
    (invalid_argument "Node to Update has to be initialized");;
  this ← get;
  let pos := l_node_info_ position_to_update in
  (if Logical.eqb (l_node_info_ (adjacent_left_ this)) pos then setAdjacentLeft position_to_update
   else if Logical.eqb (l_node_info_ (adjacent_right_ this)) pos then setAdjacentRight position_to_update
   else mret tt);;
  (if Logical.eqb (l_node_info_ (parent_ this)) pos then setParent position_to_update else mret tt);;
  let self := self_node_info_ this in
  if Node.getLevel position_to_update =? Node.getLevel self then
    updateRoutingTableNeighbor position_to_update
  else if Node.getLevel position_to_update =? u32 (Node.getLevel self + 1) then
    children_positions ← lift (calcChildren (Node.getLevel self) (Node.getNumber self) (Node.getFanout self));
    if existsb (fun child_pos => child_pos.2 =? Node.getNumber position_to_update) children_positions then
      fanout ← call getFanout;
      setChild position_to_update (Node.getNumber position_to_update mod fanout)
    else updateRoutingTableNeighborChild position_to_update
  else mret tt.

(** ** Views of the tables *)

(** The iterator range [begin, begin + i): undefined past the end. *)
Definition range_to {A} (v : list A) (i : Z) : outcome (list A) :=
  if i <=? Z.of_nat (length v) then Ok (take (Z.to_nat i) v) else Undefined.
Definition range_from {A} (v : list A) (i : Z) : outcome (list A) :=
  if i <=? Z.of_nat (length v) then Ok (drop (Z.to_nat i) v) else Undefined.

Definition children_start (s : RoutingInformation) : Z :=
  u32 (right_table_neighbor_start_index_ s * Node.getFanout (self_node_info_ s)).

Definition getLeftRoutingTableNeighborsLeftToRight (s : RoutingInformation) : outcome (list NodeInfo) :=
  range_to (routing_table_neighbors_ s) (right_table_neighbor_start_index_ s).
Definition getRightRoutingTableNeighborsLeftToRight (s : RoutingInformation) : outcome (list NodeInfo) :=
  range_from (routing_table_neighbors_ s) (right_table_neighbor_start_index_ s).
Definition getLeftRoutingTableNeighborChildrenLeftToRight (s : RoutingInformation) : outcome (list NodeInfo) :=
  range_to (routing_table_neighbor_children_ s) (children_start s).
Definition getRightRoutingTableNeighborChildrenLeftToRight (s : RoutingInformation) : outcome (list NodeInfo) :=
  range_from (routing_table_neighbor_children_ s) (children_start s).
Definition getLeftRoutingTableNeighborsRightToLeft (s : RoutingInformation) : outcome (list NodeInfo) :=
  v ← getLeftRoutingTableNeighborsLeftToRight s; mret (reverse v).
Definition getRightRoutingTableNeighborsRightToLeft (s : RoutingInformation) : outcome (list NodeInfo) :=
  v ← getRightRoutingTableNeighborsLeftToRight s; mret (reverse v).
Definition getLeftRoutingTableNeighborChildrenRightToLeft (s : RoutingInformation) : outcome (list NodeInfo) :=
  v ← getLeftRoutingTableNeighborChildrenLeftToRight s; mret (reverse v).
Definition getRightRoutingTableNeighborChildrenRightToLeft (s : RoutingInformation) : outcome (list NodeInfo) :=
  v ← getRightRoutingTableNeighborChildrenLeftToRight s; mret (reverse v).

(** [std::copy_if(..., isInitialized)] *)
Definition copy_initialized (v : list NodeInfo) : list NodeInfo := base.filter (Node.isInitialized) v.

Definition getInitializedChildren (s : RoutingInformation) : list NodeInfo :=
  copy_initialized (children_ s).
Definition areChildrenFull (s : RoutingInformation) : bool :=
  negb (existsb (fun child => negb (Node.isInitialized child)) (children_ s)).
Definition areRoutingTableNeighborsFull (s : RoutingInformation) : bool :=
  negb (existsb (fun node => negb (Node.isInitialized node)) (routing_table_neighbors_ s)).
Definition areRoutingTableNeighborChildrenEmpty (s : RoutingInformation) : bool :=
  negb (existsb Node.isInitialized (routing_table_neighbor_children_ s)).
Definition areRoutingTableNeighborChildrenFull (s : RoutingInformation) : bool :=
  negb (existsb (fun node => negb (Node.isInitialized node)) (routing_table_neighbor_children_ s)).
Definition atLeastOneChildExists (s : RoutingInformation) : bool :=
  existsb Node.isInitialized (children_ s).
Definition atLeastOneChildIsFree (s : RoutingInformation) : bool :=
  existsb (fun node => negb (Node.isInitialized node)) (children_ s).
Definition atLeastOneRoutingTableNeighborChildExists (s : RoutingInformation) : bool :=
  existsb Node.isInitialized (routing_table_neighbor_children_ s).
Definition atLeastOneRoutingTableNeighborChildIsFree (s : RoutingInformation) : bool :=
  existsb (fun node => negb (Node.isInitialized node)) (routing_table_neighbor_children_ s).

Definition getRoutingTableNeighborsAndChildren (s : RoutingInformation) : list NodeInfo :=
  routing_table_neighbors_ s ++ routing_table_neighbor_children_ s.
Definition getInitializedRoutingTableNeighborsAndChildren (s : RoutingInformation) : list NodeInfo :=
  copy_initialized (getRoutingTableNeighborsAndChildren s).

Definition getAllLeftRoutingTableNeighborsAndChildren (s : RoutingInformation) : outcome (list NodeInfo) :=
  throw_when (negb (Node.isValidPeer (self_node_info_ s))) (logic_error "RoutingInformation not initialized");;
  left_neighbors ← getLeftRoutingTableNeighborsLeftToRight s;
  left_neighbor_children ← getLeftRoutingTableNeighborChildrenLeftToRight s;
  mret (left_neighbors ++ left_neighbor_children).
Definition getAllRightRoutingTableNeighborsAndChildren (s : RoutingInformation) : outcome (list NodeInfo) :=
  throw_when (negb (Node.isValidPeer (self_node_info_ s))) (logic_error "RoutingInformation not initialized");;
  right_neighbors ← getRightRoutingTableNeighborsLeftToRight s;
  right_neighbor_children ← getRightRoutingTableNeighborChildrenLeftToRight s;
  mret (right_neighbors ++ right_neighbor_children).
Definition getAllInitializedLeftRoutingTableNeighborsAndChildren (s : RoutingInformation) : outcome (list NodeInfo) :=
  v ← getAllLeftRoutingTableNeighborsAndChildren s; mret (copy_initialized v).
Definition getAllInitializedRightRoutingTableNeighborsAndChildren (s : RoutingInformation) : outcome (list NodeInfo) :=
  v ← getAllRightRoutingTableNeighborsAndChildren s; mret (copy_initialized v).
Definition getAllInitializedRoutingTableNeighbors (s : RoutingInformation) : list NodeInfo :=
  copy_initialized (routing_table_neighbors_ s).
Definition getAllInitializedRoutingTableNeighborChildren (s : RoutingInformation) : list NodeInfo :=
  copy_initialized (routing_table_neighbor_children_ s).

(** [v.empty() ? NodeInfo{} : v.front()] *)
Definition front_or_default (v : list NodeInfo) : NodeInfo := from_option id Node.default (head v).
Definition back_or_default (v : list NodeInfo) : NodeInfo := from_option id Node.default (last v).

Definition getDirectLeftNeighbor (s : RoutingInformation) : outcome NodeInfo :=
  v ← getLeftRoutingTableNeighborsLeftToRight s; mret (back_or_default v).
Definition getDirectRightNeighbor (s : RoutingInformation) : outcome NodeInfo :=
  v ← getRightRoutingTableNeighborsLeftToRight s; mret (front_or_default v).
Definition getLeftmostNeighbor (s : RoutingInformation) : outcome NodeInfo :=
  v ← getLeftRoutingTableNeighborsLeftToRight s; mret (front_or_default v).
Definition getRightmostNeighbor (s : RoutingInformation) : outcome NodeInfo :=
  v ← getRightRoutingTableNeighborsLeftToRight s; mret (back_or_default v).
Definition getLeftmostNeighborChild (s : RoutingInformation) : outcome NodeInfo :=
  v ← getLeftRoutingTableNeighborChildrenLeftToRight s; mret (front_or_default v).

(** ** Vectors of nodes *)

Definition same_position (n1 n2 : NodeInfo) : bool := Logical.eqb (l_node_info_ n1) (l_node_info_ n2).

(** One iteration of [combiningNodeVectorsWithoutDuplicate]. *)
Definition combine_step (result : list NodeInfo) (node1 : NodeInfo) : list NodeInfo :=
  match find_index (same_position node1) result with
  | Some i =>
      match result !! i with
      | Some found =>
          if Node.isValidPeer found && negb (Physical.isInitialized (p_node_info_ found)) &&
             Physical.isInitialized (p_node_info_ node1)
          then <[i := Node.setPhysicalNodeInfo (p_node_info_ node1) found]> result
          else result
      | None => result
      end
  | None => result ++ [node1]
  end.

Definition combiningNodeVectorsWithoutDuplicate (v1 v2 : list NodeInfo) : list NodeInfo :=
  foldl combine_step v2 v1.

(** [int(z)] of a [uint32_t]. *)
Definition as_int (z : Z) : Z := if z <? 2 ^ 31 then z else z - 2 ^ 32.

Definition removeRoutingTableNeighborChildrenFromVector (node : NodeInfo) (neighbors : list NodeInfo)
    : outcome (list NodeInfo) :=
  routing_sequence ← calcRoutingSequence (Node.getLevel node) (Node.getFanout node);
  mret (base.filter (fun n => negb
    ((Node.getLevel n =? u32 (Node.getLevel node + 1)) &&
     bool_decide (u32 (Z.abs (as_int (u32 (Node.getNumber n / Node.getFanout node - Node.getNumber node))))
                  ∈ routing_sequence))) neighbors).

Definition calcRoutingTableNeighborParents (node : NodeInfo) : outcome (list NodeInfo) :=
  if Node.getLevel node =? 0 then mret []
  else
    parent_pos ← calcParent (Node.getLevel node) (Node.getNumber node) (Node.getFanout node);
    left ← calcLeftRT parent_pos.1 parent_pos.2 (Node.getFanout node);
    right ← calcRightRT parent_pos.1 parent_pos.2 (Node.getFanout node);
    mapM (fun pos => Node.of_position pos.1 pos.2 (Node.getFanout node)) (left ++ right).

(** Appends an adjacent node that is not among the neighbours yet. *)
Definition push_adjacent (adjacent : NodeInfo) (neighbors : list NodeInfo) : list NodeInfo :=
  if Node.isInitialized adjacent then
    if existsb (same_position adjacent) neighbors then neighbors else neighbors ++ [adjacent]
  else neighbors.

Definition getAllUniqueSymmetricalExistingNeighbors (s : RoutingInformation) : list NodeInfo :=
  let neighbors := if negb (Node.getLevel (self_node_info_ s) =? 0) then [parent_ s] else [] in
  let neighbors := neighbors ++ getInitializedChildren s in
  let neighbors := neighbors ++ getAllInitializedRoutingTableNeighbors s in
  push_adjacent (adjacent_right_ s) (push_adjacent (adjacent_left_ s) neighbors).

Definition getAllUniqueKnownExistingNeighbors (s : RoutingInformation) : list NodeInfo :=
  getAllUniqueSymmetricalExistingNeighbors s ++ getAllInitializedRoutingTableNeighborChildren s.

Definition at_position (level number : Z) (n : NodeInfo) : bool :=
  (Node.getLevel n =? level) && (Node.getNumber n =? number).

Definition getNodeInfoByPosition (level number : Z) (s : RoutingInformation) : outcome NodeInfo :=
  throw_when (negb (Node.isValidPeer (self_node_info_ s))) (logic_error "RoutingInformation not initialized");;
  fanout ← getFanout s;
  throw_when (negb (isPositionValid level number fanout)) (invalid_argument "Invalid Node Position");;
  mret (from_option id Node.default
         (List.find (at_position level number) (getAllUniqueKnownExistingNeighbors s))).

(** ** The lowest known node *)

(** [if (adjacent.isInitialized()) { if (!lowest.isInitialized() || ...) lowest = adjacent; }] *)
Definition lower_of (adjacent lowest : NodeInfo) : NodeInfo :=
  if Node.isInitialized adjacent &&
     (negb (Node.isInitialized lowest) ||
      Logical.isDeeperThanOrSameLevel (l_node_info_ adjacent) (l_node_info_ lowest))
  then adjacent else lowest.

(** The searches of [getLowestNode], each giving way to the next. *)
Fixpoint first_initialized (vs : list (outcome (list NodeInfo))) : outcome NodeInfo :=
  match vs with
  | [] => mret Node.default
  | v :: vs' =>
      nodes ← v;
      match List.find Node.isInitialized nodes with
      | Some n => mret n
      | None => first_initialized vs'
      end
  end.

Definition getLowestNode (s : RoutingInformation) : outcome NodeInfo :=
  let lowest := lower_of (adjacent_right_ s) (lower_of (adjacent_left_ s) Node.default) in
  if Node.isInitialized lowest &&
     Logical.isDeeperThan (l_node_info_ lowest) (l_node_info_ (self_node_info_ s))
  then mret lowest
  else first_initialized
    [ getLeftRoutingTableNeighborChildrenRightToLeft s;
      getRightRoutingTableNeighborChildrenLeftToRight s;
      Ok (children_ s);
      getLeftRoutingTableNeighborsRightToLeft s;
      getRightRoutingTableNeighborsLeftToRight s ].

(** ** Data-storing nodes *)

Definition areWeDSN (s : RoutingInformation) : outcome bool :=
  let self := self_node_info_ s in
  dsn_set ← getDSNSet (Node.getLevel self) (Node.getFanout self);
  mret (bool_decide (Node.getNumber self ∈ dsn_set)).

(** The loop over the children in [areWeTempDSN]. *)
Fixpoint temp_dsn_loop (s : RoutingInformation) (dsn_set_level_below : list Z) (children : list NodeInfo)
    : outcome bool :=
  match children with
  | [] => mret false
  | child :: children' =>
      if bool_decide (Node.getNumber child ∈ dsn_set_level_below) && negb (Node.isInitialized child) then
        lowest_node ← getLowestNode s;
        if Node.getLevel (self_node_info_ s) <? Node.getLevel lowest_node then mret true
        else temp_dsn_loop s dsn_set_level_below children'
      else temp_dsn_loop s dsn_set_level_below children'
  end.

Definition areWeTempDSN (s : RoutingInformation) : outcome bool :=
  dsn ← areWeDSN s;
  if (dsn : bool) then mret false
  else
    let self := self_node_info_ s in
    dsn_set_level_below ← getDSNSet (u32 (Node.getLevel self + 1)) (Node.getFanout self);
    if bool_decide (dsn_set_level_below = []) then mret false
    else temp_dsn_loop s dsn_set_level_below (children_ s).

Definition getCoveringDSNOrTempDSN (s : RoutingInformation) : outcome NodeInfo :=
  let self := self_node_info_ s in
  let fanout := Node.getFanout self in
  covering ← getCoveringDSN (Node.getLevel self) (Node.getNumber self) fanout;
  let '(covering_level, covering_number) := covering in
  covering_dsn ← getNodeInfoByPosition covering_level covering_number s;
  if Node.isInitialized covering_dsn then mret covering_dsn
  else if negb (Node.getLevel self =? covering_level) then
    Node.of_position covering_level covering_number fanout
  else
    dsn_set ← getDSNSet covering_level fanout;
    first ← vec_at dsn_set 0;
    if first =? covering_number then
      parent ← calcParent covering_level covering_number fanout;
      Node.of_position parent.1 parent.2 fanout
    else
      before ← vec_at dsn_set (lower_bound Z.ltb dsn_set (u32 (covering_number - 1)));
      Node.of_position covering_level before fanout.

Definition getNextDSN (s : RoutingInformation) : outcome NodeInfo :=
  let self := self_node_info_ s in
  dsn_set ← getDSNSet (Node.getLevel self) (Node.getFanout self);
  let it := lower_bound Z.ltb dsn_set (Node.getNumber self) in
  throw_when (Nat.eqb it (length dsn_set))
    (invalid_argument "We are not a DSN. This method should not be called");;
  here ← vec_at dsn_set it;
  last_dsn ← back dsn_set;
  if here =? last_dsn then mret Node.default
  else
    next_dsn_number ← vec_at dsn_set (it + 1);
    getNodeInfoByPosition (Node.getLevel self) next_dsn_number s.

Definition nextDSNExists (s : RoutingInformation) : outcome bool :=
  next ← getNextDSN s; mret (Node.isInitialized next).

End Operations.
