(* ===== verification/RoutingInvariants.v ===== *)
(** * The shape of the routing tables

    What the operations of [RoutingInformation] keep true. [fresh_tables] is the reference
    definition of the tables of a position; the loops of [initParentAndChildren] and
    [initRoutingTableNeighbors] compute it ([initTables_Ok]), and no other operation moves an
    entry ([skeleton_run_op]), whatever it returns. Together these give the invariant of
    every reachable object, [routing_tables_invariant]. *)

From S2P Require Import Prelude RoutingCalculations TreeMapper NodeInfo RoutingInformation.

(** ** Loops that append *)

Section Append.
Context {S A B : Type} (sel : S -> list B) (put : list B -> S -> S).
Context (sel_put : forall v s, sel (put v s) = v) (put_sel : forall s, put (sel s) s = s).
Context (put_put : forall v w s, put v (put w s) = put v s).

Lemma for_each_append (g : A -> outcome B) (l : list A) s s' :
  for_each l (fun x => y ← lift (g x); modify (fun s => put (sel s ++ [y]) s)) s = (Ok tt, s') <->
  exists ys, mapM g l = Ok ys /\ s' = put (sel s ++ ys) s.
Proof.
  revert s; induction l as [|x l IH]; intros s; mred; simpl; mred.
  - split.
    + intros [= <-]. exists []. by rewrite app_nil_r, put_sel.
    + intros (ys & [= <-] & ->). by rewrite app_nil_r, put_sel.
  - destruct (g x) as [y| |]; mred; [|naive_solver..].
    unfold for_each in IH. mred_in IH. rewrite IH. rewrite sel_put. split.
    + intros (ys & -> & ->). exists (y :: ys). split; [done|].
      by rewrite put_put, <- app_assoc.
    + destruct (mapM g l) as [ys| |]; [|naive_solver..]. intros (zs & [= <-] & ->).
      exists ys. split; [done|]. by rewrite put_put, <- app_assoc.
Qed.
End Append.

Lemma for_each_ext {S A} (I : S -> Prop) (l : list A) (f g : A -> M S unit) s :
  (forall x s, I s -> f x s = g x s) -> (forall x s, I s -> I (g x s).2) -> I s ->
  for_each l f s = for_each l g s.
Proof.
  intros Hfg HI. revert s; induction l as [|x l IH]; intros s Hs; simpl; mred; [done|].
  rewrite Hfg by done. specialize (HI x s Hs). destruct (g x s) as [[[]| |] s']; [|done..].
  by apply IH.
Qed.

Lemma mapM_ext_in {A B} (g h : A -> outcome B) (l : list A) :
  (forall x, x ∈ l -> g x = h x) -> mapM g l = mapM h l.
Proof.
  induction l as [|x l IH]; intros Hgh; [done|]. simpl.
  by rewrite (Hgh x), IH by set_solver.
Qed.

Lemma mapM_vec_at {A B} (g : A -> outcome B) (v : list A) :
  mapM (fun i => x ← vec_at v (Z.to_nat i); g x) (zrange 0 (Z.of_nat (length v))) = mapM g v.
Proof.
  induction v as [|x v IH] using rev_ind; [done|].
  rewrite length_app. simpl. rewrite Nat2Z.inj_add. change (Z.of_nat 1) with 1.
  rewrite zrange_snoc by lia. rewrite !mapM_app_outcome, <- IH.
  rewrite (mapM_ext_in _ (fun i => x ← vec_at v (Z.to_nat i); g x) (zrange 0 _)).
  - simpl. rewrite Nat2Z.id.
    assert (Hx : vec_at (v ++ [x]) (length v) = Ok x)
      by (unfold vec_at; by rewrite lookup_app_r, Nat.sub_diag by lia).
    by rewrite Hx.
  - intros i Hi%elem_of_zrange. unfold vec_at. by rewrite lookup_app_l by lia.
Qed.

Lemma mapM_Ok_length {A B} (g : A -> outcome B) l k : mapM g l = Ok k -> length k = length l.
Proof.
  revert k; induction l as [|x l IH]; intros k; simpl; mred.
  - by intros [= <-].
  - destruct (g x); [|done..]. destruct (mapM g l) as [k'| |]; [|done..].
    intros [= <-]. simpl. f_equal. by apply IH.
Qed.

Lemma mapM_Ok_inv {A B} (g : A -> outcome B) l k :
  mapM g l = Ok k <-> Forall2 (fun x y => g x = Ok y) l k.
Proof.
  revert k; induction l as [|x l IH]; intros k; simpl.
  - split; [by intros [= <-]|by intros ->%Forall2_nil_inv_l].
  - rewrite outcome_bind_Ok. setoid_rewrite outcome_bind_Ok. split.
    + intros (y & Hy & ys & Hys%IH & [= <-]). by constructor.
    + intros (y & ys & Hy & Hys%IH & ->)%Forall2_cons_inv_l. eauto.
Qed.

(** ** The tables of a position *)

Record Tables := {
  t_parent : NodeInfo;
  t_children : list NodeInfo;
  t_neighbors : list NodeInfo;
  t_neighbor_children : list NodeInfo;
  t_start : Z;
}.

Definition install (t : Tables) (s : RoutingInformation) : RoutingInformation :=
  {| self_node_info_ := self_node_info_ s; parent_ := t_parent t;
     adjacent_left_ := Node.default; adjacent_right_ := Node.default;
     children_ := t_children t; routing_table_neighbors_ := t_neighbors t;
     routing_table_neighbor_children_ := t_neighbor_children t;
     right_table_neighbor_start_index_ := t_start t; notified_ := notified_ s |}.

Section Fresh.
Context `{Platform} `{Inet}.

Definition node_at (f : Z) (p : Pos) : outcome NodeInfo := Node.of_position p.1 p.2 f.

Definition child_nodes (f : Z) (p : Pos) : outcome (list NodeInfo) :=
  cs ← calcChildren p.1 p.2 f; mapM (node_at f) cs.

Definition parent_node (l n f : Z) : outcome NodeInfo :=
  if 0 <? l then p ← calcParent l n f; node_at f p else mret Node.default.

Definition fresh_tables (l n f : Z) : outcome Tables :=
  parent ← parent_node l n f;
  children ← child_nodes f (l, n);
  left ← calcLeftRT l n f;
  right ← calcRightRT l n f;
  neighbors ← mapM (node_at f) (left ++ right);
  neighbor_children ← mapM (child_nodes f) (left ++ right);
  mret {| t_parent := parent; t_children := children;
          t_neighbors := std_sort Node.ltb neighbors;
          t_neighbor_children := std_sort Node.ltb (concat neighbor_children);
          t_start := Z.of_nat (length left) |}.

Lemma calcChildren_length l n f cs : calcChildren l n f = Ok cs -> Z.of_nat (length cs) = Z.max 0 f.
Proof.
  unfold calcChildren. repeat case_match; try done. intros Hm%mapM_Ok_length.
  rewrite Hm, length_zrange. lia.
Qed.

Definition valid_self (f : Z) (s : RoutingInformation) : Prop :=
  Node.isValidPeer (self_node_info_ s) = true /\ Node.getFanout (self_node_info_ s) = f.

Lemma getFanout_valid f s : valid_self f s -> getFanout s = Ok f.
Proof. intros [Hv <-]. unfold getFanout. by rewrite Hv. Qed.

Lemma bind_call {A B} (g : RoutingInformation -> outcome A) (k : A -> RI B) s :
  (call g ≫= k) s = match g s with
                    | Ok a => k a s | Throw e => (Throw e, s) | Undefined => (Undefined, s)
                    end.
Proof. done. Qed.

Lemma init_parent_Ok s s' l n f :
  valid_self f s ->
  ((if 0 <? l then
     fanout ← call getFanout;
     parent ← lift (calcParent l n fanout);
     node ← lift (Node.of_position parent.1 parent.2 fanout);
     modify (set_parent_ node)
   else mret tt) : RI unit) (set_parent_ Node.default s) = (Ok tt, s') <->
  exists p, parent_node l n f = Ok p /\ s' = set_parent_ p s.
Proof.
  intros Hv. unfold parent_node, node_at, call. destruct (0 <? l); mred; [|naive_solver].
  rewrite (getFanout_valid f) by (by destruct s).
  destruct (calcParent l n f) as [p| |]; [|naive_solver..].
  destruct (Node.of_position p.1 p.2 f) as [q| |]; [|naive_solver..].
  replace (set_parent_ q (set_parent_ Node.default s)) with (set_parent_ q s) by by destruct s.
  naive_solver.
Qed.

Lemma calcChildren_fanout l n f cs : calcChildren l n f = Ok cs -> Z.of_nat (length cs) = f.
Proof.
  intros Hcs. rewrite (calcChildren_length _ _ _ _ Hcs). unfold calcChildren in Hcs.
  destruct (isPositionValid l n f) eqn:E; [|done].
  apply isPositionValid_spec in E as [[? ?] _]. unfold kFanoutMinimum in *. lia.
Qed.

Lemma init_children_Ok s s' l n f cs :
  calcChildren l n f = Ok cs ->
  for_each (zrange 0 f) (fun i =>
    pos ← lift (vec_at cs (Z.to_nat i));
    node ← lift (Node.of_position pos.1 pos.2 f);
    modify (fun s => set_children (children_ s ++ [node]) s)) (set_children [] s) = (Ok tt, s') <->
  exists ns, mapM (node_at f) cs = Ok ns /\ s' = set_children ns s.
Proof.
  intros Hcs. rewrite <- (mapM_vec_at (node_at f) cs), (calcChildren_fanout _ _ _ _ Hcs).
  rewrite (for_each_ext (fun _ => True) _ _ (fun i =>
    y ← lift (x ← vec_at cs (Z.to_nat i); node_at f x);
    modify (fun s => set_children (children_ s ++ [y]) s)));
    [|intros i [] _; mred; by destruct (vec_at _ _)|done..].
  rewrite (for_each_append children_ set_children);
    [|by intros ? []|by intros []|by intros ? ? []].
  destruct s. naive_solver.
Qed.

Lemma initParentAndChildren_Ok s s' l n f :
  valid_self f s -> Node.getLevel (self_node_info_ s) = l -> Node.getNumber (self_node_info_ s) = n ->
  initParentAndChildren s = (Ok tt, s') <->
  exists p cs, parent_node l n f = Ok p /\ child_nodes f (l, n) = Ok cs /\
    s' = set_children cs (set_parent_ p s).
Proof.
  intros Hv Hl Hn. pose proof Hv as [_ Hf]. unfold initParentAndChildren.
  rewrite bind_modify, bind_gets.
  replace (self_node_info_ (set_parent_ Node.default s)) with (self_node_info_ s) by by destruct s.
  rewrite Hl, Hn, Hf, bind_Ok. unfold child_nodes. simpl.
  destruct (calcChildren l n f) as [cs| |] eqn:Hcs.
  - split.
    + intros ([] & s1 & (p & Hp & ->)%(init_parent_Ok _ _ _ _ f Hv) & Hk).
      rewrite bind_lift, bind_throw_if, (calcChildren_fanout _ _ _ _ Hcs), Z.eqb_refl, bind_modify in Hk.
      apply (init_children_Ok _ _ _ _ _ _ Hcs) in Hk as (ns & Hns & ->). eauto.
    + intros (p & ns & Hp & Hns & ->). exists tt, (set_parent_ p s). split.
      { apply (init_parent_Ok _ _ _ _ f Hv). eauto. }
      rewrite bind_lift, bind_throw_if, (calcChildren_fanout _ _ _ _ Hcs), Z.eqb_refl, bind_modify.
      apply (init_children_Ok _ _ _ _ _ _ Hcs). eauto.
  - split; [intros ([] & s1 & _ & Hk); done|naive_solver].
  - split; [intros ([] & s1 & _ & Hk); done|naive_solver].
Qed.

(** The loop of [initRoutingTableNeighbors]. *)
Lemma init_neighbor_children_Ok s s' f p :
  valid_self f s ->
  initRoutingTableNeighborChildren p.1 p.2 s = (Ok tt, s') <->
  exists cs, child_nodes f p = Ok cs /\
    s' = set_neighbor_children (routing_table_neighbor_children_ s ++ cs) s.
Proof.
  intros Hv. unfold initRoutingTableNeighborChildren, child_nodes, call. mred.
  rewrite (getFanout_valid f) by done.
  destruct (calcChildren p.1 p.2 f) as [cs| |]; [|naive_solver..].
  rewrite (for_each_ext (valid_self f) _ _ (fun pos =>
    child ← lift (node_at f pos);
    modify (fun s => set_neighbor_children (routing_table_neighbor_children_ s ++ [child]) s))).
  - apply (for_each_append routing_table_neighbor_children_ set_neighbor_children);
      [by intros ? []|by intros []|by intros ? ? []].
  - intros q t Ht. by rewrite (getFanout_valid f) by done.
  - intros q t Ht. mred. destruct (node_at f q); [by destruct t|done..].
  - done.
Qed.

Definition neighbor_loop (ps : list Pos) : RI unit :=
  for_each ps (fun pos =>
    fanout ← call getFanout;
    neighbor ← lift (Node.of_position pos.1 pos.2 fanout);
    modify (fun s => set_neighbors (routing_table_neighbors_ s ++ [neighbor]) s);;
    initRoutingTableNeighborChildren pos.1 pos.2).

Definition append_tables (ns cs : list NodeInfo) (s : RoutingInformation) : RoutingInformation :=
  set_neighbor_children (routing_table_neighbor_children_ s ++ cs)
    (set_neighbors (routing_table_neighbors_ s ++ ns) s).

Lemma append_tables_app ns ns' cs cs' s :
  append_tables ns' cs' (append_tables ns cs s) = append_tables (ns ++ ns') (cs ++ cs') s.
Proof. destruct s. unfold append_tables. simpl. by rewrite !app_assoc. Qed.

Lemma append_tables_nil s : append_tables [] [] s = s.
Proof. destruct s. unfold append_tables. simpl. by rewrite !app_nil_r. Qed.

Lemma neighbor_loop_Ok ps s s' f :
  valid_self f s ->
  neighbor_loop ps s = (Ok tt, s') <->
  exists ns css, mapM (node_at f) ps = Ok ns /\ mapM (child_nodes f) ps = Ok css /\
    s' = append_tables ns (concat css) s.
Proof.
  unfold neighbor_loop. revert s; induction ps as [|p ps IH]; intros s Hv.
  - simpl. rewrite ret_Ok. split.
    + intros [_ ->]. exists [], []. by rewrite append_tables_nil.
    + intros (? & ? & [= <-] & [= <-] & ->). by rewrite append_tables_nil.
  - simpl. rewrite bind_Ok.
    assert (Hbody : forall s1, (fanout ← call getFanout;
        neighbor ← lift (Node.of_position p.1 p.2 fanout);
        modify (fun s => set_neighbors (routing_table_neighbors_ s ++ [neighbor]) s);;
        initRoutingTableNeighborChildren p.1 p.2) s = (Ok tt, s1) <->
      exists n cs, node_at f p = Ok n /\ child_nodes f p = Ok cs /\ s1 = append_tables [n] cs s).
    { intros s1. unfold call, node_at. mred. rewrite (getFanout_valid f) by done.
      destruct (Node.of_position p.1 p.2 f) as [n| |]; [|naive_solver..].
      rewrite (init_neighbor_children_Ok _ _ f) by (by destruct s).
      destruct s. unfold append_tables. simpl. naive_solver. }
    split.
    + intros ([] & s1 & (n & cs & Hn & Hc & ->)%Hbody & Hk).
      apply IH in Hk as (ns & css & Hns & Hcss & ->); [|by destruct s].
      exists (n :: ns), (cs :: css). rewrite append_tables_app.
      by rewrite Hn, Hc, Hns, Hcss.
    + intros (? & ? & Hns & Hcss & ->).
      apply (mapM_Ok_inv (node_at f) (p :: ps)) in Hns
        as (n & ns & Hn & Hns%mapM_Ok_inv & ->)%Forall2_cons_inv_l.
      apply (mapM_Ok_inv (child_nodes f) (p :: ps)) in Hcss
        as (cs & css & Hcs & Hcss%mapM_Ok_inv & ->)%Forall2_cons_inv_l.
      exists tt, (append_tables [n] cs s). split; [apply Hbody; eauto|].
      apply IH; [by destruct s|]. exists ns, css. by rewrite append_tables_app.
Qed.

Lemma initRoutingTableNeighbors_Ok s s' l n f :
  valid_self f s -> Node.getLevel (self_node_info_ s) = l -> Node.getNumber (self_node_info_ s) = n ->
  initRoutingTableNeighbors s = (Ok tt, s') <->
  exists left right ns css, calcLeftRT l n f = Ok left /\ calcRightRT l n f = Ok right /\
    mapM (node_at f) (left ++ right) = Ok ns /\ mapM (child_nodes f) (left ++ right) = Ok css /\
    s' = set_start_index (Z.of_nat (length left))
          (set_neighbors (std_sort Node.ltb ns)
            (set_neighbor_children (std_sort Node.ltb (concat css)) s)).
Proof.
  intros Hv Hl Hn. unfold initRoutingTableNeighbors. rewrite bind_gets, Hl, Hn.
  rewrite bind_call, (getFanout_valid f), !bind_lift by done.
  destruct (calcLeftRT l n f) as [left| |]; [|naive_solver..]. rewrite bind_lift.
  destruct (calcRightRT l n f) as [right| |]; [|naive_solver..].
  rewrite !bind_modify. fold (neighbor_loop (left ++ right)). rewrite bind_Ok.
  setoid_rewrite bind_modify. setoid_rewrite modify_Ok. split.
  - intros ([] & s1 & Hloop & ->).
    apply (neighbor_loop_Ok _ _ _ f) in Hloop as (ns & css & Hns & Hcss & ->); [|by destruct s].
    exists left, right, ns, css. by destruct s.
  - intros (? & ? & ns & css & [= <-] & [= <-] & Hns & Hcss & ->). exists tt. eexists. split.
    + apply (neighbor_loop_Ok _ _ _ f); [by destruct s|]. eauto.
    + by destruct s.
Qed.

(** The two loops compute the tables of the position, or do not return. *)
Lemma initTables_Ok s s' l n f :
  valid_self f s -> Node.getLevel (self_node_info_ s) = l -> Node.getNumber (self_node_info_ s) = n ->
  initTables s = (Ok tt, s') <-> exists t, fresh_tables l n f = Ok t /\ s' = install t s.
Proof.
  intros Hv Hl Hn. unfold initTables, fresh_tables. rewrite bind_Ok.
  split.
  - intros ([] & ? & Hpc & ([] & s2 & Hs2 & Hend)%bind_Ok).
    rewrite bind_modify, modify_Ok in Hend. subst s'.
    apply (initParentAndChildren_Ok s _ l n f Hv Hl Hn) in Hpc as (p & cs & Hp & Hcs & ->).
    apply (initRoutingTableNeighbors_Ok _ _ l n f) in Hs2; [|by destruct s..].
    destruct Hs2 as (left & right & ns & css & HL & HR & Hns & Hcss & ->).
    eexists. split; [do 6 (apply outcome_bind_Ok; eexists; split; [eassumption|]); done|].
    by destruct s.
  - intros (t & Ht & ->).
    apply outcome_bind_Ok in Ht as (p & Hp & (cs & Hcs & (left & HL & (right & HR &
      (ns & Hns & (css & Hcss & [= <-])%outcome_bind_Ok)%outcome_bind_Ok)%outcome_bind_Ok
      )%outcome_bind_Ok)%outcome_bind_Ok).
    exists tt, (set_children cs (set_parent_ p s)).
    split; [apply (initParentAndChildren_Ok s _ l n f Hv Hl Hn); eauto|].
    apply bind_Ok. exists tt. eexists. split.
    + apply (initRoutingTableNeighbors_Ok _ _ l n f); [by destruct s..|].
      exists left, right, ns, css. done.
    + by destruct s.
Qed.
End Fresh.

(** ** What an operation may change

    [edit] is the contract of the neighbour operations: one link is replaced by a node at the
    same position that is known (or has just been forgotten), or an adjacent link is set to a
    known node on the proper side or cleared. Every operation is a sequence of edits
    ([run_op_edits]), even when it throws. *)

Section Edits.
Context `{Platform} `{Inet}.

(** A position, without the UUID. *)
Definition pos_key (n : NodeInfo) : Z * Z * Z * bool :=
  (Node.getLevel n, Node.getNumber n, Node.getFanout n, Node.isValidPeer n).

Definition replacement (old new : NodeInfo) : Prop :=
  pos_key new = pos_key old /\
  (Node.isInitialized new = true \/ new = Node.setPhysicalNodeInfo Physical.default old).

Definition left_ok (s : RoutingInformation) (n : NodeInfo) : Prop :=
  n = Node.default \/
  Node.isInitialized n = true /\ Node.getFanout n = Node.getFanout (self_node_info_ s) /\
  d_le (horizontal (self_node_info_ s)) (horizontal n) = false.

Definition right_ok (s : RoutingInformation) (n : NodeInfo) : Prop :=
  n = Node.default \/
  Node.isInitialized n = true /\ Node.getFanout n = Node.getFanout (self_node_info_ s) /\
  d_le (horizontal n) (horizontal (self_node_info_ s)) = false.

Definition with_note (note : Notification) (s : RoutingInformation) : RoutingInformation :=
  set_notified (notified_ s ++ [note]) s.

Inductive edit (s : RoutingInformation) : RoutingInformation -> Prop :=
| edit_parent new note :
    replacement (parent_ s) new -> edit s (with_note note (set_parent_ new s))
| edit_child i old new note :
    children_ s !! i = Some old -> replacement old new ->
    edit s (with_note note (set_children (<[i := new]> (children_ s)) s))
| edit_neighbor i old new note :
    routing_table_neighbors_ s !! i = Some old -> replacement old new ->
    edit s (with_note note (set_neighbors (<[i := new]> (routing_table_neighbors_ s)) s))
| edit_neighbor_child i old new note :
    routing_table_neighbor_children_ s !! i = Some old -> replacement old new ->
    edit s (with_note note
      (set_neighbor_children (<[i := new]> (routing_table_neighbor_children_ s)) s))
| edit_left new note : left_ok s new -> edit s (with_note note (set_left new s))
| edit_right new note : right_ok s new -> edit s (with_note note (set_right new s)).

Definition edits (m : RoutingInformation -> RoutingInformation) : Prop :=
  forall s, rtc edit s (m s).

Lemma eqb_pos_key n1 n2 : Logical.eqb (l_node_info_ n1) (l_node_info_ n2) = true ->
  pos_key n1 = pos_key n2.
Proof.
  rewrite Logical.eqb_spec. intros (? & ? & ? & ?).
  unfold pos_key, Node.getLevel, Node.getNumber, Node.getFanout, Node.isValidPeer, Logical.isInitialized.
  congruence.
Qed.

Lemma find_entry_Some table n i e :
  find_entry table n = Some (i, e) ->
  table !! i = Some e /\ Logical.eqb (l_node_info_ e) (l_node_info_ n) = true.
Proof.
  unfold find_entry. destruct (table !! lower_bound _ _ _) eqn:E; [|done].
  case_match; [|done]. intros [= <- <-]. done.
Qed.

Lemma replacement_known old new :
  Logical.eqb (l_node_info_ old) (l_node_info_ new) = true -> Node.isInitialized new = true ->
  replacement old new.
Proof. intros Hk Hi. split; [|by left]. symmetry. by apply eqb_pos_key. Qed.

Lemma replacement_forgotten old : replacement old (Node.setPhysicalNodeInfo Physical.default old).
Proof. split; [done|by right]. Qed.

(** The entry [updateRoutingTableNeighbor] writes: position and address of [new], status of the
    old entry. *)
Lemma replacement_updated old new :
  Logical.eqb (l_node_info_ old) (l_node_info_ new) = true -> Node.isInitialized new = true ->
  replacement old (Node.setPhysicalNodeInfo (p_node_info_ new)
                     (Node.setLogicalNodeInfo (l_node_info_ new) old)).
Proof.
  intros Hk Hi. split; [|by left]. rewrite <- (eqb_pos_key new old); [done|].
  apply Logical.eqb_spec. apply Logical.eqb_spec in Hk. naive_solver.
Qed.

Lemma vec_at_Ok {A} (v : list A) i x : vec_at v i = Ok x <-> v !! i = Some x.
Proof. unfold vec_at. destruct (v !! i); naive_solver. Qed.

Ltac negb_simpl := repeat match goal with
  | E : negb _ = false |- _ => apply negb_false_iff in E
  | E : negb _ = true |- _ => apply negb_true_iff in E
  | E : vec_at _ _ = Ok _ |- _ => apply vec_at_Ok in E
  | E : find_entry _ _ = Some (_, _) |- _ => apply find_entry_Some in E as [? ?]
  end.

Ltac op_cases :=
  mred; repeat (case_match; simplify_eq; try apply rtc_refl); negb_simpl; try apply rtc_refl;
  try apply rtc_once.

Lemma setParent_edits parent : edits (fun s => (setParent parent s).2).
Proof.
  intros s. unfold setParent, require_valid_self, call, notifyNeighborChange. op_cases.
  eapply edit_parent. by apply replacement_known.
Qed.

Lemma setChild_edits child position : edits (fun s => (setChild child position s).2).
Proof.
  intros s. unfold setChild, require_valid_self, call, notifyNeighborChange. op_cases.
  eapply edit_child; [done|]. by apply replacement_known.
Qed.

Lemma resetChild_edits position : edits (fun s => (resetChild position s).2).
Proof.
  intros s. unfold resetChild, require_valid_self, call, notifyNeighborChange. op_cases.
  eapply edit_child; [done|]. apply replacement_forgotten.
Qed.

Lemma getFanout_Ok s f : getFanout s = Ok f -> f = Node.getFanout (self_node_info_ s).
Proof. unfold getFanout. mred. destruct (Node.isValidPeer _); naive_solver. Qed.

Lemma setAdjacentLeft_edits n : edits (fun s => (setAdjacentLeft n s).2).
Proof.
  intros s. unfold setAdjacentLeft, require_valid_self, call, notifyNeighborChange. op_cases.
  eapply edit_left. right. repeat split; try done.
  match goal with E : getFanout _ = Ok _ |- _ => apply getFanout_Ok in E end. lia.
Qed.

Lemma setAdjacentRight_edits n : edits (fun s => (setAdjacentRight n s).2).
Proof.
  intros s. unfold setAdjacentRight, require_valid_self, call, notifyNeighborChange. op_cases.
  eapply edit_right. right. repeat split; try done.
  match goal with E : getFanout _ = Ok _ |- _ => apply getFanout_Ok in E end. lia.
Qed.

Lemma resetAdjacentLeft_edits : edits (fun s => (resetAdjacentLeft s).2).
Proof.
  intros s. unfold resetAdjacentLeft, require_valid_self, notifyNeighborChange. op_cases.
  eapply edit_left. by left.
Qed.

Lemma resetAdjacentRight_edits : edits (fun s => (resetAdjacentRight s).2).
Proof.
  intros s. unfold resetAdjacentRight, require_valid_self, notifyNeighborChange. op_cases.
  eapply edit_right. by left.
Qed.

Lemma resetRoutingTableNeighbor_edits n : edits (fun s => (resetRoutingTableNeighbor n s).2).
Proof.
  intros s. unfold resetRoutingTableNeighbor, require_valid_self, notifyNeighborChange. op_cases.
  eapply edit_neighbor; [done|]. apply replacement_forgotten.
Qed.

Lemma resetRoutingTableNeighborChild_edits n :
  edits (fun s => (resetRoutingTableNeighborChild n s).2).
Proof.
  intros s. unfold resetRoutingTableNeighborChild, require_valid_self, notifyNeighborChange. op_cases.
  eapply edit_neighbor_child; [done|]. apply replacement_forgotten.
Qed.

Lemma updateRoutingTableNeighbor_edits n : edits (fun s => (updateRoutingTableNeighbor n s).2).
Proof.
  intros s. unfold updateRoutingTableNeighbor, require_valid_self, notifyNeighborChange. op_cases.
  eapply edit_neighbor; [done|]. by apply replacement_updated.
Qed.

Lemma updateRoutingTableNeighborChild_edits n :
  edits (fun s => (updateRoutingTableNeighborChild n s).2).
Proof.
  intros s. unfold updateRoutingTableNeighborChild, require_valid_self, call, notifyNeighborChange.
  op_cases. eapply edit_neighbor_child; [done|]. by apply replacement_updated.
Qed.

(** Composite operations. *)
Lemma bind_edits {A B} (m : RI A) (k : A -> RI B) s :
  rtc edit s (m s).2 -> (forall a s', m s = (Ok a, s') -> rtc edit s' (k a s').2) ->
  rtc edit s ((m ≫= k) s).2.
Proof.
  intros Hm Hk. mred. destruct (m s) as [[a| |] s'] eqn:E; simpl in *; [|done..].
  etrans; [done|]. by apply Hk.
Qed.

Lemma resetChildOrRoutingTableNeighborChild_edits n :
  edits (fun s => (resetChildOrRoutingTableNeighborChild n s).2).
Proof.
  intros s. unfold resetChildOrRoutingTableNeighborChild. rewrite bind_throw_if.
  case_match; [done|]. rewrite bind_get, bind_throw_if. repeat (case_match; [done|]).
  case_match; [|apply resetRoutingTableNeighborChild_edits].
  case_match; [|done]. rewrite bind_lift. case_match; [|done..]. rewrite bind_call.
  case_match; [|done..]. apply bind_edits; [apply resetChild_edits|done].
Qed.

Lemma removeNeighbor_edits n : edits (fun s => (removeNeighbor n s).2).
Proof.
  intros s. unfold removeNeighbor. rewrite bind_get, bind_throw_if. case_match; [done|].
  apply bind_edits.
  - repeat case_match; [apply resetAdjacentLeft_edits|apply resetAdjacentRight_edits|done].
  - intros [] s' _. rewrite bind_gets. repeat case_match; [| |done].
    + apply bind_edits; [apply resetRoutingTableNeighbor_edits|done].
    + apply bind_edits; [apply resetChildOrRoutingTableNeighborChild_edits|done].
Qed.

Lemma updateNeighbor_edits n : edits (fun s => (updateNeighbor n s).2).
Proof.
  intros s. unfold updateNeighbor. rewrite bind_throw_if, bind_get. case_match; [done|].
  apply bind_edits.
  - repeat case_match; [apply setAdjacentLeft_edits|apply setAdjacentRight_edits|done].
  - intros [] s' _. apply bind_edits; [case_match; [apply setParent_edits|done]|].
    intros [] s'' _. case_match; [apply updateRoutingTableNeighbor_edits|].
    case_match; [|done]. rewrite bind_lift. case_match; [|done..].
    case_match; [|apply updateRoutingTableNeighborChild_edits].
    rewrite bind_call. case_match; [apply setChild_edits|done..].
Qed.
(** ** Reachable objects *)

Inductive neighbor_op :=
| op_setParent (n : NodeInfo)
| op_setChild (n : NodeInfo) (position : Z)
| op_setAdjacentLeft (n : NodeInfo)
| op_setAdjacentRight (n : NodeInfo)
| op_resetAdjacentLeft
| op_resetAdjacentRight
| op_resetChild (position : Z)
| op_updateRoutingTableNeighbor (n : NodeInfo)
| op_updateRoutingTableNeighborChild (n : NodeInfo)
| op_resetRoutingTableNeighbor (n : NodeInfo)
| op_resetRoutingTableNeighborChild (n : NodeInfo)
| op_resetChildOrRoutingTableNeighborChild (n : NodeInfo)
| op_updateNeighbor (n : NodeInfo)
| op_removeNeighbor (n : NodeInfo).

(** The object an operation leaves behind, whether or not it returns. *)
Definition run_op (op : neighbor_op) (s : RoutingInformation) : RoutingInformation :=
  match op with
  | op_setParent n => (setParent n s).2
  | op_setChild n i => (setChild n i s).2
  | op_setAdjacentLeft n => (setAdjacentLeft n s).2
  | op_setAdjacentRight n => (setAdjacentRight n s).2
  | op_resetAdjacentLeft => (resetAdjacentLeft s).2
  | op_resetAdjacentRight => (resetAdjacentRight s).2
  | op_resetChild i => (resetChild i s).2
  | op_updateRoutingTableNeighbor n => (updateRoutingTableNeighbor n s).2
  | op_updateRoutingTableNeighborChild n => (updateRoutingTableNeighborChild n s).2
  | op_resetRoutingTableNeighbor n => (resetRoutingTableNeighbor n s).2
  | op_resetRoutingTableNeighborChild n => (resetRoutingTableNeighborChild n s).2
  | op_resetChildOrRoutingTableNeighborChild n => (resetChildOrRoutingTableNeighborChild n s).2
  | op_updateNeighbor n => (updateNeighbor n s).2
  | op_removeNeighbor n => (removeNeighbor n s).2
  end.

Lemma run_op_edits op : edits (run_op op).
Proof.
  destruct op; simpl; [apply setParent_edits|apply setChild_edits|apply setAdjacentLeft_edits|
    apply setAdjacentRight_edits|apply resetAdjacentLeft_edits|apply resetAdjacentRight_edits|
    apply resetChild_edits|apply updateRoutingTableNeighbor_edits|
    apply updateRoutingTableNeighborChild_edits|apply resetRoutingTableNeighbor_edits|
    apply resetRoutingTableNeighborChild_edits|apply resetChildOrRoutingTableNeighborChild_edits|
    apply updateNeighbor_edits|apply removeNeighbor_edits].
Qed.

Inductive initial : RoutingInformation -> Prop :=
| initial_default : initial default_RI
| initial_construct n s : construct_RI n = Ok s -> initial s.

(** [setPosition] is only followed when it returns: its exceptions leave half-built tables. *)
Inductive step (s : RoutingInformation) : RoutingInformation -> Prop :=
| step_op op : step s (run_op op s)
| step_setNodeStatus status : step s (setNodeStatus status s).2
| step_setPosition p s' : setPosition p s = (Ok tt, s') -> step s s'
| step_resetPosition : step s (resetPosition s).2.

Definition reachable (s : RoutingInformation) : Prop := exists s0, initial s0 /\ rtc step s0 s.

(** ** The invariant *)

Definition key : Type := Z * Z * Z * bool.
Definition at_fanout (f : Z) (p : Pos) : key := (p.1, p.2, f, true).

(** The horizontal order sees only the position. *)
Definition key_value (k : key) : double := treeMapper k.1.1.1 k.1.1.2 k.1.2 kTreeMapperRootValue.
Definition key_ltb (k1 k2 : key) : bool := d_lt (key_value k1) (key_value k2).

Lemma sort_insert_keys n ns :
  pos_key <$> sort_insert Node.ltb n ns = sort_insert key_ltb (pos_key n) (pos_key <$> ns).
Proof.
  induction ns as [|m ns IH]; [done|]. cbn [sort_insert fmap list_fmap].
  change (Node.ltb n m) with (key_ltb (pos_key n) (pos_key m)).
  case_match; [done|]. cbn [fmap list_fmap]. by rewrite <- IH.
Qed.

Lemma std_sort_keys ns : pos_key <$> std_sort Node.ltb ns = std_sort key_ltb (pos_key <$> ns).
Proof.
  induction ns as [|n ns IH]; [done|]. unfold std_sort in *. cbn [foldr fmap list_fmap].
  by rewrite sort_insert_keys, IH.
Qed.

(** The positions in the tables are those computed for the own position [l:n], sorted from left
    to right. *)
Definition tables_match (s : RoutingInformation) : Prop :=
  exists l n f cs left right css,
    pos_key (self_node_info_ s) = (l, n, f, true) /\
    (if 0 <? l then exists p, calcParent l n f = Ok p /\ pos_key (parent_ s) = at_fanout f p
     else pos_key (parent_ s) = pos_key Node.default) /\
    calcChildren l n f = Ok cs /\ pos_key <$> children_ s = at_fanout f <$> cs /\
    calcLeftRT l n f = Ok left /\ calcRightRT l n f = Ok right /\
    right_table_neighbor_start_index_ s = Z.of_nat (length left) /\
    pos_key <$> routing_table_neighbors_ s = std_sort key_ltb (at_fanout f <$> (left ++ right)) /\
    mapM (fun p => calcChildren p.1 p.2 f) (left ++ right) = Ok css /\
    pos_key <$> routing_table_neighbor_children_ s = std_sort key_ltb (at_fanout f <$> concat css).

Definition cleared (s : RoutingInformation) : Prop :=
  pos_key (parent_ s) = pos_key Node.default /\ children_ s = [] /\
  routing_table_neighbors_ s = [] /\ routing_table_neighbor_children_ s = [].

(** An entry is a node that can be talked to, or just a position. *)
Definition entry_ok (n : NodeInfo) : Prop :=
  Node.isInitialized n = true \/ p_node_info_ n = Physical.default.

Definition entries (s : RoutingInformation) : list NodeInfo :=
  parent_ s :: children_ s ++ routing_table_neighbors_ s ++ routing_table_neighbor_children_ s.

Definition inv (s : RoutingInformation) : Prop :=
  (tables_match s \/ cleared s) /\ Forall entry_ok (entries s) /\
  left_ok s (adjacent_left_ s) /\ right_ok s (adjacent_right_ s).

Definition skeleton (s : RoutingInformation) :=
  (pos_key (self_node_info_ s), pos_key (parent_ s), pos_key <$> children_ s,
   pos_key <$> routing_table_neighbors_ s, pos_key <$> routing_table_neighbor_children_ s,
   right_table_neighbor_start_index_ s).

Lemma replacement_keys (l : list NodeInfo) i old new :
  l !! i = Some old -> replacement old new -> pos_key <$> <[i := new]> l = pos_key <$> l.
Proof.
  intros Hl [Hk _]. rewrite list_fmap_insert, Hk. apply list_insert_id.
  by rewrite list_lookup_fmap, Hl.
Qed.

Lemma replacement_entry old new : replacement old new -> entry_ok new.
Proof. intros [_ [?| ->]]; [by left|by right]. Qed.

Lemma edit_skeleton s s' : edit s s' -> skeleton s' = skeleton s.
Proof.
  destruct s. unfold skeleton, with_note. intros []; simpl in *; try done;
    try (by erewrite replacement_keys).
  destruct H1 as [Hk _]. by rewrite Hk.
Qed.
Lemma skeleton_shape s s' :
  skeleton s' = skeleton s -> tables_match s \/ cleared s -> tables_match s' \/ cleared s'.
Proof.
  unfold skeleton, tables_match, cleared. rewrite !pair_equal_spec.
  intros (((((Hself & Hpar) & Hc) & Hn) & Hk) & Hi) [Hm|Hcl].
  - left. destruct Hm as (l & n & f & cs & left & right & css & Hm).
    exists l, n, f, cs, left, right, css. by rewrite Hself, Hpar, Hc, Hn, Hk, Hi.
  - right. destruct Hcl as (Hp & Hc0 & Hn0 & Hk0). rewrite Hc0 in Hc. rewrite Hn0 in Hn.
    rewrite Hk0 in Hk. apply fmap_nil_inv in Hc, Hn, Hk. by rewrite Hpar.
Qed.

Lemma Forall_insert_ok {A} (P : A -> Prop) (l : list A) i x :
  Forall P l -> P x -> Forall P (<[i := x]> l).
Proof. intros. by apply Forall_insert. Qed.

Lemma edit_inv s s' : inv s -> edit s s' -> inv s'.
Proof.
  intros (Hshape & He & Hl & Hr) Hedit. pose proof (edit_skeleton _ _ Hedit) as Hsk.
  split; [by eapply skeleton_shape|]. clear Hshape Hsk. unfold entries in *.
  rewrite Forall_cons, !Forall_app in *. destruct He as (Hp & Hc & Hn & Hk). destruct s.
  destruct Hedit; simpl in *; repeat split; try done;
    first [by eapply replacement_entry | apply Forall_insert_ok; [done|by eapply replacement_entry]].
Qed.

Lemma edits_inv s s' : inv s -> rtc edit s s' -> inv s'.
Proof. intros Hi Hr. induction Hr; [done|]. eauto using edit_inv. Qed.

Lemma setNodeStatus_inv st s : inv s -> inv (setNodeStatus st s).2.
Proof.
  intros (Hshape & He & Hl & Hr). split; [eapply skeleton_shape; [|done]; by destruct s as [[]]|].
  by destruct s as [[]].
Qed.

(** *** Fresh tables *)

Lemma node_at_Ok f p n : node_at f p = Ok n ->
  pos_key n = at_fanout f p /\ p_node_info_ n = Physical.default.
Proof.
  unfold node_at, Node.of_position. intros (q & Hq & [= <-])%outcome_bind_Ok.
  by apply Logical.of_position_inv in Hq as [_ ->].
Qed.

Lemma mapM_node_at f ps ns : mapM (node_at f) ps = Ok ns ->
  pos_key <$> ns = at_fanout f <$> ps /\ Forall entry_ok ns.
Proof.
  intros Hm%mapM_Ok_inv. induction Hm as [|p n ps ns Hn _ [IHk IHe]]; [done|].
  apply node_at_Ok in Hn as [Hk Hp]. rewrite !fmap_cons, Hk, IHk. split; [done|].
  constructor; [by right|done].
Qed.

Lemma child_nodes_Ok f p ns : child_nodes f p = Ok ns ->
  exists cs, calcChildren p.1 p.2 f = Ok cs /\ pos_key <$> ns = at_fanout f <$> cs /\ Forall entry_ok ns.
Proof. intros (cs & Hcs & Hns%mapM_node_at)%outcome_bind_Ok. naive_solver. Qed.

Lemma mapM_child_nodes f ps nss : mapM (child_nodes f) ps = Ok nss ->
  exists css, mapM (fun p => calcChildren p.1 p.2 f) ps = Ok css /\
    pos_key <$> concat nss = at_fanout f <$> concat css /\ Forall entry_ok (concat nss).
Proof.
  intros Hm%mapM_Ok_inv. induction Hm as [|p ns ps nss Hn _ (css & Hcss & Hk & He)].
  - by exists [].
  - apply child_nodes_Ok in Hn as (cs & Hcs & Hk' & He'). exists (cs :: css). split.
    + apply mapM_Ok_inv. constructor; [done|by apply mapM_Ok_inv].
    + simpl. rewrite !fmap_app, Hk, Hk', Forall_app. done.
Qed.

Lemma fresh_install_match s l n f t :
  pos_key (self_node_info_ s) = (l, n, f, true) ->
  fresh_tables l n f = Ok t -> tables_match (install t s) /\ Forall entry_ok (entries (install t s)) /\
  left_ok (install t s) (adjacent_left_ (install t s)) /\ right_ok (install t s) (adjacent_right_ (install t s)).
Proof.
  intros Hself Ht.
  apply outcome_bind_Ok in Ht as (p & Hp & (cs & Hcs & (left & HL & (right & HR &
    (ns & Hns & (css & Hcss & [= <-])%outcome_bind_Ok)%outcome_bind_Ok)%outcome_bind_Ok
    )%outcome_bind_Ok)%outcome_bind_Ok).
  apply child_nodes_Ok in Hcs as (cps & Hcps & Hck & Hce).
  apply mapM_node_at in Hns as [Hnk Hne]. apply mapM_child_nodes in Hcss as (cpss & Hcpss & Hkk & Hke).
  assert (Hpar : entry_ok p /\ if 0 <? l
     then exists q, calcParent l n f = Ok q /\ pos_key p = at_fanout f q
     else pos_key p = pos_key Node.default).
  { unfold parent_node in Hp. destruct (0 <? l).
    - apply outcome_bind_Ok in Hp as (q & Hq & [Hk He]%node_at_Ok). split; [by right|]. eauto.
    - injection Hp as <-. split; [by right|done]. }
  destruct Hpar as [Hpe Hpk]. split; [|split].
  - exists l, n, f, cps, left, right, cpss. simpl. rewrite !std_sort_keys, Hck, Hnk, Hkk. done.
  - unfold entries. simpl. rewrite !std_sort_Permutation, Forall_cons, !Forall_app. done.
  - split; by left.
Qed.
Lemma self_key s : Node.isValidPeer (self_node_info_ s) = true ->
  pos_key (self_node_info_ s) =
    (Node.getLevel (self_node_info_ s), Node.getNumber (self_node_info_ s),
     Node.getFanout (self_node_info_ s), true).
Proof. intros Hv. unfold pos_key. by rewrite Hv. Qed.

Lemma initTables_inv s s' :
  Node.isValidPeer (self_node_info_ s) = true -> initTables s = (Ok tt, s') -> inv s'.
Proof.
  intros Hv Hinit. eapply initTables_Ok in Hinit as (t & Ht & ->); [|done..].
  destruct (fresh_install_match s _ _ _ t (self_key _ Hv) Ht) as [Hm Hrest]. split; [by left|done].
Qed.

Lemma cleared_inv s :
  parent_ s = Node.default -> children_ s = [] -> routing_table_neighbors_ s = [] ->
  routing_table_neighbor_children_ s = [] -> adjacent_left_ s = Node.default ->
  adjacent_right_ s = Node.default -> inv s.
Proof.
  intros Hp Hc Hn Hk Hl Hr. split; [right; unfold cleared; by rewrite Hp|].
  unfold entries. rewrite Hp, Hc, Hn, Hk, Hl, Hr. split; [|split; by left].
  constructor; [by right|constructor].
Qed.

Lemma notifyNodeInfoChange_inv a b s : inv s -> inv (notifyNodeInfoChange a b s).2.
Proof. unfold notifyNodeInfoChange. intros Hi. case_match; [done|]. by destruct s. Qed.

Lemma notifyNodeInfoChange_total a b s : exists s', notifyNodeInfoChange a b s = (Ok tt, s').
Proof. unfold notifyNodeInfoChange. case_match; eexists; done. Qed.

Lemma initial_inv s : initial s -> inv s.
Proof.
  destruct 1 as [|n s Hs]; [by apply cleared_inv|].
  unfold construct_RI, Logical.construct in Hs. destruct (Node.isValidPeer n) eqn:Hv.
  - destruct (initTables _) as [[[]| |] t] eqn:E; [|done..]. injection Hs as <-.
    eapply initTables_inv; [|done]. done.
  - injection Hs as <-. by apply cleared_inv.
Qed.

Lemma resetPosition_inv s : inv (resetPosition s).2.
Proof.
  unfold resetPosition, clearRoutingTable. rewrite bind_gets, bind_modify.
  destruct s. mred. simpl. apply notifyNodeInfoChange_inv. by apply cleared_inv.
Qed.

Lemma setPosition_inv p s s' : setPosition p s = (Ok tt, s') -> inv s'.
Proof.
  unfold setPosition. rewrite bind_gets.
  intros ([] & s1 & _ & Hk)%bind_Ok. rewrite bind_gets in Hk.
  apply bind_Ok in Hk as ([] & s2 & Hinit & Hn).
  replace s' with (notifyNodeInfoChange (self_node_info_ s) (self_node_info_ s1) s2).2 by by rewrite Hn.
  apply notifyNodeInfoChange_inv. destruct (Node.isInitialized _) eqn:Ei.
  - eapply initTables_inv; [by apply Node.isInitialized_valid|done].
  - unfold clearRoutingTable in Hinit. rewrite !bind_modify, modify_Ok in Hinit. subst s2.
    destruct s1. by apply cleared_inv.
Qed.

Lemma step_inv s s' : inv s -> step s s' -> inv s'.
Proof.
  intros Hi []; [by eapply edits_inv, run_op_edits|by apply setNodeStatus_inv|
    by eapply setPosition_inv|apply resetPosition_inv].
Qed.

Lemma reachable_inv s : reachable s -> inv s.
Proof.
  intros (s0 & H1%initial_inv & Hr). induction Hr; [done|]. eauto using step_inv.
Qed.
(** Whether there are tables depends on whether there is a position, and, when a position is set,
    on the address. *)
Definition shape (s : RoutingInformation) : Prop :=
  if Node.isValidPeer (self_node_info_ s)
  then Physical.isInitialized (p_node_info_ (self_node_info_ s)) = true -> tables_match s
  else cleared s.

Lemma edit_self s s' : edit s s' -> self_node_info_ s' = self_node_info_ s.
Proof. by intros []; destruct s. Qed.

Lemma match_skeleton s s' : skeleton s' = skeleton s -> tables_match s -> tables_match s'.
Proof.
  unfold skeleton, tables_match. rewrite !pair_equal_spec.
  intros (((((Hself & Hpar) & Hc) & Hn) & Hk) & Hi) (l & n & f & cs & left & right & css & Hm).
  exists l, n, f, cs, left, right, css. by rewrite Hself, Hpar, Hc, Hn, Hk, Hi.
Qed.

Lemma cleared_skeleton s s' : skeleton s' = skeleton s -> cleared s -> cleared s'.
Proof.
  unfold skeleton, cleared. rewrite !pair_equal_spec. intros (((((_ & Hpar) & Hc) & Hn) & Hk) & _) (Hp & Hc0 & Hn0 & Hk0).
  rewrite Hc0 in Hc. rewrite Hn0 in Hn. rewrite Hk0 in Hk. apply fmap_nil_inv in Hc, Hn, Hk. by rewrite Hpar.
Qed.

Lemma shape_skeleton s s' :
  self_node_info_ s' = self_node_info_ s -> skeleton s' = skeleton s -> shape s -> shape s'.
Proof.
  intros Hs Hk. unfold shape. rewrite Hs. destruct (Node.isValidPeer _); [|by apply cleared_skeleton].
  intros Hm Hp. apply (match_skeleton s); auto.
Qed.

Lemma edits_shape s s' : rtc edit s s' -> shape s -> shape s'.
Proof. induction 1; [done|]. eauto using shape_skeleton, edit_self, edit_skeleton. Qed.

Lemma tables_shape s : tables_match s -> shape s.
Proof.
  intros Hm. unfold shape. destruct (Node.isValidPeer _) eqn:Hv; [done|].
  destruct Hm as (l & n & f & ? & ? & ? & ? & Hk & _). unfold pos_key in Hk. congruence.
Qed.

(** Tables that have been installed have the position they were made for. *)
Lemma initTables_match s s' :
  Node.isValidPeer (self_node_info_ s) = true -> initTables s = (Ok tt, s') -> tables_match s'.
Proof.
  intros Hv Hinit. pose proof (self_key _ Hv) as Hself. eapply initTables_Ok in Hinit as (t & Ht & ->); [|done..].
  destruct (fresh_install_match s _ _ _ t Hself Ht) as [Hm _]. exact Hm.
Qed.

Lemma initial_shape s : initial s -> shape s.
Proof.
  destruct 1 as [|n s Hs]; [done|].
  unfold construct_RI, Logical.construct in Hs. destruct (Node.isValidPeer n) eqn:Hv.
  - destruct (initTables _) as [[[]| |] t] eqn:E; [|done..]. injection Hs as <-.
    apply tables_shape. eapply initTables_match; [|exact E]. done.
  - injection Hs as <-. unfold shape. cbn -[Node.isValidPeer cleared]. by rewrite Hv.
Qed.

Lemma notifyNodeInfoChange_shape a b s s' : notifyNodeInfoChange a b s = (Ok tt, s') -> shape s -> shape s'.
Proof. unfold notifyNodeInfoChange. case_match; intros [= <-]; [done|]. by destruct s. Qed.

Lemma setPosition_shape p s s' : setPosition p s = (Ok tt, s') -> shape s'.
Proof.
  unfold setPosition. rewrite bind_gets. intros ([] & s1 & _ & Hk)%bind_Ok. rewrite bind_gets in Hk.
  apply bind_Ok in Hk as ([] & s2 & Hinit & Hn). eapply notifyNodeInfoChange_shape; [exact Hn|].
  destruct (Node.isInitialized _) eqn:Ei.
  - apply tables_shape. eapply initTables_match; [by apply Node.isInitialized_valid|done].
  - unfold clearRoutingTable in Hinit. rewrite !bind_modify, modify_Ok in Hinit. subst s2. unfold shape.
    destruct s1. cbn in *. unfold Node.isInitialized in Ei. unfold Node.isValidPeer.
    destruct (Logical.isInitialized _); [|done]. cbn in Ei. congruence.
Qed.

Lemma resetPosition_shape s : shape (resetPosition s).2.
Proof.
  unfold resetPosition, clearRoutingTable. rewrite bind_gets, bind_modify. destruct s. mred. cbn.
  match goal with |- shape (notifyNodeInfoChange ?a ?b ?t).2 => destruct (notifyNodeInfoChange_total a b t) as [s' Hs'] end.
  rewrite Hs'. eapply notifyNodeInfoChange_shape; [exact Hs'|]. done.
Qed.

Lemma reachable_shape s : reachable s -> shape s.
Proof.
  intros (s0 & H1%initial_shape & Hr). induction Hr as [|s1 s2 s3 Hstep _ IH]; [done|]. apply IH. destruct Hstep.
  - by eapply edits_shape; [apply run_op_edits|].
  - revert H1. by destruct s1 as [[]].
  - by eapply setPosition_shape.
  - apply resetPosition_shape.
Qed.
End Edits.

(** C33: in every object reachable from a constructor by any sequence of the operations (also
    those that throw, [setPosition] excepted), the tables are either empty or hold exactly the
    positions computed for the own position: the parent, the children in order, the left and
    right routing-table neighbours and their children, both sorted horizontally, and the
    index where the right ones start. Every entry is an initialised node or a bare position, and the adjacent links, when set,
    are initialised nodes with our fanout on the proper side of us. *)
Theorem routing_tables_invariant `{Platform} `{Inet} s :
  reachable s ->
  (tables_match s \/ cleared s) /\ Forall entry_ok (entries s) /\
  left_ok s (adjacent_left_ s) /\ right_ok s (adjacent_right_ s).
Proof. apply reachable_inv. Qed.

(** A node at 1:0 of a binary tree that has learned of its parent and its right neighbour. *)
Section Example.
#[local] Existing Instance x86_64.
#[local] Existing Instance ipv4_only.

Definition example_node (l n : Z) : NodeInfo :=
  {| l_node_info_ := {| level_ := l; number_ := n; fanout_ := 2; uuid_ := UUID_bytes [l; n];
                        initialized_ := true |};
     p_node_info_ := localhost; status_ := kRunning |}.

Definition example_RI : RoutingInformation :=
  match construct_RI (example_node 1 0) with Ok s => s | _ => default_RI end.

Lemma example_reachable :
  reachable (run_op (op_updateNeighbor (example_node 1 1))
              (run_op (op_updateNeighbor (example_node 0 0)) example_RI)).
Proof.
  exists example_RI. split; [apply (initial_construct (example_node 1 0)); vm_compute; reflexivity|].
  eapply rtc_l; [apply (step_op _ (op_updateNeighbor (example_node 0 0)))|].
  apply rtc_once. apply step_op.
Qed.

Lemma routing_tables_invariant_witness :
  let s := run_op (op_updateNeighbor (example_node 1 1))
             (run_op (op_updateNeighbor (example_node 0 0)) example_RI) in
  (tables_match s \/ cleared s) /\ Forall entry_ok (entries s) /\
  left_ok s (adjacent_left_ s) /\ right_ok s (adjacent_right_ s).
Proof. intros s. apply (routing_tables_invariant s). apply example_reachable. Defined.

End Example.
