(* ===== verification/RoutingLookup.v ===== *)
(** * Finding and splitting the routing tables

    [RoutingInformation] keeps two vectors sorted by the binary64 horizontal value, searches them
    with [std::lower_bound] and cuts them at [right_table_neighbor_start_index_]. On levels
    where the horizontal order is that of the numbers ([OrderedLevels]), the binary search
    finds what a linear search by position finds ([find_entry_linear]) and the cut separates
    the left from the right neighbours ([tables_split]). *)

From S2P Require Import Prelude RoutingCalculations TreeMapper NodeInfo RoutingInformation RoutingInvariants.

(** ** Sorting *)

Section Sorting.
Context {A : Type} (lt : A -> A -> bool).

Lemma sort_insert_app x (l r : list A) :
  (forall y, y ∈ r -> lt x y = true) -> sort_insert lt x (l ++ r) = sort_insert lt x l ++ r.
Proof.
  intros Hx. induction l as [|a l IH]; simpl.
  - destruct r as [|y r]; simpl; [done|]. by rewrite Hx by set_solver.
  - case_match; [done|]. simpl. by rewrite IH.
Qed.

Lemma std_sort_app (l r : list A) :
  (forall x y, x ∈ l -> y ∈ r -> lt x y = true) -> std_sort lt (l ++ r) = std_sort lt l ++ std_sort lt r.
Proof.
  induction l as [|a l IH]; intros Hlr; [done|]. unfold std_sort in *. simpl.
  rewrite IH by set_solver. apply sort_insert_app. intros y Hy. apply Hlr; [set_solver|].
  change (y ∈ std_sort lt r) in Hy. by rewrite std_sort_Permutation in Hy.
Qed.

Context (g : A -> Z).

Lemma sort_insert_sorted x (l : list A) :
  (forall y, y ∈ l -> lt x y = (g x <? g y)) ->
  StronglySorted (fun a b => g a <= g b) l ->
  StronglySorted (fun a b => g a <= g b) (sort_insert lt x l).
Proof.
  intros Hx. induction 1 as [|y l Hs IH Hy]; simpl; [repeat constructor|].
  rewrite (Hx y) by set_solver. rewrite Forall_forall in Hy.
  destruct (Z.ltb_spec (g x) (g y)).
  - constructor; [by constructor; [|apply Forall_forall]|]. apply Forall_forall.
    intros z [->|Hz]%elem_of_cons; [lia|]. specialize (Hy z Hz). lia.
  - constructor; [apply IH; set_solver|]. apply Forall_forall. intros z Hz.
    rewrite sort_insert_Permutation in Hz. apply elem_of_cons in Hz as [->|Hz]; [lia|by apply Hy].
Qed.

Lemma std_sort_sorted (l : list A) :
  (forall x y, x ∈ l -> y ∈ l -> lt x y = (g x <? g y)) ->
  StronglySorted (fun a b => g a <= g b) (std_sort lt l).
Proof.
  induction l as [|a l IH]; intros Hl; [constructor|]. unfold std_sort in *. simpl.
  apply sort_insert_sorted; [|apply IH; set_solver]. intros y Hy. apply Hl; [set_solver|].
  change (y ∈ std_sort lt l) in Hy. rewrite std_sort_Permutation in Hy. set_solver.
Qed.
End Sorting.

Lemma StronglySorted_at {A} (R : A -> A -> Prop) l i j x y :
  StronglySorted R l -> (i < j)%nat -> l !! i = Some x -> l !! j = Some y -> R x y.
Proof.
  intros Hs. revert i j. induction Hs as [|a l Hs IH Ha]; intros i j Hij Hi Hj; [done|].
  destruct j as [|j]; [lia|]. simpl in Hj. destruct i as [|i]; simpl in Hi.
  - injection Hi as <-. rewrite Forall_forall in Ha. apply Ha. by eapply list_elem_of_lookup_2.
  - apply (IH i j); [lia|done..].
Qed.

(** The reference definition: the first entry at the position. *)
Definition linear_find (table : list NodeInfo) (n : NodeInfo) : option (nat * NodeInfo) :=
  match find_index (same_position n) table with
  | Some i => pair i <$> table !! i
  | None => None
  end.

Lemma same_position_key n1 n2 : same_position n1 n2 = true <-> pos_key n1 = pos_key n2.
Proof.
  unfold same_position. rewrite Logical.eqb_spec. unfold pos_key. rewrite !pair_equal_spec.
  unfold Node.getLevel, Node.getNumber, Node.getFanout, Node.isValidPeer, Logical.isInitialized. tauto.
Qed.

Lemma same_position_sym n1 n2 : same_position n1 n2 = same_position n2 n1.
Proof.
  apply eq_bool_prop_intro. rewrite !Is_true_true, !same_position_key. split; congruence.
Qed.

(** ** Tables of one level *)

Section Level.
Context (f depth : Z) `{!OrderedLevels f depth} (l : Z) (Hl : 0 <= l <= depth).

Definition on_level (k : key) : Prop := exists m, k = (l, m, f, true) /\ 0 <= m < f ^ l.
Definition key_number (k : key) : Z := k.1.1.2.

Lemma key_ltb_number k1 k2 : on_level k1 -> on_level k2 -> key_ltb k1 k2 = (key_number k1 <? key_number k2).
Proof. intros (m1 & -> & H1) (m2 & -> & H2). by apply ol_order. Qed.

Lemma sorted_table_at table ks i j x y :
  pos_key <$> table = std_sort key_ltb ks -> Forall on_level ks -> (i <= j)%nat ->
  table !! i = Some x -> table !! j = Some y -> key_number (pos_key x) <= key_number (pos_key y).
Proof.
  intros Ht Hks Hij Hx Hy. destruct (decide (i = j)) as [->|]; [simplify_eq; lia|].
  rewrite Forall_forall in Hks.
  apply (StronglySorted_at (fun a b => key_number a <= key_number b) (pos_key <$> table) i j);
    [|lia|by rewrite list_lookup_fmap, Hx|by rewrite list_lookup_fmap, Hy].
  rewrite Ht. apply std_sort_sorted. intros a b Ha Hb. apply key_ltb_number; by apply Hks.
Qed.

Lemma table_on_level table ks x :
  pos_key <$> table = std_sort key_ltb ks -> Forall on_level ks -> x ∈ table -> on_level (pos_key x).
Proof.
  intros Ht Hks Hx. rewrite Forall_forall in Hks. apply Hks.
  rewrite <- (std_sort_Permutation key_ltb ks), <- Ht. by apply list_elem_of_fmap_2.
Qed.

(** The binary search agrees with the linear one. *)
Lemma find_entry_is_linear table ks n :
  pos_key <$> table = std_sort key_ltb ks -> Forall on_level ks ->
  find_entry table n = linear_find table n.
Proof.
  intros Ht Hks. unfold find_entry, linear_find.
  destruct (find_index (same_position n) table) as [k|] eqn:Ek.
  - apply find_index_Some in Ek as (e & He & Hpos%same_position_key & Hfirst).
    assert (Hon : forall i y, table !! i = Some y -> on_level (pos_key y))
      by (intros i y Hy; eapply table_on_level; [done..|by eapply list_elem_of_lookup_2]).
    assert (Hlt : forall i y, table !! i = Some y ->
      Node.ltb y n = (key_number (pos_key y) <? key_number (pos_key e))).
    { intros i y Hy. change (Node.ltb y n) with (key_ltb (pos_key y) (pos_key n)). rewrite Hpos.
      apply key_ltb_number; eauto. }
    assert (Hlb : lower_bound Node.ltb table n = k).
    { rewrite lower_bound_first_not_less.
      - apply first_not_less_char.
        + intros i y Hi Hy. rewrite (Hlt i y Hy). apply Z.ltb_lt.
          pose proof (sorted_table_at table ks i k y e Ht Hks ltac:(lia) Hy He).
          destruct (Z.eq_dec (key_number (pos_key y)) (key_number (pos_key e))) as [Heq|]; [|lia].
          exfalso. destruct (Hon i y Hy) as (m & Hm & _), (Hon k e He) as (m' & Hm' & _).
          specialize (Hfirst i y Hi Hy). apply not_true_iff_false in Hfirst. apply Hfirst.
          apply same_position_key. unfold key_number in Heq. rewrite Hm, Hm' in Heq. simpl in Heq.
          congruence.
        + intros y Hy. rewrite (Hlt k y Hy). simplify_eq. apply Z.ltb_irrefl.
        + apply Nat.lt_le_incl. by eapply lookup_lt_Some.
      - intros i j y z Hij Hy Hz. rewrite (Hlt i y Hy), (Hlt j z Hz), !Z.ltb_lt.
        pose proof (sorted_table_at table ks i j y z Ht Hks Hij Hy Hz). lia. }
    rewrite Hlb, He. change (Logical.eqb (l_node_info_ e) (l_node_info_ n)) with (same_position e n).
    rewrite same_position_sym. by rewrite (proj2 (same_position_key n e) Hpos).
  - rewrite find_index_None in Ek. destruct (table !! _) as [e|] eqn:He; [|done].
    change (Logical.eqb (l_node_info_ e) (l_node_info_ n)) with (same_position e n).
    rewrite same_position_sym, Ek; [done|]. by eapply list_elem_of_lookup_2.
Qed.
End Level.

Lemma level_fits_mono l d f : valid_fanout f -> 0 <= l <= d -> level_fits d f -> level_fits l f.
Proof.
  intros Hf Hl [_ Hfit]. split; [lia|]. apply valid_fanout_bounds in Hf.
  assert (f ^ l <= f ^ d) by (apply Z.pow_le_mono_r; lia). lia.
Qed.

(** ** The tables of a node *)

Section Split.
Context `{Platform} `{Inet} (f depth : Z) `{!OrderedLevels f depth} (l n : Z).
Context (Hl : 0 <= l) (Hdepth : l + 1 <= depth) (Hn : 0 <= n).

#[local] Lemma fits : level_fits l f.
Proof. apply (level_fits_mono l depth); [apply ol_fanout|lia|apply ol_fits]. Qed.
#[local] Lemma fits_below : level_fits (l + 1) f.
Proof. apply (level_fits_mono (l + 1) depth); [apply ol_fanout|lia|apply ol_fits]. Qed.

Lemma rt_distance_pos x : rt_distance f x -> 1 <= x.
Proof.
  intros (i & d & Hi & Hd & ->). pose proof (pow_pos f i ol_fanout Hi). nia.
Qed.

Lemma calcLeftRT_valid left : calcLeftRT l n f = Ok left -> n < f ^ l.
Proof.
  unfold calcLeftRT. destruct (isPositionValid l n f) eqn:E; [|done].
  by apply isPositionValid_spec in E as [_ ?].
Qed.

Lemma left_numbers left p : calcLeftRT l n f = Ok left -> p ∈ left -> p.1 = l /\ 0 <= p.2 < n.
Proof.
  intros HL Hp. pose proof (calcLeftRT_valid _ HL).
  destruct (calcLeftRT_elem l f ol_fanout fits n ltac:(lia)) as (lrt & HL' & Helem).
  rewrite HL in HL'. injection HL' as ->. apply Helem in Hp as (x & Hx%rt_distance_pos & ? & ->).
  simpl. lia.
Qed.

Lemma right_numbers left right p :
  calcLeftRT l n f = Ok left -> calcRightRT l n f = Ok right -> p ∈ right ->
  p.1 = l /\ n < p.2 < f ^ l.
Proof.
  intros HL HR Hp. pose proof (calcLeftRT_valid _ HL).
  destruct (calcRightRT_elem l f ol_fanout fits n ltac:(lia)) as (rrt & HR' & Helem).
  rewrite HR in HR'. injection HR' as ->. apply Helem in Hp as (x & Hx%rt_distance_pos & ? & ->).
  simpl. lia.
Qed.

Lemma neighbors_on_level left right :
  calcLeftRT l n f = Ok left -> calcRightRT l n f = Ok right ->
  Forall (on_level f l) (at_fanout f <$> (left ++ right)).
Proof.
  intros HL HR. apply Forall_forall. intros k ([l' m] & -> & Hp)%list_elem_of_fmap.
  exists m. pose proof (calcLeftRT_valid _ HL). apply elem_of_app in Hp as [Hp|Hp].
  - apply (left_numbers _ _ HL) in Hp as [Heq ?]. simpl in *. subst l'. split; [done|lia].
  - apply (right_numbers _ _ _ HL HR) in Hp as [Heq ?]. simpl in *. subst l'. split; [done|lia].
Qed.

(** The children of a list of positions of our level. *)
Lemma mapM_children ps css :
  (forall p, p ∈ ps -> p.1 = l /\ 0 <= p.2 < f ^ l) ->
  mapM (fun p => calcChildren p.1 p.2 f) ps = Ok css -> css = children_of f <$> ps.
Proof.
  intros Hps Hm. rewrite (mapM_Ok _ (children_of f)) in Hm; [by injection Hm|].
  intros [l' m] Hp. destruct (Hps _ Hp) as [Heq ?]. simpl in *. subst l'.
  apply calcChildren_fits; [apply ol_fanout|apply fits_below|done|done].
Qed.

Lemma elem_of_children_numbers ps k :
  k ∈ at_fanout f <$> concat (children_of f <$> ps) ->
  exists p i, p ∈ ps /\ 0 <= i < f /\ k = (p.1 + 1, p.2 * f + i, f, true).
Proof.
  intros (c & -> & Hc)%list_elem_of_fmap.
  apply list_elem_of_In, in_concat in Hc as (cs & Hcs%list_elem_of_In & Hc%list_elem_of_In).
  apply list_elem_of_fmap in Hcs as (p & -> & Hp).
  apply list_elem_of_fmap in Hc as (i & -> & Hi%elem_of_zrange). exists p, i. done.
Qed.

Lemma children_on_level ps :
  (forall p, p ∈ ps -> p.1 = l /\ 0 <= p.2 < f ^ l) ->
  Forall (on_level f (l + 1)) (at_fanout f <$> concat (children_of f <$> ps)).
Proof.
  intros Hps. apply Forall_forall. intros k (p & i & Hp & Hi & ->)%elem_of_children_numbers.
  destruct (Hps p Hp) as [-> ?]. eexists. split; [done|]. rewrite pow_S by lia. nia.
Qed.
Lemma key_neighbors_bound left right p :
  calcLeftRT l n f = Ok left -> calcRightRT l n f = Ok right -> p ∈ left ++ right ->
  p.1 = l /\ 0 <= p.2 < f ^ l.
Proof.
  intros HL HR [Hp|Hp]%elem_of_app.
  - pose proof (calcLeftRT_valid _ HL). pose proof (left_numbers _ _ HL Hp). lia.
  - pose proof (right_numbers _ _ _ HL HR Hp). lia.
Qed.

(** What [tables_match] says of a node at [l:n]. *)
Lemma tables_match_at s :
  tables_match s -> pos_key (self_node_info_ s) = (l, n, f, true) ->
  exists left right, calcLeftRT l n f = Ok left /\ calcRightRT l n f = Ok right /\
    right_table_neighbor_start_index_ s = Z.of_nat (length left) /\
    pos_key <$> routing_table_neighbors_ s = std_sort key_ltb (at_fanout f <$> (left ++ right)) /\
    pos_key <$> routing_table_neighbor_children_ s =
      std_sort key_ltb (at_fanout f <$> concat (children_of f <$> (left ++ right))) /\
    pos_key <$> children_ s = at_fanout f <$> children_of f (l, n) /\
    (if 0 <? l then pos_key (parent_ s) = (l - 1, n / f, f, true)
     else pos_key (parent_ s) = pos_key Node.default).
Proof.
  intros (l' & n' & f' & cs & left & right & css & Hself & Hp & Hcs & Hc & HL & HR & Hi & Ht & Hcss & Hk) Hkey.
  rewrite Hkey in Hself. injection Hself as <- <- <-. exists left, right.
  pose proof (calcLeftRT_valid _ HL). pose proof fits. pose proof (ol_fanout (f := f)).
  rewrite (calcChildren_fits l n f) in Hcs by (done || apply fits_below || lia).
  injection Hcs as <-. apply mapM_children in Hcss as ->; [|intros p; by apply key_neighbors_bound].
  repeat split; try done. destruct (Z.ltb_spec 0 l); [|done]. destruct Hp as (p & Hp & ->).
  pose proof (level_fits_lt l f ltac:(done) ltac:(done)).
  rewrite calcParent_div in Hp; [by injection Hp as <-|done|lia|lia|].
  pose proof fits as [_ ?]. lia.
Qed.

Lemma neighbors_linear s x :
  tables_match s -> pos_key (self_node_info_ s) = (l, n, f, true) ->
  find_entry (routing_table_neighbors_ s) x = linear_find (routing_table_neighbors_ s) x.
Proof.
  intros Hm Hkey. destruct (tables_match_at s Hm Hkey) as (left & right & HL & HR & _ & Ht & _).
  eapply (find_entry_is_linear f depth l); [lia|done|]. by apply neighbors_on_level.
Qed.

Lemma neighbor_children_linear s x :
  tables_match s -> pos_key (self_node_info_ s) = (l, n, f, true) ->
  find_entry (routing_table_neighbor_children_ s) x = linear_find (routing_table_neighbor_children_ s) x.
Proof.
  intros Hm Hkey. destruct (tables_match_at s Hm Hkey) as (left & right & HL & HR & _ & _ & Ht & _).
  eapply (find_entry_is_linear f depth (l + 1)); [lia|done|].
  apply children_on_level. intros p. by apply key_neighbors_bound.
Qed.

(** The cut of a sorted table between two groups. *)
Lemma range_split (table : list NodeInfo) (ks1 ks2 : list key) :
  pos_key <$> table = std_sort key_ltb (ks1 ++ ks2) ->
  (forall x y, x ∈ ks1 -> y ∈ ks2 -> key_ltb x y = true) ->
  exists t1 t2, range_to table (Z.of_nat (length ks1)) = Ok t1 /\
    range_from table (Z.of_nat (length ks1)) = Ok t2 /\
    pos_key <$> t1 = std_sort key_ltb ks1 /\ pos_key <$> t2 = std_sort key_ltb ks2.
Proof.
  intros Ht Hlt. rewrite std_sort_app in Ht by done.
  assert (Hlen : length (std_sort key_ltb ks1) = length ks1)
    by (apply Permutation_length, std_sort_Permutation).
  assert (Hle : (length ks1 <= length table)%nat).
  { rewrite <- (length_fmap pos_key table), Ht, length_app. lia. }
  unfold range_to, range_from. rewrite Nat2Z.id.
  destruct (Z.leb_spec (Z.of_nat (length ks1)) (Z.of_nat (length table))); [|lia].
  eexists _, _. repeat split.
  - by rewrite fmap_take, Ht, <- Hlen, take_app_length.
  - by rewrite fmap_drop, Ht, <- Hlen, drop_app_length.
Qed.
End Split.

(** ** Updating and looking up *)

Section UpdateGet.
Context `{Platform} `{Inet}.

Lemma Physical_eqb_eq p q : Physical.eqb p q = true <-> p = q.
Proof.
  unfold Physical.eqb. rewrite andb_true_iff, Z.eqb_eq, bool_decide_eq_true. destruct p, q. simpl.
  naive_solver.
Qed.

Lemma linear_find_Some table x i e :
  linear_find table x = Some (i, e) ->
  table !! i = Some e /\ pos_key x = pos_key e /\
  forall j y, (j < i)%nat -> table !! j = Some y -> same_position x y = false.
Proof.
  unfold linear_find. destruct (find_index _ _) as [k|] eqn:E; [|done].
  apply find_index_Some in E as (y & Hy & Hpos%same_position_key & Hfirst). rewrite Hy.
  intros [= <- <-]. done.
Qed.

Lemma linear_find_elem table x :
  pos_key x ∈ pos_key <$> table -> exists i e, linear_find table x = Some (i, e).
Proof.
  intros (y & Hy & Hin)%list_elem_of_fmap. unfold linear_find.
  destruct (find_index _ _) as [k|] eqn:E.
  - apply find_index_Some in E as (z & Hz & _). rewrite Hz. eauto.
  - rewrite find_index_None in E. specialize (E y Hin). apply not_true_iff_false in E.
    exfalso. apply E. by apply same_position_key.
Qed.

(** [updateRoutingTableNeighbor] on a position of the table. *)
Lemma updateRoutingTableNeighbor_found s x i e :
  Node.isValidPeer (self_node_info_ s) = true -> Node.isInitialized x = true ->
  find_entry (routing_table_neighbors_ s) x = Some (i, e) ->
  exists s' e', updateRoutingTableNeighbor x s = (Ok tt, s') /\
    self_node_info_ s' = self_node_info_ s /\ parent_ s' = parent_ s /\ children_ s' = children_ s /\
    routing_table_neighbors_ s' = <[i := e']> (routing_table_neighbors_ s) /\
    pos_key e' = pos_key x /\ p_node_info_ e' = p_node_info_ x /\ Node.isInitialized e' = true.
Proof.
  intros Hv Hx He. unfold updateRoutingTableNeighbor, require_valid_self, notifyNeighborChange. mred.
  rewrite Hv, Hx. simpl. rewrite He. apply find_entry_Some in He as [He Hpos].
  pose proof (eqb_pos_key _ _ Hpos) as Hkey.
  destruct (Physical.eqb (p_node_info_ e) (p_node_info_ x)) eqn:Ep; simpl.
  - apply Physical_eqb_eq in Ep. exists s, e. repeat split; try done.
    + symmetry. by apply list_insert_id.
    + unfold Node.isInitialized in *. rewrite Ep.
      injection Hkey as _ _ _ Hk. unfold Node.isValidPeer in Hk. by rewrite Hk.
  - eexists _, _. split; [done|]. destruct s. repeat split.
    unfold Node.isInitialized in *. by destruct x, e.
Qed.

(** The adjacent links tolerate a new address of the node they point to. *)
Lemma setAdjacentLeft_again s x :
  Node.isValidPeer (self_node_info_ s) = true -> left_ok s (adjacent_left_ s) ->
  Node.isInitialized x = true -> same_position (adjacent_left_ s) x = true ->
  exists s', setAdjacentLeft x s = (Ok tt, s') /\
    exists a t, s' = set_notified t (set_left a s).
Proof.
  intros Hv Hok Hx Hpos. unfold setAdjacentLeft, require_valid_self, call, notifyNeighborChange. mred.
  rewrite Hv. simpl. unfold getFanout. rewrite Hv. mred. simpl.
  pose proof (Logical.eqb_hvalue _ _ Hpos) as Hh.
  apply same_position_key in Hpos. destruct Hok as [Hd|(Hi & Hf & Hle)].
  - exfalso. rewrite Hd in Hpos. apply Node.isInitialized_valid in Hx.
    injection Hpos as _ _ _ Hval. by rewrite Hx in Hval.
  - injection Hpos as _ _ Hfx _. rewrite <- Hfx, Hf, Z.eqb_refl, Hx. simpl.
    unfold horizontal in *. rewrite <- Hh, Hle. case_match; simpl.
    + eexists. split; [done|]. by eexists _, _.
    + exists s. split; [done|]. exists (adjacent_left_ s), (notified_ s). by destruct s.
Qed.

Lemma setAdjacentRight_again s x :
  Node.isValidPeer (self_node_info_ s) = true -> right_ok s (adjacent_right_ s) ->
  Node.isInitialized x = true -> same_position (adjacent_right_ s) x = true ->
  exists s', setAdjacentRight x s = (Ok tt, s') /\
    exists a t, s' = set_notified t (set_right a s).
Proof.
  intros Hv Hok Hx Hpos. unfold setAdjacentRight, require_valid_self, call, notifyNeighborChange. mred.
  rewrite Hv. simpl. unfold getFanout. rewrite Hv. mred. simpl.
  pose proof (Logical.eqb_hvalue _ _ Hpos) as Hh.
  apply same_position_key in Hpos. destruct Hok as [Hd|(Hi & Hf & Hle)].
  - exfalso. rewrite Hd in Hpos. apply Node.isInitialized_valid in Hx.
    injection Hpos as _ _ _ Hval. by rewrite Hx in Hval.
  - injection Hpos as _ _ Hfx _. rewrite <- Hfx, Hf, Z.eqb_refl, Hx. simpl.
    unfold horizontal in *. rewrite <- Hh, Hle. case_match; simpl.
    + eexists. split; [done|]. by eexists _, _.
    + exists s. split; [done|]. exists (adjacent_right_ s), (notified_ s). by destruct s.
Qed.
Lemma push_adjacent_app a v : exists rest, push_adjacent a v = v ++ rest.
Proof.
  unfold push_adjacent. repeat case_match; [exists []|exists [a]|exists []]; by rewrite ?app_nil_r.
Qed.

Lemma known_neighbors s : exists rest,
  getAllUniqueKnownExistingNeighbors s =
    (if negb (Node.getLevel (self_node_info_ s) =? 0) then [parent_ s] else []) ++
    copy_initialized (children_ s) ++ copy_initialized (routing_table_neighbors_ s) ++ rest.
Proof.
  unfold getAllUniqueKnownExistingNeighbors, getAllUniqueSymmetricalExistingNeighbors,
    getInitializedChildren, getAllInitializedRoutingTableNeighbors.
  destruct (push_adjacent_app (adjacent_left_ s)
    (((if negb (Node.getLevel (self_node_info_ s) =? 0) then [parent_ s] else []) ++
      copy_initialized (children_ s)) ++ copy_initialized (routing_table_neighbors_ s))) as [r1 ->].
  edestruct (push_adjacent_app (adjacent_right_ s)) as [r2 ->].
  eexists. by rewrite <- !app_assoc.
Qed.

Lemma find_none_all {A} (p : A -> bool) (v : list A) :
  (forall x, x ∈ v -> p x = false) -> List.find p v = None.
Proof.
  induction v as [|a v IH]; intros Hv; simpl; [done|]. rewrite Hv by set_solver. apply IH. set_solver.
Qed.

Lemma find_initialized_first (p : NodeInfo -> bool) (v : list NodeInfo) i e :
  v !! i = Some e -> p e = true -> Node.isInitialized e = true ->
  (forall j y, (j < i)%nat -> v !! j = Some y -> p y = false) ->
  List.find p (copy_initialized v) = Some e.
Proof.
  revert i; induction v as [|a v IH]; intros i Hi Hp He Hfirst; [done|].
  unfold copy_initialized in *. destruct i as [|i]; simpl in Hi.
  - injection Hi as ->. rewrite filter_cons_True by (by rewrite He). simpl. by rewrite Hp.
  - rewrite filter_cons. case_decide; simpl.
    + rewrite (Hfirst 0%nat a ltac:(lia) eq_refl). apply (IH i); [done..|].
      intros j y Hj Hy. apply (Hfirst (S j) y); [lia|done].
    + apply (IH i); [done..|]. intros j y Hj Hy. apply (Hfirst (S j) y); [lia|done].
Qed.

Lemma find_app {A} (p : A -> bool) (v w : list A) :
  List.find p (v ++ w) = match List.find p v with Some x => Some x | None => List.find p w end.
Proof. induction v as [|a v IH]; simpl; [done|]. by destruct (p a). Qed.

Lemma level_of_key (v : list NodeInfo) (k : Z) (ks : list Pos) : pos_key <$> v = at_fanout k <$> ks ->
  forall x, x ∈ v -> exists p, p ∈ ks /\ Node.getLevel x = p.1 /\ Node.getNumber x = p.2.
Proof.
  intros Hv x Hx. assert (Hk : pos_key x ∈ at_fanout k <$> ks)
    by (rewrite <- Hv; by apply list_elem_of_fmap_2).
  apply list_elem_of_fmap in Hk as (p & Hk & Hp). injection Hk as ? ? ? ?. eauto.
Qed.

(** The fields an adjacent link is not. *)
Definition same_tables (s s' : RoutingInformation) : Prop :=
  self_node_info_ s' = self_node_info_ s /\ parent_ s' = parent_ s /\ children_ s' = children_ s /\
  routing_table_neighbors_ s' = routing_table_neighbors_ s.

Lemma update_adjacent s x :
  Node.isValidPeer (self_node_info_ s) = true -> left_ok s (adjacent_left_ s) ->
  right_ok s (adjacent_right_ s) -> Node.isInitialized x = true ->
  exists s', (if same_position (adjacent_left_ s) x then setAdjacentLeft x
              else if same_position (adjacent_right_ s) x then setAdjacentRight x
              else mret tt) s = (Ok tt, s') /\ same_tables s s'.
Proof.
  intros Hv Hleft Hright Hx. destruct (same_position (adjacent_left_ s) x) eqn:El.
  - destruct (setAdjacentLeft_again s x Hv Hleft Hx El) as (s' & Hs' & a & t & ->).
    eexists. split; [done|]. by destruct s.
  - destruct (same_position (adjacent_right_ s) x) eqn:Er; [|by exists s].
    destruct (setAdjacentRight_again s x Hv Hright Hx Er) as (s' & Hs' & a & t & ->).
    eexists. split; [done|]. by destruct s.
Qed.

Context (f depth : Z) `{!OrderedLevels f depth} (l n : Z).
Context (Hl : 0 <= l) (Hdepth : l + 1 <= depth) (Hn : 0 <= n).

(** A routing-table neighbour is found behind the parent and the children. *)
Lemma get_neighbor s i e :
  pos_key (self_node_info_ s) = (l, n, f, true) ->
  (if 0 <? l then pos_key (parent_ s) = (l - 1, n / f, f, true)
   else pos_key (parent_ s) = pos_key Node.default) ->
  pos_key <$> children_ s = at_fanout f <$> children_of f (l, n) ->
  routing_table_neighbors_ s !! i = Some e -> on_level f l (pos_key e) -> Node.isInitialized e = true ->
  (forall j y, (j < i)%nat -> routing_table_neighbors_ s !! j = Some y ->
     at_position (Node.getLevel e) (Node.getNumber e) y = false) ->
  getNodeInfoByPosition (Node.getLevel e) (Node.getNumber e) s = Ok e.
Proof.
  intros Hself Hpar Hch Hi (m & Hm & Hbound) He Hfirst.
  injection Hself as Hsl Hsn Hsf Hsv. injection Hm as Hel Hen Hef Hev.
  unfold getNodeInfoByPosition, getFanout. mred. rewrite Hsv, Hsf. simpl. rewrite Hel, Hen.
  rewrite valid_position by (apply ol_fanout || lia). simpl.
  destruct (known_neighbors s) as [rest ->]. rewrite !find_app, Hsl.
  rewrite (find_none_all _ (if negb _ then _ else _)).
  - rewrite (find_none_all _ (copy_initialized (children_ s))).
    + rewrite (find_initialized_first _ _ i e); [done|done| |done|by rewrite <- Hel, <- Hen].
      unfold at_position. by rewrite Hel, Hen, !Z.eqb_refl.
    + intros x [_ Hx]%list_elem_of_filter. apply (level_of_key _ _ _ Hch) in Hx as (p & Hp & Hlv & _).
      apply children_of_level in Hp. simpl in Hp. unfold at_position. rewrite Hlv, Hp.
      rewrite (proj2 (Z.eqb_neq _ _)) by lia. done.
  - destruct (Z.eqb_spec l 0); simpl; [set_solver|]. intros x ->%list_elem_of_singleton.
    destruct (Z.ltb_spec 0 l); [|lia]. injection Hpar as Hpl _ _ _. unfold at_position.
    rewrite Hpl, (proj2 (Z.eqb_neq _ _)) by lia. done.
Qed.

Lemma at_position_on_level x y :
  on_level f l (pos_key x) -> on_level f l (pos_key y) -> same_position x y = false ->
  at_position (Node.getLevel x) (Node.getNumber x) y = false.
Proof.
  intros (mx & Hx & _) (my & Hy & _) Hs. apply not_true_iff_false. intros Hat. 
  apply not_true_iff_false in Hs. apply Hs. apply same_position_key.
  unfold at_position in Hat. apply andb_prop in Hat as [Hat1%Z.eqb_eq Hat2%Z.eqb_eq].
  rewrite Hx, Hy. injection Hx as ? ? ? ?. injection Hy as ? ? ? ?. congruence.
Qed.

Lemma not_parent s x :
  (if 0 <? l then pos_key (parent_ s) = (l - 1, n / f, f, true)
   else pos_key (parent_ s) = pos_key Node.default) ->
  on_level f l (pos_key x) -> same_position (parent_ s) x = false.
Proof.
  intros Hpar (m & Hx & _). apply not_true_iff_false. intros Hs%same_position_key.
  rewrite Hs, Hx in Hpar. case_match; [|done]. injection Hpar as ?. lia.
Qed.

Lemma updateNeighbor_get s x :
  inv s -> pos_key (self_node_info_ s) = (l, n, f, true) ->
  Node.isInitialized x = true -> pos_key x ∈ pos_key <$> routing_table_neighbors_ s ->
  exists s' e, updateNeighbor x s = (Ok tt, s') /\
    getNodeInfoByPosition (Node.getLevel x) (Node.getNumber x) s' = Ok e /\
    pos_key e = pos_key x /\ p_node_info_ e = p_node_info_ x.
Proof.
  intros (Hshape & _ & Hleft & Hright) Hself Hx Hin.
  assert (Hm : tables_match s).
  { destruct Hshape as [|(_ & _ & Hnil & _)]; [done|]. rewrite Hnil in Hin. by apply elem_of_nil in Hin. }
  destruct (tables_match_at f depth l n Hl Hdepth Hn s Hm Hself)
    as (left & right & HL & HR & _ & Ht & _ & Hch & Hpar).
  assert (Hon : forall y, y ∈ routing_table_neighbors_ s -> on_level f l (pos_key y)).
  { intros y Hy. eapply table_on_level; [done| |done]. by eapply neighbors_on_level. }
  assert (Hxon : on_level f l (pos_key x)).
  { apply list_elem_of_fmap in Hin as (y & -> & Hy). by apply Hon. }
  pose proof Hself as Hself'. injection Hself' as Hsl Hsn Hsf Hsv.
  destruct (update_adjacent s x Hsv Hleft Hright Hx) as (s1 & Hadj & Hs1 & Hp1 & Hc1 & Hn1).
  destruct (linear_find_elem _ _ Hin) as (i & e & Hlin).
  pose proof (linear_find_Some _ _ _ _ Hlin) as (Hie & Hkey & Hfirst).
  rewrite <- (neighbors_linear f depth l n Hl Hdepth Hn s x Hm Hself), <- Hn1 in Hlin.
  rewrite <- Hs1 in Hsv.
  destruct (updateRoutingTableNeighbor_found s1 x i e Hsv Hx Hlin)
    as (s2 & e' & Hup & Hs2 & Hp2 & Hc2 & Hn2 & Hke & Hpe & Hie').
  exists s2, e'. split; [|split; [|done]].
  - unfold updateNeighbor. rewrite bind_throw_if, Hx, bind_get. simpl. apply bind_Ok.
    exists tt, s1. split; [done|]. apply bind_Ok. exists tt, s1.
    pose proof (not_parent s x Hpar Hxon) as Hnp. unfold same_position in Hnp. rewrite Hnp.
    split; [done|]. destruct Hxon as (m & Hxm & _). injection Hxm as Hxl _ _ _.
    by rewrite Hsl, Hxl, Z.eqb_refl.
  - pose proof Hke as Hke'. injection Hke' as Hle Hne _ _. rewrite <- Hle, <- Hne.
    apply (get_neighbor s2 i e'); rewrite ?Hs2, ?Hs1, ?Hp2, ?Hp1, ?Hc2, ?Hc1, ?Hn2, ?Hn1; try done.
    + apply list_lookup_insert_eq. rewrite <- Hn1 in Hie. rewrite <- Hn1. by eapply lookup_lt_Some.
    + by rewrite Hke.
    + intros j y Hj Hy. rewrite list_lookup_insert_ne in Hy by lia.
      rewrite Hle, Hne. apply at_position_on_level; [done| |by eapply Hfirst].
      apply Hon. by eapply list_elem_of_lookup_2.
Qed.
End UpdateGet.

(** ** Cutting the tables *)

Lemma length_bind_const {A B} (g : A -> list B) k (v : list A) :
  (forall x, x ∈ v -> length (g x) = k) -> length (v ≫= g) = (length v * k)%nat.
Proof.
  induction v as [|a v IH]; intros Hg; [done|].
  rewrite bind_cons, length_app, Hg, IH by set_solver. simpl. lia.
Qed.

Lemma length_leftRT_loop l n s : (length (leftRT_loop l n s) <= length s)%nat.
Proof. induction s as [|i s IH]; simpl; [lia|]. case_match; simpl; lia. Qed.

Lemma length_calcLeftRT `{Platform} l n f left :
  valid_fanout f -> 0 <= l < 32 -> calcLeftRT l n f = Ok left ->
  Z.of_nat (length left) <= 2000000.
Proof.
  intros Hf Hl HL. pose proof (valid_fanout_bounds f Hf).
  unfold calcLeftRT in HL. destruct (isPositionValid l n f); [|done]. simpl in HL.
  unfold calcRoutingSequence in HL. rewrite (proj2 (isFanoutValid_spec f) Hf) in HL. simpl in HL.
  injection HL as <-. eapply Z.le_trans; [apply inj_le, length_leftRT_loop|].
  rewrite (length_bind_const _ (Z.to_nat (f - 1))).
  - rewrite length_zrange, u32_id by (unfold in_u32; nia). nia.
  - intros i _. rewrite (length_bind_const _ 1%nat) by done. rewrite length_zrange. lia.
Qed.

Section Cut.
Context `{Platform} `{Inet} (f depth : Z) `{!OrderedLevels f depth} (l n : Z).
Context (Hl : 0 <= l) (Hdepth : l + 1 <= depth) (Hn : 0 <= n).

Lemma length_children_of ps : length (concat (children_of f <$> ps)) = (length ps * Z.to_nat f)%nat.
Proof.
  induction ps as [|p ps IH]; [done|]. cbn [fmap list_fmap concat]. rewrite length_app, IH.
  unfold children_of at 1. rewrite length_fmap, length_zrange. simpl. lia.
Qed.

Lemma children_start_at s left :
  calcLeftRT l n f = Ok left -> right_table_neighbor_start_index_ s = Z.of_nat (length left) ->
  Node.getFanout (self_node_info_ s) = f ->
  children_start s = Z.of_nat (length (concat (children_of f <$> left))).
Proof.
  intros HL Hi Hf. unfold children_start. rewrite Hi, Hf, length_children_of.
  pose proof (valid_fanout_bounds f ol_fanout).
  pose proof (level_fits_lt l f ol_fanout (fits f depth l Hl Hdepth)).
  pose proof (length_calcLeftRT l n f left ol_fanout ltac:(lia) HL).
  rewrite u32_id by (unfold in_u32; nia). lia.
Qed.

Lemma neighbors_cut left right x y :
  calcLeftRT l n f = Ok left -> calcRightRT l n f = Ok right ->
  x ∈ at_fanout f <$> left -> y ∈ at_fanout f <$> right -> key_ltb x y = true.
Proof.
  intros HL HR (p & -> & Hp)%list_elem_of_fmap (q & -> & Hq)%list_elem_of_fmap.
  pose proof (left_numbers f depth l n Hl Hdepth Hn left p HL Hp) as [Hp1 ?].
  pose proof (right_numbers f depth l n Hl Hdepth Hn left right q HL HR Hq) as [Hq1 ?].
  unfold at_fanout. rewrite Hp1, Hq1.
  rewrite (key_ltb_number f depth l) by (lia || (eexists; split; [done|]; lia)).
  unfold key_number. simpl. lia.
Qed.

Lemma neighbor_children_cut left right x y :
  calcLeftRT l n f = Ok left -> calcRightRT l n f = Ok right ->
  x ∈ at_fanout f <$> concat (children_of f <$> left) ->
  y ∈ at_fanout f <$> concat (children_of f <$> right) -> key_ltb x y = true.
Proof.
  intros HL HR (p & i & Hp & Hi & ->)%elem_of_children_numbers (q & j & Hq & Hj & ->)%elem_of_children_numbers.
  pose proof (left_numbers f depth l n Hl Hdepth Hn left p HL Hp) as [-> ?].
  pose proof (right_numbers f depth l n Hl Hdepth Hn left right q HL HR Hq) as [-> ?].
  assert (f ^ (l + 1) = f ^ l * f) by (apply pow_S; lia).
  rewrite (key_ltb_number f depth (l + 1)) by (lia || (eexists; split; [done|]; nia)).
  unfold key_number. simpl. apply Z.ltb_lt. nia.
Qed.
End Cut.

(** On a node whose tables are built ([tables_match], kept by every operation), the iterator ranges behind the four
    left/right views are in bounds, and the cut at [right_table_neighbor_start_index_] (times
    the fanout for the children) separates the left from the right side: the left view holds the
    positions of [calcLeftRT] and the left children view their children, the right views
    those of [calcRightRT], each from left to right. *)
Theorem tables_split `{Platform} `{Inet} f depth `{!OrderedLevels f depth} l n s :
  0 <= l -> l + 1 <= depth -> 0 <= n -> tables_match s ->
  pos_key (self_node_info_ s) = (l, n, f, true) ->
  exists left right L R LC RC, calcLeftRT l n f = Ok left /\ calcRightRT l n f = Ok right /\
    getLeftRoutingTableNeighborsLeftToRight s = Ok L /\
    getRightRoutingTableNeighborsLeftToRight s = Ok R /\
    getLeftRoutingTableNeighborChildrenLeftToRight s = Ok LC /\
    getRightRoutingTableNeighborChildrenLeftToRight s = Ok RC /\
    pos_key <$> L = std_sort key_ltb (at_fanout f <$> left) /\
    pos_key <$> R = std_sort key_ltb (at_fanout f <$> right) /\
    pos_key <$> LC = std_sort key_ltb (at_fanout f <$> concat (children_of f <$> left)) /\
    pos_key <$> RC = std_sort key_ltb (at_fanout f <$> concat (children_of f <$> right)).
Proof.
  intros Hl Hd Hn Hm Hself.
  destruct (tables_match_at f depth l n Hl Hd Hn s Hm Hself)
    as (left & right & HL & HR & Hi & Ht & Hk & _). injection Hself as _ _ Hf _.
  rewrite fmap_app in Ht. rewrite fmap_app, concat_app, fmap_app in Hk.
  destruct (range_split _ _ _ Ht) as (L & R & HtoL & HfromR & HkL & HkR);
    [intros x y; by apply (neighbors_cut f depth l n)|].
  destruct (range_split _ _ _ Hk) as (LC & RC & HtoLC & HfromRC & HkLC & HkRC);
    [intros x y; by apply (neighbor_children_cut f depth l n)|].
  rewrite length_fmap in HtoL, HfromR, HtoLC, HfromRC.
  rewrite <- Hi in HtoL, HfromR.
  rewrite <- (children_start_at f depth l n Hl Hd s left HL Hi Hf) in HtoLC, HfromRC.
  by exists left, right, L, R, LC, RC.
Qed.

(** The binary search in the sorted tables of a reachable node finds exactly the entry a
    linear search by position finds, whatever node is looked for; so updates and resets by
    [std::lower_bound] hit the entry of the position, if there is one. *)
Theorem find_entry_linear `{Platform} `{Inet} f depth `{!OrderedLevels f depth} l n s x :
  0 <= l -> l + 1 <= depth -> 0 <= n -> reachable s ->
  pos_key (self_node_info_ s) = (l, n, f, true) ->
  find_entry (routing_table_neighbors_ s) x = linear_find (routing_table_neighbors_ s) x /\
  find_entry (routing_table_neighbor_children_ s) x =
    linear_find (routing_table_neighbor_children_ s) x.
Proof.
  intros Hl Hd Hn [[Hm|(_ & _ & Hn0 & Hk0)] _]%reachable_inv Hself; [|by rewrite Hn0, Hk0].
  split; [by apply (neighbors_linear f depth l n)|by apply (neighbor_children_linear f depth l n)].
Qed.

(** After [updateNeighbor] with an initialised node at the position of one of our
    routing-table neighbours, [getNodeInfoByPosition] returns that position with the
    address just written; neither call throws. *)
Theorem update_then_get `{Platform} `{Inet} f depth `{!OrderedLevels f depth} l n s x :
  0 <= l -> l + 1 <= depth -> 0 <= n -> reachable s ->
  pos_key (self_node_info_ s) = (l, n, f, true) ->
  Node.isInitialized x = true -> pos_key x ∈ pos_key <$> routing_table_neighbors_ s ->
  exists s' e, updateNeighbor x s = (Ok tt, s') /\
    getNodeInfoByPosition (Node.getLevel x) (Node.getNumber x) s' = Ok e /\
    pos_key e = pos_key x /\ p_node_info_ e = p_node_info_ x.
Proof. intros Hl Hd Hn Hr%reachable_inv. by apply (updateNeighbor_get f depth l n). Qed.

(** ** The example node *)

Section Example.
#[local] Existing Instance x86_64.
#[local] Existing Instance ipv4_only.
#[local] Instance binary_levels : OrderedLevels 2 6 := checked_levels 2 ltac:(lia).

Lemma example_RI_reachable : reachable example_RI.
Proof.
  exists example_RI. split; [|done]. apply (initial_construct (example_node 1 0)). vm_compute. reflexivity.
Qed.

Lemma example_tables_match : tables_match example_RI.
Proof.
  destruct (reachable_inv _ example_RI_reachable) as [[?|(_ & Hc & _)] _]; [done|].
  vm_compute in Hc. done.
Qed.

Lemma tables_split_witness :
  exists left right L R LC RC, calcLeftRT 1 0 2 = Ok left /\ calcRightRT 1 0 2 = Ok right /\
    getLeftRoutingTableNeighborsLeftToRight example_RI = Ok L /\
    getRightRoutingTableNeighborsLeftToRight example_RI = Ok R /\
    getLeftRoutingTableNeighborChildrenLeftToRight example_RI = Ok LC /\
    getRightRoutingTableNeighborChildrenLeftToRight example_RI = Ok RC /\
    pos_key <$> L = std_sort key_ltb (at_fanout 2 <$> left) /\
    pos_key <$> R = std_sort key_ltb (at_fanout 2 <$> right) /\
    pos_key <$> LC = std_sort key_ltb (at_fanout 2 <$> concat (children_of 2 <$> left)) /\
    pos_key <$> RC = std_sort key_ltb (at_fanout 2 <$> concat (children_of 2 <$> right)).
Proof.
  apply (tables_split 2 6 1 0 example_RI); [lia..|apply example_tables_match|vm_compute; reflexivity].
Defined.

Lemma find_entry_linear_witness :
  find_entry (routing_table_neighbors_ example_RI) (example_node 1 1) =
    linear_find (routing_table_neighbors_ example_RI) (example_node 1 1) /\
  find_entry (routing_table_neighbor_children_ example_RI) (example_node 1 1) =
    linear_find (routing_table_neighbor_children_ example_RI) (example_node 1 1).
Proof.
  apply (find_entry_linear 2 6 1 0 example_RI (example_node 1 1)); [lia..| |].
  - apply example_RI_reachable.
  - vm_compute. reflexivity.
Defined.

Lemma update_then_get_witness :
  exists s' e, updateNeighbor (example_node 1 1) example_RI = (Ok tt, s') /\
    getNodeInfoByPosition 1 1 s' = Ok e /\
    pos_key e = pos_key (example_node 1 1) /\ p_node_info_ e = localhost.
Proof.
  apply (update_then_get 2 6 1 0 example_RI (example_node 1 1)); [lia..| | | |].
  - apply example_RI_reachable.
  - vm_compute. reflexivity.
  - vm_compute. reflexivity.
  - vm_compute. left.
Defined.

End Example.
