(* ===== verification/RoutingQueries.v ===== *)
(** * Queries on the routing information

    What the derived queries of [routing_information_general_helper.cpp] answer: the lowest
    known node, the merge of node vectors, the covering DSN, and the views after a reset. *)

From S2P Require Import Prelude RoutingCalculations TreeMapper NodeInfo RoutingInformation RoutingInvariants RoutingLookup.

(** ** Merging node vectors *)

Section Combine.
Context `{Inet}.

(** [combine_step] either keeps the positions or appends a new one. *)
Lemma combine_step_keys v x :
  pos_key <$> combine_step v x =
    (pos_key <$> v) ++ (if decide (pos_key x ∈ pos_key <$> v) then [] else [pos_key x]).
Proof.
  unfold combine_step. destruct (find_index _ _) as [i|] eqn:E.
  - apply find_index_Some in E as (y & Hy & Hk%same_position_key & _). rewrite Hy.
    rewrite decide_True by (rewrite Hk; apply list_elem_of_fmap_2; by eapply list_elem_of_lookup_2).
    rewrite app_nil_r. case_match; [|done]. rewrite list_fmap_insert. apply list_insert_id.
    by rewrite list_lookup_fmap, Hy.
  - rewrite find_index_None in E. rewrite decide_False; [by rewrite fmap_app|].
    intros (y & Hk & Hy)%list_elem_of_fmap. specialize (E y Hy).
    apply not_true_iff_false in E. apply E. by apply same_position_key.
Qed.

(** The address known for a position. *)
Definition address_known (k : key) (v : list NodeInfo) : Prop :=
  exists y, y ∈ v /\ pos_key y = k /\ Node.isInitialized y = true.

Lemma setPhysical_pos_key p n : pos_key (Node.setPhysicalNodeInfo p n) = pos_key n.
Proof. done. Qed.

Lemma combine_step_keeps v x k : address_known k v -> address_known k (combine_step v x).
Proof.
  intros (y & Hy & Hk & Hi). unfold combine_step. destruct (find_index _ _) as [i|] eqn:E.
  - apply find_index_Some in E as (z & Hz & _). rewrite Hz. case_match; [|by exists y].
    apply list_elem_of_lookup_1 in Hy as [j Hj]. exists y. split; [|done].
    destruct (decide (i = j)) as [->|].
    + simplify_eq. unfold Node.isInitialized in Hi. apply andb_prop in Hi as [_ Hi].
      by rewrite Hi, andb_false_r in *.
    + apply (list_elem_of_lookup_2 _ j). by rewrite list_lookup_insert_ne.
  - exists y. split; [set_solver|done].
Qed.

Lemma combine_step_learns v x :
  Node.isInitialized x = true -> address_known (pos_key x) (combine_step v x).
Proof.
  intros Hx. unfold combine_step. destruct (find_index _ _) as [i|] eqn:E.
  - apply find_index_Some in E as (z & Hz & Hk%same_position_key & _). rewrite Hz.
    pose proof Hx as Hx'. unfold Node.isInitialized in Hx'. apply andb_prop in Hx' as [Hxl Hxp].
    assert (Hzv : Node.isValidPeer z = true) by (injection Hk as _ _ _ Hv; by rewrite <- Hv).
    rewrite Hzv, Hxp. destruct (Physical.isInitialized (p_node_info_ z)) eqn:Ez; simpl.
    + exists z. split; [by eapply list_elem_of_lookup_2|]. split; [done|].
      unfold Node.isInitialized, Node.isValidPeer in *. by rewrite Hzv, Ez.
    + eexists. split; [eapply (list_elem_of_lookup_2 _ i), list_lookup_insert_eq; by eapply lookup_lt_Some|].
      split; [done|]. unfold Node.isInitialized, Node.isValidPeer in *. simpl. by rewrite Hzv, Hxp.
  - exists x. split; [set_solver|done].
Qed.

Lemma combine_keys v1 v2 k :
  k ∈ pos_key <$> foldl combine_step v2 v1 <-> k ∈ pos_key <$> v1 \/ k ∈ pos_key <$> v2.
Proof.
  revert v2; induction v1 as [|x v1 IH]; intros v2; simpl.
  - split; [by right|]. intros [Hk|]; [by apply elem_of_nil in Hk|done].
  - rewrite IH, combine_step_keys, elem_of_app, elem_of_cons.
    case_decide; rewrite ?elem_of_nil, ?list_elem_of_singleton; naive_solver.
Qed.

Lemma combine_NoDup v1 v2 : NoDup (pos_key <$> v2) -> NoDup (pos_key <$> foldl combine_step v2 v1).
Proof.
  revert v2; induction v1 as [|x v1 IH]; intros v2 Hnd; simpl; [done|]. apply IH.
  rewrite combine_step_keys. apply NoDup_app. split; [done|].
  case_decide; split; [|constructor| |apply NoDup_singleton].
  - by intros k _ ?%elem_of_nil.
  - by intros k Hk ->%list_elem_of_singleton.
Qed.

Lemma combine_keeps v1 v2 k : address_known k v2 -> address_known k (foldl combine_step v2 v1).
Proof. revert v2; induction v1 as [|x v1 IH]; intros v2 Hk; simpl; [done|]. by apply IH, combine_step_keeps. Qed.

Lemma combine_learns v1 v2 x :
  x ∈ v1 -> Node.isInitialized x = true -> address_known (pos_key x) (foldl combine_step v2 v1).
Proof.
  revert v2; induction v1 as [|y v1 IH]; intros v2 Hx Hi; [by apply elem_of_nil in Hx|]. simpl.
  apply elem_of_cons in Hx as [<-|Hx].
  - by apply combine_keeps, combine_step_learns.
  - by apply IH.
Qed.

End Combine.

(** [combiningNodeVectorsWithoutDuplicate] merges two vectors by position: if the second has
    no duplicate position, neither has the result; its positions are those of the two
    vectors, and it knows the address of every position one of the vectors knows it of. *)
Theorem combining_spec `{Inet} v1 v2 :
  NoDup (pos_key <$> v2) ->
  let r := combiningNodeVectorsWithoutDuplicate v1 v2 in
  NoDup (pos_key <$> r) /\
  (forall k, k ∈ pos_key <$> r <-> k ∈ pos_key <$> v1 \/ k ∈ pos_key <$> v2) /\
  (forall x, x ∈ v1 ++ v2 -> Node.isInitialized x = true -> address_known (pos_key x) r).
Proof.
  intros Hnd r. split; [by apply combine_NoDup|]. split; [intros k; apply combine_keys|].
  intros x [Hx|Hx]%elem_of_app Hi; [by apply combine_learns|].
  apply combine_keeps. by exists x.
Qed.

Section OnIpv4.
#[local] Existing Instance ipv4_only.

Lemma combining_spec_witness :
  let v1 := [example_node 1 0; example_node 1 1] in
  let v2 := [Node.setPhysicalNodeInfo Physical.default (example_node 1 1)] in
  let r := combiningNodeVectorsWithoutDuplicate v1 v2 in
  NoDup (pos_key <$> r) /\
  (forall k, k ∈ pos_key <$> r <-> k ∈ pos_key <$> v1 \/ k ∈ pos_key <$> v2) /\
  (forall x, x ∈ v1 ++ v2 -> Node.isInitialized x = true -> address_known (pos_key x) r).
Proof. intros v1 v2. apply (combining_spec v1 v2). apply NoDup_singleton. Defined.

End OnIpv4.

(** ** The lowest known node *)

Section Lowest.
Context `{Platform} `{Inet}.

Lemma first_initialized_Ok vs :
  first_initialized (Ok <$> vs) = Ok (from_option id Node.default (List.find Node.isInitialized (concat vs))).
Proof.
  induction vs as [|v vs IH]; [done|]. cbn [first_initialized fmap list_fmap concat]. mred.
  rewrite find_app. destruct (List.find _ v); [done|]. apply IH.
Qed.

(** Both views of a table together are the table. *)
Lemma range_both {A} (v : list A) i :
  i <= Z.of_nat (length v) -> exists v1 v2, range_to v i = Ok v1 /\ range_from v i = Ok v2 /\ v1 ++ v2 = v.
Proof.
  intros Hi. unfold range_to, range_from. rewrite (proj2 (Z.leb_le _ _)) by done.
  eexists _, _. split; [done|]. split; [done|]. apply take_drop.
Qed.

Lemma find_Some_elem {A} (p : A -> bool) v x : List.find p v = Some x -> x ∈ v /\ p x = true.
Proof. intros [Hx Hp]%List.find_some. split; [by apply list_elem_of_In|done]. Qed.

Lemma find_is_Some {A} (p : A -> bool) v x : x ∈ v -> p x = true -> exists y, List.find p v = Some y.
Proof.
  intros Hx Hp. destruct (List.find p v) eqn:E; [eauto|].
  apply list_elem_of_In in Hx. pose proof (List.find_none _ _ E x Hx). congruence.
Qed.

Lemma lower_of_cases a b : lower_of a b = a /\ Node.isInitialized a = true \/ lower_of a b = b.
Proof. unfold lower_of. case_match; [left|by right]. by apply andb_prop in H1 as [? _]. Qed.

Definition deeper (n m : NodeInfo) : Prop := Node.getLevel m < Node.getLevel n.

(** If one of two adjacent nodes is deeper than a level, so is the one that is kept. *)
Lemma lower_of_deeper lev a b :
  (Node.isInitialized a = true /\ lev < Node.getLevel a) \/
  (Node.isInitialized b = true /\ lev < Node.getLevel b) ->
  Node.isInitialized (lower_of a b) = true /\ lev < Node.getLevel (lower_of a b).
Proof.
  unfold lower_of. intros Hab. destruct (Node.isInitialized a) eqn:Ea; simpl; [|naive_solver].
  destruct (Node.isInitialized b) eqn:Eb; simpl; [|naive_solver].
  unfold Logical.isDeeperThanOrSameLevel.
  unfold Node.isInitialized in Ea, Eb. apply andb_prop in Ea as [Ea Ea'], Eb as [Eb Eb'].
  rewrite Ea, Eb. simpl. unfold Node.isInitialized, Node.getLevel in *.
  destruct (Z.leb_spec (level_ (l_node_info_ b)) (level_ (l_node_info_ a))).
  - rewrite Ea, Ea'. split; [done|]. lia.
  - rewrite Eb, Eb'. split; [done|]. lia.
Qed.

Lemma isDeeperThan_level a s :
  Node.isInitialized a = true -> Node.isValidPeer s = true ->
  Logical.isDeeperThan (l_node_info_ a) (l_node_info_ s) = (Node.getLevel s <? Node.getLevel a).
Proof.
  unfold Node.isInitialized, Node.isValidPeer, Logical.isDeeperThan. intros [-> _]%andb_prop ->. done.
Qed.

(** Every link of the node but its parent. *)
Definition lower_links (s : RoutingInformation) : list NodeInfo :=
  [adjacent_left_ s; adjacent_right_ s] ++ children_ s ++ routing_table_neighbor_children_ s ++
  routing_table_neighbors_ s.

(** The search of [getLowestNode] after the adjacent nodes, given that the views are in
    bounds. *)
Lemma search_lists s :
  right_table_neighbor_start_index_ s <= Z.of_nat (length (routing_table_neighbors_ s)) ->
  children_start s <= Z.of_nat (length (routing_table_neighbor_children_ s)) ->
  exists below same,
    first_initialized
      [ getLeftRoutingTableNeighborChildrenRightToLeft s;
        getRightRoutingTableNeighborChildrenLeftToRight s;
        Ok (children_ s);
        getLeftRoutingTableNeighborsRightToLeft s;
        getRightRoutingTableNeighborsLeftToRight s ] =
      Ok (from_option id Node.default (List.find Node.isInitialized (below ++ same))) /\
    (forall x, x ∈ below <-> x ∈ routing_table_neighbor_children_ s ++ children_ s) /\
    (forall x, x ∈ same <-> x ∈ routing_table_neighbors_ s).
Proof.
  intros Hn Hk. destruct (range_both _ _ Hn) as (L & R & HL & HR & HLR).
  destruct (range_both _ _ Hk) as (LC & RC & HLC & HRC & HLRC).
  exists (reverse LC ++ RC ++ children_ s), (reverse L ++ R). split.
  - unfold getLeftRoutingTableNeighborChildrenRightToLeft, getRightRoutingTableNeighborChildrenLeftToRight,
      getLeftRoutingTableNeighborsRightToLeft, getRightRoutingTableNeighborsLeftToRight,
      getLeftRoutingTableNeighborChildrenLeftToRight, getLeftRoutingTableNeighborsLeftToRight.
    rewrite HL, HR, HLC, HRC. mred.
    etrans; [apply (first_initialized_Ok [reverse LC; RC; children_ s; reverse L; R])|].
    simpl. by rewrite app_nil_r, <- !app_assoc.
  - rewrite <- HLR, <- HLRC. split; intros x; rewrite !elem_of_app, elem_of_reverse; tauto.
Qed.
Lemma lowest_search s lev below same :
  (forall x, x ∈ below <-> x ∈ routing_table_neighbor_children_ s ++ children_ s) ->
  (forall x, x ∈ same <-> x ∈ routing_table_neighbors_ s) ->
  (forall x, x ∈ below -> Node.getLevel x = lev + 1) ->
  let r := from_option id Node.default (List.find Node.isInitialized (below ++ same)) in
  (r = Node.default \/ Node.isInitialized r = true /\ r ∈ lower_links s) /\
  (forall x, x ∈ below -> Node.isInitialized x = true -> lev < Node.getLevel r).
Proof.
  intros Hb Hs Hlev r. split.
  - subst r. destruct (List.find _ _) as [y|] eqn:E; [right|by left]. simpl.
    apply find_Some_elem in E as [Hy Hi]. split; [done|]. unfold lower_links.
    rewrite !elem_of_app. apply elem_of_app in Hy as [Hy%Hb|Hy%Hs]; [|tauto].
    apply elem_of_app in Hy. tauto.
  - intros x Hx Hi. subst r. rewrite find_app.
    destruct (find_is_Some _ _ _ Hx Hi) as [y Hy]. rewrite Hy. simpl.
    apply find_Some_elem in Hy as [Hy _]. rewrite (Hlev y Hy). lia.
Qed.

Context (f depth : Z) `{!OrderedLevels f depth} (l n : Z).
Context (Hl : 0 <= l) (Hdepth : l + 1 <= depth) (Hn : 0 <= n).

Lemma views_in_bounds s :
  tables_match s -> pos_key (self_node_info_ s) = (l, n, f, true) ->
  right_table_neighbor_start_index_ s <= Z.of_nat (length (routing_table_neighbors_ s)) /\
  children_start s <= Z.of_nat (length (routing_table_neighbor_children_ s)).
Proof.
  intros Hm Hself.
  destruct (tables_match_at f depth l n Hl Hdepth Hn s Hm Hself)
    as (left & right & HL & HR & Hi & Ht & Hk & _). injection Hself as _ _ Hf _.
  rewrite (children_start_at f depth l n Hl Hdepth s left HL Hi Hf), Hi.
  rewrite <- (length_fmap pos_key (routing_table_neighbors_ s)), Ht.
  rewrite <- (length_fmap pos_key (routing_table_neighbor_children_ s)), Hk.
  rewrite !(Permutation_length (std_sort_Permutation _ _)), !length_fmap, fmap_app, concat_app, !length_app.
  lia.
Qed.

Lemma below_level s x :
  tables_match s -> pos_key (self_node_info_ s) = (l, n, f, true) ->
  x ∈ routing_table_neighbor_children_ s ++ children_ s -> Node.getLevel x = l + 1.
Proof.
  intros Hm Hself Hx.
  destruct (tables_match_at f depth l n Hl Hdepth Hn s Hm Hself)
    as (left & right & HL & HR & _ & _ & Hk & Hc & _). apply elem_of_app in Hx as [Hx|Hx].
  - eapply table_on_level in Hx as (m & Hx & _); [|done|].
    + by injection Hx.
    + apply (children_on_level f l Hl (left ++ right)).
      intros p. by apply (key_neighbors_bound f depth l n).
  - apply (level_of_key _ _ _ Hc) in Hx as (p & Hp & -> & _). by apply children_of_level in Hp.
Qed.

Lemma same_level s x :
  tables_match s -> pos_key (self_node_info_ s) = (l, n, f, true) ->
  x ∈ routing_table_neighbors_ s -> Node.getLevel x = l.
Proof.
  intros Hm Hself Hx.
  destruct (tables_match_at f depth l n Hl Hdepth Hn s Hm Hself) as (left & right & HL & HR & _ & Ht & _).
  eapply table_on_level in Hx as (m & Hx & _); [by injection Hx|done|].
  by apply (neighbors_on_level f depth l n).
Qed.

(** The search through the tables. *)
Lemma search_spec s :
  tables_match s -> pos_key (self_node_info_ s) = (l, n, f, true) ->
  exists r, first_initialized
      [ getLeftRoutingTableNeighborChildrenRightToLeft s;
        getRightRoutingTableNeighborChildrenLeftToRight s;
        Ok (children_ s);
        getLeftRoutingTableNeighborsRightToLeft s;
        getRightRoutingTableNeighborsLeftToRight s ] = Ok r /\
    (r = Node.default \/ Node.isInitialized r = true /\ r ∈ lower_links s) /\
    (forall x, x ∈ children_ s ++ routing_table_neighbor_children_ s ++ routing_table_neighbors_ s ->
       Node.isInitialized x = true -> l < Node.getLevel x -> l < Node.getLevel r).
Proof.
  intros Hm Hself. destruct (views_in_bounds s Hm Hself) as [Hb1 Hb2].
  destruct (search_lists s Hb1 Hb2) as (below & same & Hsearch & Hbelow & Hsame).
  destruct (lowest_search s l below same Hbelow Hsame) as [Hr1 Hr2].
  { intros x Hx%Hbelow. by apply (below_level s). }
  eexists. split; [done|]. split; [exact Hr1|]. intros x Hx Hi Hlt.
  rewrite !elem_of_app in Hx. destruct Hx as [Hx|[Hx|Hx]].
  - apply (Hr2 x); [|done]. apply Hbelow, elem_of_app. by right.
  - apply (Hr2 x); [|done]. apply Hbelow, elem_of_app. by left.
  - pose proof (same_level s x Hm Hself Hx). lia.
Qed.
End Lowest.

(** The adjacent node [getLowestNode] starts from. *)
Section Adjacent.
Context `{Inet}.

Definition lowest_adjacent (s : RoutingInformation) : NodeInfo :=
  lower_of (adjacent_right_ s) (lower_of (adjacent_left_ s) Node.default).

Lemma lowest_adjacent_deeper s lev x :
  x ∈ [adjacent_left_ s; adjacent_right_ s] -> Node.isInitialized x = true -> lev < Node.getLevel x ->
  Node.isInitialized (lowest_adjacent s) = true /\ lev < Node.getLevel (lowest_adjacent s).
Proof.
  intros Hx Hi Hlt. apply lower_of_deeper. rewrite !elem_of_cons in Hx.
  destruct Hx as [->|[->|Hx%elem_of_nil]]; [right|by left|done]. apply lower_of_deeper. by left.
Qed.

Lemma lowest_adjacent_link s :
  Node.isInitialized (lowest_adjacent s) = true -> lowest_adjacent s ∈ lower_links s.
Proof.
  unfold lowest_adjacent, lower_links. intros Hi.
  destruct (lower_of_cases (adjacent_right_ s) (lower_of (adjacent_left_ s) Node.default))
    as [[-> _]|Hlo]; [set_solver|]. rewrite Hlo in *.
  destruct (lower_of_cases (adjacent_left_ s) Node.default) as [[-> _]|Hlo2]; [set_solver|].
  by rewrite Hlo2 in Hi.
Qed.
End Adjacent.

(** On a node whose tables are built, [getLowestNode] returns, and what it returns is the default
    node or an initialised link of the node; whenever any link (an adjacent node, a child, a
    child of a routing-table neighbour) is known below our level, the result is below our level. *)
Theorem getLowestNode_spec `{Platform} `{Inet} f depth `{!OrderedLevels f depth} l n s :
  0 <= l -> l + 1 <= depth -> 0 <= n -> tables_match s ->
  pos_key (self_node_info_ s) = (l, n, f, true) ->
  exists r, getLowestNode s = Ok r /\
    (r = Node.default \/ Node.isInitialized r = true /\ r ∈ lower_links s) /\
    (forall x, x ∈ lower_links s -> Node.isInitialized x = true -> l < Node.getLevel x ->
       l < Node.getLevel r).
Proof.
  intros Hl Hd Hn Hm Hself.
  destruct (search_spec f depth l n Hl Hd Hn s Hm Hself) as (r & Hr & Hr1 & Hr2).
  pose proof Hself as Hs. injection Hs as Hsl _ _ Hsv.
  unfold getLowestNode. rewrite Hr. fold (lowest_adjacent s).
  destruct (Node.isInitialized (lowest_adjacent s) &&
            Logical.isDeeperThan (l_node_info_ (lowest_adjacent s)) (l_node_info_ (self_node_info_ s))) eqn:E.
  - apply andb_prop in E as [Ei Ed]. rewrite (isDeeperThan_level _ _ Ei Hsv), Hsl, Z.ltb_lt in Ed.
    eexists. split; [done|]. split; [|done]. right. split; [done|by apply lowest_adjacent_link].
  - exists r. split; [done|]. split; [done|]. intros x Hx Hi Hlt.
    apply elem_of_app in Hx as [Hx|Hx]; [|by apply (Hr2 x)].
    destruct (lowest_adjacent_deeper s l x Hx Hi Hlt) as [Ei Ed].
    rewrite Ei, (isDeeperThan_level _ _ Ei Hsv), Hsl in E. simpl in E. lia.
Qed.

Section Example.
#[local] Existing Instance x86_64.
#[local] Existing Instance ipv4_only.
#[local] Existing Instance binary_levels.

Lemma getLowestNode_spec_witness :
  exists r, getLowestNode example_RI = Ok r /\
    (r = Node.default \/ Node.isInitialized r = true /\ r ∈ lower_links example_RI) /\
    (forall x, x ∈ lower_links example_RI -> Node.isInitialized x = true -> 1 < Node.getLevel x ->
       1 < Node.getLevel r).
Proof.
  apply (getLowestNode_spec 2 6 1 0 example_RI);
    [lia..|apply example_tables_match|vm_compute; reflexivity].
Defined.

End Example.

(** ** After a reset *)

Lemma emptied_views `{Inet} s' :
  routing_table_neighbors_ s' = [] -> routing_table_neighbor_children_ s' = [] ->
  children_ s' = [] -> adjacent_left_ s' = Node.default -> adjacent_right_ s' = Node.default ->
  0 < right_table_neighbor_start_index_ s' -> Node.getFanout (self_node_info_ s') = 0 ->
  getLeftRoutingTableNeighborsLeftToRight s' = Undefined /\
  getRightRoutingTableNeighborsLeftToRight s' = Undefined /\
  getDirectLeftNeighbor s' = Undefined /\ getLowestNode s' = Undefined.
Proof.
  intros Hn Hk Hc Hl Hr Hpos Hf.
  unfold getLowestNode, getDirectLeftNeighbor, getLeftRoutingTableNeighborChildrenRightToLeft,
    getLeftRoutingTableNeighborChildrenLeftToRight, getRightRoutingTableNeighborChildrenLeftToRight,
    getLeftRoutingTableNeighborsRightToLeft, getLeftRoutingTableNeighborsLeftToRight,
    getRightRoutingTableNeighborsLeftToRight, children_start, range_to, range_from.
  rewrite Hn, Hk, Hc, Hl, Hr, Hf, Z.mul_0_r. simpl.
  rewrite (proj2 (Z.leb_gt _ _)) by done. done.
Qed.

(** [clearRoutingTable] empties the vectors but keeps [right_table_neighbor_start_index_]. After
    [resetPosition] on a node with left neighbours, the views of the routing table advance past
    the end of the empty vector, and so does [getLowestNode]. *)
Theorem resetPosition_views_undefined `{Inet} s :
  0 < right_table_neighbor_start_index_ s ->
  let s' := (resetPosition s).2 in
  getLeftRoutingTableNeighborsLeftToRight s' = Undefined /\
  getRightRoutingTableNeighborsLeftToRight s' = Undefined /\
  getDirectLeftNeighbor s' = Undefined /\ getLowestNode s' = Undefined.
Proof.
  intros Hi. unfold resetPosition, clearRoutingTable. rewrite bind_gets, bind_modify.
  destruct s. mred. unfold notifyNodeInfoChange. case_match; by apply emptied_views.
Qed.

Section Example.
#[local] Existing Instance x86_64.
#[local] Existing Instance ipv4_only.

(** 1:1 of a binary tree has the left neighbour 1:0. *)
Definition example_right : RoutingInformation :=
  match construct_RI (example_node 1 1) with Ok s => s | _ => default_RI end.

Lemma resetPosition_views_undefined_witness :
  let s' := (resetPosition example_right).2 in
  getLeftRoutingTableNeighborsLeftToRight s' = Undefined /\
  getRightRoutingTableNeighborsLeftToRight s' = Undefined /\
  getDirectLeftNeighbor s' = Undefined /\ getLowestNode s' = Undefined.
Proof. apply (resetPosition_views_undefined example_right). vm_compute. reflexivity. Defined.

End Example.

(** ** The covering DSN of a node *)

(** When the covering DSN on our own level is not known and is not the first DSN of the level,
    [getCoveringDSNOrTempDSN] means to return the DSN before it, but searches the vector from
    [covering_number - 1] upwards, which is the covering DSN itself. *)
Theorem getCoveringDSNOrTempDSN_not_before `{Platform} `{Inet} s l n f D k d node :
  valid_fanout f -> level_fits l f -> 1 < l -> l mod 2 = 0 ->
  pos_key (self_node_info_ s) = (l, n, f, true) ->
  getDSNSet l f = Ok D -> D !! S k = Some d -> getCoveringDSN l n f = Ok (l, d) ->
  getNodeInfoByPosition l d s = Ok node -> Node.isInitialized node = false ->
  getCoveringDSNOrTempDSN s = Node.of_position l d f.
Proof.
  intros Hf Hfit Hl Heven Hself HD Hd Hcov Hnode Hinit. injection Hself as Hsl Hsn Hsf _.
  unfold getCoveringDSNOrTempDSN. rewrite Hsl, Hsn, Hsf, Hcov. mred. rewrite Hnode, Hinit, Z.eqb_refl. simpl.
  rewrite HD. rewrite getDSNSet_form in HD by done. injection HD as <-. fold (dsns l f) in *.
  assert (Hinc : increasing_at (dsns l f)) by by apply dsns_increasing.
  assert (Hb : 0 < d < f ^ l) by by eapply dsns_bounds.
  destruct (lookup_lt_is_Some_2 (dsns l f) 0) as [first Hfirst];
    [apply lookup_lt_Some in Hd; lia|].
  destruct (lookup_lt_is_Some_2 (dsns l f) k) as [prev Hprev];
    [apply lookup_lt_Some in Hd; lia|].
  rewrite (proj2 (vec_at_Ok _ _ _) Hfirst).
  pose proof (Hinc 0%nat (S k) first d ltac:(lia) Hfirst Hd).
  rewrite (proj2 (Z.eqb_neq _ _)) by lia.
  rewrite u32_id by (destruct Hfit; unfold in_u32; lia).
  pose proof (Hinc k (S k) prev d ltac:(lia) Hprev Hd).
  assert (Hgap : (d - prev) mod 2 = 0) by by eapply dsns_even_gap.
  assert (prev <> d - 1) by (intros ->; replace (d - (d - 1)) with 1 in Hgap by lia; done).
  rewrite (lower_bound_at (dsns l f) (d - 1) (S k)); [by rewrite (proj2 (vec_at_Ok _ _ _) Hd)|done| | |].
  - apply lookup_lt_Some in Hd. lia.
  - intros x _ Hx. simpl in Hx. rewrite Nat.sub_0_r in Hx. assert (x = prev) as -> by congruence. lia.
  - intros x Hx. assert (x = d) as -> by congruence. lia.
Qed.

Section CoveringExample.
#[local] Existing Instance x86_64.
#[local] Existing Instance ipv4_only.

(** 4:5 of a binary tree, whose level has the DSNs 2, 6, 10 and 14, does not know its covering
    DSN 4:6. *)
Definition covered_node : RoutingInformation :=
  match construct_RI (example_node 4 5) with Ok s => s | _ => default_RI end.

Lemma getCoveringDSNOrTempDSN_not_before_witness :
  getCoveringDSNOrTempDSN covered_node = Node.of_position 4 6 2.
Proof.
  apply (getCoveringDSNOrTempDSN_not_before covered_node 4 5 2 [2; 6; 10; 14] 0 6 Node.default);
    try (vm_compute; reflexivity); unfold valid_fanout, level_fits; vm_compute; intuition congruence.
Defined.

End CoveringExample.
