(* ===== verification/Containers.v ===== *)
(** * Containers of the C++ library

    What the entity search uses of [std::unordered_map], [std::queue] and the algorithms on
    vectors: hash maps are walked in an order the library does not promise, which is a
    parameter; a map whose key type has its own [operator==] is an association list. *)

From S2P Require Import Prelude.

(** The order in which a [std::unordered_map] is walked: any order of its entries. *)
Class Unordered := {
  walk : forall {A : Type}, list A -> list A;
  walk_Permutation : forall A (l : list A), walk l ≡ₚ l;
}.

(** Walking in the order the entries are listed in: one possible library. *)
Definition in_order : Unordered := {| walk := fun _ l => l; walk_Permutation := fun _ l => Permutation_refl l |}.

Lemma elem_of_walk `{Unordered} {A} (x : A) l : x ∈ walk l <-> x ∈ l.
Proof. by rewrite walk_Permutation. Qed.

Lemma walk_nil `{Unordered} {A} (l : list A) : walk l = [] <-> l = [].
Proof.
  split; intros Hl; [|subst; apply Permutation_nil; by rewrite walk_Permutation].
  apply Permutation_nil. by rewrite <- Hl, walk_Permutation.
Qed.

(** ** Maps whose keys are compared by a function *)
Section Assoc.
Context {K V : Type} (eqb : K -> K -> bool).

Fixpoint assoc_find (k : K) (m : list (K * V)) : option V :=
  match m with
  | [] => None
  | (k', v) :: m' => if eqb k' k then Some v else assoc_find k m'
  end.

(** [m[k] = v] *)
Fixpoint assoc_assign (k : K) (v : V) (m : list (K * V)) : list (K * V) :=
  match m with
  | [] => [(k, v)]
  | (k', v') :: m' => if eqb k' k then (k', v) :: m' else (k', v') :: assoc_assign k v m'
  end.

(** [m.erase(m.find(k))] *)
Fixpoint assoc_erase (k : K) (m : list (K * V)) : list (K * V) :=
  match m with
  | [] => []
  | (k', v') :: m' => if eqb k' k then m' else (k', v') :: assoc_erase k m'
  end.

(** [NodesWithAttributes(first, last)]: of entries with equal keys the first is kept. *)
Definition assoc_of_range (l : list (K * V)) : list (K * V) :=
  foldl (fun m '(k, v) => if assoc_find k m then m else m ++ [(k, v)]) [] l.

Lemma assoc_find_Some k m v : assoc_find k m = Some v -> exists k', (k', v) ∈ m /\ eqb k' k = true.
Proof.
  induction m as [|[k' v'] m IH]; cbn; [done|]. destruct (eqb k' k) eqn:E.
  - intros [= ->]. exists k'. split; [left|done].
  - intros (k2 & Hk & Hv)%IH. exists k2. split; [by right|done].
Qed.

Lemma assoc_assign_keys k v m k' v' :
  (k', v') ∈ assoc_assign k v m -> (k', v') ∈ m \/ v' = v /\ (k' = k \/ k' ∈ m.*1 /\ eqb k' k = true).
Proof.
  induction m as [|[k2 v2] m IH]; cbn.
  - intros [= -> ->]%list_elem_of_singleton. auto.
  - destruct (eqb k2 k) eqn:E.
    + intros [[= -> ->]|Hin]%elem_of_cons; [|left; by right].
      right. split; [done|]. right. split; [left|done].
    + intros [[= -> ->]|[Hin|(-> & [->|[Hin He]])]%IH]%elem_of_cons.
      * left. left.
      * left. by right.
      * auto.
      * right. split; [done|]. right. split; [by right|done].
Qed.

Lemma assoc_erase_subset k m : assoc_erase k m ⊆ m.
Proof.
  induction m as [|[k' v'] m IH]; cbn; [done|]. destruct (eqb k' k); [by intros x Hx; right|].
  intros x [->|Hx]%elem_of_cons; [left|right; by apply IH].
Qed.

Lemma assoc_find_None k m : assoc_find k m = None <-> forall k' v, (k', v) ∈ m -> eqb k' k = false.
Proof.
  induction m as [|[k' v'] m IH]; cbn; [split; [set_solver|done]|].
  destruct (eqb k' k) eqn:E; split; intros H; try done.
  - specialize (H k' v' ltac:(left)). congruence.
  - intros k2 v [[= -> ->]|Hin]%elem_of_cons; [done|]. by apply IH with v.
  - apply IH. intros k2 v Hin. apply (H k2 v). by right.
Qed.

Lemma assoc_find_assign k v m : (forall k', eqb k' k' = true) -> assoc_find k (assoc_assign k v m) = Some v.
Proof.
  intros Hr. induction m as [|[k' v'] m IH]; cbn; [by rewrite Hr|].
  destruct (eqb k' k) eqn:E; cbn; by rewrite E.
Qed.

Lemma assoc_find_assign_ne k1 k2 v m :
  (forall a, eqb a k1 = true -> eqb a k2 = false) -> eqb k1 k2 = false ->
  assoc_find k2 (assoc_assign k1 v m) = assoc_find k2 m.
Proof.
  intros Hne H12. induction m as [|[k' v'] m IH]; cbn; [by rewrite H12|].
  destruct (eqb k' k1) eqn:E; cbn; [by rewrite (Hne _ E)|]. destruct (eqb k' k2); [done|apply IH].
Qed.

End Assoc.

(** ** Strings in order *)

(** [operator<] on [std::string]: bytes are compared as unsigned numbers. *)
Definition string_lt (s t : string) : bool := bool_decide (String.compare s t = Lt).

(** [v.erase(std::unique(v.begin(), v.end(), same), v.end())]: of neighbouring equal elements
    the first is kept. *)
Section Unique.
Context {A : Type} (same : A -> A -> bool).

Fixpoint unique_from (x : A) (l : list A) : list A :=
  match l with
  | [] => [x]
  | y :: l' => if same x y then unique_from x l' else x :: unique_from y l'
  end.

Definition std_unique (l : list A) : list A := match l with [] => [] | x :: l' => unique_from x l' end.

Lemma unique_from_subset x l : unique_from x l ⊆ x :: l.
Proof.
  revert x. induction l as [|y l IH]; intros x; cbn; [done|]. destruct (same x y).
  - intros z [->|Hz]%IH%elem_of_cons; [left|right; by right].
  - intros z [->|Hz]%elem_of_cons; [left|right; by apply IH].
Qed.

Lemma std_unique_subset l : std_unique l ⊆ l.
Proof. destruct l; [done|apply unique_from_subset]. Qed.

Lemma unique_from_nonempty x l : unique_from x l <> [].
Proof. revert x. induction l as [|y l IH]; intros x; cbn; [done|]. by destruct (same x y). Qed.

Lemma std_unique_nil l : std_unique l = [] <-> l = [].
Proof. destruct l; cbn; [done|]. split; [|done]. intros H. by apply unique_from_nonempty in H. Qed.

Lemma unique_from_complete x l : (forall a b, same a b = true -> a = b) -> x :: l ⊆ unique_from x l.
Proof.
  intros He. revert x. induction l as [|y l IH]; intros x; cbn; [done|].
  destruct (same x y) eqn:E.
  - apply He in E as <-. intros z [->|[->|Hz]%elem_of_cons]%elem_of_cons; apply IH; [left..|by right].
  - intros z [->|Hz]%elem_of_cons; [left|right; by apply IH].
Qed.
End Unique.

(** [std::sort] and [std::unique] on keys: the set of the keys as a vector. *)
Definition sort_unique (keys : list string) : list string :=
  std_unique String.eqb (std_sort string_lt keys).

Lemma elem_of_sort_unique x keys : x ∈ sort_unique keys <-> x ∈ keys.
Proof.
  unfold sort_unique. rewrite <- (std_sort_Permutation string_lt keys) at 2. split; [apply std_unique_subset|].
  destruct (std_sort string_lt keys) as [|y l]; [done|].
  apply unique_from_complete. by intros ? ? ?%String.eqb_eq.
Qed.

Lemma sort_unique_nil keys : sort_unique keys = [] <-> keys = [].
Proof.
  unfold sort_unique. rewrite std_unique_nil. split; intros Hn; [|by subst].
  apply Permutation_nil. by rewrite <- Hn, std_sort_Permutation.
Qed.

(** Every element is at most the later ones. *)
Fixpoint ascending (l : list Z) : Prop :=
  match l with
  | x :: ((y :: _) as l') => x <= y /\ ascending l'
  | _ => True
  end.

Lemma ascending_tail x l : ascending (x :: l) -> ascending l.
Proof. destruct l; [done|]. by intros [_ ?]. Qed.

Lemma ascending_snoc l x y : ascending l -> last l = Some y -> y <= x -> ascending (l ++ [x]).
Proof.
  induction l as [|a [|b l] IH]; intros Ha Hl Hxy; [done|cbn in *; simplify_eq; lia|].
  destruct Ha as [Hab Ha]. split; [done|]. by apply IH.
Qed.
