(* ===== verification/NodeData.v ===== *)
(** * Attributes of nodes

    Model of [algorithms/esearch/node_data.cpp], [local_data.cpp] and [distributed_data.cpp]:
    the attributes a node has itself ([LocalData], with the nodes that subscribed to them) and
    what a data-storing node remembers of another node's ([DistributedData], with the times of
    the last updates). [EvaluatedData] is the reference to either through the base class. *)

From Stdlib Require Import SpecFloat.
From S2P Require Import Prelude NodeInfo Containers.

(** ** Values *)

(** [float]: IEEE-754 binary32. *)
Abbreviation float := spec_float.
Definition f_of_Z (z : Z) : float := binary_normalize 24 128 z 0 false.

Inductive ValueType := kValueDynamic | kValueStatic.

#[export] Instance ValueType_eq_dec : EqDecision ValueType.
Proof. solve_decision. Defined.

(** [std::variant<int, float, bool, std::string>] *)
Inductive Value :=
| Value_int (i : Z)
| Value_float (f : float)
| Value_bool (b : bool)
| Value_string (s : string).

(** [operator==] of the variant: the same alternative with equal contents. *)
Definition Value_eqb (v1 v2 : Value) : bool :=
  match v1, v2 with
  | Value_int i1, Value_int i2 => i1 =? i2
  | Value_float f1, Value_float f2 => SFeqb f1 f2
  | Value_bool b1, Value_bool b2 => Bool.eqb b1 b2
  | Value_string s1, Value_string s2 => String.eqb s1 s2
  | _, _ => false
  end.

Abbreviation Key := string.
Abbreviation ValueTimestampAndType := (Value * Z * ValueType)%type.

(** What [operator[]] enters for a missing key. *)
Definition default_entry : ValueTimestampAndType := (Value_int 0, 0, kValueDynamic).

(** ** The base class *)
Module Data.

Record NodeData := { data_ : gmap Key ValueTimestampAndType }.

Definition empty : NodeData := {| data_ := ∅ |}.

Definition hasKey (key : Key) (d : NodeData) : bool := bool_decide (is_Some (data_ d !! key)).

Definition insert (key : Key) (entry : ValueTimestampAndType) : M NodeData bool :=
  d ← get;
  if hasKey key d then mret false
  else modify (fun d => {| data_ := <[key := entry]> (data_ d) |});; mret true.

Definition update (key : Key) (entry : ValueTimestampAndType) : M NodeData bool :=
  d ← get;
  match data_ d !! key with
  | Some old =>
      throw_if (negb (bool_decide (old.2 = entry.2))) (invalid_argument "value types need to stay the same");;
      if bool_decide (old.2 = kValueStatic) then
        if Value_eqb old.1.1 entry.1.1 then mret true
        else throw (invalid_argument "static values cannot get updated")
      else modify (fun d => {| data_ := <[key := entry]> (data_ d) |});; mret true
  | None => mret false
  end.

Definition remove (key : Key) : M NodeData unit :=
  modify (fun d => {| data_ := delete key (data_ d) |}).

(** [data_[key]] *)
Definition getValueTimestampAndType (key : Key) : M NodeData ValueTimestampAndType :=
  d ← get;
  match data_ d !! key with
  | Some entry => mret entry
  | None => modify (fun d => {| data_ := <[key := default_entry]> (data_ d) |});; mret default_entry
  end.

Definition getValueAndTimestamp (key : Key) : M NodeData (Value * Z) :=
  entry ← getValueTimestampAndType key;
  mret entry.1.

(** [data_.at(key)] *)
Definition getValue (key : Key) (d : NodeData) : outcome Value :=
  match data_ d !! key with
  | Some entry => Ok entry.1.1
  | None => Throw (out_of_range "unordered_map::at")
  end.

Definition getData (d : NodeData) : gmap Key ValueTimestampAndType := data_ d.

Definition isValueUpToDate (key : Key) (validity_threshold_timestamp : Z) (d : NodeData) : bool := hasKey key d.

Definition getAllCurrentKeys `{Unordered} (d : NodeData) : list Key := walk (map_to_list (data_ d)).*1.

Lemma hasKey_lookup key d : hasKey key d = true <-> is_Some (data_ d !! key).
Proof. apply bool_decide_eq_true. Qed.

Lemma lookup_hasKey_false key d : hasKey key d = false <-> data_ d !! key = None.
Proof. unfold hasKey. rewrite bool_decide_eq_false. by rewrite eq_None_not_Some. Qed.

Lemma getValue_Ok key d : hasKey key d = true <-> is_Ok (getValue key d) = true.
Proof.
  rewrite hasKey_lookup. unfold getValue.
  destruct (data_ d !! key); cbn; split; intros H; first [done|by eexists|by destruct H].
Qed.

Lemma elem_of_getAllCurrentKeys `{Unordered} key d : key ∈ getAllCurrentKeys d <-> hasKey key d = true.
Proof.
  unfold getAllCurrentKeys. rewrite elem_of_walk, hasKey_lookup, list_elem_of_fmap. split.
  - intros ([k v] & -> & Hv%elem_of_map_to_list). by exists v.
  - intros [v Hv]. exists (key, v). by rewrite elem_of_map_to_list.
Qed.

(** Reading an entry that exists does not enter one. *)
Lemma getValueTimestampAndType_known key d :
  hasKey key d = true -> (getValueTimestampAndType key d).2 = d.
Proof. intros [v Hv]%hasKey_lookup. unfold getValueTimestampAndType. mred. by rewrite Hv. Qed.

(** The life of an attribute. A key that is free can be inserted but not updated; once it
    is there a second insert is refused without a change, a dynamic attribute takes every new
    value of its own type, a static one only a value equal to the one it has (and keeps its
    entry), an update that would change the type throws, and removing the key gives the
    original data back. *)
Theorem attribute_life key v1 v2 t1 t2 type type' d :
  hasKey key d = false ->
  let d1 := (insert key (v1, t1, type) d).2 in
  update key (v2, t2, type) d = (Ok false, d) /\
  insert key (v1, t1, type) d = (Ok true, d1) /\
  getValue key d1 = Ok v1 /\
  insert key (v2, t2, type') d1 = (Ok false, d1) /\
  (type' <> type -> update key (v2, t2, type') d1 = (Throw (invalid_argument "value types need to stay the same"), d1)) /\
  (type = kValueDynamic -> exists d2, update key (v2, t2, type) d1 = (Ok true, d2) /\ getValue key d2 = Ok v2 /\
     remove key d2 = (Ok tt, d)) /\
  (type = kValueStatic -> update key (v2, t2, type) d1 =
     if Value_eqb v1 v2 then (Ok true, d1)
     else (Throw (invalid_argument "static values cannot get updated"), d1)) /\
  remove key d1 = (Ok tt, d).
Proof.
  intros Hf. pose proof Hf as Hn. apply lookup_hasKey_false in Hn. destruct d as [m]. cbn [data_] in Hn.
  unfold insert, update, remove, getValue. mred. rewrite Hf. cbn [data_ snd].
  assert (Ht : forall e, hasKey key {| data_ := <[key := e]> m |} = true).
  { intros e. apply hasKey_lookup. cbn. rewrite lookup_insert_eq. by eexists. }
  cbn [data_]. rewrite !Ht. cbn [data_].
  rewrite Hn, lookup_insert_eq, delete_insert_id by done. cbn [fst snd].
  split_and!; try done.
  - intros Hne. by rewrite bool_decide_false.
  - intros ->. rewrite !bool_decide_true by done. eexists. split; [done|]. cbn [data_].
    rewrite insert_insert_eq, lookup_insert_eq, delete_insert_id by done. done.
  - intros ->. rewrite !bool_decide_true by done. cbn. by destruct (Value_eqb v1 v2).
Qed.

Lemma attribute_life_witness :
  hasKey "speed" empty = false /\
  getValue "speed" (insert "speed" (Value_int 3, 10, kValueDynamic) empty).2 = Ok (Value_int 3).
Proof.
  split; [reflexivity|].
  exact (proj1 (proj2 (proj2 (attribute_life "speed" (Value_int 3) (Value_int 4) 10 11 kValueDynamic kValueStatic
    empty eq_refl)))).
Defined.

End Data.
Import Data.

(** ** The attributes of the node itself *)

Record LocalData := {
  l_data : NodeData;
  key_subscribers_ : gmap Key (list NodeInfo);
}.

Definition set_l_data (d : NodeData) (l : LocalData) : LocalData :=
  {| l_data := d; key_subscribers_ := key_subscribers_ l |}.
Definition set_key_subscribers (m : gmap Key (list NodeInfo)) (l : LocalData) : LocalData :=
  {| l_data := l_data l; key_subscribers_ := m |}.

Module Local.

Definition empty : LocalData := {| l_data := Data.empty; key_subscribers_ := ∅ |}.

(** A function inherited from [NodeData]. *)
Definition base {A} (m : M NodeData A) : M LocalData A := zoom l_data set_l_data m.

Definition getSubscribers (key : Key) (l : LocalData) : list NodeInfo :=
  from_option id [] (key_subscribers_ l !! key).

Definition addKeySubscriber (key : Key) (subscriber : NodeInfo) : M LocalData unit :=
  l ← get;
  match key_subscribers_ l !! key with
  | Some subscribers =>
      if existsb (fun s => Node.eqb s subscriber) subscribers then mret tt
      else modify (fun l => set_key_subscribers (<[key := subscribers ++ [subscriber]]> (key_subscribers_ l)) l)
  | None => modify (fun l => set_key_subscribers (<[key := [subscriber]]> (key_subscribers_ l)) l)
  end.

Definition removeKeySubscriber (key : Key) (unsubscriber : NodeInfo) : M LocalData unit :=
  l ← get;
  match key_subscribers_ l !! key with
  | Some subscribers =>
      modify (fun l => set_key_subscribers
        (<[key := List.filter (fun s => negb (Node.eqb s unsubscriber)) subscribers]> (key_subscribers_ l)) l)
  | None => mret tt
  end.

Definition isValueUpToDate (key : Key) (validity_threshold_timestamp : Z) (l : LocalData) : bool :=
  Data.hasKey key (l_data l).

End Local.

(** ** What is known of the attributes of another node *)

Record DistributedData := {
  d_data : NodeData;
  d_p_node_info_ : PhysicalNodeInfo;
  subscription_ordered_keys_ : list Key;
  update_timestamps_ : gmap Key (list Z);
}.

Definition set_d_data (d : NodeData) (x : DistributedData) : DistributedData :=
  {| d_data := d; d_p_node_info_ := d_p_node_info_ x;
     subscription_ordered_keys_ := subscription_ordered_keys_ x; update_timestamps_ := update_timestamps_ x |}.
Definition set_update_timestamps (m : gmap Key (list Z)) (x : DistributedData) : DistributedData :=
  {| d_data := d_data x; d_p_node_info_ := d_p_node_info_ x;
     subscription_ordered_keys_ := subscription_ordered_keys_ x; update_timestamps_ := m |}.
Definition set_subscription_ordered_keys (ks : list Key) (x : DistributedData) : DistributedData :=
  {| d_data := d_data x; d_p_node_info_ := d_p_node_info_ x; subscription_ordered_keys_ := ks;
     update_timestamps_ := update_timestamps_ x |}.

Module Distributed.

Definition timestamp_storage_limit_ : Z := 5.

Definition of_address (p_node_info : PhysicalNodeInfo) : DistributedData :=
  {| d_data := Data.empty; d_p_node_info_ := p_node_info; subscription_ordered_keys_ := [];
     update_timestamps_ := ∅ |}.

Definition setPhysicalNodeInfo (p_node_info : PhysicalNodeInfo) (x : DistributedData) : DistributedData :=
  {| d_data := d_data x; d_p_node_info_ := p_node_info;
     subscription_ordered_keys_ := subscription_ordered_keys_ x; update_timestamps_ := update_timestamps_ x |}.

Definition base {A} (m : M NodeData A) : M DistributedData A := zoom d_data set_d_data m.

Definition insert (key : Key) (entry : ValueTimestampAndType) : M DistributedData bool :=
  data_inserted ← base (Data.insert key entry);
  x ← get;
  match update_timestamps_ x !! key with
  | Some _ => mret false
  | None =>
      modify (fun x => set_update_timestamps (<[key := [entry.1.2]]> (update_timestamps_ x)) x);;
      mret data_inserted
  end.

(** [queue.push(t)], and [pop] when that is more than the limit *)
Definition push_limited (limit : Z) (queue : list Z) (t : Z) : list Z :=
  let queue := queue ++ [t] in
  if limit <? Z.of_nat (length queue) then tail queue else queue.

Definition update (key : Key) (entry : ValueTimestampAndType) : M DistributedData bool :=
  data_updated ← base (Data.update key entry);
  if negb data_updated then mret false
  else
    let update_timestamp := entry.1.2 in
    x ← get;
    match update_timestamps_ x !! key with
    | Some queue =>
        latest_timestamp ← lift (back queue);
        throw_if (update_timestamp <? latest_timestamp)
          (invalid_argument "The new update timestamp cannot be from earlier");;
        modify (fun x => set_update_timestamps
          (<[key := push_limited timestamp_storage_limit_ queue update_timestamp]> (update_timestamps_ x)) x);;
        mret true
    | None => mret false
    end.

Definition remove (key : Key) : M DistributedData unit :=
  base (Data.remove key);;
  modify (fun x => set_update_timestamps (delete key (update_timestamps_ x)) x).

Definition isKeySubscribed (key : Key) (x : DistributedData) : bool :=
  bool_decide (key ∈ subscription_ordered_keys_ x).

Definition addSubscriptionOrderKey (key : Key) : M DistributedData unit :=
  x ← get;
  if isKeySubscribed key x then mret tt
  else modify (fun x => set_subscription_ordered_keys (subscription_ordered_keys_ x ++ [key]) x).

(** [erase(find(...))]: the first occurrence *)
Fixpoint erase_first (key : Key) (l : list Key) : list Key :=
  match l with
  | [] => []
  | k :: l' => if String.eqb k key then l' else k :: erase_first key l'
  end.

Definition removeSubscriptionOrderKey (key : Key) : M DistributedData unit :=
  x ← get;
  if isKeySubscribed key x
  then modify (fun x => set_subscription_ordered_keys (erase_first key (subscription_ordered_keys_ x)) x)
  else mret tt.

Definition getUpdateTimestamps (key : Key) (x : DistributedData) : list Z :=
  from_option id [] (update_timestamps_ x !! key).

(** The entry is read with [operator[]], but only behind the guard, so nothing is entered:
    [getValueTimestampAndType_known]. *)
Definition isValueUpToDate (key : Key) (validity_threshold_timestamp : Z) (x : DistributedData) : outcome bool :=
  throw_when (negb (Data.hasKey key (d_data x)))
    (logic_error "This method should not be called if the key is unknown");;
  if isKeySubscribed key x then mret true
  else
    entry ← (getValueTimestampAndType key (d_data x)).1;
    if bool_decide (entry.2 = kValueStatic) then mret true
    else mret (validity_threshold_timestamp <=? entry.1.2).

End Distributed.
Import Distributed.

(** ** The times of the updates *)

Definition queue_ok (queue : list Z) : Prop :=
  queue <> [] /\ Z.of_nat (length queue) <= timestamp_storage_limit_ /\ ascending queue.

(** Exactly the known keys have a queue, which is short and in order. *)
Definition timestamps_ok (x : DistributedData) : Prop :=
  (forall key, is_Some (data_ (d_data x) !! key) <-> is_Some (update_timestamps_ x !! key)) /\
  map_Forall (fun _ => queue_ok) (update_timestamps_ x).

Lemma push_limited_ok queue latest t :
  queue_ok queue -> last queue = Some latest -> latest <= t ->
  queue_ok (push_limited timestamp_storage_limit_ queue t).
Proof.
  unfold queue_ok, push_limited. intros (Hn & Hl & Ha) Hlast Ht.
  pose proof (ascending_snoc _ _ _ Ha Hlast Ht) as Ha'. unfold timestamp_storage_limit_ in *.
  destruct (Z.ltb_spec 5 (Z.of_nat (length (queue ++ [t])))) as [Hlt|Hle].
  - destruct queue as [|a queue]; [done|]. cbn [length app tail] in *.
    split_and!; [by destruct queue|rewrite length_app; cbn [length]; lia|].
    by eapply ascending_tail.
  - split_and!; [by destruct queue|done|done].
Qed.

Lemma keep_timestamps x d' :
  timestamps_ok x -> (forall key, is_Some (data_ d' !! key) <-> is_Some (data_ (d_data x) !! key)) ->
  timestamps_ok (set_d_data d' x).
Proof. intros [Hd Hq] Hk. split; [|done]. intros key. cbn. by rewrite Hk, Hd. Qed.

Lemma timestamps_ok_entry x key entry queue :
  timestamps_ok x -> queue_ok queue ->
  timestamps_ok (set_update_timestamps (<[key := queue]> (update_timestamps_ x))
                   (set_d_data {| data_ := <[key := entry]> (data_ (d_data x)) |} x)).
Proof.
  intros [Hd Hf] Hq. split; cbn; [|by apply map_Forall_insert_2]. intros key'.
  destruct (decide (key' = key)) as [->|Hne]; [rewrite !lookup_insert_eq; by split; eexists|].
  by rewrite !lookup_insert_ne.
Qed.

Lemma Data_update_keys key entry d key' :
  is_Some (data_ (Data.update key entry d).2 !! key') <-> is_Some (data_ d !! key').
Proof.
  unfold Data.update. mred. destruct (data_ d !! key) as [old|] eqn:E; [|done].
  destruct (negb _); [done|]. destruct (bool_decide _); [by destruct (Value_eqb _ _)|]. cbn.
  destruct (decide (key' = key)) as [->|Hne]; [rewrite lookup_insert_eq, E; by split; eexists|].
  by rewrite lookup_insert_ne.
Qed.

Lemma insert_timestamps_ok key entry x : timestamps_ok x -> timestamps_ok (Distributed.insert key entry x).2.
Proof.
  intros Hok. unfold Distributed.insert, base, Data.insert. mred. pose proof (proj1 Hok key) as Hk.
  destruct (hasKey key (d_data x)) eqn:E.
  - apply hasKey_lookup, Hk in E as [queue Hq]. cbn. rewrite Hq. by destruct x.
  - apply lookup_hasKey_false in E. cbn. rewrite E in Hk.
    destruct (update_timestamps_ x !! key) as [queue|]; [by destruct (proj2 Hk (ex_intro _ _ eq_refl))|].
    cbn. apply timestamps_ok_entry; [done|]. by split_and!.
Qed.

Lemma update_timestamps_ok key entry x :
  timestamps_ok x -> timestamps_ok (Distributed.update key entry x).2 /\ (Distributed.update key entry x).1 <> Undefined.
Proof.
  intros Hok. unfold Distributed.update, base. mred.
  pose proof (keep_timestamps x _ Hok (Data_update_keys key entry (d_data x))) as Hk.
  destruct (Data.update key entry (d_data x)) as [[updated|e|] d'] eqn:E; cbn [snd] in Hk; try by split.
  - destruct updated; [|done]. cbn. destruct (update_timestamps_ x !! key) as [queue|] eqn:Eq; [|done].
    pose proof (proj2 Hok key queue Eq) as Hq. unfold back.
    destruct (last queue) as [latest|] eqn:El; [|by apply last_None in El; destruct Hq].
    destruct (_ <? latest) eqn:Et; [done|]. split; [|done]. split; cbn.
    + intros key'. rewrite (proj1 Hk key'). cbn.
      destruct (decide (key' = key)) as [->|Hne]; [rewrite lookup_insert_eq, Eq; by split; eexists|].
      by rewrite lookup_insert_ne.
    + apply map_Forall_insert_2; [|apply Hok]. eapply push_limited_ok; [done..|lia].
  - exfalso. revert E. unfold Data.update. mred. repeat case_match; congruence.
Qed.

Lemma remove_timestamps_ok key x : timestamps_ok x -> timestamps_ok (Distributed.remove key x).2.
Proof.
  intros [Hd Hq]. unfold Distributed.remove, base, Data.remove. mred.
  split; cbn [snd data_ d_data update_timestamps_ set_update_timestamps set_d_data]; [|by apply map_Forall_delete]. intros key'.
  destruct (decide (key' = key)) as [->|Hne]; [by rewrite !lookup_delete_eq|]. by rewrite !lookup_delete_ne.
Qed.

(** The operations on what is known of a node. *)
Inductive data_op :=
| op_insert (key : Key) (entry : ValueTimestampAndType)
| op_update (key : Key) (entry : ValueTimestampAndType)
| op_remove (key : Key)
| op_setPhysicalNodeInfo (p_node_info : PhysicalNodeInfo)
| op_addSubscriptionOrderKey (key : Key)
| op_removeSubscriptionOrderKey (key : Key).

Definition run_data (op : data_op) (x : DistributedData) : outcome unit * DistributedData :=
  match op with
  | op_insert key entry => (Distributed.insert key entry;; mret tt) x
  | op_update key entry => (Distributed.update key entry;; mret tt) x
  | op_remove key => Distributed.remove key x
  | op_setPhysicalNodeInfo p => (Ok tt, setPhysicalNodeInfo p x)
  | op_addSubscriptionOrderKey key => addSubscriptionOrderKey key x
  | op_removeSubscriptionOrderKey key => removeSubscriptionOrderKey key x
  end.

Lemma then_state {S A B} (m : M S A) (b : B) s : ((m;; mret b) s).2 = (m s).2.
Proof. mred. by destruct (m s) as [[]]. Qed.
Lemma then_undefined {S A B} (m : M S A) (b : B) s : (m s).1 <> Undefined -> ((m;; mret b) s).1 <> Undefined.
Proof. mred. by destruct (m s) as [[]]. Qed.

Lemma run_data_ok op x : timestamps_ok x -> timestamps_ok (run_data op x).2 /\ (run_data op x).1 <> Undefined.
Proof.
  intros Hok. destruct op; cbn [run_data].
  - rewrite then_state. split; [by apply insert_timestamps_ok|]. apply then_undefined.
    unfold Distributed.insert, base, Data.insert. mred. repeat (case_match; simplify_eq/=; try done).
  - rewrite then_state. split; [|apply then_undefined]; by apply update_timestamps_ok.
  - split; [by apply remove_timestamps_ok|done].
  - done.
  - unfold addSubscriptionOrderKey. mred. by case_match.
  - unfold removeSubscriptionOrderKey. mred. by case_match.
Qed.

(** What is known of a node after any sequence of operations, failing ones included:
    exactly the keys that have a value have a queue of update times, each queue has between
    one and five entries in ascending order, and no operation reads an empty queue. *)
Theorem update_timestamps_invariant address ops op :
  let x := foldl (fun x op => (run_data op x).2) (of_address address) ops in
  (forall key, Data.hasKey key (d_data x) = true <-> getUpdateTimestamps key x <> []) /\
  (forall key, Z.of_nat (length (getUpdateTimestamps key x)) <= timestamp_storage_limit_ /\
               ascending (getUpdateTimestamps key x)) /\
  (run_data op x).1 <> Undefined.
Proof.
  intros x. assert (Hok : timestamps_ok x).
  { assert (Hg : forall x0, timestamps_ok x0 -> timestamps_ok (foldl (fun x op => (run_data op x).2) x0 ops)).
    { induction ops as [|o ops IH]; intros x0 H0; [done|]. by apply IH, run_data_ok. }
    apply Hg. split; cbn; [|apply map_Forall_empty]. intros key. by rewrite !lookup_empty. }
  split_and!; [| |by apply run_data_ok]; intros key; unfold getUpdateTimestamps.
  - rewrite hasKey_lookup, (proj1 Hok key). destruct (_ !! key) as [queue|] eqn:E; cbn.
    + split; [intros _; apply (proj2 Hok key queue E)|by eexists].
    + split; [by intros []|done].
  - destruct (_ !! key) as [queue|] eqn:E; cbn; [apply (proj2 Hok key queue E)|done].
Qed.
