(* ===== verification/BooleanExpression.v ===== *)
(** * Boolean expressions over attributes

    Model of [algorithms/esearch/fuzzy_value.h], [evaluation_information.h] and
    [boolean_expression.h]: the expression of a find query, evaluated on what is known of a node
    to true, false or undecided, and the keys that have to be asked for to decide it. *)

From Stdlib Require Import SpecFloat.
From S2P Require Import Prelude NodeInfo Containers NodeData.
Import Data.

(** ** Three truth values *)

Inductive FuzzyValue := kFalse | kUndecided | kTrue.

#[export] Instance FuzzyValue_eq_dec : EqDecision FuzzyValue.
Proof. solve_decision. Defined.

(** The [short] the object holds, and the object that holds it. *)
Definition fuzzy_value (v : FuzzyValue) : Z := match v with kFalse => 0 | kUndecided => 1 | kTrue => 2 end.
Definition fuzzy_of (value : Z) : FuzzyValue :=
  if value =? 0 then kFalse else if value =? 1 then kUndecided else kTrue.

Definition isUndecided (v : FuzzyValue) : bool := fuzzy_value v =? 1.
Definition isTrue (v : FuzzyValue) : bool := fuzzy_value v =? 2.

Definition fuzzy_not (v : FuzzyValue) : FuzzyValue := fuzzy_of (2 - fuzzy_value v).
Definition fuzzy_and (v w : FuzzyValue) : FuzzyValue := fuzzy_of (Z.min (fuzzy_value v) (fuzzy_value w)).
Definition fuzzy_or (v w : FuzzyValue) : FuzzyValue := fuzzy_of (Z.max (fuzzy_value v) (fuzzy_value w)).

Definition fuzzy_of_bool (b : bool) : FuzzyValue := if b then kTrue else kFalse.

(** ** What is evaluated *)

(** [NodeData &]: the object behind it is of one of the two classes. *)
Inductive EvaluatedData :=
| Own (l : LocalData)
| Remote (x : DistributedData).

Module Evaluated.

Definition data (d : EvaluatedData) : NodeData :=
  match d with Own l => l_data l | Remote x => d_data x end.
Definition hasKey (key : Key) (d : EvaluatedData) : bool := Data.hasKey key (data d).
Definition getValue (key : Key) (d : EvaluatedData) : outcome Value := Data.getValue key (data d).
Definition isLocal (d : EvaluatedData) : bool := match d with Own _ => true | Remote _ => false end.
Definition isValueUpToDate (key : Key) (validity_threshold_timestamp : Z) (d : EvaluatedData) : outcome bool :=
  match d with
  | Own l => Ok (Local.isValueUpToDate key validity_threshold_timestamp l)
  | Remote x => Distributed.isValueUpToDate key validity_threshold_timestamp x
  end.

End Evaluated.

Record EvaluationInformation := {
  validity_threshold_timestamp : Z;
  all_information_present : bool;
  inquire_unknown_attributes : bool;
  inquire_outdated_attributes : bool;
  permissive : bool;
}.

Definition with_all_information (b : bool) (i : EvaluationInformation) : EvaluationInformation :=
  {| validity_threshold_timestamp := validity_threshold_timestamp i; all_information_present := b;
     inquire_unknown_attributes := inquire_unknown_attributes i;
     inquire_outdated_attributes := inquire_outdated_attributes i; permissive := permissive i |}.

(** ** Expressions *)

Inductive ComparisonTypes :=
| kEqualTo | kNotEqualTo | kLessThan | kGreater | kLessThanOrEqualTo | kGreaterThanOrEqualTo.

#[export] Instance ComparisonTypes_eq_dec : EqDecision ComparisonTypes.
Proof. solve_decision. Defined.

(** The value of a [NumericComparisonExpression<int>] or [<float>]. *)
Inductive Number :=
| Number_int (i : Z)
| Number_float (f : float).

(** The subclasses of [AtomicBooleanExpression]. *)
Inductive AtomicBooleanExpression :=
| PresenceExpression (key : Key)
| StringEqualityExpression (key : Key) (value : string)
| NumericComparisonExpression (key : Key) (comparison_type : ComparisonTypes) (comparison_value : Number).

Inductive BooleanExpression :=
| AtomicExpression (a : AtomicBooleanExpression)
| OrExpression (expr1 expr2 : BooleanExpression)
| AndExpression (expr1 expr2 : BooleanExpression)
| NotExpression (expr : BooleanExpression)
| EmptyExpression.

Definition key_of (a : AtomicBooleanExpression) : Key :=
  match a with
  | PresenceExpression key | StringEqualityExpression key _ | NumericComparisonExpression key _ _ => key
  end.

(** The comparison operators on [int]s and on [float]s; in the mixed cases the [int] is
    converted. *)
Definition compare_int (type : ComparisonTypes) (i j : Z) : bool :=
  match type with
  | kEqualTo => i =? j | kNotEqualTo => negb (i =? j)
  | kLessThan => i <? j | kGreater => j <? i
  | kLessThanOrEqualTo => i <=? j | kGreaterThanOrEqualTo => j <=? i
  end.
Definition compare_float (type : ComparisonTypes) (x y : float) : bool :=
  match type with
  | kEqualTo => SFeqb x y | kNotEqualTo => negb (SFeqb x y)
  | kLessThan => SFltb x y | kGreater => SFltb y x
  | kLessThanOrEqualTo => SFleb x y | kGreaterThanOrEqualTo => SFleb y x
  end.

Definition applyComparison_int (type : ComparisonTypes) (comparison_value : Number) (i : Z) : bool :=
  match comparison_value with
  | Number_int j => compare_int type i j
  | Number_float y => compare_float type (f_of_Z i) y
  end.
Definition applyComparison_float (type : ComparisonTypes) (comparison_value : Number) (x : float) : bool :=
  match comparison_value with
  | Number_int j => compare_float type x (f_of_Z j)
  | Number_float y => compare_float type x y
  end.

Definition evaluateExisting (a : AtomicBooleanExpression) (d : EvaluatedData) : outcome FuzzyValue :=
  if negb (Evaluated.hasKey (key_of a) d) then mret kFalse
  else
    value ← Evaluated.getValue (key_of a) d;
    match a with
    | PresenceExpression _ =>
        match value with
        | Value_bool b => mret (fuzzy_of_bool b)
        | _ => mret kTrue
        end
    | StringEqualityExpression _ s =>
        match value with
        | Value_string t => mret (fuzzy_of_bool (String.eqb t s))
        | _ => mret kFalse
        end
    | NumericComparisonExpression _ type number =>
        match value with
        | Value_int i => mret (fuzzy_of_bool (applyComparison_int type number i))
        | Value_float x => mret (fuzzy_of_bool (applyComparison_float type number x))
        | _ => Throw (invalid_argument "Could not compare")
        end
    end.

Definition evaluateAtomic (a : AtomicBooleanExpression) (d : EvaluatedData) (eval_info : EvaluationInformation)
    : outcome FuzzyValue :=
  if Evaluated.isLocal d then evaluateExisting a d
  else if negb (Evaluated.hasKey (key_of a) d) then
    mret (if negb (all_information_present eval_info) && inquire_unknown_attributes eval_info
          then kUndecided else kFalse)
  else
    outdated ←
      (if inquire_outdated_attributes eval_info
       then up_to_date ← Evaluated.isValueUpToDate (key_of a) (validity_threshold_timestamp eval_info) d;
            mret (negb up_to_date)
       else mret false);
    if (outdated : bool) then mret (if all_information_present eval_info then kFalse else kUndecided)
    else
      value ← evaluateExisting a d;
      if isUndecided value && negb (inquire_outdated_attributes eval_info) && permissive eval_info
      then mret kTrue else mret value.

(** Both sides of [||] and [&&] are evaluated: the operators are functions. *)
Fixpoint evaluate (e : BooleanExpression) (d : EvaluatedData) (eval_info : EvaluationInformation)
    : outcome FuzzyValue :=
  match e with
  | AtomicExpression a => evaluateAtomic a d eval_info
  | OrExpression e1 e2 =>
      v1 ← evaluate e1 d eval_info; v2 ← evaluate e2 d eval_info; mret (fuzzy_or v1 v2)
  | AndExpression e1 e2 =>
      v1 ← evaluate e1 d eval_info; v2 ← evaluate e2 d eval_info; mret (fuzzy_and v1 v2)
  | NotExpression e1 => v ← evaluate e1 d eval_info; mret (fuzzy_not v)
  | EmptyExpression => mret kTrue
  end.

(** [{key_}] or [{}], by the two settings of what is inquired *)
Definition missingAtomic (a : AtomicBooleanExpression) (d : EvaluatedData) (eval_info : EvaluationInformation)
    : outcome (list Key) :=
  let key := key_of a in
  let known := Evaluated.hasKey key d in
  let upToDate := Evaluated.isValueUpToDate key (validity_threshold_timestamp eval_info) d in
  match inquire_unknown_attributes eval_info, inquire_outdated_attributes eval_info with
  | true, true =>
      if negb known then mret [key]
      else up_to_date ← upToDate; mret (if negb up_to_date then [key] else [])
  | true, false => mret (if negb known then [key] else [])
  | false, true =>
      if known then up_to_date ← upToDate; mret (if negb up_to_date then [key] else [])
      else mret []
  | false, false => mret []
  end.

Fixpoint evaluateMissingAttributes (e : BooleanExpression) (d : EvaluatedData) (eval_info : EvaluationInformation)
    : outcome (list Key) :=
  match e with
  | AtomicExpression a => missingAtomic a d eval_info
  | OrExpression e1 e2 =>
      let eval_info_c := with_all_information false eval_info in
      expr1_eval ← evaluate e1 d eval_info_c;
      expr2_eval ← evaluate e2 d eval_info_c;
      if isTrue expr1_eval || isTrue expr2_eval then mret []
      else
        missings ← evaluateMissingAttributes e1 d eval_info_c;
        temp_missings ← evaluateMissingAttributes e2 d eval_info_c;
        mret (missings ++ temp_missings)
  | AndExpression e1 e2 =>
      missings ← evaluateMissingAttributes e1 d eval_info;
      temp_missings ← evaluateMissingAttributes e2 d eval_info;
      mret (missings ++ temp_missings)
  | NotExpression e1 => evaluateMissingAttributes e1 d eval_info
  | EmptyExpression => mret []
  end.

Fixpoint getRelevantKeys (e : BooleanExpression) : list Key :=
  match e with
  | AtomicExpression a => [key_of a]
  | OrExpression e1 e2 | AndExpression e1 e2 => getRelevantKeys e1 ++ getRelevantKeys e2
  | NotExpression e1 => getRelevantKeys e1
  | EmptyExpression => []
  end.

Fixpoint getRelevantTopicKeys (e : BooleanExpression) : list Key :=
  match e with
  | AtomicExpression (PresenceExpression key) => [key]
  | AtomicExpression _ | EmptyExpression => []
  | OrExpression e1 e2 | AndExpression e1 e2 => getRelevantTopicKeys e1 ++ getRelevantTopicKeys e2
  | NotExpression e1 => getRelevantTopicKeys e1
  end.

Fixpoint getDepth (e : BooleanExpression) : Z :=
  match e with
  | AtomicExpression _ => 1
  | OrExpression e1 e2 | AndExpression e1 e2 => u8 (getDepth e1 + getDepth e2)
  | NotExpression e1 => getDepth e1
  | EmptyExpression => 0
  end.

(** ** As text *)

(** [std::to_string(int)] *)
Definition to_string_int (i : Z) : string :=
  String.string_of_list_ascii (if i <? 0 then "-"%char :: to_string (- i) else to_string i).

(** The value of a finite number in millionths, rounded to nearest, ties to even: the six
    digits [%f] prints. *)
Definition millionths (m : positive) (e : Z) : Z :=
  if 0 <=? e then Z.pos m * 2 ^ e * 1000000
  else
    let n := Z.pos m * 1000000 in
    let d := 2 ^ (- e) in
    let q := n / d in
    let r := n mod d in
    if 2 * r <? d then q else if d <? 2 * r then q + 1 else if Z.even q then q else q + 1.

Definition six_digits (z : Z) : list ascii :=
  (fun k => digit_char (z / 10 ^ k mod 10)) <$> [5; 4; 3; 2; 1; 0].

(** [std::to_string(float)]; a [float] has at most 39 digits before the point. *)
Definition to_string_float (x : float) : string :=
  let signed (s : bool) (l : list ascii) := String.string_of_list_ascii (if s then "-"%char :: l else l) in
  match x with
  | S754_zero s => signed s (String.list_ascii_of_string "0.000000")
  | S754_infinity s => signed s (String.list_ascii_of_string "inf")
  | S754_nan => "nan"
  | S754_finite s m e =>
      let z := millionths m e in
      signed s (decimal 39 (z / 1000000) ++ ["."%char] ++ six_digits (z mod 1000000))
  end.

Definition comp_str (type : ComparisonTypes) : string :=
  match type with
  | kEqualTo => "==" | kGreater => ">" | kGreaterThanOrEqualTo => ">=" | kLessThan => "<"
  | kLessThanOrEqualTo => "<=" | kNotEqualTo => "!="
  end.

Definition number_str (n : Number) : string :=
  match n with Number_int i => to_string_int i | Number_float x => to_string_float x end.

Definition serializeAtomic (a : AtomicBooleanExpression) : string :=
  match a with
  | PresenceExpression key => "( HAS " ++ key ++ " )"
  | StringEqualityExpression key value => "( " ++ key ++ " == " ++ value ++ " )"
  | NumericComparisonExpression key type number =>
      "( " ++ key ++ " " ++ comp_str type ++ " " ++ number_str number ++ " )"
  end.

Fixpoint serialize (e : BooleanExpression) : string :=
  match e with
  | AtomicExpression a => serializeAtomic a
  | OrExpression e1 e2 => "( " ++ serialize e1 ++ " OR " ++ serialize e2 ++ " )"
  | AndExpression e1 e2 => "( " ++ serialize e1 ++ " AND " ++ serialize e2 ++ " )"
  | NotExpression e1 => "( NOT " ++ serialize e1 ++ " )"
  | EmptyExpression => "( empty )"
  end.

(** ** Evaluation, simplified

    Whether the value of a key has to be asked for depends on the key alone. *)

Definition is_up_to_date (key : Key) (threshold : Z) (d : EvaluatedData) : bool :=
  match Evaluated.isValueUpToDate key threshold d with Ok b => b | _ => false end.

Definition needs (key : Key) (d : EvaluatedData) (i : EvaluationInformation) : bool :=
  if Evaluated.hasKey key d
  then inquire_outdated_attributes i && negb (is_up_to_date key (validity_threshold_timestamp i) d)
  else inquire_unknown_attributes i.

Lemma up_to_date_known key t d :
  Evaluated.hasKey key d = true -> Evaluated.isValueUpToDate key t d = Ok (is_up_to_date key t d).
Proof.
  unfold is_up_to_date, Evaluated.hasKey. destruct d as [l|x]; cbn [Evaluated.isValueUpToDate Evaluated.data]; [done|].
  intros Hk. unfold Distributed.isValueUpToDate. rewrite Hk. cbn.
  destruct (Distributed.isKeySubscribed key x); [done|]. unfold getValueTimestampAndType. mred.
  apply hasKey_lookup in Hk as [entry ->]. cbn. by destruct (bool_decide _).
Qed.

Lemma missingAtomic_eq a d i :
  missingAtomic a d i = Ok (if needs (key_of a) d i then [key_of a] else []).
Proof.
  unfold missingAtomic, needs. destruct (Evaluated.hasKey (key_of a) d) eqn:E.
  - rewrite (up_to_date_known _ _ _ E). destruct i as [? ? [] []]; cbn; by repeat case_match.
  - destruct i as [? ? [] []]; cbn; by repeat case_match.
Qed.

Lemma existing_decided a d v : evaluateExisting a d = Ok v -> v <> kUndecided.
Proof.
  unfold evaluateExisting. mred. intros H. repeat (case_match; simplify_eq/=; try done);
    match goal with |- fuzzy_of_bool ?b <> _ => by destruct b end.
Qed.

Lemma evaluateAtomic_remote a x i :
  evaluateAtomic a (Remote x) i =
  if needs (key_of a) (Remote x) i then Ok (if all_information_present i then kFalse else kUndecided)
  else evaluateExisting a (Remote x).
Proof.
  unfold evaluateAtomic, needs. cbn [Evaluated.isLocal].
  destruct (Evaluated.hasKey (key_of a) (Remote x)) eqn:E; cbn [negb].
  - rewrite (up_to_date_known _ _ _ E).
    assert (Hv : forall b, (value ← evaluateExisting a (Remote x);
        if isUndecided value && negb b && permissive i then mret kTrue else mret value)
        = evaluateExisting a (Remote x)).
    { intros b. destruct (evaluateExisting a (Remote x)) as [v| |] eqn:Ev; [|done..]. mred.
      apply existing_decided in Ev. by destruct v. }
    destruct (inquire_outdated_attributes i); mred; [|exact (Hv false)].
    destruct (is_up_to_date _ _ _); cbn [negb andb]; [exact (Hv true)|done].
  - unfold evaluateExisting. rewrite E. cbn. destruct i as [? [] [] ? ?]; done.
Qed.

(** The keys to ask for do not depend on whether all information is taken to be present. *)
Lemma missing_with_all e d b i :
  evaluateMissingAttributes e d (with_all_information b i) = evaluateMissingAttributes e d i.
Proof.
  revert b i. induction e as [a|e1 IH1 e2 IH2|e1 IH1 e2 IH2|e1 IH|]; intros b i; cbn [evaluateMissingAttributes].
  - by rewrite !missingAtomic_eq.
  - done.
  - by rewrite IH1, IH2.
  - apply IH.
  - done.
Qed.

(** The values of the operators. *)
Lemma fuzzy_or_true v w : fuzzy_or v w = kTrue <-> v = kTrue \/ w = kTrue.
Proof. destruct v, w; cbn; naive_solver. Qed.
Lemma fuzzy_or_false v w : fuzzy_or v w = kFalse <-> v = kFalse /\ w = kFalse.
Proof. destruct v, w; cbn; naive_solver. Qed.
Lemma fuzzy_and_true v w : fuzzy_and v w = kTrue <-> v = kTrue /\ w = kTrue.
Proof. destruct v, w; cbn; naive_solver. Qed.
Lemma fuzzy_and_false v w : fuzzy_and v w = kFalse <-> v = kFalse \/ w = kFalse.
Proof. destruct v, w; cbn; naive_solver. Qed.
Lemma fuzzy_or_undecided v w : v <> kUndecided -> w <> kUndecided -> fuzzy_or v w <> kUndecided.
Proof. by destruct v, w. Qed.
Lemma fuzzy_and_undecided v w : v <> kUndecided -> w <> kUndecided -> fuzzy_and v w <> kUndecided.
Proof. by destruct v, w. Qed.
Lemma fuzzy_not_undecided v : fuzzy_not v = kUndecided <-> v = kUndecided.
Proof. by destruct v. Qed.
Lemma isTrue_spec v : isTrue v = true <-> v = kTrue.
Proof. by destruct v. Qed.
Lemma isUndecided_spec v : isUndecided v = true <-> v = kUndecided.
Proof. by destruct v. Qed.

(** Takes an evaluation that returned apart. *)
Ltac eval_parts :=
  repeat match goal with
  | H : _ ≫= _ = Ok _ |- _ => apply outcome_bind_Ok in H as (? & ? & H)
  | H : mret _ = Ok _ |- _ => injection H as <-
  | H : Ok _ = Ok _ |- _ => injection H as <-
  end.

(** [x'] knows all that is settled about [x]: a key that need not be asked for has kept its
    value and need not be asked for now. *)
Definition settled_in (x x' : DistributedData) (i : EvaluationInformation) : Prop :=
  forall key, needs key (Remote x) i = false ->
    needs key (Remote x') i = false /\ data_ (d_data x') !! key = data_ (d_data x) !! key.

Lemma existing_same a d d' :
  data_ (Evaluated.data d') !! key_of a = data_ (Evaluated.data d) !! key_of a ->
  evaluateExisting a d' = evaluateExisting a d.
Proof.
  intros He. unfold evaluateExisting, Evaluated.hasKey, Evaluated.getValue, Data.hasKey, Data.getValue.
  by rewrite He.
Qed.

Lemma settled_atom a x x' i :
  settled_in x x' i -> needs (key_of a) (Remote x) i = false ->
  evaluateAtomic a (Remote x') i = evaluateAtomic a (Remote x) i.
Proof.
  intros Hs Hn. destruct (Hs _ Hn) as [Hn' He]. rewrite !evaluateAtomic_remote, Hn, Hn'. by apply existing_same.
Qed.

Lemma settled_with_all x x' b i : settled_in x x' i -> settled_in x x' (with_all_information b i).
Proof. intros Hs key. apply Hs. Qed.

(** What is decided stays decided when more becomes known. *)
Lemma decision_stable e x x' i v v' :
  all_information_present i = false -> settled_in x x' i ->
  evaluate e (Remote x) i = Ok v -> v <> kUndecided -> evaluate e (Remote x') i = Ok v' -> v' = v.
Proof.
  intros Ha Hs. revert v v'.
  induction e as [a|e1 IH1 e2 IH2|e1 IH1 e2 IH2|e1 IH|]; intros v v' Hv Hd Hv'; cbn [evaluate] in *; eval_parts.
  - destruct (needs (key_of a) (Remote x) i) eqn:E; [rewrite evaluateAtomic_remote, E, Ha in Hv; congruence|].
    rewrite (settled_atom _ _ _ _ Hs E) in Hv'. congruence.
  - match type of Hd with ?w <> _ => destruct w eqn:E end; [|done|].
    + apply fuzzy_or_false in E as [-> ->]. apply fuzzy_or_false. eauto.
    + apply fuzzy_or_true. apply fuzzy_or_true in E as [->| ->]; eauto.
  - match type of Hd with ?w <> _ => destruct w eqn:E end; [|done|].
    + apply fuzzy_and_false. apply fuzzy_and_false in E as [->| ->]; eauto.
    + apply fuzzy_and_true in E as [-> ->]. apply fuzzy_and_true. eauto.
  - f_equal. apply IH; [done| |done]. intros ->. by apply Hd.
  - done.
Qed.

(** ** Properties *)

(** Lemmas on the keys an evaluation asks for. *)
Lemma missing_returns e x i v :
  evaluate e (Remote x) (with_all_information false i) = Ok v ->
  exists ks, evaluateMissingAttributes e (Remote x) i = Ok ks /\ (v = kUndecided -> ks <> []).
Proof.
  revert i v. induction e as [a|e1 IH1 e2 IH2|e1 IH1 e2 IH2|e1 IH|]; intros i v Hv;
    cbn [evaluate evaluateMissingAttributes] in *; eval_parts.
  - rewrite missingAtomic_eq. eexists. split; [done|]. rewrite evaluateAtomic_remote in Hv.
    change (needs (key_of a) (Remote x) (with_all_information false i)) with (needs (key_of a) (Remote x) i) in Hv.
    intros ->. destruct (needs _ _ _); [done|]. by apply existing_decided in Hv.
  - rewrite H, H0. cbn [mbind outcome_bind].
    destruct (isTrue x0 || isTrue x1) eqn:E.
    { eexists. split; [done|]. intros Hu. by destruct x0, x1. }
    edestruct (IH1 (with_all_information false i)) as (ks1 & -> & Hk1); [done|].
    edestruct (IH2 (with_all_information false i)) as (ks2 & -> & Hk2); [done|].
    eexists. split; [done|]. intros Hu Hn. apply app_eq_nil in Hn as [-> ->]. destruct x0, x1; naive_solver.
  - edestruct IH1 as (ks1 & -> & Hk1); [done|]. edestruct IH2 as (ks2 & -> & Hk2); [done|].
    eexists. split; [done|]. intros Hu Hn. apply app_eq_nil in Hn as [-> ->]. destruct x0, x1; naive_solver.
  - edestruct IH as (ks & -> & Hk); [done|]. eexists. split; [done|]. rewrite fuzzy_not_undecided. auto.
  - by eexists.
Qed.

Lemma missing_relevant e d i ks : evaluateMissingAttributes e d i = Ok ks -> ks ⊆ getRelevantKeys e.
Proof.
  revert i ks. induction e as [a|e1 IH1 e2 IH2|e1 IH1 e2 IH2|e1 IH|]; intros i ks;
    cbn [evaluateMissingAttributes getRelevantKeys].
  - rewrite missingAtomic_eq. intros [= <-]. case_match; set_solver.
  - intros H. eval_parts. destruct (_ || _); eval_parts; [set_solver|].
    apply IH1 in H2. apply IH2 in H3. set_solver.
  - intros H. eval_parts. apply IH1 in H0. apply IH2 in H1. set_solver.
  - apply IH.
  - intros [= <-]. set_solver.
Qed.

(** Evaluating throws in one case only. *)
Definition could_not_compare : exn := invalid_argument "Could not compare".

Lemma existing_outcome a d : (exists v, evaluateExisting a d = Ok v) \/ evaluateExisting a d = Throw could_not_compare.
Proof.
  unfold evaluateExisting, Evaluated.hasKey, Evaluated.getValue, Data.hasKey, Data.getValue. mred.
  destruct (_ !! key_of a) as [entry|]; cbn; [|by left; eexists].
  destruct a, entry.1.1; first [by right|by left; eexists].
Qed.

Lemma evaluate_outcome e d i : (exists v, evaluate e d i = Ok v) \/ evaluate e d i = Throw could_not_compare.
Proof.
  induction e as [a|e1 IH1 e2 IH2|e1 IH1 e2 IH2|e1 IH|]; cbn [evaluate].
  - destruct d as [l|x]; [apply existing_outcome|]. rewrite evaluateAtomic_remote.
    case_match; [by left; eexists|apply existing_outcome].
  - destruct IH1 as [[v1 ->]| ->]; [|by right]. destruct IH2 as [[v2 ->]| ->]; [by left; eexists|by right].
  - destruct IH1 as [[v1 ->]| ->]; [|by right]. destruct IH2 as [[v2 ->]| ->]; [by left; eexists|by right].
  - destruct IH as [[v ->]| ->]; [by left; eexists|by right].
  - by left; eexists.
Qed.

(** C19: asking for the missing keys decides the expression. If [ks] are the keys the evaluation
    on what is known of a node ([x]) asks for, and afterwards ([x']) every one of them is
    known and fresh enough while everything settled before is as it was, then the expression
    is no longer undecided, whatever the answers are. *)
Theorem inquiry_decides e x x' i ks v :
  all_information_present i = false ->
  evaluateMissingAttributes e (Remote x) i = Ok ks ->
  settled_in x x' i -> (forall key, key ∈ ks -> needs key (Remote x') i = false) ->
  evaluate e (Remote x') i = Ok v -> v <> kUndecided.
Proof.
  intros Ha Hm Hs Hk. assert (Hw : with_all_information false i = i) by (destruct i; by cbn in *; subst).
  revert ks v Hm Hk.
  induction e as [a|e1 IH1 e2 IH2|e1 IH1 e2 IH2|e1 IH|]; intros ks v Hm Hk Hv;
    cbn [evaluate evaluateMissingAttributes] in *; eval_parts.
  - rewrite missingAtomic_eq in Hm. injection Hm as <-.
    assert (Hn : needs (key_of a) (Remote x') i = false).
    { destruct (needs (key_of a) (Remote x) i) eqn:E; [apply Hk; set_solver|by apply Hs]. }
    rewrite evaluateAtomic_remote, Hn in Hv. by apply existing_decided in Hv.
  - rewrite Hw in *. destruct (isTrue _ || isTrue _) eqn:E.
    + apply orb_true_iff in E as [->%isTrue_spec| ->%isTrue_spec];
        intros Hu; enough (Ht : kTrue = kUndecided) by done; rewrite <- Hu; symmetry; apply fuzzy_or_true;
        [left|right]; by eapply decision_stable.
    + eval_parts. apply fuzzy_or_undecided; [eapply IH1|eapply IH2]; try done; set_solver.
  - apply fuzzy_and_undecided; [eapply IH1|eapply IH2]; try done; set_solver.
  - rewrite fuzzy_not_undecided. by eapply IH.
  - done.
Qed.

(** A decision is final. When the evaluation on what is known of a node is true or false
    although some keys are still unknown or outdated, then it has the same value however
    those keys turn out, unless an answer has a value the expression cannot be applied to. *)
Theorem decision_is_final e x x' i v :
  all_information_present i = false -> settled_in x x' i ->
  evaluate e (Remote x) i = Ok v -> v <> kUndecided ->
  evaluate e (Remote x') i = Ok v \/ evaluate e (Remote x') i = Throw could_not_compare.
Proof.
  intros Ha Hs Hv Hd. destruct (evaluate_outcome e (Remote x') i) as [[v' Hv']|Ht]; [left|by right].
  rewrite Hv'. f_equal. by eapply decision_stable.
Qed.

(** *** The two-valued reading *)

Fixpoint atoms (e : BooleanExpression) : list AtomicBooleanExpression :=
  match e with
  | AtomicExpression a => [a]
  | OrExpression e1 e2 | AndExpression e1 e2 => atoms e1 ++ atoms e2
  | NotExpression e1 => atoms e1
  | EmptyExpression => []
  end.

(** The formula of propositional logic the expression stands for. *)
Fixpoint reading (atom : AtomicBooleanExpression -> bool) (e : BooleanExpression) : bool :=
  match e with
  | AtomicExpression a => atom a
  | OrExpression e1 e2 => reading atom e1 || reading atom e2
  | AndExpression e1 e2 => reading atom e1 && reading atom e2
  | NotExpression e1 => negb (reading atom e1)
  | EmptyExpression => true
  end.

Lemma fuzzy_or_bool a b : fuzzy_or (fuzzy_of_bool a) (fuzzy_of_bool b) = fuzzy_of_bool (a || b).
Proof. by destruct a, b. Qed.
Lemma fuzzy_and_bool a b : fuzzy_and (fuzzy_of_bool a) (fuzzy_of_bool b) = fuzzy_of_bool (a && b).
Proof. by destruct a, b. Qed.
Lemma fuzzy_not_bool a : fuzzy_not (fuzzy_of_bool a) = fuzzy_of_bool (negb a).
Proof. by destruct a. Qed.

(** An atom is true, false or not applicable when nothing has to be asked for. *)
Lemma atom_two_valued a d i :
  Evaluated.isLocal d = true \/ all_information_present i = true ->
  evaluateAtomic a d i = Throw could_not_compare \/
  evaluateAtomic a d i = Ok (fuzzy_of_bool (bool_decide (evaluateAtomic a d i = Ok kTrue))).
Proof.
  intros Hd. destruct (evaluate_outcome (AtomicExpression a) d i) as [[v Hv]|Ht]; cbn [evaluate] in *; [|by left].
  right. rewrite Hv. enough (v <> kUndecided) as Hu by by destruct v.
  destruct d as [l|x]; [by apply existing_decided in Hv|]. destruct Hd as [?|Ha]; [done|].
  rewrite evaluateAtomic_remote, Ha in Hv. case_match; [by injection Hv as <-|by apply existing_decided in Hv].
Qed.

Lemma all_information_decides e d i v :
  Evaluated.isLocal d = true \/ all_information_present i = true -> evaluate e d i = Ok v -> v <> kUndecided.
Proof.
  intros Hd. revert v. induction e as [a|e1 IH1 e2 IH2|e1 IH1 e2 IH2|e1 IH|]; intros v Hv; cbn [evaluate] in Hv; eval_parts.
  - destruct (atom_two_valued a d i Hd) as [Ht|He]; [congruence|]. rewrite Hv in He. by destruct v.
  - apply fuzzy_or_undecided; eauto.
  - apply fuzzy_and_undecided; eauto.
  - rewrite fuzzy_not_undecided. eauto.
  - done.
Qed.

(** C21: with all information the three-valued evaluation is classical logic. On the node's own
    attributes, and on a remote node once all information is taken to be present, the
    evaluation is never undecided: it throws exactly when one of the comparisons does not
    apply to the stored value, and otherwise has the truth value of the propositional formula
    over the atoms. *)
Theorem full_information_is_classical e d i :
  Evaluated.isLocal d = true \/ all_information_present i = true ->
  evaluate e d i =
  if forallb (fun a => is_Ok (evaluateAtomic a d i)) (atoms e)
  then Ok (fuzzy_of_bool (reading (fun a => bool_decide (evaluateAtomic a d i = Ok kTrue)) e))
  else Throw could_not_compare.
Proof.
  intros Hd. induction e as [a|e1 IH1 e2 IH2|e1 IH1 e2 IH2|e1 IH|]; cbn [evaluate atoms reading forallb].
  - destruct (atom_two_valued a d i Hd) as [->|He]; [done|].
    by destruct (evaluateAtomic a d i) as [[]| |].
  - rewrite IH1, IH2, forallb_app. destruct (forallb _ (atoms e1)), (forallb _ (atoms e2)); cbn [andb]; try done. mred. by rewrite fuzzy_or_bool.
  - rewrite IH1, IH2, forallb_app. destruct (forallb _ (atoms e1)), (forallb _ (atoms e2)); cbn [andb]; try done. mred. by rewrite fuzzy_and_bool.
  - rewrite IH. destruct (forallb _ _); [|done]. mred. by rewrite fuzzy_not_bool.
  - done.
Qed.

(** [permissive] has no effect. No atom is undecided on a value that exists, which is the
    only case in which the setting is looked at. *)
Theorem permissive_has_no_effect e d t all unknown outdated p1 p2 :
  evaluate e d (Build_EvaluationInformation t all unknown outdated p1) =
  evaluate e d (Build_EvaluationInformation t all unknown outdated p2).
Proof.
  induction e as [a|e1 IH1 e2 IH2|e1 IH1 e2 IH2|e1 IH|]; cbn [evaluate];
    [|by rewrite IH1, IH2|by rewrite IH1, IH2|by rewrite IH|done].
  destruct d as [l|x]; [done|]. by rewrite !evaluateAtomic_remote.
Qed.

(** Only the relevant keys matter. *)
Lemma evaluate_relevant e x x' i :
  (forall key, key ∈ getRelevantKeys e ->
     needs key (Remote x') i = needs key (Remote x) i /\ data_ (d_data x') !! key = data_ (d_data x) !! key) ->
  evaluate e (Remote x') i = evaluate e (Remote x) i.
Proof.
  induction e as [a|e1 IH1 e2 IH2|e1 IH1 e2 IH2|e1 IH|]; cbn [evaluate getRelevantKeys]; intros Hk.
  - destruct (Hk (key_of a)) as [Hn He]; [set_solver|]. rewrite !evaluateAtomic_remote, Hn.
    case_match; [done|]. by apply existing_same.
  - rewrite IH1, IH2; [done|set_solver..].
  - rewrite IH1, IH2; [done|set_solver..].
  - by rewrite IH.
  - done.
Qed.

(** What [getDepth] computes is the number of atoms, modulo 256. *)
Lemma getDepth_atoms e : getDepth e = u8 (Z.of_nat (length (atoms e))).
Proof.
  induction e as [a|e1 IH1 e2 IH2|e1 IH1 e2 IH2|e1 IH|]; cbn [getDepth atoms]; [done| | |done|done];
    rewrite IH1, IH2, length_app, Nat2Z.inj_add; unfold u8; by rewrite <- Z.add_mod.
Qed.

(** *** Examples *)

Definition default_evaluation (all : bool) : EvaluationInformation :=
  {| validity_threshold_timestamp := 100; all_information_present := all; inquire_unknown_attributes := true;
     inquire_outdated_attributes := true; permissive := false |}.

(** A robot of which the speed is known and the load is not. *)
Definition half_known : DistributedData :=
  (Distributed.insert "speed" (Value_int 3, 120, kValueDynamic) (Distributed.of_address Physical.default)).2.
Definition fully_known : DistributedData :=
  (Distributed.insert "load" (Value_bool true, 130, kValueDynamic) half_known).2.

Definition speed_below (i : Z) : BooleanExpression :=
  AtomicExpression (NumericComparisonExpression "speed" kLessThan (Number_float (f_of_Z i))).
Definition has_load : BooleanExpression := AtomicExpression (PresenceExpression "load").

Lemma half_settled : settled_in half_known fully_known (default_evaluation false).
Proof.
  intros key Hn. destruct (decide (key = "speed")) as [->|Hs]; [by vm_compute|].
  destruct (decide (key = "load")) as [->|Hl]; [by vm_compute in Hn|].
  assert (Hm : forall x, data_ (d_data x) !! key = None -> needs key (Remote x) (default_evaluation false) = true).
  { intros x Hx. unfold needs, Evaluated.hasKey, Data.hasKey. cbn [Evaluated.data]. by rewrite Hx. }
  rewrite Hm in Hn; [done|]. change (data_ (d_data half_known)) with
    (<["speed" := (Value_int 3, 120, kValueDynamic)]> ∅ : gmap Key ValueTimestampAndType).
  by rewrite lookup_insert_ne.
Qed.

Lemma inquiry_decides_witness :
  evaluate (AndExpression (speed_below 5) has_load) (Remote half_known) (default_evaluation false) = Ok kUndecided /\
  evaluateMissingAttributes (AndExpression (speed_below 5) has_load) (Remote half_known) (default_evaluation false)
    = Ok ["load"] /\
  exists v, evaluate (AndExpression (speed_below 5) has_load) (Remote fully_known) (default_evaluation false) = Ok v /\
    v <> kUndecided.
Proof.
  split; [by vm_compute|]. split; [by vm_compute|]. eexists. split; [by vm_compute|].
  apply (inquiry_decides (AndExpression (speed_below 5) has_load) half_known fully_known
           (default_evaluation false) ["load"]); [done|by vm_compute|apply half_settled| |by vm_compute].
  intros key Hk. apply list_elem_of_singleton in Hk as ->. by vm_compute.
Defined.

Lemma decision_is_final_witness :
  evaluate (OrExpression (speed_below 5) has_load) (Remote half_known) (default_evaluation false) = Ok kTrue /\
  (evaluate (OrExpression (speed_below 5) has_load) (Remote fully_known) (default_evaluation false) = Ok kTrue \/
   evaluate (OrExpression (speed_below 5) has_load) (Remote fully_known) (default_evaluation false)
     = Throw could_not_compare).
Proof.
  split; [by vm_compute|].
  apply (decision_is_final (OrExpression (speed_below 5) has_load) half_known fully_known (default_evaluation false));
    [done|apply half_settled|by vm_compute|done].
Defined.

Lemma full_information_is_classical_witness :
  evaluate (NotExpression has_load) (Remote half_known) (default_evaluation true) = Ok kTrue /\
  evaluate (NotExpression has_load) (Remote half_known) (default_evaluation true) =
  if forallb (fun a => is_Ok (evaluateAtomic a (Remote half_known) (default_evaluation true)))
       (atoms (NotExpression has_load))
  then Ok (fuzzy_of_bool (reading
         (fun a => bool_decide (evaluateAtomic a (Remote half_known) (default_evaluation true) = Ok kTrue))
         (NotExpression has_load)))
  else Throw could_not_compare.
Proof.
  split; [by vm_compute|]. apply (full_information_is_classical (NotExpression has_load) (Remote half_known)).
  by right.
Defined.
