(* ===== verification/FindQuery.v ===== *)
(** * Find queries

    Model of [algorithms/esearch/find_query.cpp] and [find_query.h]: what is searched for, how
    many results are wanted, which attributes are to be returned and how fresh they have to be. *)

From S2P Require Import Prelude NodeInfo Containers NodeData BooleanExpression.
Import Data.

Module Find.

Inductive FindQueryScope := kAll | kSome.
Inductive FindQuerySelection := kSelectAll | kSelectSpecific | kSelectUnspecific.

#[global] Instance FindQueryScope_eq_dec : EqDecision FindQueryScope.
Proof. solve_decision. Defined.
#[global] Instance FindQuerySelection_eq_dec : EqDecision FindQuerySelection.
Proof. solve_decision. Defined.

(** The null pointer is [None]. *)
Record FindQuery := {
  expr_ : option BooleanExpression;
  scope_ : FindQueryScope;
  requesting_node_ : NodeInfo;
  validity_threshold_ : Z;
  inquire_unknown_attributes_ : bool;
  inquire_outdated_attributes_ : bool;
  permissive_ : bool;
  selection_ : FindQuerySelection;
  selected_attribute_keys_ : list Key;
}.

(** Assignments to one member: the setters of the class. *)
Definition setBooleanExpression v (q : FindQuery) :=
  let '(Build_FindQuery _ b c d e f g h i) := q in Build_FindQuery v b c d e f g h i.
Definition setScope v (q : FindQuery) :=
  let '(Build_FindQuery a _ c d e f g h i) := q in Build_FindQuery a v c d e f g h i.
Definition setRequestingNode v (q : FindQuery) :=
  let '(Build_FindQuery a b _ d e f g h i) := q in Build_FindQuery a b v d e f g h i.
Definition setValidityThreshold v (q : FindQuery) :=
  let '(Build_FindQuery a b c _ e f g h i) := q in Build_FindQuery a b c v e f g h i.
Definition setInquireUnknownAttributes v (q : FindQuery) :=
  let '(Build_FindQuery a b c d _ f g h i) := q in Build_FindQuery a b c d v f g h i.
Definition setInquireOutdatedAttributes v (q : FindQuery) :=
  let '(Build_FindQuery a b c d e _ g h i) := q in Build_FindQuery a b c d e v g h i.
Definition setPermissive v (q : FindQuery) :=
  let '(Build_FindQuery a b c d e f _ h i) := q in Build_FindQuery a b c d e f v h i.
Definition setSelection v (q : FindQuery) :=
  let '(Build_FindQuery a b c d e f g _ i) := q in Build_FindQuery a b c d e f g v i.
Definition setSelectedAttributeKeys v (q : FindQuery) :=
  let '(Build_FindQuery a b c d e f g h _) := q in Build_FindQuery a b c d e f g h v.

(** The default constructor. *)
Definition empty : FindQuery :=
  {| expr_ := None; scope_ := kAll; requesting_node_ := Node.default; validity_threshold_ := 0;
     inquire_unknown_attributes_ := true; inquire_outdated_attributes_ := true; permissive_ := false;
     selection_ := kSelectUnspecific; selected_attribute_keys_ := [] |}.

(** [expr_->f()]: calling through the null pointer is undefined. *)
Definition expr (q : FindQuery) : outcome BooleanExpression :=
  match expr_ q with Some e => Ok e | None => Undefined end.

Definition serializeBooleanExpression (q : FindQuery) : outcome string := e ← expr q; mret (serialize e).

Definition deserializeScope (scope_string : string) (q : FindQuery) : outcome FindQuery :=
  if String.eqb scope_string "all" then Ok (setScope kAll q)
  else if String.eqb scope_string "some" then Ok (setScope kSome q)
  else Throw (invalid_argument "invalid scope string").

Definition serializeScope (q : FindQuery) : string :=
  match scope_ q with kAll => "all" | kSome => "some" end.

Section Parsing.
(** [FindQueryParser::parseBooleanExpression] *)
Variable parseBooleanExpression : string -> outcome (option BooleanExpression).

Definition deserializeBooleanExpression (expr_string : string) (q : FindQuery) : outcome FindQuery :=
  e ← parseBooleanExpression expr_string; mret (setBooleanExpression e q).

(** [FindQuery(expr_string, scope_string)] *)
Definition of_strings (expr_string scope_string : string) : outcome FindQuery :=
  q ← deserializeBooleanExpression expr_string empty;
  deserializeScope scope_string q.
End Parsing.

Definition createEvaluationInformation (all_information_present : bool) (timestamp_now : Z) (q : FindQuery)
    : EvaluationInformation :=
  {| validity_threshold_timestamp := u64 (timestamp_now - validity_threshold_ q);
     all_information_present := all_information_present;
     inquire_unknown_attributes := inquire_unknown_attributes_ q;
     inquire_outdated_attributes := inquire_outdated_attributes_ q;
     permissive := if negb (inquire_outdated_attributes_ q) then permissive_ q else false |}.

Definition evaluate (d : EvaluatedData) (all_information_present : bool) (timestamp_now : Z) (q : FindQuery)
    : outcome FuzzyValue :=
  let eval_info := createEvaluationInformation all_information_present timestamp_now q in
  e ← expr q;
  val ← BooleanExpression.evaluate e d eval_info;
  if all_information_present && isUndecided val then mret kFalse else mret val.

Definition evaluateMissingAttributes (d : EvaluatedData) (timestamp_now : Z) (q : FindQuery)
    : outcome (list Key) :=
  if bool_decide (selection_ q = kSelectAll) then mret []
  else
    let eval_info := createEvaluationInformation false timestamp_now q in
    e ← expr q;
    missing_attributes ← BooleanExpression.evaluateMissingAttributes e d eval_info;
    match selection_ q with
    | kSelectUnspecific => mret missing_attributes
    | kSelectSpecific => mret (sort_unique (missing_attributes ++ selected_attribute_keys_ q))
    | kSelectAll => mret []
    end.

Definition getRelevantAttributes (q : FindQuery) : outcome (list Key) :=
  e ← expr q; mret (getRelevantKeys e).
Definition getRelevantTopicAttributes (q : FindQuery) : outcome (list Key) :=
  e ← expr q; mret (getRelevantTopicKeys e).

(** ** Properties *)

(** With all information present nothing is left undecided, and turning what is undecided into
    false changes nothing. *)
Lemma evaluate_all_information d now q e :
  expr_ q = Some e ->
  evaluate d true now q = BooleanExpression.evaluate e d (createEvaluationInformation true now q) /\
  evaluate d true now q <> Ok kUndecided.
Proof.
  intros He. unfold evaluate, expr. rewrite He. mred.
  set (i := createEvaluationInformation true now q).
  destruct (evaluate_outcome e d i) as [[v Hv]|Ht]; [|by rewrite Ht]. rewrite Hv.
  assert (Hu : v <> kUndecided) by (apply (all_information_decides e d i); [by right|done]).
  by destruct v.
Qed.

(** A node that is undecided is asked something: when a query is undecided on what is known
    of a remote node, determining the keys to inquire succeeds, and unless everything is
    inquired anyway it yields at least one key. *)
Lemma undecided_keys_nonempty x now q :
  evaluate (Remote x) false now q = Ok kUndecided ->
  exists ks, evaluateMissingAttributes (Remote x) now q = Ok ks /\ (selection_ q = kSelectAll \/ sort_unique ks <> []).
Proof.
  unfold evaluate, evaluateMissingAttributes. intros (e & He & (v & Hv & Hr)%outcome_bind_Ok)%outcome_bind_Ok.
  injection Hr as ->. destruct (bool_decide _) eqn:Es.
  { apply bool_decide_eq_true in Es. exists []. auto. }
  rewrite He. cbn [mbind outcome_bind].
  destruct (missing_returns e x (createEvaluationInformation false now q) kUndecided) as (ks & Hk & Hne); [done|].
  rewrite Hk. cbn [mbind outcome_bind]. apply bool_decide_eq_false in Es. destruct (selection_ q); [done| |].
  - eexists. split; [done|]. right. rewrite !sort_unique_nil. intros [? _]%app_eq_nil. by apply Hne.
  - eexists. split; [done|]. right. rewrite sort_unique_nil. by apply Hne.
Qed.

(** [deserializeScope] reads what [serializeScope] writes. *)
Lemma scope_roundtrip q s : deserializeScope (serializeScope (setScope s q)) q = Ok (setScope s q).
Proof. destruct q, s; reflexivity. Qed.

End Find.
