(* ===== verification/DsnHandler.v ===== *)
(** * The handler of data-storing nodes

    Model of [algorithms/esearch/dsn_handler.cpp]: what a data-storing node (DSN) knows of the
    nodes in its cover area. The routing information it shares with the node is an argument;
    the inquiries it asks for through its callback are returned, in order: the callback only
    sends messages, after the handler has finished changing its own state. *)

From S2P Require Import Prelude RoutingCalculations TreeMapper NodeInfo RoutingInformation Containers NodeData BooleanExpression FindQuery.
Import Data.

Abbreviation CoverData := (list (LogicalNodeInfo * DistributedData)).

Record DSNHandler := {
  is_active_ : bool;
  was_previously_active_ : bool;
  previous_node_info_ : NodeInfo;
  cover_data_ : CoverData;
  cover_area_positions_ : list Pos;
  extended_cover_area_positions_ : list Pos;
  extended_cover_data_ : CoverData;
  request_timestamps_ : gmap Key (list Z);
}.

Definition set_is_active v h :=
  let '(Build_DSNHandler _ b c d e f g i) := h in Build_DSNHandler v b c d e f g i.
Definition set_was_previously_active v h :=
  let '(Build_DSNHandler a _ c d e f g i) := h in Build_DSNHandler a v c d e f g i.
Definition set_previous_node_info v h :=
  let '(Build_DSNHandler a b _ d e f g i) := h in Build_DSNHandler a b v d e f g i.
Definition set_cover_data v h :=
  let '(Build_DSNHandler a b c _ e f g i) := h in Build_DSNHandler a b c v e f g i.
Definition set_cover_area_positions v h :=
  let '(Build_DSNHandler a b c d _ f g i) := h in Build_DSNHandler a b c d v f g i.
Definition set_extended_positions v h :=
  let '(Build_DSNHandler a b c d e _ g i) := h in Build_DSNHandler a b c d e v g i.
Definition set_extended_cover_data v h :=
  let '(Build_DSNHandler a b c d e f _ i) := h in Build_DSNHandler a b c d e f v i.
Definition set_request_timestamps v h :=
  let '(Build_DSNHandler a b c d e f g _) := h in Build_DSNHandler a b c d e f g v.

Module Dsn.
Section Handler.
Context `{Platform} `{Inet} `{Unordered}.

Abbreviation HM := (M DSNHandler).

Definition cover_find (l : LogicalNodeInfo) (m : CoverData) : option DistributedData :=
  assoc_find Logical.eqb l m.

(** A statement about the routing information, whose functions are [const] here. *)
Definition of_routing {A} (m : outcome A) : HM A := lift m.

Definition is_at (l : LogicalNodeInfo) (p : Pos) : bool := (level_ l =? p.1) && (number_ l =? p.2).

(** ** The cover area *)

(** The loop over [cover_data_] in [buildCoverArea]: the entries that stay, and the positions
    that are left. *)
Fixpoint retain (entries : CoverData) (positions : list Pos) : CoverData * list Pos :=
  match entries with
  | [] => ([], positions)
  | (l, data) :: entries' =>
      match find_index (is_at l) positions with
      | None => retain entries' positions
      | Some i =>
          let '(kept, left_over) := retain entries' (list_delete i positions) in ((l, data) :: kept, left_over)
      end
  end.

(** The loop that adds the nodes at the given positions, on one of the two maps. *)
Fixpoint add_nodes (r : RoutingInformation) (positions : list Pos) (m : CoverData) : outcome unit * CoverData :=
  match positions with
  | [] => (Ok tt, m)
  | (level, number) :: positions' =>
      match getNodeInfoByPosition level number r with
      | Ok cover_node =>
          add_nodes r positions'
            (if Node.isInitialized cover_node
             then assoc_assign Logical.eqb (l_node_info_ cover_node)
                    (Distributed.of_address (p_node_info_ cover_node)) m
             else m)
      | Throw e => (Throw e, m)
      | Undefined => (Undefined, m)
      end
  end.

Definition buildCoverArea (r : RoutingInformation) : HM unit :=
  let position := self_node_info_ r in
  cover_area_positions ←
    of_routing (getCoverArea (Node.getLevel position) (Node.getNumber position) (Node.getFanout position));
  modify (set_cover_area_positions cover_area_positions);;
  cover_data ← gets cover_data_;
  let '(kept, left_over) := retain (walk cover_data) cover_area_positions in
  modify (set_cover_data kept);;
  zoom cover_data_ set_cover_data (add_nodes r left_over).

(** [v.erase(std::remove_if(v.begin(), v.end(), p))], which erases one element: behind the
    elements that stay the vector keeps what was there before. When no element is to be
    removed the end iterator is erased. *)
Definition erase_one_removed (p : Pos -> bool) (v : list Pos) : outcome (list Pos) :=
  let kept := List.filter (fun x => negb (p x)) v in
  if Nat.eqb (length kept) (length v) then Undefined
  else Ok (kept ++ drop (S (length kept)) v).

Definition buildTempCoverArea (r : RoutingInformation) : HM unit :=
  fanout ← of_routing (getFanout r);
  first_child ← of_routing (getChild 0 r);
  dsn ← of_routing (getCoveringDSN (Node.getLevel first_child) (Node.getNumber first_child) fanout);
  cover_area_positions ← of_routing (getCoverArea dsn.1 dsn.2 fanout);
  let not_in_temp_ca (tupl : Pos) := negb (tupl.1 =? Node.getLevel first_child) in
  cover_area_positions ← of_routing (erase_one_removed not_in_temp_ca cover_area_positions);
  modify (set_cover_area_positions cover_area_positions);;
  zoom cover_data_ set_cover_data (add_nodes r cover_area_positions).

Definition buildExtendedCoverArea (r : RoutingInformation) : HM unit :=
  next_dsn ← of_routing (getNextDSN r);
  fanout ← of_routing (getFanout r);
  if negb (Node.isInitialized next_dsn) then mret tt
  else
    next_cover_area_positions ←
      of_routing (getCoverArea (Node.getLevel next_dsn) (Node.getNumber next_dsn) fanout);
    let not_in_extended_ca (tupl : Pos) :=
      negb (tupl.1 =? Node.getLevel next_dsn) && (Node.getNumber next_dsn <=? tupl.2) in
    next_cover_area_positions ← of_routing (erase_one_removed not_in_extended_ca next_cover_area_positions);
    modify (set_extended_positions next_cover_area_positions);;
    zoom extended_cover_data_ set_extended_cover_data (add_nodes r next_cover_area_positions).

Definition clear : HM unit := modify (fun h => set_extended_cover_data [] (set_cover_data [] h)).

Definition checkPosition (r : RoutingInformation) : HM unit :=
  modify (set_is_active false);;
  modify (set_previous_node_info (self_node_info_ r));;
  if negb (Node.isInitialized (self_node_info_ r)) then clear
  else
    we_are_dsn ← of_routing (areWeDSN r);
    we_are_temp_dsn ← of_routing (areWeTempDSN r);
    if negb we_are_dsn && negb we_are_temp_dsn then clear
    else
      throw_if (we_are_dsn && we_are_temp_dsn)
        (logic_error "We cannot be a dsn and temp dsn at the same time.");;
      modify (set_is_active true);;
      was_previously_active ← gets was_previously_active_;
      if we_are_dsn && negb was_previously_active then
        buildCoverArea r;;
        next ← of_routing (nextDSNExists r);
        if negb next then buildExtendedCoverArea r
        else
          extended ← gets extended_cover_data_;
          if Nat.eqb (length extended) 0 then mret tt else modify (set_extended_cover_data [])
      else if we_are_temp_dsn && negb was_previously_active then buildTempCoverArea r
      else mret tt.

Definition isActive (r : RoutingInformation) : HM bool :=
  modify (fun h => set_was_previously_active (is_active_ h) h);;
  checkPosition r;;
  gets is_active_.

(** The constructor; the members before it runs. *)
Definition blank : DSNHandler :=
  {| is_active_ := false; was_previously_active_ := false; previous_node_info_ := Node.default;
     cover_data_ := []; cover_area_positions_ := []; extended_cover_area_positions_ := [];
     extended_cover_data_ := []; request_timestamps_ := ∅ |}.
Definition construct (r : RoutingInformation) : outcome DSNHandler :=
  Logical.construct blank (checkPosition r;; modify (set_is_active false)).

(** ** Changes of the routing information *)

(** The nodes [request_attribute_inquiry_callback_] is called with. *)
Definition node_of (peer : LogicalNodeInfo) (data : DistributedData) : NodeInfo :=
  Node.setPhysicalNodeInfo (d_p_node_info_ data) (Node.setLogicalNodeInfo peer Node.default).
Definition requestAttributeInformation (peer : LogicalNodeInfo) (data : DistributedData) : list NodeInfo :=
  if Physical.isInitialized (d_p_node_info_ data) then [node_of peer data] else [].

Definition onNeighborChangeNotification (r : RoutingInformation) (neighbor : NodeInfo) : HM (list NodeInfo) :=
  active ← isActive r;
  if negb active then mret []
  else
    positions ← gets cover_area_positions_;
    if negb (existsb (is_at (l_node_info_ neighbor)) positions) then mret []
    else
      cover_data ← gets cover_data_;
      let peer := l_node_info_ neighbor in
      match cover_find peer cover_data, Physical.isInitialized (p_node_info_ neighbor) with
      | Some _, false => modify (set_cover_data (assoc_erase Logical.eqb peer cover_data));; mret []
      | Some data, true =>
          (if negb (Physical.eqb (d_p_node_info_ data) (p_node_info_ neighbor))
           then modify (set_cover_data (assoc_assign Logical.eqb peer
                  (Distributed.setPhysicalNodeInfo (p_node_info_ neighbor) data) cover_data))
           else mret tt);;
          mret []
      | None, true =>
          let distr_data := Distributed.of_address (p_node_info_ neighbor) in
          modify (set_cover_data (assoc_assign Logical.eqb peer distr_data cover_data));;
          mret (requestAttributeInformation peer distr_data)
      | None, false => mret []
      end.

Definition onNodeInfoChangeNotification (r : RoutingInformation) : HM (list NodeInfo) :=
  active ← isActive r;
  was_previously_active ← gets was_previously_active_;
  if active && negb was_previously_active then
    cover_data ← gets cover_data_;
    mret (e ← walk cover_data; requestAttributeInformation e.1 e.2)
  else mret [].

(** ** Answering queries *)

Fixpoint undecided_of (entries : CoverData) (query : Find.FindQuery) (all_information_present : bool)
    (timestamp_now : Z) : outcome (list (NodeInfo * list Key)) :=
  match entries with
  | [] => mret []
  | (peer, data) :: entries' =>
      val ← Find.evaluate (Remote data) all_information_present timestamp_now query;
      if isUndecided val then
        missing_keys ← Find.evaluateMissingAttributes (Remote data) timestamp_now query;
        rest ← undecided_of entries' query all_information_present timestamp_now;
        mret ((node_of peer data, missing_keys) :: rest)
      else undecided_of entries' query all_information_present timestamp_now
  end.

Definition getUndecidedNodesAndMissingKeys (query : Find.FindQuery) (all_information_present : bool)
    (timestamp_now : Z) (h : DSNHandler) : outcome (list (NodeInfo * list Key)) :=
  undecided_of (walk (cover_data_ h)) query all_information_present timestamp_now.

Fixpoint true_of (entries : CoverData) (query : Find.FindQuery) (timestamp_now : Z) : outcome (list NodeInfo) :=
  match entries with
  | [] => mret []
  | (peer, data) :: entries' =>
      val ← Find.evaluate (Remote data) true timestamp_now query;
      rest ← true_of entries' query timestamp_now;
      mret (if isTrue val then node_of peer data :: rest else rest)
  end.

Definition getTrueNodes (query : Find.FindQuery) (timestamp_now : Z) (h : DSNHandler) : outcome (list NodeInfo) :=
  true_of (walk (cover_data_ h)) query timestamp_now.

(** ** Learning attributes *)

Definition something_wrong : exn := logic_error "something has gone wrong".

(** The loop over the answered attributes, on the entry of the node. *)
Definition store_attribute (update_timestamp : Z) (entry : Key * (Value * ValueType)) : M DistributedData unit :=
  let '(key, (value, type)) := entry in
  updated ← Distributed.update key (value, update_timestamp, type);
  if (updated : bool) then mret tt
  else
    inserted ← Distributed.insert key (value, update_timestamp, type);
    throw_if (negb inserted) something_wrong.

Definition store_attributes (node : NodeInfo) (values : gmap Key (Value * ValueType)) (update_timestamp : Z)
    : M DistributedData unit :=
  data ← get;
  (if negb (Physical.eqb (d_p_node_info_ data) (p_node_info_ node)) then
     if negb (Physical.isInitialized (d_p_node_info_ data)) && Physical.isInitialized (p_node_info_ node)
     then modify (Distributed.setPhysicalNodeInfo (p_node_info_ node))
     else throw something_wrong
   else mret tt);;
  for_each (walk (map_to_list values)) (store_attribute update_timestamp).

(** A statement on the entry of [peer], which exists with the value [data]. *)
Definition on_entry {A} (peer : LogicalNodeInfo) (data : DistributedData) (m : M DistributedData A)
    : M CoverData A :=
  fun c => let '(r, data') := m data in (r, assoc_assign Logical.eqb peer data' c).

Definition updateInquiredOrSubscribedAttributeValues (node : NodeInfo) (values : gmap Key (Value * ValueType))
    (update_timestamp : Z) : HM unit :=
  let peer := l_node_info_ node in
  h ← get;
  match cover_find peer (cover_data_ h) with
  | Some data =>
      zoom cover_data_ set_cover_data (on_entry peer data (store_attributes node values update_timestamp))
  | None =>
      match cover_find peer (extended_cover_data_ h) with
      | Some data =>
          zoom extended_cover_data_ set_extended_cover_data
            (on_entry peer data (store_attributes node values update_timestamp))
      | None => mret tt
      end
  end.

Definition updateRemovedAttributes (node : NodeInfo) (removed_keys : list Key) : HM unit :=
  let peer := l_node_info_ node in
  h ← get;
  match cover_find peer (cover_data_ h) with
  | None => throw something_wrong
  | Some data =>
      throw_if (negb (Physical.eqb (d_p_node_info_ data) (p_node_info_ node))) something_wrong;;
      zoom cover_data_ set_cover_data (on_entry peer data (for_each removed_keys Distributed.remove))
  end.

(** ** Frequencies and subscriptions *)

Definition timestamp_storage_limit : Z := 5.

Definition note_request (request_timestamp : Z) (key : Key) : HM unit :=
  modify (fun h => set_request_timestamps
    (<[key := match request_timestamps_ h !! key with
              | Some queue => Distributed.push_limited timestamp_storage_limit queue request_timestamp
              | None => [request_timestamp]
              end]> (request_timestamps_ h)) h).

Definition notifyAboutQueryRequest (query : Find.FindQuery) (request_timestamp : Z) : HM unit :=
  relevant_keys ← lift (Find.getRelevantAttributes query);
  for_each relevant_keys (note_request request_timestamp).

(** In Hz; a period of 0 gives infinity. *)
Definition calculateFrequency (timestamps : list Z) (timestamp_now : Z) : double :=
  let requests := u8 (Z.of_nat (length timestamps)) in
  if requests <=? 1 then d_of_Z 0
  else
    let period := u64 (timestamp_now - List.hd 0 timestamps) in
    d_div (d_mul (d_of_Z requests) (d_of_Z 1000)) (d_mul (d_of_Z period) (d_of_Z 1)).

Definition min_requests : Z := 3.
Definition min_req_frequency : double := d_div (d_of_Z 1) (d_of_Z 100).

(** [m[node].push_back(key)], entering the node when it is not there *)
Definition push_key (node : NodeInfo) (key : Key) (m : list (NodeInfo * list Key)) : list (NodeInfo * list Key) :=
  assoc_assign Node.eqb node (from_option id [] (assoc_find Node.eqb node m) ++ [key]) m.

Definition getNodesAndKeysToSubscribe (timestamp_now : Z) (h : DSNHandler) : list (NodeInfo * list Key) :=
  foldl (fun sub '(key, timestamps) =>
    let req_frequency := calculateFrequency timestamps timestamp_now in
    if (min_requests <=? Z.of_nat (length timestamps)) && d_le min_req_frequency req_frequency then
      foldl (fun sub '(peer, data) =>
        if Physical.isInitialized (d_p_node_info_ data) &&
           d_lt (calculateFrequency (Distributed.getUpdateTimestamps key data) timestamp_now) req_frequency &&
           negb (Distributed.isKeySubscribed key data)
        then push_key (node_of peer data) key sub else sub)
        sub (walk (cover_data_ h))
    else sub)
    [] (walk (map_to_list (request_timestamps_ h))).

(** The subscriptions placed now: [current_sub_tuples]. *)
Definition current_subscriptions (h : DSNHandler) : list (LogicalNodeInfo * DistributedData * Key) :=
  e ← walk (cover_data_ h);
  if Physical.isInitialized (d_p_node_info_ e.2)
  then (fun key => (e.1, e.2, key)) <$> subscription_ordered_keys_ e.2
  else [].

(** The loop that fills [update_frequencies]: a key that is already there is overwritten. *)
Definition note_update_frequency (timestamp_now : Z) (m : gmap Key (list (NodeInfo * double)))
    (t : LogicalNodeInfo * DistributedData * Key) : gmap Key (list (NodeInfo * double)) :=
  let '(peer, data, key) := t in
  let node := node_of peer data in
  let frequency := calculateFrequency (Distributed.getUpdateTimestamps key data) timestamp_now in
  <[key := [(node, frequency)]]> m.

(** [request_timestamps_[key]] *)
Definition request_times (key : Key) : HM (list Z) :=
  h ← get;
  match request_timestamps_ h !! key with
  | Some timestamps => mret timestamps
  | None => modify (fun h => set_request_timestamps (<[key := []]> (request_timestamps_ h)) h);; mret []
  end.

Fixpoint request_frequencies_of (keys : list Key) (timestamp_now : Z) : HM (gmap Key double) :=
  match keys with
  | [] => mret ∅
  | key :: keys' =>
      timestamps ← request_times key;
      m ← request_frequencies_of keys' timestamp_now;
      mret (<[key := calculateFrequency timestamps timestamp_now]> m)
  end.

Fixpoint unsubscribe_of (frequencies : list (Key * double)) (updates : gmap Key (list (NodeInfo * double)))
    (unsub : list (NodeInfo * list Key)) : outcome (list (NodeInfo * list Key)) :=
  match frequencies with
  | [] => mret unsub
  | (key, request_freq) :: frequencies' =>
      match updates !! key with
      | None => Throw (logic_error "shouldnt happen")
      | Some nodes =>
          unsubscribe_of frequencies' updates
            (foldl (fun unsub '(node, update_freq) =>
               if d_lt request_freq update_freq then push_key node key unsub else unsub) unsub (walk nodes))
      end
  end.

Definition getNodesAndKeysToUnsubscribe (timestamp_now : Z) : HM (list (NodeInfo * list Key)) :=
  current_sub_tuples ← gets current_subscriptions;
  if Nat.eqb (length current_sub_tuples) 0 then mret []
  else
    let sub_keys := sort_unique current_sub_tuples.*2 in
    request_frequencies ← request_frequencies_of sub_keys timestamp_now;
    let update_frequencies := foldl (note_update_frequency timestamp_now) ∅ current_sub_tuples in
    lift (unsubscribe_of (walk (map_to_list request_frequencies)) update_frequencies []).

(** [setPlacedSubscriptionOrders] and [setPlacedUnsubscriptionOrders]: the same loop with
    another operation on the entries. *)
Definition place_orders (place : Key -> M DistributedData unit) (orders : list (NodeInfo * list Key)) : HM unit :=
  for_each (walk orders) (fun '(node, keys) =>
    c ← gets cover_data_;
    match cover_find (l_node_info_ node) c with
    | None => throw (logic_error "subscribed node is not in cover data")
    | Some data => zoom cover_data_ set_cover_data (on_entry (l_node_info_ node) data (for_each keys place))
    end).
Definition setPlacedSubscriptionOrders := place_orders Distributed.addSubscriptionOrderKey.
Definition setPlacedUnsubscriptionOrders := place_orders Distributed.removeSubscriptionOrderKey.

Definition getNodeAttributes (node : NodeInfo) (h : DSNHandler) : list (Key * Value) :=
  match cover_find (l_node_info_ node) (cover_data_ h) with
  | Some data => (fun e => (e.1, e.2.1.1)) <$> walk (map_to_list (getData (d_data data)))
  | None => []
  end.

End Handler.
End Dsn.
