(* ===== verification/DsnProperties.v ===== *)
(** * What a data-storing node knows

    Properties of the handler of [DsnHandler]: an invariant of its cover data over all sequences of
    operations, what a new DSN covers, and three ways in which the code departs from what its
    comments say. *)

From S2P Require Import Prelude RoutingCalculations TreeMapper NodeInfo RoutingInformation RoutingInvariants Containers NodeData BooleanExpression FindQuery DsnHandler.
Import Data Dsn.

(** ** Functions that do not throw *)
Section NoThrow.
Context `{Platform} `{Inet}.

Definition returns_or_undefined {A} (m : outcome A) : Prop := match m with Throw _ => False | _ => True end.

Lemma rou_bind {A B} (m : outcome A) (k : A -> outcome B) :
  returns_or_undefined m -> (forall a, m = Ok a -> returns_or_undefined (k a)) -> returns_or_undefined (m ≫= k).
Proof. mred. destruct m; cbn; intros H1 H2; try done. by apply H2. Qed.
Lemma rou_vec_at {A} (v : list A) i : returns_or_undefined (vec_at v i).
Proof. unfold vec_at. by destruct (v !! i). Qed.
Lemma rou_back {A} (v : list A) : returns_or_undefined (back v).
Proof. unfold back. by destruct (last v). Qed.

Lemma rou_dsn_loop fuel i m f : returns_or_undefined (dsn_loop fuel i m f).
Proof.
  revert i. induction fuel as [|fuel IH]; intros i; cbn; case_match; try done.
  by apply rou_bind.
Qed.
Lemma rou_getDSNSet l f : returns_or_undefined (getDSNSet l f).
Proof.
  unfold getDSNSet. case_match; [done|]. case_match; [done|]. apply rou_bind; [apply rou_dsn_loop|].
  intros dsn_set _. apply rou_bind; [apply rou_back|done].
Qed.
Lemma rou_areWeDSN r : returns_or_undefined (areWeDSN r).
Proof. unfold areWeDSN. apply rou_bind; [apply rou_getDSNSet|done]. Qed.
Lemma rou_first_initialized vs :
  Forall returns_or_undefined vs -> returns_or_undefined (first_initialized vs).
Proof.
  induction 1 as [|v vs Hv _ IH]; cbn; [done|]. apply rou_bind; [done|]. intros nodes _. by case_match.
Qed.
Lemma rou_getLowestNode r : returns_or_undefined (getLowestNode r).
Proof.
  unfold getLowestNode. case_match; [done|]. apply rou_first_initialized.
  repeat constructor; cbn; unfold getLeftRoutingTableNeighborChildrenRightToLeft,
    getRightRoutingTableNeighborChildrenLeftToRight, getLeftRoutingTableNeighborsRightToLeft,
    getRightRoutingTableNeighborsLeftToRight, getLeftRoutingTableNeighborChildrenLeftToRight,
    getLeftRoutingTableNeighborsLeftToRight, range_from, range_to; mred; by repeat case_match.
Qed.
Lemma rou_areWeTempDSN r : returns_or_undefined (areWeTempDSN r).
Proof.
  unfold areWeTempDSN. apply rou_bind; [apply rou_areWeDSN|]. intros [] _; [done|].
  apply rou_bind; [apply rou_getDSNSet|]. intros below _. case_match; [done|].
  induction (children_ r) as [|c cs IH]; cbn; [done|]. case_match; [|done].
  apply rou_bind; [apply rou_getLowestNode|]. intros lowest _. by case_match.
Qed.
End NoThrow.

(** ** The invariant *)
Section Invariant.
Context `{Platform} `{Inet} `{Unordered}.

(** [==] on positions, as equality of what it compares. *)
Definition lkey (l : LogicalNodeInfo) : Z * Z * Z * bool := (level_ l, number_ l, fanout_ l, initialized_ l).

Lemma eqb_lkey l1 l2 : Logical.eqb l1 l2 = true <-> lkey l1 = lkey l2.
Proof.
  rewrite Logical.eqb_spec. unfold lkey, Logical.isInitialized. split; [by intros (-> & -> & -> & ->)|].
  by intros [= -> -> -> ->].
Qed.

Definition keys (m : CoverData) : list (Z * Z * Z * bool) := (fun e => lkey e.1) <$> m.

(** An entry lies in the cover area, has an address and consistent update times. *)
Definition entry_ok (positions : list Pos) (e : LogicalNodeInfo * DistributedData) : Prop :=
  existsb (is_at e.1) positions = true /\ Physical.isInitialized (d_p_node_info_ e.2) = true /\ timestamps_ok e.2.

Definition entries_ok (positions : list Pos) (m : CoverData) : Prop :=
  Forall (entry_ok positions) m /\ NoDup (keys m).

Record handler_ok (h : DSNHandler) : Prop := {
  ok_inactive : is_active_ h = false -> cover_data_ h = [];
  ok_entries : entries_ok (cover_area_positions_ h) (cover_data_ h);
  ok_extended : extended_cover_data_ h = [] /\ extended_cover_area_positions_ h = [];
}.

Lemma is_at_same l l' p : lkey l = lkey l' -> is_at l p = is_at l' p.
Proof. unfold is_at, lkey. by intros [= -> -> _ _]. Qed.

Lemma entry_ok_same positions l l' x : lkey l = lkey l' -> entry_ok positions (l', x) -> entry_ok positions (l, x).
Proof.
  intros Hl [Hp Hr]. split; [|done]. cbn in *. apply existsb_exists in Hp as (p & Hin & Hp).
  apply existsb_exists. exists p. split; [done|]. by rewrite (is_at_same _ _ _ Hl).
Qed.

Lemma keys_assign k v m :
  keys (assoc_assign Logical.eqb k v m) = keys m \/
  lkey k ∉ keys m /\ keys (assoc_assign Logical.eqb k v m) = keys m ++ [lkey k].
Proof.
  unfold keys. induction m as [|[k' v'] m IH]; cbn; [right; split; [by apply not_elem_of_nil|done]|].
  destruct (Logical.eqb k' k) eqn:E; cbn; [by left|]. destruct IH as [IH|[Hn IH]]; rewrite IH; [by left|right].
  split; [|done]. apply not_elem_of_cons. split; [|done]. intros Hk. apply not_true_iff_false in E.
  by apply E, eqb_lkey.
Qed.

Lemma assign_ok positions k v m :
  entries_ok positions m -> entry_ok positions (k, v) -> entries_ok positions (assoc_assign Logical.eqb k v m).
Proof.
  intros [Hf Hd] Hk. split.
  - apply Forall_forall. intros [k' v'] Hin. apply assoc_assign_keys in Hin as [Hin|(-> & [->|[_ He%eqb_lkey]])].
    + rewrite Forall_forall in Hf. by apply Hf.
    + done.
    + by eapply entry_ok_same.
  - destruct (keys_assign k v m) as [->|[Hn ->]]; [done|]. apply NoDup_app. split; [done|]. split; [|by apply NoDup_singleton].
    intros x Hx ->%list_elem_of_singleton. done.
Qed.

Lemma erase_ok positions k m : entries_ok positions m -> entries_ok positions (assoc_erase Logical.eqb k m).
Proof.
  intros [Hf Hd]. split.
  - rewrite Forall_forall in *. intros e He. apply Hf. by apply (assoc_erase_subset Logical.eqb k m).
  - revert Hd. clear Hf. induction m as [|[k' v'] m IH]; cbn; [done|]. intros [Hn Hd]%NoDup_cons.
    destruct (Logical.eqb k' k); cbn; [done|]. apply NoDup_cons. split; [|by apply IH].
    intros Hin. apply Hn. unfold keys in *. apply list_elem_of_fmap in Hin as (e & -> & He).
    apply list_elem_of_fmap. exists e. split; [done|]. by apply (assoc_erase_subset Logical.eqb k m).
Qed.

Lemma find_ok positions k m x : entries_ok positions m -> cover_find k m = Some x -> entry_ok positions (k, x).
Proof.
  intros [Hf _] (k' & Hin & He%eqb_lkey)%assoc_find_Some. rewrite Forall_forall in Hf.
  by eapply entry_ok_same; [|apply (Hf (k', x))].
Qed.

(** What the loop of [buildCoverArea] keeps. *)
Lemma retain_ok positions entries kept left_over P :
  retain entries positions = (kept, left_over) -> positions ⊆ P ->
  kept `sublist_of` entries /\ left_over ⊆ P /\
  Forall (fun e : LogicalNodeInfo * DistributedData => existsb (is_at e.1) P = true) kept.
Proof.
  revert positions kept left_over. induction entries as [|[l x] entries IH]; intros positions kept left_over; cbn.
  - intros [= <- <-] HP. by split_and!.
  - destruct (find_index (is_at l) positions) as [i|] eqn:Ei.
    + destruct (retain entries (list_delete i positions)) as [kept' left'] eqn:Er. intros [= <- <-] HP.
      apply IH in Er as (Hs & Hl & Hf).
      2:{ intros p Hp. apply HP. by apply list_elem_of_delete_inv in Hp. }
      split_and!; [by apply sublist_skip|done|]. constructor; [|done]. cbn.
      apply find_index_Some in Ei as (p & Hp & Ha & _). apply existsb_exists. exists p. split; [|done].
      apply list_elem_of_In, HP, list_elem_of_lookup. by exists i.
    + intros Hr HP. destruct (IH _ _ _ Hr HP) as (Hs & ?). split; [by apply sublist_cons|done].
Qed.

Lemma node_at_position level number r n :
  getNodeInfoByPosition level number r = Ok n -> Node.isInitialized n = true -> is_at (l_node_info_ n) (level, number) = true.
Proof.
  unfold getNodeInfoByPosition. intros (? & _ & (f & _ & (? & _ & Hr)%outcome_bind_Ok)%outcome_bind_Ok)%outcome_bind_Ok.
  injection Hr as <-. destruct (List.find _ _) as [n|] eqn:E; cbn; [|done].
  apply List.find_some in E as [_ Hp]. done.
Qed.

Lemma add_nodes_ok r positions P m :
  entries_ok P m -> positions ⊆ P -> entries_ok P (add_nodes r positions m).2.
Proof.
  revert m. induction positions as [|[level number] positions IH]; intros m Hm HP; cbn; [done|].
  destruct (getNodeInfoByPosition level number r) as [n| |] eqn:E; [|done..].
  apply IH; [|intros p Hp; apply HP; by right]. destruct (Node.isInitialized n) eqn:Ei; [|done].
  apply assign_ok; [done|]. split; cbn.
  - apply existsb_exists. exists (level, number). split; [|by eapply node_at_position].
    apply list_elem_of_In, HP. left.
  - split; [by destruct (andb_prop _ _ Ei)|]. split; cbn; [|apply map_Forall_empty]. intros key. by rewrite !lookup_empty.
Qed.

Lemma sublist_entries_ok P positions entries kept :
  entries_ok P entries -> kept `sublist_of` entries ->
  Forall (fun e : LogicalNodeInfo * DistributedData => existsb (is_at e.1) positions = true) kept ->
  entries_ok positions kept.
Proof.
  intros [Hf Hd] Hs Hp. split.
  - rewrite Forall_forall in *. intros e He. split; [by apply Hp|]. apply Hf. by eapply elem_of_sublist.
  - eapply sublist_NoDup; [done|]. by apply fmap_sublist.
Qed.

Lemma walk_entries_ok P m : entries_ok P m -> entries_ok P (walk m).
Proof.
  intros [Hf Hd]. split; [by rewrite walk_Permutation|]. unfold keys. by rewrite walk_Permutation.
Qed.

(** What a computation keeps, when it returns or throws. *)
Definition preserves {A} (m : M DSNHandler A) : Prop :=
  forall h o h', handler_ok h -> m h = (o, h') -> o <> Undefined -> handler_ok h'.

(** Before [checkPosition]: [was_previously_active_] has taken the role of [is_active_]. *)
Record check_pre (h : DSNHandler) : Prop := {
  pre_inactive : was_previously_active_ h = false -> cover_data_ h = [];
  pre_entries : entries_ok (cover_area_positions_ h) (cover_data_ h);
  pre_extended : extended_cover_data_ h = [] /\ extended_cover_area_positions_ h = [];
}.

Lemma buildCoverArea_entries r h o h' :
  entries_ok (cover_area_positions_ h) (cover_data_ h) -> buildCoverArea r h = (o, h') ->
  entries_ok (cover_area_positions_ h') (cover_data_ h') /\ is_active_ h' = is_active_ h /\
  extended_cover_data_ h' = extended_cover_data_ h /\
  extended_cover_area_positions_ h' = extended_cover_area_positions_ h.
Proof.
  intros He. unfold buildCoverArea, of_routing. mred. destruct (getCoverArea _ _ _) as [area| |]; [|by intros [= <- <-]..].
  destruct h as [a b c d e f g i]; cbn in *. destruct (retain (walk d) area) as [kept left_over] eqn:Er. cbn.
  destruct (retain_ok _ _ _ _ area Er) as (Hs & Hl & Hp); [done|].
  assert (Hk : entries_ok area kept) by (eapply sublist_entries_ok; [by apply walk_entries_ok|done..]).
  pose proof (add_nodes_ok r left_over area kept Hk Hl) as Ha. destruct (add_nodes r left_over kept) as [o' m'].
  by intros [= <- <-].
Qed.

Lemma buildTemp_entries r h o h' :
  cover_data_ h = [] -> buildTempCoverArea r h = (o, h') ->
  entries_ok (cover_area_positions_ h') (cover_data_ h') /\ is_active_ h' = is_active_ h /\
  extended_cover_data_ h' = extended_cover_data_ h /\
  extended_cover_area_positions_ h' = extended_cover_area_positions_ h.
Proof.
  intros He. assert (Hn : forall P, entries_ok P (cover_data_ h)).
  { intros P. rewrite He. split; [by constructor|apply NoDup_nil_2]. }
  unfold buildTempCoverArea, of_routing. mred.
  repeat match goal with |- context [match ?m with Ok _ => _ | _ => _ end] =>
    destruct m; [|by intros [= <- <-]..] end.
  destruct h; cbn in *. subst.
  match goal with |- context [add_nodes r ?l []] =>
    pose proof (add_nodes_ok r l l [] (Hn l) ltac:(done)) as Ha; destruct (add_nodes r l []) end.
  by intros [= <- <-].
Qed.

(** The extended cover area is only built when there is no next DSN, and then nothing is built. *)
Lemma buildExtended_nothing r h o h' :
  nextDSNExists r = Ok false -> buildExtendedCoverArea r h = (o, h') -> h' = h.
Proof.
  unfold nextDSNExists, buildExtendedCoverArea, of_routing. intros (n & Hn & Hi)%outcome_bind_Ok. injection Hi as Hi.
  mred. rewrite Hn. destruct (getFanout r); [|by intros [= <- <-]..]. rewrite Hi. by intros [= <- <-].
Qed.

Lemma temp_not_dsn r : areWeDSN r = Ok true -> areWeTempDSN r = Ok false.
Proof. intros Hd. unfold areWeTempDSN. by rewrite Hd. Qed.

Lemma checkPosition_ok r h o h' :
  check_pre h -> checkPosition r h = (o, h') -> o <> Undefined -> handler_ok h'.
Proof.
  intros [Hi He Hx]. unfold checkPosition, of_routing, clear. mred. destruct h as [a b c d e f g i]; cbn in *.
  assert (Hclear : forall p, handler_ok (Build_DSNHandler false b p [] e f [] i)).
  { intros p. split; cbn; [done|split; [by constructor|apply NoDup_nil_2]|by destruct Hx]. }
  destruct (Node.isInitialized (self_node_info_ r)); cbn; [|by intros [= <- <-]].
  pose proof (rou_areWeDSN r) as Rd. pose proof (rou_areWeTempDSN r) as Rt.
  destruct (areWeDSN r) as [dsn|ex|] eqn:Ed; [|done|by intros [= <- <-]].
  destruct (areWeTempDSN r) as [temp|ex|] eqn:Et; [|done|by intros [= <- <-]].
  destruct dsn; cbn.
  - rewrite (temp_not_dsn r Ed) in Et. injection Et as <-. cbn. destruct b; cbn.
    { intros [= <- <-] _. by split. }
    destruct (buildCoverArea _ _) as [o1 h1] eqn:Eb. apply buildCoverArea_entries in Eb as (G1 & G2 & G3 & G4); [|done].
    cbn in *. assert (Hok : handler_ok h1) by (split; [by rewrite G2|done|by rewrite G3, G4]).
    destruct o1; [|by intros [= <- <-]..]. destruct (nextDSNExists r) as [next| |] eqn:En; [|by intros [= <- <-]..].
    destruct next; cbn.
    + destruct (Nat.eqb _ 0); intros [= <- <-] _; [done|]. destruct h1; cbn in *. split; cbn; [by subst|apply Hok|].
      split; [done|by rewrite G4; destruct Hx].
    + intros Hb _. by rewrite (buildExtended_nothing _ _ _ _ En Hb).
  - destruct temp; cbn; [|by intros [= <- <-]]. destruct b; cbn.
    { intros [= <- <-] _. by split. }
    intros Hb _. apply buildTemp_entries in Hb as (G1 & G2 & G3 & G4); [|by apply Hi]. cbn in *.
    split; [by rewrite G2|done|by rewrite G3, G4].
Qed.

Lemma isActive_preserves r : preserves (isActive r).
Proof.
  intros h o h' Hok. unfold isActive. rewrite bind_modify.
  assert (Hpre : check_pre (set_was_previously_active (is_active_ h) h)).
  { destruct Hok. destruct h; cbn in *. by split. }
  intros Hr Hu. mred_in Hr. destruct (checkPosition r _) as [o1 h1] eqn:E.
  destruct o1; injection Hr as <- <-; [..|done]; by eapply checkPosition_ok.
Qed.

(** *** Changes of one entry *)

Definition data_ok (x : DistributedData) : Prop :=
  Physical.isInitialized (d_p_node_info_ x) = true /\ timestamps_ok x.

Definition keeps_data {A} (m : M DistributedData A) : Prop := forall x, data_ok x -> data_ok (m x).2.

Lemma handler_keeps_bind {A B} (m : M DistributedData A) (k : A -> M DistributedData B) :
  keeps_data m -> (forall a, keeps_data (k a)) -> keeps_data (m ≫= k).
Proof.
  intros Hm Hk x Hx. specialize (Hm x Hx). mred. destruct (m x) as [[a| |] x']; [by apply Hk|done..].
Qed.
Lemma handler_keeps_ret {A} (a : A) : keeps_data (mret a).
Proof. by intros x Hx. Qed.
Lemma handler_keeps_throw {A} e : keeps_data (throw (A := A) e).
Proof. by intros x Hx. Qed.
Lemma handler_keeps_throw_if b e : keeps_data (throw_if b e).
Proof. intros x Hx. unfold throw_if. by destruct b. Qed.
Lemma handler_keeps_for_each {A} (l : list A) f : (forall a, keeps_data (f a)) -> keeps_data (for_each l f).
Proof. intros Hf. induction l; cbn; [apply handler_keeps_ret|]. by apply handler_keeps_bind. Qed.

Lemma keeps_update key entry : keeps_data (Distributed.update key entry).
Proof.
  intros x [Hi Ht]. split; [|by apply update_timestamps_ok]. rewrite <- Hi. f_equal.
  unfold Distributed.update, Distributed.base. mred. destruct (Data.update key entry (d_data x)) as [[[]| |] d'];
    cbn; try done. destruct (update_timestamps_ x !! key) as [queue|]; cbn; [|done]. unfold back.
  destruct (last queue); cbn; [|done]. by destruct (_ <? _).
Qed.
Lemma keeps_insert key entry : keeps_data (Distributed.insert key entry).
Proof.
  intros x [Hi Ht]. split; [|by apply insert_timestamps_ok]. rewrite <- Hi. f_equal.
  unfold Distributed.insert, Distributed.base. mred. destruct (Data.insert key entry (d_data x)) as [[[]| |] d'];
    cbn; try done; by destruct (update_timestamps_ x !! key).
Qed.
Lemma keeps_remove key : keeps_data (Distributed.remove key).
Proof. intros x [Hi Ht]. split; [done|by apply remove_timestamps_ok]. Qed.
Lemma keeps_add_order key : keeps_data (Distributed.addSubscriptionOrderKey key).
Proof. intros x Hx. unfold Distributed.addSubscriptionOrderKey. mred. by case_match. Qed.
Lemma keeps_remove_order key : keeps_data (Distributed.removeSubscriptionOrderKey key).
Proof. intros x Hx. unfold Distributed.removeSubscriptionOrderKey. mred. by case_match. Qed.

Lemma keeps_store_attribute t e : keeps_data (store_attribute t e).
Proof.
  destruct e as [key [value type]]. cbn. apply handler_keeps_bind; [apply keeps_update|]. intros [|]; [apply handler_keeps_ret|].
  apply handler_keeps_bind; [apply keeps_insert|]. intros. apply handler_keeps_throw_if.
Qed.

Lemma keeps_store_attributes node values t : keeps_data (store_attributes node values t).
Proof.
  intros x Hx. unfold store_attributes. rewrite bind_get. apply handler_keeps_bind; [|intros; apply handler_keeps_for_each, keeps_store_attribute|done].
  destruct (negb _); [|apply handler_keeps_ret]. destruct (_ && _) eqn:E; [|apply handler_keeps_throw].
  intros y [_ Hy]. split; [|done]. cbn. by destruct (andb_prop _ _ E).
Qed.

Lemma on_entry_ok {A} P peer data (m : M DistributedData A) c :
  entries_ok P c -> cover_find peer c = Some data -> keeps_data m -> entries_ok P (on_entry peer data m c).2.
Proof.
  intros Hc Hf Hm. unfold on_entry. pose proof (find_ok _ _ _ _ Hc Hf) as [Hp Hd]. specialize (Hm data Hd).
  destruct (m data) as [o data']. cbn in *. by apply assign_ok.
Qed.

Lemma inactive_find h peer x : handler_ok h -> cover_find peer (cover_data_ h) = Some x -> is_active_ h = true.
Proof.
  intros Hok Hf. destruct (is_active_ h) eqn:E; [done|]. rewrite (ok_inactive h Hok E) in Hf. done.
Qed.

(** Replacing the cover data of an active handler by sound data. *)
Lemma set_cover_ok h c :
  handler_ok h -> is_active_ h = true -> entries_ok (cover_area_positions_ h) c -> handler_ok (set_cover_data c h).
Proof. intros Hok Ha Hc. destruct h. split; cbn in *; [by rewrite Ha|done|apply Hok]. Qed.

Lemma entry_step_ok {A} h peer data (m : M DistributedData A) o h' :
  handler_ok h -> cover_find peer (cover_data_ h) = Some data -> keeps_data m ->
  zoom cover_data_ set_cover_data (on_entry peer data m) h = (o, h') -> handler_ok h'.
Proof.
  intros Hok Hf Hm. unfold zoom. pose proof (on_entry_ok _ _ _ m _ (ok_entries h Hok) Hf Hm) as Hc.
  destruct (on_entry peer data m (cover_data_ h)). intros [= <- <-].
  apply set_cover_ok; [done|by eapply inactive_find|done].
Qed.

Lemma handler_preserves_bind {A B} (m : M DSNHandler A) (k : A -> M DSNHandler B) :
  preserves m -> (forall a, preserves (k a)) -> preserves (m ≫= k).
Proof.
  intros Hm Hk h o h' Hok. mred. destruct (m h) as [[a|e|] h1] eqn:E.
  - intros Hr Hu. eapply Hk; [|done|done]. by eapply Hm.
  - intros [= <- <-] _. by eapply Hm.
  - by intros [= <- <-].
Qed.
Lemma preserves_same {A} (m : M DSNHandler A) : (forall h, (m h).2 = h) -> preserves m.
Proof. intros Hm h o h' Hok He _. specialize (Hm h). rewrite He in Hm. by subst. Qed.
Lemma preserves_for_each {A} (l : list A) f : (forall a, preserves (f a)) -> preserves (for_each l f).
Proof. intros Hf. induction l; cbn; [by apply preserves_same|]. by apply handler_preserves_bind. Qed.

Lemma onNeighborChange_preserves r neighbor : preserves (onNeighborChangeNotification r neighbor).
Proof.
  unfold onNeighborChangeNotification. intros h o h' Hok Hr Hu. mred_in Hr.
  destruct (isActive r h) as [o1 h1] eqn:E.
  assert (Hok1 : o1 <> Undefined -> handler_ok h1) by by intros; eapply isActive_preserves.
  destruct o1 as [active|ex|]; [|by injection Hr as <- <-; apply Hok1|by injection Hr as <- <-].
  specialize (Hok1 ltac:(done)).
  assert (Hact : active = is_active_ h1).
  { revert E. unfold isActive. mred. destruct (checkPosition _ _) as [[]]; congruence. }
  destruct active; [|by injection Hr as <- <-]. cbn in Hr.
  destruct (existsb (is_at (l_node_info_ neighbor)) (cover_area_positions_ h1)) eqn:Ep; [|by injection Hr as <- <-].
  cbn in Hr. destruct (cover_find (l_node_info_ neighbor) (cover_data_ h1)) as [data|] eqn:Ef,
    (Physical.isInitialized (p_node_info_ neighbor)) eqn:Ei.
  - destruct (Physical.eqb _ _); injection Hr as <- <-; [done|]. apply set_cover_ok; [done..|].
    apply assign_ok; [apply Hok1|]. destruct (find_ok _ _ _ _ (ok_entries h1 Hok1) Ef) as (? & _ & ?). by split_and!.
  - injection Hr as <- <-. apply set_cover_ok; [done..|]. apply erase_ok, Hok1.
  - injection Hr as <- <-. apply set_cover_ok; [done..|]. apply assign_ok; [apply Hok1|].
    split_and!; [done..|]. split; cbn; [|apply map_Forall_empty]. intros key. by rewrite !lookup_empty.
  - by injection Hr as <- <-.
Qed.

Lemma onNodeInfoChange_preserves r : preserves (onNodeInfoChangeNotification r).
Proof.
  unfold onNodeInfoChangeNotification. apply handler_preserves_bind; [apply isActive_preserves|]. intros active.
  apply preserves_same. intros h. mred. by case_match.
Qed.

Lemma updateInquired_preserves node values t : preserves (updateInquiredOrSubscribedAttributeValues node values t).
Proof.
  intros h o h' Hok. unfold updateInquiredOrSubscribedAttributeValues. rewrite bind_get.
  destruct (cover_find _ (cover_data_ h)) as [data|] eqn:Ef.
  - intros Hr _. eapply entry_step_ok; [done..| |done]. apply keeps_store_attributes.
  - rewrite (proj1 (ok_extended h Hok)). cbn. intros [= <- <-] _. done.
Qed.

Lemma updateRemoved_preserves node removed : preserves (updateRemovedAttributes node removed).
Proof.
  intros h o h' Hok. unfold updateRemovedAttributes. rewrite bind_get.
  destruct (cover_find _ (cover_data_ h)) as [data|] eqn:Ef; [|by intros [= <- <-]].
  rewrite bind_throw_if. case_match; [by intros [= <- <-]|]. intros Hr _.
  eapply entry_step_ok; [done..| |done]. apply handler_keeps_for_each, keeps_remove.
Qed.

Lemma request_timestamps_preserves f : preserves (modify (fun h => set_request_timestamps (f h) h)).
Proof. intros h o h' [? ? ?]. intros [= <- <-] _. destruct h. by split. Qed.

Lemma notifyAboutQueryRequest_preserves query t : preserves (notifyAboutQueryRequest query t).
Proof.
  unfold notifyAboutQueryRequest. apply handler_preserves_bind; [by apply preserves_same|]. intros ks.
  apply preserves_for_each. intros key. apply request_timestamps_preserves.
Qed.

Lemma place_orders_preserves place orders : (forall key, keeps_data (place key)) -> preserves (place_orders place orders).
Proof.
  intros Hp. apply preserves_for_each. intros [node ks] h o h' Hok. rewrite bind_gets.
  destruct (cover_find _ _) as [data|] eqn:Ef; [|by intros [= <- <-]]. intros Hr _.
  eapply entry_step_ok; [done..| |done]. by apply handler_keeps_for_each.
Qed.

Lemma request_frequencies_preserves ks t : preserves (request_frequencies_of ks t).
Proof.
  induction ks as [|key ks IH]; cbn; [by apply preserves_same|]. apply handler_preserves_bind.
  - unfold request_times. intros h o h' Hok. rewrite bind_get. destruct (_ !! key); [by intros [= <- <-]|].
    rewrite bind_modify. intros [= <- <-] Hu. 
    by apply (request_timestamps_preserves (fun h => <[key := []]> (request_timestamps_ h)) h (Ok tt)).
  - intros timestamps. apply handler_preserves_bind; [done|]. intros. by apply preserves_same.
Qed.

Lemma unsubscribe_preserves t : preserves (getNodesAndKeysToUnsubscribe t).
Proof.
  unfold getNodesAndKeysToUnsubscribe. apply handler_preserves_bind; [by apply preserves_same|]. intros subs.
  case_match; [by apply preserves_same|]. apply handler_preserves_bind; [apply request_frequencies_preserves|].
  intros. by apply preserves_same.
Qed.

(** *** Every operation *)

Inductive handler_op :=
| op_isActive (r : RoutingInformation)
| op_neighborChange (r : RoutingInformation) (neighbor : NodeInfo)
| op_nodeInfoChange (r : RoutingInformation)
| op_updateAttributes (node : NodeInfo) (values : gmap Key (Value * ValueType)) (update_timestamp : Z)
| op_removeAttributes (node : NodeInfo) (removed_keys : list Key)
| op_queryRequest (query : Find.FindQuery) (request_timestamp : Z)
| op_placeSubscriptions (orders : list (NodeInfo * list Key))
| op_placeUnsubscriptions (orders : list (NodeInfo * list Key))
| op_keysToUnsubscribe (timestamp_now : Z).

Definition run_handler (op : handler_op) : M DSNHandler unit :=
  match op with
  | op_isActive r => isActive r;; mret tt
  | op_neighborChange r n => onNeighborChangeNotification r n;; mret tt
  | op_nodeInfoChange r => onNodeInfoChangeNotification r;; mret tt
  | op_updateAttributes n v t => updateInquiredOrSubscribedAttributeValues n v t
  | op_removeAttributes n ks => updateRemovedAttributes n ks
  | op_queryRequest q t => notifyAboutQueryRequest q t
  | op_placeSubscriptions o => setPlacedSubscriptionOrders o
  | op_placeUnsubscriptions o => setPlacedUnsubscriptionOrders o
  | op_keysToUnsubscribe t => getNodesAndKeysToUnsubscribe t;; mret tt
  end.

(** Handlers a sequence of calls leads to, exceptions included, from the handler of a node that
    knows no other node yet. *)
Inductive reachable_handler : DSNHandler -> Prop :=
| reach_construct r h :
    getAllUniqueKnownExistingNeighbors r = [] -> construct r = Ok h -> reachable_handler h
| reach_step op h o h' :
    reachable_handler h -> run_handler op h = (o, h') -> o <> Undefined -> reachable_handler h'.

Lemma run_handler_preserves op : preserves (run_handler op).
Proof.
  assert (Hret : forall (A : Type) (m : M DSNHandler A), preserves m -> preserves (m;; mret tt)).
  { intros A m Hm. apply handler_preserves_bind; [done|]. intros. by apply preserves_same. }
  destruct op; cbn [run_handler].
  - apply Hret, isActive_preserves.
  - apply Hret, onNeighborChange_preserves.
  - apply Hret, onNodeInfoChange_preserves.
  - apply updateInquired_preserves.
  - apply updateRemoved_preserves.
  - apply notifyAboutQueryRequest_preserves.
  - apply place_orders_preserves, keeps_add_order.
  - apply place_orders_preserves, keeps_remove_order.
  - apply Hret, unsubscribe_preserves.
Qed.

Lemma add_nodes_nothing r positions :
  getAllUniqueKnownExistingNeighbors r = [] -> (add_nodes r positions []).2 = [].
Proof.
  intros Hn. induction positions as [|[level number] positions IH]; cbn; [done|].
  destruct (getNodeInfoByPosition level number r) as [n| |] eqn:E; [|done..].
  assert (Hi : Node.isInitialized n = false); [|by rewrite Hi].
  revert E. unfold getNodeInfoByPosition. rewrite Hn. cbn.
  intros (? & _ & (f & _ & (? & _ & Hr)%outcome_bind_Ok)%outcome_bind_Ok)%outcome_bind_Ok. by injection Hr as <-.
Qed.

Lemma build_nothing r h o h' :
  getAllUniqueKnownExistingNeighbors r = [] -> cover_data_ h = [] ->
  buildCoverArea r h = (o, h') \/ buildTempCoverArea r h = (o, h') ->
  cover_data_ h' = [] /\ extended_cover_data_ h' = extended_cover_data_ h /\
  extended_cover_area_positions_ h' = extended_cover_area_positions_ h.
Proof.
  intros Hn Hc. destruct h; cbn in Hc. subst. intros [Hb|Hb]; revert Hb.
  - unfold buildCoverArea, of_routing. mred. destruct (getCoverArea _ _ _) as [area| |]; [|by intros [= <- <-]..].
    cbn. rewrite (proj2 (walk_nil (A := LogicalNodeInfo * DistributedData) [])) by done. cbn.
    pose proof (add_nodes_nothing r area Hn) as Ha. destruct (add_nodes r area []). cbn in Ha. subst. by intros [= <- <-].
  - unfold buildTempCoverArea, of_routing. mred.
    repeat match goal with |- context [match ?m with Ok _ => _ | _ => _ end] =>
      destruct m; [|by intros [= <- <-]..] end. cbn.
    match goal with |- context [add_nodes r ?l []] =>
      pose proof (add_nodes_nothing r l Hn) as Ha; destruct (add_nodes r l []) end.
    cbn in Ha. subst. by intros [= <- <-].
Qed.

Lemma construct_ok r h : getAllUniqueKnownExistingNeighbors r = [] -> construct r = Ok h -> handler_ok h.
Proof.
  intros Hn. assert (Hempty : forall h1 : DSNHandler, cover_data_ h1 = [] -> extended_cover_data_ h1 = [] ->
    extended_cover_area_positions_ h1 = [] -> handler_ok (set_is_active false h1)).
  { intros [] Hc Hx Hp. cbn in *. subst. split; cbn; [done|split; [by constructor|apply NoDup_nil_2]|done]. }
  unfold construct, Logical.construct. mred. destruct (checkPosition r blank) as [o h1] eqn:E.
  destruct o as [[]| |]; [|done..]. intros [= <-]. revert E. unfold checkPosition, of_routing, clear. mred. cbn.
  destruct (Node.isInitialized _); cbn; [|by intros [= <-]; apply Hempty].
  destruct (areWeDSN r) as [dsn| |] eqn:Ed; [|done..]. destruct (areWeTempDSN r) as [temp| |] eqn:Et; [|done..].
  destruct dsn.
  - rewrite (temp_not_dsn r Ed) in Et. injection Et as <-. cbn. destruct (buildCoverArea r _) as [o1 h2] eqn:Eb.
    apply (or_introl (B := buildTempCoverArea r _ = _)), build_nothing in Eb as (Gc & Gx & Gp); [|done..]. cbn in *.
    destruct o1; [|done..]. destruct (nextDSNExists r) as [next| |] eqn:En; [|done..]. destruct next; cbn.
    + destruct (Nat.eqb _ 0); intros [= <-]; apply Hempty; try done; by destruct h2.
    + intros Hx. rewrite (buildExtended_nothing _ _ _ _ En Hx). by apply Hempty.
  - cbn. destruct temp; cbn; [|by intros [= <-]; apply Hempty]. intros Hb.
    apply (or_intror (A := buildCoverArea r _ = _)), build_nothing in Hb as (Gc & Gx & Gp); [|done..]. cbn in *. by apply Hempty.
Qed.

Lemma reachable_handler_ok h : reachable_handler h -> handler_ok h.
Proof.
  induction 1 as [r h Hn Hc|op h o h' _ IH Hr Hu]; [by eapply construct_ok|by eapply run_handler_preserves].
Qed.

End Invariant.

(** ** Theorems *)
Section Theorems.
Context `{Platform} `{Inet} `{Unordered}.

(** C20: what a data-storing node knows, after any sequence of notifications, answers and queries
    (whatever the routing information was at each of them): every node of its cover data lies
    in its cover area, has an address and consistent update times, and appears once; a node
    that is not active knows nothing; and the extended cover area, which is to take in the
    nodes of a missing next DSN, has never been filled. *)
Theorem cover_data_invariant h :
  reachable_handler h ->
  (forall l x, (l, x) ∈ cover_data_ h ->
     (level_ l, number_ l) ∈ cover_area_positions_ h /\
     Physical.isInitialized (d_p_node_info_ x) = true /\
     (forall key, Data.hasKey key (d_data x) = true <-> Distributed.getUpdateTimestamps key x <> [])) /\
  (forall i j l1 l2 x1 x2, cover_data_ h !! i = Some (l1, x1) -> cover_data_ h !! j = Some (l2, x2) ->
     Logical.eqb l1 l2 = true -> i = j) /\
  (is_active_ h = false -> cover_data_ h = []) /\
  extended_cover_data_ h = [] /\ extended_cover_area_positions_ h = [].
Proof.
  intros Hr%reachable_handler_ok. destruct Hr as [Hi [He Hd] [Hx Hp]]. split_and!; try done.
  - intros l x Hin. rewrite Forall_forall in He. destruct (He _ Hin) as (Ha & Hp' & Ht). cbn in *. split_and!; [|done|].
    + apply existsb_exists in Ha as ([a b] & Hin'%list_elem_of_In & Hat). unfold is_at in Hat. cbn in Hat.
      by replace (level_ l, number_ l) with (a, b) by (f_equal; lia).
    + intros key. rewrite hasKey_lookup, (proj1 Ht key). unfold Distributed.getUpdateTimestamps.
      destruct (_ !! key) as [queue|] eqn:E; cbn; [|split; [by intros []|done]].
      split; [intros _; apply (proj2 Ht key queue E)|by eexists].
  - intros i j l1 l2 x1 x2 H1' H2' He'%eqb_lkey. apply (NoDup_lookup (keys (cover_data_ h)) i j (lkey l1)); [done|..];
      unfold keys; rewrite list_lookup_fmap; [by rewrite H1'|rewrite H2'; cbn; by rewrite He'].
Qed.

(** What is stored for a position is what the routing information knows of it. *)
Definition stored_from (r : RoutingInformation) (m : CoverData) : Prop :=
  forall l x n, cover_find l m = Some x -> getNodeInfoByPosition (level_ l) (number_ l) r = Ok n ->
    x = Distributed.of_address (p_node_info_ n).

Lemma find_assign_cases k v (m : CoverData) l x :
  cover_find l (assoc_assign Logical.eqb k v m) = Some x ->
  x = v /\ lkey l = lkey k \/ lkey l <> lkey k /\ cover_find l m = Some x.
Proof.
  unfold cover_find. destruct (decide (lkey l = lkey k)) as [He|Hne].
  - intros Hf. left. split; [|done]. revert Hf. clear -He.
    induction m as [|[k' v'] m IH]; cbn.
    + destruct (Logical.eqb k l); [congruence|done].
    + destruct (Logical.eqb k' k) eqn:E; cbn.
      * apply eqb_lkey in E. assert (Hl : Logical.eqb k' l = true) by (apply eqb_lkey; congruence).
        rewrite Hl. congruence.
      * assert (Hl : Logical.eqb k' l = false).
        { apply not_true_iff_false. rewrite eqb_lkey. intros Hk. apply not_true_iff_false in E. apply E, eqb_lkey. congruence. }
        by rewrite Hl.
  - intros Hf. right. split; [done|]. rewrite <- Hf. symmetry. apply assoc_find_assign_ne.
    + intros a Ha%eqb_lkey. apply not_true_iff_false. rewrite eqb_lkey. congruence.
    + apply not_true_iff_false. rewrite eqb_lkey. congruence.
Qed.

Lemma find_assign_some k v (m : CoverData) l : is_Some (cover_find l m) -> is_Some (cover_find l (assoc_assign Logical.eqb k v m)).
Proof.
  unfold cover_find. induction m as [|[k' v'] m IH]; cbn; [by intros []|].
  destruct (Logical.eqb k' k); cbn; destruct (Logical.eqb k' l); try done; by eexists.
Qed.

Lemma add_nodes_stored r positions m m' :
  add_nodes r positions m = (Ok tt, m') -> stored_from r m ->
  stored_from r m' /\ (forall l, is_Some (cover_find l m) -> is_Some (cover_find l m')) /\
  (forall p n, p ∈ positions -> getNodeInfoByPosition p.1 p.2 r = Ok n -> Node.isInitialized n = true ->
     is_Some (cover_find (l_node_info_ n) m')).
Proof.
  revert m. induction positions as [|[level number] positions IH]; intros m; cbn.
  { intros [= <-] Hs. split_and!; [done..|]. intros p n Hp. by apply not_elem_of_nil in Hp. }
  destruct (getNodeInfoByPosition level number r) as [n| |] eqn:E; [|done..].
  set (m1 := if Node.isInitialized n then _ else m). intros Ha Hs.
  assert (Hm : forall l, is_Some (cover_find l m) -> is_Some (cover_find l m1)).
  { intros l Hl. unfold m1. destruct (Node.isInitialized n); [by apply find_assign_some|done]. }
  destruct (IH m1 Ha) as (Hs' & Hm' & Hp').
  { unfold m1. destruct (Node.isInitialized n) eqn:Ei; [|done].
    intros l x n' [[-> Hl]|[Hl Hf]]%find_assign_cases Hn'; [|by eapply Hs].
    apply (node_at_position _ _ _ _ E) in Ei. unfold is_at in Ei. cbn in Ei. injection Hl as Hl1 Hl2 _ _.
    replace (level_ l) with level in Hn' by lia. replace (number_ l) with number in Hn' by lia. congruence. }
  split_and!; [done|by intros l Hl; apply Hm', Hm|].
  intros p n' [->|Hp]%elem_of_cons Hn' Hi; [|by eapply Hp']. cbn in Hn'. apply Hm'. unfold m1.
  assert (n' = n) as -> by congruence. rewrite Hi. unfold cover_find. rewrite assoc_find_assign; [by eexists|].
  intros k. by apply eqb_lkey.
Qed.

(** What a new data-storing node covers. When a node that was not active finds itself at a
    DSN position, its cover area is that of the position, and for every position of the area
    at which the routing information knows a node, that node is in the cover data with its
    address and no attributes yet. *)
Theorem new_dsn_covers_known_nodes r h h' :
  reachable_handler h -> is_active_ h = false -> Node.isInitialized (self_node_info_ r) = true ->
  areWeDSN r = Ok true -> isActive r h = (Ok true, h') ->
  let self := self_node_info_ r in
  getCoverArea (Node.getLevel self) (Node.getNumber self) (Node.getFanout self) = Ok (cover_area_positions_ h') /\
  forall p n, p ∈ cover_area_positions_ h' -> getNodeInfoByPosition p.1 p.2 r = Ok n ->
    Node.isInitialized n = true -> cover_find (l_node_info_ n) (cover_data_ h') = Some (Distributed.of_address (p_node_info_ n)).
Proof.
  intros Hr%reachable_handler_ok Hi Hs Hd Ha self. pose proof (ok_inactive h Hr Hi) as Hc.
  destruct h as [a b c d e f g i]; cbn in *. subst. revert Ha.
  unfold isActive, checkPosition, buildCoverArea, of_routing. mred. cbn.
  rewrite Hs, Hd, (temp_not_dsn r Hd). cbn. fold self.
  destruct (getCoverArea _ _ _) as [area| |]; [|done..]. cbn.
  rewrite (proj2 (walk_nil (A := LogicalNodeInfo * DistributedData) [])) by done. cbn.
  destruct (add_nodes r area []) as [o m] eqn:E. destruct o as [[]| |]; [|done..]. cbn.
  assert (Hfin : forall h1 : DSNHandler, cover_area_positions_ h1 = area -> cover_data_ h1 = m ->
    Ok area = Ok (cover_area_positions_ h1) /\
    forall p n, p ∈ cover_area_positions_ h1 -> getNodeInfoByPosition p.1 p.2 r = Ok n ->
      Node.isInitialized n = true ->
      cover_find (l_node_info_ n) (cover_data_ h1) = Some (Distributed.of_address (p_node_info_ n))).
  { intros h1 -> ->. split; [done|]. intros p n Hp Hn Hin.
    destruct (add_nodes_stored r area [] m E) as (Hst & _ & Hall); [done|].
    destruct (Hall p n Hp Hn Hin) as [x Hx]. rewrite Hx. f_equal. eapply Hst; [done|].
    apply (node_at_position _ _ _ _ Hn) in Hin as Hat. unfold is_at in Hat. cbn in Hat.
    replace (level_ (l_node_info_ n)) with p.1 by lia. by replace (number_ (l_node_info_ n)) with p.2 by lia. }
  destruct (nextDSNExists r) as [next| |] eqn:En; [|done..]. destruct next; cbn.
  - destruct (Nat.eqb _ 0); intros [= <-]; by apply Hfin.
  - destruct (buildExtendedCoverArea r _) as [o1 h1] eqn:Eb. rewrite (buildExtended_nothing _ _ _ _ En Eb) in *.
    destruct o1; [|done..]. intros [= <-]. by apply Hfin.
Qed.

(** A DSN that moves to another DSN position keeps its old cover area. While the handler is
    active, finding itself at a DSN position changes neither the cover area nor the cover
    data, although [checkPosition] is documented to update both when the position changed. *)
Theorem moved_dsn_keeps_cover_area r h :
  is_active_ h = true -> Node.isInitialized (self_node_info_ r) = true -> areWeDSN r = Ok true ->
  exists h', isActive r h = (Ok true, h') /\ cover_area_positions_ h' = cover_area_positions_ h /\
    cover_data_ h' = cover_data_ h /\ previous_node_info_ h' = self_node_info_ r.
Proof.
  intros Ha Hs Hd. destruct h as [a b c d e f g i]; cbn in *. subst.
  unfold isActive, checkPosition, of_routing. mred. cbn. rewrite Hs, Hd, (temp_not_dsn r Hd). cbn. by eexists.
Qed.

(** Erasing the first of the elements to be removed leaves the others in place. *)
Lemma erase_one_of_many level (numbers : list Z) (child : Pos) (children : list Pos) :
  (forall p, p ∈ child :: children -> p.1 <> level) ->
  erase_one_removed (fun p => negb (p.1 =? level)) ((pair level <$> numbers) ++ child :: children) =
  Ok ((pair level <$> numbers) ++ children).
Proof.
  intros Hc. unfold erase_one_removed.
  assert (Hf : List.filter (fun x : Pos => negb (negb (x.1 =? level))) ((pair level <$> numbers) ++ child :: children)
    = pair level <$> numbers).
  { rewrite List.filter_app. replace (List.filter _ (child :: children)) with (@nil Pos).
    - rewrite app_nil_r. induction numbers as [|n numbers IH]; cbn; [done|]. rewrite Z.eqb_refl. cbn. by rewrite IH.
    - symmetry. induction (child :: children) as [|c cs IH]; cbn; [done|].
      destruct (Z.eqb_spec c.1 level) as [He|_]; [by destruct (Hc c ltac:(left))|]. cbn. apply IH. intros p Hp. apply Hc. by right. }
  rewrite Hf. rewrite length_app. cbn [length]. destruct (Nat.eqb_spec (length (pair level <$> numbers))
    (length (pair level <$> numbers) + S (length children))) as [He|_]; [lia|].
  rewrite drop_app_ge by lia. by replace (S (length _) - length _)%nat with 1%nat by lia.
Qed.

(** The cover area of a temporary DSN has positions it should not have. Of the positions
    [getCoverArea] gives (those of the DSN's level, then their children), the code means to
    keep those of the level of the first child; since the erased range has one element, the
    area keeps all children of these positions but the first. *)
Theorem temp_cover_area_keeps_children r h h' fanout first_child dsn numbers child children :
  getFanout r = Ok fanout -> getChild 0 r = Ok first_child ->
  getCoveringDSN (Node.getLevel first_child) (Node.getNumber first_child) fanout = Ok dsn ->
  getCoverArea dsn.1 dsn.2 fanout = Ok ((pair (Node.getLevel first_child) <$> numbers) ++ child :: children) ->
  (forall p, p ∈ child :: children -> p.1 <> Node.getLevel first_child) ->
  buildTempCoverArea r h = (Ok tt, h') ->
  cover_area_positions_ h' = (pair (Node.getLevel first_child) <$> numbers) ++ children.
Proof.
  intros Hf Hc Hd Ha Hn. unfold buildTempCoverArea, of_routing. mred. rewrite Hf, Hc, Hd, Ha.
  rewrite erase_one_of_many by done. destruct h; cbn. destruct (add_nodes r _ _). by intros [= -> <-].
Qed.

(** What a query selects: exactly the covered nodes on which it is true. *)
Lemma elem_of_true_of entries query now nodes :
  true_of entries query now = Ok nodes ->
  forall n, n ∈ nodes <-> exists peer data, (peer, data) ∈ entries /\ n = node_of peer data /\
    Find.evaluate (Remote data) true now query = Ok kTrue.
Proof.
  revert nodes. induction entries as [|[peer data] entries IH]; intros nodes; cbn.
  { intros [= <-] n. split; [by intros ?%not_elem_of_nil|]. intros (? & ? & Hin & _). by apply not_elem_of_nil in Hin. }
  intros (v & Hv & (rest & Hr & Hn)%outcome_bind_Ok)%outcome_bind_Ok n. injection Hn as <-. specialize (IH rest Hr n).
  destruct (isTrue v) eqn:Et.
  - apply isTrue_spec in Et as ->. rewrite elem_of_cons, IH. split.
    + intros [->|(p & d & Hin & ?)]; [exists peer, data; split; [left|done]|exists p, d; split; [by right|done]].
    + intros (p & d & [[= -> ->]|Hin]%elem_of_cons & Heq & He); [by left|right; by exists p, d].
  - rewrite IH. split.
    + intros (p & d & Hin & ?). exists p, d. split; [by right|done].
    + intros (p & d & [[= -> ->]|Hin]%elem_of_cons & Heq & He); [|by exists p, d].
      rewrite Hv in He. injection He as ->. done.
Qed.

(** Every undecided node comes with the keys to ask it for. *)
Lemma undecided_of_nonempty entries query all now nodes n ks :
  undecided_of entries query all now = Ok nodes -> (n, ks) ∈ nodes ->
  exists peer data, (peer, data) ∈ entries /\ n = node_of peer data /\
    (all = false -> Find.selection_ query = Find.kSelectAll \/ sort_unique ks <> []).
Proof.
  revert nodes. induction entries as [|[peer data] entries IH]; intros nodes; cbn.
  { intros [= <-] Hin. by apply not_elem_of_nil in Hin. }
  intros (v & Hv & Hr)%outcome_bind_Ok. destruct (isUndecided v) eqn:Eu.
  - apply isUndecided_spec in Eu as ->. apply outcome_bind_Ok in Hr as (mk & Hm & (rest & Hr & Hn)%outcome_bind_Ok).
    injection Hn as <-. intros [[= -> ->]|Hin]%elem_of_cons.
    + exists peer, data. split; [left|]. split; [done|]. intros ->.
      destruct (Find.undecided_keys_nonempty data now query Hv) as (ks' & Hk & ?). congruence.
    + destruct (IH rest Hr Hin) as (p & d & ? & ?). exists p, d. split; [by right|done].
  - intros Hin. destruct (IH nodes Hr Hin) as (p & d & ? & ?). exists p, d. split; [by right|done].
Qed.

End Theorems.

(** ** Examples *)
Section Examples.
#[local] Existing Instance x86_64.
#[local] Existing Instance ipv4_only.
#[local] Existing Instance in_order.

(** The root of a binary tree that knows its left child, and 1:0 of the same tree. *)
Definition dsn_root : RoutingInformation :=
  match construct_RI (example_node 0 0) with Ok r => (setChild (example_node 1 0) 0 r).2 | _ => default_RI end.
Definition below_root : RoutingInformation :=
  match construct_RI (example_node 1 0) with Ok r => r | _ => default_RI end.

Lemma blank_reachable : reachable_handler blank.
Proof. apply (reach_construct default_RI); vm_compute; reflexivity. Defined.

Definition root_handler : DSNHandler := (isActive dsn_root blank).2.

Lemma root_handler_reachable : reachable_handler root_handler.
Proof.
  apply (reach_step (op_isActive dsn_root) blank (Ok tt)); [apply blank_reachable|vm_compute; reflexivity|done].
Defined.

Lemma cover_data_invariant_witness :
  length (cover_data_ root_handler) = 1%nat /\ extended_cover_data_ root_handler = [].
Proof.
  split; [vm_compute; reflexivity|].
  exact (proj1 (proj2 (proj2 (proj2 (cover_data_invariant root_handler root_handler_reachable))))).
Defined.

Lemma new_dsn_covers_known_nodes_witness :
  cover_find (l_node_info_ (example_node 1 0)) (cover_data_ root_handler) =
  Some (Distributed.of_address (p_node_info_ (example_node 1 0))).
Proof.
  refine (proj2 (new_dsn_covers_known_nodes dsn_root blank root_handler blank_reachable _ _ _ _) (1, 0)
    (example_node 1 0) _ _ _); try (vm_compute; reflexivity). vm_compute. apply list_elem_of_In. by left.
Defined.

Lemma moved_dsn_keeps_cover_area_witness :
  exists h', isActive dsn_root root_handler = (Ok true, h') /\
    cover_area_positions_ h' = cover_area_positions_ root_handler /\
    cover_data_ h' = cover_data_ root_handler /\ previous_node_info_ h' = self_node_info_ dsn_root.
Proof. apply (moved_dsn_keeps_cover_area dsn_root root_handler); vm_compute; reflexivity. Defined.

Lemma temp_cover_area_keeps_children_witness :
  cover_area_positions_ (buildTempCoverArea below_root blank).2 =
  (pair 2 <$> [0; 1; 3]) ++ [(3, 1); (3, 2); (3, 3); (3, 6); (3, 7); (3, 4); (3, 5)].
Proof.
  apply (temp_cover_area_keeps_children below_root blank _ 2
    (match getChild 0 below_root with Ok c => c | _ => Node.default end) (2, 2) [0; 1; 3] (3, 0)
    [(3, 1); (3, 2); (3, 3); (3, 6); (3, 7); (3, 4); (3, 5)]); try (vm_compute; reflexivity).
  intros p Hp. vm_compute in Hp |- *. intros Hl. apply list_elem_of_In in Hp. cbn in Hp.
  intuition (subst; discriminate).
Defined.

End Examples.
