(* ===== verification/TreeHelper.v ===== *)
(** * Positions in Minhcast

    Model of [natter/src/utils/tree_helper.cpp] and [tree_helper.h]: positions with their fanout,
    ordered as [std::tuple], and the routing tables Minhcast recomputes from them. The tables
    are shown to be those MINHTON maintains. *)

From Stdlib Require Import Ascii.
From S2P Require Import Prelude RoutingCalculations TreeMapper NodeInfo.

(** [std::tuple<Level, Number, Fanout>] *)
Definition LevelNumber : Type := Z * Z * Z.
Definition ln_level (p : LevelNumber) : Z := p.1.1.
Definition ln_number (p : LevelNumber) : Z := p.1.2.
Definition ln_fanout (p : LevelNumber) : Z := p.2.

(** [operator<] of the tuple: lexicographic. *)
Definition ln_lt (p q : LevelNumber) : bool :=
  if ln_level p <? ln_level q then true
  else if ln_level q <? ln_level p then false
  else if ln_number p <? ln_number q then true
  else if ln_number q <? ln_number p then false
  else ln_fanout p <? ln_fanout q.

Definition ln_eqb (p q : LevelNumber) : bool :=
  (ln_level p =? ln_level q) && (ln_number p =? ln_number q) && (ln_fanout p =? ln_fanout q).

(** [std::set<T>::insert], the set as the sorted vector of its elements. *)
Section Set_.
Context {A : Type} (lt : A -> A -> bool).

Fixpoint set_insert (x : A) (s : list A) : list A :=
  match s with
  | [] => [x]
  | y :: s' => if lt x y then x :: s else if lt y x then y :: set_insert x s' else s
  end.
End Set_.

(** The loop of [childFromNode]: one level up per iteration, [levels] of them. *)
Fixpoint ancestor_loop (levels : nat) (current_level parent fanout initial_level initial_number : Z) : bool :=
  match levels with
  | O => false
  | S levels' =>
      let parent := parent / fanout in
      if (current_level - 1 =? initial_level) && (parent =? initial_number) then true
      else ancestor_loop levels' (current_level - 1) parent fanout initial_level initial_number
  end.

Definition childFromNode (own_node initial_node : LevelNumber) : bool :=
  let '(own_level, own_number, fanout) := own_node in
  let '(initial_level, initial_number, _) := initial_node in
  if own_level <=? initial_level then false
  else ancestor_loop (Z.to_nat (own_level - initial_level)) own_level own_number fanout
         initial_level initial_number.

Section Tables.
Context `{Platform}.

(** The inner loops. A table distance doubles at least with every step and the numbers of a level
    fit 32 bits, so 33 iterations are enough. *)
Definition table_fuel : nat := 33.

Fixpoint rrt_loop (fuel : nat) (level number fanout max_number_on_level distance : Z)
    (nodes : list LevelNumber) : list LevelNumber :=
  match fuel with
  | O => nodes
  | S fuel' =>
      if number + distance <? max_number_on_level then
        rrt_loop fuel' level number fanout max_number_on_level (distance * fanout)
          (set_insert ln_lt (level, number + distance, fanout) nodes)
      else nodes
  end.

Definition calculateRRT (node : LevelNumber) : list LevelNumber :=
  let '(level, number, fanout) := node in
  let max_number_on_level := cvt_u32 (fanout ^ level) in
  foldl (fun nodes d => rrt_loop table_fuel level number fanout max_number_on_level d nodes)
    [] (zrange 1 fanout).

Fixpoint lrt_loop (fuel : nat) (level number fanout distance : Z) (nodes : list LevelNumber)
    : list LevelNumber :=
  match fuel with
  | O => nodes
  | S fuel' =>
      if 0 <=? number - distance then
        lrt_loop fuel' level number fanout (distance * fanout)
          (set_insert ln_lt (level, number - distance, fanout) nodes)
      else nodes
  end.

Definition calculateLRT (node : LevelNumber) : list LevelNumber :=
  let '(level, number, fanout) := node in
  foldl (fun nodes d => lrt_loop table_fuel level number fanout d nodes) [] (zrange 1 fanout).

End Tables.

(** ** The tables are MINHTON's *)

Lemma ln_lt_spec p q : ln_lt p q = false -> ln_lt q p = false -> p = q.
Proof.
  destruct p as [[l n] f], q as [[l' n'] f']. unfold ln_lt, ln_level, ln_number, ln_fanout. simpl.
  repeat case_match; intros; try done; f_equal; [f_equal|]; lia.
Qed.

Lemma elem_of_set_insert x y s : y ∈ set_insert ln_lt x s <-> y = x \/ y ∈ s.
Proof.
  induction s as [|z s IH]; simpl; [set_solver|].
  destruct (ln_lt x z) eqn:E1; [set_solver|]. destruct (ln_lt z x) eqn:E2; [set_solver|].
  assert (x = z) as -> by by apply ln_lt_spec. set_solver.
Qed.

Lemma elem_of_lrt_loop fuel l n f d nodes p :
  2 <= f -> 1 <= d -> n < d * 2 ^ Z.of_nat fuel ->
  p ∈ lrt_loop fuel l n f d nodes <->
  p ∈ nodes \/ exists j, 0 <= j /\ d * f ^ j <= n /\ p = (l, n - d * f ^ j, f).
Proof.
  intros Hf. revert d nodes. induction fuel as [|fuel IH]; intros d nodes Hd Hn; cbn [lrt_loop].
  - split; [by left|]. intros [?|(j & Hj & Hle & _)]; [done|].
    pose proof (Z.pow_pos_nonneg f j). simpl in Hn. nia.
  - destruct (Z.leb_spec 0 (n - d)).
    + rewrite IH, elem_of_set_insert; [|nia|rewrite Nat2Z.inj_succ, Z.pow_succ_r in Hn by lia; nia].
      split.
      * intros [[->|?]|(j & Hj & Hle & ->)]; [right; exists 0; rewrite Z.pow_0_r, Z.mul_1_r; split; [lia|]; split; [lia|done]|by left|].
        right. exists (j + 1). rewrite pow_S by done. split; [lia|].
        replace (d * (f ^ j * f)) with (d * f * f ^ j) by ring. done.
      * intros [?|(j & Hj & Hle & ->)]; [left; by right|]. destruct (Z.eq_dec j 0) as [->|].
        { left. left. by rewrite Z.pow_0_r, Z.mul_1_r. }
        right. exists (j - 1). replace (f ^ j) with (f ^ (j - 1) * f) in *
          by (rewrite <- pow_S by lia; f_equal; lia).
        replace (d * f * f ^ (j - 1)) with (d * (f ^ (j - 1) * f)) by ring. split; [lia|done].
    + split; [by left|]. intros [?|(j & Hj & Hle & _)]; [done|].
      pose proof (Z.pow_pos_nonneg f j). nia.
Qed.

Lemma elem_of_rrt_loop fuel l n f max d nodes p :
  2 <= f -> 1 <= d -> max <= n + d * 2 ^ Z.of_nat fuel ->
  p ∈ rrt_loop fuel l n f max d nodes <->
  p ∈ nodes \/ exists j, 0 <= j /\ n + d * f ^ j < max /\ p = (l, n + d * f ^ j, f).
Proof.
  intros Hf. revert d nodes. induction fuel as [|fuel IH]; intros d nodes Hd Hn; cbn [rrt_loop].
  - split; [by left|]. intros [?|(j & Hj & Hle & _)]; [done|].
    pose proof (Z.pow_pos_nonneg f j). simpl in Hn. nia.
  - destruct (Z.ltb_spec (n + d) max).
    + rewrite IH, elem_of_set_insert; [|nia|rewrite Nat2Z.inj_succ, Z.pow_succ_r in Hn by lia; nia].
      split.
      * intros [[->|?]|(j & Hj & Hle & ->)]; [right; exists 0; rewrite Z.pow_0_r, Z.mul_1_r; split; [lia|]; split; [lia|done]|by left|].
        right. exists (j + 1). rewrite pow_S by done. split; [lia|].
        replace (d * (f ^ j * f)) with (d * f * f ^ j) by ring. done.
      * intros [?|(j & Hj & Hle & ->)]; [left; by right|]. destruct (Z.eq_dec j 0) as [->|].
        { left. left. by rewrite Z.pow_0_r, Z.mul_1_r. }
        right. exists (j - 1). replace (f ^ j) with (f ^ (j - 1) * f) in *
          by (rewrite <- pow_S by lia; f_equal; lia).
        replace (d * f * f ^ (j - 1)) with (d * (f ^ (j - 1) * f)) by ring. split; [lia|done].
    + split; [by left|]. intros [?|(j & Hj & Hle & _)]; [done|].
      pose proof (Z.pow_pos_nonneg f j). nia.
Qed.

(** Both tables as sets, for any number of distances. *)
Lemma elem_of_table {A} (loop : Z -> list LevelNumber -> list LevelNumber) (P : Z -> A -> Prop)
    (conv : LevelNumber -> A) ds nodes p :
  (forall d nodes, d ∈ ds -> p ∈ loop d nodes <-> p ∈ nodes \/ P d (conv p)) ->
  p ∈ foldl (fun nodes d => loop d nodes) nodes ds <-> p ∈ nodes \/ exists d, d ∈ ds /\ P d (conv p).
Proof.
  revert nodes; induction ds as [|d ds IH]; intros nodes Hloop; simpl; [set_solver|].
  rewrite IH by set_solver. rewrite Hloop by set_solver. setoid_rewrite elem_of_cons. naive_solver.
Qed.

Section Agree.
Context `{Platform} (l f n : Z) (Hf : valid_fanout f) (Hfit : level_fits l f) (Hn : 0 <= n < f ^ l).

Lemma elem_of_calculateLRT p :
  p ∈ calculateLRT (l, n, f) <-> exists x, rt_distance f x /\ x <= n /\ p = (l, n - x, f).
Proof.
  pose proof (valid_fanout_bounds f Hf). destruct Hfit as [Hl Hb]. unfold calculateLRT.
  rewrite (elem_of_table (fun d nodes => lrt_loop table_fuel l n f d nodes)
    (fun d p => exists j, 0 <= j /\ d * f ^ j <= n /\ p = (l, n - d * f ^ j, f)) id).
  - unfold rt_distance. split.
    + intros [?%elem_of_nil|(d & Hd%elem_of_zrange & j & Hj & Hle & Hp)]; [done|]. exists (d * f ^ j).
      split; [by exists j, d|done].
    + intros (x & (j & d & Hj & Hd & ->) & Hle & Hp). right. exists d.
      split; [by apply elem_of_zrange|]. by exists j.
  - intros d nodes Hd%elem_of_zrange. apply elem_of_lrt_loop; [lia|lia|].
    change (2 ^ Z.of_nat table_fuel) with (2 ^ 33). lia.
Qed.

Lemma elem_of_calculateRRT p :
  p ∈ calculateRRT (l, n, f) <-> exists x, rt_distance f x /\ n + x < f ^ l /\ p = (l, n + x, f).
Proof.
  pose proof (valid_fanout_bounds f Hf). destruct Hfit as [Hl Hb]. unfold calculateRRT.
  rewrite cvt_u32_in by (unfold in_u32; lia).
  rewrite (elem_of_table (fun d nodes => rrt_loop table_fuel l n f (f ^ l) d nodes)
    (fun d p => exists j, 0 <= j /\ n + d * f ^ j < f ^ l /\ p = (l, n + d * f ^ j, f)) id).
  - unfold rt_distance. split.
    + intros [?%elem_of_nil|(d & Hd%elem_of_zrange & j & Hj & Hle & Hp)]; [done|]. exists (d * f ^ j).
      split; [by exists j, d|done].
    + intros (x & (j & d & Hj & Hd & ->) & Hle & Hp). right. exists d.
      split; [by apply elem_of_zrange|]. by exists j.
  - intros d nodes Hd%elem_of_zrange. apply elem_of_rrt_loop; [lia|lia|].
    change (2 ^ Z.of_nat table_fuel) with (2 ^ 33). lia.
Qed.
End Agree.

(** C39: Minhcast's routing tables are MINHTON's: on a level whose numbers fit 32 bits,
    [calculateLRT] and [calculateRRT] of natter hold exactly the positions [calcLeftRT] and
    [calcRightRT] of minhton return, so the neighbours Minhcast expects to know are those the
    overlay maintains. *)
Theorem minhcast_tables_are_minhton_tables `{Platform} l f n m :
  valid_fanout f -> level_fits l f -> 0 <= n < f ^ l ->
  ((l, m, f) ∈ calculateLRT (l, n, f) <-> returned_in (l, m) (calcLeftRT l n f)) /\
  ((l, m, f) ∈ calculateRRT (l, n, f) <-> returned_in (l, m) (calcRightRT l n f)).
Proof.
  intros Hf Hfit Hn.
  destruct (calcLeftRT_elem l f Hf Hfit n Hn) as (lrt & -> & HL).
  destruct (calcRightRT_elem l f Hf Hfit n Hn) as (rrt & -> & HR). unfold returned_in.
  rewrite elem_of_calculateLRT, elem_of_calculateRRT, HL, HR by done.
  split; split; intros (x & ? & ? & [= ->]); eauto.
Qed.

Section OnX86.
#[local] Existing Instance x86_64.

Lemma minhcast_tables_are_minhton_tables_witness :
  ((3, 5, 2) ∈ calculateLRT (3, 7, 2) <-> returned_in (3, 5) (calcLeftRT 3 7 2)) /\
  ((3, 5, 2) ∈ calculateRRT (3, 7, 2) <-> returned_in (3, 5) (calcRightRT 3 7 2)).
Proof.
  apply (minhcast_tables_are_minhton_tables 3 2 7 5);
    unfold valid_fanout, level_fits; vm_compute; intuition congruence.
Defined.

End OnX86.

(** ** Positions as text *)

Definition INT_MAX : Z := 2 ^ 31 - 1.

Definition is_space (c : ascii) : bool :=
  let n := Z.of_nat (nat_of_ascii c) in (n =? 32) || ((9 <=? n) && (n <=? 13)).

Fixpoint span_digits (s : list ascii) : list ascii :=
  match s with
  | [] => []
  | c :: s' => if is_digit c then c :: span_digits s' else []
  end.

Fixpoint skip_spaces (s : list ascii) : list ascii :=
  match s with
  | [] => []
  | c :: s' => if is_space c then skip_spaces s' else s
  end.

(** [std::stoi]: white space, a sign, digits up to the first other character. *)
Definition std_stoi (s : list ascii) : outcome Z :=
  let s := skip_spaces s in
  let '(sign, s) := match s with
    | c :: s' => if decide (c = "-"%char) then (-1, s') else if decide (c = "+"%char) then (1, s') else (1, s)
    | [] => (1, [])
    end in
  let digits := span_digits s in
  if decide (digits = []) then Throw (invalid_argument "stoi")
  else
    let z := sign * stoi digits in
    if (z <? - 2 ^ 31) || (INT_MAX <? z) then Throw (out_of_range "stoi") else Ok z.

Definition colon : ascii := ":"%char.

Definition toLevelNumberPair (node : LevelNumber) : list ascii :=
  to_string (ln_level node) ++ [colon] ++ to_string (ln_number node).

Definition fromStringToLevelNumber (node : list ascii) : outcome LevelNumber :=
  let '(first, second) := match find_index (fun c => bool_decide (c = colon)) node with
    | Some i => (take i node, drop (i + 1) node)
    | None => (node, node)
    end in
  level ← std_stoi first;
  number ← std_stoi second;
  mret (u32 level, u32 number, 0).

Lemma digit_char_value d : 0 <= d <= 9 ->
  is_digit (digit_char d) = true /\ digit_value (digit_char d) = d.
Proof.
  intros Hd. unfold is_digit, digit_value, digit_char.
  rewrite nat_ascii_embedding by lia. split; [|lia]. rewrite Z2Nat.id by lia. lia.
Qed.

Lemma digit_chars_digits fuel z : 0 <= z -> forallb is_digit (decimal fuel z) = true.
Proof.
  revert z; induction fuel as [|fuel IH]; intros z Hz; cbn [decimal]; [done|].
  destruct (Z.ltb_spec z 10).
  - simpl. by rewrite (proj1 (digit_char_value z ltac:(lia))).
  - rewrite forallb_app, IH by divlia. simpl.
    by rewrite (proj1 (digit_char_value (z mod 10) ltac:(divlia))).
Qed.

Lemma stoi_snoc s c : stoi (s ++ [c]) = 10 * stoi s + digit_value c.
Proof. unfold stoi. by rewrite foldl_app. Qed.

Lemma stoi_decimal fuel z : 0 <= z < 10 ^ Z.of_nat fuel -> stoi (decimal fuel z) = z.
Proof.
  revert z; induction fuel as [|fuel IH]; intros z Hz; cbn [decimal].
  - simpl in *. unfold stoi. simpl. lia.
  - rewrite Nat2Z.inj_succ, Z.pow_succ_r in Hz by lia. destruct (Z.ltb_spec z 10).
    + unfold stoi. simpl. rewrite (proj2 (digit_char_value z ltac:(lia))). done.
    + rewrite stoi_snoc, IH, (proj2 (digit_char_value (z mod 10) ltac:(divlia))) by divlia. divlia.
Qed.

Lemma span_digits_app s c rest :
  forallb is_digit s = true -> is_digit c = false -> span_digits (s ++ c :: rest) = s.
Proof. induction s as [|a s IH]; simpl; [by intros _ ->|]. intros [-> ?]%andb_prop ?. by rewrite IH. Qed.

Lemma span_digits_all s : forallb is_digit s = true -> span_digits s = s.
Proof. induction s as [|a s IH]; simpl; [done|]. intros [-> ?]%andb_prop. by rewrite IH. Qed.

Lemma digit_not_special c : is_digit c = true ->
  is_space c = false /\ c <> "-"%char /\ c <> "+"%char /\ c <> colon.
Proof.
  intros Hc. unfold is_digit in Hc. split; [unfold is_space; lia|].
  split_and!; intros ->; vm_compute in Hc; done.
Qed.

Lemma stoi_nonneg s : forallb is_digit s = true -> 0 <= stoi s.
Proof.
  induction s as [|c s IH] using rev_ind; [done|].
  rewrite forallb_app, stoi_snoc. intros [Hs Hc]%andb_prop. specialize (IH Hs).
  simpl in Hc. rewrite andb_true_r in Hc. unfold is_digit in Hc. unfold digit_value. lia.
Qed.

Lemma std_stoi_digits s : s <> [] -> forallb is_digit s = true ->
  std_stoi s = if INT_MAX <? stoi s then Throw (out_of_range "stoi") else Ok (stoi s).
Proof.
  intros Hne Hd. destruct s as [|c s]; [done|].
  pose proof Hd as Hd'. simpl in Hd'. apply andb_prop in Hd' as [Hc _].
  destruct (digit_not_special c Hc) as (Hsp & Hm & Hp & _).
  unfold std_stoi. cbn [skip_spaces]. rewrite Hsp, (decide_False _ _ Hm), (decide_False _ _ Hp).
  rewrite (span_digits_all (c :: s) Hd), decide_False by done. rewrite Z.mul_1_l.
  pose proof (stoi_nonneg (c :: s) Hd).
  rewrite (proj2 (Z.ltb_ge (stoi (c :: s)) (- 2 ^ 31))) by lia. done.
Qed.

Lemma to_string_digits z : 0 <= z -> to_string z <> [] /\ forallb is_digit (to_string z) = true.
Proof.
  intros Hz. split; [|by apply digit_chars_digits]. unfold to_string. cbn [decimal].
  case_match; [done|]. by intros [_ ?]%app_eq_nil.
Qed.

Lemma find_index_colon s t :
  forallb is_digit s = true -> find_index (fun c => bool_decide (c = colon)) (s ++ colon :: t) = Some (length s).
Proof.
  induction s as [|c s IH]; [done|]. cbn [forallb app find_index]. intros [Hc Hs]%andb_prop.
  destruct (digit_not_special c Hc) as (_ & _ & _ & Hne). rewrite bool_decide_eq_false_2 by done.
  by rewrite IH.
Qed.

(** Reading a printed position back gives the level and the number (the fanout is not
    printed and becomes 0), as long as both fit an [int]; beyond [INT_MAX], which positions as
    [uint32_t] do reach, [fromStringToLevelNumber] throws instead. *)
Theorem level_number_roundtrip l n f :
  in_u32 l -> in_u32 n ->
  fromStringToLevelNumber (toLevelNumberPair (l, n, f)) =
    if (INT_MAX <? l) || (INT_MAX <? n) then Throw (out_of_range "stoi") else Ok (l, n, 0).
Proof.
  unfold in_u32. intros Hl Hn.
  destruct (to_string_digits l) as [Hle Hld]; [lia|]. destruct (to_string_digits n) as [Hne Hnd]; [lia|].
  unfold fromStringToLevelNumber, toLevelNumberPair. change (ln_level (l, n, f)) with l.
  change (ln_number (l, n, f)) with n. simpl ([colon] ++ _). rewrite find_index_colon by done.
  rewrite take_app_length, <- drop_drop, drop_app_length. cbn [drop]. rewrite ?drop_0.
  rewrite !std_stoi_digits by done.
  unfold to_string. rewrite !stoi_decimal by (change (10 ^ Z.of_nat 10) with 10000000000; lia).
  destruct (Z.ltb_spec INT_MAX l); [done|]. destruct (Z.ltb_spec INT_MAX n); [done|].
  simpl. unfold INT_MAX in *. rewrite !u32_id by (unfold in_u32; lia). done.
Qed.

Lemma level_number_roundtrip_witness :
  fromStringToLevelNumber (toLevelNumberPair (14, 2, 2)) = Ok (14, 2, 0) /\
  fromStringToLevelNumber (toLevelNumberPair (31, 2147483648, 2)) = Throw (out_of_range "stoi").
Proof.
  split; [apply (level_number_roundtrip 14 2 2)|apply (level_number_roundtrip 31 2147483648 2)];
    vm_compute; intuition congruence.
Defined.
