(* ===== verification/Minhcast.v ===== *)
(** * Minhcast: broadcast in the tree

    Model of [natter/src/minhcast/minhcast_impl.cpp] with [broadcast_info.h],
    [forwarding_limit.h] and [minhcast_message.h]: how a node forwards a message to its
    children, its parent, its level and its adjacent nodes. A node is its subscriptions and the
    peers it knows per topic; sending appends to [sent_]. The build with assertions is
    modelled ([NDEBUG] not defined): a failed [assert] is [Undefined], a failed
    [NATTER_CHECK] throws. Logging and the receive callback's body are left out; [delivered_]
    is what the callback is called with. *)

From Stdlib Require Import SpecFloat.
From S2P Require Import Prelude RoutingCalculations TreeMapper TreeHelper.

(** ** binary32, for the distance to the centre of a level *)

Definition f32_sub : spec_float -> spec_float -> spec_float := SFsub 24 128.
Definition f32_div : spec_float -> spec_float -> spec_float := SFdiv 24 128.
Definition f32_of_Z (z : Z) : spec_float := binary_normalize 24 128 z 0 false.
Definition f32_max (a b : spec_float) : spec_float := if SFltb a b then b else a.
Definition f32_min (a b : spec_float) : spec_float := if SFltb b a then b else a.

(** [std::floor] of a finite non-negative number. *)
Definition f32_floor (x : spec_float) : Z :=
  match x with
  | S754_finite false m e => if 0 <=? e then Z.pos m * 2 ^ e else Z.pos m / 2 ^ (- e)
  | _ => 0
  end.

(** ** Data *)

Definition uuid : Type := Z.
Definition maxLevelNumber : Z := UINT32_MAX.

Record MinhcastNodeInfo := {
  position : LevelNumber;
  network_info : string * Z;
  peer_uuid : uuid;
}.

Definition peer_lt (a b : MinhcastNodeInfo) : bool := ln_lt (position a) (position b).

(** [ForwardingLimit]: up and down. *)
Definition ForwardingLimit : Type := Z * Z.
Definition make_limit (up down : Z) : outcome ForwardingLimit :=
  throw_when (negb (up <=? down)) (runtime_error "Forwarding up is greater than forwarding down");;
  mret (up, down).
Definition default_limit : ForwardingLimit := (0, maxLevelNumber).

Record MinhcastMessage := {
  topic_ : string;
  message_id_ : uuid;
  initial_node_ : uuid * LevelNumber;
  last_node_ : uuid * LevelNumber;
  content_ : string;
  round_ : Z;
  forwarding_limit_ : ForwardingLimit;
  inner_ : bool;
}.

Record BroadcastInfo := {
  own_node : uuid * LevelNumber;
  last_node : uuid * LevelNumber;
  initial_node : uuid * LevelNumber;
  forwarding_limit : ForwardingLimit;
  topic : string;
  msg_id : uuid;
  content : string;
  current_round : Z;
}.

Definition ownLevel (bc : BroadcastInfo) : Z := ln_level (own_node bc).2.
Definition ownNumber (bc : BroadcastInfo) : Z := ln_number (own_node bc).2.
Definition ownFanout (bc : BroadcastInfo) : Z := ln_fanout (own_node bc).2.
Definition lastLevel (bc : BroadcastInfo) : Z := ln_level (last_node bc).2.
Definition lastNumber (bc : BroadcastInfo) : Z := ln_number (last_node bc).2.
Definition getOwnNodePos (bc : BroadcastInfo) : LevelNumber := (own_node bc).2.
Definition getLastNodePos (bc : BroadcastInfo) : LevelNumber := (last_node bc).2.
Definition limit_up (bc : BroadcastInfo) : Z := (forwarding_limit bc).1.
Definition limit_down (bc : BroadcastInfo) : Z := (forwarding_limit bc).2.

Definition isInitialSender (bc : BroadcastInfo) : bool :=
  ((initial_node bc).1 =? (own_node bc).1) && ln_eqb (initial_node bc).2 (own_node bc).2.
Definition receivedDirectlyFromAbove (bc : BroadcastInfo) : bool := u32 (lastLevel bc + 1) =? ownLevel bc.
Definition receivedFromAbove (bc : BroadcastInfo) : bool := lastLevel bc <? ownLevel bc.
Definition parentFromInitial (bc : BroadcastInfo) : bool :=
  childFromNode (initial_node bc).2 (own_node bc).2.
Definition allowedDownForward (bc : BroadcastInfo) : bool := ownLevel bc <? limit_down bc.
Definition allowedUpForward (bc : BroadcastInfo) : bool := limit_up bc <? ownLevel bc.
Definition receivedFromLowerAdjacent (bc : BroadcastInfo) : bool :=
  (ownLevel bc <? lastLevel bc) && (ownLevel bc <? lastLevel bc - 1).

(** [NatterMinhcast::Impl]. [received_messages_] exists in builds with assertions. *)
Record Impl := {
  uuid_ : uuid;
  own_node_info_ : gmap string MinhcastNodeInfo;
  other_peers_ : gmap string (list MinhcastNodeInfo);
  received_messages_ : list uuid;
  sent_ : list (MinhcastNodeInfo * MinhcastMessage);
  delivered_ : list MinhcastMessage;
}.

Definition set_sent (v : list (MinhcastNodeInfo * MinhcastMessage)) (s : Impl) : Impl :=
  {| uuid_ := uuid_ s; own_node_info_ := own_node_info_ s; other_peers_ := other_peers_ s;
     received_messages_ := received_messages_ s; sent_ := v; delivered_ := delivered_ s |}.
Definition set_delivered (v : list MinhcastMessage) (s : Impl) : Impl :=
  {| uuid_ := uuid_ s; own_node_info_ := own_node_info_ s; other_peers_ := other_peers_ s;
     received_messages_ := received_messages_ s; sent_ := sent_ s; delivered_ := v |}.
Definition set_received (v : list uuid) (s : Impl) : Impl :=
  {| uuid_ := uuid_ s; own_node_info_ := own_node_info_ s; other_peers_ := other_peers_ s;
     received_messages_ := v; sent_ := sent_ s; delivered_ := delivered_ s |}.
Definition set_peers (o : gmap string MinhcastNodeInfo) (p : gmap string (list MinhcastNodeInfo)) (s : Impl) : Impl :=
  {| uuid_ := uuid_ s; own_node_info_ := o; other_peers_ := p;
     received_messages_ := received_messages_ s; sent_ := sent_ s; delivered_ := delivered_ s |}.

Definition NATTER_CHECK (b : bool) (msg : string) : outcome unit := throw_when (negb b) (runtime_error msg).
Definition assert_ (b : bool) : outcome unit := if b then Ok tt else Undefined.

(** Decrementing the first iterator of a [std::set] is undefined. What a library yields is a
    parameter: the end iterator, as with the circular node list of libstdc++, on which
    [addLeftForwardNodes] relies, or anything else. *)
Class StdSet := { decrement_begin_is_end : bool }.
Definition libstdcxx : StdSet := {| decrement_begin_is_end := true |}.

(** ** Finding peers *)

Definition find_peer (other_peers : list MinhcastNodeInfo) (p : LevelNumber) : option MinhcastNodeInfo :=
  List.find (fun info => ln_eqb (position info) p) other_peers.
Definition knows (other_peers : list MinhcastNodeInfo) (p : LevelNumber) : bool :=
  match find_peer other_peers p with Some _ => true | None => false end.

(** [find] followed by a [NATTER_CHECK] that there is one. *)
Definition require_peer (other_peers : list MinhcastNodeInfo) (msg : string) (p : LevelNumber)
    : outcome MinhcastNodeInfo :=
  match find_peer other_peers p with Some info => Ok info | None => Throw (runtime_error msg) end.

Definition hasChildren (node : LevelNumber) (other_peers : list MinhcastNodeInfo) : bool :=
  let '(level, number, fanout) := node in
  knows other_peers (u32 (level + 1), u32 (number * fanout), fanout).

Section Forwarding.
Context `{Platform} `{StdSet}.

Definition addLRT (own_node : LevelNumber) (other_peers : list MinhcastNodeInfo)
    : outcome (list MinhcastNodeInfo) :=
  mapM (require_peer other_peers
    "Do not know node in LRT. Nodes in LRT should always be known (complete tree).")
    (calculateLRT own_node).

(** Stops at the first unknown node. *)
Fixpoint addRRT_loop (other_peers : list MinhcastNodeInfo) (rrt : list LevelNumber)
    : list MinhcastNodeInfo :=
  match rrt with
  | [] => []
  | node :: rrt' =>
      match find_peer other_peers node with
      | Some info => info :: addRRT_loop other_peers rrt'
      | None => []
      end
  end.
Definition addRRT (own_node : LevelNumber) (other_peers : list MinhcastNodeInfo) : list MinhcastNodeInfo :=
  addRRT_loop other_peers (calculateRRT own_node).

Definition addRoutingTableToReceiver (own_node : LevelNumber) (other_peers : list MinhcastNodeInfo)
    : outcome (list MinhcastNodeInfo) :=
  lrt ← addLRT own_node other_peers;
  mret (addRRT own_node other_peers ++ lrt).

Definition position_in (p : LevelNumber) (s : list LevelNumber) : option nat := find_index (ln_eqb p) s.

Definition addLeftForwardNodes (own_node last_node : LevelNumber) (other_peers : list MinhcastNodeInfo)
    : outcome (list MinhcastNodeInfo) :=
  let our_lrt := calculateLRT own_node in
  if bool_decide (our_lrt = []) then mret []
  else
    lower_boundary ←
      (if ln_level last_node =? ln_level own_node then
         let last_sender_lrt := calculateLRT last_node in
         match position_in own_node last_sender_lrt with
         | None => Throw (runtime_error "Cannot find ourselves in LRT from last node")
         | Some O => if decrement_begin_is_end then mret None else Undefined
         | Some (S i) => b ← vec_at last_sender_lrt i; mret (Some b)
         end
       else mret None);
    match lower_boundary with
    | None => mapM (require_peer other_peers "Do not known node in our LRT") our_lrt
    | Some boundary =>
        mapM (require_peer other_peers "Do not know node in our LRT")
          (base.filter (fun node => ln_number boundary <? ln_number node) our_lrt)
    end.

Definition addRightForwardNodes (own_node last_node : LevelNumber) (other_peers : list MinhcastNodeInfo)
    : outcome (list MinhcastNodeInfo) :=
  let our_rrt := calculateRRT own_node in
  if bool_decide (our_rrt = []) then mret []
  else
    upper_boundary ←
      (if ln_level last_node =? ln_level own_node then
         let last_sender_rrt := calculateRRT last_node in
         match position_in own_node last_sender_rrt with
         | None => Throw (runtime_error "Cannot find ourselves in RRT from last node")
         | Some i => mret (last_sender_rrt !! S i)
         end
       else mret None);
    mret (omap (find_peer other_peers)
      (match upper_boundary with
       | None => our_rrt
       | Some boundary => base.filter (fun node => ln_number node <? ln_number boundary) our_rrt
       end)).

Definition addFromRoutingTable (rt : list LevelNumber) (other_peers : list MinhcastNodeInfo)
    (comp : Z -> bool) : list MinhcastNodeInfo :=
  omap (find_peer other_peers) (base.filter (fun node => comp (ln_number node)) rt).

Definition addInnerForwardNodes (bc : BroadcastInfo) (other_peers : list MinhcastNodeInfo)
    : outcome (list MinhcastNodeInfo) :=
  let '(own_level, own_number, fanout) := getOwnNodePos bc in
  let '(last_level, last_number, _) := getLastNodePos bc in
  assert_ ((last_level =? u32 (own_level - 1)) &&
           SFeqb (f32_of_Z last_number)
             (f32_of_Z (f32_floor (f32_div (f32_of_Z own_number) (f32_of_Z fanout)))));;
  let right_child_number := u32 (last_number * fanout + (fanout - 1)) in
  let left_child := own_number =? u32 (last_number * fanout) in
  let right_child := own_number =? right_child_number in
  NATTER_CHECK (negb (Bool.eqb left_child right_child))
    "addInnerForwardNodes() called without being outer child";;
  let nodes_between := u32 (fanout - 2) in
  if nodes_between =? 0 then mret []
  else if left_child && negb (knows other_peers (own_level, right_child_number, fanout)) then
    mret (addRRT (getOwnNodePos bc) other_peers)
  else if left_child then
    let upper_number := u32 ((nodes_between + 1) / 2 + own_number) in
    mret (addFromRoutingTable (calculateRRT (getOwnNodePos bc)) other_peers
            (fun number => number <=? upper_number))
  else if right_child then
    let lower_number := u32 (own_number - nodes_between / 2) in
    mret (addFromRoutingTable (calculateLRT (getOwnNodePos bc)) other_peers
            (fun number => lower_number <=? number))
  else mret [].

Definition addLeftAndRightmostChildren (node_info : LevelNumber) (other_peers : list MinhcastNodeInfo)
    : list MinhcastNodeInfo :=
  let '(level, number, fanout) := node_info in
  let child offset := (u32 (level + 1), u32 (number * fanout + offset), fanout) in
  addRRT_loop other_peers [child 0; child (fanout - 1)].

(** Returns the receivers and whether another node forwards down. *)
Definition centeredNodeAddChildren (bc : BroadcastInfo) (other_peers : list MinhcastNodeInfo)
    : outcome (list MinhcastNodeInfo * bool) :=
  let first := u32 (lastNumber bc * ownFanout bc) in
  let last := u32 (lastNumber bc * ownFanout bc + (ownFanout bc - 1)) in
  let left_child := ownNumber bc =? first in
  let right_child := ownNumber bc =? last in
  let others_number := if left_child then last else first in
  NATTER_CHECK (negb (Bool.eqb left_child right_child))
    "Received message directly from above but we are not an outer child";;
  let children := addLeftAndRightmostChildren (getOwnNodePos bc) other_peers in
  if left_child && negb (knows other_peers (ownLevel bc, others_number, ownFanout bc)) then
    mret (children, false)
  else
    let nodes_on_level := cvt_u32 (ownFanout bc ^ ownLevel bc) in
    let center_number := f32_div (f32_of_Z (u32 (nodes_on_level - 1))) (f32_of_Z 2) in
    let distance n := f32_sub (f32_max (f32_of_Z n) center_number) (f32_min (f32_of_Z n) center_number) in
    let own_dist := distance (ownNumber bc) in
    let other_dist := distance others_number in
    if SFltb other_dist own_dist then
      let sibling := (ownLevel bc, others_number, ownFanout bc) in
      if negb (hasChildren sibling other_peers) then mret (children, false) else mret ([], true)
    else if SFeqb other_dist own_dist then mret (if left_child then children else [], false)
    else mret (children, false).

(** [std::set_intersection] of the last node's LRT and our RRT. *)
Definition calculateRRTIntersection (bc : BroadcastInfo) : list LevelNumber :=
  let our_rrt := calculateRRT (getOwnNodePos bc) in
  base.filter (fun p => existsb (ln_eqb p) our_rrt) (calculateLRT (getLastNodePos bc)).

Definition imperfectTreeAddChildren (bc : BroadcastInfo) (other_peers : list MinhcastNodeInfo)
    : outcome (list MinhcastNodeInfo * bool) :=
  assert_ (negb (hasChildren (getLastNodePos bc) other_peers));;
  if hasChildren (getOwnNodePos bc) other_peers then
    match calculateRRTIntersection bc with
    | [] => mret (addLeftAndRightmostChildren (getOwnNodePos bc) other_peers, false)
    | first :: _ =>
        if negb (hasChildren first other_peers)
        then mret (addLeftAndRightmostChildren (getOwnNodePos bc) other_peers, false)
        else mret ([], true)
    end
  else
    match calculateLRT (getLastNodePos bc) with
    | [] => Undefined
    | leftmost :: _ => mret ([], negb (ln_eqb leftmost (getOwnNodePos bc)))
    end.

(** ** Sending *)

Abbreviation N := (M Impl).

(** [other_peers_[t]], which creates the entry if there is none. *)
Definition peers_of (t : string) : N (list MinhcastNodeInfo) :=
  found ← gets (fun s => other_peers_ s !! t);
  match found with
  | Some peers => mret peers
  | None => modify (fun s => set_peers (own_node_info_ s) (<[t := []]> (other_peers_ s)) s);; mret []
  end.

(** [other_peers_.at(t)] *)
Definition peers_at (t : string) : N (list MinhcastNodeInfo) :=
  found ← gets (fun s => other_peers_ s !! t);
  match found with Some peers => mret peers | None => throw (out_of_range "unordered_map::at") end.

Definition sendMessage (bc : BroadcastInfo) (peer : MinhcastNodeInfo) (up_limit down_limit : Z)
    (inner_forward : bool) : N unit :=
  limit ← lift (make_limit up_limit down_limit);
  let msg := {| topic_ := topic bc; message_id_ := msg_id bc; initial_node_ := initial_node bc;
                last_node_ := own_node bc; content_ := content bc; round_ := current_round bc;
                forwarding_limit_ := limit; inner_ := inner_forward |} in
  modify (fun s => set_sent (sent_ s ++ [(peer, msg)]) s).

Definition sendToChildren (bc : BroadcastInfo) (child_down_border : Z) : N (bool * bool) :=
  other_peers ← peers_of (topic bc);
  let children := addLeftAndRightmostChildren (getOwnNodePos bc) other_peers in
  let received_from_right := (ownLevel bc =? lastLevel bc) && (ownNumber bc <? lastNumber bc) in
  result ← lift (
    if isInitialSender bc then mret (children, false)
    else if receivedFromLowerAdjacent bc && allowedDownForward bc then mret (children, false)
    else if receivedDirectlyFromAbove bc && allowedDownForward bc then
      centeredNodeAddChildren bc other_peers
    else if negb (receivedDirectlyFromAbove bc) && receivedFromAbove bc && allowedDownForward bc then
      mret (children, false)
    else if allowedDownForward bc && received_from_right then
      imperfectTreeAddChildren bc other_peers
    else mret ([], false));
  let '(receiver, other_forwarding_down) := result in
  for_each receiver (fun peer => sendMessage bc peer (u32 (ownLevel bc + 1)) child_down_border false);;
  mret (other_forwarding_down, negb (bool_decide (length receiver = 0%nat))).

(** The scan of [getDeeperAdjacent] and [getHigherAdjacent] over the peers. *)
Definition getDeeperAdjacent (bc : BroadcastInfo) (other_peers : list MinhcastNodeInfo)
    : option MinhcastNodeInfo :=
  if negb (allowedDownForward bc) then None
  else
    (foldl (fun '(found, last_adjacent_level) info =>
       let node_level := ln_level (position info) in
       if negb (u32 (ownLevel bc + 1) <? node_level) then (found, last_adjacent_level)
       else if (node_level <=? limit_down bc) && (last_adjacent_level <? node_level)
            then (Some info, node_level) else (found, last_adjacent_level))
      (None, ownLevel bc) other_peers).1.

Definition getHigherAdjacent (bc : BroadcastInfo) (other_peers : list MinhcastNodeInfo)
    : option MinhcastNodeInfo :=
  if negb (allowedUpForward bc) then None
  else
    (foldl (fun '(found, last_adjacent_level) info =>
       let node_level := ln_level (position info) in
       if negb (node_level <? u32 (ownLevel bc - 1)) then (found, last_adjacent_level)
       else if (limit_up bc <=? node_level) && (node_level <? last_adjacent_level)
            then (Some info, node_level) else (found, last_adjacent_level))
      (None, ownLevel bc) other_peers).1.

Definition sendToParent (bc : BroadcastInfo) (parent_up_border : Z) : N unit :=
  if ownLevel bc =? 0 then mret tt
  else if limit_up bc <=? u32 (ownLevel bc - 1) then
    other_peers ← peers_of (topic bc);
    let parent_level := u32 (ownLevel bc - 1) in
    let parent_number := ownNumber bc / ownFanout bc in
    parent ← lift (require_peer other_peers "Parent must exist but is not known"
                    (parent_level, parent_number, ownFanout bc));
    sendMessage bc parent parent_up_border (u32 (ownLevel bc - 1)) false
  else mret tt.

Definition getInlevel (bc : BroadcastInfo) (other_peers : list MinhcastNodeInfo)
    : outcome (list MinhcastNodeInfo * list MinhcastNodeInfo) :=
  let own := getOwnNodePos bc in
  let last := getLastNodePos bc in
  let single_first_on_level := isInitialSender bc || (ownLevel bc <? lastLevel bc) ||
    (receivedFromAbove bc && negb (receivedDirectlyFromAbove bc)) in
  if single_first_on_level then
    inlevel ← addRoutingTableToReceiver own other_peers; mret (inlevel, [])
  else if receivedDirectlyFromAbove bc then
    let left_child := ownNumber bc =? u32 (lastNumber bc * ownFanout bc) in
    let right_child := ownNumber bc =? u32 (lastNumber bc * ownFanout bc + (ownFanout bc - 1)) in
    NATTER_CHECK (negb (Bool.eqb left_child right_child)) "Cannot be left and right child simultaneous";;
    inlevel ← (if left_child then addLeftForwardNodes own last other_peers
               else addRightForwardNodes own last other_peers);
    inner ← addInnerForwardNodes bc other_peers;
    mret (inlevel, inner)
  else if ownNumber bc <? lastNumber bc then
    inlevel ← addLeftForwardNodes own last other_peers; mret (inlevel, [])
  else
    inlevel ← addRightForwardNodes own last other_peers; mret (inlevel, []).

Definition sendToInlevel (bc : BroadcastInfo) (other_forwarding_down send_to_children : bool) : N unit :=
  other_peers ← peers_of (topic bc);
  receivers ← lift (getInlevel bc other_peers);
  let '(receiver_inlevel, receiver_inner) := receivers in
  let down_border := if other_forwarding_down || send_to_children then ownLevel bc
                     else Z.min (limit_down bc) maxLevelNumber in
  for_each receiver_inlevel (fun peer =>
    lift (assert_ (ln_level (position peer) =? ownLevel bc));;
    let peer_left_of_us := ln_number (position peer) <? ownNumber bc in
    sendMessage bc peer (ownLevel bc) (if peer_left_of_us then down_border else ownLevel bc) false);;
  for_each receiver_inner (fun peer => sendMessage bc peer (ownLevel bc) (ownLevel bc) true).

Definition sendToAdjacents (bc : BroadcastInfo) : N (Z * Z) :=
  other_peers ← (if allowedUpForward bc || allowedDownForward bc then peers_at (topic bc) else mret []);
  let highest_adjacent := getHigherAdjacent bc other_peers in
  let deepest_adjacent := getDeeperAdjacent bc other_peers in
  lift (NATTER_CHECK (negb (match highest_adjacent, deepest_adjacent with Some _, Some _ => true | _, _ => false end))
    "SENDING TO 2 ADJACENTS!");;
  lift (match deepest_adjacent with
        | Some info => NATTER_CHECK (u32 (ownLevel bc + 1) <? ln_level (position info))
            "Deepest adjacent not at least one level below own level"
        | None => mret tt end);;
  lift (match highest_adjacent with
        | Some info => NATTER_CHECK (ln_level (position info) <? u32 (ownLevel bc - 1))
            "Highest adjacent not at least one level above own level"
        | None => mret tt end);;
  parent_up_border ←
    match highest_adjacent with
    | None => mret (limit_up bc)
    | Some peer =>
        lift (NATTER_CHECK (negb (ownLevel bc =? 0)) "Cannot send to higher adjacent if we are root");;
        let peer_level := ln_level (position peer) in
        let parent_level := u32 (ownLevel bc - 1) in
        let level_diff_adj_parent := u32 (parent_level - peer_level - 1) in
        let down_border := u32 ((level_diff_adj_parent + 1) / 2 + peer_level) in
        let parent_up_border := u32 (parent_level - level_diff_adj_parent / 2) in
        lift (NATTER_CHECK (u32 (parent_up_border - 1) =? down_border) "failure in middle calculation");;
        sendMessage bc peer 0 down_border false;;
        mret parent_up_border
    end;
  child_down_border ←
    match deepest_adjacent with
    | None => mret (limit_down bc)
    | Some peer =>
        let peer_level := ln_level (position peer) in
        let child_level := u32 (ownLevel bc + 1) in
        let level_diff_adj_child := u32 (peer_level - child_level - 1) in
        let up_border := u32 (peer_level - level_diff_adj_child / 2) in
        let child_down_border := u32 (child_level + (level_diff_adj_child + 1) / 2) in
        lift (NATTER_CHECK (u32 (child_down_border + 1) =? up_border) "failure in middle calculation");;
        sendMessage bc peer up_border maxLevelNumber false;;
        mret child_down_border
    end;
  mret (parent_up_border, child_down_border).

Definition logMinhcastBroadcastInfo (bc : BroadcastInfo) : N unit :=
  received ← gets received_messages_;
  throw_if (bool_decide (msg_id bc ∈ received)) (runtime_error "received message more than once");;
  modify (fun s => set_received (msg_id bc :: received_messages_ s) s).

Definition broadcast (bc : BroadcastInfo) : N unit :=
  logMinhcastBroadcastInfo bc;;
  borders ← sendToAdjacents bc;
  let '(parent_up_border, child_down_border) := borders in
  sendToParent bc parent_up_border;;
  down ← sendToChildren bc child_down_border;
  let '(other_sending_down, send_to_children) := down in
  sendToInlevel bc other_sending_down send_to_children.

(** ** The interface *)

Definition createBroadcastInfo (msg : MinhcastMessage) : N BroadcastInfo :=
  found ← gets (fun s => own_node_info_ s !! topic_ msg);
  match found with
  | None => throw (out_of_range "unordered_map::at")
  | Some own =>
      let own_pos := position own in
      lift (NATTER_CHECK (ln_fanout own_pos =? ln_fanout (last_node_ msg).2)
        "Fanout of own and last node do not match");;
      lift (NATTER_CHECK (ln_fanout own_pos =? ln_fanout (initial_node_ msg).2)
        "Fanout of own and initial node do not match");;
      me ← gets uuid_;
      mret {| own_node := (me, own_pos); last_node := last_node_ msg;
              initial_node := initial_node_ msg; forwarding_limit := forwarding_limit_ msg;
              topic := topic_ msg; msg_id := message_id_ msg; content := content_ msg;
              current_round := u32 (round_ msg + 1) |}
  end.

Definition processMessage (msg : MinhcastMessage) : N unit :=
  this ← get;
  lift (NATTER_CHECK (bool_decide (is_Some (own_node_info_ this !! topic_ msg)))
    "not subscribed to topic but received topic message.");;
  modify (fun s => set_delivered (delivered_ s ++ [msg]) s);;
  if negb (inner_ msg) then bc ← createBroadcastInfo msg; broadcast bc else mret tt.

(** [generateUUID()] is the argument [message_id]. *)
Definition publish (t msg_content : string) (message_id : uuid) : N uuid :=
  this ← get;
  match own_node_info_ this !! t with
  | None => throw (runtime_error "not subscribed to topic")
  | Some own =>
      let me := (uuid_ this, position own) in
      broadcast {| own_node := me; last_node := me; initial_node := me;
                   forwarding_limit := default_limit; topic := t; msg_id := message_id;
                   content := msg_content; current_round := 1 |};;
      mret message_id
  end.

Definition subscribeTopic (t : string) (info : MinhcastNodeInfo) : N unit :=
  lift (NATTER_CHECK (2 <=? ln_fanout (position info)) "Fanout must be >= 2");;
  modify (fun s => set_peers (<[t := info]> (own_node_info_ s)) (<[t := []]> (other_peers_ s)) s).

Definition isSubscribedToTopic (t : string) (s : Impl) : bool :=
  bool_decide (is_Some (own_node_info_ s !! t)).

Definition unsubscribeTopic (t : string) : N unit :=
  modify (fun s => set_peers (delete t (own_node_info_ s)) (delete t (other_peers_ s)) s).

Definition addPeer (t : string) (info : MinhcastNodeInfo) : N bool :=
  this ← get;
  match other_peers_ this !! t with
  | None => mret false
  | Some peers =>
      if knows peers (position info) then mret false
      else
        lift (NATTER_CHECK (2 <=? ln_fanout (position info)) "Fanout must be >= 2");;
        modify (fun s => set_peers (own_node_info_ s)
                  (<[t := set_insert peer_lt info peers]> (other_peers_ s)) s);;
        mret true
  end.

Definition removePeer (t ip : string) (port : Z) : N bool :=
  this ← get;
  match other_peers_ this !! t with
  | None => throw (runtime_error "no such topic")
  | Some peers =>
      match find_index (fun info => bool_decide (network_info info = (ip, port))) peers with
      | None => throw (runtime_error "no such peer")
      | Some i =>
          modify (fun s => set_peers (own_node_info_ s)
                    (<[t := take i peers ++ drop (S i) peers]> (other_peers_ s)) s);;
          mret true
      end
  end.

End Forwarding.
