(* ===== verification/StaticNetwork.v ===== *)
(** * The static network of the Minhcast scenarios

    Model of [daisi/src/natter-ns3/static_network_calculation.cpp] and of the connection set-up
    in [daisi/src/natter-ns3/natter_manager.cpp]: a complete tree numbered level by level, in which
    every node is made known to its parent, children, routing-table neighbours, adjacent nodes,
    and its children to its neighbours. ns-3, which provides addresses and transport, is not
    modelled: the address of node [i] is [("node", i)] and its UUID [i + 1]. *)

From Stdlib Require Import SpecFloat.
From S2P Require Import Prelude RoutingCalculations TreeMapper TreeHelper Minhcast.

Definition f32_ceil (x : spec_float) : Z :=
  match x with
  | S754_finite false m e => if 0 <=? e then Z.pos m * 2 ^ e else - ((- Z.pos m) / 2 ^ (- e))
  | _ => 0
  end.

(** [node_id = std::ceil(node_id / (float)fanout) - 1], in [float]. *)
Definition parent_index (node_id fanout : Z) : Z :=
  f32_floor (f32_sub (f32_of_Z (f32_ceil (f32_div (f32_of_Z node_id) (f32_of_Z fanout)))) (f32_of_Z 1)).

(** With [fanout >= 2] an index at least halves per iteration: 64 iterations are enough for 32
    bits. *)
Fixpoint level_loop (fuel : nat) (node_id fanout level : Z) : Z :=
  match fuel with
  | O => level
  | S fuel' => if node_id =? 0 then level else level_loop fuel' (parent_index node_id fanout) fanout (level + 1)
  end.
Definition calculateLevel (node_id fanout : Z) : Z := level_loop 64 node_id fanout 0.

Definition calculateNumber (i fanout own_level : Z) : Z :=
  if own_level =? 0 then 0
  else u32 (i - (fanout ^ own_level - 1) / (fanout - 1)).

(** The recursion descends the tree; its depth is bounded by the number of nodes. *)
Fixpoint createLinearProjection (fuel : nat) (number_of_nodes fanout own_index : Z) : list Z :=
  match fuel with
  | O => []
  | S fuel' =>
      let half := (fanout + 1) / 2 in
      let below := fun i =>
        let child := u32 (own_index * fanout + i) in
        if child <? number_of_nodes then createLinearProjection fuel' number_of_nodes fanout child else [] in
      (zrange 1 (half + 1) ≫= below) ++ [own_index] ++ (zrange (half + 1) (fanout + 1) ≫= below)
  end.

Section Setup.
Context `{Platform} (number_of_nodes fanout : Z).

Definition the_topic : string := "topic".

Definition fresh_impl (i : Z) : Impl :=
  {| uuid_ := i + 1; own_node_info_ := ∅; other_peers_ := ∅; received_messages_ := []; sent_ := [];
     delivered_ := [] |}.

Definition position_of (index : Z) : LevelNumber :=
  let own_level := calculateLevel index fanout in
  (own_level, calculateNumber index fanout own_level, fanout).

Definition info_of (index : Z) : MinhcastNodeInfo :=
  {| position := position_of index; network_info := ("node"%string, index); peer_uuid := index + 1 |}.

(** Which nodes learn about node [index] in [joinMinhton]. *)
Definition connectParent (index : Z) : list Z :=
  let parent := - ((- index) / fanout) - 1 in
  if 0 <=? parent then [parent] else [].

Definition connectChildren (index : Z) : list Z :=
  base.filter (fun child => child <? number_of_nodes)
    ((fun j => u32 (index * fanout + j)) <$> zrange 1 (fanout + 1)).

Definition neighbor_distance (d i : Z) : Z := u32 (d * cvt_u32 (fanout ^ i)).

(** The difference is computed in [uint32_t]: past the left end it wraps around, and the level
    test ends the loop. A distance at least doubles, so 33 iterations are enough. *)
Fixpoint left_loop (fuel : nat) (own_level index d j : Z) : list Z :=
  match fuel with
  | O => []
  | S fuel' =>
      let current_neighbor := u32 (index - neighbor_distance d j) in
      if (0 <=? current_neighbor) && (calculateLevel current_neighbor fanout =? own_level)
      then current_neighbor :: left_loop fuel' own_level index d (j + 1) else []
  end.

Fixpoint right_loop (fuel : nat) (own_level index d j : Z) : list Z :=
  match fuel with
  | O => []
  | S fuel' =>
      let current_neighbor := u32 (index + neighbor_distance d j) in
      if (calculateLevel current_neighbor fanout =? own_level) && (current_neighbor <? number_of_nodes)
      then current_neighbor :: right_loop fuel' own_level index d (j + 1) else []
  end.

Definition connectNeighbors (index : Z) : list Z :=
  let own_level := calculateLevel index fanout in
  (zrange 1 fanout ≫= fun d => left_loop 33 own_level index d 0) ++
  (zrange 1 fanout ≫= fun d => right_loop 33 own_level index d 0).

Definition connectAdjacents (lin_proj : list Z) (index : Z) : list Z :=
  match find_index (Z.eqb index) lin_proj with
  | None => []
  | Some i =>
      (if (0 <? i)%nat then option_list (lin_proj !! (i - 1)%nat) else []) ++
      option_list (lin_proj !! (i + 1)%nat)
  end.

(** The calls of [addPeer], as (receiving node, node made known). *)
Definition connections (lin_proj : list Z) (index : Z) : list (Z * Z) :=
  let children := connectChildren index in
  let neighbors := connectNeighbors index in
  ((fun other => (other, index)) <$> connectParent index) ++
  ((fun other => (other, index)) <$> children) ++
  ((fun other => (other, index)) <$> neighbors) ++
  ((fun other => (other, index)) <$> connectAdjacents lin_proj index) ++
  (neighbor ← neighbors; child ← children; [(neighbor, child)]).

Definition add_peer_to (nodes : list Impl) (c : Z * Z) : list Impl :=
  alter (fun s => (addPeer the_topic (info_of c.2) s).2) (Z.to_nat c.1) nodes.

Definition joinMinhton : list Impl :=
  let lin_proj := createLinearProjection (Z.to_nat number_of_nodes) number_of_nodes fanout 0 in
  let initial := (fun i => (subscribeTopic the_topic (info_of i) (fresh_impl i)).2) <$> zrange 0 number_of_nodes in
  foldl add_peer_to initial (zrange 0 number_of_nodes ≫= connections lin_proj).

End Setup.
