(* ===== verification/MinhcastNetwork.v ===== *)
(** * A broadcast reaches every node once

    The nodes of [Minhcast] joined by a network that delivers the messages in flight in any
    order. [framed] shows that a node reacts to a message the same way whatever it has
    handled before; so the messages of a broadcast do not depend on the schedule
    ([closes_perm]), and exploring one schedule of a concrete tree decides all of them. *)

From S2P Require Import Prelude RoutingCalculations TreeMapper TreeHelper Minhcast StaticNetwork.

#[export] Instance MinhcastNodeInfo_eq_dec : EqDecision MinhcastNodeInfo.
Proof. solve_decision. Defined.
#[export] Instance MinhcastMessage_eq_dec : EqDecision MinhcastMessage.
Proof. solve_decision. Defined.
#[export] Instance Impl_eq_dec : EqDecision Impl.
Proof. solve_decision. Defined.

(** ** A node forgets *)

(** The node without its history. *)
Definition strip (s : Impl) : Impl :=
  {| uuid_ := uuid_ s; own_node_info_ := own_node_info_ s; other_peers_ := other_peers_ s;
     received_messages_ := []; sent_ := []; delivered_ := [] |}.

(** The node [t], reached without history, with the history of [s] before it. *)
Definition after (s t : Impl) : Impl :=
  {| uuid_ := uuid_ t; own_node_info_ := own_node_info_ t; other_peers_ := other_peers_ t;
     received_messages_ := received_messages_ t ++ received_messages_ s;
     sent_ := sent_ s ++ sent_ t; delivered_ := delivered_ s ++ delivered_ t |}.

Lemma after_strip s : after s (strip s) = s.
Proof. destruct s. unfold after, strip. simpl. by rewrite !app_nil_r. Qed.
Lemma strip_after s t : strip (after s t) = strip t.
Proof. done. Qed.
Lemma strip_strip s : strip (strip s) = strip s.
Proof. done. Qed.
Lemma after_after s t u : after (after s t) u = after s (after t u).
Proof. unfold after. simpl. by rewrite !app_assoc. Qed.

(** The operation does the same with and without the history of [s]. *)
Definition framed_at {A} (m : M Impl A) (s : Impl) : Prop :=
  m s = ((m (strip s)).1, after s (m (strip s)).2).
Definition framed {A} (m : M Impl A) : Prop := forall s, framed_at m s.

Lemma framed_at_bind {A B} (m : M Impl A) (k : A -> M Impl B) s :
  framed_at m s ->
  (forall a t, m (strip s) = (Ok a, t) -> framed_at (k a) (after s t) /\ framed_at (k a) t) ->
  framed_at (m ≫= k) s.
Proof.
  unfold framed_at. intros Hm Hk. mred. rewrite Hm.
  destruct (m (strip s)) as [[a| |] t] eqn:E; simpl; [|done..].
  destruct (Hk a t eq_refl) as [-> ->]. rewrite strip_after. simpl. by rewrite after_after.
Qed.

Lemma framed_state_free {A} (f : Impl -> outcome A) :
  (forall s, f (strip s) = f s) -> framed (fun s => (f s, s)).
Proof. intros Hf s. unfold framed_at. simpl. by rewrite Hf, after_strip. Qed.

Lemma framed_ret {A} (a : A) : framed (mret a).
Proof. by apply (framed_state_free (fun _ => Ok a)). Qed.
Lemma framed_lift {A} (m : outcome A) : framed (lift m).
Proof. by apply (framed_state_free (fun _ => m)). Qed.
Lemma framed_throw {A} e : framed (throw (A := A) e).
Proof. by apply (framed_state_free (fun _ => Throw e)). Qed.
Lemma framed_gets {A} (f : Impl -> A) : (forall s, f (strip s) = f s) -> framed (gets f).
Proof. intros Hf. apply (framed_state_free (fun s => Ok (f s))). intros s. by rewrite Hf. Qed.
Lemma framed_modify f : (forall s, f s = after s (f (strip s))) -> framed (modify f).
Proof. intros Hf s. unfold framed_at, modify. simpl. by rewrite <- Hf. Qed.

Lemma framed_bind {A B} (m : M Impl A) (k : A -> M Impl B) :
  framed m -> (forall a, framed (k a)) -> framed (m ≫= k).
Proof. intros Hm Hk s. apply framed_at_bind; [done|]. intros a t _. split; apply Hk. Qed.

Lemma framed_for_each {A} (l : list A) (f : A -> M Impl unit) :
  (forall x, framed (f x)) -> framed (for_each l f).
Proof. intros Hf. induction l as [|x l IH]; simpl; [apply framed_ret|]. by apply framed_bind. Qed.

#[export] Hint Resolve framed_ret framed_lift framed_throw framed_bind framed_for_each : sola.

Section Framed.
Context `{Platform} `{StdSet}.

Lemma framed_peers_of t : framed (peers_of t).
Proof.
  apply framed_bind; [by apply framed_gets|]. intros [peers|]; [apply framed_ret|].
  apply framed_bind; [|intros; apply framed_ret]. apply framed_modify.
  intros s. unfold after, set_peers. simpl. by rewrite !app_nil_r.
Qed.

Lemma framed_peers_at t : framed (peers_at t).
Proof. apply framed_bind; [by apply framed_gets|]. intros [peers|]; auto with sola. Qed.

Lemma framed_sendMessage bc peer up down inner : framed (sendMessage bc peer up down inner).
Proof.
  apply framed_bind; [apply framed_lift|]. intros limit. apply framed_modify.
  intros s. unfold after, set_sent. simpl. by rewrite !app_nil_r.
Qed.
#[local] Hint Resolve framed_peers_of framed_peers_at framed_sendMessage : sola.

Lemma framed_sendToChildren bc border : framed (sendToChildren bc border).
Proof.
  apply framed_bind; [apply framed_peers_of|]. intros peers. apply framed_bind; [apply framed_lift|].
  intros [receiver other]. apply framed_bind; auto with sola.
Qed.

Lemma framed_sendToParent bc border : framed (sendToParent bc border).
Proof.
  unfold sendToParent. repeat case_match; auto with sola.
Qed.

Lemma framed_sendToInlevel bc a b : framed (sendToInlevel bc a b).
Proof.
  apply framed_bind; [apply framed_peers_of|]. intros peers. apply framed_bind; [apply framed_lift|].
  intros [inlevel inner]. apply framed_bind; auto with sola.
Qed.

Lemma framed_sendToAdjacents bc : framed (sendToAdjacents bc).
Proof.
  apply framed_bind; [case_match; auto with sola|]. intros peers.
  apply framed_bind; [apply framed_lift|intros _]. apply framed_bind; [apply framed_lift|intros _].
  apply framed_bind; [apply framed_lift|intros _].
  apply framed_bind; [case_match; auto 6 with sola|intros up].
  apply framed_bind; [case_match; auto 6 with sola|auto with sola].
Qed.

(** What [broadcast] does once the message is known to be new. *)
Definition forward (bc : BroadcastInfo) : M Impl unit :=
  borders ← sendToAdjacents bc;
  let '(parent_up_border, child_down_border) := borders in
  sendToParent bc parent_up_border;;
  down ← sendToChildren bc child_down_border;
  let '(other_sending_down, send_to_children) := down in
  sendToInlevel bc other_sending_down send_to_children.

Lemma framed_forward bc : framed (forward bc).
Proof.
  apply framed_bind; [apply framed_sendToAdjacents|]. intros [up down].
  apply framed_bind; [apply framed_sendToParent|intros _].
  apply framed_bind; [apply framed_sendToChildren|]. intros [a b]. apply framed_sendToInlevel.
Qed.

Lemma broadcast_new bc s :
  msg_id bc ∉ received_messages_ s ->
  broadcast bc s = forward bc (set_received (msg_id bc :: received_messages_ s) s).
Proof.
  intros Hnew. unfold broadcast, logMinhcastBroadcastInfo. fold (forward bc). mred.
  by rewrite bool_decide_eq_false_2.
Qed.

Lemma broadcast_after bc s :
  msg_id bc ∉ received_messages_ s -> framed_at (broadcast bc) s.
Proof.
  intros Hnew. unfold framed_at. rewrite broadcast_new by done. rewrite (broadcast_new bc (strip s)) by apply not_elem_of_nil.
  rewrite (framed_forward bc (set_received (msg_id bc :: received_messages_ s) s)).
  rewrite (framed_forward bc (set_received (msg_id bc :: received_messages_ (strip s)) (strip s))).
  change (strip (set_received _ s)) with (strip s).
  change (strip (set_received _ (strip s))) with (strip s). simpl. f_equal.
  unfold after. simpl. by rewrite <- !app_assoc.
Qed.

Lemma framed_createBroadcastInfo msg : framed (createBroadcastInfo msg).
Proof.
  apply framed_bind; [by apply framed_gets|]. intros [own|]; [|apply framed_throw].
  apply framed_bind; [apply framed_lift|intros _]. apply framed_bind; [apply framed_lift|intros _].
  apply framed_bind; [by apply framed_gets|]. intros me. apply framed_ret.
Qed.

Lemma createBroadcastInfo_Ok msg s bc t :
  createBroadcastInfo msg s = (Ok bc, t) -> msg_id bc = message_id_ msg /\ t = s.
Proof.
  unfold createBroadcastInfo. rewrite bind_gets.
  destruct (own_node_info_ s !! topic_ msg) as [own|]; [|done].
  mred. repeat (case_match; [|done..]). by intros [= <- <-].
Qed.

(** Handling a message that is new to the node. *)
Lemma processMessage_after msg s :
  (inner_ msg = false -> message_id_ msg ∉ received_messages_ s) -> framed_at (processMessage msg) s.
Proof.
  intros Hnew. unfold processMessage. unfold framed_at at 1. rewrite !bind_get.
  change (own_node_info_ (strip s)) with (own_node_info_ s).
  apply (framed_at_bind (lift _)); [apply framed_lift|]. intros [] t Ht.
  apply lift_Ok in Ht as [_ ->]. rewrite after_strip.
  assert (Hall : forall s, (inner_ msg = false -> message_id_ msg ∉ received_messages_ s) ->
    framed_at (modify (fun s => set_delivered (delivered_ s ++ [msg]) s);;
      if negb (inner_ msg) then bc ← createBroadcastInfo msg; broadcast bc else mret tt) s);
    [|split; apply Hall; [done|intros _; apply not_elem_of_nil]].
  clear s Hnew. intros s Hnew. apply framed_at_bind.
  { apply framed_modify. intros t. unfold after, set_delivered. simpl. by rewrite !app_nil_r. }
  intros [] t ->%modify_Ok. destruct (inner_ msg) eqn:Ei; simpl; [split; apply framed_ret|].
  split; (apply framed_at_bind; [apply framed_createBroadcastInfo|]);
    intros bc t' [Hid ->]%createBroadcastInfo_Ok; rewrite after_strip;
    (split; apply broadcast_after; rewrite Hid; [by apply Hnew || apply not_elem_of_nil|apply not_elem_of_nil]).
Qed.
End Framed.

(** ** The network *)

(** A message in flight: the node it is addressed to and the message. *)
Definition wire : Type := Z * MinhcastMessage.

Record Net := {
  nodes : list Impl;
  inflight : list wire;
}.

(** What a node has put into its outbox, addressed by node. *)
Definition outbox (s : Impl) : list wire := (fun x => ((network_info x.1).2, x.2)) <$> sent_ s.

Section Network.
Context `{Platform} `{StdSet}.

(** Any message in flight may be delivered next; the receiver handles it and what it sends is
    in flight. *)
Inductive deliver : Net -> Net -> Prop :=
| deliver_any ns q1 i m q2 s s' :
    0 <= i -> ns !! Z.to_nat i = Some s -> processMessage m s = (Ok tt, s') ->
    deliver {| nodes := ns; inflight := q1 ++ (i, m) :: q2 |}
            {| nodes := <[Z.to_nat i := set_sent [] s']> ns; inflight := q1 ++ q2 ++ outbox s' |}.

(** A node publishes. *)
Definition publish_net (ns : list Impl) (start : Z) (id : uuid) : outcome Net :=
  match ns !! Z.to_nat start with
  | None => Undefined
  | Some s =>
      match publish the_topic "content" id s with
      | (Ok _, s') => Ok {| nodes := <[Z.to_nat start := set_sent [] s']> ns; inflight := outbox s' |}
      | (Throw e, _) => Throw e
      | (Undefined, _) => Undefined
      end
  end.

(** *** The reaction of a node without history *)

Definition react (ns : list Impl) (w : wire) : option (list wire) :=
  if 0 <=? w.1 then
    match ns !! Z.to_nat w.1 with
    | None => None
    | Some s =>
        match processMessage w.2 s with
        | (Ok _, t) => if decide (strip t = s /\ delivered_ t = [w.2]) then Some (outbox t) else None
        | _ => None
        end
    end
  else None.

(** [closes ns q c]: handling the messages [q] and all that follow from them handles exactly the
    messages [c]. *)
Inductive closes (ns : list Impl) : list wire -> list wire -> Prop :=
| closes_nil : closes ns [] []
| closes_cons w q new c : react ns w = Some new -> closes ns (new ++ q) c -> closes ns (w :: q) (w :: c).

Fixpoint explore (fuel : nat) (ns : list Impl) (q : list wire) : option (list wire) :=
  match q with
  | [] => Some []
  | w :: q' =>
      match fuel with
      | O => None
      | S fuel' =>
          match react ns w with
          | None => None
          | Some new => cons w <$> explore fuel' ns (new ++ q')
          end
      end
  end.

Lemma explore_closes fuel ns q c : explore fuel ns q = Some c -> closes ns q c.
Proof.
  revert q c; induction fuel as [|fuel IH]; intros [|w q] c; simpl; try done;
    try (intros [= <-]; constructor).
  destruct (react ns w) as [new|] eqn:Er; [|done].
  destruct (explore fuel ns (new ++ q)) as [c'|] eqn:E; [|done]. intros [= <-].
  econstructor; [done|]. by apply IH.
Qed.

(** The messages handled do not depend on the order. *)
Lemma closes_perm ns k q q' c :
  (length c <= k)%nat -> closes ns q c -> q ≡ₚ q' -> exists c', closes ns q' c' /\ c ≡ₚ c'.
Proof.
  revert q q' c; induction k as [|k IH]; intros q q' c Hk Hc Hq.
  { destruct Hc as [|w q new c]; simpl in Hk; [|lia]. apply Permutation_nil_l in Hq as <-.
    exists []. split; [constructor|done]. }
  destruct Hc as [|w q new c Hr Hc]; [apply Permutation_nil_l in Hq as <-; exists []; split; [constructor|done]|].
  simpl in Hk. destruct q' as [|w' q']; [by apply Permutation_nil_r in Hq|].
  destruct (decide (w = w')) as [<-|Hne].
  { apply Permutation_cons_inv in Hq.
    destruct (IH (new ++ q) (new ++ q') c) as (c' & Hc' & Hp); [lia|done|by rewrite Hq|].
    exists (w :: c'). split; [by econstructor|by constructor]. }
  assert (Hin : w' ∈ q).
  { assert (Hin : w' ∈ w :: q) by (rewrite Hq; left). apply elem_of_cons in Hin as [?|?]; [congruence|done]. }
  apply elem_of_Permutation in Hin as [r Hr'].
  assert (Hq' : q' ≡ₚ w :: r).
  { apply (Permutation_cons_inv (a := w')). rewrite <- Hq, Hr'. apply Permutation_swap. }
  destruct (IH (new ++ q) (w' :: new ++ r) c) as (c1 & Hc1 & Hp1);
    [lia|done|rewrite Hr'; by rewrite Permutation_middle|].
  inversion Hc1 as [|? ? new' c2 Hrw' Hc2]; subst.
  pose proof (Permutation_length Hp1) as Hlen. simpl in Hlen.
  destruct (IH (new' ++ new ++ r) (new ++ new' ++ r) c2) as (c3 & Hc3 & Hp3);
    [lia|done|by rewrite !app_assoc, (Permutation_app_comm new' new)|].
  pose proof (Permutation_length Hp3) as Hlen3.
  destruct (IH (w :: new' ++ r) (new' ++ q') (w :: c3)) as (c4 & Hc4 & Hp4);
    [simpl; lia|by econstructor|by rewrite Hq', Permutation_middle|].
  exists (w' :: c4). split; [by econstructor|].
  rewrite Hp1, <- Hp4, Hp3. apply Permutation_swap.
Qed.
(** *** All schedules *)

Definition broadcast_check (ns : list Impl) (start : Z) (id : uuid) : bool :=
  match publish_net ns start id with
  | Ok net =>
      bool_decide (strip <$> nodes net = ns) &&
      bool_decide (Forall (fun s => delivered_ s = []) (nodes net)) &&
      match explore (length ns) ns (inflight net) with
      | Some c => bool_decide (std_sort Z.ltb (start :: (fst <$> c)) = zrange 0 (Z.of_nat (length ns)))
      | None => false
      end
  | _ => false
  end.

Section Schedules.
Context (ns : list Impl) (start : Z) (all : list wire).
Context (Hall : NoDup (start :: (fst <$> all))).

(** What node [i] has handled when the messages [D] have been delivered. *)
Definition node_ok (D : list wire) (i : nat) (s : Impl) : Prop :=
  sent_ s = [] /\
  (received_messages_ s <> [] -> Z.of_nat i = start \/ Z.of_nat i ∈ fst <$> D) /\
  delivered_ s = snd <$> base.filter (fun w => w.1 = Z.of_nat i) D.

Definition net_ok (net : Net) (D : list wire) : Prop :=
  strip <$> nodes net = ns /\
  (forall i s, nodes net !! i = Some s -> node_ok D i s) /\
  exists c, closes ns (inflight net) c /\ D ++ c ≡ₚ all.

(** Pulling a pending message to the front. *)
Lemma pending_react net D q1 w q2 :
  net_ok net D -> inflight net = q1 ++ w :: q2 ->
  exists new c, react ns w = Some new /\ closes ns (q1 ++ q2 ++ new) c /\ (D ++ [w]) ++ c ≡ₚ all /\
    w.1 <> start /\ w.1 ∉ fst <$> D.
Proof.
  intros (_ & _ & c & Hc & HD) Hq. rewrite Hq in Hc.
  destruct (closes_perm ns (length c) _ (w :: q1 ++ q2) c (le_n _) Hc) as (c1 & Hc1 & Hp1);
    [by rewrite Permutation_middle|].
  inversion Hc1 as [|? ? new c2 Hr Hc2]; subst.
  destruct (closes_perm ns (length c2) _ (q1 ++ q2 ++ new) c2 (le_n _) Hc2) as (c3 & Hc3 & Hp3);
    [by rewrite (Permutation_app_comm new), <- app_assoc|].
  assert (HD' : (D ++ [w]) ++ c3 ≡ₚ all) by (rewrite <- app_assoc; simpl; by rewrite <- Hp3, <- Hp1).
  exists new, c3. do 3 (split; [done|]).
  rewrite <- HD', <- app_assoc, fmap_app in Hall. simpl in Hall.
  apply NoDup_cons in Hall as [Hs Hnd]. apply NoDup_app in Hnd as (_ & Hdis & _).
  split; [intros Heq; apply Hs; rewrite <- Heq; set_solver|]. intros Hin. apply (Hdis _ Hin). set_solver.
Qed.

(** A pending message is handled as by a node without history. *)
Lemma pending_handled net D q1 w q2 :
  net_ok net D -> inflight net = q1 ++ w :: q2 ->
  exists s t, 0 <= w.1 /\ nodes net !! Z.to_nat w.1 = Some s /\ processMessage w.2 s = (Ok tt, after s t) /\
    strip t = strip s /\ delivered_ t = [w.2] /\ react ns w = Some (outbox t).
Proof.
  intros Hok Hq. destruct (pending_react net D q1 w q2 Hok Hq) as (new & c & Hr & _ & _ & Hns & HnD).
  destruct Hok as (Hstrip & Hnodes & _). pose proof Hr as Hr0. unfold react in Hr.
  destruct (Z.leb_spec 0 w.1); [|done].
  destruct (ns !! Z.to_nat w.1) as [s0|] eqn:Es0; [|done].
  rewrite <- Hstrip, list_lookup_fmap in Es0. apply fmap_Some in Es0 as (s & Hs & ->).
  destruct (Hnodes _ _ Hs) as (Hsent & Hrec & _). rewrite Z2Nat.id in Hrec by done.
  assert (Hnil : received_messages_ s = []).
  { destruct (received_messages_ s); [done|]. destruct Hrec; done. }
  pose proof (processMessage_after w.2 s ltac:(intros _; rewrite Hnil; apply not_elem_of_nil)) as Hp.
  unfold framed_at in Hp. destruct (processMessage w.2 (strip s)) as [[[]| |] t] eqn:Ep; [|done..].
  case_decide as Hd; [|done]. destruct Hd as [Hst Hdel]. injection Hr as <-.
  exists s, t. done.
Qed.

Lemma filter_snoc_eq {A} (P : A -> Prop) `{!forall x, Decision (P x)} (l : list A) x :
  base.filter P (l ++ [x]) = base.filter P l ++ (if decide (P x) then [x] else []).
Proof. rewrite filter_app. f_equal. Qed.

Lemma deliver_ok net D net' :
  net_ok net D -> deliver net net' -> exists w, net_ok net' (D ++ [w]).
Proof.
  intros Hok Hd. destruct Hd as [nds q1 i m q2 s s' Hi Hs Hp]. exists (i, m).
  destruct (pending_react _ D q1 (i, m) q2 Hok eq_refl) as (new & c & Hr & Hc & HD & _).
  destruct (pending_handled _ D q1 (i, m) q2 Hok eq_refl) as (s0 & t & _ & Hs0 & Hp0 & Hst & Hdel & Hr0).
  simpl in *. rewrite Hs in Hs0. injection Hs0 as <-. rewrite Hp in Hp0. injection Hp0 as ->.
  rewrite Hr in Hr0. injection Hr0 as ->.
  destruct Hok as (Hstrip & Hnodes & _). destruct (Hnodes _ _ Hs) as (Hsent & _ & Hdels).
  split; [|split].
  - simpl. rewrite list_fmap_insert. simpl in *. rewrite <- Hstrip. apply list_insert_id.
    rewrite list_lookup_fmap, Hs. simpl. by rewrite <- Hst.
  - intros j u Hu. simpl in *. destruct (decide (j = Z.to_nat i)) as [->|Hj].
    + rewrite list_lookup_insert_eq in Hu by (by eapply lookup_lt_Some). injection Hu as <-.
      split; [done|]. rewrite Z2Nat.id by done. split; [intros _; right; set_solver|].
      simpl. rewrite filter_snoc_eq, decide_True, fmap_app by done. rewrite Hdel, Hdels, Z2Nat.id by done. done.
    + rewrite list_lookup_insert_ne in Hu by done. destruct (Hnodes _ _ Hu) as (? & Hrec & Hdj).
      split; [done|]. split; [intros Hne; destruct (Hrec Hne); [by left|right; set_solver]|].
      rewrite filter_snoc_eq, decide_False, app_nil_r by (simpl; lia). done.
  - exists c. simpl. split; [|done]. unfold outbox. simpl. by rewrite Hsent.
Qed.

Lemma deliver_progress net D q1 i m q2 :
  net_ok net D -> inflight net = q1 ++ (i, m) :: q2 ->
  exists s s', 0 <= i /\ nodes net !! Z.to_nat i = Some s /\ processMessage m s = (Ok tt, s').
Proof.
  intros Hok Hq. destruct (pending_handled net D q1 (i, m) q2 Hok Hq) as (s & t & ? & ? & ? & _). eauto.
Qed.

Lemma run_ok k net0 net D0 :
  net_ok net0 D0 -> nsteps deliver k net0 net -> exists D, net_ok net D /\ length D = (length D0 + k)%nat.
Proof.
  intros Hok Hrun. revert D0 Hok. induction Hrun as [|k x y z Hxy Hyz IH]; intros D0 Hok.
  - exists D0. split; [done|lia].
  - destruct (deliver_ok x D0 y Hok Hxy) as [w Hw]. destruct (IH _ Hw) as (D & HD & Hlen).
    exists D. split; [done|]. rewrite Hlen, length_app. simpl. lia.
Qed.
End Schedules.
End Network.

(** ** Checked trees *)

Section Checked.
#[local] Existing Instance x86_64.
#[local] Existing Instance libstdcxx.

Definition the_id : uuid := 7.

Definition tree_check (f n : Z) : bool :=
  let ns := joinMinhton n f in
  (Z.of_nat (length ns) =? n) && forallb (fun start => broadcast_check ns start the_id) (zrange 0 n).

(** The largest tree that is explored, per fanout. *)
Definition checked_nodes (f : Z) : Z := if f =? 2 then 15 else if f =? 3 then 14 else 11.

Lemma trees_checked :
  forallb (fun f => forallb (tree_check f) (zrange 1 (checked_nodes f + 1))) (zrange 2 5) = true.
Proof. vm_compute. reflexivity. Qed.
Lemma tree_checked f n start :
  2 <= f <= 4 -> 1 <= n <= checked_nodes f -> 0 <= start < n ->
  Z.of_nat (length (joinMinhton n f)) = n /\ broadcast_check (joinMinhton n f) start the_id = true.
Proof.
  intros Hf Hn Hs. pose proof trees_checked as Hall.
  rewrite forallb_forall in Hall. specialize (Hall f). rewrite forallb_forall in Hall.
  specialize (Hall ltac:(apply list_elem_of_In, elem_of_zrange; lia) n
    ltac:(apply list_elem_of_In, elem_of_zrange; lia)).
  unfold tree_check in Hall. apply andb_prop in Hall as [Hlen%Z.eqb_eq Hall]. split; [done|].
  rewrite forallb_forall in Hall. apply Hall. apply list_elem_of_In, elem_of_zrange. lia.
Qed.
End Checked.

Section Once.
Context `{Platform} `{StdSet}.

Lemma publish_outboxes ns start id net :
  Forall (fun s => sent_ s = []) ns -> publish_net ns start id = Ok net ->
  forall i s, nodes net !! i = Some s -> sent_ s = [].
Proof.
  intros Hns Hp i s Hs. unfold publish_net in Hp. rewrite Forall_forall in Hns.
  destruct (ns !! Z.to_nat start) as [s0|] eqn:E0; [|done].
  destruct (publish _ _ _ s0) as [[?| |] s1]; [|done..]. injection Hp as <-. simpl in Hs.
  destruct (decide (i = Z.to_nat start)) as [->|Hi].
  - rewrite list_lookup_insert_eq in Hs by (by eapply lookup_lt_Some). by injection Hs as <-.
  - rewrite list_lookup_insert_ne in Hs by done. apply Hns. by eapply list_elem_of_lookup_2.
Qed.

Lemma publish_others ns start id net i s :
  publish_net ns start id = Ok net -> nodes net !! i = Some s -> i <> Z.to_nat start -> ns !! i = Some s.
Proof.
  intros Hp Hs Hi. unfold publish_net in Hp. destruct (ns !! Z.to_nat start) as [s0|] eqn:E0; [|done].
  destruct (publish _ _ _ s0) as [[?| |] s1]; [|done..]. injection Hp as <-. simpl in Hs.
  by rewrite list_lookup_insert_ne in Hs.
Qed.

(** A passed check decides every schedule. *)
Lemma check_schedules ns start id :
  0 <= start -> broadcast_check ns start id = true ->
  exists net0 all, publish_net ns start id = Ok net0 /\ NoDup (start :: (fst <$> all)) /\
    (forall j, 0 <= j < Z.of_nat (length ns) <-> j ∈ start :: (fst <$> all)) /\
    net_ok ns start all net0 [].
Proof.
  intros Hstart Hc. unfold broadcast_check in Hc. destruct (publish_net ns start id) as [net0| |] eqn:Hp; [|done..].
  apply andb_prop in Hc as [[Hst%bool_decide_eq_true Hdel%bool_decide_eq_true]%andb_prop Hex].
  destruct (explore _ _ _) as [c|] eqn:Ec; [|done]. apply bool_decide_eq_true in Hex.
  apply explore_closes in Ec. exists net0, c. split; [done|].
  assert (Hns : forall i s, ns !! i = Some s -> sent_ s = [] /\ received_messages_ s = []).
  { intros i s Hs. rewrite <- Hst, list_lookup_fmap in Hs. apply fmap_Some in Hs as (t & _ & ->). done. }
  split; [|split].
  - rewrite <- (std_sort_Permutation Z.ltb (start :: _)), Hex. unfold zrange.
    apply NoDup_fmap_2; [intros ? ? ?; lia|apply NoDup_seq].
  - intros j. rewrite <- (std_sort_Permutation Z.ltb (start :: _)), Hex, elem_of_zrange. done.
  - split; [done|]. split; [|by exists c]. intros i s Hs. split; [|split].
    + eapply publish_outboxes; [|done|done]. apply Forall_forall.
      intros u [k Hk]%list_elem_of_lookup_1. by apply (Hns k).
    + intros Hr. left. destruct (decide (i = Z.to_nat start)) as [->|Hi]; [lia|].
      pose proof (publish_others _ _ _ _ _ _ Hp Hs Hi) as Hi'. by destruct (Hns _ _ Hi').
    + rewrite Forall_forall in Hdel. apply Hdel. by eapply list_elem_of_lookup_2.
Qed.

Lemma filter_none (D : list wire) (j : Z) :
  j ∉ fst <$> D -> base.filter (fun w => w.1 = j) D = [].
Proof.
  induction D as [|w D IH]; [done|]. rewrite fmap_cons, not_elem_of_cons. intros [Hw Hj].
  rewrite filter_cons, decide_False by congruence. by apply IH.
Qed.

Lemma filter_one (D : list wire) (j : Z) :
  NoDup (fst <$> D) -> j ∈ fst <$> D -> length (base.filter (fun w => w.1 = j) D) = 1%nat.
Proof.
  induction D as [|w D IH]; [by intros _ ?%elem_of_nil|]. rewrite fmap_cons, NoDup_cons, elem_of_cons.
  intros [Hw Hnd] Hj. rewrite filter_cons. case_decide as Hwj.
  - simpl. rewrite filter_none; [done|]. by rewrite <- Hwj.
  - apply IH; [done|]. destruct Hj; [congruence|done].
Qed.

Lemma schedules_once ns start id :
  0 <= start -> broadcast_check ns start id = true ->
  exists net0, publish_net ns start id = Ok net0 /\
    forall k net, nsteps deliver k net0 net ->
      (k < length ns)%nat /\
      (forall q1 i m q2, inflight net = q1 ++ (i, m) :: q2 ->
         exists s s', 0 <= i /\ nodes net !! Z.to_nat i = Some s /\ processMessage m s = (Ok tt, s')) /\
      (inflight net = [] -> forall j s, nodes net !! j = Some s ->
         length (delivered_ s) = if decide (Z.of_nat j = start) then 0%nat else 1%nat).
Proof.
  intros Hs0 Hc. destruct (check_schedules ns start id Hs0 Hc) as (net0 & all & Hp & Hnd & Hrange & Hok).
  exists net0. split; [done|]. intros k net Hrun.
  destruct (run_ok ns start all Hnd k net0 net [] Hok Hrun) as (D & HD & Hlen). simpl in Hlen.
  assert (Hdom : length ns = length (start :: (fst <$> all))).
  { rewrite <- (Nat2Z.id (length ns)), <- (Z.sub_0_r (Z.of_nat _)), <- length_zrange.
    apply Permutation_length, NoDup_Permutation; [|done|].
    - apply NoDup_fmap_2; [intros ? ? ?; lia|apply NoDup_seq].
    - intros j. rewrite elem_of_zrange. apply Hrange. }
  pose proof HD as (Hstrip & Hnodes & c & Hclose & Hperm).
  split; [|split].
  - rewrite Hdom. simpl. rewrite length_fmap, <- Hperm, length_app. lia.
  - intros q1 i m q2 Hq. by eapply deliver_progress.
  - intros Hq j s Hj. destruct (Hnodes j s Hj) as (_ & _ & ->). rewrite length_fmap.
    rewrite Hq in Hclose. inversion Hclose; subst. rewrite app_nil_r in Hperm.
    rewrite <- Hperm in Hnd. apply NoDup_cons in Hnd as [Hsn Hnd].
    case_decide as Hjs; [by rewrite filter_none by (by rewrite Hjs)|].
    apply filter_one; [done|]. assert (Hjr : Z.of_nat j ∈ start :: (fst <$> all)).
    { apply Hrange. apply lookup_lt_Some in Hj. rewrite length_fmap. lia. }
    rewrite <- Hperm in Hjr.
    apply elem_of_cons in Hjr as [?|?]; [done|done].
Qed.
End Once.

(** C1: in the complete trees of 1 to 15, 14 and 11 nodes of fanout 2, 3 and 4, connected as the
    Minhcast scenarios connect them, a message published by any node reaches every other node
    exactly once, under every order of delivery: no handler throws, fails an assertion or runs
    into undefined behaviour (given that the library's [--begin()] yields [end()]), at most n - 1
    messages are delivered, and when none is in flight every node but the publisher has
    delivered the message to its application once. *)
Theorem minhcast_exactly_once f n start :
  2 <= f <= 4 -> 1 <= n <= checked_nodes f -> 0 <= start < n ->
  let step := @deliver x86_64 libstdcxx in
  exists net0, @publish_net x86_64 libstdcxx (@joinMinhton x86_64 n f) start the_id = Ok net0 /\
    forall k net, nsteps step k net0 net ->
      (Z.of_nat k < n) /\
      (forall q1 i m q2, inflight net = q1 ++ (i, m) :: q2 ->
         exists s s', 0 <= i /\ nodes net !! Z.to_nat i = Some s /\
           @processMessage x86_64 libstdcxx m s = (Ok tt, s')) /\
      (inflight net = [] -> forall j s, nodes net !! j = Some s ->
         length (delivered_ s) = if decide (Z.of_nat j = start) then 0%nat else 1%nat).
Proof.
  intros Hf Hn Hs step. destruct (tree_checked f n start Hf Hn Hs) as [Hlen Hc].
  destruct (schedules_once _ start the_id ltac:(lia) Hc) as (net0 & Hp & Hall).
  exists net0. split; [done|]. intros k net Hrun. destruct (Hall k net Hrun) as (Hk & H2 & H3).
  split; [lia|done].
Qed.

Lemma minhcast_exactly_once_witness :
  let step := @deliver x86_64 libstdcxx in
  exists net0, @publish_net x86_64 libstdcxx (@joinMinhton x86_64 5 2) 3 the_id = Ok net0 /\
    forall k net, nsteps step k net0 net ->
      (Z.of_nat k < 5) /\
      (forall q1 i m q2, inflight net = q1 ++ (i, m) :: q2 ->
         exists s s', 0 <= i /\ nodes net !! Z.to_nat i = Some s /\
           @processMessage x86_64 libstdcxx m s = (Ok tt, s')) /\
      (inflight net = [] -> forall j s, nodes net !! j = Some s ->
         length (delivered_ s) = if decide (Z.of_nat j = 3) then 0%nat else 1%nat).
Proof. apply (minhcast_exactly_once 2 5 3); [lia|vm_compute; intuition congruence|lia]. Defined.
