(* ===== verification/MinhcastInvariants.v ===== *)
(** * The subscriptions of a Minhcast node

    The invariant of [NatterMinhcast::Impl] that its operations rely on: a topic has an own
    position exactly when it has a set of peers, and the set is ordered by position. *)

From S2P Require Import Prelude RoutingCalculations TreeMapper TreeHelper Minhcast.

Definition maps (s : Impl) := (own_node_info_ s, other_peers_ s).

Definition sorted_peers (peers : list MinhcastNodeInfo) : bool := increasing peer_lt peers.

Definition subscriptions_ok (s : Impl) : Prop :=
  dom (own_node_info_ s) = dom (other_peers_ s) /\
  map_Forall (fun _ peers => sorted_peers peers = true) (other_peers_ s).

(** ** Sending does not touch the subscriptions *)

(** Only a topic without a set of peers would get one by [operator[]]. *)
Definition keeps {A} (t : string) (m : M Impl A) : Prop :=
  forall s, is_Some (other_peers_ s !! t) -> maps (m s).2 = maps s.

Lemma keeps_state_free {A} t (f : Impl -> outcome A) : keeps t (fun s => (f s, s)).
Proof. done. Qed.
Lemma keeps_ret {A} t (a : A) : keeps t (mret a).
Proof. done. Qed.
Lemma keeps_lift {A} t (m : outcome A) : keeps t (lift m).
Proof. done. Qed.
Lemma keeps_gets {A} t (f : Impl -> A) : keeps t (gets f).
Proof. done. Qed.
Lemma keeps_throw {A} t e : keeps t (throw (A := A) e).
Proof. done. Qed.
Lemma keeps_throw_if t b e : keeps t (throw_if b e).
Proof. intros s _. unfold throw_if. by destruct b. Qed.

Lemma keeps_bind {A B} t (m : M Impl A) (k : A -> M Impl B) :
  keeps t m -> (forall a, keeps t (k a)) -> keeps t (m ≫= k).
Proof.
  intros Hm Hk s Hs. mred. specialize (Hm s Hs). destruct (m s) as [[a| |] s']; simpl in *; [|done..].
  rewrite (Hk a s'); [done|]. unfold maps in Hm. injection Hm as _ ->. done.
Qed.

Lemma keeps_for_each {A} t (l : list A) (f : A -> M Impl unit) :
  (forall x, keeps t (f x)) -> keeps t (for_each l f).
Proof. intros Hf. induction l as [|x l IH]; simpl; [apply keeps_ret|]. by apply keeps_bind. Qed.

Lemma keeps_peers_of t : keeps t (peers_of t).
Proof. intros s [peers Hs]. unfold peers_of. rewrite bind_gets, Hs. done. Qed.

Lemma keeps_peers_at t : keeps t (peers_at t).
Proof. intros s [peers Hs]. unfold peers_at. rewrite bind_gets, Hs. done. Qed.

Create HintDb keeps.
#[export] Hint Resolve keeps_ret keeps_lift keeps_gets keeps_throw keeps_throw_if keeps_bind
  keeps_for_each keeps_peers_of keeps_peers_at : keeps.

(** ** Ordered sets of peers *)

Lemma ln_lt_trans p q r : ln_lt p q = true -> ln_lt q r = true -> ln_lt p r = true.
Proof.
  destruct p as [[l n] f], q as [[l' n'] f'], r as [[l'' n''] f''].
  unfold ln_lt, ln_level, ln_number, ln_fanout. simpl. repeat case_match; lia.
Qed.

Abbreviation ordered := (StronglySorted (fun a b => peer_lt a b = true)).

Lemma sorted_peers_ordered l : sorted_peers l = true <-> ordered l.
Proof.
  unfold sorted_peers. induction l as [|x l IH]; [split; [constructor|done]|].
  destruct l as [|y l]; [split; [repeat constructor|done]|].
  change (increasing peer_lt (x :: y :: l)) with (peer_lt x y && increasing peer_lt (y :: l)).
  rewrite andb_true_iff, IH. split.
  - intros [Hxy Hs]. constructor; [done|]. constructor; [done|].
    inversion Hs as [|? ? _ Hy]; subst. eapply Forall_impl; [done|]. intros z Hz. by eapply ln_lt_trans.
  - intros Hs. inversion Hs as [|? ? Hs' Hx]; subst. apply Forall_cons in Hx as [Hxy _]. done.
Qed.

Lemma elem_of_set_insert_peer x y s : y ∈ set_insert peer_lt x s -> y = x \/ y ∈ s.
Proof.
  induction s as [|z s IH]; simpl; [set_solver|]. repeat case_match; set_solver.
Qed.

Lemma set_insert_ordered x l : ordered l -> ordered (set_insert peer_lt x l).
Proof.
  induction 1 as [|y l Hs IH Hy]; simpl; [repeat constructor|].
  destruct (peer_lt x y) eqn:Exy; [|destruct (peer_lt y x) eqn:Eyx; [|by constructor]].
  - constructor; [by constructor|]. constructor; [done|]. eapply Forall_impl; [done|].
    intros z Hz. by eapply ln_lt_trans.
  - constructor; [done|]. apply Forall_forall. rewrite Forall_forall in Hy.
    intros z [->|Hz]%elem_of_set_insert_peer; [done|by apply Hy].
Qed.

Lemma erase_ordered i l : ordered l -> ordered (take i l ++ drop (S i) l).
Proof.
  intros Hs. revert i. induction Hs as [|y l Hs IH Hy]; intros [|i]; simpl; [constructor..|by rewrite drop_0|].
  constructor; [apply IH|]. rewrite Forall_forall in *. intros z [Hz|Hz]%elem_of_app.
  - apply Hy. by eapply elem_of_take in Hz as (? & ?%list_elem_of_lookup_2 & _).
  - apply Hy. apply list_elem_of_lookup_1 in Hz as [k Hk]. rewrite lookup_drop in Hk.
    by eapply list_elem_of_lookup_2.
Qed.

Section Sending.
Context `{Platform} `{StdSet}.

Lemma keeps_sendMessage t bc peer up down inner : keeps t (sendMessage bc peer up down inner).
Proof. apply keeps_bind; [apply keeps_lift|]. done. Qed.
#[local] Hint Resolve keeps_sendMessage : keeps.

Lemma keeps_sendToAdjacents bc : keeps (topic bc) (sendToAdjacents bc).
Proof.
  apply keeps_bind; [case_match; auto with keeps|]. intros peers.
  apply keeps_bind; [apply keeps_lift|intros _]. apply keeps_bind; [apply keeps_lift|intros _].
  apply keeps_bind; [apply keeps_lift|intros _].
  apply keeps_bind; [case_match; auto 6 with keeps|intros up].
  apply keeps_bind; [case_match; auto 6 with keeps|auto with keeps].
Qed.

Lemma keeps_sendToParent bc border : keeps (topic bc) (sendToParent bc border).
Proof. unfold sendToParent. repeat case_match; auto with keeps. Qed.

Lemma keeps_sendToChildren bc border : keeps (topic bc) (sendToChildren bc border).
Proof.
  apply keeps_bind; [apply keeps_peers_of|]. intros peers. apply keeps_bind; [apply keeps_lift|].
  intros [receiver other]. apply keeps_bind; auto with keeps.
Qed.

Lemma keeps_sendToInlevel bc a b : keeps (topic bc) (sendToInlevel bc a b).
Proof.
  apply keeps_bind; [apply keeps_peers_of|]. intros peers. apply keeps_bind; [apply keeps_lift|].
  intros [inlevel inner]. apply keeps_bind; auto with keeps.
Qed.

Lemma keeps_broadcast bc : keeps (topic bc) (broadcast bc).
Proof.
  apply keeps_bind; [apply keeps_bind; [apply keeps_gets|]; intros received;
    apply keeps_bind; [apply keeps_throw_if|done]|intros _].
  apply keeps_bind; [apply keeps_sendToAdjacents|]. intros [up down].
  apply keeps_bind; [apply keeps_sendToParent|intros _].
  apply keeps_bind; [apply keeps_sendToChildren|]. intros [a b]. apply keeps_sendToInlevel.
Qed.

(** ** The operations *)

Inductive minhcast_op :=
| op_subscribeTopic (t : string) (info : MinhcastNodeInfo)
| op_unsubscribeTopic (t : string)
| op_addPeer (t : string) (info : MinhcastNodeInfo)
| op_removePeer (t ip : string) (port : Z)
| op_publish (t content : string) (id : uuid)
| op_processMessage (msg : MinhcastMessage).

Definition run_minhcast (op : minhcast_op) (s : Impl) : Impl :=
  match op with
  | op_subscribeTopic t info => (subscribeTopic t info s).2
  | op_unsubscribeTopic t => (unsubscribeTopic t s).2
  | op_addPeer t info => (addPeer t info s).2
  | op_removePeer t ip port => (removePeer t ip port s).2
  | op_publish t c id => (publish t c id s).2
  | op_processMessage msg => (processMessage msg s).2
  end.

Lemma maps_ok s s' : maps s' = maps s -> subscriptions_ok s -> subscriptions_ok s'.
Proof. unfold maps, subscriptions_ok. by intros [= -> ->]. Qed.

Lemma subscribed_peers s t : subscriptions_ok s -> is_Some (own_node_info_ s !! t) -> is_Some (other_peers_ s !! t).
Proof. intros [Hd _] Ht. apply elem_of_dom. rewrite <- Hd. by apply elem_of_dom. Qed.
Lemma replace_peers_ok s t peers :
  subscriptions_ok s -> is_Some (other_peers_ s !! t) -> ordered peers ->
  subscriptions_ok (set_peers (own_node_info_ s) (<[t := peers]> (other_peers_ s)) s).
Proof.
  intros [Hd Hs] Ht Ho. split; simpl.
  - rewrite dom_insert_L, Hd. apply elem_of_dom in Ht. set_solver.
  - apply map_Forall_insert_2; [|done]. by apply sorted_peers_ordered.
Qed.

Lemma subscribe_ok t info s : subscriptions_ok s -> subscriptions_ok (subscribeTopic t info s).2.
Proof.
  intros [Hd Hs]. unfold subscribeTopic. rewrite bind_lift. case_match; simpl; [|done..].
  split; simpl; [by rewrite !dom_insert_L, Hd|]. by apply map_Forall_insert_2.
Qed.

Lemma unsubscribe_ok t s : subscriptions_ok s -> subscriptions_ok (unsubscribeTopic t s).2.
Proof.
  intros [Hd Hs]. split; simpl; [by rewrite !dom_delete_L, Hd|]. by apply map_Forall_delete.
Qed.

Lemma addPeer_ok t info s : subscriptions_ok s -> subscriptions_ok (addPeer t info s).2.
Proof.
  intros Hok. unfold addPeer. rewrite bind_get. destruct (other_peers_ s !! t) as [peers|] eqn:Et; [|done].
  case_match; [done|]. rewrite bind_lift. case_match; simpl; [|done..].
  apply replace_peers_ok; [done|by eexists|]. apply set_insert_ordered.
  destruct Hok as [_ Hs]. by apply sorted_peers_ordered, (Hs t).
Qed.

Lemma removePeer_ok t ip port s : subscriptions_ok s -> subscriptions_ok (removePeer t ip port s).2.
Proof.
  intros Hok. unfold removePeer. rewrite bind_get. destruct (other_peers_ s !! t) as [peers|] eqn:Et; [|done].
  case_match; [|done]. simpl. apply replace_peers_ok; [done|by eexists|]. apply erase_ordered.
  destruct Hok as [_ Hs]. by apply sorted_peers_ordered, (Hs t).
Qed.

Lemma publish_ok t c id s : subscriptions_ok s -> subscriptions_ok (publish t c id s).2.
Proof.
  intros Hok. unfold publish. rewrite bind_get. destruct (own_node_info_ s !! t) as [own|] eqn:Et; [|done].
  apply (maps_ok s); [|done]. apply (keeps_bind t); [|done|].
  - set (bc := {| own_node := _ |}). apply (keeps_broadcast bc).
  - by apply subscribed_peers; [|eexists].
Qed.

Lemma createBroadcastInfo_state msg s :
  (createBroadcastInfo msg s).2 = s /\
  forall bc, (createBroadcastInfo msg s).1 = Ok bc ->
    topic bc = topic_ msg /\ is_Some (own_node_info_ s !! topic_ msg).
Proof.
  unfold createBroadcastInfo. rewrite bind_gets. destruct (own_node_info_ s !! topic_ msg) as [own|]; [|done].
  mred. repeat (case_match; [|done..]). split; [done|]. intros bc [= <-]. by split; [|eexists].
Qed.

Lemma processMessage_ok msg s : subscriptions_ok s -> subscriptions_ok (processMessage msg s).2.
Proof.
  intros Hok. unfold processMessage. rewrite bind_get, bind_lift. case_match; [|done..].
  rewrite bind_modify. case_match; [|done]. set (s1 := set_delivered _ s).
  assert (Hok1 : subscriptions_ok s1) by by apply (maps_ok s). mred.
  destruct (createBroadcastInfo_state msg s1) as [Hst Hbc].
  destruct (createBroadcastInfo msg s1) as [[bc| |] s']; simpl in *; subst s'; [|done..].
  destruct (Hbc bc eq_refl) as [Ht Hown].
  apply (maps_ok s1); [|done]. apply keeps_broadcast. rewrite Ht. by apply subscribed_peers.
Qed.

Lemma run_minhcast_ok op s : subscriptions_ok s -> subscriptions_ok (run_minhcast op s).
Proof.
  destruct op; [apply subscribe_ok|apply unsubscribe_ok|apply addPeer_ok|apply removePeer_ok|
    apply publish_ok|apply processMessage_ok].
Qed.
End Sending.

Definition no_subscriptions (id : uuid) : Impl :=
  {| uuid_ := id; own_node_info_ := ∅; other_peers_ := ∅; received_messages_ := []; sent_ := [];
     delivered_ := [] |}.

(** After any sequence of subscriptions, peer changes, publications and received messages
    (whether or not they throw), a topic has an own position exactly when it has a set of
    peers, and every set of peers is strictly ordered by position; so the [at()] calls and the
    look-ups of a broadcast find what they expect. *)
Theorem minhcast_subscriptions_invariant `{Platform} `{StdSet} id ops :
  let s := foldl (fun s op => run_minhcast op s) (no_subscriptions id) ops in
  dom (own_node_info_ s) = dom (other_peers_ s) /\
  map_Forall (fun _ peers => sorted_peers peers = true) (other_peers_ s).
Proof.
  intros s. change (subscriptions_ok s).
  assert (Hgen : forall s0, subscriptions_ok s0 ->
    subscriptions_ok (foldl (fun s op => run_minhcast op s) s0 ops)).
  { clear s. induction ops as [|op ops IH]; intros s0 Hs0; [done|]. simpl. by apply IH, run_minhcast_ok. }
  apply Hgen. split; simpl; [by rewrite !dom_empty_L|apply map_Forall_empty].
Qed.

(** [addLeftForwardNodes] decrements an iterator that may be [begin()]: when node 2:1 of a
    binary tree is reached from 2:3, whose left table starts with 2:1, a library whose
    [--begin()] is not [end()] has undefined behaviour; with libstdc++ the forward is 2:0. *)
Theorem addLeftForwardNodes_begin peers info :
  find_peer peers (2, 0, 2) = Some info ->
  @addLeftForwardNodes {| decrement_begin_is_end := false |} (2, 1, 2) (2, 3, 2) peers = Undefined /\
  @addLeftForwardNodes libstdcxx (2, 1, 2) (2, 3, 2) peers = Ok [info].
Proof.
  intros Hp. unfold addLeftForwardNodes.
  assert (Hown : calculateLRT (2, 1, 2) = [(2, 0, 2)]) by (vm_compute; reflexivity).
  assert (Hlast : calculateLRT (2, 3, 2) = [(2, 1, 2); (2, 2, 2)]) by (vm_compute; reflexivity).
  rewrite Hown, Hlast. split; [done|]. simpl. mred. unfold require_peer. by rewrite Hp.
Qed.

Lemma addLeftForwardNodes_begin_witness :
  let info := {| position := (2, 0, 2); network_info := ("node"%string, 3); peer_uuid := 4 |} in
  @addLeftForwardNodes {| decrement_begin_is_end := false |} (2, 1, 2) (2, 3, 2) [info] = Undefined /\
  @addLeftForwardNodes libstdcxx (2, 1, 2) (2, 3, 2) [info] = Ok [info].
Proof. intros info. apply (addLeftForwardNodes_begin [info] info). reflexivity. Defined.
