(* ===== verification/Message.v ===== *)
(** * MINHTON messages

    Model of [minhton/message/types.h], [message_header.cpp], [message.h] and of the messages
    under [minhton/message/]: every alternative of [MessageVariant] with its constructor and
    the check the constructor makes, except the four messages of find queries and
    subscriptions, which share one opaque alternative. The additional logging info a message
    carries is not modelled. *)

From S2P Require Import Prelude RoutingCalculations NodeInfo RoutingInformation.

Inductive MessageType :=
| kInit
(* Join Procedure *)
| kJoin | kJoinAccept | kJoinAcceptAck
(* Entity Search *)
| kFindQueryRequest | kFindQueryAnswer | kAttributeInquiryRequest | kAttributeInquiryAnswer
| kSubscriptionOrder | kSubscriptionUpdate
(* Search Exact *)
| kSearchExact | kSearchExactFailure | kEmpty
(* Bootstrap Algorithm *)
| kBootstrapDiscover | kBootstrapResponse
(* Updates & Response Algorithm *)
| kRemoveNeighbor | kRemoveNeighborAck | kUpdateNeighbors | kReplacementUpdate
| kGetNeighbors | kInformAboutNeighbors
(* Leave Procedure *)
| kFindReplacement | kReplacementNack | kSignOffParentRequest | kLockNeighborRequest
| kLockNeighborResponse | kSignOffParentAnswer | kRemoveAndUpdateNeighbor | kReplacementOffer
| kReplacementAck | kUnlockNeighbor.

#[export] Instance MessageType_eq_dec : EqDecision MessageType.
Proof. solve_decision. Defined.

(** [kMapMinhtonMessageTypeStrings] has every message type, so the lookup never fails. *)
Definition getMessageTypeString (type : MessageType) : string :=
  match type with
  | kInit => "INIT"
  | kJoin => "JOIN" | kJoinAccept => "JOIN_ACCEPT" | kJoinAcceptAck => "JOIN_ACCEPT_ACK"
  | kFindQueryRequest => "FIND_QUERY_REQUEST" | kFindQueryAnswer => "FIND_QUERY_ANSWER"
  | kAttributeInquiryRequest => "ATTRIBUTE_INQUIRY_REQUEST"
  | kAttributeInquiryAnswer => "ATTRIBUTE_INQUIRY_ANSWER"
  | kSubscriptionOrder => "SUBSCRIPTION_ORDER" | kSubscriptionUpdate => "SUBSCRIPTION_UPDATE"
  | kSearchExact => "SEARCH_EXACT" | kSearchExactFailure => "SEARCH_EXACT_FAILURE"
  | kEmpty => "EMPTY"
  | kBootstrapDiscover => "BOOTSTRAP_DISCOVER" | kBootstrapResponse => "BOOTSTRAP_RESPONSE"
  | kRemoveNeighbor => "REMOVE_NEIGHBOR" | kRemoveNeighborAck => "REMOVE_NEIGHBOR_ACK"
  | kUpdateNeighbors => "UPDATE_NEIGHBORS" | kReplacementUpdate => "REPLACEMENT_UPDATE"
  | kGetNeighbors => "GET_NEIGHBORS" | kInformAboutNeighbors => "INFORM_ABOUT_NEIGHBORS"
  | kFindReplacement => "FIND_REPLACEMENT" | kReplacementNack => "REPLACEMENT_NACK"
  | kSignOffParentRequest => "SIGN_OFF_PARENT_REQUEST"
  | kLockNeighborRequest => "LOCK_NEIGHBOR_REQUEST"
  | kLockNeighborResponse => "LOCK_NEIGHBOR_RESPONSE"
  | kSignOffParentAnswer => "SIGN_OFF_PARENT_ANSWER"
  | kRemoveAndUpdateNeighbor => "REMOVE_AND_UPDATE_NEIGHBOR"
  | kReplacementOffer => "REPLACEMENT_OFFER" | kReplacementAck => "REPLACEMENT_ACK"
  | kUnlockNeighbor => "UNLOCK_NEIGHBOR"
  end%string.

(** ** The header *)

Record MinhtonMessageHeader := {
  sender_ : NodeInfo;
  target_ : NodeInfo;
  message_type_ : MessageType;
  ref_event_id_ : Z;
  event_id_ : Z;
}.

#[export] Instance MinhtonMessageHeader_eq_dec : EqDecision MinhtonMessageHeader.
Proof. solve_decision. Defined.

Module Header.
Section Headers.
Context `{Inet}.

(** [MinhtonMessageHeader(sender, target, ref_event_id)]; [id] are the first eight bytes of
    the generated UUID. *)
Definition make (sender target : NodeInfo) (ref_event_id id : Z) : MinhtonMessageHeader :=
  {| sender_ := sender; target_ := target; message_type_ := kInit;
     ref_event_id_ := ref_event_id; event_id_ := u64 id |}.

Definition with_event_id (id : Z) (h : MinhtonMessageHeader) : MinhtonMessageHeader :=
  {| sender_ := sender_ h; target_ := target_ h; message_type_ := message_type_ h;
     ref_event_id_ := ref_event_id_ h; event_id_ := id |}.
Definition with_ref_event_id (id : Z) (h : MinhtonMessageHeader) : MinhtonMessageHeader :=
  {| sender_ := sender_ h; target_ := target_ h; message_type_ := message_type_ h;
     ref_event_id_ := id; event_id_ := event_id_ h |}.

Definition setEventId (event_id : Z) : M MinhtonMessageHeader unit :=
  throw_if (event_id =? 0) (invalid_argument "EventId can't be equal to 0.");;
  this ← get;
  throw_if (event_id =? ref_event_id_ this)
    (invalid_argument "EventId can't be equal to RefEventId.");;
  modify (with_event_id event_id).

Definition setRefEventId (ref_event_id : Z) : M MinhtonMessageHeader unit :=
  throw_if (ref_event_id =? 0) (invalid_argument "EventId can't be equal to 0.");;
  this ← get;
  throw_if (ref_event_id =? event_id_ this)
    (invalid_argument "RefEventId can't be equal to EventId.");;
  modify (with_ref_event_id ref_event_id).

Definition setSender (sender : NodeInfo) (h : MinhtonMessageHeader) : MinhtonMessageHeader :=
  {| sender_ := sender; target_ := target_ h; message_type_ := message_type_ h;
     ref_event_id_ := ref_event_id_ h; event_id_ := event_id_ h |}.
Definition setTarget (target : NodeInfo) (h : MinhtonMessageHeader) : MinhtonMessageHeader :=
  {| sender_ := sender_ h; target_ := target; message_type_ := message_type_ h;
     ref_event_id_ := ref_event_id_ h; event_id_ := event_id_ h |}.
Definition setMessageType (type : MessageType) (h : MinhtonMessageHeader) : MinhtonMessageHeader :=
  {| sender_ := sender_ h; target_ := target_ h; message_type_ := type;
     ref_event_id_ := ref_event_id_ h; event_id_ := event_id_ h |}.

Definition validate (h : MinhtonMessageHeader) : bool :=
  let p_node_info_init :=
    Physical.isInitialized (p_node_info_ (sender_ h)) &&
    Physical.isInitialized (p_node_info_ (target_ h)) in
  let message_type_set := negb (bool_decide (message_type_ h = kInit)) in
  let same_fanout :=
    if Node.isInitialized (sender_ h) then Node.getFanout (sender_ h) =? Node.getFanout (target_ h)
    else true in
  let event_id_set := 0 <? event_id_ h in
  p_node_info_init && message_type_set && same_fanout && event_id_set.

(** [MinhtonMessage<T>::validateHeader] and [validate]: the check a message makes when it is
    constructed. *)
Definition validateHeader (h : MinhtonMessageHeader) : bool :=
  Physical.isInitialized (p_node_info_ (sender_ h)) &&
  (Physical.isInitialized (p_node_info_ (target_ h)) ||
   Logical.isInitialized (l_node_info_ (target_ h))).

Definition validateMessage (h : MinhtonMessageHeader) (validateImpl : bool) : outcome unit :=
  throw_when (negb (validateHeader h)) (invalid_argument "Invalid MINHTON message header");;
  throw_when (negb validateImpl) (invalid_argument "Invalid MINHTON message payload").

End Headers.
End Header.

(** ** The messages *)

Inductive SearchProgress := kSearchRight | kSearchLeft | kNone | kCheckRight | kReplacementNode.

#[export] Instance SearchProgress_eq_dec : EqDecision SearchProgress.
Proof. solve_decision. Defined.

(** What no modelled code looks into: attribute values, and the payloads of the messages of
    find queries and subscriptions with the check their constructors make. *)
Class Payloads := {
  ValueAndType : Type;
  OtherPayload : Type;
  validateOther : OtherPayload -> bool;
}.

(** [MessageRemoveNeighbor] and [MessageUpdateNeighbors], which other messages embed. *)
Record RemoveNeighbor := {
  rn_header : MinhtonMessageHeader;
  removed_position_node_ : NodeInfo;
  acknowledge_ : bool;
}.

Record UpdateNeighbors := {
  un_header : MinhtonMessageHeader;
  neighbors_and_relationships_ : list (NodeInfo * NeighborRelationship);
  should_acknowledge_ : bool;
}.

Section Messages.
Context `{Payloads}.

(** [MessageVariant]. The query of an exact search is one of the alternatives of
    [MessageSEVariant], see [is_SEVariant]. *)
Inductive MessageVariant :=
| MessageJoin (header : MinhtonMessageHeader) (entering_node : NodeInfo)
    (search_progress : SearchProgress) (hop_count : Z)
| MessageJoinAccept (header : MinhtonMessageHeader) (fanout : Z) (adjacent_left adjacent_right : NodeInfo)
    (routing_table_neighbors : list NodeInfo)
| MessageJoinAcceptAck (header : MinhtonMessageHeader)
| MessageUpdateNeighbors (msg : UpdateNeighbors)
| MessageRemoveNeighbor (msg : RemoveNeighbor)
| MessageRemoveNeighborAck (header : MinhtonMessageHeader)
| MessageRemoveAndUpdateNeighbors (header : MinhtonMessageHeader) (remove_msg : RemoveNeighbor)
    (update_msg : UpdateNeighbors) (should_acknowledge : bool)
| MessageGetNeighbors (header : MinhtonMessageHeader) (send_back_to_node : NodeInfo)
    (relationships : list NeighborRelationship)
| MessageInformAboutNeighbors (header : MinhtonMessageHeader) (neighbors : list NodeInfo)
| MessageSearchExact (header : MinhtonMessageHeader) (destination_node : NodeInfo)
    (query : MessageVariant) (notify_about_failure : bool)
| MessageSearchExactFailure (header : MinhtonMessageHeader) (destination_node : NodeInfo)
    (query : MessageVariant)
| MessageEmpty (header : MinhtonMessageHeader)
| MessageBootstrapDiscover (header : MinhtonMessageHeader) (discovery_msg : string)
| MessageBootstrapResponse (header : MinhtonMessageHeader) (node_to_join : NodeInfo)
| MessageFindReplacement (header : MinhtonMessageHeader) (node_to_replace : NodeInfo)
    (search_progress : SearchProgress) (hop_count : Z)
| MessageReplacementUpdate (header : MinhtonMessageHeader)
    (removed_position_node replaced_position_node : NodeInfo) (new_l_node_info : LogicalNodeInfo)
    (should_acknowledge : bool)
| MessageReplacementOffer (header : MinhtonMessageHeader)
| MessageReplacementAck (header : MinhtonMessageHeader) (neighbors : list NodeInfo)
    (locked locked_right locked_left : bool)
| MessageReplacementNack (header : MinhtonMessageHeader)
| MessageSignoffParentRequest (header : MinhtonMessageHeader)
| MessageSignoffParentAnswer (header : MinhtonMessageHeader) (successful : bool)
| MessageLockNeighborRequest (header : MinhtonMessageHeader)
| MessageLockNeighborResponse (header : MinhtonMessageHeader) (successful : bool)
| MessageUnlockNeighbor (header : MinhtonMessageHeader)
| MessageAttributeInquiryRequest (header : MinhtonMessageHeader) (inquire_all : bool)
    (missing_keys : list string)
| MessageAttributeInquiryAnswer (header : MinhtonMessageHeader) (inquired_node : NodeInfo)
    (attribute_values_and_types : gmap string ValueAndType) (removed_attribute_keys : list string)
| MessageOther (header : MinhtonMessageHeader) (payload : OtherPayload).

Definition getHeader (msg : MessageVariant) : MinhtonMessageHeader :=
  match msg with
  | MessageJoin h _ _ _ | MessageJoinAccept h _ _ _ _ | MessageJoinAcceptAck h
  | MessageUpdateNeighbors {| un_header := h |} | MessageRemoveNeighbor {| rn_header := h |}
  | MessageRemoveNeighborAck h | MessageRemoveAndUpdateNeighbors h _ _ _ | MessageGetNeighbors h _ _
  | MessageInformAboutNeighbors h _ | MessageSearchExact h _ _ _ | MessageSearchExactFailure h _ _
  | MessageEmpty h | MessageBootstrapDiscover h _ | MessageBootstrapResponse h _
  | MessageFindReplacement h _ _ _ | MessageReplacementUpdate h _ _ _ _ | MessageReplacementOffer h
  | MessageReplacementAck h _ _ _ _ | MessageReplacementNack h | MessageSignoffParentRequest h
  | MessageSignoffParentAnswer h _ | MessageLockNeighborRequest h | MessageLockNeighborResponse h _
  | MessageUnlockNeighbor h | MessageAttributeInquiryRequest h _ _
  | MessageAttributeInquiryAnswer h _ _ _ | MessageOther h _ => h
  end.

Definition getMessageType (msg : MessageVariant) : MessageType := message_type_ (getHeader msg).
Definition getSender (msg : MessageVariant) : NodeInfo := sender_ (getHeader msg).
Definition getTarget (msg : MessageVariant) : NodeInfo := target_ (getHeader msg).

(** [MessageSEVariant]: what an exact search may carry. *)
Definition is_SEVariant (msg : MessageVariant) : bool :=
  match msg with MessageSearchExact _ _ _ _ | MessageSearchExactFailure _ _ _ => false | _ => true end.

(** The type each alternative is constructed with; [MessageOther] stands for four of them. *)
Definition alternative_types (msg : MessageVariant) : list MessageType :=
  match msg with
  | MessageJoin _ _ _ _ => [kJoin] | MessageJoinAccept _ _ _ _ _ => [kJoinAccept]
  | MessageJoinAcceptAck _ => [kJoinAcceptAck] | MessageUpdateNeighbors _ => [kUpdateNeighbors]
  | MessageRemoveNeighbor _ => [kRemoveNeighbor] | MessageRemoveNeighborAck _ => [kRemoveNeighborAck]
  | MessageRemoveAndUpdateNeighbors _ _ _ _ => [kRemoveAndUpdateNeighbor]
  | MessageGetNeighbors _ _ _ => [kGetNeighbors]
  | MessageInformAboutNeighbors _ _ => [kInformAboutNeighbors]
  | MessageSearchExact _ _ _ _ => [kSearchExact]
  | MessageSearchExactFailure _ _ _ => [kSearchExactFailure] | MessageEmpty _ => [kEmpty]
  | MessageBootstrapDiscover _ _ => [kBootstrapDiscover]
  | MessageBootstrapResponse _ _ => [kBootstrapResponse]
  | MessageFindReplacement _ _ _ _ => [kFindReplacement]
  | MessageReplacementUpdate _ _ _ _ _ => [kReplacementUpdate]
  | MessageReplacementOffer _ => [kReplacementOffer] | MessageReplacementAck _ _ _ _ _ => [kReplacementAck]
  | MessageReplacementNack _ => [kReplacementNack]
  | MessageSignoffParentRequest _ => [kSignOffParentRequest]
  | MessageSignoffParentAnswer _ _ => [kSignOffParentAnswer]
  | MessageLockNeighborRequest _ => [kLockNeighborRequest]
  | MessageLockNeighborResponse _ _ => [kLockNeighborResponse]
  | MessageUnlockNeighbor _ => [kUnlockNeighbor]
  | MessageAttributeInquiryRequest _ _ _ => [kAttributeInquiryRequest]
  | MessageAttributeInquiryAnswer _ _ _ _ => [kAttributeInquiryAnswer]
  | MessageOther _ _ => [kFindQueryRequest; kFindQueryAnswer; kSubscriptionOrder; kSubscriptionUpdate]
  end.

(** The header of a message names the type of its alternative, as every constructor sets it;
    the query of an exact search is a well-typed alternative of [MessageSEVariant]. *)
Fixpoint well_typed (msg : MessageVariant) : bool :=
  bool_decide (getMessageType msg ∈ alternative_types msg) &&
  match msg with
  | MessageSearchExact _ _ query _ | MessageSearchExactFailure _ _ query =>
      is_SEVariant query && well_typed query
  | MessageRemoveAndUpdateNeighbors _ remove_msg update_msg _ =>
      bool_decide (message_type_ (rn_header remove_msg) = kRemoveNeighbor) &&
      bool_decide (message_type_ (un_header update_msg) = kUpdateNeighbors)
  | _ => true
  end.

Lemma well_typed_type msg : well_typed msg = true -> getMessageType msg ∈ alternative_types msg.
Proof. destruct msg; cbn; rewrite andb_true_iff; intros [Ht%bool_decide_eq_true _]; done. Qed.

Section Constructors.
Context `{Inet}.

(** [validateImpl]: the check of the payload, for each alternative. *)
Definition validateRemoveNeighbor (msg : RemoveNeighbor) : bool :=
  Node.isInitialized (removed_position_node_ msg).
Definition validateUpdateNeighbors (msg : UpdateNeighbors) : bool :=
  negb (bool_decide (neighbors_and_relationships_ msg = [])).

Definition validateImpl (msg : MessageVariant) : bool :=
  match msg with
  | MessageJoin _ entering_node _ _ => Physical.isInitialized (p_node_info_ entering_node)
  | MessageJoinAccept _ fanout adjacent_left adjacent_right routing_table_neighbors =>
      if existsb (fun node => negb (Node.isInitialized node)) routing_table_neighbors then false
      else isFanoutValid fanout && (Node.isInitialized adjacent_left || Node.isInitialized adjacent_right)
  | MessageUpdateNeighbors m => validateUpdateNeighbors m
  | MessageRemoveNeighbor m => validateRemoveNeighbor m
  | MessageGetNeighbors _ _ relationships => negb (bool_decide (relationships = []))
  | MessageInformAboutNeighbors _ neighbors => negb (bool_decide (neighbors = []))
  (* the pointer to the query is never null in a message that exists *)
  | MessageSearchExact _ destination_node _ _ | MessageSearchExactFailure _ destination_node _ =>
      Node.isValidPeer destination_node
  | MessageBootstrapResponse _ node_to_join => Node.isInitialized node_to_join
  | MessageFindReplacement _ node_to_replace _ _ => Node.isInitialized node_to_replace
  | MessageReplacementUpdate _ removed_position_node replaced_position_node new_l_node_info _ =>
      Node.isInitialized removed_position_node && Node.isInitialized replaced_position_node &&
      Logical.isInitialized new_l_node_info
  | MessageReplacementAck _ neighbors _ _ _ => forallb Node.isInitialized neighbors
  | MessageAttributeInquiryRequest _ inquire_all missing_keys =>
      inquire_all || negb (bool_decide (missing_keys = []))
  | MessageAttributeInquiryAnswer _ inquired_node _ _ => Node.isInitialized inquired_node
  | MessageOther _ payload => validateOther payload
  | _ => true
  end.

(** What the constructors share: the type is entered into the header, and the header and the
    payload are validated. *)
Definition constructed {A} (validateImpl : A -> bool) (type : MessageType) (header : MinhtonMessageHeader)
    (build : MinhtonMessageHeader -> A) : outcome A :=
  let header_ := Header.setMessageType type header in
  Header.validateMessage header_ (validateImpl (build header_));;
  mret (build header_).

Definition makeJoin (header : MinhtonMessageHeader) (entering_node : NodeInfo)
    (search_progress : SearchProgress) (hop_count : Z) : outcome MessageVariant :=
  constructed validateImpl kJoin header
    (fun header_ => MessageJoin header_ entering_node search_progress hop_count).

Definition makeJoinAccept (header : MinhtonMessageHeader) (fanout : Z)
    (adjacent_left adjacent_right : NodeInfo) (routing_table_neighbors : list NodeInfo)
    : outcome MessageVariant :=
  constructed validateImpl kJoinAccept header
    (fun header_ => MessageJoinAccept header_ fanout adjacent_left adjacent_right routing_table_neighbors).

Definition makeJoinAcceptAck (header : MinhtonMessageHeader) : outcome MessageVariant :=
  constructed validateImpl kJoinAcceptAck header MessageJoinAcceptAck.

Definition makeUpdateNeighbors (header : MinhtonMessageHeader)
    (neighbors_and_relationships : list (NodeInfo * NeighborRelationship)) (should_acknowledge : bool)
    : outcome UpdateNeighbors :=
  constructed validateUpdateNeighbors kUpdateNeighbors header
    (fun header_ => {| un_header := header_; neighbors_and_relationships_ := neighbors_and_relationships;
                       should_acknowledge_ := should_acknowledge |}).

Definition makeRemoveNeighbor (header : MinhtonMessageHeader) (removed_position_node : NodeInfo)
    (acknowledge : bool) : outcome RemoveNeighbor :=
  constructed validateRemoveNeighbor kRemoveNeighbor header
    (fun header_ => {| rn_header := header_; removed_position_node_ := removed_position_node;
                       acknowledge_ := acknowledge |}).

Definition makeRemoveNeighborAck (header : MinhtonMessageHeader) : outcome MessageVariant :=
  constructed validateImpl kRemoveNeighborAck header MessageRemoveNeighborAck.

Definition makeRemoveAndUpdateNeighbors (header : MinhtonMessageHeader) (remove_msg : RemoveNeighbor)
    (update_msg : UpdateNeighbors) (should_acknowledge : bool) : outcome MessageVariant :=
  constructed validateImpl kRemoveAndUpdateNeighbor header
    (fun header_ => MessageRemoveAndUpdateNeighbors header_ remove_msg update_msg should_acknowledge).

Definition makeGetNeighbors (header : MinhtonMessageHeader) (send_back_to_node : NodeInfo)
    (relationships : list NeighborRelationship) : outcome MessageVariant :=
  constructed validateImpl kGetNeighbors header
    (fun header_ => MessageGetNeighbors header_ send_back_to_node relationships).

Definition makeInformAboutNeighbors (header : MinhtonMessageHeader) (neighbors : list NodeInfo)
    : outcome MessageVariant :=
  constructed validateImpl kInformAboutNeighbors header
    (fun header_ => MessageInformAboutNeighbors header_ neighbors).

Definition makeSearchExact (header : MinhtonMessageHeader) (destination_node : NodeInfo)
    (query : MessageVariant) (notify_about_failure : bool) : outcome MessageVariant :=
  constructed validateImpl kSearchExact header
    (fun header_ => MessageSearchExact header_ destination_node query notify_about_failure).

Definition makeSearchExactFailure (header : MinhtonMessageHeader) (destination_node : NodeInfo)
    (query : MessageVariant) : outcome MessageVariant :=
  constructed validateImpl kSearchExactFailure header
    (fun header_ => MessageSearchExactFailure header_ destination_node query).

Definition makeEmpty (header : MinhtonMessageHeader) : outcome MessageVariant :=
  constructed validateImpl kEmpty header MessageEmpty.

Definition makeBootstrapDiscover (header : MinhtonMessageHeader) (discovery_msg : string)
    : outcome MessageVariant :=
  constructed validateImpl kBootstrapDiscover header
    (fun header_ => MessageBootstrapDiscover header_ discovery_msg).

Definition makeBootstrapResponse (header : MinhtonMessageHeader) (node_to_join : NodeInfo)
    : outcome MessageVariant :=
  constructed validateImpl kBootstrapResponse header
    (fun header_ => MessageBootstrapResponse header_ node_to_join).

Definition makeFindReplacement (header : MinhtonMessageHeader) (node_to_replace : NodeInfo)
    (search_progress : SearchProgress) (hop_count : Z) : outcome MessageVariant :=
  constructed validateImpl kFindReplacement header
    (fun header_ => MessageFindReplacement header_ node_to_replace search_progress hop_count).

Definition makeReplacementUpdate (header : MinhtonMessageHeader)
    (removed_position_node replaced_position_node : NodeInfo) (new_l_node_info : LogicalNodeInfo)
    (should_acknowledge : bool) : outcome MessageVariant :=
  constructed validateImpl kReplacementUpdate header
    (fun header_ => MessageReplacementUpdate header_ removed_position_node replaced_position_node
                      new_l_node_info should_acknowledge).

Definition makeReplacementOffer (header : MinhtonMessageHeader) : outcome MessageVariant :=
  constructed validateImpl kReplacementOffer header MessageReplacementOffer.

Definition makeReplacementAck (header : MinhtonMessageHeader) (neighbors : list NodeInfo)
    (locked locked_right locked_left : bool) : outcome MessageVariant :=
  constructed validateImpl kReplacementAck header
    (fun header_ => MessageReplacementAck header_ neighbors locked locked_right locked_left).

Definition makeReplacementNack (header : MinhtonMessageHeader) : outcome MessageVariant :=
  constructed validateImpl kReplacementNack header MessageReplacementNack.

Definition makeSignoffParentRequest (header : MinhtonMessageHeader) : outcome MessageVariant :=
  constructed validateImpl kSignOffParentRequest header MessageSignoffParentRequest.

Definition makeSignoffParentAnswer (header : MinhtonMessageHeader) (successful : bool)
    : outcome MessageVariant :=
  constructed validateImpl kSignOffParentAnswer header
    (fun header_ => MessageSignoffParentAnswer header_ successful).

Definition makeLockNeighborRequest (header : MinhtonMessageHeader) : outcome MessageVariant :=
  constructed validateImpl kLockNeighborRequest header MessageLockNeighborRequest.

Definition makeLockNeighborResponse (header : MinhtonMessageHeader) (successful : bool)
    : outcome MessageVariant :=
  constructed validateImpl kLockNeighborResponse header
    (fun header_ => MessageLockNeighborResponse header_ successful).

Definition makeUnlockNeighbor (header : MinhtonMessageHeader) : outcome MessageVariant :=
  constructed validateImpl kUnlockNeighbor header MessageUnlockNeighbor.

Definition makeAttributeInquiryRequest (header : MinhtonMessageHeader) (inquire_all : bool)
    (missing_keys : list string) : outcome MessageVariant :=
  constructed validateImpl kAttributeInquiryRequest header
    (fun header_ => MessageAttributeInquiryRequest header_ inquire_all missing_keys).

Definition makeAttributeInquiryAnswer (header : MinhtonMessageHeader) (inquired_node : NodeInfo)
    (attribute_values_and_types : gmap string ValueAndType) (removed_attribute_keys : list string)
    : outcome MessageVariant :=
  constructed validateImpl kAttributeInquiryAnswer header
    (fun header_ => MessageAttributeInquiryAnswer header_ inquired_node attribute_values_and_types
                      removed_attribute_keys).

(** [MinhtonMessage<T>::setTarget]: the target is changed, then the message validated again. *)
Definition with_header (header : MinhtonMessageHeader) (msg : MessageVariant) : MessageVariant :=
  match msg with
  | MessageJoin _ a b c => MessageJoin header a b c
  | MessageJoinAccept _ a b c d => MessageJoinAccept header a b c d
  | MessageJoinAcceptAck _ => MessageJoinAcceptAck header
  | MessageUpdateNeighbors m =>
      MessageUpdateNeighbors {| un_header := header;
        neighbors_and_relationships_ := neighbors_and_relationships_ m;
        should_acknowledge_ := should_acknowledge_ m |}
  | MessageRemoveNeighbor m =>
      MessageRemoveNeighbor {| rn_header := header; removed_position_node_ := removed_position_node_ m;
        acknowledge_ := acknowledge_ m |}
  | MessageRemoveNeighborAck _ => MessageRemoveNeighborAck header
  | MessageRemoveAndUpdateNeighbors _ a b c => MessageRemoveAndUpdateNeighbors header a b c
  | MessageGetNeighbors _ a b => MessageGetNeighbors header a b
  | MessageInformAboutNeighbors _ a => MessageInformAboutNeighbors header a
  | MessageSearchExact _ a b c => MessageSearchExact header a b c
  | MessageSearchExactFailure _ a b => MessageSearchExactFailure header a b
  | MessageEmpty _ => MessageEmpty header
  | MessageBootstrapDiscover _ a => MessageBootstrapDiscover header a
  | MessageBootstrapResponse _ a => MessageBootstrapResponse header a
  | MessageFindReplacement _ a b c => MessageFindReplacement header a b c
  | MessageReplacementUpdate _ a b c d => MessageReplacementUpdate header a b c d
  | MessageReplacementOffer _ => MessageReplacementOffer header
  | MessageReplacementAck _ a b c d => MessageReplacementAck header a b c d
  | MessageReplacementNack _ => MessageReplacementNack header
  | MessageSignoffParentRequest _ => MessageSignoffParentRequest header
  | MessageSignoffParentAnswer _ a => MessageSignoffParentAnswer header a
  | MessageLockNeighborRequest _ => MessageLockNeighborRequest header
  | MessageLockNeighborResponse _ a => MessageLockNeighborResponse header a
  | MessageUnlockNeighbor _ => MessageUnlockNeighbor header
  | MessageAttributeInquiryRequest _ a b => MessageAttributeInquiryRequest header a b
  | MessageAttributeInquiryAnswer _ a b c => MessageAttributeInquiryAnswer header a b c
  | MessageOther _ a => MessageOther header a
  end.

Definition setTarget (new_target : NodeInfo) (msg : MessageVariant) : outcome MessageVariant :=
  let header := Header.setTarget new_target (getHeader msg) in
  Header.validateMessage header (validateImpl (with_header header msg));;
  mret (with_header header msg).

End Constructors.
End Messages.

(** A well-typed message whose type is not that of its alternative. *)
Ltac wrong_alternative Hw Ht :=
  apply well_typed_type in Hw; unfold getMessageType in *; rewrite Ht in Hw; cbn in Hw;
  rewrite ?elem_of_cons, elem_of_nil in Hw; naive_solver.
