(* ===== verification/Fsm.v ===== *)
(** * The finite state machine of a MINHTON node

    Model of [minhton/utils/fsm.h], [fsm.cpp] and [fsm_exception.cpp], on top of the row
    selection of the vendored [fsmlite/fsm.h]. The states, events, guards and the transition
    table are the source's, row by row and in its order. *)

From S2P Require Import Prelude NodeInfo Message.

(** ** States and events *)

Inductive FSMState :=
| kIdle
| kWaitForBootstrapResponse
| kWaitForJoinAccept
| kConnected
| kConnectedAcceptingChild
| kConnectedReplacing
| kWaitForReplacementOffer
| kErrorState
| kConnectedWaitingParentResponse
| kSignOffFromInlevelNeighbors
| kConnectedWaitingParentResponseDirectLeaveWoReplacement
| kSignOffFromInlevelNeighborsDirectLeaveWoReplacement
| kJoinFailed.

#[export] Instance FSMState_eq_dec : EqDecision FSMState.
Proof. solve_decision. Defined.

Inductive SignalType := kJoinNetwork | kLeaveNetwork | kCleanupSignal.

#[export] Instance SignalType_eq_dec : EqDecision SignalType.
Proof. solve_decision. Defined.

Inductive TimeoutType :=
| kBootstrapResponseTimeout
| kJoinAcceptResponseTimeout
| kJoinAcceptAckResponseTimeout
| kReplacementAckResponseTimeout
| kReplacementOfferResponseTimeout
| kDsnAggregationTimeout
| kInquiryAggregationTimeout
| kSelfDepartureRetry
| kJoinRetry.

#[export] Instance TimeoutType_eq_dec : EqDecision TimeoutType.
Proof. solve_decision. Defined.

Record ReceiveMessage := {
  recv_msg_type : MessageType;
  does_not_need_replacement : bool;
}.

Record SendMessage := { send_msg_type : MessageType }.

Record Signal := {
  signal_type : SignalType;
  can_leave_position : bool;
  join_via_bootstrap : bool;
  join_address : list ascii;
  join_port : Z;
  join_nodeinfo : NodeInfo;
}.

Record Timeout := {
  timeout_type : TimeoutType;
  valid_bootstrap_response : bool;
}.

Definition joinNetworkViaNodeInfo (ni : NodeInfo) : Signal :=
  {| signal_type := kJoinNetwork; can_leave_position := false; join_via_bootstrap := false;
     join_address := address_ (p_node_info_ ni); join_port := port_ (p_node_info_ ni);
     join_nodeinfo := ni |}.
Definition joinNetworkViaAddress (addr : list ascii) (port : Z) : Signal :=
  {| signal_type := kJoinNetwork; can_leave_position := false; join_via_bootstrap := false;
     join_address := addr; join_port := port; join_nodeinfo := Node.default |}.
Definition joinNetworkViaBootstrapAt (addr : list ascii) (port : Z) : Signal :=
  {| signal_type := kJoinNetwork; can_leave_position := false; join_via_bootstrap := true;
     join_address := addr; join_port := port; join_nodeinfo := Node.default |}.
Definition joinNetworkViaBootstrap : Signal := joinNetworkViaBootstrapAt [] 0.
Definition leaveNetwork : Signal :=
  {| signal_type := kLeaveNetwork; can_leave_position := false; join_via_bootstrap := false;
     join_address := []; join_port := 0; join_nodeinfo := Node.default |}.

Definition getStateString (state : FSMState) : string :=
  match state with
  | kIdle => "idle"
  | kWaitForBootstrapResponse => "wait_for_bootstrap_response"
  | kWaitForJoinAccept => "wait_for_join_accept"
  | kConnected => "connected"
  | kConnectedAcceptingChild => "connected_accepting_child"
  | kConnectedReplacing => "connected_replacing"
  | kWaitForReplacementOffer => "wait_for_replacement_offer"
  | kConnectedWaitingParentResponse => "kConnectedWaitingParentResponse"
  | kConnectedWaitingParentResponseDirectLeaveWoReplacement =>
      "k_connected_waiting_parent_response_without_replacement"
  | kSignOffFromInlevelNeighborsDirectLeaveWoReplacement =>
      "kSignOffFromInlevelNeighborsDirectLeaveWoReplacement"
  | kErrorState => "error"
  | kSignOffFromInlevelNeighbors => "kSignOffFromInlevelNeighbors"
  | kJoinFailed => "join_failed"
  end%string.

(** ** Guards *)

Definition joinNetworkSignalUsingBootstrap (event : Signal) : bool :=
  bool_decide (signal_type event = kJoinNetwork) && join_via_bootstrap event.

Definition joinNetworkSignalUsingAddress (event : Signal) : bool :=
  bool_decide (signal_type event = kJoinNetwork) && negb (join_via_bootstrap event).

Definition leaveNetworkSignalCanLeavePosition (event : Signal) : bool :=
  bool_decide (signal_type event = kLeaveNetwork) && can_leave_position event.

Definition leaveNetworkSignalCannotLeavePosition (event : Signal) : bool :=
  bool_decide (signal_type event = kLeaveNetwork) && negb (can_leave_position event).

Definition bootstrapResponseTimeoutInvalid (event : Timeout) : bool :=
  bool_decide (timeout_type event = kBootstrapResponseTimeout) && negb (valid_bootstrap_response event).

Definition bootstrapResponseTimeoutValid (event : Timeout) : bool :=
  bool_decide (timeout_type event = kBootstrapResponseTimeout) && valid_bootstrap_response event.

Definition joinResponseTimeout (event : Timeout) : bool :=
  bool_decide (timeout_type event = kJoinAcceptResponseTimeout).

Definition joinAcceptAckResponseTimeout (event : Timeout) : bool :=
  bool_decide (timeout_type event = kJoinAcceptAckResponseTimeout).

Definition replacementAckResponseTimeout (event : Timeout) : bool :=
  bool_decide (timeout_type event = kReplacementAckResponseTimeout).

Definition replacementOfferResponseTimeout (event : Timeout) : bool :=
  bool_decide (timeout_type event = kReplacementOfferResponseTimeout).

Definition timeoutNonCriticalMsgInConnectedState (event : Timeout) : bool :=
  bool_decide (timeout_type event = kDsnAggregationTimeout) ||
  bool_decide (timeout_type event = kInquiryAggregationTimeout).

Definition recvJoinAcceptMessage (event : ReceiveMessage) : bool :=
  bool_decide (recv_msg_type event = kJoinAccept).

Definition recvJoinAcceptAckMessage (event : ReceiveMessage) : bool :=
  bool_decide (recv_msg_type event = kJoinAcceptAck).

Definition recvReplacementAckMessage (event : ReceiveMessage) : bool :=
  bool_decide (recv_msg_type event = kReplacementAck).

Definition recvReplacementOfferMessage (event : ReceiveMessage) : bool :=
  bool_decide (recv_msg_type event = kReplacementOffer).

Definition recvBootstrapDiscoverMessage (event : ReceiveMessage) : bool :=
  bool_decide (recv_msg_type event = kBootstrapDiscover).

Definition recvBootstrapResponseMessage (event : ReceiveMessage) : bool :=
  bool_decide (recv_msg_type event = kBootstrapResponse).

Definition sendJoinMessage (event : SendMessage) : bool :=
  bool_decide (send_msg_type event = kJoin).

Definition sendJoinAcceptMessage (event : SendMessage) : bool :=
  bool_decide (send_msg_type event = kJoinAccept).

Definition sendJoinAcceptAckMessage (event : SendMessage) : bool :=
  bool_decide (send_msg_type event = kJoinAcceptAck).

Definition sendReplacementOfferMessage (event : SendMessage) : bool :=
  bool_decide (send_msg_type event = kReplacementOffer).

Definition sendReplacementOfferNackMessage (event : SendMessage) : bool :=
  bool_decide (send_msg_type event = kReplacementNack).

Definition sendParentResponseMessage (event : SendMessage) : bool :=
  bool_decide (send_msg_type event = kSignOffParentRequest).

Definition sendReplacementAckMessage (event : SendMessage) : bool :=
  bool_decide (send_msg_type event = kReplacementAck).

Definition sendBootstrapDiscoverMessage (event : SendMessage) : bool :=
  bool_decide (send_msg_type event = kBootstrapDiscover).

Definition sendBootstrapResponseMessage (event : SendMessage) : bool :=
  bool_decide (send_msg_type event = kBootstrapResponse).

Definition recvFindReplacementAtNodeToReplace (event : ReceiveMessage) : bool :=
  bool_decide (recv_msg_type event = kFindReplacement) && does_not_need_replacement event.

Definition recvFindReplacement (event : ReceiveMessage) : bool :=
  bool_decide (recv_msg_type event = kFindReplacement).

Definition recvParentResponseAck (event : ReceiveMessage) : bool :=
  bool_decide (recv_msg_type event = kSignOffParentAnswer).

Definition recvFindReplacementNack (event : ReceiveMessage) : bool :=
  bool_decide (recv_msg_type event = kReplacementNack).

Definition sendRemoveNeighborMessage (event : SendMessage) : bool :=
  bool_decide (send_msg_type event = kRemoveNeighbor).

Definition sendRemoveAndUpdateNeighbor (event : SendMessage) : bool :=
  bool_decide (send_msg_type event = kRemoveAndUpdateNeighbor).

Definition sendUpdateNeighborsMessage (event : SendMessage) : bool :=
  bool_decide (send_msg_type event = kUpdateNeighbors).

Definition recvNonCriticalMsgInConnectedState (event : ReceiveMessage) : bool :=
  bool_decide (recv_msg_type event = kJoin) ||
  bool_decide (recv_msg_type event = kUpdateNeighbors) ||
  bool_decide (recv_msg_type event = kRemoveNeighbor) ||
  bool_decide (recv_msg_type event = kRemoveAndUpdateNeighbor) ||
  bool_decide (recv_msg_type event = kGetNeighbors) ||
  bool_decide (recv_msg_type event = kInformAboutNeighbors) ||
  bool_decide (recv_msg_type event = kSearchExact) ||
  bool_decide (recv_msg_type event = kSearchExactFailure) ||
  bool_decide (recv_msg_type event = kEmpty) ||
  bool_decide (recv_msg_type event = kReplacementUpdate) ||
  bool_decide (recv_msg_type event = kFindReplacement) ||
  bool_decide (recv_msg_type event = kBootstrapDiscover) ||
  bool_decide (recv_msg_type event = kFindQueryAnswer) ||
  bool_decide (recv_msg_type event = kFindQueryRequest) ||
  bool_decide (recv_msg_type event = kAttributeInquiryAnswer) ||
  bool_decide (recv_msg_type event = kAttributeInquiryRequest) ||
  bool_decide (recv_msg_type event = kSubscriptionOrder) ||
  bool_decide (recv_msg_type event = kSubscriptionUpdate) ||
  bool_decide (recv_msg_type event = kLockNeighborRequest) ||
  bool_decide (recv_msg_type event = kLockNeighborResponse) ||
  bool_decide (recv_msg_type event = kRemoveNeighborAck) ||
  bool_decide (recv_msg_type event = kUnlockNeighbor) ||
  bool_decide (recv_msg_type event = kSignOffParentRequest).

Definition sendNonCriticalMsgInConnectedState (event : SendMessage) : bool :=
  bool_decide (send_msg_type event = kJoin) ||
  bool_decide (send_msg_type event = kUpdateNeighbors) ||
  bool_decide (send_msg_type event = kRemoveNeighbor) ||
  bool_decide (send_msg_type event = kGetNeighbors) ||
  bool_decide (send_msg_type event = kInformAboutNeighbors) ||
  bool_decide (send_msg_type event = kSearchExact) ||
  bool_decide (send_msg_type event = kSearchExactFailure) ||
  bool_decide (send_msg_type event = kEmpty) ||
  bool_decide (send_msg_type event = kReplacementUpdate) ||
  bool_decide (send_msg_type event = kFindReplacement) ||
  bool_decide (send_msg_type event = kFindQueryAnswer) ||
  bool_decide (send_msg_type event = kFindQueryRequest) ||
  bool_decide (send_msg_type event = kAttributeInquiryAnswer) ||
  bool_decide (send_msg_type event = kAttributeInquiryRequest) ||
  bool_decide (send_msg_type event = kSubscriptionOrder) ||
  bool_decide (send_msg_type event = kSubscriptionUpdate) ||
  bool_decide (send_msg_type event = kSignOffParentRequest) ||
  bool_decide (send_msg_type event = kSignOffParentAnswer) ||
  bool_decide (send_msg_type event = kLockNeighborRequest) ||
  bool_decide (send_msg_type event = kLockNeighborResponse) ||
  bool_decide (send_msg_type event = kRemoveNeighborAck) ||
  bool_decide (send_msg_type event = kUnlockNeighbor) ||
  bool_decide (send_msg_type event = kReplacementNack).

Definition sendLeaveRelatedMsgInIdleState (event : SendMessage) : bool :=
  bool_decide (send_msg_type event = kUnlockNeighbor) ||
  bool_decide (send_msg_type event = kSignOffParentRequest) ||
  bool_decide (send_msg_type event = kReplacementAck).

(** ** The machine *)

(** [FiniteStateMachine]: the state kept by [fsmlite::fsm] and the flag of the derived class. *)
Record FiniteStateMachine := {
  m_state : FSMState;
  valid_action_ : bool;
}.

Definition makeFSM (init_state : FSMState) : FiniteStateMachine :=
  {| m_state := init_state; valid_action_ := false |}.

Definition validAction {Event : Type} (event : Event) (this : FiniteStateMachine)
    : FiniteStateMachine :=
  {| m_state := m_state this; valid_action_ := true |}.

(** A row of the table for one event type. *)
Record row (Event : Type) := {
  start_value : FSMState;
  target_value : FSMState;
  action : Event -> FiniteStateMachine -> FiniteStateMachine;
  check_guard : Event -> bool;
}.
Arguments start_value {_} _.
Arguments target_value {_} _.
Arguments action {_} _ _ _.
Arguments check_guard {_} _ _.

Inductive table_row :=
| SignalRow (r : row Signal)
| TimeoutRow (r : row Timeout)
| ReceiveRow (r : row ReceiveMessage)
| SendRow (r : row SendMessage).

(** The event types of the machine: [by_event_type] keeps the rows of one type in order. *)
Class FsmEvent (Event : Type) := {
  of_row : row Event -> table_row;
  to_row : table_row -> option (row Event);
}.
#[export] Instance Signal_event : FsmEvent Signal :=
  {| of_row := SignalRow; to_row r := match r with SignalRow r => Some r | _ => None end |}.
#[export] Instance Timeout_event : FsmEvent Timeout :=
  {| of_row := TimeoutRow; to_row r := match r with TimeoutRow r => Some r | _ => None end |}.
#[export] Instance ReceiveMessage_event : FsmEvent ReceiveMessage :=
  {| of_row := ReceiveRow; to_row r := match r with ReceiveRow r => Some r | _ => None end |}.
#[export] Instance SendMessage_event : FsmEvent SendMessage :=
  {| of_row := SendRow; to_row r := match r with SendRow r => Some r | _ => None end |}.

Definition mem_fn_row (start : FSMState) (Event : Type) `{FsmEvent Event} (target : FSMState)
    (act : Event -> FiniteStateMachine -> FiniteStateMachine) (guard : Event -> bool) : table_row :=
  of_row {| start_value := start; target_value := target; action := act; check_guard := guard |}.

(** Start state, event type, target state, action, guard. *)
Definition transition_table : list table_row := [
  (* workflow transitions *)
  mem_fn_row kIdle Signal kWaitForBootstrapResponse validAction
    joinNetworkSignalUsingBootstrap;
  mem_fn_row kIdle Signal kWaitForJoinAccept validAction
    joinNetworkSignalUsingAddress;
  mem_fn_row kJoinFailed Signal kWaitForJoinAccept validAction
    joinNetworkSignalUsingAddress;
  mem_fn_row kWaitForBootstrapResponse Timeout kErrorState validAction
    bootstrapResponseTimeoutInvalid;
  mem_fn_row kWaitForBootstrapResponse Timeout kWaitForJoinAccept validAction
    bootstrapResponseTimeoutValid;
  mem_fn_row kWaitForJoinAccept Timeout kJoinFailed validAction
    joinResponseTimeout;
  mem_fn_row kWaitForJoinAccept ReceiveMessage kConnected validAction
    recvJoinAcceptMessage;
  mem_fn_row kConnected SendMessage kConnectedAcceptingChild validAction
    sendJoinAcceptMessage;
  mem_fn_row kConnectedAcceptingChild ReceiveMessage kConnected validAction
    recvJoinAcceptAckMessage;
  mem_fn_row kConnectedAcceptingChild Timeout kConnected validAction
    joinAcceptAckResponseTimeout;
  mem_fn_row kConnected SendMessage kConnectedWaitingParentResponse validAction
    sendParentResponseMessage;
  mem_fn_row kConnectedWaitingParentResponse SendMessage kConnectedWaitingParentResponse validAction
    sendReplacementOfferNackMessage;
  mem_fn_row kConnectedWaitingParentResponse ReceiveMessage kSignOffFromInlevelNeighbors validAction
    recvParentResponseAck;
  mem_fn_row kConnectedWaitingParentResponseDirectLeaveWoReplacement ReceiveMessage kSignOffFromInlevelNeighborsDirectLeaveWoReplacement validAction
    recvParentResponseAck;
  mem_fn_row kSignOffFromInlevelNeighbors SendMessage kConnectedReplacing validAction
    sendReplacementOfferMessage;
  mem_fn_row kSignOffFromInlevelNeighbors SendMessage kSignOffFromInlevelNeighbors validAction
    sendRemoveNeighborMessage;
  mem_fn_row kSignOffFromInlevelNeighbors SendMessage kSignOffFromInlevelNeighbors validAction
    sendUpdateNeighborsMessage;
  mem_fn_row kSignOffFromInlevelNeighbors SendMessage kSignOffFromInlevelNeighbors validAction
    sendRemoveAndUpdateNeighbor;
  mem_fn_row kSignOffFromInlevelNeighborsDirectLeaveWoReplacement SendMessage kSignOffFromInlevelNeighborsDirectLeaveWoReplacement validAction
    sendRemoveNeighborMessage;
  mem_fn_row kSignOffFromInlevelNeighborsDirectLeaveWoReplacement SendMessage kSignOffFromInlevelNeighborsDirectLeaveWoReplacement validAction
    sendUpdateNeighborsMessage;
  mem_fn_row kSignOffFromInlevelNeighborsDirectLeaveWoReplacement SendMessage kSignOffFromInlevelNeighborsDirectLeaveWoReplacement validAction
    sendRemoveAndUpdateNeighbor;
  mem_fn_row kConnectedReplacing ReceiveMessage kConnected validAction
    recvReplacementAckMessage;
  mem_fn_row kConnectedReplacing Timeout kConnected validAction
    replacementAckResponseTimeout;
  mem_fn_row kConnected Signal kConnectedWaitingParentResponseDirectLeaveWoReplacement validAction
    leaveNetworkSignalCanLeavePosition;
  mem_fn_row kConnected Signal kWaitForReplacementOffer validAction
    leaveNetworkSignalCannotLeavePosition;
  mem_fn_row kWaitForReplacementOffer Timeout kConnected validAction
    replacementOfferResponseTimeout;
  mem_fn_row kWaitForReplacementOffer ReceiveMessage kIdle validAction
    recvReplacementOfferMessage;
  mem_fn_row kConnected SendMessage kConnected validAction
    sendJoinAcceptAckMessage;
  (* transitions needed for the workflow *)
  mem_fn_row kWaitForJoinAccept SendMessage kWaitForJoinAccept validAction
    sendJoinMessage;
  mem_fn_row kWaitForBootstrapResponse SendMessage kWaitForBootstrapResponse validAction
    sendBootstrapDiscoverMessage;
  mem_fn_row kWaitForBootstrapResponse ReceiveMessage kWaitForBootstrapResponse validAction
    recvBootstrapResponseMessage;
  mem_fn_row kIdle SendMessage kIdle validAction
    sendLeaveRelatedMsgInIdleState;
  (* non-critical connected recv transitions *)
  mem_fn_row kConnected ReceiveMessage kConnected validAction
    recvNonCriticalMsgInConnectedState;
  mem_fn_row kConnectedAcceptingChild ReceiveMessage kConnectedAcceptingChild validAction
    recvNonCriticalMsgInConnectedState;
  mem_fn_row kConnectedReplacing ReceiveMessage kConnectedReplacing validAction
    recvNonCriticalMsgInConnectedState;
  mem_fn_row kWaitForReplacementOffer ReceiveMessage kConnectedWaitingParentResponseDirectLeaveWoReplacement validAction
    recvFindReplacementAtNodeToReplace;
  mem_fn_row kWaitForReplacementOffer ReceiveMessage kWaitForReplacementOffer validAction
    recvNonCriticalMsgInConnectedState;
  mem_fn_row kConnectedWaitingParentResponse ReceiveMessage kConnectedWaitingParentResponse validAction
    recvNonCriticalMsgInConnectedState;
  mem_fn_row kSignOffFromInlevelNeighbors ReceiveMessage kSignOffFromInlevelNeighbors validAction
    recvNonCriticalMsgInConnectedState;
  mem_fn_row kConnectedWaitingParentResponseDirectLeaveWoReplacement ReceiveMessage kConnectedWaitingParentResponseDirectLeaveWoReplacement validAction
    recvNonCriticalMsgInConnectedState;
  mem_fn_row kSignOffFromInlevelNeighborsDirectLeaveWoReplacement ReceiveMessage kSignOffFromInlevelNeighborsDirectLeaveWoReplacement validAction
    recvNonCriticalMsgInConnectedState;
  mem_fn_row kWaitForReplacementOffer ReceiveMessage kConnected validAction
    recvFindReplacementNack;
  (* non-critical connected send transitions *)
  mem_fn_row kConnected SendMessage kConnected validAction
    sendNonCriticalMsgInConnectedState;
  mem_fn_row kConnectedAcceptingChild SendMessage kConnectedAcceptingChild validAction
    sendNonCriticalMsgInConnectedState;
  mem_fn_row kConnectedReplacing SendMessage kConnectedReplacing validAction
    sendNonCriticalMsgInConnectedState;
  mem_fn_row kWaitForReplacementOffer SendMessage kWaitForReplacementOffer validAction
    sendNonCriticalMsgInConnectedState;
  (* TODO: ONLY FOR FORWARDING. NOT INITIATE-SELF-DEPARTURE *)
  mem_fn_row kConnectedWaitingParentResponse SendMessage kConnectedWaitingParentResponse validAction
    sendNonCriticalMsgInConnectedState;
  mem_fn_row kSignOffFromInlevelNeighbors SendMessage kSignOffFromInlevelNeighbors validAction
    sendNonCriticalMsgInConnectedState;
  mem_fn_row kConnectedWaitingParentResponseDirectLeaveWoReplacement SendMessage kConnectedWaitingParentResponseDirectLeaveWoReplacement validAction
    sendNonCriticalMsgInConnectedState;
  mem_fn_row kSignOffFromInlevelNeighborsDirectLeaveWoReplacement SendMessage kSignOffFromInlevelNeighborsDirectLeaveWoReplacement validAction
    sendNonCriticalMsgInConnectedState;
  (* non-critical connected timeout transitions *)
  mem_fn_row kConnected Timeout kConnected validAction
    timeoutNonCriticalMsgInConnectedState;
  mem_fn_row kConnectedAcceptingChild Timeout kConnectedAcceptingChild validAction
    timeoutNonCriticalMsgInConnectedState;
  mem_fn_row kConnectedReplacing Timeout kConnectedReplacing validAction
    timeoutNonCriticalMsgInConnectedState;
  mem_fn_row kWaitForReplacementOffer Timeout kWaitForReplacementOffer validAction
    timeoutNonCriticalMsgInConnectedState;
  (* bootstrap discover must be allowed to be received in any state *)
  (* but only answered in connected *)
  mem_fn_row kConnected SendMessage kConnected validAction
    sendBootstrapResponseMessage;
  mem_fn_row kIdle ReceiveMessage kIdle validAction
    recvBootstrapDiscoverMessage;
  mem_fn_row kIdle ReceiveMessage kIdle validAction
    recvFindReplacement;
  mem_fn_row kWaitForBootstrapResponse ReceiveMessage kWaitForBootstrapResponse validAction
    recvBootstrapDiscoverMessage;
  mem_fn_row kWaitForJoinAccept ReceiveMessage kWaitForJoinAccept validAction
    recvBootstrapDiscoverMessage;
  mem_fn_row kConnected ReceiveMessage kConnected validAction
    recvBootstrapDiscoverMessage;
  mem_fn_row kConnectedAcceptingChild ReceiveMessage kConnectedAcceptingChild validAction
    recvBootstrapDiscoverMessage;
  mem_fn_row kConnectedReplacing ReceiveMessage kConnectedReplacing validAction
    recvBootstrapDiscoverMessage;
  mem_fn_row kWaitForReplacementOffer ReceiveMessage kWaitForReplacementOffer validAction
    recvBootstrapDiscoverMessage;
  mem_fn_row kErrorState ReceiveMessage kErrorState validAction
    recvBootstrapDiscoverMessage;
  (* multicast is unreliable, therefore we could also receive *)
  (* unwanted bootstrap response messages in any state *)
  mem_fn_row kIdle ReceiveMessage kIdle validAction
    recvBootstrapResponseMessage;
  mem_fn_row kWaitForBootstrapResponse ReceiveMessage kWaitForBootstrapResponse validAction
    recvBootstrapResponseMessage;
  mem_fn_row kWaitForJoinAccept ReceiveMessage kWaitForJoinAccept validAction
    recvBootstrapResponseMessage;
  mem_fn_row kConnected ReceiveMessage kConnected validAction
    recvBootstrapResponseMessage;
  mem_fn_row kConnectedAcceptingChild ReceiveMessage kConnectedAcceptingChild validAction
    recvBootstrapResponseMessage;
  mem_fn_row kConnectedReplacing ReceiveMessage kConnectedReplacing validAction
    recvBootstrapResponseMessage;
  mem_fn_row kWaitForReplacementOffer ReceiveMessage kWaitForReplacementOffer validAction
    recvBootstrapResponseMessage;
  mem_fn_row kErrorState ReceiveMessage kErrorState validAction
    recvBootstrapResponseMessage
].

(** ** fsmlite: the first row whose start state and guard fit fires *)

Section Fsmlite.
Context {Event : Type} `{FsmEvent Event}.

Definition by_event_type (table : list table_row) : list (row Event) := omap to_row table.

Definition no_transition (self : FiniteStateMachine) : FSMState := m_state self.

Fixpoint handle_event (rows : list (row Event)) (event : Event) (state : FSMState)
    (self : FiniteStateMachine) : FiniteStateMachine * FSMState :=
  match rows with
  | [] => (self, no_transition self)
  | r :: rows' =>
      if bool_decide (state = start_value r) && check_guard r event
      then (action r event self, target_value r)
      else handle_event rows' event state self
  end.

(** [process_event] over a given table; the machine's own is [transition_table]. *)
Definition process_event_with (table : list table_row) (event : Event) (self : FiniteStateMachine)
    : FiniteStateMachine :=
  let '(self', target) := handle_event (by_event_type table) event (m_state self) self in
  {| m_state := target; valid_action_ := valid_action_ self' |}.

Definition process_event : Event -> FiniteStateMachine -> FiniteStateMachine :=
  process_event_with transition_table.

End Fsmlite.

Definition isActionValid : M FiniteStateMachine bool := fun this =>
  if valid_action_ this then (Ok true, {| m_state := m_state this; valid_action_ := false |})
  else (Ok false, this).

(** ** Exceptions

    The message of an [FSMException]: state, event and, when there is one, a message. *)

Definition fsm_error_message (previous_state : FSMState) (event_text message : string) : string :=
  let state_text := ("Previous FSMState: " ++ getStateString previous_state)%string in
  let message_text :=
    if bool_decide (message = ""%string) then ""%string else ("Message: " ++ message)%string in
  (state_text ++ " - " ++ event_text ++ " - " ++ message_text)%string.

Definition FSMException_SendMessage (previous_state : FSMState) (event : SendMessage)
    (message : string) : exn :=
  FSMException (fsm_error_message previous_state
    (" Event: SendMessage " ++ getMessageTypeString (send_msg_type event)) message).

Definition FSMException_ReceiveMessage (previous_state : FSMState) (event : ReceiveMessage)
    (message : string) : exn :=
  FSMException (fsm_error_message previous_state
    (" Event: ReceiveMessage " ++ getMessageTypeString (recv_msg_type event)) message).

Definition FSMException_Signal (previous_state : FSMState) (event : Signal) (message : string) : exn :=
  let event_text :=
    match signal_type event with
    | kJoinNetwork =>
        if join_via_bootstrap event then "Join via Bootstrap"
        else "Join via Address to " ++ String.string_of_list_ascii (join_address event) ++ ":" ++
             String.string_of_list_ascii (to_string (join_port event))
    | kLeaveNetwork =>
        if can_leave_position event then "Leave - can leave Position without Replacement"
        else "Leave - needs to be replaced"
    | kCleanupSignal => ""
    end%string in
  FSMException (fsm_error_message previous_state (" Event: Signal " ++ event_text) message).

Definition FSMException_Timeout (previous_state : FSMState) (event : Timeout) (message : string) : exn :=
  let event_text :=
    match timeout_type event with
    | kBootstrapResponseTimeout =>
        "Bootstrap Response " ++ (if valid_bootstrap_response event then "valid" else "invalid")
    | kJoinAcceptAckResponseTimeout => "Join Accept Ack Response"
    | kJoinAcceptResponseTimeout => "Join Accept Response"
    | kReplacementAckResponseTimeout => "Replacement Ack Response"
    | kReplacementOfferResponseTimeout => "Replacement Offer Response"
    | _ => ""
    end%string in
  FSMException (fsm_error_message previous_state (" Event: Timeout " ++ event_text) message).

(** ** Rows that fit *)

Inductive event :=
| OnSignal (e : Signal)
| OnTimeout (e : Timeout)
| OnReceive (e : ReceiveMessage)
| OnSend (e : SendMessage).

Definition process_with (table : list table_row) (e : event) : FiniteStateMachine -> FiniteStateMachine :=
  match e with
  | OnSignal e => process_event_with table e
  | OnTimeout e => process_event_with table e
  | OnReceive e => process_event_with table e
  | OnSend e => process_event_with table e
  end.
Definition process : event -> FiniteStateMachine -> FiniteStateMachine := process_with transition_table.

(** The target of a row, when it fits the state and the event. *)
Definition row_target {Event} (state : FSMState) (e : Event) (r : row Event) : option FSMState :=
  if bool_decide (state = start_value r) && check_guard r e then Some (target_value r) else None.

Definition fits (state : FSMState) (e : event) (r : table_row) : option FSMState :=
  match e, r with
  | OnSignal e, SignalRow r => row_target state e r
  | OnTimeout e, TimeoutRow r => row_target state e r
  | OnReceive e, ReceiveRow r => row_target state e r
  | OnSend e, SendRow r => row_target state e r
  | _, _ => None
  end.

Definition targets (table : list table_row) (state : FSMState) (e : event) : list FSMState :=
  omap (fits state e) table.

Opaque transition_table.

Definition next (state : FSMState) (e : event) : option FSMState :=
  head (targets transition_table state e).

Lemma next_head state e : head (targets transition_table state e) = next state e.
Proof. unfold next. reflexivity. Qed.

(** Every action of the table is [validAction]. *)
Definition sets_flag (r : table_row) : Prop :=
  match r with
  | SignalRow r => action r = validAction
  | TimeoutRow r => action r = validAction
  | ReceiveRow r => action r = validAction
  | SendRow r => action r = validAction
  end.

Lemma transition_table_actions : Forall sets_flag transition_table.
Proof. with_strategy transparent [transition_table] (repeat constructor). Qed.

Section Handle.
Context {Event : Type} `{FsmEvent Event}.

Lemma handle_event_head (rows : list (row Event)) e self :
  Forall (fun r => action r = validAction) rows ->
  handle_event rows e (m_state self) self =
  match head (omap (row_target (m_state self) e) rows) with
  | Some t => (validAction e self, t)
  | None => (self, m_state self)
  end.
Proof.
  induction 1 as [|r rows Hr _ IH]; [done|]. cbn [handle_event].
  change (omap (row_target (m_state self) e) (r :: rows)) with
    (match row_target (m_state self) e r with
     | Some t => t :: omap (row_target (m_state self) e) rows
     | None => omap (row_target (m_state self) e) rows end).
  unfold row_target at 1. destruct (_ && _); [by rewrite Hr | apply IH].
Qed.

End Handle.

Lemma omap_omap {A B C} (f : A -> option B) (g : B -> option C) (h : A -> option C) (l : list A) :
  (forall a, f a ≫= g = h a) -> omap g (omap f l) = omap h l.
Proof.
  intros Hfg. induction l as [|a l IH]; [done|]. cbn. rewrite <- Hfg.
  destruct (f a); cbn; [|done]. destruct (g b); cbn; by rewrite IH.
Qed.

Lemma rows_set_flag {Event} `{FsmEvent Event} table :
  (forall r r', to_row r = Some r' -> sets_flag r -> action r' = validAction) ->
  Forall sets_flag table -> Forall (fun r : row Event => action r = validAction) (by_event_type table).
Proof.
  intros Hto Ht. unfold by_event_type. induction Ht as [|r table Hr _ IH]; cbn; [done|].
  destruct (to_row r) eqn:E; [constructor|]; eauto.
Qed.

(** What [process_event] does: the first fitting row fires, or nothing changes. *)
Lemma process_with_head table e self :
  Forall sets_flag table ->
  process_with table e self =
  match head (targets table (m_state self) e) with
  | Some t => {| m_state := t; valid_action_ := true |}
  | None => self
  end.
Proof.
  intros Ht.
  destruct e; cbn [process_with]; unfold process_event_with;
    rewrite handle_event_head by (apply rows_set_flag; [by intros [] ? ?; simplify_eq/=|done]);
    unfold by_event_type;
    match goal with |- context [targets _ _ ?e] => rewrite (omap_omap _ _ (fits (m_state self) e)) by (by intros []) end;
    unfold targets; destruct (head _); [done|by destruct self|done|by destruct self|done|by destruct self|
                        done|by destruct self].
Qed.

Lemma process_next e self :
  process e self =
  match next (m_state self) e with
  | Some t => {| m_state := t; valid_action_ := true |}
  | None => self
  end.
Proof. apply process_with_head, transition_table_actions. Qed.

Lemma process_signal (e : Signal) : process_event e = process (OnSignal e).
Proof. reflexivity. Qed.
Lemma process_timeout (e : Timeout) : process_event e = process (OnTimeout e).
Proof. reflexivity. Qed.
Lemma process_receive (e : ReceiveMessage) : process_event e = process (OnReceive e).
Proof. reflexivity. Qed.
Lemma process_send (e : SendMessage) : process_event e = process (OnSend e).
Proof. reflexivity. Qed.

(** The states of the machine as it consumes a sequence of events. *)
Definition run (state : FSMState) (es : list event) : FSMState :=
  m_state (foldl (fun self e => process e self) (makeFSM state) es).

Definition step (state : FSMState) (e : event) : FSMState := default state (next state e).

Lemma run_foldl state es : run state es = foldl step state es.
Proof.
  unfold run. change state with (m_state (makeFSM state)) at 2. generalize (makeFSM state).
  induction es as [|e es IH]; intros self; [done|]. cbn [foldl]. rewrite IH. f_equal.
  rewrite process_next. unfold step. by destruct (next _ e).
Qed.

Lemma run_app state es1 es2 : run state (es1 ++ es2) = run (run state es1) es2.
Proof. rewrite !run_foldl. apply foldl_app. Qed.

(** ** The acknowledgement flag *)

Lemma omap_head {A B} (f : A -> option B) (l : list A) t :
  head (omap f l) = Some t <->
  exists pre a post, l = pre ++ a :: post /\ Forall (fun a' => f a' = None) pre /\ f a = Some t.
Proof.
  induction l as [|x l IH]; cbn.
  { split; [done|]. intros ([|] & ? & ? & ? & _); done. }
  destruct (f x) eqn:E; cbn; [|rewrite IH]; split.
  - intros [= ->]. by exists [], x, l.
  - intros ([|y pre] & a & post & [= -> Hl] & Hpre & Ha); [congruence|]. inversion Hpre. congruence.
  - intros (pre & a & post & -> & Hpre & Ha). exists (x :: pre), a, post. auto.
  - intros ([|y pre] & a & post & [= -> Hl] & Hpre & Ha); [congruence|].
    inversion Hpre. subst. by exists pre, a, post.
Qed.

Lemma omap_head_None {A B} (f : A -> option B) (l : list A) :
  head (omap f l) = None <-> ~ Exists (fun a => is_Some (f a)) l.
Proof.
  induction l as [|x l IH]; cbn; [by rewrite Exists_nil; intuition|].
  rewrite Exists_cons. destruct (f x) eqn:E; cbn; [naive_solver|].
  rewrite IH. by rewrite is_Some_alt; naive_solver.
Qed.

Lemma exists_fits table state e :
  bool_decide (Exists (fun r => is_Some (fits state e r)) table) =
  bool_decide (is_Some (head (targets table state e))).
Proof.
  apply bool_decide_ext. rewrite <- not_eq_None_Some. unfold targets. rewrite omap_head_None.
  split; [auto|apply dec_stable].
Qed.

(** [process_event] followed by [isActionValid] decides the event: it answers [true]
    exactly when some row of the transition table fits the state and the event, the state
    then is the target of the first such row and otherwise is unchanged, and the flag is
    cleared for the next event. *)
Theorem fsm_decides_event e self :
  valid_action_ self = false ->
  isActionValid (process e self) =
    (Ok (bool_decide (Exists (fun r => is_Some (fits (m_state self) e r)) transition_table)),
     makeFSM (step (m_state self) e)) /\
  (forall t, next (m_state self) e = Some t <->
     exists pre r post, transition_table = pre ++ r :: post /\
       Forall (fun r' => fits (m_state self) e r' = None) pre /\ fits (m_state self) e r = Some t).
Proof.
  intros Hflag. split; [|intros t; apply omap_head].
  rewrite process_next, exists_fits, next_head. unfold isActionValid, step.
  destruct (next (m_state self) e) as [t|]; cbn; [done|]. rewrite Hflag.
  destruct self; cbn in *; by subst.
Qed.

Lemma fsm_decides_event_witness :
  isActionValid (process (OnReceive {| recv_msg_type := kJoinAccept; does_not_need_replacement := false |})
                   (makeFSM kWaitForJoinAccept)) = (Ok true, makeFSM kConnected).
Proof.
  destruct (fsm_decides_event
    (OnReceive {| recv_msg_type := kJoinAccept; does_not_need_replacement := false |})
    (makeFSM kWaitForJoinAccept) eq_refl) as [-> _].
  vm_compute. reflexivity.
Defined.

(** ** Deciding facts about every state and event

    The guards read the types and flags of an event, nothing else. *)

Ltac each_event e :=
  destruct e as [[[] [] [] ? ? ?]|[[] []]|[[] []]|[[]]].
Ltac by_table := vm_compute; first [reflexivity | discriminate | intuition congruence].

(** ** The order of the rows *)

(** Two rows with different targets fit only here. *)
Definition ambiguous (state : FSMState) (e : event) : bool :=
  match state, e with
  | kConnected, OnSend e => bool_decide (send_msg_type e = kSignOffParentRequest)
  | kWaitForReplacementOffer, OnReceive e =>
      bool_decide (recv_msg_type e = kFindReplacement) && does_not_need_replacement e
  | _, _ => false
  end.

Lemma ambiguous_cases state e :
  ambiguous state e = true ->
  (state = kConnected /\ e = OnSend {| send_msg_type := kSignOffParentRequest |}) \/
  (state = kWaitForReplacementOffer /\
   e = OnReceive {| recv_msg_type := kFindReplacement; does_not_need_replacement := true |}).
Proof. destruct state; each_event e; by_table. Qed.

Definition uniform (ts : list FSMState) : bool :=
  match ts with [] => true | t :: ts' => forallb (fun t' => bool_decide (t' = t)) ts' end.

Lemma targets_uniform state e :
  uniform (targets transition_table state e) = negb (ambiguous state e).
Proof. destruct state; each_event e; by_table. Qed.

Lemma omap_perm {A B} (f : A -> option B) (l1 l2 : list A) : l1 ≡ₚ l2 -> omap f l1 ≡ₚ omap f l2.
Proof.
  induction 1; cbn; repeat case_match; eauto using perm_swap, perm_trans.
Qed.

Lemma uniform_perm_head ts ts' : uniform ts = true -> ts' ≡ₚ ts -> head ts' = head ts.
Proof.
  destruct ts as [|t ts]; intros Hu Hp; [by apply Permutation_nil_r in Hp; subst|].
  destruct ts' as [|t' ts']; [by apply Permutation_nil_cons in Hp|]. cbn. f_equal.
  assert (Hin : t' ∈ t :: ts) by (rewrite <- Hp; left).
  cbn in Hu. rewrite forallb_forall in Hu.
  apply elem_of_cons in Hin as [->|Hin]; [done|].
  specialize (Hu t'). apply list_elem_of_In in Hin. apply Hu in Hin. by apply bool_decide_eq_true in Hin.
Qed.

(** The order of the 72 rows of the transition table matters for two events only, the
    sending of SIGN_OFF_PARENT_REQUEST when connected and the FIND_REPLACEMENT that reaches
    the leaving node itself. On every other state and event, and on no other, any
    permutation of the table gives the same machine; on those two, the first row starts
    the departure. *)
Theorem fsm_row_order state e :
  ((forall table, table ≡ₚ transition_table ->
      process_with table e (makeFSM state) = process e (makeFSM state)) <->
   ambiguous state e = false) /\
  (ambiguous state e = true ->
   next state e = Some (if bool_decide (state = kConnected) then kConnectedWaitingParentResponse
                        else kConnectedWaitingParentResponseDirectLeaveWoReplacement)).
Proof.
  split; [split|].
  - intros Hall. specialize (Hall (reverse transition_table) (reverse_Permutation _)).
    destruct (ambiguous state e) eqn:Ha; [|reflexivity].
    apply ambiguous_cases in Ha as [[-> ->]|[-> ->]]; vm_compute in Hall; discriminate Hall.
  - intros Ha table Hp.
    assert (Hflags : Forall sets_flag table) by (rewrite Hp; apply transition_table_actions).
    rewrite process_with_head, process_next by done. cbn [m_state makeFSM].
    rewrite <- next_head, (uniform_perm_head (targets transition_table state e) (targets table state e));
      [done | by rewrite targets_uniform, Ha | by apply omap_perm].
  - intros [[-> ->]|[-> ->]]%ambiguous_cases; vm_compute; reflexivity.
Qed.

Lemma fsm_row_order_witness :
  ambiguous kConnected (OnSend {| send_msg_type := kSignOffParentRequest |}) = true /\
  next kConnected (OnSend {| send_msg_type := kSignOffParentRequest |}) =
    Some kConnectedWaitingParentResponse.
Proof.
  split; [reflexivity|].
  apply (fsm_row_order kConnected (OnSend {| send_msg_type := kSignOffParentRequest |})). reflexivity.
Defined.

(** ** Members of the network *)

(** The states of a node that has a position in the tree. *)
Definition member (state : FSMState) : bool :=
  match state with
  | kIdle | kWaitForBootstrapResponse | kWaitForJoinAccept | kErrorState | kJoinFailed => false
  | _ => true
  end.

Definition receives (type : MessageType) (e : event) : bool :=
  match e with OnReceive e => bool_decide (recv_msg_type e = type) | _ => false end.

(** One event that changes the membership. *)
Lemma step_member state e :
  (member state = false -> member (step state e) = true ->
   state = kWaitForJoinAccept /\ receives kJoinAccept e = true /\ step state e = kConnected) /\
  (member state = true -> member (step state e) = false ->
   state = kWaitForReplacementOffer /\ receives kReplacementOffer e = true /\ step state e = kIdle).
Proof. destruct state; each_event e; by_table. Qed.

(** A run across a boundary crosses it at one of its events. *)
Lemma run_crosses (p : FSMState -> bool) state es :
  p state = false -> p (run state es) = true ->
  exists es1 e es2, es = es1 ++ e :: es2 /\
    p (run state es1) = false /\ p (step (run state es1) e) = true.
Proof.
  induction es as [|e es IH] using rev_ind; intros H0 H1.
  { unfold run in H1. cbn in H1. congruence. }
  destruct (p (run state es)) eqn:E.
  - destruct IH as (es1 & e' & es2 & -> & ?); [done..|].
    exists es1, e', (es2 ++ [e]). by rewrite <- app_assoc.
  - exists es, e, []. split_and!; [done..|].
    rewrite run_app, (run_foldl _ [e]) in H1. done.
Qed.

(** A node becomes a member of the network only by receiving JOIN_ACCEPT while it waits
    for it, and a member ceases to be one, by events of the machine, only by receiving
    REPLACEMENT_OFFER while it waits for that: every run of events between the two kinds of
    states contains such an event. *)
Theorem fsm_membership state es :
  (member state = false -> member (run state es) = true ->
   exists es1 e es2, es = es1 ++ e :: es2 /\ run state es1 = kWaitForJoinAccept /\
     receives kJoinAccept e = true /\ run state (es1 ++ [e]) = kConnected) /\
  (member state = true -> member (run state es) = false ->
   exists es1 e es2, es = es1 ++ e :: es2 /\ run state es1 = kWaitForReplacementOffer /\
     receives kReplacementOffer e = true /\ run state (es1 ++ [e]) = kIdle).
Proof.
  split; intros H0 H1.
  - destruct (run_crosses member state es H0 H1) as (es1 & e & es2 & -> & Hb & Ha).
    destruct (proj1 (step_member _ _) Hb Ha) as (? & ? & Hs). exists es1, e, es2.
    by rewrite run_app, (run_foldl _ [e]).
  - destruct (run_crosses (fun s => negb (member s)) state es) as (es1 & e & es2 & -> & Hb & Ha);
      [by rewrite H0|by rewrite H1|].
    apply negb_false_iff in Hb. apply negb_true_iff in Ha.
    destruct (proj2 (step_member _ _) Hb Ha) as (? & ? & Hs). exists es1, e, es2.
    by rewrite run_app, (run_foldl _ [e]).
Qed.

Definition ev_recv (type : MessageType) : event :=
  OnReceive {| recv_msg_type := type; does_not_need_replacement := false |}.
Definition ev_send (type : MessageType) : event := OnSend {| send_msg_type := type |}.
Definition ev_timeout (type : TimeoutType) : event :=
  OnTimeout {| timeout_type := type; valid_bootstrap_response := true |}.

Lemma fsm_membership_witness :
  let es := [OnSignal (joinNetworkViaAddress [] 2000); ev_send kJoin; ev_recv kJoinAccept; ev_send kGetNeighbors] in
  member kIdle = false /\ member (run kIdle es) = true /\
  exists es1 e es2, es = es1 ++ e :: es2 /\ run kIdle es1 = kWaitForJoinAccept /\
    receives kJoinAccept e = true /\ run kIdle (es1 ++ [e]) = kConnected.
Proof.
  split_and!; [done|vm_compute; reflexivity|].
  apply (fsm_membership kIdle _); vm_compute; reflexivity.
Defined.

(** ** Where a node can get stuck *)

Definition trapped (state : FSMState) : bool :=
  match state with
  | kErrorState | kSignOffFromInlevelNeighborsDirectLeaveWoReplacement => true
  | _ => false
  end.

Lemma step_trapped state e : trapped state = true -> step state e = state.
Proof. destruct state; try done; each_event e; by_table. Qed.

Lemma run_trapped state es : trapped state = true -> run state es = state.
Proof.
  intros Ht. rewrite run_foldl. induction es as [|e es IH]; cbn; [done|].
  by rewrite (step_trapped state).
Qed.

(** Events that bring a node back to [kConnected]. *)
Definition way_home (state : FSMState) : list event :=
  match state with
  | kIdle | kJoinFailed => [OnSignal (joinNetworkViaAddress [] 0); ev_recv kJoinAccept]
  | kWaitForBootstrapResponse => [ev_timeout kBootstrapResponseTimeout; ev_recv kJoinAccept]
  | kWaitForJoinAccept => [ev_recv kJoinAccept]
  | kConnectedAcceptingChild => [ev_timeout kJoinAcceptAckResponseTimeout]
  | kConnectedReplacing => [ev_timeout kReplacementAckResponseTimeout]
  | kWaitForReplacementOffer => [ev_timeout kReplacementOfferResponseTimeout]
  | kConnectedWaitingParentResponse =>
      [ev_recv kSignOffParentAnswer; ev_send kReplacementOffer; ev_recv kReplacementAck]
  | kSignOffFromInlevelNeighbors => [ev_send kReplacementOffer; ev_recv kReplacementAck]
  | _ => []
  end.

(** The states from which the direct departure is the only way on. *)
Definition leaving_for_good (state : FSMState) : bool :=
  match state with kConnectedWaitingParentResponseDirectLeaveWoReplacement => true | _ => trapped state end.

Lemma step_leaving state e : leaving_for_good state = true -> leaving_for_good (step state e) = true.
Proof. destruct state; try done; each_event e; by_table. Qed.

(** By events of the machine alone, [kConnected] can be reached from every state but
    three: the error state and the two states of a departure without replacement, which
    the machine never leaves (the leave algorithm replaces the machine instead). The error
    state and the sign-off of a direct departure are left by no event at all. *)
Theorem fsm_reaches_connected state :
  ((exists es, run state es = kConnected) <-> leaving_for_good state = false) /\
  (trapped state = true -> forall es, run state es = state).
Proof.
  split; [split|].
  - intros [es Hes]. apply not_true_is_false. intros Hl.
    assert (Hrun : leaving_for_good (run state es) = true).
    { rewrite run_foldl. clear Hes. revert state Hl.
      induction es as [|e es IH]; intros state Hl; cbn; [done|]. by apply IH, step_leaving. }
    by rewrite Hes in Hrun.
  - intros Hl. exists (way_home state). destruct state; try done; vm_compute; reflexivity.
  - intros Ht es. by apply run_trapped.
Qed.

Lemma fsm_reaches_connected_witness :
  (exists es, run kConnectedWaitingParentResponse es = kConnected) /\
  trapped kErrorState = true /\ run kErrorState [ev_recv kJoinAccept] = kErrorState.
Proof.
  split_and!; [|reflexivity|].
  - apply (fsm_reaches_connected kConnectedWaitingParentResponse). reflexivity.
  - apply (fsm_reaches_connected kErrorState). reflexivity.
Defined.

(** ** Bootstrap messages *)

(** The comments of the table want BOOTSTRAP_DISCOVER and unwanted BOOTSTRAP_RESPONSE
    messages to be received in any state. BOOTSTRAP_DISCOVER is refused in [kJoinFailed];
    BOOTSTRAP_RESPONSE is refused there and in the four states of a departure that waits
    for or follows the answer of the parent. In all other states both leave the state
    unchanged. *)
Theorem fsm_bootstrap_messages state :
  next state (ev_recv kBootstrapDiscover) =
    (if bool_decide (state = kJoinFailed) then None else Some state) /\
  next state (ev_recv kBootstrapResponse) =
    (if bool_decide (state ∈ [kJoinFailed; kConnectedWaitingParentResponse; kSignOffFromInlevelNeighbors;
                              kConnectedWaitingParentResponseDirectLeaveWoReplacement;
                              kSignOffFromInlevelNeighborsDirectLeaveWoReplacement])
     then None else Some state).
Proof. destruct state; vm_compute; auto. Qed.
