(* ===== verification/MinhtonNode.v ===== *)
(** * The MINHTON node

    Model of [minhton/src/core/node.cpp], of the dispatch in [logic_container.cpp] and of the
    job queue of [watchdog.cpp]: what a node does with a signal, a message to send, a message
    received and an expired timeout before and after its algorithms see it. The algorithms
    themselves are an interface ([Logic]); the state they keep is a type of their own. The
    socket and the serializer behind [network_facade_] are modelled by the sequence of
    messages handed to them. Logging is not modelled. *)

From S2P Require Import Prelude RoutingCalculations NodeInfo RoutingInformation Message Fsm.

(** ** Texts *)

(** [solanet::uuidToString] *)
Class UuidText := { uuidToString : UUID -> string }.

Section Texts.
Context `{UuidText} `{Inet}.

Definition of_chars (l : list ascii) : string := String.string_of_list_ascii l.

Definition Logical_getString (l : LogicalNodeInfo) : string :=
  of_chars (to_string (level_ l)) ++ ":" ++ of_chars (to_string (number_ l)) ++ " | m=" ++
  of_chars (to_string (fanout_ l)) ++ " | " ++ uuidToString (uuid_ l).

Definition Physical_getString (p : PhysicalNodeInfo) : string :=
  of_chars (address_ p) ++ ":" ++ of_chars (to_string (port_ p)).

Definition getString (n : NodeInfo) : string :=
  let init := (if Node.isInitialized n then "init" else "uninit")%string in
  "( " ++ Logical_getString (l_node_info_ n) ++ " | " ++ Physical_getString (p_node_info_ n) ++
  " | " ++ init ++ " )".

Definition invalidMessage (header : MinhtonMessageHeader) : exn :=
  InvalidMessageException
    (getMessageTypeString (message_type_ header) ++ " Sender: " ++ getString (sender_ header) ++
     " - Target: " ++ getString (target_ header)).

End Texts.

(** ** The watchdog *)

(** The closures the node hands to the watchdog. *)
Inductive Callback :=
| LeaveUnlessIdle
| LeaveAgain
| TriggerTimeout (type : TimeoutType)
| JoinAgain.

Record Job := {
  job_function : Callback;
  job_milliseconds : Z;
  job_type : TimeoutType;
}.

#[export] Instance Callback_eq_dec : EqDecision Callback.
Proof. solve_decision. Defined.
#[export] Instance Job_eq_dec : EqDecision Job.
Proof. solve_decision. Defined.

(** [WatchDog::Impl]: the pending events; [running_] is never cleared. *)
Definition WatchDog : Type := list Job.

Definition WatchDog_addJob (function : Callback) (milliseconds : Z) (type : TimeoutType)
    (pending : WatchDog) : WatchDog :=
  pending ++ [{| job_function := function; job_milliseconds := u32 milliseconds; job_type := type |}].

Definition WatchDog_cancelJob (type : TimeoutType) (pending : WatchDog) : WatchDog := pending.

(** ** The node *)

Record TimeoutLengthsContainer := {
  bootstrap_response : Z;
  join_response : Z;
  join_accept_ack_response : Z;
  replacement_offer_response : Z;
  replacement_ack_response : Z;
  dsn_aggregation : Z;
  inquiry_aggregation : Z;
}.

Inductive JoinMode := kIp | kNoJoin | kDiscovery.

#[export] Instance JoinMode_eq_dec : EqDecision JoinMode.
Proof. solve_decision. Defined.

Record JoinInfo := {
  join_mode : JoinMode;
  ip : list ascii;
  port : Z;
}.

Inductive Algorithm :=
| JoinAlgorithm | LeaveAlgorithm | SearchExactAlgorithm | ResponseAlgorithm | BootstrapAlgorithm
| EntitySearchAlgorithm.

Section Nodes.
Context `{Payloads} {LogicState : Type}.

(** The members of [MinhtonNode] its functions read or write. [access_] holds functions of the
    node itself; [procedure_info_] belongs to the algorithms and is part of [logic_]. *)
Record MinhtonNode := {
  fsm_ : FiniteStateMachine;
  routing_info_ : RoutingInformation;
  replacing_node_ : NodeInfo;
  timeout_lengths_container_ : TimeoutLengthsContainer;
  watchdog_ : WatchDog;
  sent_ : list MessageVariant;
  logic_ : LogicState;
}.

Definition set_fsm (v : FiniteStateMachine) (s : MinhtonNode) : MinhtonNode :=
  let '(Build_MinhtonNode _ r n t w o l) := s in Build_MinhtonNode v r n t w o l.
Definition set_routing_info (v : RoutingInformation) (s : MinhtonNode) : MinhtonNode :=
  let '(Build_MinhtonNode f _ n t w o l) := s in Build_MinhtonNode f v n t w o l.
Definition set_replacing_node (v : NodeInfo) (s : MinhtonNode) : MinhtonNode :=
  let '(Build_MinhtonNode f r _ t w o l) := s in Build_MinhtonNode f r v t w o l.
Definition set_watchdog (v : WatchDog) (s : MinhtonNode) : MinhtonNode :=
  let '(Build_MinhtonNode f r n t _ o l) := s in Build_MinhtonNode f r n t v o l.
Definition set_sent (v : list MessageVariant) (s : MinhtonNode) : MinhtonNode :=
  let '(Build_MinhtonNode f r n t w _ l) := s in Build_MinhtonNode f r n t w v l.

(** What the node asks of its algorithms. They run on the whole node: they send, set timeouts
    and replace the machine through the functions of the access container. *)
Class Logic := {
  algorithm_process : Algorithm -> MessageVariant -> M MinhtonNode unit;
  leave_initiateSelfDeparture : M MinhtonNode unit;
  leave_canLeaveWithoutReplacement : M MinhtonNode bool;
  bootstrap_initiateJoin : PhysicalNodeInfo -> M MinhtonNode unit;
  bootstrap_processBootstrapResponseTimeout : M MinhtonNode unit;
  bootstrap_isBootstrapResponseValid : MinhtonNode -> bool;
  join_initiateJoin : NodeInfo -> M MinhtonNode unit;
  join_initiateJoinPhysical : PhysicalNodeInfo -> M MinhtonNode unit;
  esearch_processTimeout : TimeoutType -> M MinhtonNode unit;
}.

Section Behaviour.
Context `{Platform} `{Inet} `{UuidText} {logic : Logic}.

(** ** LogicContainer *)

Definition getSupportedMessageTypes (algorithm : Algorithm) : list MessageType :=
  match algorithm with
  | JoinAlgorithm => [kJoin; kJoinAccept; kJoinAcceptAck]
  | LeaveAlgorithm =>
      [kFindReplacement; kReplacementAck; kReplacementNack; kReplacementOffer; kReplacementUpdate;
       kSignOffParentRequest; kSignOffParentAnswer; kLockNeighborRequest; kLockNeighborResponse;
       kUnlockNeighbor]
  | SearchExactAlgorithm => [kSearchExact; kEmpty]
  | ResponseAlgorithm =>
      [kUpdateNeighbors; kGetNeighbors; kRemoveNeighbor; kInformAboutNeighbors;
       kRemoveAndUpdateNeighbor; kRemoveNeighborAck]
  | BootstrapAlgorithm => [kBootstrapDiscover; kBootstrapResponse]
  | EntitySearchAlgorithm =>
      [kAttributeInquiryAnswer; kAttributeInquiryRequest; kFindQueryAnswer; kFindQueryRequest;
       kSubscriptionOrder; kSubscriptionUpdate; kSearchExactFailure]
  end.

(** [associateMessageTypesWithAlgorithm] for each algorithm in turn: a later association
    replaces an earlier one. *)
Definition associateMessageTypesWithAlgorithm (algorithm : Algorithm)
    (map : MessageType -> option Algorithm) : MessageType -> option Algorithm :=
  fun type => if bool_decide (type ∈ getSupportedMessageTypes algorithm) then Some algorithm else map type.

Definition message_type_to_algorithm_map_ : MessageType -> option Algorithm :=
  foldl (fun map algorithm => associateMessageTypesWithAlgorithm algorithm map) (fun _ => None)
    [JoinAlgorithm; LeaveAlgorithm; SearchExactAlgorithm; ResponseAlgorithm; BootstrapAlgorithm;
     EntitySearchAlgorithm].

Definition Logic_process (msg : MessageVariant) : M MinhtonNode unit :=
  match message_type_to_algorithm_map_ (getMessageType msg) with
  | Some algorithm_to_use => algorithm_process algorithm_to_use msg
  | None => throw (out_of_range "unordered_map::at")
  end.

Definition Logic_processSignal (signal : Signal) : M MinhtonNode unit :=
  match signal_type signal with
  | kLeaveNetwork => leave_initiateSelfDeparture
  | kJoinNetwork =>
      if join_via_bootstrap signal then
        p ← lift (Physical.of_address (join_address signal) (join_port signal));
        bootstrap_initiateJoin p
      else if Node.isInitialized (join_nodeinfo signal) then join_initiateJoin (join_nodeinfo signal)
      else
        p ← lift (Physical.of_address (join_address signal) (join_port signal));
        join_initiateJoinPhysical p
  | kCleanupSignal => mret tt
  end.

Definition Logic_processTimeout (timeout_event : Timeout) : M MinhtonNode unit :=
  match timeout_type timeout_event with
  | kBootstrapResponseTimeout =>
      if valid_bootstrap_response timeout_event then bootstrap_processBootstrapResponseTimeout
      else mret tt
  | kDsnAggregationTimeout => esearch_processTimeout kDsnAggregationTimeout
  | kInquiryAggregationTimeout => esearch_processTimeout kInquiryAggregationTimeout
  | _ => mret tt
  end.

(** ** MinhtonNode *)

Definition getFsmState : M MinhtonNode FSMState := gets (fun s => m_state (fsm_ s)).
Definition getNodeInfo (s : MinhtonNode) : NodeInfo := self_node_info_ (routing_info_ s).

Definition fsm_process_event {Event} `{FsmEvent Event} (e : Event) : M MinhtonNode unit :=
  modify (fun s => set_fsm (process_event e (fsm_ s)) s).
Definition fsm_isActionValid : M MinhtonNode bool := zoom fsm_ set_fsm isActionValid.

Definition addJob (function : Callback) (milliseconds : Z) (type : TimeoutType) : M MinhtonNode unit :=
  modify (fun s => set_watchdog (WatchDog_addJob function milliseconds type (watchdog_ s)) s).
Definition cancelJob (type : TimeoutType) : M MinhtonNode unit :=
  modify (fun s => set_watchdog (WatchDog_cancelJob type (watchdog_ s)) s).

Definition processSignal (signal : Signal) : M MinhtonNode unit :=
  (* the body after the part for a leave signal *)
  let fire (signal : Signal) :=
    state ← getFsmState;
    fsm_process_event signal;;
    valid ← fsm_isActionValid;
    if negb valid then mret tt
    else
      state' ← getFsmState;
      throw_if (bool_decide (state' = kErrorState)) (FSMException_Signal state signal "");;
      Logic_processSignal signal in
  match signal_type signal with
  | kLeaveNetwork =>
      addJob LeaveUnlessIdle 1000 kSelfDepartureRetry;;
      state ← getFsmState;
      if bool_decide (state = kConnectedReplacing) then mret tt
      else
        can_leave ← leave_canLeaveWithoutReplacement;
        fire {| signal_type := signal_type signal; can_leave_position := can_leave;
                join_via_bootstrap := join_via_bootstrap signal; join_address := join_address signal;
                join_port := join_port signal; join_nodeinfo := join_nodeinfo signal |}
  | _ => fire signal
  end.

Definition prepareSending (msg : MessageVariant) : M MinhtonNode unit :=
  let header := getHeader msg in
  throw_if (negb (Header.validate header)) (invalidMessage header);;
  state ← getFsmState;
  let fsm_event := {| send_msg_type := message_type_ header |} in
  fsm_process_event fsm_event;;
  valid ← fsm_isActionValid;
  throw_if (negb valid) (FSMException_SendMessage state fsm_event "Invalid Action");;
  state' ← getFsmState;
  throw_if (bool_decide (state' = kErrorState)) (FSMException_SendMessage state fsm_event "").

Definition send (msg : MessageVariant) : M MinhtonNode unit :=
  prepareSending msg;;
  modify (fun s => set_sent (sent_ s ++ [msg]) s).

(** The part of [prepareReceiving] for a node that has left and knows its replacement:
    specific messages are dropped, others forwarded to the node that replaced it. *)
Definition forwardToReplacement (msg : MessageVariant) : M MinhtonNode unit :=
  replacing_node ← gets replacing_node_;
  match getMessageType msg with
  | kFindReplacement | kJoin => mret tt
  | kAttributeInquiryRequest =>
      match msg with
      | MessageAttributeInquiryRequest header inquire_all missing_keys =>
          attribute_request ← lift (makeAttributeInquiryRequest (Header.setTarget replacing_node header)
                                      inquire_all missing_keys);
          send attribute_request
      | _ => throw bad_variant_access
      end
  | kSignOffParentRequest =>
      match msg with
      | MessageSignoffParentRequest header =>
          signoff_parent_request ← lift (makeSignoffParentRequest (Header.setTarget replacing_node header));
          send signoff_parent_request
      | _ => throw bad_variant_access
      end
  | kAttributeInquiryAnswer =>
      match msg with
      | MessageAttributeInquiryAnswer header inquired_node values removed =>
          attribute_answer ← lift (makeAttributeInquiryAnswer (Header.setTarget replacing_node header)
                                     inquired_node values removed);
          send attribute_answer
      | _ => throw bad_variant_access
      end
  | _ => throw (runtime_error "forwarding this message type not handled yet")
  end.

Definition prepareReceiving (msg : MessageVariant) : M MinhtonNode bool :=
  let header := getHeader msg in
  let type := message_type_ header in
  state ← getFsmState;
  self ← gets getNodeInfo;
  own_replacement ←
    (if bool_decide (type = kFindReplacement) then
       match msg with
       | MessageFindReplacement _ node_to_replace search_progress _ =>
           mret (Node.eqb node_to_replace self && bool_decide (search_progress = kReplacementNode))
       | _ => throw bad_variant_access
       end
     else mret false);
  let fsm_event := {| recv_msg_type := type; does_not_need_replacement := own_replacement |} in
  replacing_node ← gets replacing_node_;
  if bool_decide (state = kIdle) && Node.isInitialized replacing_node then
    forwardToReplacement msg;; mret false
  else if bool_decide (type = kFindReplacement) &&
          negb (Logical.eqb (l_node_info_ (target_ header)) (l_node_info_ self)) then mret false
  else if bool_decide (state = kIdle) then mret false
  else
    fsm_process_event fsm_event;;
    valid ← fsm_isActionValid;
    throw_if (negb valid) (FSMException_ReceiveMessage state fsm_event "Invalid Action");;
    state' ← getFsmState;
    throw_if (bool_decide (state' = kErrorState)) (FSMException_ReceiveMessage state fsm_event "");;
    if bool_decide (type = kReplacementNack) then
      cancelJob kReplacementOfferResponseTimeout;;
      cancelJob kSelfDepartureRetry;;
      addJob LeaveAgain 1000 kSelfDepartureRetry;;
      mret false
    else
      (if bool_decide (type = kReplacementOffer) then
         modify (set_replacing_node (sender_ header));;
         zoom replacing_node_ set_replacing_node (Node.setPositionFrom (l_node_info_ self))
       else mret tt);;
      (if bool_decide (type = kSignOffParentAnswer) then
         match msg with
         | MessageSignoffParentAnswer _ successful =>
             if negb successful then modify (set_fsm (makeFSM kConnected)) else mret tt
         | _ => throw bad_variant_access
         end
       else mret tt);;
      mret true.

Definition recv (msg : MessageVariant) : M MinhtonNode unit :=
  process_msg ← prepareReceiving msg;
  if (process_msg : bool) then Logic_process msg else mret tt.

Definition stop : M MinhtonNode unit :=
  state ← getFsmState;
  if bool_decide (state = kConnected) then processSignal leaveNetwork else mret tt.

(** The configured lengths are 64 bits wide, the result has 16. *)
Definition getTimeoutLength (type : TimeoutType) (s : MinhtonNode) : Z :=
  let lengths := timeout_lengths_container_ s in
  match type with
  | kBootstrapResponseTimeout => u16 (bootstrap_response lengths)
  | kJoinAcceptResponseTimeout => u16 (join_response lengths)
  | kJoinAcceptAckResponseTimeout => u16 (join_accept_ack_response lengths)
  | kReplacementOfferResponseTimeout => u16 (replacement_offer_response lengths)
  | kReplacementAckResponseTimeout => u16 (replacement_ack_response lengths)
  | kDsnAggregationTimeout => u16 (dsn_aggregation lengths)
  | kInquiryAggregationTimeout | kSelfDepartureRetry => u16 (inquiry_aggregation lengths)
  | kJoinRetry => 1000
  end.

Definition setTimeout (type : TimeoutType) : M MinhtonNode unit :=
  timeout_length ← gets (getTimeoutLength type);
  if 0 <? timeout_length then addJob (TriggerTimeout type) timeout_length type else mret tt.

Definition triggerTimeout (type : TimeoutType) : M MinhtonNode unit :=
  valid_response ← gets (fun s =>
    if bool_decide (type = kBootstrapResponseTimeout) then bootstrap_isBootstrapResponseValid s else false);
  let timeout_event := {| timeout_type := type; valid_bootstrap_response := valid_response |} in
  state ← getFsmState;
  fsm_process_event timeout_event;;
  valid ← fsm_isActionValid;
  throw_if (negb valid) (FSMException_Timeout state timeout_event "Invalid Action");;
  state' ← getFsmState;
  throw_if (bool_decide (state' = kErrorState)) (FSMException_Timeout state timeout_event "");;
  if bool_decide (type = kJoinAcceptResponseTimeout) then
    (* assert(fsm_.current_state() == kJoinFailed) *)
    (if bool_decide (state' = kJoinFailed) then mret tt else lift Undefined);;
    length ← gets (getTimeoutLength kJoinRetry);
    addJob JoinAgain length kJoinRetry
  else Logic_processTimeout timeout_event.

(** What a pending job does when its time has come. *)
Definition runCallback (function : Callback) : M MinhtonNode unit :=
  match function with
  | LeaveUnlessIdle =>
      state ← getFsmState;
      if bool_decide (state = kIdle) then mret tt else processSignal leaveNetwork
  | LeaveAgain => processSignal leaveNetwork
  | TriggerTimeout type => triggerTimeout type
  | JoinAgain => processSignal (joinNetworkViaAddress (String.list_ascii_of_string "255.255.255.255") 9999)
  end.

(** [setConfig]: the node before it starts; [own_ip], [own_port] are what the socket is bound
    to, [logic0] is the logic container just constructed. *)
Definition setConfig (own_ip : list ascii) (own_port : Z) (root : bool) (fanout : Z)
    (lengths : TimeoutLengthsContainer) (logic0 : LogicState) : outcome MinhtonNode :=
  self1 ← Logical.construct Node.default (Node.setAddress own_ip;; Node.setPort own_port);
  self ← (if root then
            position ← Logical.of_position 0 0 fanout;
            Logical.construct self1 (Node.setPositionFrom position)
          else mret self1);
  routing ← construct_RI self;
  mret {| fsm_ := makeFSM (if root then kConnected else kIdle); routing_info_ := routing;
          replacing_node_ := Node.default; timeout_lengths_container_ := lengths; watchdog_ := [];
          sent_ := []; logic_ := logic0 |}.

Definition start (info : JoinInfo) (auto_connect : bool) : M MinhtonNode unit :=
  self ← gets getNodeInfo;
  (if negb (Logical.isRoot (l_node_info_ self)) && auto_connect then
     match join_mode info with
     | kIp =>
         throw_if (bool_decide (ip info = []) || (port info =? 0))
           (runtime_error "Invalid data for IP JoinMode");;
         processSignal (joinNetworkViaAddress (ip info) (port info))
     | kDiscovery => processSignal joinNetworkViaBootstrap
     | kNoJoin => throw (runtime_error "Cannot start non-root node with JoinMode None")
     end
   else mret tt);;
  self' ← gets getNodeInfo;
  if Logical.isRoot (l_node_info_ self') then
    throw_if (negb (bool_decide (join_mode info = kNoJoin)))
      (runtime_error "Cannot start root with JoinMode other that None");;
    zoom routing_info_ set_routing_info (setNodeStatus kRunning)
  else mret tt.

(** ** The verdict in front of every event *)

Definition ready (s : MinhtonNode) : Prop := valid_action_ (fsm_ s) = false.

Lemma set_fsm_id s : set_fsm (fsm_ s) s = s.
Proof. by destruct s. Qed.
Lemma set_fsm_twice f g s : set_fsm f (set_fsm g s) = set_fsm f s.
Proof. by destruct s. Qed.
Lemma fsm_set_fsm f s : fsm_ (set_fsm f s) = f.
Proof. by destruct s. Qed.

(** The machine's verdict on an event. *)
Lemma fsm_gate {Event A} `{FsmEvent Event} (e : Event) (ev : event) (k : bool -> M MinhtonNode A) s :
  process_event e = process ev -> ready s ->
  (fsm_process_event e ≫= fun _ => fsm_isActionValid ≫= k) s =
  match next (m_state (fsm_ s)) ev with
  | Some t => k true (set_fsm (makeFSM t) s)
  | None => k false s
  end.
Proof.
  intros He Hs. unfold fsm_process_event, fsm_isActionValid. rewrite bind_modify, He, process_next.
  mred. destruct (next _ ev) as [t|]; rewrite fsm_set_fsm; unfold isActionValid; cbn.
  - by rewrite set_fsm_twice.
  - rewrite Hs, set_fsm_twice, set_fsm_id. done.
Qed.

Lemma next_send_no_error state e : next state (OnSend e) <> Some kErrorState.
Proof. destruct state, e as [[]]; vm_compute; discriminate. Qed.

Lemma prepareSending_spec msg s :
  ready s ->
  let type := {| send_msg_type := getMessageType msg |} in
  prepareSending msg s =
  (if negb (Header.validate (getHeader msg)) then (Throw (invalidMessage (getHeader msg)), s)
   else match next (m_state (fsm_ s)) (OnSend type) with
        | Some t => (Ok tt, set_fsm (makeFSM t) s)
        | None => (Throw (FSMException_SendMessage (m_state (fsm_ s)) type "Invalid Action"), s)
        end).
Proof.
  intros Hs type. unfold prepareSending. rewrite bind_throw_if. case_match; [done|].
  unfold getFsmState. rewrite bind_gets, (fsm_gate _ _ _ _ (process_send type) Hs).
  destruct (next _ _) as [t|] eqn:E; rewrite bind_throw_if; [|done].
  cbn [negb]. rewrite bind_gets, fsm_set_fsm. unfold throw_if. rewrite bool_decide_false; [done|].
  intros Ht. cbn in Ht. subst t. exact (next_send_no_error _ _ E).
Qed.

Lemma send_spec msg s :
  ready s ->
  let type := {| send_msg_type := getMessageType msg |} in
  send msg s =
  (if negb (Header.validate (getHeader msg)) then (Throw (invalidMessage (getHeader msg)), s)
   else match next (m_state (fsm_ s)) (OnSend type) with
        | Some t => (Ok tt, set_sent (sent_ s ++ [msg]) (set_fsm (makeFSM t) s))
        | None => (Throw (FSMException_SendMessage (m_state (fsm_ s)) type "Invalid Action"), s)
        end).
Proof.
  intros Hs type. unfold send. mred. rewrite prepareSending_spec by done. fold type.
  destruct (negb _); [done|]. destruct (next _ _) as [t|]; [|done].
  by destruct s.
Qed.

(** What sending does, on every branch. A message goes out exactly when its header is
    valid and the machine has a transition for sending it, and then the node's only other
    change is that transition. A message with an invalid header raises
    InvalidMessageException, one the machine refuses raises FSMException, and in both cases
    the node is left as it was; the error state is never entered by sending. *)
Theorem send_behaviour msg s :
  ready s ->
  let type := {| send_msg_type := getMessageType msg |} in
  send msg s =
  (if negb (Header.validate (getHeader msg)) then (Throw (invalidMessage (getHeader msg)), s)
   else match next (m_state (fsm_ s)) (OnSend type) with
        | Some t => (Ok tt, set_sent (sent_ s ++ [msg]) (set_fsm (makeFSM t) s))
        | None => (Throw (FSMException_SendMessage (m_state (fsm_ s)) type "Invalid Action"), s)
        end).
Proof. apply send_spec. Qed.

(** ** Receiving *)

(** The node's own request for a replacement came back to it. *)
Definition own_replacement (msg : MessageVariant) (self : NodeInfo) : bool :=
  match msg with
  | MessageFindReplacement _ node_to_replace search_progress _ =>
      Node.eqb node_to_replace self && bool_decide (search_progress = kReplacementNode)
  | _ => false
  end.

Definition recv_event (msg : MessageVariant) (s : MinhtonNode) : ReceiveMessage :=
  {| recv_msg_type := getMessageType msg; does_not_need_replacement := own_replacement msg (getNodeInfo s) |}.

(** A request for a replacement that was meant for a position the node no longer has. *)
Definition misdirected (msg : MessageVariant) (s : MinhtonNode) : bool :=
  bool_decide (getMessageType msg = kFindReplacement) &&
  negb (Logical.eqb (l_node_info_ (target_ (getHeader msg))) (l_node_info_ (getNodeInfo s))).

Lemma own_replacement_step msg self (s : MinhtonNode) {A} (k : bool -> M MinhtonNode A) :
  well_typed msg = true ->
  ((if bool_decide (message_type_ (getHeader msg) = kFindReplacement) then
      match msg with
      | MessageFindReplacement _ node_to_replace search_progress _ =>
          mret (Node.eqb node_to_replace self && bool_decide (search_progress = kReplacementNode))
      | _ => throw bad_variant_access
      end
    else mret false : M MinhtonNode bool) ≫= k) s = k (own_replacement msg self) s.
Proof.
  intros Hw. destruct msg; cbn [own_replacement].
  all: try (rewrite bool_decide_false; [done|]; intros Ht; wrong_alternative Hw Ht).
  apply well_typed_type, list_elem_of_singleton in Hw. by rewrite bool_decide_true.
Qed.

(** [prepareReceiving], past the part that looks into the message. *)
Lemma prepareReceiving_idle msg s :
  well_typed msg = true -> m_state (fsm_ s) = kIdle ->
  prepareReceiving msg s =
  if Node.isInitialized (replacing_node_ s) then (forwardToReplacement msg ≫= fun _ => mret false) s
  else (Ok false, s).
Proof.
  intros Hw Hs. unfold prepareReceiving, getFsmState. rewrite !bind_gets, own_replacement_step by done.
  rewrite bind_gets, Hs. rewrite bool_decide_true by reflexivity. cbn [andb].
  destruct (Node.isInitialized _); [reflexivity|]. by destruct (_ && _).
Qed.

Lemma validate_header h : Header.validate h = true -> Header.validateHeader h = true.
Proof.
  unfold Header.validate, Header.validateHeader. intros Hv. repeat rewrite andb_true_iff in Hv.
  destruct Hv as [[[[-> ->] _] _] _]. done.
Qed.

Lemma setMessageType_id t h : message_type_ h = t -> Header.setMessageType t h = h.
Proof. intros <-. by destruct h. Qed.

Lemma fsm_ready_id s t : ready s -> m_state (fsm_ s) = t -> set_fsm (makeFSM t) s = s.
Proof. unfold ready. intros Hr <-. destruct s as [[]]. cbn in *. by subst. Qed.

(** An idle machine refuses to send attribute inquiries and their answers. *)
Lemma send_refused msg s :
  ready s -> next (m_state (fsm_ s)) (OnSend {| send_msg_type := getMessageType msg |}) = None ->
  exists e, send msg s = (Throw e, s).
Proof. intros Hr Hn. rewrite send_spec, Hn by done. case_match; eauto. Qed.

Lemma validateMessage_Ok h impl :
  Header.validateMessage h impl = Ok tt <-> Header.validateHeader h = true /\ impl = true.
Proof.
  unfold Header.validateMessage. mred. destruct (Header.validateHeader h), impl; cbn; naive_solver.
Qed.

Lemma validateMessage_not_Undefined h impl : Header.validateMessage h impl <> Undefined.
Proof. unfold Header.validateMessage. mred. destruct (Header.validateHeader h), impl; cbn; done. Qed.

(** A forwarded message that cannot be built or sent leaves the node as it was. *)
Lemma forward_refused (m : outcome unit) (built : MessageVariant) s :
  ready s -> next (m_state (fsm_ s)) (OnSend {| send_msg_type := getMessageType built |}) = None ->
  m <> Undefined ->
  exists e, ((lift (m;; mret built) ≫= send) s) = (Throw e, s).
Proof.
  intros Hr Hn Hm. rewrite bind_lift. destruct m; mred; [by apply send_refused|by eexists|done].
Qed.

Lemma throws_on {A} (r : outcome A * MinhtonNode) s :
  (exists e, r = (Throw e, s)) ->
  exists e, (let (o, s') := r in
             match o with
             | Ok _ => (Ok (), s')
             | Throw e0 => (Throw e0, s')
             | Undefined => (Undefined, s')
             end) = (Throw e, s).
Proof. intros [e ->]. by exists e. Qed.

Lemma idle_sends_signoff :
  next kIdle (OnSend {| send_msg_type := kSignOffParentRequest |}) = Some kIdle.
Proof. vm_compute. reflexivity. Qed.

(** What [recv] does with an idle node, by the type of the message. *)
Definition idle_outcome (msg : MessageVariant) (s : MinhtonNode) : Prop :=
  if Node.isInitialized (replacing_node_ s) then
    match getMessageType msg with
    | kFindReplacement | kJoin => recv msg s = (Ok tt, s)
    | kSignOffParentRequest =>
        let header := Header.setTarget (replacing_node_ s) (getHeader msg) in
        Header.validate header = true ->
        recv msg s = (Ok tt, set_sent (sent_ s ++ [MessageSignoffParentRequest header]) s)
    | kAttributeInquiryRequest | kAttributeInquiryAnswer => exists e, recv msg s = (Throw e, s)
    | _ => recv msg s = (Throw (runtime_error "forwarding this message type not handled yet"), s)
    end
  else recv msg s = (Ok tt, s).

Lemma recv_idle_unfold msg s :
  well_typed msg = true -> m_state (fsm_ s) = kIdle ->
  recv msg s =
  if Node.isInitialized (replacing_node_ s) then
    match forwardToReplacement msg s with
    | (Ok _, s') => (Ok tt, s')
    | (Throw e, s') => (Throw e, s')
    | (Undefined, s') => (Undefined, s')
    end
  else (Ok tt, s).
Proof.
  intros Hw Hs. unfold recv. mred. rewrite prepareReceiving_idle by done. mred.
  destruct (Node.isInitialized _); [|done].
  by destruct (forwardToReplacement msg s) as [[]].
Qed.

(** An idle node that has not joined ignores every message. An idle node that has left
    and knows its replacement drops JOIN and FIND_REPLACEMENT and forwards
    SIGN_OFF_PARENT_REQUEST to the replacement; the attribute inquiries and answers it is
    meant to forward always end in an exception instead, because an idle machine has no
    transition for sending them; every other message, BOOTSTRAP_DISCOVER among them, raises
    a runtime error. Nothing but the forwarded request changes the node. *)
Theorem recv_idle msg s :
  ready s -> well_typed msg = true -> m_state (fsm_ s) = kIdle -> idle_outcome msg s.
Proof.
  intros Hr Hw Hs. unfold idle_outcome. rewrite recv_idle_unfold by done.
  destruct (Node.isInitialized _); [|done]. unfold forwardToReplacement. rewrite bind_gets.
  destruct (getMessageType msg) eqn:Ht; try done.
  1, 2: destruct msg; try (eexists; reflexivity); apply throws_on, forward_refused;
    [done | rewrite Hs; vm_compute; reflexivity | apply validateMessage_not_Undefined].
  intros Hv. destruct msg; try (exfalso; wrong_alternative Hw Ht). clear Hw.
  unfold getMessageType in Ht. cbn in *. unfold makeSignoffParentRequest, constructed.
  rewrite setMessageType_id by done.
  rewrite (proj2 (validateMessage_Ok _ true)) by (split; [by apply validate_header|done]). mred.
  rewrite send_spec by done. unfold getMessageType. cbn [getHeader message_type_ Header.setTarget].
  rewrite Hv, Ht, Hs. rewrite idle_sends_signoff. cbn [negb].
  by rewrite fsm_ready_id.
Qed.

(** ** Messages the machine admits *)

(** What [prepareReceiving] still does with an admitted message. *)
Definition note_admitted (msg : MessageVariant) (self : NodeInfo) : M MinhtonNode unit :=
  (if bool_decide (getMessageType msg = kReplacementOffer) then
     modify (set_replacing_node (sender_ (getHeader msg)));;
     zoom replacing_node_ set_replacing_node (Node.setPositionFrom (l_node_info_ self))
   else mret tt);;
  (if bool_decide (getMessageType msg = kSignOffParentAnswer) then
     match msg with
     | MessageSignoffParentAnswer _ successful =>
         if negb successful then modify (set_fsm (makeFSM kConnected)) else mret tt
     | _ => throw bad_variant_access
     end
   else mret tt).

Lemma prepareReceiving_gated msg s :
  ready s -> well_typed msg = true -> m_state (fsm_ s) <> kIdle ->
  let e := recv_event msg s in
  prepareReceiving msg s =
  if misdirected msg s then (Ok false, s)
  else match next (m_state (fsm_ s)) (OnReceive e) with
       | None => (Throw (FSMException_ReceiveMessage (m_state (fsm_ s)) e "Invalid Action"), s)
       | Some t =>
           let s1 := set_fsm (makeFSM t) s in
           if bool_decide (t = kErrorState) then (Throw (FSMException_ReceiveMessage (m_state (fsm_ s)) e ""), s1)
           else if bool_decide (getMessageType msg = kReplacementNack) then
             (Ok false, set_watchdog (WatchDog_addJob LeaveAgain 1000 kSelfDepartureRetry (watchdog_ s)) s1)
           else (note_admitted msg (getNodeInfo s) ≫= fun _ => mret true) s1
       end.
Proof.
  intros Hr Hw Hs e. unfold prepareReceiving, getFsmState.
  rewrite !bind_gets, own_replacement_step by done. rewrite bind_gets.
  rewrite (bool_decide_false (m_state (fsm_ s) = kIdle)) by done. cbn [andb].
  fold (getMessageType msg). fold (misdirected msg s). destruct (misdirected msg s); [done|].
  fold (recv_event msg s). rewrite (fsm_gate _ _ _ _ (process_receive _) Hr). fold e.
  destruct (next _ _) as [t|]; rewrite bind_throw_if; [|done]. cbn [negb].
  rewrite bind_gets, bind_throw_if, fsm_set_fsm. cbn [makeFSM m_state].
  destruct (bool_decide (t = _)); [done|].
  destruct (bool_decide (getMessageType msg = kReplacementNack)); [by destruct s|].
  unfold note_admitted. mred. by repeat case_match.
Qed.

(** A message the machine has no transition for is refused: an active node raises
    FSMException and is left exactly as it was, and none of its algorithms sees the message.
    This includes BOOTSTRAP_RESPONSE messages that arrive during a departure. *)
Theorem recv_refused msg s :
  ready s -> well_typed msg = true -> m_state (fsm_ s) <> kIdle -> misdirected msg s = false ->
  next (m_state (fsm_ s)) (OnReceive (recv_event msg s)) = None ->
  recv msg s =
  (Throw (FSMException_ReceiveMessage (m_state (fsm_ s)) (recv_event msg s) "Invalid Action"), s).
Proof.
  intros Hr Hw Hs Hm Hn. unfold recv. mred. by rewrite prepareReceiving_gated, Hm, Hn by done.
Qed.

(** Every message type some state admits belongs to an algorithm. *)
Lemma admitted_has_algorithm state e t :
  next state (OnReceive e) = Some t ->
  exists algorithm, message_type_to_algorithm_map_ (recv_msg_type e) = Some algorithm /\
    recv_msg_type e ∈ getSupportedMessageTypes algorithm.
Proof.
  destruct e as [type flag]. cbn [recv_msg_type].
  destruct (message_type_to_algorithm_map_ type) as [algorithm|] eqn:E.
  - intros _. exists algorithm. split; [done|]. revert E.
    destruct type; vm_compute; intros [= <-]; repeat (first [left | right]).
  - destruct type; try discriminate E. destruct state, flag; vm_compute; discriminate.
Qed.

Definition refused_signoff (msg : MessageVariant) : bool :=
  match msg with MessageSignoffParentAnswer _ successful => negb successful | _ => false end.

Lemma note_admitted_Ok msg self s s' :
  well_typed msg = true -> note_admitted msg self s = (Ok tt, s') ->
  s' = set_fsm (if refused_signoff msg then makeFSM kConnected else fsm_ s)
         (set_replacing_node
            (if bool_decide (getMessageType msg = kReplacementOffer)
             then Node.setLogicalNodeInfo (l_node_info_ self) (sender_ (getHeader msg))
             else replacing_node_ s) s).
Proof.
  intros Hw Hn. unfold note_admitted in Hn. apply bind_Ok in Hn as ([] & s1 & H1' & H2').
  assert (Hs1 : s1 = set_replacing_node
    (if bool_decide (getMessageType msg = kReplacementOffer)
     then Node.setLogicalNodeInfo (l_node_info_ self) (sender_ (getHeader msg))
     else replacing_node_ s) s).
  { destruct (bool_decide _); [|apply ret_Ok in H1' as [_ ->]; by destruct s].
    apply bind_Ok in H1' as ([] & s0 & H0' & H1'). apply modify_Ok in H0'. subst s0.
    unfold zoom, Node.setPositionFrom, Logical.setPositionFrom, zoom in H1'.
    destruct (isPositionValid _ _ _); [|done]. cbn in H1'. injection H1' as <-.
    destruct s, self as [[]]. done. }
  subst s1. clear H1'. destruct msg; cbn [refused_signoff].
  all: try (rewrite bool_decide_false in H2' by (intros Ht; wrong_alternative Hw Ht);
            apply ret_Ok in H2' as [_ ->]; by destruct s).
  apply well_typed_type, list_elem_of_singleton in Hw. rewrite bool_decide_true in H2' by done.
  destruct successful; cbn in H2'; injection H2' as <-; by destruct s.
Qed.

(** C34: when [prepareReceiving] hands a message to the algorithms, the machine had a
    transition for it that does not lead to the error state, an algorithm is registered for
    its type, and of the node only the machine and the replacement changed: the machine is
    in the target of the transition, or back in [kConnected] when the parent refused the
    sign-off, and a REPLACEMENT_OFFER makes its sender, at the position of this node, the
    replacement. *)
Theorem recv_admits msg s s' :
  ready s -> well_typed msg = true -> prepareReceiving msg s = (Ok true, s') ->
  exists t algorithm,
    next (m_state (fsm_ s)) (OnReceive (recv_event msg s)) = Some t /\ t <> kErrorState /\
    message_type_to_algorithm_map_ (getMessageType msg) = Some algorithm /\
    recv msg s = algorithm_process algorithm msg s' /\
    s' = set_fsm (makeFSM (if refused_signoff msg then kConnected else t))
           (set_replacing_node
              (if bool_decide (getMessageType msg = kReplacementOffer)
               then Node.setLogicalNodeInfo (l_node_info_ (getNodeInfo s)) (sender_ (getHeader msg))
               else replacing_node_ s) s).
Proof.
  intros Hr Hw Hp.
  assert (Hs : m_state (fsm_ s) <> kIdle).
  { intros Hs. rewrite prepareReceiving_idle in Hp by done.
    destruct (Node.isInitialized _); [|done]. apply bind_Ok in Hp as (? & ? & _ & Hp). done. }
  assert (Hrecv : recv msg s = Logic_process msg s') by (unfold recv; mred; by rewrite Hp).
  rewrite prepareReceiving_gated in Hp by done. cbn zeta in Hp.
  destruct (misdirected msg s); [done|]. destruct (next _ _) as [t|] eqn:E; [|done].
  destruct (admitted_has_algorithm _ _ _ E) as (algorithm & Ha & _).
  cbn [recv_msg_type recv_event] in Ha. exists t, algorithm.
  destruct (bool_decide_reflect (t = kErrorState)); [done|].
  destruct (bool_decide (getMessageType msg = kReplacementNack)); [done|].
  apply bind_Ok in Hp as ([] & s2 & Hn & Hp). apply ret_Ok in Hp as [_ ->].
  apply note_admitted_Ok in Hn; [|done].
  split_and!; [done..| |].
  - rewrite Hrecv. unfold Logic_process. by rewrite Ha.
  - rewrite Hn. destruct s, (refused_signoff msg); done.
Qed.

(** ** Timeouts *)

(** The length the configuration asks for, in 64 bits. *)
Definition configured_length (type : TimeoutType) (s : MinhtonNode) : Z :=
  let lengths := timeout_lengths_container_ s in
  match type with
  | kBootstrapResponseTimeout => bootstrap_response lengths
  | kJoinAcceptResponseTimeout => join_response lengths
  | kJoinAcceptAckResponseTimeout => join_accept_ack_response lengths
  | kReplacementOfferResponseTimeout => replacement_offer_response lengths
  | kReplacementAckResponseTimeout => replacement_ack_response lengths
  | kDsnAggregationTimeout => dsn_aggregation lengths
  | kInquiryAggregationTimeout | kSelfDepartureRetry => inquiry_aggregation lengths
  | kJoinRetry => 1000
  end.

Definition timeout_job (type : TimeoutType) (length : Z) : Job :=
  {| job_function := TriggerTimeout type; job_milliseconds := length; job_type := type |}.

Lemma getTimeoutLength_u16 type s : getTimeoutLength type s = u16 (configured_length type s).
Proof. by destruct type. Qed.

Lemma setTimeout_spec type s :
  setTimeout type s =
  (Ok tt, if configured_length type s mod 2 ^ 16 =? 0 then s
          else set_watchdog (watchdog_ s ++ [timeout_job type (configured_length type s mod 2 ^ 16)]) s).
Proof.
  unfold setTimeout. rewrite bind_gets, getTimeoutLength_u16. unfold u16.
  pose proof (Z.mod_pos_bound (configured_length type s) (2 ^ 16) ltac:(lia)) as Hb.
  destruct (Z.eqb_spec (configured_length type s mod 2 ^ 16) 0) as [->|Hn]; [done|].
  rewrite (proj2 (Z.ltb_lt _ _)) by lia. unfold addJob, WatchDog_addJob, modify, timeout_job.
  by rewrite (u32_id (_ mod _)) by (unfold in_u32; lia).
Qed.

(** A timeout whose configured length fits 16 bits is set with exactly that length, and
    not at all when it is 0. A longer one is cut to its lower 16 bits: a configured length
    of 65536 ms (or a multiple) sets no timeout although it is not 0. *)
Theorem setTimeout_length type s :
  0 <= configured_length type s < 2 ^ 64 ->
  (configured_length type s < 2 ^ 16 ->
   setTimeout type s =
   (Ok tt, if configured_length type s =? 0 then s
           else set_watchdog (watchdog_ s ++ [timeout_job type (configured_length type s)]) s)) /\
  (setTimeout type s = (Ok tt, s) <-> exists k, configured_length type s = 65536 * k).
Proof.
  intros Hc. rewrite setTimeout_spec. split.
  - intros Hs. by rewrite Z.mod_small by lia.
  - destruct (Z.eqb_spec (configured_length type s mod 2 ^ 16) 0) as [Hz|Hn]; split; intros Hs.
    + exists (configured_length type s / 65536). apply Z.mod_divide in Hz as [k Hk]; [|lia].
      rewrite Hk. change (2 ^ 16) with 65536. rewrite Z.div_mul by lia. lia.
    + done.
    + injection Hs as Hs. apply (f_equal (fun s => length (watchdog_ s))) in Hs.
      destruct s. cbn in Hs. rewrite length_app in Hs. cbn in Hs. lia.
    + destruct Hs as [k Hk]. exfalso. apply Hn. rewrite Hk. change (2 ^ 16) with 65536.
      rewrite Z.mul_comm. apply Z.mod_mul. lia.
Qed.

Definition response_timeouts : list TimeoutType :=
  [kBootstrapResponseTimeout; kJoinAcceptResponseTimeout; kJoinAcceptAckResponseTimeout;
   kReplacementAckResponseTimeout; kReplacementOfferResponseTimeout].

(** What an expired timeout does when the machine has no transition for it. *)
Lemma triggerTimeout_refused type s :
  ready s ->
  let e := {| timeout_type := type;
              valid_bootstrap_response :=
                if bool_decide (type = kBootstrapResponseTimeout)
                then bootstrap_isBootstrapResponseValid s else false |} in
  next (m_state (fsm_ s)) (OnTimeout e) = None ->
  triggerTimeout type s = (Throw (FSMException_Timeout (m_state (fsm_ s)) e "Invalid Action"), s).
Proof.
  intros Hr e Hn. unfold triggerTimeout, getFsmState. rewrite !bind_gets. fold e.
  rewrite (fsm_gate _ _ _ _ (process_timeout e) Hr), Hn. by rewrite bind_throw_if.
Qed.

Lemma connected_refuses_response_timeouts type valid :
  type ∈ response_timeouts ->
  next kConnected (OnTimeout {| timeout_type := type; valid_bootstrap_response := valid |}) = None.
Proof.
  intros Ht. repeat (apply elem_of_cons in Ht as [->|Ht]; [destruct valid; vm_compute; reflexivity|]).
  by apply elem_of_nil in Ht.
Qed.

(** Cancelling a timeout has no effect: the job that [setTimeout] queued is still pending
    after [cancelJob], and when it runs after the answer has arrived and the node is
    connected again, the machine refuses the timeout and the job raises FSMException. *)
Theorem cancelled_timeout_fires type s :
  ready s -> type ∈ response_timeouts -> 0 < configured_length type s < 2 ^ 16 ->
  exists s' job valid,
    (setTimeout type;; cancelJob type) s = (Ok tt, s') /\ job ∈ watchdog_ s' /\
    runCallback (job_function job) (set_fsm (makeFSM kConnected) s') =
    (Throw (FSMException_Timeout kConnected
              {| timeout_type := type; valid_bootstrap_response := valid |} "Invalid Action"),
     set_fsm (makeFSM kConnected) s').
Proof.
  intros Hr Ht Hc. eexists _, (timeout_job type (configured_length type s)), _. split_and!.
  - mred. rewrite setTimeout_spec, Z.mod_small by lia.
    rewrite (proj2 (Z.eqb_neq _ _)) by lia. unfold cancelJob, modify, WatchDog_cancelJob. reflexivity.
  - destruct s. cbn. apply elem_of_app. right. by apply list_elem_of_singleton.
  - cbn [timeout_job job_function runCallback]. rewrite triggerTimeout_refused.
    + by rewrite fsm_set_fsm.
    + unfold ready. by rewrite fsm_set_fsm.
    + rewrite fsm_set_fsm. by apply connected_refuses_response_timeouts.
Qed.

(** ** A join that is not answered *)

Lemma no_default_node addr port :
  Node.isInitialized (join_nodeinfo (joinNetworkViaAddress addr port)) = false.
Proof. done. Qed.

Definition broadcast_address : list ascii := String.list_ascii_of_string "255.255.255.255".

Lemma next_join_timeout state :
  next state (OnTimeout {| timeout_type := kJoinAcceptResponseTimeout; valid_bootstrap_response := false |}) =
  if bool_decide (state = kWaitForJoinAccept) then Some kJoinFailed else None.
Proof. destruct state; vm_compute; reflexivity. Qed.

Lemma next_join_address state addr port :
  next state (OnSignal (joinNetworkViaAddress addr port)) =
  if bool_decide (state ∈ [kIdle; kJoinFailed]) then Some kWaitForJoinAccept else None.
Proof. destruct state; vm_compute; reflexivity. Qed.

Lemma processSignal_join addr port s :
  ready s ->
  processSignal (joinNetworkViaAddress addr port) s =
  if bool_decide (m_state (fsm_ s) ∈ [kIdle; kJoinFailed])
  then Logic_processSignal (joinNetworkViaAddress addr port) (set_fsm (makeFSM kWaitForJoinAccept) s)
  else (Ok tt, s).
Proof.
  intros Hr. unfold processSignal. cbn [joinNetworkViaAddress signal_type]. unfold getFsmState.
  rewrite bind_gets, (fsm_gate _ _ _ _ (process_signal _) Hr), next_join_address.
  destruct (bool_decide _); [|done]. cbn [negb]. rewrite bind_gets, bind_throw_if, fsm_set_fsm.
  by rewrite bool_decide_false.
Qed.

(** The timeout of a join request either finds the node still waiting for JOIN_ACCEPT,
    and then fails the join and schedules a retry after a second (the assertion of the code
    holds), or raises FSMException and changes nothing. The retry, run in the failed state,
    makes the node wait for JOIN_ACCEPT again and asks the join algorithm to join at the
    broadcast address; run in any state but that and the idle one it does nothing. *)
Theorem join_timeout_retries s :
  ready s ->
  triggerTimeout kJoinAcceptResponseTimeout s =
    (if bool_decide (m_state (fsm_ s) = kWaitForJoinAccept)
     then (Ok tt, set_watchdog (watchdog_ s ++
             [{| job_function := JoinAgain; job_milliseconds := 1000; job_type := kJoinRetry |}])
             (set_fsm (makeFSM kJoinFailed) s))
     else (Throw (FSMException_Timeout (m_state (fsm_ s))
             {| timeout_type := kJoinAcceptResponseTimeout; valid_bootstrap_response := false |}
             "Invalid Action"), s)) /\
  runCallback JoinAgain s =
    (if bool_decide (m_state (fsm_ s) ∈ [kIdle; kJoinFailed])
     then (lift (Physical.of_address broadcast_address 9999) ≫= join_initiateJoinPhysical)
            (set_fsm (makeFSM kWaitForJoinAccept) s)
     else (Ok tt, s)).
Proof.
  intros Hr. split.
  - unfold triggerTimeout, getFsmState. rewrite !bind_gets.
    rewrite (bool_decide_false (kJoinAcceptResponseTimeout = kBootstrapResponseTimeout)) by done.
    rewrite (fsm_gate _ _ _ _ (process_timeout _) Hr), next_join_timeout.
    destruct (bool_decide _) eqn:E; rewrite bind_throw_if; [|done]. cbn [negb].
    rewrite bind_gets, bind_throw_if, fsm_set_fsm. cbn. by destruct s.
  - unfold runCallback. rewrite processSignal_join by done.
    destruct (bool_decide _); [|done]. unfold Logic_processSignal. cbn [joinNetworkViaAddress signal_type].
    by rewrite no_default_node.
Qed.

(** ** The acknowledgement flag between events *)

(** A member function that leaves the flag of the machine cleared, also when it throws. *)
Definition keeps {A} (m : M MinhtonNode A) : Prop := forall s, ready s -> ready (m s).2.

(** What the node relies on: its algorithms work on the node through [send], [set_timeout]
    and [set_new_fsm], which keep the flag cleared. *)
Class LogicKeeps := {
  keeps_algorithm algorithm msg : keeps (algorithm_process algorithm msg);
  keeps_departure : keeps leave_initiateSelfDeparture;
  keeps_canLeave : keeps leave_canLeaveWithoutReplacement;
  keeps_bootstrap p : keeps (bootstrap_initiateJoin p);
  keeps_bootstrap_timeout : keeps bootstrap_processBootstrapResponseTimeout;
  keeps_join n : keeps (join_initiateJoin n);
  keeps_join_physical p : keeps (join_initiateJoinPhysical p);
  keeps_esearch_timeout type : keeps (esearch_processTimeout type);
}.

Lemma node_keeps_bind {A B} (m : M MinhtonNode A) (k : A -> M MinhtonNode B) :
  keeps m -> (forall a, keeps (k a)) -> keeps (m ≫= k).
Proof.
  intros Hm Hk s Hs. specialize (Hm s Hs). mred. destruct (m s) as [[a| |] s1]; [by apply Hk|done..].
Qed.

Lemma node_keeps_gate {Event A} `{FsmEvent Event} (e : Event) ev (k : bool -> M MinhtonNode A) :
  process_event e = process ev -> (forall b, keeps (k b)) ->
  keeps (fsm_process_event e ≫= fun _ => fsm_isActionValid ≫= k).
Proof.
  intros He Hk s Hs. rewrite (fsm_gate _ _ _ _ He Hs).
  destruct (next _ _); apply Hk; [|done]. unfold ready. by rewrite fsm_set_fsm.
Qed.

Lemma node_keeps_ret {A} (a : A) : keeps (mret a).
Proof. by intros s Hs. Qed.
Lemma node_keeps_gets {A} (f : MinhtonNode -> A) : keeps (gets f).
Proof. by intros s Hs. Qed.
Lemma node_keeps_throw {A} e : keeps (throw e : M MinhtonNode A).
Proof. by intros s Hs. Qed.
Lemma node_keeps_throw_if b e : keeps (throw_if b e).
Proof. intros s Hs. by destruct b. Qed.
Lemma node_keeps_lift {A} (m : outcome A) : keeps (lift m).
Proof. by intros s Hs. Qed.
Lemma node_keeps_modify f : (forall s, ready s -> ready (f s)) -> keeps (modify f).
Proof. intros Hf s Hs. by apply Hf. Qed.
Lemma node_keeps_zoom {T A} (sel : MinhtonNode -> T) upd (m : M T A) :
  (forall t s, fsm_ (upd t s) = fsm_ s) -> keeps (zoom sel upd m).
Proof. intros Hu s Hs. unfold zoom, ready. destruct (m (sel s)). cbn. by rewrite Hu. Qed.
Lemma node_keeps_addJob f ms type : keeps (addJob f ms type).
Proof. apply node_keeps_modify. by intros []. Qed.

End Behaviour.
End Nodes.

Create HintDb keeps.
#[export] Hint Resolve node_keeps_ret node_keeps_gets node_keeps_throw node_keeps_throw_if node_keeps_lift node_keeps_addJob
  keeps_algorithm keeps_departure keeps_canLeave keeps_bootstrap keeps_bootstrap_timeout keeps_join
  keeps_join_physical keeps_esearch_timeout : keeps.

(** Walks through a member function statement by statement. *)
Ltac keep :=
  repeat first
    [ solve [eauto with keeps]
    | eapply node_keeps_gate; [first [apply process_signal | apply process_timeout | apply process_receive
                                | apply process_send] | intros ?]
    | apply node_keeps_bind; [|intros ?]
    | apply node_keeps_modify; intros []; done
    | apply node_keeps_zoom; intros ? []; done
    | case_match ].

Section Invariant.
Context `{Payloads} {LogicState : Type} `{Platform} `{Inet} `{UuidText}.
Context {logic : Logic (LogicState := LogicState)} `{!LogicKeeps}.

Lemma keeps_send msg : keeps (send (LogicState := LogicState) msg).
Proof. unfold send, prepareSending, getFsmState. keep. Qed.
Hint Resolve keeps_send : keeps.

Lemma keeps_Logic_processSignal signal : keeps (Logic_processSignal signal).
Proof. unfold Logic_processSignal. keep. Qed.
Hint Resolve keeps_Logic_processSignal : keeps.

Lemma keeps_processSignal signal : keeps (processSignal signal).
Proof. unfold processSignal, getFsmState. keep. Qed.
Hint Resolve keeps_processSignal : keeps.

Lemma keeps_recv msg : keeps (recv msg).
Proof.
  unfold recv, prepareReceiving, forwardToReplacement, getFsmState, Logic_process. keep.
Qed.

Lemma keeps_triggerTimeout type : keeps (triggerTimeout type).
Proof. unfold triggerTimeout, getFsmState, Logic_processTimeout. keep. Qed.
Hint Resolve keeps_triggerTimeout : keeps.

Lemma keeps_runCallback f : keeps (runCallback f).
Proof. unfold runCallback, getFsmState. keep. Qed.

Lemma keeps_start info auto_connect : keeps (start info auto_connect).
Proof. unfold start. keep. Qed.

(** The life of a node: it is configured, then events of every kind happen to it. *)
Inductive node_step : MinhtonNode -> MinhtonNode -> Prop :=
| step_start info auto_connect s : node_step s (start info auto_connect s).2
| step_signal signal s : node_step s (processSignal signal s).2
| step_send msg s : node_step s (send msg s).2
| step_recv msg s : node_step s (recv msg s).2
| step_job pre job post s :
    watchdog_ s = pre ++ job :: post ->
    node_step s (runCallback (job_function job) (set_watchdog (pre ++ post) s)).2.

Definition configured (s : MinhtonNode (LogicState := LogicState)) : Prop :=
  exists own_ip own_port root fanout lengths logic0,
    setConfig own_ip own_port root fanout lengths logic0 = Ok s.

Lemma configured_ready s : configured s -> ready s.
Proof.
  intros (own_ip & own_port & root & fanout & lengths & logic0 & Hs). unfold setConfig in Hs.
  apply outcome_bind_Ok in Hs as (self1 & _ & Hs).
  apply outcome_bind_Ok in Hs as (self & _ & Hs).
  apply outcome_bind_Ok in Hs as (routing & _ & Hs). by injection Hs as <-.
Qed.

(** In every state a node can reach, whatever signals, messages and timeouts happen to
    it and however many of them throw, the acknowledgement flag of its machine is cleared,
    so that the verdict on the next event is about that event. *)
Theorem node_ready_invariant s0 s :
  configured s0 -> rtc node_step s0 s -> ready s.
Proof.
  intros Hc Hsteps. apply configured_ready in Hc.
  induction Hsteps as [|s1 s2 s3 Hstep _ IH]; [done|]. apply IH. destruct Hstep.
  - by apply keeps_start.
  - by apply keeps_processSignal.
  - by apply keeps_send.
  - by apply keeps_recv.
  - apply keeps_runCallback. by destruct s.
Qed.

End Invariant.
