(* ===== verification/MinhtonNodeExamples.v ===== *)
(** * A node at work

    The theorems on nodes applied to concrete nodes, with algorithms that do nothing and
    the IPv4 address parser of [NodeInfo]. *)

From S2P Require Import Prelude RoutingCalculations NodeInfo RoutingInformation RoutingInvariants Message Fsm MinhtonNode.

Definition example_payloads : Payloads := {| ValueAndType := unit; OtherPayload := unit; validateOther := fun _ => true |}.
Definition example_texts : UuidText := {| uuidToString := fun _ => "uuid"%string |}.

Section Examples.
#[local] Existing Instance x86_64.
#[local] Existing Instance ipv4_only.
#[local] Existing Instance example_payloads.
#[local] Existing Instance example_texts.

Definition quiet_logic : Logic (LogicState := unit) := {|
  algorithm_process _ _ := mret tt;
  leave_initiateSelfDeparture := mret tt;
  leave_canLeaveWithoutReplacement := mret false;
  bootstrap_initiateJoin _ := mret tt;
  bootstrap_processBootstrapResponseTimeout := mret tt;
  bootstrap_isBootstrapResponseValid _ := false;
  join_initiateJoin _ := mret tt;
  join_initiateJoinPhysical _ := mret tt;
  esearch_processTimeout _ := mret tt;
|}.
#[local] Existing Instance quiet_logic.

Lemma quiet_logic_keeps : LogicKeeps.
Proof. split; intros; apply node_keeps_ret. Qed.
#[local] Existing Instance quiet_logic_keeps.

Definition example_lengths (ms : Z) : TimeoutLengthsContainer :=
  {| bootstrap_response := ms; join_response := ms; join_accept_ack_response := ms;
     replacement_offer_response := ms; replacement_ack_response := ms; dsn_aggregation := ms;
     inquiry_aggregation := ms |}.

Definition node_in (state : FSMState) (replacing : NodeInfo) (ms : Z) : MinhtonNode (LogicState := unit) :=
  {| fsm_ := makeFSM state; routing_info_ := example_RI; replacing_node_ := replacing;
     timeout_lengths_container_ := example_lengths ms; watchdog_ := []; sent_ := []; logic_ := tt |}.

Definition header_of (type : MessageType) (sender target : NodeInfo) : MinhtonMessageHeader :=
  Header.setMessageType type (Header.make sender target 0 77).

Definition message_of (type : MessageType) : MessageVariant :=
  let header := header_of type (example_node 0 0) (example_node 1 0) in
  match type with
  | kGetNeighbors => MessageGetNeighbors header (example_node 0 0) [kChild]
  | kBootstrapResponse => MessageBootstrapResponse header (example_node 0 0)
  | kJoinAccept => MessageJoinAccept header 2 (example_node 0 0) Node.default []
  | _ => MessageOther header tt
  end.

(** A connected node may ask for neighbours, and may not answer a bootstrap request it is
    still waiting for itself. *)
Lemma send_behaviour_witness :
  send (message_of kGetNeighbors) (node_in kConnected Node.default 100) =
    (Ok tt, set_sent [message_of kGetNeighbors] (node_in kConnected Node.default 100)) /\
  (exists e, send (message_of kBootstrapResponse) (node_in kWaitForBootstrapResponse Node.default 100) =
    (Throw e, node_in kWaitForBootstrapResponse Node.default 100)).
Proof.
  split.
  - rewrite (send_behaviour (message_of kGetNeighbors) (node_in kConnected Node.default 100) eq_refl).
    vm_compute. reflexivity.
  - rewrite (send_behaviour (message_of kBootstrapResponse)
               (node_in kWaitForBootstrapResponse Node.default 100) eq_refl).
    eexists. vm_compute. reflexivity.
Defined.

(** An attribute inquiry that reaches a node after it was replaced. *)
Lemma recv_idle_witness :
  let msg := MessageAttributeInquiryRequest
               (header_of kAttributeInquiryRequest (example_node 0 0) (example_node 1 0)) true [] in
  let s := node_in kIdle (example_node 1 0) 100 in
  Node.isInitialized (replacing_node_ s) = true /\ exists e, recv msg s = (Throw e, s).
Proof.
  split; [vm_compute; reflexivity|].
  exact (recv_idle
    (MessageAttributeInquiryRequest
       (header_of kAttributeInquiryRequest (example_node 0 0) (example_node 1 0)) true [])
    (node_in kIdle (example_node 1 0) 100) eq_refl ltac:(vm_compute; reflexivity) eq_refl).
Defined.

(** A late BOOTSTRAP_RESPONSE during a departure. *)
Lemma recv_refused_witness :
  exists e, recv (message_of kBootstrapResponse) (node_in kConnectedWaitingParentResponse Node.default 100) =
    (Throw e, node_in kConnectedWaitingParentResponse Node.default 100).
Proof.
  eexists.
  apply (recv_refused (message_of kBootstrapResponse)
           (node_in kConnectedWaitingParentResponse Node.default 100));
    vm_compute; first [reflexivity | discriminate].
Defined.

(** The parent refuses the sign-off: the node is connected again. *)
Lemma recv_admits_witness :
  let msg := MessageSignoffParentAnswer
               (header_of kSignOffParentAnswer (example_node 0 0) (example_node 1 0)) false in
  let s := node_in kConnectedWaitingParentResponse Node.default 100 in
  exists t algorithm,
    next kConnectedWaitingParentResponse (OnReceive (recv_event msg s)) = Some t /\ t <> kErrorState /\
    message_type_to_algorithm_map_ kSignOffParentAnswer = Some algorithm /\
    recv msg s = algorithm_process algorithm msg (node_in kConnected Node.default 100) /\
    node_in kConnected Node.default 100 = set_fsm (makeFSM kConnected) (set_replacing_node Node.default s).
Proof.
  intros msg s.
  exact (recv_admits msg s (node_in kConnected Node.default 100) eq_refl
           ltac:(vm_compute; reflexivity) ltac:(vm_compute; reflexivity)).
Defined.

Lemma setTimeout_length_witness :
  let s := node_in kConnected Node.default 65536 in
  setTimeout kJoinAcceptResponseTimeout s = (Ok tt, s) /\ configured_length kJoinAcceptResponseTimeout s <> 0.
Proof.
  split; [|vm_compute; discriminate].
  apply (setTimeout_length kJoinAcceptResponseTimeout (node_in kConnected Node.default 65536));
    [vm_compute; split; [discriminate|reflexivity] | by exists 1].
Defined.

Lemma cancelled_timeout_fires_witness :
  let s := node_in kWaitForJoinAccept Node.default 2500 in
  exists s' job valid,
    (setTimeout kJoinAcceptResponseTimeout;; cancelJob kJoinAcceptResponseTimeout) s = (Ok tt, s') /\
    job ∈ watchdog_ s' /\
    runCallback (job_function job) (set_fsm (makeFSM kConnected) s') =
    (Throw (FSMException_Timeout kConnected
              {| timeout_type := kJoinAcceptResponseTimeout; valid_bootstrap_response := valid |} "Invalid Action"),
     set_fsm (makeFSM kConnected) s').
Proof.
  apply (cancelled_timeout_fires kJoinAcceptResponseTimeout (node_in kWaitForJoinAccept Node.default 2500));
    [reflexivity | right; left | vm_compute; split; reflexivity].
Defined.

Lemma join_timeout_retries_witness :
  let s := node_in kWaitForJoinAccept Node.default 2500 in
  triggerTimeout kJoinAcceptResponseTimeout s =
    (Ok tt, set_watchdog [{| job_function := JoinAgain; job_milliseconds := 1000; job_type := kJoinRetry |}]
              (node_in kJoinFailed Node.default 2500)).
Proof.
  exact (proj1 (join_timeout_retries (node_in kWaitForJoinAccept Node.default 2500) eq_refl)).
Defined.

(** A root that is configured, asked to leave, and receives a message. *)
Definition example_root : outcome (MinhtonNode (LogicState := unit)) :=
  setConfig (String.list_ascii_of_string "127.0.0.1") 2000 true 2 (example_lengths 2500) tt.

Definition root_node : MinhtonNode (LogicState := unit) :=
  match example_root with Ok s => s | _ => node_in kIdle Node.default 0 end.

Lemma node_ready_invariant_witness :
  ready (recv (message_of kJoinAccept) (processSignal leaveNetwork root_node).2).2.
Proof.
  apply (node_ready_invariant root_node).
  - exists (String.list_ascii_of_string "127.0.0.1"), 2000, true, 2, (example_lengths 2500), tt.
    vm_compute. reflexivity.
  - eapply rtc_l; [apply (step_signal leaveNetwork)|]. apply rtc_once. apply step_recv.
Defined.

End Examples.
