(* ===== verification/Framing.v ===== *)
(** * Framing of messages on a TCP stream

    Model of [daisi/src/network_tcp/framing_manager.cpp]: a message is prefixed by its length in
    four bytes, the receiver cuts the stream, which arrives in arbitrary chunks, back into
    messages. A string is the list of its bytes, a byte a number below 256. *)

From S2P Require Import Prelude.

Abbreviation bytes := (list Z).

Definition size (msg : bytes) : Z := Z.of_nat (length msg).

Record InflightPacket := {
  packet : bytes;
  remaining_size : Z;
}.

Record FramingManager := {
  outstanding_packets_ : list bytes;
  inflight_ : option InflightPacket;
}.

Definition no_packets : FramingManager := {| outstanding_packets_ := []; inflight_ := None |}.

(** [htonl] and a [memcpy] of its four bytes: the number in network byte order. *)
Definition network_order (n : Z) : bytes :=
  [n / 2 ^ 24 mod 256; n / 2 ^ 16 mod 256; n / 2 ^ 8 mod 256; n mod 256].

Definition frameMsg (msg : bytes) : bytes := network_order (u32 (size msg)) ++ msg.

Definition DAISI_CHECK (req : bool) (what : string) : M FramingManager unit :=
  throw_if (negb req) (runtime_error what).

(** [memcpy(dst + at, src, n)] inside a string: undefined out of its bounds. *)
Definition memcpy_into (dst : bytes) (at_ : Z) (src : bytes) (n : Z) : outcome bytes :=
  if (at_ + n <=? size dst) && (n <=? size src)
  then Ok (take (Z.to_nat at_) dst ++ take (Z.to_nat n) src ++ drop (Z.to_nat (at_ + n)) dst)
  else Undefined.

(** [msg.data() + offset] *)
Definition data_at (msg : bytes) (offset : Z) : bytes := drop (Z.to_nat offset) msg.

Definition readPacket (msg : bytes) (next_offset : Z) : M FramingManager Z :=
  this ← get;
  match inflight_ this with
  | None => throw (runtime_error "No packet currently in processing state")
  | Some inflight =>
      let available := u64 (size msg - next_offset) in
      let read := Z.min available (remaining_size inflight) in
      DAISI_CHECK (u64 (next_offset + read) <=? size msg) "Read out of bounds of msg";;
      let current_pos := u32 (size (packet inflight) - remaining_size inflight) in
      copied ← lift (memcpy_into (packet inflight) current_pos (data_at msg next_offset) read);
      let remaining := u64 (remaining_size inflight - read) in
      (if remaining =? 0 then
         modify (fun s => {| outstanding_packets_ := outstanding_packets_ s ++ [copied]; inflight_ := None |})
       else
         modify (fun s => {| outstanding_packets_ := outstanding_packets_ s;
                             inflight_ := Some {| packet := copied; remaining_size := remaining |} |}));;
      mret (u32 (next_offset + read))
  end.

(** [ntohl] of the four bytes at the offset. *)
Definition readPacketSize (msg : bytes) (next_offset : Z) : M FramingManager Z :=
  DAISI_CHECK (u32 (next_offset + 4) <=? size msg)
    "Read out of bounds: Message splitted in length delimiter. Not supported yet!";;
  match data_at msg next_offset with
  | b0 :: b1 :: b2 :: b3 :: _ => mret (b0 * 2 ^ 24 + b1 * 2 ^ 16 + b2 * 2 ^ 8 + b3)
  | _ => lift Undefined
  end.

Definition handleNewPacket (msg : bytes) (next_offset : Z) : M FramingManager Z :=
  this ← get;
  DAISI_CHECK (match inflight_ this with None => true | Some _ => false end)
    "Previous packet not finished yet";;
  current_packet_size ← readPacketSize msg next_offset;
  modify (fun s =>
    {| outstanding_packets_ := outstanding_packets_ s;
       inflight_ := Some {| packet := replicate (Z.to_nat current_packet_size) 0;
                            remaining_size := current_packet_size |} |});;
  readPacket msg (u32 (next_offset + 4)).

(** The loop of [processNewData]. Every iteration consumes a byte at least, so that the size of
    the chunk is enough fuel ([framing_robust]). *)
Fixpoint data_loop (fuel : nat) (msg : bytes) (next : Z) : M FramingManager unit :=
  if next <? size msg then
    match fuel with
    | O => lift Undefined
    | S fuel' =>
        this ← get;
        next' ← (match inflight_ this with
                 | Some _ => readPacket msg (u32 next)
                 | None => handleNewPacket msg (u32 next)
                 end);
        data_loop fuel' msg next'
    end
  else mret tt.

Definition processNewData (msg : bytes) : M FramingManager unit := data_loop (length msg) msg 0.

Definition hasPackets (s : FramingManager) : bool :=
  match outstanding_packets_ s with [] => false | _ => true end.

Definition nextPacket : M FramingManager bytes :=
  this ← get;
  DAISI_CHECK (hasPackets this) "No packets available";;
  match outstanding_packets_ this with
  | msg :: rest =>
      modify (fun s => {| outstanding_packets_ := rest; inflight_ := inflight_ s |});; mret msg
  | [] => lift Undefined
  end.

(** The receive handler of [client.cpp]: process the chunk, then hand out the packets. *)
Fixpoint take_packets (fuel : nat) : M FramingManager (list bytes) :=
  this ← get;
  if hasPackets this then
    match fuel with
    | O => lift Undefined
    | S fuel' => msg ← nextPacket; rest ← take_packets fuel'; mret (msg :: rest)
    end
  else mret [].

Definition receive_chunk (chunk : bytes) : M FramingManager (list bytes) :=
  processNewData chunk;;
  n ← gets (fun s => length (outstanding_packets_ s));
  take_packets n.

Fixpoint receive_all (chunks : list bytes) : M FramingManager (list bytes) :=
  match chunks with
  | [] => mret []
  | chunk :: chunks' =>
      msgs ← receive_chunk chunk;
      rest ← receive_all chunks';
      mret (msgs ++ rest)
  end.

(** ** What the receiver has seen of the stream *)

Definition stream (msgs : list bytes) : bytes := concat (frameMsg <$> msgs).

(** Messages whose length fits the prefix. *)
Definition fits_prefix (m : bytes) : Prop := size m < 2 ^ 32.

(** [k] bytes of the payload [m] have arrived. *)
Definition in_packet (p : InflightPacket) (m : bytes) (k : nat) : Prop :=
  (k <= length m)%nat /\ length (packet p) = length m /\ take k (packet p) = take k m /\
  remaining_size p = Z.of_nat (length m - k).

(** The receiver has consumed [off] bytes of [stream msgs]. *)
Inductive waiting : option InflightPacket -> list bytes -> nat -> Prop :=
| waiting_new msgs : waiting None msgs 0
| waiting_rest p m k msgs : in_packet p m k -> (k < length m)%nat -> waiting (Some p) (m :: msgs) (4 + k).

(** A cut of the stream after [b] bytes goes through a length prefix. *)
Fixpoint splits_prefix (msgs : list bytes) (b : nat) : bool :=
  match msgs with
  | [] => false
  | m :: msgs' =>
      (Nat.ltb 0 b && Nat.ltb b 4) ||
      (Nat.leb (4 + length m) b && splits_prefix msgs' (b - (4 + length m)))
  end.

Lemma size_network_order n : length (network_order n) = 4%nat.
Proof. done. Qed.

Lemma length_frameMsg m : length (frameMsg m) = (4 + length m)%nat.
Proof. unfold frameMsg. by rewrite length_app. Qed.

Lemma stream_cons m msgs : stream (m :: msgs) = frameMsg m ++ stream msgs.
Proof. done. Qed.

Lemma drop_stream m k msgs :
  (k <= length m)%nat -> drop (4 + k) (stream (m :: msgs)) = drop k m ++ stream msgs.
Proof.
  intros Hk. rewrite stream_cons. unfold frameMsg. rewrite <- app_assoc.
  rewrite <- drop_drop. change (drop 4 (network_order (u32 (size m)) ++ m ++ stream msgs))
    with (m ++ stream msgs). by rewrite drop_app_le.
Qed.

Lemma splits_prefix_app done msgs b :
  splits_prefix (done ++ msgs) (length (stream done) + b) = splits_prefix msgs b.
Proof.
  induction done as [|m done IH]; [done|]. cbn [app splits_prefix]. rewrite <- IH.
  rewrite stream_cons, length_app, length_frameMsg.
  replace (4 + length m + length (stream done) + b - (4 + length m))%nat
    with (length (stream done) + b)%nat by lia.
  rewrite (proj2 (Nat.ltb_ge _ 4)) by lia. rewrite (proj2 (Nat.leb_le _ _)) by lia.
  by rewrite andb_false_r.
Qed.

(** A prefix that holds a number below 2^32 is read back. *)
Lemma network_order_value n : 0 <= n < 2 ^ 32 ->
  (n / 2 ^ 24 mod 256) * 2 ^ 24 + (n / 2 ^ 16 mod 256) * 2 ^ 16 + (n / 2 ^ 8 mod 256) * 2 ^ 8 + n mod 256 = n.
Proof.
  intros Hn. change (2 ^ 24) with (2 ^ 8 * 2 ^ 8 * 2 ^ 8). change (2 ^ 16) with (2 ^ 8 * 2 ^ 8).
  change 256 with (2 ^ 8). rewrite <- !Z.div_div by lia.
  assert (Hq : n / 2 ^ 8 / 2 ^ 8 / 2 ^ 8 < 2 ^ 8) by (rewrite !Z.div_div by lia; apply Z.div_lt_upper_bound; lia).
  assert (Hq0 : 0 <= n / 2 ^ 8 / 2 ^ 8 / 2 ^ 8) by (rewrite !Z.div_div by lia; apply Z.div_pos; lia).
  rewrite (Z.mod_small (n / 2 ^ 8 / 2 ^ 8 / 2 ^ 8)) by lia.
  pose proof (Z.div_mod n (2 ^ 8) ltac:(lia)) as H1.
  pose proof (Z.div_mod (n / 2 ^ 8) (2 ^ 8) ltac:(lia)) as H2.
  pose proof (Z.div_mod (n / 2 ^ 8 / 2 ^ 8) (2 ^ 8) ltac:(lia)) as H3.
  lia.
Qed.

(** The bytes copied so far are those of the message. *)
Lemma memcpy_in_packet p m k data tail r :
  in_packet p m k -> data `prefix_of` drop k m ++ tail ->
  (r <= length data)%nat -> (k + r <= length m)%nat ->
  exists copied, memcpy_into (packet p) (Z.of_nat k) data (Z.of_nat r) = Ok copied /\
    length copied = length m /\ take (k + r) copied = take (k + r) m.
Proof.
  intros (Hk & Hlen & Htake & _) [rest Hpre] Hr Hkr.
  exists (take k (packet p) ++ take r data ++ drop (k + r) (packet p)). split_and!.
  - unfold memcpy_into, size.
    rewrite (proj2 (Z.leb_le _ _)) by lia. rewrite (proj2 (Z.leb_le _ _)) by lia. cbn [andb].
    by rewrite !Nat2Z.id, <- Nat2Z.inj_add, Nat2Z.id.
  - rewrite !length_app, !length_take, length_drop. lia.
  - rewrite app_assoc, take_app_le by (rewrite length_app, !length_take; lia).
    rewrite take_ge by (rewrite length_app, !length_take; lia).
    rewrite Htake. assert (Hd : take r data = take r (drop k m)).
    { rewrite <- (take_app_le (drop k m) tail) by (rewrite length_drop; lia).
      rewrite Hpre. by rewrite take_app_le by lia. }
    rewrite Hd. by rewrite take_take_drop.
Qed.

(** ** One iteration *)

Section Chunk.
Context (msg : bytes).
Hypothesis msg_size : size msg < 2 ^ 32 - 4.

Lemma readPacket_spec s p m k next data tail :
  inflight_ s = Some p -> in_packet p m k -> fits_prefix m -> (next <= length msg)%nat ->
  drop next msg = data -> data `prefix_of` drop k m ++ tail ->
  exists s',
    readPacket msg (Z.of_nat next) s = (Ok (Z.of_nat (next + Nat.min (length data) (length m - k))), s') /\
    ((length m - k <= length data)%nat ->
     s' = {| outstanding_packets_ := outstanding_packets_ s ++ [m]; inflight_ := None |}) /\
    ((length data < length m - k)%nat ->
     exists p', s' = {| outstanding_packets_ := outstanding_packets_ s; inflight_ := Some p' |} /\
       in_packet p' m (k + length data)).
Proof.
  intros Hs Hp Hm Hnext Hdata Hpre. unfold fits_prefix in Hm. unfold size in Hm, msg_size.
  assert (Hlen : length data = (length msg - next)%nat) by (subst data; apply length_drop).
  set (r := Nat.min (length data) (length m - k)).
  destruct (memcpy_in_packet p m k data tail r Hp Hpre) as (copied & Hcopy & Hclen & Hctake);
    [lia | destruct Hp; lia |].
  destruct Hp as (Hk & Hplen & Htake & Hrem).
  unfold readPacket. rewrite bind_get, Hs, Hrem.
  assert (Hread : Z.min (u64 (size msg - Z.of_nat next)) (Z.of_nat (length m - k)) = Z.of_nat r).
  { unfold u64, size. rewrite Z.mod_small by lia. lia. }
  rewrite Hread. unfold DAISI_CHECK. rewrite bind_throw_if.
  assert (Hb : (u64 (Z.of_nat next + Z.of_nat r) <=? size msg) = true).
  { apply Z.leb_le. unfold u64, size. rewrite Z.mod_small by lia. lia. }
  rewrite Hb. cbn [negb]. rewrite bind_lift.
  assert (Hpos : u32 (size (packet p) - Z.of_nat (length m - k)) = Z.of_nat k).
  { unfold u32, size. rewrite Hplen, Z.mod_small by lia. lia. }
  rewrite Hpos. unfold data_at. rewrite Nat2Z.id, Hdata, Hcopy.
  assert (Hleft : u64 (Z.of_nat (length m - k) - Z.of_nat r) = Z.of_nat (length m - k - r)).
  { unfold u64. rewrite Z.mod_small by lia. lia. }
  rewrite Hleft.
  assert (Hout : u32 (Z.of_nat next + Z.of_nat r) = Z.of_nat (next + r)).
  { unfold u32. rewrite Z.mod_small by lia. lia. }
  destruct (Z.eqb_spec (Z.of_nat (length m - k - r)) 0) as [Hz|Hz].
  - eexists. split; [rewrite bind_modify, <- Hout; reflexivity|]. split; [|lia].
    intros _. do 2 f_equal.
    rewrite take_ge in Hctake by lia. rewrite take_ge in Hctake by lia. by rewrite Hctake.
  - eexists. split; [rewrite bind_modify, <- Hout; reflexivity|]. split; [lia|].
    intros Hlt. assert (Hr : r = length data) by lia. rewrite <- Hr.
    eexists. split; [reflexivity|]. unfold in_packet. cbn [packet remaining_size].
    split_and!; [lia|done|done|]. f_equal. lia.
Qed.

Lemma handleNewPacket_spec s m next data msgs :
  inflight_ s = None -> fits_prefix m -> (next <= length msg)%nat ->
  drop next msg = data -> data `prefix_of` stream (m :: msgs) -> (4 <= length data)%nat ->
  exists s',
    handleNewPacket msg (Z.of_nat next) s =
      (Ok (Z.of_nat (next + Nat.min (length data) (4 + length m))), s') /\
    ((4 + length m <= length data)%nat ->
     s' = {| outstanding_packets_ := outstanding_packets_ s ++ [m]; inflight_ := None |}) /\
    ((length data < 4 + length m)%nat ->
     exists p', s' = {| outstanding_packets_ := outstanding_packets_ s; inflight_ := Some p' |} /\
       in_packet p' m (length data - 4)).
Proof.
  intros Hs Hm Hnext Hdata Hpre H4.
  assert (Hlen : length data = (length msg - next)%nat) by (subst data; apply length_drop).
  assert (Hsz : u32 (size m) = size m).
  { apply u32_id. unfold in_u32, size. unfold fits_prefix, size in Hm. lia. }
  assert (Hdec : exists data', data = network_order (size m) ++ data' /\ data' `prefix_of` m ++ stream msgs).
  { rewrite stream_cons in Hpre. unfold frameMsg in Hpre. rewrite Hsz, <- app_assoc in Hpre.
    destruct Hpre as [tl Htl]. exists (drop 4 data).
    assert (E : take 4 data = network_order (size m)).
    { rewrite <- (take_app_le data tl) by lia. by rewrite <- Htl. }
    split; [by rewrite <- E, take_drop|]. exists tl.
    rewrite <- (drop_app_le data tl) by lia. by rewrite <- Htl. }
  destruct Hdec as (data' & -> & Hpre').
  unfold handleNewPacket. rewrite bind_get, Hs. unfold DAISI_CHECK. rewrite bind_throw_if. cbn [negb].
  assert (Hread : readPacketSize msg (Z.of_nat next) s = (Ok (size m), s)).
  { unfold readPacketSize, DAISI_CHECK. rewrite bind_throw_if.
    assert (Hb : (u32 (Z.of_nat next + 4) <=? size msg) = true).
    { apply Z.leb_le. unfold size, u32 in *. rewrite Z.mod_small by lia. lia. }
    rewrite Hb. cbn [negb]. unfold data_at. rewrite Nat2Z.id, Hdata. cbn [app network_order].
    rewrite network_order_value by (unfold size, fits_prefix in *; unfold size in Hm; lia). reflexivity. }
  mred. rewrite Hread. set (s1 := {| outstanding_packets_ := outstanding_packets_ s; inflight_ := _ |}).
  assert (Hnext4 : u32 (Z.of_nat next + 4) = Z.of_nat (next + 4)).
  { unfold u32, size in *. rewrite Z.mod_small by lia. lia. }
  rewrite Hnext4. rewrite length_app, size_network_order in *.
  destruct (readPacket_spec s1 {| packet := replicate (Z.to_nat (size m)) 0; remaining_size := size m |}
              m 0 (next + 4) data' (stream msgs)) as (s' & Hr & Hdone & Hmore).
  - done.
  - unfold in_packet, size. cbn [packet remaining_size]. rewrite length_replicate. split_and!; [lia|lia|done|lia].
  - done.
  - lia.
  - by rewrite <- drop_drop, Hdata.
  - done.
  - exists s'. rewrite Hr. split; [do 2 f_equal; lia|]. split.
    + intros. apply Hdone. lia.
    + intros. destruct Hmore as (p' & -> & Hp'); [lia|]. exists p'. split; [done|].
      by replace (4 + length data' - 4)%nat with (0 + length data')%nat by lia.
Qed.

End Chunk.

(** ** The loop over a chunk *)

Section Loop.
Context (msg : bytes).
Hypothesis msg_size : size msg < 2 ^ 32 - 4.

(** An iteration completes the current message or uses up the chunk. *)
Lemma iteration_spec s msgs off next data :
  waiting (inflight_ s) msgs off -> Forall fits_prefix msgs -> (next <= length msg)%nat ->
  drop next msg = data -> data <> [] -> data `prefix_of` drop off (stream msgs) ->
  splits_prefix msgs (off + length data) = false ->
  exists m msgs' s',
    msgs = m :: msgs' /\ (off < 4 + length m \/ off = 0)%nat /\
    (match inflight_ s with
     | Some _ => readPacket msg (u32 (Z.of_nat next))
     | None => handleNewPacket msg (u32 (Z.of_nat next))
     end) s = (Ok (Z.of_nat (next + Nat.min (length data) (4 + length m - off))), s') /\
    ((4 + length m - off <= length data)%nat ->
     s' = {| outstanding_packets_ := outstanding_packets_ s ++ [m]; inflight_ := None |}) /\
    ((length data < 4 + length m - off)%nat ->
     outstanding_packets_ s' = outstanding_packets_ s /\ waiting (inflight_ s') msgs (off + length data)).
Proof.
  intros Hw Hfit Hnext Hdata Hne Hpre Hsplit.
  assert (Hu : u32 (Z.of_nat next) = Z.of_nat next).
  { unfold u32, size in *. apply Z.mod_small. lia. }
  rewrite Hu. inversion Hw as [msgs0 Hi|p m k msgs' Hp Hk Hi]; subst msgs off; rewrite <- Hi in *.
  - destruct msgs0 as [|m msgs'].
    { rewrite drop_0 in Hpre. by apply prefix_nil_inv in Hpre. }
    apply Forall_cons in Hfit as [Hm _]. rewrite drop_0 in Hpre.
    assert (Hd : (0 < length data)%nat) by (destruct data; [done|cbn; lia]).
    assert (H4 : (4 <= length data)%nat).
    { cbn [splits_prefix] in Hsplit. apply orb_false_iff in Hsplit as [Hsplit _].
      rewrite Nat.add_0_l, (proj2 (Nat.ltb_lt 0 _)) in Hsplit by lia. cbn [andb] in Hsplit.
      by apply Nat.ltb_ge in Hsplit. }
    destruct (handleNewPacket_spec msg msg_size s m next data msgs') as (s' & Hr & Hdone & Hmore); [done..|].
    exists m, msgs', s'. rewrite Nat.sub_0_r. split_and!; [done|lia|done|done|].
    intros Hlt. destruct (Hmore Hlt) as (p' & -> & Hp'). split; [done|]. cbn [inflight_].
    rewrite Nat.add_0_l. replace (length data) with (4 + (length data - 4))%nat at 1 by lia.
    constructor; [done|lia].
  - apply Forall_cons in Hfit as [Hm _]. rewrite drop_stream in Hpre by lia.
    destruct (readPacket_spec msg msg_size s p m k next data (stream msgs')) as (s' & Hr & Hdone & Hmore); [done..|].
    exists m, msgs', s'. replace (4 + length m - (4 + k))%nat with (length m - k)%nat by lia.
    split_and!; [done|lia|done|done|].
    intros Hlt. destruct (Hmore Hlt) as (p' & -> & Hp'). split; [done|]. cbn [inflight_].
    replace (4 + k + length data)%nat with (4 + (k + length data))%nat by lia.
    constructor; [done|lia].
Qed.

Lemma data_loop_end fuel next s : (length msg <= next)%nat -> data_loop fuel msg (Z.of_nat next) s = (Ok tt, s).
Proof. intros Hn. unfold size. destruct fuel; cbn [data_loop]; unfold size; case_match; try done; lia. Qed.

Lemma data_loop_spec fuel : forall s msgs off next data rest,
  waiting (inflight_ s) msgs off -> Forall fits_prefix msgs -> (next <= length msg)%nat ->
  drop next msg = data -> (length data <= fuel)%nat ->
  drop off (stream msgs) = data ++ rest ->
  splits_prefix msgs (off + length data) = false ->
  exists done msgs' off' s',
    data_loop fuel msg (Z.of_nat next) s = (Ok tt, s') /\ msgs = done ++ msgs' /\
    outstanding_packets_ s' = outstanding_packets_ s ++ done /\ waiting (inflight_ s') msgs' off' /\
    (off + length data = length (stream done) + off')%nat.
Proof.
  induction fuel as [|fuel IH]; intros s msgs off next data rest Hw Hfit Hnext Hdata Hfuel Hstream Hsplit;
    assert (Hlen : length data = (length msg - next)%nat) by (subst data; apply length_drop).
  all: destruct (decide (data = [])) as [Hnil|Hne];
    [subst data; rewrite Hnil in *; exists [], msgs, off, s; cbn [length] in *;
     rewrite data_loop_end by lia; rewrite app_nil_r; split_and!; cbn; [done..|lia]|].
  { destruct data; [done|cbn in Hfuel; lia]. }
  destruct (iteration_spec s msgs off next data) as (m & msgs' & s1 & -> & Hoff & Hit & Hdone & Hmore);
    [done..|by exists rest|done|].
  cbn [data_loop]. rewrite (proj2 (Z.ltb_lt _ _)) by (unfold size; destruct data; [done|cbn in Hlen; lia]).
  rewrite bind_get. mred. rewrite Hit.
  destruct (Nat.le_gt_cases (4 + length m - off) (length data)) as [Hc|Hc].
  - rewrite (Nat.min_r _ _ Hc). set (n := (4 + length m - off)%nat) in *. specialize (Hdone Hc). subst s1.
    assert (Hn : (0 < n)%nat) by lia.
    assert (Hb : (off + length data = 4 + length m + (length data - n))%nat) by lia.
    destruct (IH {| outstanding_packets_ := outstanding_packets_ s ++ [m]; inflight_ := None |} msgs' 0%nat
                (next + n)%nat (drop n data) rest) as (done & msgs'' & off' & s' & Hl & -> & Ho & Hw' & Hcount).
    + constructor.
    + by apply Forall_cons in Hfit as [_ ?].
    + lia.
    + by rewrite <- drop_drop, Hdata.
    + rewrite length_drop. lia.
    + rewrite drop_0, <- drop_app_le by lia. rewrite <- Hstream, drop_drop.
      replace (off + n)%nat with (length (frameMsg m)) by (rewrite length_frameMsg; lia).
      by rewrite stream_cons, drop_app_length.
    + rewrite length_drop, Nat.add_0_l. rewrite Hb in Hsplit. cbn [splits_prefix] in Hsplit.
      apply orb_false_iff in Hsplit as [_ Hsplit].
      rewrite (proj2 (Nat.leb_le _ _)) in Hsplit by lia. cbn [andb] in Hsplit.
      by replace (4 + length m + (length data - n) - (4 + length m))%nat with (length data - n)%nat in Hsplit by lia.
    + exists (m :: done), msgs'', off', s'. rewrite length_drop in Hcount. cbn [outstanding_packets_] in Ho.
      split_and!; [done|done|by rewrite Ho, <- app_assoc|done|].
      rewrite stream_cons, length_app, length_frameMsg. lia.
  - rewrite Nat.min_l by lia. specialize (Hmore Hc) as [Ho Hw'].
    exists [], (m :: msgs'), (off + length data)%nat, s1. rewrite data_loop_end by lia.
    rewrite app_nil_r. split_and!; cbn; [done..|lia].
Qed.

End Loop.

(** ** The receiver *)

Lemma take_packets_spec n s : (length (outstanding_packets_ s) <= n)%nat ->
  take_packets n s = (Ok (outstanding_packets_ s), {| outstanding_packets_ := []; inflight_ := inflight_ s |}).
Proof.
  revert s. induction n as [|n IH]; intros [[|m ms] i] Hn; cbn in Hn; try lia; cbn [take_packets].
  1, 2: reflexivity.
  rewrite bind_get. cbn [hasPackets outstanding_packets_]. unfold nextPacket, DAISI_CHECK.
  mred. cbn [hasPackets outstanding_packets_ negb]. cbn [inflight_].
  rewrite IH by (cbn; lia). reflexivity.
Qed.

Lemma receive_chunk_spec chunk s msgs off rest :
  size chunk < 2 ^ 32 - 4 -> outstanding_packets_ s = [] ->
  waiting (inflight_ s) msgs off -> Forall fits_prefix msgs ->
  drop off (stream msgs) = chunk ++ rest -> splits_prefix msgs (off + length chunk) = false ->
  exists fin msgs' off' s',
    receive_chunk chunk s = (Ok fin, s') /\ msgs = fin ++ msgs' /\ outstanding_packets_ s' = [] /\
    waiting (inflight_ s') msgs' off' /\ (off + length chunk = length (stream fin) + off')%nat.
Proof.
  intros Hsize Hout Hw Hfit Hstream Hsplit.
  destruct (data_loop_spec chunk Hsize (length chunk) s msgs off 0 chunk rest)
    as (fin & msgs' & off' & s' & Hl & Hm & Ho & Hw' & Hc); [done..|lia|done|lia|done|done|].
  exists fin, msgs', off', {| outstanding_packets_ := []; inflight_ := inflight_ s' |}.
  unfold receive_chunk, processNewData. mred. change (Z.of_nat 0) with 0 in Hl. rewrite Hl.
  rewrite take_packets_spec by lia. rewrite Hout in Ho. cbn in Ho. by rewrite Ho.
Qed.

(** Everything sent has arrived: nothing is left to wait for. *)
Lemma waiting_end i msgs off :
  waiting i msgs off -> drop off (stream msgs) = [] -> i = None /\ msgs = [].
Proof.
  intros Hw Hnil. apply (f_equal length) in Hnil. rewrite length_drop in Hnil. cbn in Hnil.
  destruct Hw as [[|m msgs]|p m k msgs Hp Hk]; [done|..]; exfalso;
    rewrite stream_cons, length_app, length_frameMsg in Hnil; lia.
Qed.

Lemma receive_all_spec chunks : forall s msgs off,
  Forall (fun chunk => size chunk < 2 ^ 32 - 4) chunks -> outstanding_packets_ s = [] ->
  waiting (inflight_ s) msgs off -> Forall fits_prefix msgs ->
  drop off (stream msgs) = concat chunks ->
  (forall k, splits_prefix msgs (off + length (concat (take k chunks))) = false) ->
  receive_all chunks s = (Ok msgs, no_packets).
Proof.
  induction chunks as [|chunk chunks IH]; intros s msgs off Hsize Hout Hw Hfit Hstream Hcuts.
  { apply waiting_end in Hw as [Hi ->]; [|done]. destruct s. cbn in *. by subst. }
  apply Forall_cons in Hsize as [Hsize Hsizes].
  destruct (receive_chunk_spec chunk s msgs off (concat chunks))
    as (fin & msgs' & off' & s' & Hr & -> & Ho & Hw' & Hc); [done..| |].
  { specialize (Hcuts 1%nat). cbn in Hcuts. by rewrite take_0, app_nil_r in Hcuts. }
  cbn [receive_all]. mred. rewrite Hr. rewrite (IH s' msgs' off'); [done|done|done|done|..].
  - by apply Forall_app in Hfit as [_ ?].
  - apply (f_equal (drop (length chunk))) in Hstream. cbn [concat] in Hstream.
    rewrite drop_drop, Hc, drop_app_length in Hstream. rewrite <- Hstream.
    unfold stream. rewrite fmap_app, concat_app. fold (stream fin). by rewrite <- drop_drop, drop_app_length.
  - intros k. rewrite <- (splits_prefix_app fin). specialize (Hcuts (S k)). cbn [take concat] in Hcuts.
    rewrite length_app in Hcuts. rewrite <- Hcuts. f_equal. lia.
Qed.

(** C36: messages survive the stream: when any sequence of messages shorter than 2^32 bytes is
    framed (the prefix has 32 bits, to which the length is truncated), the bytes arrive in chunks
    of less than 2^32 - 4 bytes cut anywhere but inside a length prefix, and the packets are taken
    out after each chunk, the receiver gets exactly those messages in order, throws nothing, and
    is back in its initial state. *)
Theorem framing_roundtrip msgs chunks :
  Forall fits_prefix msgs -> Forall (fun chunk => size chunk < 2 ^ 32 - 4) chunks ->
  concat chunks = stream msgs ->
  (forall k, splits_prefix msgs (length (concat (take k chunks))) = false) ->
  receive_all chunks no_packets = (Ok msgs, no_packets).
Proof.
  intros Hfit Hsize Hstream Hcuts. apply (receive_all_spec chunks no_packets msgs 0); try done.
  constructor.
Qed.

(** Three messages, one of them empty, cut between two payload bytes and after a prefix. *)
Lemma framing_roundtrip_witness :
  let msgs := [[1; 2; 3]; []; [7; 8]] in
  let chunks := [[0; 0; 0; 3; 1]; [2; 3; 0; 0; 0; 0]; [0; 0; 0; 2]; [7; 8]] in
  receive_all chunks no_packets = (Ok msgs, no_packets).
Proof.
  apply (framing_roundtrip [[1; 2; 3]; []; [7; 8]]
           [[0; 0; 0; 3; 1]; [2; 3; 0; 0; 0; 0]; [0; 0; 0; 2]; [7; 8]]).
  - repeat constructor.
  - repeat constructor.
  - reflexivity.
  - intros [|[|[|[|[|k]]]]]; reflexivity.
Defined.

(** A chunk that ends inside a length prefix is refused: [processNewData] raises a runtime
    error when no packet is in progress and fewer than four bytes of the prefix arrive. The
    manager is unchanged and those bytes are lost to it. *)
Theorem framing_split_prefix m msgs j s :
  inflight_ s = None -> (0 < j < 4)%nat ->
  processNewData (take j (stream (m :: msgs))) s =
  (Throw (runtime_error "Read out of bounds: Message splitted in length delimiter. Not supported yet!"), s).
Proof.
  intros Hs Hj. unfold processNewData.
  assert (Hlen : length (take j (stream (m :: msgs))) = j).
  { rewrite length_take, stream_cons, length_app, length_frameMsg. lia. }
  rewrite Hlen. destruct j as [|j]; [lia|]. cbn [data_loop].
  rewrite (proj2 (Z.ltb_lt _ _)) by (unfold size; lia). rewrite bind_get, Hs.
  unfold handleNewPacket, DAISI_CHECK. mred. rewrite Hs. cbn [negb].
  unfold readPacketSize, DAISI_CHECK. rewrite bind_throw_if.
  rewrite (proj2 (Z.leb_gt _ _)); [done|]. unfold size. rewrite Hlen.
  change (u32 (u32 0 + 4)) with 4. lia.
Qed.

Lemma framing_split_prefix_witness :
  exists e, processNewData [0; 0] no_packets = (Throw e, no_packets).
Proof. eexists. apply (framing_split_prefix [9; 9] [] 2 no_packets); [reflexivity|lia]. Defined.

(** ** Arbitrary input *)

Definition is_byte (b : Z) : Prop := 0 <= b < 256.

(** A packet in progress is not complete and fits 32 bits. *)
Definition progress_ok (s : FramingManager) : Prop :=
  match inflight_ s with
  | None => True
  | Some p => 0 < remaining_size p <= size (packet p) /\ size (packet p) < 2 ^ 32
  end.

Section Robust.
Context (msg : bytes).
Hypothesis msg_size : size msg < 2 ^ 32 - 4.
Hypothesis msg_bytes : Forall is_byte msg.

Lemma readPacket_safe s p next :
  inflight_ s = Some p -> 0 <= remaining_size p <= size (packet p) -> size (packet p) < 2 ^ 32 ->
  0 <= next <= size msg ->
  exists s', readPacket msg next s = (Ok (next + Z.min (size msg - next) (remaining_size p)), s') /\ progress_ok s'.
Proof.
  intros Hs Hrem Hpk Hnext. unfold readPacket. rewrite bind_get, Hs.
  assert (Hav : u64 (size msg - next) = size msg - next) by (unfold u64; apply Z.mod_small; lia).
  rewrite Hav. set (r := Z.min (size msg - next) (remaining_size p)).
  unfold DAISI_CHECK. rewrite bind_throw_if.
  assert (Hb : (u64 (next + r) <=? size msg) = true) by (unfold u64; rewrite Z.mod_small; lia).
  rewrite Hb. cbn [negb]. rewrite bind_lift. unfold memcpy_into.
  assert (Hpos : u32 (size (packet p) - remaining_size p) = size (packet p) - remaining_size p)
    by (unfold u32; apply Z.mod_small; lia).
  rewrite Hpos, (proj2 (Z.leb_le _ _)) by lia.
  assert (Hdata : size (data_at msg next) = size msg - next).
  { unfold data_at, size. rewrite length_drop. unfold size in Hnext. lia. }
  rewrite Hdata, (proj2 (Z.leb_le _ _)) by lia. cbn [andb].
  assert (Hleft : u64 (remaining_size p - r) = remaining_size p - r) by (unfold u64; apply Z.mod_small; lia).
  assert (Hout : u32 (next + r) = next + r) by (unfold u32; apply Z.mod_small; lia).
  rewrite Hleft. destruct (Z.eqb_spec (remaining_size p - r) 0) as [Hz|Hz];
    eexists; (split; [rewrite bind_modify; mred; rewrite Hout; reflexivity|]); [done|].
  unfold progress_ok. cbn [inflight_ packet remaining_size].
  unfold size in *. rewrite !length_app, !length_take, length_drop.
  split; lia.
Qed.

Lemma handleNewPacket_safe s next :
  inflight_ s = None -> 0 <= next < size msg ->
  (exists e, handleNewPacket msg next s = (Throw (runtime_error e), s)) \/
  (exists next' s', handleNewPacket msg next s = (Ok next', s') /\ next < next' <= size msg /\ progress_ok s').
Proof.
  intros Hs Hnext. unfold handleNewPacket. rewrite bind_get, Hs. unfold DAISI_CHECK. rewrite bind_throw_if.
  cbn [negb]. unfold readPacketSize, DAISI_CHECK. mred.
  assert (H4 : u32 (next + 4) = next + 4) by (unfold u32; apply Z.mod_small; lia).
  rewrite !H4. destruct (Z.leb_spec (next + 4) (size msg)) as [Hle|Hgt]; cbn [negb]; [right|left; by eexists].
  assert (Hlen : (4 <= length (data_at msg next))%nat).
  { unfold data_at, size in *. rewrite length_drop. lia. }
  assert (Hbytes : Forall is_byte (data_at msg next)) by (by apply Forall_drop).
  destruct (data_at msg next) as [|b0 [|b1 [|b2 [|b3 l]]]]; cbn [length] in Hlen; try lia.
  apply Forall_cons in Hbytes as [B0 Hbytes]. apply Forall_cons in Hbytes as [B1 Hbytes].
  apply Forall_cons in Hbytes as [B2 Hbytes]. apply Forall_cons in Hbytes as [B3 _]. unfold is_byte in *.
  set (n := b0 * 2 ^ 24 + b1 * 2 ^ 16 + b2 * 2 ^ 8 + b3). assert (Hn : 0 <= n < 2 ^ 32) by lia.
  set (s1 := {| outstanding_packets_ := outstanding_packets_ s; inflight_ := _ |}).
  assert (Hsize : size (replicate (Z.to_nat n) 0) = n) by (unfold size; rewrite length_replicate; lia).
  destruct (readPacket_safe s1 {| packet := replicate (Z.to_nat n) 0; remaining_size := n |} (next + 4))
    as (s' & -> & Hok); [done|cbn; lia|cbn; lia|lia|].
  eexists _, s'. split; [reflexivity|]. split; [|done]. cbn [remaining_size]. lia.
Qed.

Lemma data_loop_safe fuel : forall s next,
  progress_ok s -> 0 <= next <= size msg -> size msg - next <= Z.of_nat fuel ->
  exists s', (data_loop fuel msg next s = (Ok tt, s') \/
              exists e, data_loop fuel msg next s = (Throw (runtime_error e), s')) /\ progress_ok s'.
Proof.
  induction fuel as [|fuel IH]; intros s next Hok Hnext Hfuel; cbn [data_loop];
    destruct (Z.ltb_spec next (size msg)) as [Hlt|Hge]; [lia|exists s; by split; [left|]| |exists s; by split; [left|]].
  rewrite bind_get. assert (Hu : u32 next = next) by (unfold u32; apply Z.mod_small; lia).
  rewrite Hu. mred. destruct (inflight_ s) as [p|] eqn:Hs.
  - unfold progress_ok in Hok. rewrite Hs in Hok.
    destruct (readPacket_safe s p next) as (s1 & -> & Hok1); [done|lia..|]. apply IH; [done|lia|lia].
  - destruct (handleNewPacket_safe s next) as [[e ->]|(next' & s1 & -> & Hn & Hok1)]; [done|lia|..].
    + exists s. split; [right; by exists e|done].
    + apply IH; [done|lia|lia].
Qed.

End Robust.

(** Whatever bytes arrive, [processNewData] terminates without undefined behaviour: no copy
    leaves the bounds of a string, the size of the chunk bounds the iterations of its loop,
    the only exception is a runtime error, and an unfinished packet is left with what it is
    still missing. This carries over from chunk to chunk. *)
Theorem framing_robust msg s :
  size msg < 2 ^ 32 - 4 -> Forall is_byte msg -> progress_ok s ->
  exists s', (processNewData msg s = (Ok tt, s') \/
              exists e, processNewData msg s = (Throw (runtime_error e), s')) /\ progress_ok s'.
Proof.
  intros Hsize Hbytes Hok. apply data_loop_safe; [done..| |]; unfold size; lia.
Qed.

Lemma framing_robust_witness :
  let s := (processNewData [0; 0; 0; 3; 1] no_packets).2 in
  exists s', (processNewData [2; 3; 0; 0] s = (Ok tt, s') \/
              exists e, processNewData [2; 3; 0; 0] s = (Throw (runtime_error e), s')) /\ progress_ok s'.
Proof.
  apply (framing_robust [2; 3; 0; 0] (processNewData [0; 0; 0; 3; 1] no_packets).2);
    [reflexivity | repeat constructor; discriminate | vm_compute; intuition discriminate].
Defined.
