(* ===== verification/Access.v ===== *)
(** * What the algorithms share

    Model of [minhton/core/access_container.h] and [algorithms/algorithm_interface.h]: the
    state the algorithms of a node keep beside its routing information, one record per
    algorithm, and the functions through which they reach the node. Closures handed to
    [wait_for_acks] are data. An [assert] that fails is undefined behaviour of the model. The
    state and the values of the entity search are opaque. *)

From S2P Require Import Prelude RoutingCalculations NodeInfo RoutingInformation ProcedureInfo Message Fsm MinhtonNode.

Class SearchTypes := {
  FindQuery : Type;
  Attribute : Type;
  FindResultPromise : Type;
  EntitySearchState : Type;
}.

(** [solanet::generateUUID], of which the first eight bytes are used: a step of a random
    generator. *)
Class Uuids := { generateUUID : Z -> Z * Z }.

(** The functions passed to [wait_for_acks]. *)
Inductive AckCallback :=
| Join_allUpdatesAcknowledged
| Leave_processUpdateForwardAck
| Leave_processRemoveNeighborAck
| Leave_processReceiveSignoffNeighborAdjacentsAck
| Leave_processReceiveReplacementUpdateAck.

#[export] Instance AckCallback_eq_dec : EqDecision AckCallback.
Proof. solve_decision. Defined.

(** The members of [ResponseAlgorithmGeneral]; the empty [cb_] is [None]. *)
Record ResponseState := {
  acks_number_ : Z;
  cb_ : option AckCallback;
}.

(** The members of [LeaveAlgorithmGeneral]. Of the two messages it keeps only the headers are
    ever read. *)
Record LeaveState := {
  replaced_by_us_ : NodeInfo;
  leaving_event_id_ : Z;
  in_leave_progress_ : bool;
  locked_right_neighbor_ : bool;
  locked_left_neighbor_ : bool;
  remaining_lock_neighbor_response_ : Z;
  current_signoff_request_ : option MinhtonMessageHeader;
  last_replacement_update_ : option MinhtonMessageHeader;
  old_parent_ : NodeInfo;
}.

#[export] Instance ResponseState_eq_dec : EqDecision ResponseState.
Proof. solve_decision. Defined.
#[export] Instance LeaveState_eq_dec : EqDecision LeaveState.
Proof. solve_decision. Defined.

Definition set_replaced_by_us v (l : LeaveState) :=
  let '(Build_LeaveState _ b c d e f g h i) := l in Build_LeaveState v b c d e f g h i.
Definition set_leaving_event_id v (l : LeaveState) :=
  let '(Build_LeaveState a _ c d e f g h i) := l in Build_LeaveState a v c d e f g h i.
Definition set_in_leave_progress v (l : LeaveState) :=
  let '(Build_LeaveState a b _ d e f g h i) := l in Build_LeaveState a b v d e f g h i.
Definition set_locked_right v (l : LeaveState) :=
  let '(Build_LeaveState a b c _ e f g h i) := l in Build_LeaveState a b c v e f g h i.
Definition set_locked_left v (l : LeaveState) :=
  let '(Build_LeaveState a b c d _ f g h i) := l in Build_LeaveState a b c d v f g h i.
Definition set_remaining_lock v (l : LeaveState) :=
  let '(Build_LeaveState a b c d e _ g h i) := l in Build_LeaveState a b c d e v g h i.
Definition set_current_signoff v (l : LeaveState) :=
  let '(Build_LeaveState a b c d e f _ h i) := l in Build_LeaveState a b c d e f v h i.
Definition set_last_update v (l : LeaveState) :=
  let '(Build_LeaveState a b c d e f g _ i) := l in Build_LeaveState a b c d e f g v i.
Definition set_old_parent v (l : LeaveState) :=
  let '(Build_LeaveState a b c d e f g h _) := l in Build_LeaveState a b c d e f g h v.

Section Access.
Context `{Payloads} `{SearchTypes}.

(** [node_locked] and [procedure_info] of the access container, the generator of event ids, and
    the state of each algorithm: [last_join_info_] of the join algorithm and
    [bootstrap_response_senders_] of the bootstrap algorithm are their only members. *)
Record LogicState := {
  procedure_info_ : ProcedureInfo FindQuery Attribute FindResultPromise;
  node_locked : bool;
  uuid_source_ : Z;
  last_join_info_ : PhysicalNodeInfo;
  response_ : ResponseState;
  bootstrap_response_senders_ : list NodeInfo;
  leave_ : LeaveState;
  search_ : EntitySearchState;
}.

Definition set_procedure_info v (l : LogicState) :=
  let '(Build_LogicState _ b c d e f g h) := l in Build_LogicState v b c d e f g h.
Definition set_node_locked v (l : LogicState) :=
  let '(Build_LogicState a _ c d e f g h) := l in Build_LogicState a v c d e f g h.
Definition set_uuid_source v (l : LogicState) :=
  let '(Build_LogicState a b _ d e f g h) := l in Build_LogicState a b v d e f g h.
Definition set_last_join_info v (l : LogicState) :=
  let '(Build_LogicState a b c _ e f g h) := l in Build_LogicState a b c v e f g h.
Definition set_response v (l : LogicState) :=
  let '(Build_LogicState a b c d _ f g h) := l in Build_LogicState a b c d v f g h.
Definition set_bootstrap v (l : LogicState) :=
  let '(Build_LogicState a b c d e _ g h) := l in Build_LogicState a b c d e v g h.
Definition set_leave v (l : LogicState) :=
  let '(Build_LogicState a b c d e f _ h) := l in Build_LogicState a b c d e f v h.
Definition set_search v (l : LogicState) :=
  let '(Build_LogicState a b c d e f g _) := l in Build_LogicState a b c d e f g v.

(** The algorithms as they are constructed. *)
Definition initial_LeaveState : LeaveState :=
  {| replaced_by_us_ := Node.default; leaving_event_id_ := 0; in_leave_progress_ := false;
     locked_right_neighbor_ := false; locked_left_neighbor_ := false;
     remaining_lock_neighbor_response_ := 0; current_signoff_request_ := None;
     last_replacement_update_ := None; old_parent_ := Node.default |}.

Definition initial_LogicState (seed : Z) (search : EntitySearchState) : LogicState :=
  {| procedure_info_ := empty_ProcedureInfo; node_locked := false; uuid_source_ := seed;
     last_join_info_ := Physical.default; response_ := {| acks_number_ := 0; cb_ := None |};
     bootstrap_response_senders_ := []; leave_ := initial_LeaveState; search_ := search |}.

Abbreviation MNode := (MinhtonNode (LogicState := LogicState)).

Definition set_logic (v : LogicState) (s : MNode) : MNode :=
  let '(Build_MinhtonNode f r n t w o _) := s in Build_MinhtonNode f r n t w o v.

(** ** The functions of the access container *)

Definition getSelfNodeInfo : M MNode NodeInfo := gets getNodeInfo.

(** [getRoutingInfo()->f()] for a function that changes the routing information, and for one
    that does not. *)
Definition routing {A} (f : RI A) : M MNode A := zoom routing_info_ set_routing_info f.
Definition ask {A} (f : RoutingInformation -> outcome A) : M MNode A := fun s => (f (routing_info_ s), s).

Definition modify_logic (f : LogicState -> LogicState) : M MNode unit :=
  modify (fun s => set_logic (f (logic_ s)) s).
Definition gets_logic {A} (f : LogicState -> A) : M MNode A := gets (fun s => f (logic_ s)).
Definition modify_leave (f : LeaveState -> LeaveState) : M MNode unit :=
  modify_logic (fun l => set_leave (f (leave_ l)) l).
Definition gets_leave {A} (f : LeaveState -> A) : M MNode A := gets_logic (fun l => f (leave_ l)).
Definition lock (locked : bool) : M MNode unit := modify_logic (set_node_locked locked).

(** [access_->procedure_info->f()] *)
Definition procedure {A} (f : M (ProcedureInfo FindQuery Attribute FindResultPromise) A) : M MNode A :=
  zoom (fun s => procedure_info_ (logic_ s)) (fun p s => set_logic (set_procedure_info p (logic_ s)) s) f.
Definition hasProcedure (key : ProcedureKey) : M MNode bool :=
  gets (fun s => hasKey key (procedure_info_ (logic_ s))).

Definition assertion (b : bool) : M MNode unit := if b then mret tt else lift Undefined.

Definition set_new_fsm (fsm : FiniteStateMachine) : M MNode unit := modify (set_fsm fsm).

(** [for (x : l) count += f(x);] in 32 bits *)
Fixpoint sum_each {A} (l : list A) (f : A -> M MNode Z) : M MNode Z :=
  match l with
  | [] => mret 0
  | x :: l' => n ← f x; m ← sum_each l' f; mret (u32 (n + m))
  end.

Section Headers.
Context `{Uuids}.

Definition freshId : M MNode Z :=
  source ← gets_logic uuid_source_;
  let '(id, source') := generateUUID source in
  modify_logic (set_uuid_source source');;
  mret (u64 id).

(** [MinhtonMessageHeader header(sender, target, ref_event_id)] *)
Definition newHeader (sender target : NodeInfo) (ref_event_id : Z) : M MNode MinhtonMessageHeader :=
  id ← freshId;
  mret (Header.make sender target ref_event_id id).

(** ... with the node itself as the sender. *)
Definition headerTo (target : NodeInfo) (ref_event_id : Z) : M MNode MinhtonMessageHeader :=
  self ← getSelfNodeInfo;
  newHeader self target ref_event_id.

(** [header.setRefEventId(id)] *)
Definition withRefEventId (id : Z) (header : MinhtonMessageHeader) : M MNode MinhtonMessageHeader :=
  lift (Logical.construct header (Header.setRefEventId id)).

End Headers.

End Access.

Abbreviation MNode := (MinhtonNode (LogicState := LogicState)).
