(* ===== verification/FindEnd.v ===== *)
(** * Finding the end of the tree

    Model of [algorithms/find_end/minhton_find_end_algorithm_helper.cpp]: how a request to
    join ([join_] is true) or to find a replacement is handed from node to node until it
    reaches the parent of the first free or of the last occupied position. *)

From S2P Require Import Prelude RoutingCalculations NodeInfo RoutingInformation ProcedureInfo Message Fsm MinhtonNode Access.

Definition kMaxHopCount : Z := 64.

Section FindEnd.
Context `{Platform} `{Inet} `{UuidText} `{Payloads} `{SearchTypes} `{Uuids}.
Variable join_ : bool.

Definition forwardRequest (target request_origin : NodeInfo) (search_progress : SearchProgress)
    (hop_count : Z) : M MNode unit :=
  let new_hop_count := u16 (hop_count + 1) in
  throw_if (kMaxHopCount <? new_hop_count)
    (runtime_error "MINHTON message to be forwarded exceeds max hop count");;
  header ← headerTo target 0;
  if join_ then
    ref_event_id ← procedure (loadEventId kJoinProcedure);
    header ← withRefEventId ref_event_id header;
    msg_to_forward ← lift (makeJoin header request_origin search_progress new_hop_count);
    send msg_to_forward;;
    procedure (removeEventId kJoinProcedure)
  else
    has_key ← hasProcedure kLeaveProcedure;
    ref_event_id ← (if (has_key : bool) then procedure (loadEventId kLeaveProcedure) else mret 0);
    header ← (if negb (ref_event_id =? 0) then withRefEventId ref_event_id header else mret header);
    msg_to_forward ← lift (makeFindReplacement header request_origin search_progress new_hop_count);
    send msg_to_forward;;
    if ref_event_id =? 0 then
      procedure (saveEventId kLeaveProcedure (event_id_ (getHeader msg_to_forward)))
    else mret tt.

(** The comparison is made on [double]s: the capacity of the level is a power that is exact
    below 2^53, and any larger one is above every number. *)
Definition inLeftHalf (self : NodeInfo) : bool :=
  2 * u32 (Node.getNumber self + 1) <? Node.getFanout self ^ Node.getLevel self.

Definition forwardToAdjacentNode (request_origin : NodeInfo) (hop_count : Z) : M MNode unit :=
  self ← getSelfNodeInfo;
  target ← (if inLeftHalf self then gets (fun s => adjacent_right_ (routing_info_ s))
            else gets (fun s => adjacent_left_ (routing_info_ s)));
  throw_if (negb (Node.isInitialized target)) (logic_error "Adjacent node isn't initialized");;
  forwardRequest target request_origin kNone hop_count.

Definition isCorrectParent (r : RoutingInformation) : outcome bool :=
  left_neighbors ← getLeftRoutingTableNeighborsLeftToRight r;
  own_criteria ←
    (if join_ then mret (negb (areChildrenFull r))
     else
       let has_children := negb (bool_decide (getInitializedChildren r = [])) in
       right_neighbor_children ← getRightRoutingTableNeighborChildrenLeftToRight r;
       let no_right_neighbor_children :=
         match right_neighbor_children with
         | [] => true
         | front :: _ => negb (Node.isInitialized front)
         end in
       mret (has_children && no_right_neighbor_children));
  if bool_decide (left_neighbors = []) then mret own_criteria
  else
    children_left_side ← getLeftRoutingTableNeighborChildrenLeftToRight r;
    match last children_left_side with
    | Some last_child_left_side =>
        if Node.isInitialized last_child_left_side then mret own_criteria else mret false
    | None => mret false
    end.

Definition isRightmostPossibleNode (node : NodeInfo) : bool :=
  (Node.getNumber node =? Node.getFanout node ^ Node.getLevel node - 1) && Node.isInitialized node.

(** The loop of [findReachableNodeClosestToParent]. The number falls by the fanout in every
    round; once it has wrapped around it is no number of the level any more and [calcParent]
    throws. *)
Fixpoint closestParentLoop (fuel : nat) (level child_number fanout : Z) (r : RoutingInformation)
    : outcome NodeInfo :=
  match fuel with
  | O => Undefined
  | S fuel' =>
      parent ← calcParent level child_number fanout;
      last_known_null_node ← getNodeInfoByPosition parent.1 parent.2 r;
      if negb (Node.isInitialized last_known_null_node)
      then closestParentLoop fuel' level (u32 (child_number - fanout)) fanout r
      else mret last_known_null_node
  end.

Definition findReachableNodeClosestToParent (child : NodeInfo) (r : RoutingInformation) : outcome NodeInfo :=
  let fanout := Node.getFanout (self_node_info_ r) in
  (* [%] by zero *)
  if join_ && (fanout =? 0) then Undefined
  else
    let actual_target_is_on_the_right := join_ && (u32 (Node.getNumber child + 1) mod fanout =? 0) in
    let child_number := u32 (Node.getNumber child + (if actual_target_is_on_the_right then 1 else 0)) in
    closestParentLoop (Z.to_nat (child_number / fanout + 2)) (Node.getLevel child) child_number fanout r.

(** [static_cast<SearchProgress>(left_side)] *)
Definition searchSide (left_side : bool) : SearchProgress := if left_side then kSearchLeft else kSearchRight.

Definition searchEndOnLevel (request_origin : NodeInfo) (left_side : bool) (hop_count : Z) : M MNode unit :=
  chosen_side_init ← (if left_side then ask getAllInitializedLeftRoutingTableNeighborsAndChildren
                      else ask getAllInitializedRightRoutingTableNeighborsAndChildren);
  match last chosen_side_init, head chosen_side_init with
  | Some last_child, Some front =>
      self ← getSelfNodeInfo;
      if Node.getLevel last_child =? Node.getLevel self then
        if negb join_ && negb left_side then mret tt
        else forwardRequest front request_origin (searchSide left_side) hop_count
      else
        closest_node_to_parent ← ask (findReachableNodeClosestToParent last_child);
        forwardRequest closest_node_to_parent request_origin kSearchRight hop_count
  | _, _ =>
      throw_if join_ (logic_error "Position at the edge should be covered by other code parts");;
      if negb left_side then mret tt
      else
        parent ← gets (fun s => parent_ (routing_info_ s));
        forwardRequest parent request_origin kSearchRight hop_count
  end.

Definition checkRight (request_origin : NodeInfo) (hop_count : Z) : M MNode unit :=
  rightmost_neighbor ← ask getRightmostNeighbor;
  throw_if (negb (Node.isValidPeer rightmost_neighbor))
    (logic_error "Position at the right edge should be covered before we get there");;
  if Node.isInitialized rightmost_neighbor then
    if isRightmostPossibleNode rightmost_neighbor then searchEndOnLevel request_origin true hop_count
    else forwardRequest rightmost_neighbor request_origin kCheckRight hop_count
  else
    parent ← gets (fun s => parent_ (routing_info_ s));
    forwardRequest parent request_origin kSearchRight hop_count.

(** The part of [decideNextStep] behind the look at the left neighbours. *)
Definition decideRight (request_origin : NodeInfo) (hop_count : Z) : M MNode bool :=
  rightmost_neighbor ← ask getRightmostNeighbor;
  if Node.isValidPeer rightmost_neighbor then
    if negb (Node.isInitialized rightmost_neighbor) then
      parent ← gets (fun s => parent_ (routing_info_ s));
      forwardRequest parent request_origin kSearchRight hop_count;;
      mret false
    else if isRightmostPossibleNode rightmost_neighbor then
      correct ← ask isCorrectParent;
      if (correct : bool) then mret true
      else
        search_on_left_side ← gets (fun s => negb (areChildrenFull (routing_info_ s)));
        searchEndOnLevel request_origin search_on_left_side hop_count;;
        mret false
    else
      forwardRequest rightmost_neighbor request_origin kCheckRight hop_count;;
      mret false
  else
    correct ← ask isCorrectParent;
    if (correct : bool) then mret true
    else searchEndOnLevel request_origin true hop_count;; mret false.

Definition decideNextStep (request_origin : NodeInfo) (hop_count : Z) : M MNode bool :=
  leftmost_neighbor_child ← ask getLeftmostNeighborChild;
  if Node.isValidPeer leftmost_neighbor_child then
    correct ← ask isCorrectParent;
    if (correct : bool) then mret true
    else if Node.isInitialized leftmost_neighbor_child then
      searchEndOnLevel request_origin true hop_count;; mret false
    else decideRight request_origin hop_count
  else decideRight request_origin hop_count.

End FindEnd.
