(* ===== verification/SearchExact.v ===== *)
(** * Exact search

    Model of [algorithms/search_exact/search_exact_algorithm_general.cpp] and
    [minhton_search_exact_algorithm.cpp]: a message for a node whose address is not known is
    handed, inside a SEARCH_EXACT message, to the known node that is closest to the
    destination on the tree's projection to a line. *)

From S2P Require Import Prelude RoutingCalculations TreeMapper NodeInfo RoutingInformation Message Fsm MinhtonNode Access.
From Stdlib Require Import Floats.SpecFloat.

Definition d_abs : double -> double := SFabs.

Section Search.
Context `{Platform} `{Inet} `{UuidText} `{Payloads} `{SearchTypes} `{Uuids}.
(** [access_->recv] *)
Variable recv : MessageVariant -> M MNode unit.

(** One iteration of the loop over the neighbours. *)
Definition closer_link (dest_value : double) (best : double * NodeInfo) (link : NodeInfo) : double * NodeInfo :=
  let current_diff := d_abs (d_sub (horizontal link) dest_value) in
  if d_lt current_diff best.1 then (current_diff, link) else best.

Definition calcClosestRedirect (dest_value : double) (r : RoutingInformation) : NodeInfo :=
  let self := self_node_info_ r in
  let self_value := horizontal self in
  let neighbors := getAllUniqueKnownExistingNeighbors r in
  let neighbors :=
    if d_lt self_value dest_value
    then List.filter (fun node => negb (d_lt (horizontal node) self_value)) neighbors
    else List.filter (fun node => negb (d_lt self_value (horizontal node))) neighbors in
  snd (foldl (closer_link dest_value) (d_abs (d_sub self_value dest_value), self) neighbors).

(** [query_header.getRefEventId() == 0 ? query_header.getEventId() : query_header.getRefEventId()] *)
Definition query_ref_event_id (header : MinhtonMessageHeader) : Z :=
  if ref_event_id_ header =? 0 then event_id_ header else ref_event_id_ header.

Definition notifyAboutFailure (destination : NodeInfo) (query : MessageVariant) : M MNode unit :=
  let query_header := getHeader query in
  header ← headerTo (sender_ query_header) (query_ref_event_id query_header);
  msg_failure ← lift (makeSearchExactFailure header destination query);
  send msg_failure.

Definition performSearchExact (destination : NodeInfo) (query : MessageVariant) : M MNode unit :=
  throw_if (negb (Node.isValidPeer destination))
    (invalid_argument "Logical Address of Destination Node has to be initialized!");;
  throw_if (negb (isFanoutValid (Node.getFanout destination)))
    (invalid_argument "The Fanout of the destination node has to be set!");;
  self ← getSelfNodeInfo;
  let self_value := horizontal self in
  let dest_value := horizontal destination in
  let query_header := getHeader query in
  if d_eq self_value dest_value then
    if bool_decide (message_type_ query_header = kEmpty) then mret tt
    else
      query_var ← lift (setTarget self query);
      recv query_var
  else
    closest_node ← gets (fun s => calcClosestRedirect dest_value (routing_info_ s));
    if Logical.eqb (l_node_info_ closest_node) (l_node_info_ self) then
      notifyAboutFailure destination query
    else
      header ← headerTo closest_node (query_ref_event_id query_header);
      msg_srch ← lift (makeSearchExact header destination query false);
      send msg_srch.

Definition SearchExact_process (msg : MessageVariant) : M MNode unit :=
  match msg with
  | MessageSearchExact _ destination_node query _ => performSearchExact destination_node query
  | _ => throw (AlgorithmException kUndefinedAlgorithm "Wrong Algorithm Interface process called")
  end.

End Search.
