(* ===== verification/Response.v ===== *)
(** * Updates of the neighbours, and the bootstrap algorithm

    Model of [algorithms/misc/response_algorithm_general.cpp], which keeps the routing
    information up to date on behalf of other nodes and counts acknowledgements, and of
    [algorithms/misc/bootstrap_algorithm_general.cpp]. *)

From S2P Require Import Prelude RoutingCalculations NodeInfo RoutingInformation ProcedureInfo Message Fsm MinhtonNode Access.

Section Response.
Context `{Platform} `{Inet} `{UuidText} `{Payloads} `{SearchTypes} `{Uuids}.
(** [access_->continue_accept_child_procedure], with the vector of the message, and what the
    closures do. *)
Variable continue_accept_child_procedure : list NodeInfo -> M MNode unit.
Variable run : AckCallback -> M MNode unit.

Definition wrong_interface {A} : M MNode A :=
  throw (AlgorithmException kUndefinedAlgorithm "Wrong Algorithm Interface process called").
Definition unsupported_relationship {A} : M MNode A :=
  throw (AlgorithmException kUndefinedAlgorithm "Requested Relationship not supported yet").

Definition modify_response (f : ResponseState -> ResponseState) : M MNode unit :=
  modify_logic (fun l => set_response (f (response_ l)) l).
Definition set_acks_number (n : Z) : M MNode unit :=
  modify_response (fun r => {| acks_number_ := n; cb_ := cb_ r |}).
Definition set_cb (cb : option AckCallback) : M MNode unit :=
  modify_response (fun r => {| acks_number_ := acks_number_ r; cb_ := cb |}).

Definition processRemoveNeighborAck : M MNode unit :=
  r ← gets_logic response_;
  assertion (bool_decide (is_Some (cb_ r)));;
  assertion (0 <? acks_number_ r);;
  set_acks_number (acks_number_ r - 1);;
  match cb_ r with
  | Some cb => if acks_number_ r - 1 =? 0 then run cb;; set_cb None else mret tt
  | None => mret tt
  end.

Definition waitForAcks (number : Z) (cb : AckCallback) : M MNode unit :=
  r ← gets_logic response_;
  assertion (bool_decide (cb_ r = None));;
  assertion (acks_number_ r =? 0);;
  if number =? 0 then run cb
  else
    set_acks_number number;;
    set_cb (Some cb).

(** [MinhtonMessageHeader header(self, target, id); MessageRemoveNeighborAck ack(header); send(ack)] *)
Definition acknowledge (target : NodeInfo) (ref_event_id : Z) : M MNode unit :=
  header ← headerTo target ref_event_id;
  ack ← lift (makeRemoveNeighborAck header);
  send ack.

Definition updateOne (neighbor_and_relationship : NodeInfo * NeighborRelationship) : M MNode unit :=
  let neighbor := neighbor_and_relationship.1 in
  match neighbor_and_relationship.2 with
  | kAdjacentLeft =>
      if Node.isInitialized neighbor then routing (setAdjacentLeft neighbor) else routing resetAdjacentLeft
  | kAdjacentRight =>
      if Node.isInitialized neighbor then routing (setAdjacentRight neighbor) else routing resetAdjacentRight
  | kRoutingTableNeighbor => routing (updateRoutingTableNeighbor neighbor)
  | kRoutingTableNeighborChild => routing (updateRoutingTableNeighborChild neighbor)
  | kUnknownRelationship => routing (updateNeighbor neighbor)
  | kParent | kChild => unsupported_relationship
  end.

Definition processUpdateNeighbors (msg : UpdateNeighbors) : M MNode unit :=
  for_each (neighbors_and_relationships_ msg) updateOne;;
  if should_acknowledge_ msg then acknowledge (sender_ (un_header msg)) (ref_event_id_ (un_header msg))
  else mret tt.

(** The nodes one requested relationship adds. *)
Definition requested (rel : NeighborRelationship) (r : RoutingInformation) : outcome (list NodeInfo) :=
  match rel with
  | kAdjacentLeft => mret (copy_initialized [adjacent_left_ r])
  | kAdjacentRight => mret (copy_initialized [adjacent_right_ r])
  | kChild => mret (getInitializedChildren r)
  | kParent => mret (copy_initialized [parent_ r])
  | kRoutingTableNeighbor => mret (getAllInitializedRoutingTableNeighbors r)
  | kRoutingTableNeighborChild => mret (getAllInitializedRoutingTableNeighborChildren r)
  | kUnknownRelationship => Throw (AlgorithmException kUndefinedAlgorithm "Requested Relationship not supported yet")
  end.

Definition processGetNeighbors (header : MinhtonMessageHeader) (send_back_to_node : NodeInfo)
    (relationships : list NeighborRelationship) : M MNode unit :=
  groups ← ask (fun r => mapM (fun rel => requested rel r) relationships);
  let neighbors := mjoin groups in
  if negb (bool_decide (neighbors = [])) then
    header' ← headerTo send_back_to_node (ref_event_id_ header);
    message_inform ← lift (makeInformAboutNeighbors header' neighbors);
    send message_inform
  else mret tt.

Definition processRemoveNeighbor (msg : RemoveNeighbor) : M MNode unit :=
  let header := rn_header msg in
  routing (removeNeighbor (removed_position_node_ msg));;
  self ← getSelfNodeInfo;
  if u32 (Node.getLevel (sender_ header) - 1) =? Node.getLevel self then
    neighbors ← gets (fun s => routing_table_neighbors_ (routing_info_ s));
    for_each neighbors (fun neighbor =>
      header' ← headerTo neighbor (ref_event_id_ header);
      remove_neighbor ← lift (makeRemoveNeighbor header' (removed_position_node_ msg) (acknowledge_ msg));
      send (MessageRemoveNeighbor remove_neighbor))
  else if acknowledge_ msg then acknowledge (sender_ header) (event_id_ header)
  else mret tt.

Definition processRemoveAndUpdateNeighbors (header : MinhtonMessageHeader) (remove_msg : RemoveNeighbor)
    (update_msg : UpdateNeighbors) (should_acknowledge : bool) : M MNode unit :=
  self ← getSelfNodeInfo;
  if negb (Node.eqb (target_ header) self) then mret tt
  else
    assertion (negb (acknowledge_ remove_msg));;
    assertion (negb (should_acknowledge_ update_msg));;
    processRemoveNeighbor remove_msg;;
    processUpdateNeighbors update_msg;;
    if should_acknowledge then acknowledge (sender_ header) (ref_event_id_ header) else mret tt.

Definition processInformAboutNeighbors (requested_neighbors : list NodeInfo) : M MNode unit :=
  accepting ← hasProcedure kAcceptChildProcedure;
  if (accepting : bool) then continue_accept_child_procedure requested_neighbors
  else for_each requested_neighbors (fun node => routing (updateNeighbor node)).

Definition Response_process (msg : MessageVariant) : M MNode unit :=
  match msg with
  | MessageUpdateNeighbors m => processUpdateNeighbors m
  | MessageRemoveNeighbor m => processRemoveNeighbor m
  | MessageInformAboutNeighbors _ neighbors => processInformAboutNeighbors neighbors
  | MessageGetNeighbors header send_back_to_node relationships =>
      processGetNeighbors header send_back_to_node relationships
  | MessageRemoveAndUpdateNeighbors header remove_msg update_msg should_acknowledge =>
      processRemoveAndUpdateNeighbors header remove_msg update_msg should_acknowledge
  | MessageRemoveNeighborAck _ => processRemoveNeighborAck
  | _ => wrong_interface
  end.

(** ** Bootstrap *)

(** [send_multicast] is an empty [std::function]: nothing assigns it. *)
Definition send_multicast (msg : MessageVariant) : M MNode unit := throw bad_function_call.

Definition Bootstrap_initiateJoin (p_node_info : PhysicalNodeInfo) : M MNode unit :=
  header ← headerTo Node.default 0;
  msg_bootstrap_discover ← lift (makeBootstrapDiscover header "Hello");
  setTimeout kBootstrapResponseTimeout;;
  send_multicast msg_bootstrap_discover.

Definition processBootstrapDiscover (header : MinhtonMessageHeader) : M MNode unit :=
  self ← getSelfNodeInfo;
  if negb (Node.isInitialized self) then mret tt
  else
    state ← getFsmState;
    if negb (bool_decide (state = kConnected)) then mret tt
    else if Node.eqb (sender_ header) self then mret tt
    else
      header' ← headerTo (sender_ header) (event_id_ header);
      response ← lift (makeBootstrapResponse header' self);
      send response.

Definition processBootstrapResponse (header : MinhtonMessageHeader) : M MNode unit :=
  state ← getFsmState;
  if bool_decide (state = kWaitForBootstrapResponse) then
    modify_logic (fun l => set_bootstrap (bootstrap_response_senders_ l ++ [sender_ header]) l)
  else mret tt.

Definition processBootstrapResponseTimeout : M MNode unit :=
  joining ← hasProcedure kJoinProcedure;
  if negb joining then
    senders ← gets_logic bootstrap_response_senders_;
    bootstrap_responder ← lift (vec_at senders 0);
    modify_logic (set_bootstrap []);;
    setTimeout kJoinAcceptResponseTimeout;;
    header ← headerTo bootstrap_responder 0;
    self ← getSelfNodeInfo;
    msg ← lift (makeJoin header self kNone 0);
    send msg
  else mret tt.

Definition isBootstrapResponseValid (s : MNode) : bool :=
  negb (bool_decide (bootstrap_response_senders_ (logic_ s) = [])).

Definition Bootstrap_process (msg : MessageVariant) : M MNode unit :=
  match msg with
  | MessageBootstrapDiscover header _ => processBootstrapDiscover header
  | MessageBootstrapResponse header _ => processBootstrapResponse header
  | _ => wrong_interface
  end.

End Response.
