(* ===== verification/Join.v ===== *)
(** * Joining

    Model of [algorithms/join/join_algorithm_general.cpp], [join_algorithm_general_helper.cpp]
    and [minhton_join_algorithm.cpp]: a node asks to join, the request is handed to the parent
    of the first free position, the parent accepts the node as its child and tells the
    neighbours of both. *)

From S2P Require Import Prelude RoutingCalculations TreeMapper NodeInfo RoutingInformation ProcedureInfo Message Fsm MinhtonNode Access FindEnd SearchExact.

Section Join.
Context `{Platform} `{Inet} `{UuidText} `{Payloads} `{SearchTypes} `{Uuids}.

(** ** Positions of the new child and of its adjacent nodes *)

(** [getSelfNodeInfo().getNumber() * getRoutingInfo()->getFanout() + i] *)
Definition child_number (self : NodeInfo) (fanout i : Z) : Z := u32 (u32 (Node.getNumber self * fanout) + i).

(** The first free child position among the given ones. *)
Fixpoint firstFree (indices : list Z) (r : RoutingInformation) : outcome (option Z) :=
  match indices with
  | [] => mret None
  | i :: indices' =>
      child ← vec_at (children_ r) (Z.to_nat i);
      if negb (Node.isInitialized child) then mret (Some i) else firstFree indices' r
  end.

(** The free child position closest to the root among the given ones, and its distance. *)
Fixpoint closestFree (indices : list Z) (fanout best_num : Z) (best_diff : double) (r : RoutingInformation)
    : outcome Z :=
  match indices with
  | [] => mret best_num
  | i :: indices' =>
      child ← vec_at (children_ r) (Z.to_nat i);
      if negb (Node.isInitialized child) then
        let current_num := child_number (self_node_info_ r) fanout i in
        let current_value :=
          treeMapper (u32 (Node.getLevel (self_node_info_ r) + 1)) current_num fanout kTreeMapperRootValue in
        let current_diff := d_abs (d_sub (d_of_Z kTreeMapperRootValue) current_value) in
        if d_lt current_diff best_diff then closestFree indices' fanout current_num current_diff r
        else closestFree indices' fanout best_num best_diff r
      else closestFree indices' fanout best_num best_diff r
  end.

Definition calcNewChildPosition (use_complete_balancing : bool) (r : RoutingInformation) : outcome NodeInfo :=
  let self := self_node_info_ r in
  fanout ← getFanout r;
  free ← (if use_complete_balancing then firstFree (zrange 0 fanout) r else mret None);
  match free with
  | Some i => Node.of_position (u32 (Node.getLevel self + 1)) (child_number self fanout i) fanout
  | None =>
      best_num ← closestFree (zrange 0 fanout) fanout UINT32_MAX (d_of_Z (kTreeMapperRootValue * 2 + 1)) r;
      if best_num <? UINT32_MAX then Node.of_position (u32 (Node.getLevel self + 1)) best_num fanout
      else mret Node.default
  end.

Definition better_left (target_value : double) (best : double * NodeInfo) (node : NodeInfo) : double * NodeInfo :=
  let current_value := horizontal node in
  if d_lt best.1 current_value && d_lt current_value target_value then (current_value, node) else best.

Definition calcAdjacentLeftOfNewChild (entering_node : NodeInfo) (r : RoutingInformation) : NodeInfo :=
  let left_neighbors :=
    List.filter (fun node => negb (Logical.ltb (l_node_info_ entering_node) (l_node_info_ node)))
      (getAllUniqueKnownExistingNeighbors r) in
  snd (foldl (better_left (horizontal entering_node)) (d_of_Z (-1), Node.default)
         (left_neighbors ++ [self_node_info_ r])).

Definition better_right (target_value : double) (best : double * NodeInfo) (node : NodeInfo) : double * NodeInfo :=
  let current_value := horizontal node in
  if d_lt target_value current_value && d_lt current_value best.1 then (current_value, node) else best.

Definition calcAdjacentRightOfNewChild (entering_node : NodeInfo) (r : RoutingInformation) : NodeInfo :=
  let right_neighbors :=
    List.filter (fun node => negb (Logical.gtb (l_node_info_ entering_node) (l_node_info_ node)))
      (getAllUniqueKnownExistingNeighbors r) in
  snd (foldl (better_right (horizontal entering_node)) (d_of_Z (kTreeMapperRootValue * 2 + 1), Node.default)
         (right_neighbors ++ [self_node_info_ r])).

Definition mustSendUpdateLeft (entering_node_adj_right self : NodeInfo) : bool :=
  if negb (Node.isValidPeer entering_node_adj_right) then false
  else if Logical.eqb (l_node_info_ entering_node_adj_right) (l_node_info_ self) then false
  else true.

Definition mustSendUpdateRight (entering_node_adj_left self : NodeInfo) : bool :=
  if negb (Node.isValidPeer entering_node_adj_left) then false
  else if Logical.eqb (l_node_info_ entering_node_adj_left) (l_node_info_ self) then false
  else true.

Definition calcOurNewAdjacentLeft (entering_node entering_node_adj_right : NodeInfo) (r : RoutingInformation)
    : NodeInfo :=
  if Node.isValidPeer entering_node_adj_right &&
     Logical.eqb (l_node_info_ entering_node_adj_right) (l_node_info_ (self_node_info_ r))
  then entering_node else adjacent_left_ r.

Definition calcOurNewAdjacentRight (entering_node entering_node_adj_left : NodeInfo) (r : RoutingInformation)
    : NodeInfo :=
  if Node.isValidPeer entering_node_adj_left &&
     Logical.eqb (l_node_info_ entering_node_adj_left) (l_node_info_ (self_node_info_ r))
  then entering_node else adjacent_right_ r.

(** The left and the right routing table of a position. *)
Definition tablePositions (node : NodeInfo) (fanout : Z) : outcome (list Pos) :=
  left_rt ← calcLeftRT (Node.getLevel node) (Node.getNumber node) fanout;
  right_rt ← calcRightRT (Node.getLevel node) (Node.getNumber node) fanout;
  mret (left_rt ++ right_rt).

Definition getRoutingTableNeighborsForNewChild (new_child : NodeInfo) (r : RoutingInformation)
    : outcome (list NodeInfo) :=
  throw_when (negb (Node.isInitialized (self_node_info_ r))) (logic_error "RoutingInformation not initialized");;
  throw_when (negb (existsb (fun node => Logical.eqb (l_node_info_ node) (l_node_info_ new_child)) (children_ r)))
    (logic_error "The entering node has to be one of our children");;
  fanout ← getFanout r;
  rt_positions ← tablePositions new_child fanout;
  neighbors ← mapM (fun pos => getNodeInfoByPosition pos.1 pos.2 r) rt_positions;
  mret (copy_initialized neighbors).

(** The position [temp_peer] lies strictly between the two, and is not a free child of ours. *)
Definition between_and_unknown (entering_node_value alleged_adjacent_value : double) (children : list NodeInfo)
    (temp_peer : LogicalNodeInfo) : bool :=
  let temp_val := Logical.getHorizontalValue temp_peer in
  let between :=
    if d_lt alleged_adjacent_value entering_node_value
    then d_lt alleged_adjacent_value temp_val && d_lt temp_val entering_node_value
    else d_lt entering_node_value temp_val && d_lt temp_val alleged_adjacent_value in
  between &&
  negb (existsb (fun child => negb (Node.isInitialized child) && Logical.eqb (l_node_info_ child) temp_peer)
          children).

Fixpoint closerLoop (positions : list Pos) (fanout : Z) (closer : LogicalNodeInfo -> bool) : outcome NodeInfo :=
  match positions with
  | [] => mret Node.default
  | pos :: positions' =>
      temp_peer ← Logical.of_position pos.1 pos.2 fanout;
      if closer temp_peer then Node.of_position pos.1 pos.2 fanout
      else closerLoop positions' fanout closer
  end.

(** All positions from the root down to the level of the lower one of the two. *)
Definition getCloserAdjacent (entering_node alleged_adjacent : NodeInfo) (r : RoutingInformation)
    : outcome NodeInfo :=
  if negb (Node.isInitialized alleged_adjacent) then mret Node.default
  else
    let lower_node_level := Z.max (Node.getLevel entering_node) (Node.getLevel alleged_adjacent) in
    fanout ← getFanout r;
    closerLoop (level ← zrange 0 (lower_node_level + 1); number ← zrange 0 (fanout ^ level); [(level, number)])
      fanout (between_and_unknown (horizontal entering_node) (horizontal alleged_adjacent) (children_ r)).

(** ** Asking to join *)

Definition broadcast : list ascii := String.list_ascii_of_string "255.255.255.255".

Definition initiateJoin (node_info : NodeInfo) : M MNode unit :=
  node_info ←
    (if bool_decide (address_ (p_node_info_ node_info) = broadcast) then
       last_join_info ← gets_logic last_join_info_;
       assertion (Physical.isInitialized last_join_info);;
       mret (Node.setPhysicalNodeInfo last_join_info node_info)
     else
       modify_logic (set_last_join_info (p_node_info_ node_info));;
       mret node_info);
  setTimeout kJoinAcceptResponseTimeout;;
  header ← headerTo node_info 0;
  self ← getSelfNodeInfo;
  msg_join ← lift (makeJoin header self kNone 0);
  send msg_join.

Definition initiateJoinPhysical (p_node_info : PhysicalNodeInfo) : M MNode unit :=
  initiateJoin (Node.setPhysicalNodeInfo p_node_info Node.default).

(** ** Accepting a child *)

(** A header whose reference is the event id of the join procedure. *)
Definition joinHeader (target : NodeInfo) : M MNode MinhtonMessageHeader :=
  ref_event_id ← procedure (loadEventId kJoinProcedure);
  headerTo target ref_event_id.

Definition performSendJoinAccept (entering_node entering_node_adj_left entering_node_adj_right : NodeInfo)
    : M MNode unit :=
  header ← joinHeader entering_node;
  entering_node_routing_table_neighbors ← ask (getRoutingTableNeighborsForNewChild entering_node);
  setTimeout kJoinAcceptAckResponseTimeout;;
  self ← getSelfNodeInfo;
  message_join_accept ← lift (makeJoinAccept header (Node.getFanout self) entering_node_adj_left
                                entering_node_adj_right entering_node_routing_table_neighbors);
  send message_join_accept.

Definition performAcceptChild (entering_node : NodeInfo) (use_complete_balancing : bool) : M MNode unit :=
  locked ← gets_logic node_locked;
  assertion (negb locked);;
  lock true;;
  new_child_position ← ask (calcNewChildPosition use_complete_balancing);
  throw_if (negb (Node.isValidPeer new_child_position))
    (AlgorithmException kJoinAlgorithm "We have no free child position, but want to accept this child. Caused by an error in sweep join procedure!");;
  entering_node ← lift (Logical.construct entering_node (Node.setPositionFrom (l_node_info_ new_child_position)));
  entering_node_adjacent_left ← gets (fun s => calcAdjacentLeftOfNewChild entering_node (routing_info_ s));
  entering_node_adjacent_right ← gets (fun s => calcAdjacentRightOfNewChild entering_node (routing_info_ s));
  closer_adj_left ← ask (getCloserAdjacent entering_node entering_node_adjacent_left);
  closer_adj_right ← ask (getCloserAdjacent entering_node entering_node_adjacent_right);
  let adj_left_wrong := Node.isValidPeer closer_adj_left in
  let adj_right_wrong := Node.isValidPeer closer_adj_right in
  throw_if (adj_left_wrong && adj_right_wrong)
    (AlgorithmException kUpdatingAlgorithm "Both adjacents may not be wrong at the same time in join accept procedure!");;
  accepting ← hasProcedure kAcceptChildProcedure;
  throw_if accepting (AlgorithmException kUpdatingAlgorithm "There is already a join accept procedure state saved.");;
  procedure (save kAcceptChildProcedure
    [entering_node; entering_node_adjacent_left; entering_node_adjacent_right]);;
  if negb adj_left_wrong && negb adj_right_wrong then
    performSendJoinAccept entering_node entering_node_adjacent_left entering_node_adjacent_right
  else
    let target := if adj_right_wrong then entering_node_adjacent_right else entering_node_adjacent_left in
    let relationship := if adj_right_wrong then kAdjacentLeft else kAdjacentRight in
    header ← joinHeader target;
    self ← getSelfNodeInfo;
    message_get_neighbors ← lift (makeGetNeighbors header self [relationship]);
    send message_get_neighbors.

Definition continueAcceptChildProcedure (requested_neighbors : list NodeInfo) : M MNode unit :=
  state ← procedure (load kAcceptChildProcedure);
  entering_node ← lift (vec_at state 0);
  entering_node_adj_left_local ← lift (vec_at state 1);
  entering_node_adj_right_local ← lift (vec_at state 2);
  requested_adjacent ← lift (vec_at requested_neighbors 0);
  closer_adj ← ask (getCloserAdjacent entering_node requested_adjacent);
  throw_if (Node.isValidPeer closer_adj) (AlgorithmException kUpdatingAlgorithm "We still do not have the closest adjacent.");;
  let is_left := Logical.ltb (l_node_info_ requested_adjacent) (l_node_info_ entering_node) in
  let correct_adj_left := if is_left then requested_adjacent else entering_node_adj_left_local in
  let correct_adj_right := if is_left then entering_node_adj_right_local else requested_adjacent in
  procedure (update kAcceptChildProcedure [entering_node; correct_adj_left; correct_adj_right]);;
  performSendJoinAccept entering_node correct_adj_left correct_adj_right.

(** ** Being accepted *)

Definition processJoinAccept (header : MinhtonMessageHeader) (our_new_adjacent_left our_new_adjacent_right : NodeInfo)
    (routing_table_neighbors : list NodeInfo) : M MNode unit :=
  cancelJob kJoinAcceptResponseTimeout;;
  routing (setPosition (l_node_info_ (target_ header)));;
  routing (setNodeStatus kRunning);;
  routing (setParent (sender_ header));;
  (if Node.isInitialized our_new_adjacent_left then routing (setAdjacentLeft our_new_adjacent_left) else mret tt);;
  (if Node.isInitialized our_new_adjacent_right then routing (setAdjacentRight our_new_adjacent_right) else mret tt);;
  for_each routing_table_neighbors (fun routing_table_neighbor =>
    routing (updateRoutingTableNeighbor routing_table_neighbor));;
  parent ← gets (fun s => parent_ (routing_info_ s));
  header' ← headerTo parent (ref_event_id_ header);
  msg_temp ← lift (makeJoinAcceptAck header');
  send msg_temp;;
  modify_logic (set_last_join_info Physical.default).

(** ** Telling the network *)

(** Sends UPDATE_NEIGHBORS about the new node, and counts the message. *)
Definition sendUpdateAbout (target entering_node : NodeInfo) (relationship : NeighborRelationship) : M MNode Z :=
  header ← joinHeader target;
  message_update_neighbors ← lift (makeUpdateNeighbors header [(entering_node, relationship)] true);
  send (MessageUpdateNeighbors message_update_neighbors);;
  mret 1.

Definition performSendUpdateNeighborMessagesAboutEnteringNode (entering_node : NodeInfo) : M MNode Z :=
  neighbors ← gets (fun s => routing_table_neighbors_ (routing_info_ s));
  updates_sent ← sum_each neighbors (fun neighbor =>
    if Node.isInitialized neighbor then sendUpdateAbout neighbor entering_node kRoutingTableNeighborChild
    else mret 0);
  self ← getSelfNodeInfo;
  positions ← lift (tablePositions entering_node (Node.getFanout self));
  more_sent ← sum_each positions (fun position =>
    child_or_routing_table_neighbor_child ← ask (getNodeInfoByPosition position.1 position.2);
    if Node.isInitialized child_or_routing_table_neighbor_child then
      sendUpdateAbout child_or_routing_table_neighbor_child entering_node kRoutingTableNeighbor
    else mret 0);
  mret (u32 (updates_sent + more_sent)).

Section Process.
(** [access_->wait_for_acks] *)
Variable wait_for_acks : Z -> AckCallback -> M MNode unit.

Definition processJoinAcceptAck (header : MinhtonMessageHeader) : M MNode unit :=
  let entering_node := sender_ header in
  accepting ← hasProcedure kAcceptChildProcedure;
  throw_if (negb accepting) (AlgorithmException kUpdatingAlgorithm "There is no saved join accept procedure state");;
  cancelJob kJoinAcceptAckResponseTimeout;;
  state ← procedure (load kAcceptChildProcedure);
  entering_node_adjacent_left ← lift (vec_at state 1);
  entering_node_adjacent_right ← lift (vec_at state 2);
  self ← getSelfNodeInfo;
  let send_update_adjacent_left := mustSendUpdateLeft entering_node_adjacent_right self in
  let send_update_adjacent_right := mustSendUpdateRight entering_node_adjacent_left self in
  n_right ← (if send_update_adjacent_right
             then sendUpdateAbout entering_node_adjacent_left entering_node kAdjacentRight else mret 0);
  n_left ← (if send_update_adjacent_left
            then sendUpdateAbout entering_node_adjacent_right entering_node kAdjacentLeft else mret 0);
  our_adj_left ← gets (fun s => calcOurNewAdjacentLeft entering_node entering_node_adjacent_right (routing_info_ s));
  our_adj_right ← gets (fun s => calcOurNewAdjacentRight entering_node entering_node_adjacent_left (routing_info_ s));
  (if Node.getFanout self =? 0 then lift Undefined else mret tt);;
  let child_index := u16 (Node.getNumber entering_node mod Node.getFanout self) in
  routing (setChild entering_node child_index);;
  (if Node.isInitialized our_adj_left then routing (setAdjacentLeft our_adj_left) else mret tt);;
  (if Node.isInitialized our_adj_right then routing (setAdjacentRight our_adj_right) else mret tt);;
  updates_sent ← performSendUpdateNeighborMessagesAboutEnteringNode entering_node;
  wait_for_acks (u32 (n_right + n_left + updates_sent)) Join_allUpdatesAcknowledged.

Definition allUpdatesAcknowledged : M MNode unit :=
  lock false;;
  procedure (remove kAcceptChildProcedure);;
  procedure (removeEventId kJoinProcedure).

(** ** The join request on its way *)

Definition processJoin (header : MinhtonMessageHeader) (entering_node : NodeInfo)
    (search_progress : SearchProgress) (hop_count : Z) : M MNode unit :=
  locked ← gets_logic node_locked;
  if (locked : bool) then mret tt
  else
    (if ref_event_id_ header =? 0 then procedure (saveEventId kJoinProcedure (event_id_ header))
     else procedure (saveEventId kJoinProcedure (ref_event_id_ header)));;
    accept ←
      match search_progress with
      | kNone =>
          full ← gets (fun s => areChildrenFull (routing_info_ s));
          if (full : bool) then forwardToAdjacentNode true entering_node hop_count;; mret false
          else decideNextStep true entering_node hop_count
      | kSearchLeft | kSearchRight =>
          accept ← ask (isCorrectParent true);
          if negb accept then
            searchEndOnLevel true entering_node (bool_decide (search_progress = kSearchLeft)) hop_count;;
            mret false
          else mret true
      | kCheckRight => checkRight true entering_node hop_count;; mret false
      | kReplacementNode => throw (AlgorithmException kJoinAlgorithm "search_progress is set to an invalid value")
      end;
    if (accept : bool) then performAcceptChild entering_node true else mret tt.

Definition Join_process (msg : MessageVariant) : M MNode unit :=
  match msg with
  | MessageJoin header entering_node search_progress hop_count =>
      processJoin header entering_node search_progress hop_count
  | MessageJoinAccept header _ adjacent_left adjacent_right routing_table_neighbors =>
      processJoinAccept header adjacent_left adjacent_right routing_table_neighbors
  | MessageJoinAcceptAck header => processJoinAcceptAck header
  | _ => throw (AlgorithmException kUndefinedAlgorithm "Wrong Algorithm Interface process called")
  end.

End Process.
End Join.
