(* ===== verification/Leave.v ===== *)
(** * Leaving

    Model of [algorithms/leave/leave_algorithm_general.cpp], [leave_algorithm_general_helper.cpp]
    and [minhton_leave_algorithm.cpp]: a node that leaves is replaced by the last node of the
    tree. The last node signs off from its parent, which locks itself and the nodes next to it,
    and from its neighbours, then takes over the position of the node that leaves and
    announces itself there. *)

From S2P Require Import Prelude RoutingCalculations TreeMapper NodeInfo RoutingInformation ProcedureInfo Message Fsm MinhtonNode Access FindEnd Response.

Section Leave.
Context `{Platform} `{Inet} `{UuidText} `{Payloads} `{SearchTypes} `{Uuids}.
(** [access_->wait_for_acks], [access_->perform_search_exact] and [access_->recv] *)
Variable wait_for_acks : Z -> AckCallback -> M MNode unit.
Variable perform_search_exact : NodeInfo -> MessageVariant -> M MNode unit.
Variable recv : MessageVariant -> M MNode unit.

(** ** Adjacent nodes among given ones *)

Definition closer_on_side (distance : NodeInfo -> double) (best : double * NodeInfo) (node : NodeInfo)
    : double * NodeInfo :=
  let current_diff := distance node in
  if d_lt (d_of_Z 0) current_diff && d_lt current_diff best.1 then (current_diff, node) else best.

Definition getAdjacentLeftFromVector (considered_node : NodeInfo) (neighbors : list NodeInfo) : NodeInfo :=
  snd (foldl (closer_on_side (fun node => d_sub (horizontal considered_node) (horizontal node)))
         (d_of_Z (kTreeMapperRootValue * 2), Node.default) neighbors).

Definition getAdjacentRightFromVector (considered_node : NodeInfo) (neighbors : list NodeInfo) : NodeInfo :=
  snd (foldl (closer_on_side (fun node => d_sub (horizontal node) (horizontal considered_node)))
         (d_of_Z (kTreeMapperRootValue * 2), Node.default) neighbors).

(** ** Unlocking *)

(** The first position of the next level and the last one of the previous level. *)
Definition firstOfNextLevel (self : NodeInfo) : outcome NodeInfo :=
  Node.of_position (u32 (Node.getLevel self + 1)) 0 (Node.getFanout self).
Definition lastOfPreviousLevel (self : NodeInfo) : outcome NodeInfo :=
  let level := u32 (Node.getLevel self - 1) in
  Node.of_position level (cvt_u32 (Node.getFanout self ^ level - 1)) (Node.getFanout self).

(** An UNLOCK_NEIGHBOR message is sent to a node whose address is known, or searched for. *)
Definition sendUnlock (target : NodeInfo) (ref_event_id : Z) : M MNode unit :=
  header ← headerTo target ref_event_id;
  req ← lift (makeUnlockNeighbor header);
  send req.
Definition searchUnlock (info : NodeInfo) (ref_event_id : Z) : M MNode unit :=
  header ← headerTo info ref_event_id;
  req ← lift (makeUnlockNeighbor header);
  perform_search_exact info req.

Definition processUnlockNeighbor (header : MinhtonMessageHeader) : M MNode unit :=
  locked ← gets_logic node_locked;
  assertion locked;;
  lock false;;
  modify_leave (set_current_signoff None);;
  locked_right ← gets_leave locked_right_neighbor_;
  (if (locked_right : bool) then
     right_neighbor ← ask getDirectRightNeighbor;
     self ← getSelfNodeInfo;
     (if Node.isValidPeer right_neighbor then
        assertion (Node.getLevel right_neighbor =? Node.getLevel self);;
        assertion (Node.isInitialized right_neighbor);;
        sendUnlock right_neighbor (ref_event_id_ header)
      else
        info ← lift (firstOfNextLevel self);
        searchUnlock info (ref_event_id_ header));;
     modify_leave (set_locked_right false)
   else mret tt);;
  locked_left ← gets_leave locked_left_neighbor_;
  if (locked_left : bool) then
    self ← getSelfNodeInfo;
    assertion (negb (Node.getLevel self =? 0));;
    left_neighbor ← ask getDirectLeftNeighbor;
    (if Node.isValidPeer left_neighbor then
       assertion (Node.isInitialized left_neighbor);;
       sendUnlock left_neighbor (ref_event_id_ header)
     else
       info ← lift (lastOfPreviousLevel self);
       searchUnlock info (ref_event_id_ header));;
    modify_leave (set_locked_left false)
  else mret tt.

(** ** Being replaced *)

Definition processReplacementOffer (header : MinhtonMessageHeader) : M MNode unit :=
  cancelJob kReplacementOfferResponseTimeout;;
  header' ← headerTo (sender_ header) (ref_event_id_ header);
  neighbors ← gets (fun s => getAllUniqueKnownExistingNeighbors (routing_info_ s));
  locked ← gets_logic node_locked;
  locked_right ← gets_leave locked_right_neighbor_;
  locked_left ← gets_leave locked_left_neighbor_;
  message_replacement_offer_ack ← lift (makeReplacementAck header' neighbors locked locked_right locked_left);
  send message_replacement_offer_ack;;
  routing resetPosition;;
  lock false;;
  modify_leave (set_locked_right false);;
  modify_leave (set_locked_left false);;
  modify_leave (set_current_signoff None);;
  modify_leave (set_replaced_by_us Node.default).

(** ** A neighbour was replaced *)

(** The sender is at the position of one of our children. *)
Definition sentByChild (sender self : NodeInfo) : bool :=
  let min_number := u32 (Node.getNumber self * Node.getFanout self) in
  (Node.getLevel sender =? u32 (Node.getLevel self + 1)) &&
  (min_number <=? Node.getNumber sender) &&
  (Node.getNumber sender <=? u32 (min_number + Node.getFanout self - 1)).

Definition processReplacementUpdate (header : MinhtonMessageHeader)
    (removed_position_node replaced_position_node : NodeInfo) (new_l_node_info : LogicalNodeInfo)
    (should_acknowledge : bool) : M MNode unit :=
  assertion should_acknowledge;;
  routing (removeNeighbor removed_position_node);;
  let replaced_neighbor :=
    Node.setLogicalNodeInfo new_l_node_info
      (Node.setPhysicalNodeInfo (p_node_info_ removed_position_node) replaced_position_node) in
  old_node ← ask (getNodeInfoByPosition (Node.getLevel replaced_neighbor) (Node.getNumber replaced_neighbor));
  if negb (Node.isInitialized old_node) then mret tt
  else
    routing (updateNeighbor replaced_neighbor);;
    self ← getSelfNodeInfo;
    ack_replacement_update_forward ←
      (if sentByChild (sender_ header) self then
         neighbors ← gets (fun s => routing_table_neighbors_ (routing_info_ s));
         sum_each neighbors (fun neighbor =>
           header' ← headerTo neighbor (ref_event_id_ header);
           msg ← lift (makeReplacementUpdate header' removed_position_node replaced_position_node
                         new_l_node_info should_acknowledge);
           send msg;;
           mret 1)
       else mret 0);
    modify_leave (set_last_update (Some header));;
    wait_for_acks ack_replacement_update_forward Leave_processUpdateForwardAck.

Definition processUpdateForwardAck : M MNode unit :=
  update ← gets_leave last_replacement_update_;
  match update with
  | None => lift Undefined
  | Some last_header =>
      header ← headerTo (sender_ last_header) (ref_event_id_ last_header);
      ack ← lift (makeRemoveNeighborAck header);
      send ack;;
      modify_leave (set_last_update None)
  end.

(** ** Replacing another node *)

Definition replaceMyself (node_to_replace : NodeInfo) (neighbors_of_node_to_replace : list NodeInfo)
    : M MNode unit :=
  _ ← procedure (loadEventId kLeaveProcedure);
  old_self_node_info ← getSelfNodeInfo;
  routing (setNodeStatus kLeft);;
  position ← lift (Logical.of_position (Node.getLevel node_to_replace) (Node.getNumber node_to_replace)
                     (Node.getFanout node_to_replace));
  routing (setPosition position);;
  routing (setNodeStatus kRunning);;
  let neighbors := List.filter (fun node => negb (same_position node old_self_node_info))
                     neighbors_of_node_to_replace in
  for_each neighbors (fun neighbor => routing (updateNeighbor neighbor));;
  self ← getSelfNodeInfo;
  let our_new_adj_left := getAdjacentLeftFromVector self neighbors in
  let our_new_adj_right := getAdjacentRightFromVector self neighbors in
  (if Node.isInitialized our_new_adj_left then routing (setAdjacentLeft our_new_adj_left) else mret tt);;
  (if Node.isInitialized our_new_adj_right then routing (setAdjacentRight our_new_adj_right) else mret tt).

(** The local copies of the adjacent nodes of the removed position are not used afterwards. *)
Definition performLeaveWithReplacement (leaving_node : NodeInfo) (neighbors_of_leaving_node : list NodeInfo)
    (leaving_node_was_locked leaving_node_locked_right leaving_node_locked_left : bool) : M MNode unit :=
  removed_position_node ← getSelfNodeInfo;
  parent ← gets (fun s => parent_ (routing_info_ s));
  modify_leave (set_old_parent parent);;
  replaceMyself leaving_node neighbors_of_leaving_node;;
  locked ← gets_logic node_locked;
  assertion (negb locked);;
  lock leaving_node_was_locked;;
  locked_right ← gets_leave locked_right_neighbor_;
  assertion (negb locked_right);;
  modify_leave (set_locked_right leaving_node_locked_right);;
  locked_left ← gets_leave locked_left_neighbor_;
  assertion (negb locked_left);;
  modify_leave (set_locked_left leaving_node_locked_left);;
  neighbors ← gets (fun s => std_sort Node.ltb (getAllUniqueSymmetricalExistingNeighbors (routing_info_ s)));
  acks_replacement_update ← sum_each neighbors (fun replaced_pos_neighbor =>
    if same_position replaced_pos_neighbor removed_position_node then mret 0
    else
      throw_if (negb (Node.isInitialized replaced_pos_neighbor))
        (runtime_error "not initialized on ReplacementUpdate");;
      leaving_event_id ← gets_leave leaving_event_id_;
      temp_header ← headerTo replaced_pos_neighbor leaving_event_id;
      self ← getSelfNodeInfo;
      message_replacement_update ← lift (makeReplacementUpdate temp_header removed_position_node leaving_node
                                           (l_node_info_ self) true);
      send message_replacement_update;;
      mret 1);
  wait_for_acks acks_replacement_update Leave_processReceiveReplacementUpdateAck;;
  procedure (removeEventId kLeaveProcedure).

Definition processReplacementAck (header : MinhtonMessageHeader) (neighbors : list NodeInfo)
    (locked locked_right locked_left : bool) : M MNode unit :=
  cancelJob kReplacementAckResponseTimeout;;
  procedure (saveEventId kLeaveProcedure (ref_event_id_ header));;
  performLeaveWithReplacement (sender_ header) neighbors locked locked_right locked_left.

Definition processReceiveReplacementUpdateAck : M MNode unit :=
  old_parent ← gets_leave old_parent_;
  leaving_event_id ← gets_leave leaving_event_id_;
  header ← headerTo old_parent leaving_event_id;
  self ← getSelfNodeInfo;
  let header := if same_position old_parent self then Header.setTarget self header else header in
  unlock ← lift (makeUnlockNeighbor header);
  send unlock;;
  modify_leave (set_in_leave_progress false);;
  modify_leave (set_leaving_event_id 0);;
  modify_leave (set_replaced_by_us Node.default).

(** ** Signing off from the parent *)

Definition signOffFromParent : M MNode unit :=
  modify_leave (set_in_leave_progress true);;
  parent ← gets (fun s => parent_ (routing_info_ s));
  leaving_event_id ← gets_leave leaving_event_id_;
  header ← headerTo parent leaving_event_id;
  req ← lift (makeSignoffParentRequest header);
  send req.

(** The node is already leaving or replacing another one; [also] are further states that
    count. *)
Definition busyLeaving (also : list FSMState) : M MNode bool :=
  in_progress ← gets_leave in_leave_progress_;
  replacing ← gets_leave replaced_by_us_;
  state ← getFsmState;
  mret (in_progress || Node.isInitialized replacing ||
        bool_decide (state ∈ [kWaitForReplacementOffer; kSignOffFromInlevelNeighbors] ++ also)).

Definition performLeaveWithoutReplacement : M MNode unit :=
  busy ← busyLeaving [];
  if (busy : bool) then set_new_fsm (makeFSM kConnected)
  else
    event_id ← procedure (loadEventId kLeaveProcedure);
    modify_leave (set_leaving_event_id event_id);;
    signOffFromParent.

Definition prepareLeavingAsSuccessor (node_to_replace : NodeInfo) : M MNode unit :=
  current_leaving_id ← procedure (loadEventId kLeaveProcedure);
  busy ← busyLeaving [kConnectedWaitingParentResponseDirectLeaveWoReplacement; kConnectedWaitingParentResponse];
  if (busy : bool) then
    header ← headerTo node_to_replace current_leaving_id;
    nack ← lift (makeReplacementNack header);
    send nack
  else
    modify_leave (set_leaving_event_id current_leaving_id);;
    modify_leave (set_replaced_by_us node_to_replace);;
    signOffFromParent.

(** ** The parent locks itself and its neighbours *)

Definition processLockNeighborRequest (header : MinhtonMessageHeader) : M MNode unit :=
  header' ← headerTo (sender_ header) (ref_event_id_ header);
  locked ← gets_logic node_locked;
  (if negb locked then lock true else mret tt);;
  resp ← lift (makeLockNeighborResponse header' (negb locked));
  send resp.

(** The request whose child is signing off; reading it without one is a null pointer. *)
Definition currentRequest : M MNode MinhtonMessageHeader :=
  request ← gets_leave current_signoff_request_;
  match request with Some header => mret header | None => lift Undefined end.

Definition sendSignoffAnswer (successful : bool) : M MNode unit :=
  request ← currentRequest;
  header ← headerTo (sender_ request) (ref_event_id_ request);
  ans ← lift (makeSignoffParentAnswer header successful);
  send ans.

(** Asks the node on the left, or the last node of the previous level, to lock itself. *)
Definition lockLeftNeighbor : M MNode unit :=
  target ← ask getLeftRoutingTableNeighborsRightToLeft;
  self ← getSelfNodeInfo;
  match target with
  | target0 :: _ =>
      modify_leave (set_locked_left true);;
      assertion (Node.isInitialized target0);;
      assertion (negb (Node.getLevel target0 =? 0));;
      request ← currentRequest;
      header ← headerTo target0 (ref_event_id_ request);
      req ← lift (makeLockNeighborRequest header);
      send req
  | [] =>
      if 0 <? Node.getLevel self then
        info ← lift (lastOfPreviousLevel self);
        request ← currentRequest;
        header ← headerTo info (ref_event_id_ request);
        req ← lift (makeLockNeighborRequest header);
        modify_leave (set_locked_left true);;
        perform_search_exact info req
      else modify_leave (set_remaining_lock 0)
  end.

Definition processLockNeighborResponse (successful : bool) : M MNode unit :=
  request ← gets_leave current_signoff_request_;
  assertion (bool_decide (is_Some request));;
  locked ← gets_logic node_locked;
  assertion locked;;
  remaining ← gets_leave remaining_lock_neighbor_response_;
  if (remaining =? 2) && negb successful then
    sendSignoffAnswer successful;;
    modify_leave (set_current_signoff None);;
    lock false;;
    modify_leave (set_locked_right false);;
    modify_leave (set_remaining_lock 0)
  else
    (if remaining =? 1 then assertion successful else mret tt);;
    assertion (0 <? remaining);;
    modify_leave (set_remaining_lock (remaining - 1));;
    (if remaining - 1 =? 1 then lockLeftNeighbor else mret tt);;
    remaining' ← gets_leave remaining_lock_neighbor_response_;
    if negb (remaining' =? 0) then mret tt
    else
      request ← currentRequest;
      self ← getSelfNodeInfo;
      temp_header ← newHeader (sender_ request) self (ref_event_id_ request);
      remove_msg ← lift (makeRemoveNeighbor temp_header (sender_ request) true);
      recv (MessageRemoveNeighbor remove_msg);;
      neighbors ← gets (fun s => routing_table_neighbors_ (routing_info_ s));
      wait_for_acks (u32 (Z.of_nat (length neighbors))) Leave_processRemoveNeighborAck.

Definition processSignOffParentRequest (message : MinhtonMessageHeader) : M MNode unit :=
  locked ← gets_logic node_locked;
  request ← gets_leave current_signoff_request_;
  if locked || match request with Some h => Node.isInitialized (sender_ h) | None => false end then
    header ← headerTo (sender_ message) (ref_event_id_ message);
    ans ← lift (makeSignoffParentAnswer header false);
    send ans
  else
    modify_leave (set_current_signoff (Some message));;
    lock true;;
    self ← getSelfNodeInfo;
    (if (Node.getLevel self =? 0) && (Node.getNumber self =? 0) &&
        (Node.getLevel (sender_ message) =? 1) && (Node.getNumber (sender_ message) =? 0) then
       let dummy_node := Node.setLogicalNodeInfo Logical.default self in
       header ← newHeader dummy_node dummy_node 0;
       _ ← lift (makeLockNeighborResponse header true);
       modify_leave (set_remaining_lock 1);;
       processLockNeighborResponse true
     else
       right_neighbor ← ask getDirectRightNeighbor;
       modify_leave (set_locked_right true);;
       request ← currentRequest;
       if Node.isValidPeer right_neighbor then
         assertion (Node.isInitialized right_neighbor);;
         header ← headerTo right_neighbor (ref_event_id_ request);
         req ← lift (makeLockNeighborRequest header);
         send req
       else
         info ← lift (firstOfNextLevel self);
         header ← headerTo info (ref_event_id_ request);
         req ← lift (makeLockNeighborRequest header);
         perform_search_exact info req);;
    modify_leave (set_remaining_lock 2).

(** [LeaveAlgorithmGeneral::processRemoveNeighborAck]: every neighbour has removed the child. *)
Definition Leave_allNeighborsRemoved : M MNode unit := sendSignoffAnswer true.

(** ** Signing off from the neighbours *)

Definition sendRemoveNeighbors : M MNode Z :=
  neighbors ← gets (fun s => getAllUniqueSymmetricalExistingNeighbors (routing_info_ s));
  sum_each neighbors (fun neighbor =>
    r ← gets routing_info_;
    let self := self_node_info_ r in
    if Node.eqb neighbor (adjacent_left_ r) || Node.eqb neighbor (adjacent_right_ r) then mret 0
    else if Node.getNumber self <? Node.getNumber neighbor then
      assertion (Node.getLevel self =? Node.getLevel neighbor);; mret 0
    else if Node.eqb neighbor (parent_ r) then
      assertion (3 <? Node.getFanout self);; mret 0
    else
      assertion (Node.isInitialized neighbor);;
      leaving_event_id ← gets_leave leaving_event_id_;
      header ← headerTo neighbor leaving_event_id;
      message_remove_neighbor ← lift (makeRemoveNeighbor header self true);
      send (MessageRemoveNeighbor message_remove_neighbor);;
      mret 1).

Definition updateAdjacentLeft : M MNode Z :=
  r ← gets routing_info_;
  if Node.isInitialized (adjacent_left_ r) then
    leaving_event_id ← gets_leave leaving_event_id_;
    header ← headerTo (adjacent_left_ r) leaving_event_id;
    direct_left ← ask getDirectLeftNeighbor;
    (if Node.eqb (adjacent_left_ r) direct_left then
       remove_msg ← lift (makeRemoveNeighbor header (self_node_info_ r) false);
       message_update_neighbors ← lift (makeUpdateNeighbors header [(adjacent_right_ r, kAdjacentRight)] false);
       remove_and_update_msg ← lift (makeRemoveAndUpdateNeighbors header remove_msg message_update_neighbors true);
       send remove_and_update_msg
     else
       assertion (negb (Node.getLevel (adjacent_left_ r) =? Node.getLevel (self_node_info_ r)));;
       message_update_neighbors ← lift (makeUpdateNeighbors header [(adjacent_right_ r, kAdjacentRight)] true);
       send (MessageUpdateNeighbors message_update_neighbors));;
    mret 1
  else mret 0.

Definition updateAdjacentRight : M MNode Z :=
  r ← gets routing_info_;
  if Node.isInitialized (adjacent_right_ r) then
    if Node.getLevel (self_node_info_ r) <=? Node.getLevel (adjacent_right_ r) then mret 0
    else
      leaving_event_id ← gets_leave leaving_event_id_;
      header ← headerTo (adjacent_right_ r) leaving_event_id;
      message_update_neighbors ← lift (makeUpdateNeighbors header [(adjacent_left_ r, kAdjacentLeft)] true);
      send (MessageUpdateNeighbors message_update_neighbors);;
      mret 1
  else mret 0.

Definition signOffFromNeighborsAndAdjacents : M MNode Z :=
  removed ← sendRemoveNeighbors;
  left ← updateAdjacentLeft;
  right ← updateAdjacentRight;
  mret (u32 (removed + left + right)).

Definition sendNackToReplacement (ref_event_id : Z) : M MNode unit :=
  replacing_node ← gets_leave replaced_by_us_;
  header ← headerTo replacing_node ref_event_id;
  nack ← lift (makeReplacementNack header);
  send nack.

Definition processSignOffParentAnswer (successful : bool) : M MNode unit :=
  if negb successful then
    replacing_node ← gets_leave replaced_by_us_;
    leaving_event_id ← gets_leave leaving_event_id_;
    (if Node.isInitialized replacing_node then sendNackToReplacement leaving_event_id else mret tt);;
    modify_leave (set_replaced_by_us Node.default);;
    modify_leave (set_in_leave_progress false)
  else
    acks_signoff_neighbor_adjacent ← signOffFromNeighborsAndAdjacents;
    wait_for_acks acks_signoff_neighbor_adjacent Leave_processReceiveSignoffNeighborAdjacentsAck.

Definition sendReplacementOffer : M MNode unit :=
  replacing_node ← gets_leave replaced_by_us_;
  leaving_event_id ← gets_leave leaving_event_id_;
  header ← headerTo replacing_node leaving_event_id;
  message_replacement_offer ← lift (makeReplacementOffer header);
  setTimeout kReplacementAckResponseTimeout;;
  send message_replacement_offer.

Definition processReceiveSignoffNeighborAdjacentsAck : M MNode unit :=
  replacing_node ← gets_leave replaced_by_us_;
  if Node.isInitialized replacing_node then sendReplacementOffer
  else
    set_new_fsm (makeFSM kIdle);;
    leaving_event_id ← gets_leave leaving_event_id_;
    parent ← gets (fun s => parent_ (routing_info_ s));
    sendUnlock parent leaving_event_id;;
    routing resetPosition;;
    request ← gets_leave current_signoff_request_;
    assertion (match request with Some h => negb (Node.isInitialized (sender_ h)) | None => true end);;
    modify_leave (set_in_leave_progress false);;
    modify_leave (set_replaced_by_us Node.default);;
    modify_leave (set_leaving_event_id 0).

(** ** The MINHTON strategy: the last node of the tree is the replacement *)

Definition canLeaveWithoutReplacement (r : RoutingInformation) : outcome bool :=
  right_neighbor ← getDirectRightNeighbor r;
  if Node.isValidPeer right_neighbor then mret (negb (Node.isInitialized right_neighbor))
  else
    leftmost_neighbor_child ← getLeftmostNeighborChild r;
    if Node.isValidPeer leftmost_neighbor_child && (Node.getNumber leftmost_neighbor_child =? 0)
    then mret (negb (Node.isInitialized leftmost_neighbor_child))
    else mret false.

(** At the parent of the last node: the request goes to its last child. *)
Definition forwardToLastChild (leaving_node : NodeInfo) (hop_count : Z) : M MNode unit :=
  children ← gets (fun s => getInitializedChildren (routing_info_ s));
  last_child ← lift (back children);
  forwardRequest false last_child leaving_node kReplacementNode hop_count.

(** Start position, or directly after a jump to an adjacent node. *)
Definition firstStep (leaving_node : NodeInfo) (hop_count : Z) : M MNode bool :=
  full ← gets (fun s => areChildrenFull (routing_info_ s));
  if (full : bool) then forwardToAdjacentNode false leaving_node hop_count;; mret false
  else decideNextStep false leaving_node hop_count.

(** [performFindReplacement()] *)
Definition performFindReplacement : M MNode unit :=
  leaving_node ← getSelfNodeInfo;
  is_correct_parent ← firstStep leaving_node 0;
  if (is_correct_parent : bool) then forwardToLastChild leaving_node 0 else mret tt.

(** [performFindReplacement(msg)] *)
Definition performFindReplacementFor (header : MinhtonMessageHeader) (leaving_node : NodeInfo)
    (search_progress : SearchProgress) (hop_count : Z) : M MNode unit :=
  self ← getSelfNodeInfo;
  prog ←
    (if (Node.getLevel (sender_ header) =? Node.getLevel self) &&
        (Node.getNumber self <? Node.getNumber (sender_ header)) then
       child0 ← ask (getChild 0);
       mret (if negb (Node.isInitialized child0) && bool_decide (search_progress = kSearchRight)
             then kSearchLeft else search_progress)
     else mret search_progress);
  let continue (is_correct_parent : bool) :=
    if is_correct_parent then forwardToLastChild leaving_node hop_count else mret tt in
  match prog with
  | kNone => firstStep leaving_node hop_count ≫= continue
  | kSearchLeft | kSearchRight =>
      is_correct_parent ← ask (isCorrectParent false);
      (if negb is_correct_parent
       then searchEndOnLevel false leaving_node (bool_decide (prog = kSearchLeft)) hop_count else mret tt);;
      continue is_correct_parent
  | kCheckRight => checkRight false leaving_node hop_count
  | kReplacementNode =>
      if negb (same_position (target_ header) self) then mret tt
      else if negb (Node.eqb self leaving_node) then prepareLeavingAsSuccessor leaving_node
      else
        performLeaveWithoutReplacement;;
        cancelJob kReplacementOfferResponseTimeout
  end.

Definition initiateSelfDeparture : M MNode unit :=
  can_leave ← ask canLeaveWithoutReplacement;
  (if (can_leave : bool) then
     event_id ← freshId;
     procedure (saveEventId kLeaveProcedure event_id);;
     performLeaveWithoutReplacement
   else
     performFindReplacement;;
     setTimeout kReplacementOfferResponseTimeout);;
  procedure (removeEventId kLeaveProcedure).

Definition processFindReplacement (header : MinhtonMessageHeader) (node_to_replace : NodeInfo)
    (search_progress : SearchProgress) (hop_count : Z) : M MNode unit :=
  let event_id := if ref_event_id_ header =? 0 then event_id_ header else ref_event_id_ header in
  procedure (saveEventId kLeaveProcedure event_id);;
  performFindReplacementFor header node_to_replace search_progress hop_count;;
  procedure (removeEventId kLeaveProcedure).

Definition Leave_process (msg : MessageVariant) : M MNode unit :=
  match msg with
  | MessageFindReplacement header node_to_replace search_progress hop_count =>
      processFindReplacement header node_to_replace search_progress hop_count
  | MessageReplacementOffer header => processReplacementOffer header
  | MessageReplacementAck header neighbors locked locked_right locked_left =>
      processReplacementAck header neighbors locked locked_right locked_left
  | MessageReplacementUpdate header removed replaced new_l_node_info should_acknowledge =>
      processReplacementUpdate header removed replaced new_l_node_info should_acknowledge
  | MessageSignoffParentRequest header => processSignOffParentRequest header
  | MessageSignoffParentAnswer _ successful => processSignOffParentAnswer successful
  | MessageLockNeighborRequest header => processLockNeighborRequest header
  | MessageLockNeighborResponse _ successful => processLockNeighborResponse successful
  | MessageRemoveNeighborAck _ => Leave_allNeighborsRemoved
  | MessageUnlockNeighbor header => processUnlockNeighbor header
  | MessageReplacementNack _ => mret tt
  | _ => wrong_interface
  end.

End Leave.
