(* ===== verification/Algorithms.v ===== *)
(** * The algorithms of a node, put together

    Model of the constructor of [minhton/core/logic_container.cpp]: the algorithms reach each
    other through the access container, and the node delivers messages to them, also from
    within an algorithm ([access_->recv]). The entity search is an interface. *)

From S2P Require Import Prelude RoutingCalculations NodeInfo RoutingInformation ProcedureInfo Message Fsm MinhtonNode Access FindEnd SearchExact Response Join Leave.

(** What the node asks of the entity search: [process], which may deliver messages to the node
    itself, and [processTimeout]. [EntitySearch.v] implements it. *)
Class EntitySearch `{Payloads} `{SearchTypes} := {
  esearch_process : (MessageVariant -> M MNode unit) -> MessageVariant -> M MNode unit;
  esearch_timeout : TimeoutType -> M MNode unit;
}.

Section Algorithms.
Context `{Platform} `{Inet} `{UuidText} `{Uuids} `{EntitySearch}.

(** What the closures given to [wait_for_acks] do. *)
Definition run_ack (cb : AckCallback) : M MNode unit :=
  match cb with
  | Join_allUpdatesAcknowledged => allUpdatesAcknowledged
  | Leave_processUpdateForwardAck => processUpdateForwardAck
  | Leave_processRemoveNeighborAck => Leave_allNeighborsRemoved
  | Leave_processReceiveSignoffNeighborAdjacentsAck => processReceiveSignoffNeighborAdjacentsAck
  | Leave_processReceiveReplacementUpdateAck => processReceiveReplacementUpdateAck
  end.

Definition wait_for_acks : Z -> AckCallback -> M MNode unit := waitForAcks run_ack.

(** [AlgorithmInterface::process] of each algorithm; [recv] is the node's. *)
Definition process_with (recv : MessageVariant -> M MNode unit) (algorithm : Algorithm) (msg : MessageVariant)
    : M MNode unit :=
  match algorithm with
  | JoinAlgorithm => Join_process wait_for_acks msg
  | LeaveAlgorithm => Leave_process wait_for_acks (performSearchExact recv) recv msg
  | SearchExactAlgorithm => SearchExact_process recv msg
  | ResponseAlgorithm => Response_process continueAcceptChildProcedure run_ack msg
  | BootstrapAlgorithm => Bootstrap_process msg
  | EntitySearchAlgorithm => esearch_process recv msg
  end.

(** The logic container; [recv] is what the algorithms deliver messages with. *)
Definition logic_with (recv : MessageVariant -> M MNode unit) : Logic (LogicState := LogicState) := {|
  algorithm_process := process_with recv;
  leave_initiateSelfDeparture := initiateSelfDeparture;
  leave_canLeaveWithoutReplacement := ask canLeaveWithoutReplacement;
  bootstrap_initiateJoin := Bootstrap_initiateJoin;
  bootstrap_processBootstrapResponseTimeout := processBootstrapResponseTimeout;
  bootstrap_isBootstrapResponseValid := isBootstrapResponseValid;
  join_initiateJoin := initiateJoin;
  join_initiateJoinPhysical := initiateJoinPhysical;
  esearch_processTimeout := esearch_timeout;
|}.

(** [MinhtonNode::recv] called from within an algorithm, nested at most [depth] deep. *)
Fixpoint recv_at (depth : nat) : MessageVariant -> M MNode unit :=
  match depth with
  | O => fun _ => lift Undefined
  | S depth' => MinhtonNode.recv (logic := logic_with (recv_at depth'))
  end.

Definition logic_at (depth : nat) : Logic (LogicState := LogicState) := logic_with (recv_at depth).

(** Two deliveries inside a delivery are the most there are: an exact search hands its query to
    the node, and the sign-off of a child makes its parent deliver REMOVE_NEIGHBOR to itself. *)
Definition node_logic : Logic (LogicState := LogicState) := logic_at 2.

End Algorithms.
