(* ===== verification/Effects.v ===== *)
(** * What the algorithms do to a node

    Every state change an algorithm can make is one of a few atomic ones ([act]): it changes
    its own state, the pending timeouts, the replacement or the machine, applies an operation
    of the routing information, or sends a message that is well typed, has a valid header and
    has not been forwarded too often. [does] says that a computation is made of these only;
    the lemmas follow the code of the algorithms once, and every invariant of a node is then a
    fact about the atomic changes. *)

From S2P Require Import Prelude RoutingCalculations NodeInfo RoutingInformation RoutingInvariants ProcedureInfo Message Fsm MinhtonNode Access FindEnd SearchExact Response Join Leave Algorithms.

(** ** Messages that may be sent *)

Section Messages.
Context `{Payloads} `{Inet}.

Definition hop_bounded (msg : MessageVariant) : bool :=
  match msg with
  | MessageJoin _ _ _ hop_count | MessageFindReplacement _ _ _ hop_count => hop_count <=? kMaxHopCount
  | _ => true
  end.

Definition sendable (msg : MessageVariant) : Prop :=
  well_typed msg = true /\ hop_bounded msg = true.

Lemma constructed_Ok {A} v type header (build : MinhtonMessageHeader -> A) a :
  constructed v type header build = Ok a -> a = build (Header.setMessageType type header).
Proof. unfold constructed. intros (? & _ & Hr)%outcome_bind_Ok. by injection Hr. Qed.

(** A constructor other than that of the requests that hop from node to node. *)
Ltac constructor_sendable := intros ->%constructed_Ok; split; reflexivity.

Lemma sendable_JoinAccept h f l r ns m : makeJoinAccept h f l r ns = Ok m -> sendable m.
Proof. constructor_sendable. Qed.
Lemma sendable_JoinAcceptAck h m : makeJoinAcceptAck h = Ok m -> sendable m.
Proof. constructor_sendable. Qed.
Lemma sendable_UpdateNeighbors h ns b m : makeUpdateNeighbors h ns b = Ok m -> sendable (MessageUpdateNeighbors m).
Proof. constructor_sendable. Qed.
Lemma sendable_RemoveNeighbor h n b m : makeRemoveNeighbor h n b = Ok m -> sendable (MessageRemoveNeighbor m).
Proof. constructor_sendable. Qed.
Lemma sendable_RemoveNeighborAck h m : makeRemoveNeighborAck h = Ok m -> sendable m.
Proof. constructor_sendable. Qed.
Lemma sendable_RemoveAndUpdate h h1 h2 n b1 ns b2 r u b m :
  makeRemoveNeighbor h1 n b1 = Ok r -> makeUpdateNeighbors h2 ns b2 = Ok u ->
  makeRemoveAndUpdateNeighbors h r u b = Ok m -> sendable m.
Proof. intros ->%constructed_Ok ->%constructed_Ok ->%constructed_Ok. split; reflexivity. Qed.
Lemma sendable_GetNeighbors h n rs m : makeGetNeighbors h n rs = Ok m -> sendable m.
Proof. constructor_sendable. Qed.
Lemma sendable_InformAboutNeighbors h ns m : makeInformAboutNeighbors h ns = Ok m -> sendable m.
Proof. constructor_sendable. Qed.
Lemma sendable_BootstrapResponse h n m : makeBootstrapResponse h n = Ok m -> sendable m.
Proof. constructor_sendable. Qed.
Lemma sendable_ReplacementUpdate h a b c d m : makeReplacementUpdate h a b c d = Ok m -> sendable m.
Proof. constructor_sendable. Qed.
Lemma sendable_ReplacementOffer h m : makeReplacementOffer h = Ok m -> sendable m.
Proof. constructor_sendable. Qed.
Lemma sendable_ReplacementAck h a b c d m : makeReplacementAck h a b c d = Ok m -> sendable m.
Proof. constructor_sendable. Qed.
Lemma sendable_ReplacementNack h m : makeReplacementNack h = Ok m -> sendable m.
Proof. constructor_sendable. Qed.
Lemma sendable_SignoffParentRequest h m : makeSignoffParentRequest h = Ok m -> sendable m.
Proof. constructor_sendable. Qed.
Lemma sendable_SignoffParentAnswer h b m : makeSignoffParentAnswer h b = Ok m -> sendable m.
Proof. constructor_sendable. Qed.
Lemma sendable_LockNeighborRequest h m : makeLockNeighborRequest h = Ok m -> sendable m.
Proof. constructor_sendable. Qed.
Lemma sendable_LockNeighborResponse h b m : makeLockNeighborResponse h b = Ok m -> sendable m.
Proof. constructor_sendable. Qed.
Lemma sendable_UnlockNeighbor h m : makeUnlockNeighbor h = Ok m -> sendable m.
Proof. constructor_sendable. Qed.
Lemma sendable_AttributeInquiryRequest h a b m : makeAttributeInquiryRequest h a b = Ok m -> sendable m.
Proof. constructor_sendable. Qed.
Lemma sendable_AttributeInquiryAnswer h a b c m : makeAttributeInquiryAnswer h a b c = Ok m -> sendable m.
Proof. constructor_sendable. Qed.

Lemma sendable_Join h n p hop m : makeJoin h n p hop = Ok m -> (kMaxHopCount <? hop) = false -> sendable m.
Proof. intros ->%constructed_Ok Hh. split; [done|]. cbn. unfold kMaxHopCount in *. lia. Qed.
Lemma sendable_FindReplacement h n p hop m :
  makeFindReplacement h n p hop = Ok m -> (kMaxHopCount <? hop) = false -> sendable m.
Proof. intros ->%constructed_Ok Hh. split; [done|]. cbn. unfold kMaxHopCount in *. lia. Qed.

(** What an exact search may carry. *)
Definition query_ok (query : MessageVariant) : Prop := is_SEVariant query = true /\ well_typed query = true.

Lemma sendable_SearchExact h d q b m : query_ok q -> makeSearchExact h d q b = Ok m -> sendable m.
Proof. intros [Hq Hw] ->%constructed_Ok. split; [|done]. cbn. by rewrite Hq, Hw. Qed.
Lemma sendable_SearchExactFailure h d q m : query_ok q -> makeSearchExactFailure h d q = Ok m -> sendable m.
Proof. intros [Hq Hw] ->%constructed_Ok. split; [|done]. cbn. by rewrite Hq, Hw. Qed.

Lemma query_ok_UnlockNeighbor h m : makeUnlockNeighbor h = Ok m -> query_ok m.
Proof. constructor_sendable. Qed.
Lemma query_ok_LockNeighborRequest h m : makeLockNeighborRequest h = Ok m -> query_ok m.
Proof. constructor_sendable. Qed.

(** Changing the header of a message to one of the same type keeps it well typed. *)
Lemma with_header_well_typed header msg :
  message_type_ header = getMessageType msg -> well_typed msg = true -> well_typed (with_header header msg) = true.
Proof.
  intros Ht. destruct msg; try destruct msg; cbn in *; unfold getMessageType in *; cbn in *; rewrite Ht; done.
Qed.

Lemma setTarget_well_typed target msg msg' :
  setTarget target msg = Ok msg' -> well_typed msg = true -> well_typed msg' = true.
Proof.
  unfold setTarget. intros (? & _ & Hr)%outcome_bind_Ok Hw. injection Hr as <-.
  by apply with_header_well_typed.
Qed.

End Messages.

Create HintDb sendable.
#[export] Hint Resolve sendable_JoinAccept sendable_JoinAcceptAck sendable_UpdateNeighbors sendable_RemoveNeighbor
  sendable_RemoveNeighborAck sendable_RemoveAndUpdate sendable_GetNeighbors sendable_InformAboutNeighbors
  sendable_BootstrapResponse sendable_ReplacementUpdate sendable_ReplacementOffer sendable_ReplacementAck
  sendable_ReplacementNack sendable_SignoffParentRequest sendable_SignoffParentAnswer
  sendable_LockNeighborRequest sendable_LockNeighborResponse sendable_UnlockNeighbor
  sendable_AttributeInquiryRequest sendable_AttributeInquiryAnswer sendable_Join sendable_FindReplacement
  sendable_SearchExact sendable_SearchExactFailure query_ok_UnlockNeighbor query_ok_LockNeighborRequest
  setTarget_well_typed : sendable.
#[export] Hint Extern 1 ((kMaxHopCount <? 0) = false) => reflexivity : sendable.

(** ** Atomic changes *)

Section Acts.
Context `{Platform} `{Inet} `{UuidText} `{Payloads} `{SearchTypes}.

(** [returned] tells the changes of computations that return from those that may also have
    thrown: an exception of [setPosition] leaves half-built tables. *)
Inductive act (returned : bool) (s : MNode) : MNode -> Prop :=
| act_logic l : act returned s (set_logic l s)
| act_watchdog w : act returned s (set_watchdog w s)
| act_replacing n : act returned s (set_replacing_node n s)
| act_fsm f : valid_action_ f = false -> act returned s (set_fsm f s)
| act_routing r : RoutingInvariants.step (routing_info_ s) r -> act returned s (set_routing_info r s)
| act_half_built p : returned = false -> act returned s (set_routing_info (setPosition p (routing_info_ s)).2 s)
| act_send msg : sendable msg -> Header.validate (getHeader msg) = true ->
    act returned s (set_sent (sent_ s ++ [msg]) s).

Definition does {A} (m : M MNode A) : Prop :=
  forall s r s', ready s -> m s = (r, s') -> rtc (act (is_Ok r)) s s'.

Definition returns {A} (m : M MNode A) (a : A) : Prop := exists s s', m s = (Ok a, s').

Lemma act_ready b s s' : act b s s' -> ready s -> ready s'.
Proof. unfold ready. intros []; destruct s; done. Qed.
Lemma acts_ready b s s' : rtc (act b) s s' -> ready s -> ready s'.
Proof. induction 1; eauto using act_ready. Qed.

Lemma act_weaken b s s' : act true s s' -> act b s s'.
Proof. intros []; try constructor; done. Qed.
Lemma acts_weaken b s s' : rtc (act true) s s' -> rtc (act b) s s'.
Proof. induction 1; econstructor; eauto using act_weaken. Qed.

Lemma does_bind {A B} (m : M MNode A) (k : A -> M MNode B) :
  does m -> (forall a, returns m a -> does (k a)) -> does (m ≫= k).
Proof.
  intros Hm Hk s r s' Hr. mred. destruct (m s) as [[a|e|] s1] eqn:E; intros Hs.
  - pose proof (Hm _ _ _ Hr E) as H1'. etrans; [by apply acts_weaken|].
    eapply Hk; [by exists s, s1|by eapply acts_ready|done].
  - injection Hs as <- <-. by apply (Hm _ _ _ Hr E).
  - injection Hs as <- <-. by apply (Hm _ _ _ Hr E).
Qed.

Lemma does_pure {A} (m : M MNode A) : (forall s, (m s).2 = s) -> does m.
Proof. intros Hm s r s' _ Hs. specialize (Hm s). rewrite Hs in Hm. by subst. Qed.

Lemma does_one {A} (m : M MNode A) : (forall s, ready s -> act (is_Ok (m s).1) s (m s).2) -> does m.
Proof. intros Hm s r s' Hr Hs. apply rtc_once. specialize (Hm s Hr). by rewrite Hs in Hm. Qed.

Lemma does_ret {A} (a : A) : does (mret a). Proof. by apply does_pure. Qed.
Lemma does_gets {A} (f : MNode -> A) : does (gets f). Proof. by apply does_pure. Qed.
Lemma does_throw {A} e : does (throw e : M MNode A). Proof. by apply does_pure. Qed.
Lemma does_throw_if b e : does (throw_if b e). Proof. apply does_pure. intros. by destruct b. Qed.
Lemma does_lift {A} (o : outcome A) : does (lift o). Proof. by apply does_pure. Qed.
Lemma does_ask {A} (f : RoutingInformation -> outcome A) : does (ask f). Proof. by apply does_pure. Qed.
Lemma does_assertion b : does (assertion b). Proof. apply does_pure. by destruct b. Qed.
Lemma does_modify_logic f : does (modify_logic f).
Proof. apply does_one. intros s _. apply (act_logic _ s). Qed.
Lemma does_procedure {A} (f : M _ A) : does (procedure f).
Proof.
  apply does_one. intros s _. unfold procedure, zoom. destruct (f _). apply act_logic.
Qed.
Lemma does_addJob f ms type : does (addJob f ms type).
Proof. apply does_one. intros s _. apply act_watchdog. Qed.
Lemma does_cancelJob type : does (cancelJob type).
Proof. apply does_one. intros s _. apply act_watchdog. Qed.
Lemma does_set_new_fsm f : valid_action_ f = false -> does (set_new_fsm f).
Proof. intros Hf. apply does_one. intros s _. by apply act_fsm. Qed.

Lemma does_setTimeout type : does (setTimeout type).
Proof.
  unfold setTimeout. apply does_bind; [apply does_gets|]. intros ? _. case_match; [apply does_addJob|apply does_ret].
Qed.

Lemma does_routing {A} (m : RI A) : (forall r, RoutingInvariants.step r (m r).2) -> does (routing m).
Proof.
  intros Hm. apply does_one. intros s _. unfold routing, zoom. specialize (Hm (routing_info_ s)).
  destruct (m _) as [o r]. by apply act_routing.
Qed.

Lemma does_setPosition p : does (routing (setPosition p)).
Proof.
  apply does_one. intros s _. unfold routing, zoom.
  destruct (setPosition p (routing_info_ s)) as [[[]|e|] r] eqn:E; cbn.
  - apply act_routing. by eapply step_setPosition.
  - replace r with (setPosition p (routing_info_ s)).2 by by rewrite E. by apply act_half_built.
  - replace r with (setPosition p (routing_info_ s)).2 by by rewrite E. by apply act_half_built.
Qed.

Lemma does_send msg : sendable msg -> does (send msg).
Proof.
  intros Hm s r s' Hr. rewrite send_spec by done. destruct (negb _) eqn:Ev.
  - intros [= <- <-]. done.
  - destruct (next _ _) as [t|]; intros [= <- <-]; [|done].
    eapply rtc_l; [by apply (act_fsm _ s (makeFSM t))|]. apply rtc_once.
    replace (sent_ s) with (sent_ (set_fsm (makeFSM t) s)) by by destruct s.
    apply act_send; [done|]. by apply negb_false_iff.
Qed.

(** The verdict of the machine on an event. *)
Lemma does_gate {Event A} `{FsmEvent Event} (e : Event) ev (k : bool -> M MNode A) :
  process_event e = process ev -> (forall b, does (k b)) ->
  does (fsm_process_event e ≫= fun _ => fsm_isActionValid ≫= k).
Proof.
  intros He Hk s r s' Hr. rewrite (fsm_gate _ _ _ _ He Hr). destruct (next _ _) as [t|]; intros Hs.
  - eapply rtc_l; [by apply (act_fsm _ s (makeFSM t))|]. eapply Hk; [|done]. unfold ready. by rewrite fsm_set_fsm.
  - by eapply Hk.
Qed.

Lemma does_for_each {A} (l : list A) (f : A -> M MNode unit) : (forall x, does (f x)) -> does (for_each l f).
Proof. intros Hf. induction l; [apply does_ret|]. apply does_bind; [apply Hf|done]. Qed.

Lemma does_sum_each {A} (l : list A) (f : A -> M MNode Z) : (forall x, does (f x)) -> does (sum_each l f).
Proof.
  intros Hf. induction l; [apply does_ret|]. apply does_bind; [apply Hf|]. intros n _.
  apply does_bind; [done|]. intros m _. apply does_ret.
Qed.

Lemma returns_lift {A} (o : outcome A) a : returns (lift o) a -> o = Ok a.
Proof. by intros (s & s' & [-> _]%lift_Ok). Qed.
Lemma returns_throw_if b e a : returns (throw_if b e) a -> b = false.
Proof. by intros (s & s' & [-> _]%throw_if_Ok). Qed.

End Acts.

Create HintDb does.
#[export] Hint Resolve does_ret does_gets does_throw does_throw_if does_lift does_ask does_assertion
  does_modify_logic does_procedure does_addJob does_cancelJob does_setTimeout does_setPosition : does.

(** ** The algorithms *)

(** Follows the statements of a computation. *)
Ltac does_step :=
  lazymatch goal with
  | |- does (mbind _ _) =>
      apply does_bind; [|let a := fresh "a" in let Ha := fresh "Ha" in intros a Ha;
                         try apply returns_lift in Ha; try apply returns_throw_if in Ha]
  | |- does (for_each _ _) => apply does_for_each; intros ?
  | |- does (sum_each _ _) => apply does_sum_each; intros ?
  | |- does (match ?x with _ => _ end) => destruct x eqn:?
  | |- does (send _) => apply does_send
  | |- does (lock _) => apply does_modify_logic
  end.
Ltac does := repeat first [solve [eauto with does sendable] | progress (cbv beta zeta) | does_step].

Section Handlers.
Context `{Platform} `{Inet} `{UuidText} `{Payloads} `{SearchTypes} `{Uuids}.

Section Routing.
Ltac routing_op op := apply does_routing; intros r; exact (step_op r op).
Lemma does_setParent n : does (routing (setParent n)). Proof. routing_op (op_setParent n). Qed.
Lemma does_setChild n i : does (routing (setChild n i)). Proof. routing_op (op_setChild n i). Qed.
Lemma does_setAdjacentLeft n : does (routing (setAdjacentLeft n)). Proof. routing_op (op_setAdjacentLeft n). Qed.
Lemma does_setAdjacentRight n : does (routing (setAdjacentRight n)). Proof. routing_op (op_setAdjacentRight n). Qed.
Lemma does_resetAdjacentLeft : does (routing resetAdjacentLeft). Proof. routing_op op_resetAdjacentLeft. Qed.
Lemma does_resetAdjacentRight : does (routing resetAdjacentRight). Proof. routing_op op_resetAdjacentRight. Qed.
Lemma does_updateRoutingTableNeighbor n : does (routing (updateRoutingTableNeighbor n)).
Proof. routing_op (op_updateRoutingTableNeighbor n). Qed.
Lemma does_updateRoutingTableNeighborChild n : does (routing (updateRoutingTableNeighborChild n)).
Proof. routing_op (op_updateRoutingTableNeighborChild n). Qed.
Lemma does_updateNeighbor n : does (routing (updateNeighbor n)). Proof. routing_op (op_updateNeighbor n). Qed.
Lemma does_removeNeighbor n : does (routing (removeNeighbor n)). Proof. routing_op (op_removeNeighbor n). Qed.
Lemma does_setNodeStatus status : does (routing (setNodeStatus status)).
Proof. apply does_routing. intros r. apply step_setNodeStatus. Qed.
Lemma does_resetPosition : does (routing resetPosition).
Proof. apply does_routing. intros r. apply step_resetPosition. Qed.
End Routing.
Hint Resolve does_setParent does_setChild does_setAdjacentLeft does_setAdjacentRight does_resetAdjacentLeft
  does_resetAdjacentRight does_updateRoutingTableNeighbor does_updateRoutingTableNeighborChild does_updateNeighbor
  does_removeNeighbor does_setNodeStatus does_resetPosition : does.

Lemma does_newHeader sender target id : does (newHeader sender target id).
Proof. unfold newHeader, freshId, gets_logic. does. Qed.
Hint Resolve does_newHeader : does.
Lemma does_headerTo target id : does (headerTo target id).
Proof. unfold headerTo, getSelfNodeInfo. does. Qed.
Lemma does_freshId : does freshId.
Proof. unfold freshId, gets_logic. does. Qed.
Lemma does_withRefEventId id h : does (withRefEventId id h).
Proof. apply does_lift. Qed.
Lemma does_hasProcedure key : does (hasProcedure key). Proof. apply does_gets. Qed.
Lemma does_getSelfNodeInfo : does getSelfNodeInfo. Proof. apply does_gets. Qed.
Lemma does_gets_logic {A} (f : LogicState -> A) : does (gets_logic f). Proof. apply does_gets. Qed.
Lemma does_gets_leave {A} (f : LeaveState -> A) : does (gets_leave f). Proof. apply does_gets. Qed.
Lemma does_modify_leave f : does (modify_leave f). Proof. apply does_modify_logic. Qed.
Lemma does_getFsmState : does (getFsmState (LogicState := LogicState)). Proof. apply does_gets. Qed.
Lemma does_makeFSM state : does (set_new_fsm (makeFSM state)). Proof. by apply does_set_new_fsm. Qed.
Hint Resolve does_headerTo does_freshId does_withRefEventId does_hasProcedure does_getSelfNodeInfo does_gets_logic
  does_gets_leave does_modify_leave does_getFsmState does_makeFSM : does.

Section FindEnd.
Variable join_ : bool.

Lemma does_forwardRequest target origin progress hop : does (forwardRequest join_ target origin progress hop).
Proof. unfold forwardRequest. does. Qed.
Hint Resolve does_forwardRequest : does.
Lemma does_forwardToAdjacentNode origin hop : does (forwardToAdjacentNode join_ origin hop).
Proof. unfold forwardToAdjacentNode. does. Qed.
Lemma does_searchEndOnLevel origin left_side hop : does (searchEndOnLevel join_ origin left_side hop).
Proof. unfold searchEndOnLevel. does. Qed.
Hint Resolve does_searchEndOnLevel : does.
Lemma does_checkRight origin hop : does (checkRight join_ origin hop).
Proof. unfold checkRight. does. Qed.
Lemma does_decideNextStep origin hop : does (decideNextStep join_ origin hop).
Proof. unfold decideNextStep, decideRight. does. Qed.
End FindEnd.
Hint Resolve does_forwardRequest does_forwardToAdjacentNode does_searchEndOnLevel does_checkRight
  does_decideNextStep : does.

(** [recv] delivers well-typed messages. *)
Definition delivers (recv : MessageVariant -> M MNode unit) : Prop :=
  forall msg, well_typed msg = true -> does (recv msg).

Lemma does_performSearchExact recv destination query :
  delivers recv -> query_ok query -> does (performSearchExact recv destination query).
Proof.
  intros Hr Hq. unfold performSearchExact, notifyAboutFailure. does.
  apply Hr. eapply setTarget_well_typed; [done|apply Hq].
Qed.

Lemma does_SearchExact_process recv msg :
  delivers recv -> well_typed msg = true -> does (SearchExact_process recv msg).
Proof.
  intros Hr Hw. unfold SearchExact_process. destruct msg; eauto with does.
  apply does_performSearchExact; [done|]. cbn in Hw. by apply andb_prop in Hw as [_ [? ?]%andb_prop].
Qed.

Section Acks.
Variable run : AckCallback -> M MNode unit.
Hypothesis run_does : forall cb, does (run cb).
Hint Resolve run_does : does.

Lemma does_waitForAcks n cb : does (waitForAcks run n cb).
Proof. unfold waitForAcks, set_acks_number, set_cb, modify_response. does. Qed.

Lemma does_Response_process continue msg :
  (forall ns, does (continue ns)) -> does (Response_process continue run msg).
Proof.
  intros Hc. unfold Response_process, processUpdateNeighbors, updateOne, processRemoveNeighbor,
    processInformAboutNeighbors, processGetNeighbors, processRemoveAndUpdateNeighbors, processRemoveNeighborAck,
    wrong_interface, unsupported_relationship, set_acks_number, set_cb, modify_response.
  destruct msg; does.
  all: unfold processRemoveNeighbor, processUpdateNeighbors, updateOne, acknowledge, unsupported_relationship; does.
Qed.

Lemma does_processJoinAcceptAck header : does (processJoinAcceptAck (waitForAcks run) header).
Proof.
  unfold processJoinAcceptAck, performSendUpdateNeighborMessagesAboutEnteringNode, sendUpdateAbout, joinHeader.
  pose proof does_waitForAcks. does.
Qed.

End Acks.

Lemma does_performSendJoinAccept n l r : does (performSendJoinAccept n l r).
Proof. unfold performSendJoinAccept, joinHeader. does. Qed.
Hint Resolve does_performSendJoinAccept : does.

Lemma does_continueAcceptChildProcedure ns : does (continueAcceptChildProcedure ns).
Proof. unfold continueAcceptChildProcedure. does. Qed.

Lemma does_performAcceptChild n b : does (performAcceptChild n b).
Proof. unfold performAcceptChild, joinHeader. does. Qed.
Hint Resolve does_performAcceptChild : does.

Lemma does_Join_process run msg :
  (forall cb, does (run cb)) -> does (Join_process (waitForAcks run) msg).
Proof.
  intros Hr. unfold Join_process. destruct msg; try solve [eauto using does_processJoinAcceptAck with does].
  - unfold processJoin. does.
  - unfold processJoinAccept. does.
Qed.

Lemma does_Bootstrap_process msg : does (Bootstrap_process msg).
Proof.
  unfold Bootstrap_process, processBootstrapDiscover, processBootstrapResponse, wrong_interface. does.
Qed.

(** ** Leaving *)

Section Leaving.
Variable wait : Z -> AckCallback -> M MNode unit.
Variable search : NodeInfo -> MessageVariant -> M MNode unit.
Variable recv : MessageVariant -> M MNode unit.
Hypothesis wait_does : forall n cb, does (wait n cb).
Hypothesis search_does : forall n query, query_ok query -> does (search n query).
Hypothesis recv_delivers : delivers recv.
Hint Resolve wait_does search_does : does.

Lemma does_sendUnlock n id : does (sendUnlock n id).
Proof. unfold sendUnlock. does. Qed.
Hint Resolve does_sendUnlock : does.

Lemma does_processUnlockNeighbor header : does (processUnlockNeighbor search header).
Proof. unfold processUnlockNeighbor, searchUnlock. does. Qed.

Lemma does_processReplacementOffer header : does (processReplacementOffer header).
Proof. unfold processReplacementOffer. does. Qed.

Lemma does_processReplacementUpdate header a b c d : does (processReplacementUpdate wait header a b c d).
Proof. unfold processReplacementUpdate. does. Qed.

Lemma does_processReplacementAck header ns a b c : does (processReplacementAck wait header ns a b c).
Proof. unfold processReplacementAck, performLeaveWithReplacement, replaceMyself. does. Qed.

Lemma does_signOffFromParent : does signOffFromParent.
Proof. unfold signOffFromParent. does. Qed.
Hint Resolve does_signOffFromParent : does.

Lemma does_performLeaveWithoutReplacement : does performLeaveWithoutReplacement.
Proof. unfold performLeaveWithoutReplacement, busyLeaving. does. Qed.
Lemma does_prepareLeavingAsSuccessor n : does (prepareLeavingAsSuccessor n).
Proof. unfold prepareLeavingAsSuccessor, busyLeaving. does. Qed.
Hint Resolve does_performLeaveWithoutReplacement does_prepareLeavingAsSuccessor : does.

Lemma does_processLockNeighborRequest header : does (processLockNeighborRequest header).
Proof. unfold processLockNeighborRequest. does. Qed.

Lemma does_currentRequest : does currentRequest.
Proof. unfold currentRequest. does. Qed.
Hint Resolve does_currentRequest : does.
Lemma does_sendSignoffAnswer b : does (sendSignoffAnswer b).
Proof. unfold sendSignoffAnswer. does. Qed.
Hint Resolve does_sendSignoffAnswer : does.

Lemma does_processLockNeighborResponse b : does (processLockNeighborResponse wait search recv b).
Proof.
  unfold processLockNeighborResponse, lockLeftNeighbor. does.
  apply recv_delivers. by eapply sendable_RemoveNeighbor.
Qed.
Hint Resolve does_processLockNeighborResponse : does.

Lemma does_processSignOffParentRequest header : does (processSignOffParentRequest wait search recv header).
Proof. unfold processSignOffParentRequest. does. Qed.

Lemma does_signOffFromNeighborsAndAdjacents : does signOffFromNeighborsAndAdjacents.
Proof. unfold signOffFromNeighborsAndAdjacents, sendRemoveNeighbors, updateAdjacentLeft, updateAdjacentRight. does. Qed.
Hint Resolve does_signOffFromNeighborsAndAdjacents : does.

Lemma does_processSignOffParentAnswer b : does (processSignOffParentAnswer wait b).
Proof. unfold processSignOffParentAnswer, sendNackToReplacement. does. Qed.

Lemma does_forwardToLastChild n hop : does (forwardToLastChild n hop).
Proof. unfold forwardToLastChild. does. Qed.
Lemma does_firstStep n hop : does (firstStep n hop).
Proof. unfold firstStep. does. Qed.
Hint Resolve does_forwardToLastChild does_firstStep : does.

Lemma does_processFindReplacement header n p hop : does (processFindReplacement header n p hop).
Proof. unfold processFindReplacement, performFindReplacementFor. does. Qed.

Lemma does_initiateSelfDeparture : does initiateSelfDeparture.
Proof. unfold initiateSelfDeparture, performFindReplacement. does. Qed.

Lemma does_Leave_process msg : does (Leave_process wait search recv msg).
Proof.
  destruct msg; cbn [Leave_process]; unfold Leave_allNeighborsRemoved, wrong_interface;
    eauto using does_processFindReplacement, does_processReplacementOffer, does_processReplacementAck,
      does_processReplacementUpdate, does_processSignOffParentRequest, does_processSignOffParentAnswer,
      does_processLockNeighborRequest, does_processUnlockNeighbor with does.
Qed.

End Leaving.

Lemma does_run_ack cb : does (run_ack cb).
Proof.
  destruct cb; cbn [run_ack]; unfold allUpdatesAcknowledged, processUpdateForwardAck, Leave_allNeighborsRemoved,
    processReceiveSignoffNeighborAdjacentsAck, processReceiveReplacementUpdateAck, sendReplacementOffer;
    pose proof does_sendSignoffAnswer; pose proof does_sendUnlock; does.
Qed.

(** ** The node *)

(** What is asked of the entity search. *)
Class EntitySearchDoes `{!EntitySearch} := {
  does_esearch_process recv msg : delivers recv -> well_typed msg = true -> does (esearch_process recv msg);
  does_esearch_timeout type : does (esearch_timeout type);
}.

Context `{!EntitySearch} `{!EntitySearchDoes}.

Lemma does_process_with recv algorithm msg :
  delivers recv -> well_typed msg = true -> does (process_with recv algorithm msg).
Proof.
  intros Hr Hw. destruct algorithm; cbn [process_with].
  - apply does_Join_process, does_run_ack.
  - apply does_Leave_process; [intros; apply does_waitForAcks, does_run_ack| |done].
    intros. by apply does_performSearchExact.
  - by apply does_SearchExact_process.
  - apply does_Response_process; [apply does_run_ack|apply does_continueAcceptChildProcedure].
  - apply does_Bootstrap_process.
  - by apply does_esearch_process.
Qed.

Section Node.
Variable logic : Logic (LogicState := LogicState).
Hypothesis logic_does : forall algorithm msg, well_typed msg = true -> does (algorithm_process algorithm msg).

Lemma does_set_replacing f : does (modify (fun s : MNode => set_replacing_node (f s) s)).
Proof. apply does_one. intros s _. apply act_replacing. Qed.

Lemma does_zoom_replacing {A} (m : M NodeInfo A) : does (zoom replacing_node_ set_replacing_node m : M MNode A).
Proof. apply does_one. intros s _. unfold zoom. destruct (m _). apply act_replacing. Qed.

Lemma does_prepareReceiving msg : does (prepareReceiving (LogicState := LogicState) msg).
Proof.
  unfold prepareReceiving, forwardToReplacement. pose proof (does_set_replacing (fun _ => sender_ (getHeader msg))).
  pose proof (@does_zoom_replacing unit).
  repeat first [solve [eauto with does sendable]
               | eapply does_gate; [apply process_receive|intros ?]
               | progress (cbv beta zeta) | does_step].
Qed.

Lemma does_recv : delivers (MinhtonNode.recv (logic := logic)).
Proof.
  intros msg Hw. unfold MinhtonNode.recv, Logic_process. pose proof (does_prepareReceiving msg). does.
Qed.
End Node.

Lemma does_recv_at depth : delivers (recv_at depth).
Proof.
  induction depth as [|depth IH]; intros msg Hw; cbn [recv_at]; [apply does_lift|].
  apply does_recv; [|done]. intros. by apply does_process_with.
Qed.

Lemma does_logic_at depth algorithm msg :
  well_typed msg = true -> does (algorithm_process (Logic := logic_at depth) algorithm msg).
Proof. intros Hw. apply does_process_with; [apply does_recv_at|done]. Qed.

Lemma does_Bootstrap_initiateJoin p : does (Bootstrap_initiateJoin p).
Proof. unfold Bootstrap_initiateJoin, send_multicast. does. Qed.
Lemma does_processBootstrapResponseTimeout : does processBootstrapResponseTimeout.
Proof. unfold processBootstrapResponseTimeout. does. Qed.
Lemma does_initiateJoin n : does (initiateJoin n).
Proof. unfold initiateJoin. does. Qed.

Section Events.
Variable depth : nat.
#[local] Instance events_logic : Logic (LogicState := LogicState) := logic_at depth.

Lemma does_processSignal signal : does (processSignal signal).
Proof.
  unfold processSignal, Logic_processSignal. cbn [leave_initiateSelfDeparture leave_canLeaveWithoutReplacement
    bootstrap_initiateJoin join_initiateJoin join_initiateJoinPhysical events_logic logic_at logic_with].
  pose proof does_initiateSelfDeparture. pose proof does_Bootstrap_initiateJoin.
  pose proof does_initiateJoin. unfold initiateJoinPhysical.
  repeat first [solve [eauto with does sendable]
               | eapply does_gate; [apply process_signal|intros ?]
               | progress (cbv beta zeta) | does_step].
Qed.
Hint Resolve does_processSignal : does.

Lemma does_triggerTimeout type : does (triggerTimeout type).
Proof.
  unfold triggerTimeout, Logic_processTimeout.
  pose proof does_processBootstrapResponseTimeout. pose proof does_esearch_timeout.
  repeat first [solve [eauto with does sendable]
               | eapply does_gate; [apply process_timeout|intros ?]
               | progress (cbv beta zeta) | does_step].
Qed.
Hint Resolve does_triggerTimeout : does.

Lemma does_runCallback f : does (runCallback f).
Proof. unfold runCallback. does. Qed.

Lemma does_start info auto_connect : does (start info auto_connect).
Proof.
  unfold start. does.
Qed.

End Events.
End Handlers.
