(* ===== verification/NodeInvariants.v ===== *)
(** * Invariants of a running node

    The events of a node with its algorithms ([node_event]) and what holds in every state they
    lead to: consequences of [Effects] for the messages a node sends, for its routing
    information and for its address. *)

From S2P Require Import Prelude RoutingCalculations NodeInfo RoutingInformation RoutingInvariants ProcedureInfo Message Fsm MinhtonNode Access FindEnd SearchExact Response Join Leave Algorithms Effects.

(** ** The address of a node *)

Section Address.
Context `{Platform} `{Inet}.

Definition own_address (r : RoutingInformation) : PhysicalNodeInfo := p_node_info_ (self_node_info_ r).

Definition keeps_address {A} (m : RI A) : Prop := forall r, own_address (m r).2 = own_address r.

Lemma keeps_address_bind {A B} (m : RI A) (k : A -> RI B) :
  keeps_address m -> (forall a, keeps_address (k a)) -> keeps_address (m ≫= k).
Proof.
  intros Hm Hk r. mred. specialize (Hm r). destruct (m r) as [[a| |] r1]; [|done..].
  cbn in Hm. rewrite <- Hm. apply Hk.
Qed.
Lemma keeps_address_pure {A} (m : RI A) : (forall r, (m r).2 = r) -> keeps_address m.
Proof. intros Hm r. by rewrite Hm. Qed.
Lemma keeps_address_modify f : (forall r, own_address (f r) = own_address r) -> keeps_address (modify f).
Proof. intros Hf r. apply Hf. Qed.
Lemma keeps_address_for_each {A} (l : list A) (f : A -> RI unit) :
  (forall x, keeps_address (f x)) -> keeps_address (for_each l f).
Proof.
  intros Hf. induction l as [|x l IH]; [by apply keeps_address_pure|]. by apply keeps_address_bind.
Qed.

Ltac keep_address :=
  repeat first
    [ apply keeps_address_bind; [|intros ?]
    | apply keeps_address_for_each; intros ?
    | apply keeps_address_modify; by intros []
    | apply keeps_address_pure; intros ?; first [done | by unfold throw_if; case_match]
    | progress cbv beta zeta
    | case_match ].

Lemma keeps_address_initTables : keeps_address initTables.
Proof.
  unfold initTables, initParentAndChildren, initRoutingTableNeighbors, initRoutingTableNeighborChildren, call.
  keep_address.
Qed.

Lemma keeps_address_setPosition p : keeps_address (setPosition p).
Proof.
  unfold setPosition, clearRoutingTable, notifyNodeInfoChange. pose proof keeps_address_initTables.
  apply keeps_address_bind; [by apply keeps_address_pure|intros ?].
  apply keeps_address_bind.
  - intros r. unfold zoom, Node.setPositionFrom, zoom, Logical.setPositionFrom. by destruct r, (isPositionValid _ _ _).
  - intros ?. apply keeps_address_bind; [by apply keeps_address_pure|intros ?].
    apply keeps_address_bind; [destruct (Node.isInitialized _); [done|keep_address]|intros ?; keep_address].
Qed.

Lemma step_address r r' : RoutingInvariants.step r r' -> own_address r' = own_address r.
Proof.
  intros [op|status|p r'' Hp|].
  - pose proof (run_op_edits op r) as He. induction He as [|? ? ? He _ IH]; [done|]. rewrite IH.
    by destruct He; destruct x.
  - by destruct r.
  - replace r'' with (setPosition p r).2 by by rewrite Hp. apply keeps_address_setPosition.
  - assert (keeps_address resetPosition) as Hk; [|apply Hk].
    unfold resetPosition, clearRoutingTable, notifyNodeInfoChange. keep_address.
Qed.

End Address.

(** ** Events *)

Section Invariants.
Context `{Platform} `{Inet} `{UuidText} `{Payloads} `{SearchTypes} `{Uuids}.
Context `{!EntitySearch} `{!EntitySearchDoes}.

#[local] Instance running_logic : Logic (LogicState := LogicState) := node_logic.

(** What happens to a node, and how its handling ends. *)
Inductive node_event (s : MNode) (r : outcome unit) (s' : MNode) : Prop :=
| event_start info auto_connect : start info auto_connect s = (r, s') -> node_event s r s'
| event_signal signal : processSignal signal s = (r, s') -> node_event s r s'
| event_message msg : well_typed msg = true -> recv msg s = (r, s') -> node_event s r s'
| event_timeout pre job post :
    watchdog_ s = pre ++ job :: post ->
    runCallback (job_function job) (set_watchdog (pre ++ post) s) = (r, s') -> node_event s r s'.

(** The states a configured node reaches through any events, and through events that return. *)
Definition any_event (s s' : MNode) : Prop := exists r, node_event s r s'.
Definition returning_event (s s' : MNode) : Prop := node_event s (Ok tt) s'.

Lemma event_acts s r s' : ready s -> node_event s r s' -> rtc (act (is_Ok r)) s s'.
Proof.
  intros Hr [info auto Hs|signal Hs|msg Hw Hs|pre job post Hj Hs].
  - by eapply does_start.
  - by eapply does_processSignal.
  - eapply (does_recv node_logic); [intros; by apply (does_logic_at 2)|done..].
  - eapply rtc_l; [apply (act_watchdog _ s (pre ++ post))|].
    eapply does_runCallback; [|done]. by destruct s.
Qed.

Lemma any_events_acts s s' : ready s -> rtc any_event s s' -> rtc (act false) s s'.
Proof.
  intros Hr Hs. induction Hs as [s|s1 s2 s3 [r He] _ IH]; [done|].
  pose proof (event_acts _ _ _ Hr He) as Ha.
  etrans; [|apply IH; by eapply acts_ready]. destruct (is_Ok r); [by apply acts_weaken|done].
Qed.

Lemma returning_events_acts s s' : ready s -> rtc returning_event s s' -> rtc (act true) s s'.
Proof.
  intros Hr Hs. induction Hs as [s|s1 s2 s3 He _ IH]; [done|].
  pose proof (event_acts _ _ _ Hr He) as Ha. etrans; [done|]. apply IH. by eapply acts_ready.
Qed.

(** A property of nodes that every atomic change keeps holds after any events. *)
Lemma acts_invariant b (I : MNode -> Prop) s s' :
  (forall s s', act b s s' -> I s -> I s') -> rtc (act b) s s' -> I s -> I s'.
Proof. intros Ha. induction 1; eauto. Qed.

Lemma configured_sent (s : MNode) : configured s -> sent_ s = [].
Proof.
  intros (own_ip & own_port & root & fanout & lengths & logic0 & Hs). unfold setConfig in Hs.
  apply outcome_bind_Ok in Hs as (self1 & _ & Hs). apply outcome_bind_Ok in Hs as (self & _ & Hs).
  apply outcome_bind_Ok in Hs as (routing & _ & Hs). by injection Hs as <-.
Qed.

Lemma configured_routing (s : MNode) : configured s -> initial (routing_info_ s).
Proof.
  intros (own_ip & own_port & root & fanout & lengths & logic0 & Hs). unfold setConfig in Hs.
  apply outcome_bind_Ok in Hs as (self1 & _ & Hs). apply outcome_bind_Ok in Hs as (self & _ & Hs).
  apply outcome_bind_Ok in Hs as (routing & Hc & Hs). injection Hs as <-. by eapply initial_construct.
Qed.

(** C7: whatever happens to a node, every message it hands to the network is well typed (its
    header names the type of its payload, and the query of an exact search is a message an
    exact search may carry), its header passed the validation, and a request to join or to
    find a replacement carries a hop count of at most 64. *)
Theorem sent_messages_typed (s0 s : MNode) msg :
  configured s0 -> rtc any_event s0 s -> msg ∈ sent_ s ->
  well_typed msg = true /\ hop_bounded msg = true /\ Header.validate (getHeader msg) = true.
Proof.
  intros Hc Hs. pose proof (any_events_acts _ _ (configured_ready _ Hc) Hs) as Ha.
  pose (I := fun s : MNode => forall msg, msg ∈ sent_ s ->
    sendable msg /\ Header.validate (getHeader msg) = true).
  enough (I s) as Hi by (intros [[? ?] ?]%Hi; done).
  refine (acts_invariant _ I s0 s _ Ha _).
  - intros s1 s2 [] Hi m; destruct s1; cbn; try apply Hi.
    intros [Hm|Hm]%elem_of_app; [by apply Hi|]. by apply list_elem_of_singleton in Hm as ->.
  - intros m Hm. by rewrite (configured_sent _ Hc), elem_of_nil in Hm.
Qed.

(** A node never loses or changes its own address, also when it is replaced, takes over
    another position, leaves, or handles an event that throws. *)
Theorem node_address_invariant (s0 s : MNode) :
  configured s0 -> rtc any_event s0 s -> own_address (routing_info_ s) = own_address (routing_info_ s0).
Proof.
  intros Hc Hs. pose proof (any_events_acts _ _ (configured_ready _ Hc) Hs) as Ha.
  refine (acts_invariant _ (fun s : MNode => own_address (routing_info_ s) = own_address (routing_info_ s0))
            s0 s _ Ha eq_refl).
  intros s1 s2 [| | | |r Hr|p _|] Hi; try (destruct s1; exact Hi).
  - apply step_address in Hr. rewrite <- Hi, <- Hr. by destruct s1.
  - rewrite <- Hi, <- (keeps_address_setPosition p (routing_info_ s1)). by destruct s1.
Qed.

(** C6: as long as the events of a node with an IPv4 address return, its routing information is one that the operations of
    the routing tables produce. So whatever messages arrived, in whatever order and from whomever: while the node has a
    position, all of its tables hold exactly the positions computed for it, none is missing (the parent, the children in
    order, the routing-table neighbours and their children, sorted); while it has none, before it joins and after it left,
    they are empty. Every entry is an initialised node or a bare position, and the adjacent nodes, when set, are
    initialised nodes on their side of it. *)
Theorem node_tables_invariant (s0 s : MNode) :
  configured s0 -> Physical.isInitialized (own_address (routing_info_ s0)) = true -> rtc returning_event s0 s ->
  (if Node.isValidPeer (self_node_info_ (routing_info_ s)) then tables_match (routing_info_ s) else cleared (routing_info_ s)) /\
  Forall entry_ok (entries (routing_info_ s)) /\
  left_ok (routing_info_ s) (adjacent_left_ (routing_info_ s)) /\
  right_ok (routing_info_ s) (adjacent_right_ (routing_info_ s)).
Proof.
  intros Hc Hip Hs.
  assert (Haddr : own_address (routing_info_ s) = own_address (routing_info_ s0)).
  { apply node_address_invariant; [done|]. revert Hs. apply rtc_subrel. intros s1 s2 He. by exists (Ok tt). }
  pose proof (returning_events_acts _ _ (configured_ready _ Hc) Hs) as Ha.
  assert (Hreach : reachable (routing_info_ s)).
  { refine (acts_invariant _ (fun s : MNode => reachable (routing_info_ s)) s0 s _ Ha _).
    - intros s1 s2 [] Hi; try (destruct s1; exact Hi); [|done].
      replace (routing_info_ (set_routing_info r s1)) with r by by destruct s1.
      destruct Hi as (r0 & Hr0 & Hsteps). exists r0. split; [done|]. by eapply rtc_r.
    - exists (routing_info_ s0). split; [by apply configured_routing|done]. }
  split; [|apply reachable_inv, Hreach]. apply reachable_shape in Hreach. unfold shape in Hreach.
  destruct (Node.isValidPeer _); [|done]. apply Hreach. unfold own_address in Haddr. by rewrite Haddr.
Qed.

End Invariants.
