(* ===== verification/Delivery.v ===== *)
(** * Deliveries within deliveries

    Algorithms deliver messages to their own node while they handle another one. The chain ends
    after two such deliveries, so that the bound in [node_logic] never matters. *)

From S2P Require Import Prelude RoutingCalculations TreeMapper NodeInfo RoutingInformation ProcedureInfo Message Fsm MinhtonNode Access FindEnd SearchExact Response Join Leave Algorithms Effects.

(** ** Computations that agree as long as an invariant holds *)

Section Agree.
Context `{Payloads} `{SearchTypes}.
Variable I : MNode -> Prop.

Definition agree {A} (m1 m2 : M MNode A) : Prop := forall s, I s -> m1 s = m2 s.
Definition preserves {A} (m : M MNode A) : Prop := forall s, I s -> I (m s).2.

Lemma agree_refl {A} (m : M MNode A) : agree m m.
Proof. done. Qed.

Lemma agree_bind {A B} (m1 m2 : M MNode A) (k1 k2 : A -> M MNode B) :
  agree m1 m2 -> preserves m2 -> (forall a, returns m2 a -> agree (k1 a) (k2 a)) ->
  agree (m1 ≫= k1) (m2 ≫= k2).
Proof.
  intros Hm Hp Hk s Hs. mred. rewrite (Hm s Hs). specialize (Hp s Hs).
  destruct (m2 s) as [[a| |] s1] eqn:E; [|done..]. apply Hk; [by exists s, s1|done].
Qed.

Lemma preserves_bind {A B} (m : M MNode A) (k : A -> M MNode B) :
  preserves m -> (forall a, returns m a -> preserves (k a)) -> preserves (m ≫= k).
Proof.
  intros Hm Hk s Hs. mred. specialize (Hm s Hs). destruct (m s) as [[a| |] s1] eqn:E; [|done..].
  apply Hk; [by exists s, s1|done].
Qed.

(** The invariant is about what the algorithms remember, and whether the node is locked is all
    of that it reads. *)
Hypothesis I_logic : forall s s' : MNode, node_locked (logic_ s') = node_locked (logic_ s) -> I s -> I s'.

Lemma preserves_locked {A} (m : M MNode A) :
  (forall s, node_locked (logic_ (m s).2) = node_locked (logic_ s)) -> preserves m.
Proof. intros Hm s. by apply I_logic. Qed.

End Agree.

Section Nesting.
Context `{Platform} `{Inet} `{UuidText} `{Payloads} `{SearchTypes} `{Uuids}.

Definition keeps_lock {A} (m : M MNode A) : Prop :=
  forall s, node_locked (logic_ (m s).2) = node_locked (logic_ s).

Lemma keeps_lock_bind {A B} (m : M MNode A) (k : A -> M MNode B) :
  keeps_lock m -> (forall a, keeps_lock (k a)) -> keeps_lock (m ≫= k).
Proof.
  intros Hm Hk s. mred. specialize (Hm s). destruct (m s) as [[a| |] s1]; [|done..].
  cbn in Hm. rewrite <- Hm. apply Hk.
Qed.
Lemma keeps_lock_pure {A} (m : M MNode A) : (forall s, (m s).2 = s) -> keeps_lock m.
Proof. intros Hm s. by rewrite Hm. Qed.
Lemma keeps_lock_modify f : (forall s, node_locked (logic_ (f s)) = node_locked (logic_ s)) -> keeps_lock (modify f).
Proof. intros Hf s. apply Hf. Qed.
Lemma keeps_lock_zoom {T A} (sel : MNode -> T) upd (m : M T A) :
  (forall t s, node_locked (logic_ (upd t s)) = node_locked (logic_ s)) -> keeps_lock (zoom sel upd m).
Proof. intros Hu s. unfold zoom. destruct (m _). apply Hu. Qed.

Ltac keep_lock :=
  repeat first
    [ apply keeps_lock_bind; [|intros ?]
    | apply keeps_lock_modify; by intros [? ? ? ? ? ? []]
    | apply keeps_lock_zoom; by intros ? [? ? ? ? ? ? []]
    | apply keeps_lock_pure; intros ?; first [done | by unfold throw_if, assertion; case_match]
    | progress cbv beta zeta
    | case_match ].

Lemma keeps_lock_send msg : keeps_lock (send msg).
Proof. unfold send, prepareSending, getFsmState, fsm_process_event, fsm_isActionValid. keep_lock. Qed.

Lemma keeps_lock_newHeader sender target id : keeps_lock (newHeader sender target id).
Proof. unfold newHeader, freshId, gets_logic, modify_logic. keep_lock. Qed.

Lemma keeps_lock_headerTo target id : keeps_lock (headerTo target id).
Proof. unfold headerTo, getSelfNodeInfo, newHeader, freshId, gets_logic, modify_logic. keep_lock. Qed.

Lemma keeps_lock_prepareReceiving msg : keeps_lock (prepareReceiving (LogicState := LogicState) msg).
Proof.
  pose proof keeps_lock_send.
  unfold prepareReceiving, forwardToReplacement, getFsmState, fsm_process_event, fsm_isActionValid, addJob, cancelJob.
  repeat first [done | progress keep_lock].
Qed.

(** *** Messages that are handled without delivering another one *)

Definition is_leaf (msg : MessageVariant) : bool :=
  match msg with
  | MessageSearchExact _ _ _ _ | MessageSearchExactFailure _ _ _ | MessageSignoffParentRequest _
  | MessageLockNeighborResponse _ _ | MessageUnlockNeighbor _ => false
  | _ => true
  end.
Definition is_unlock (msg : MessageVariant) : bool :=
  match msg with MessageUnlockNeighbor _ => true | _ => false end.

(** What is asked of the entity search: it delivers a message to its own node only when an
    exact search has failed, and then one that is handled without delivering another. *)
Class EntitySearchNests `{!EntitySearch} := {
  esearch_delivers_nothing r1 r2 msg s :
    (match msg with MessageSearchExactFailure _ _ _ => False | _ => True end) ->
    esearch_process r1 msg s = esearch_process r2 msg s;
  esearch_delivers_leaf r1 r2 header destination query s :
    well_typed query = true -> (forall msg s', is_leaf msg = true -> r1 msg s' = r2 msg s') ->
    esearch_process r1 (MessageSearchExactFailure header destination query) s =
    esearch_process r2 (MessageSearchExactFailure header destination query) s;
}.

Context `{!EntitySearch} `{!EntitySearchNests}.

Definition unlocked (s : MNode) : Prop := node_locked (logic_ s) = false.
Definition anywhere (s : MNode) : Prop := True.

Lemma recv_agree (I : MNode -> Prop) r1 r2 msg :
  (forall s s' : MNode, node_locked (logic_ s') = node_locked (logic_ s) -> I s -> I s') ->
  (forall algorithm, agree I (process_with r1 algorithm msg) (process_with r2 algorithm msg)) ->
  agree I (MinhtonNode.recv (logic := logic_with r1) msg) (MinhtonNode.recv (logic := logic_with r2) msg).
Proof.
  intros Hi Hp. apply agree_bind; [done| |].
  - apply (preserves_locked _ Hi), keeps_lock_prepareReceiving.
  - intros [] _; [|done]. unfold Logic_process. case_match; [apply Hp|done].
Qed.

Lemma leaf_agree r1 r2 algorithm msg :
  is_leaf msg = true -> agree anywhere (process_with r1 algorithm msg) (process_with r2 algorithm msg).
Proof.
  intros Hl s _. destruct algorithm; cbn [process_with];
    [reflexivity|destruct msg; first [discriminate Hl|reflexivity]..|reflexivity|reflexivity|].
  apply esearch_delivers_nothing. by destruct msg.
Qed.

Lemma unlock_agree r1 r2 algorithm msg :
  is_unlock msg = true -> agree unlocked (process_with r1 algorithm msg) (process_with r2 algorithm msg).
Proof.
  intros Hl s Hs. destruct msg; try discriminate Hl. destruct algorithm; try reflexivity; cbn [process_with Leave_process].
  - unfold processUnlockNeighbor, gets_logic. rewrite !bind_gets. unfold unlocked in Hs. by rewrite Hs.
  - by apply esearch_delivers_nothing.
Qed.

(** [r1] and [r2] deliver alike all that handlers may deliver. *)
Definition deliver_alike (r1 r2 : MessageVariant -> M MNode unit) : Prop :=
  (forall msg, is_leaf msg = true -> agree anywhere (r1 msg) (r2 msg)) /\
  (forall msg, is_unlock msg = true -> agree unlocked (r1 msg) (r2 msg)) /\
  (forall msg, is_unlock msg = true -> well_typed msg = true -> preserves unlocked (r2 msg)).

Lemma unlocked_locked (s s' : MNode) :
  node_locked (logic_ s') = node_locked (logic_ s) -> unlocked s -> unlocked s'.
Proof. unfold unlocked. congruence. Qed.

Lemma unlock_preserves r msg :
  is_unlock msg = true -> preserves unlocked (process_with r LeaveAlgorithm msg).
Proof.
  intros Hl s Hs. destruct msg; try done; cbn [process_with Leave_process].
  unfold processUnlockNeighbor, gets_logic. rewrite !bind_gets. unfold unlocked in *. by rewrite Hs.
Qed.

Lemma unlock_algorithm msg : is_unlock msg = true -> well_typed msg = true ->
  message_type_to_algorithm_map_ (getMessageType msg) = Some LeaveAlgorithm.
Proof.
  intros Hu Hw. destruct msg; try done. apply well_typed_type, list_elem_of_singleton in Hw. rewrite Hw.
  vm_compute. reflexivity.
Qed.

Lemma recv_at_alike d1 d2 : deliver_alike (recv_at (S d1)) (recv_at (S d2)).
Proof.
  split_and!; intros msg Hm; [| |intros Hw].
  - apply recv_agree; [done|]. intros. by apply leaf_agree.
  - apply recv_agree; [apply unlocked_locked|]. intros. by apply unlock_agree.
  - apply preserves_bind; [apply (preserves_locked _ unlocked_locked), keeps_lock_prepareReceiving|].
    intros [] _; [|by intros ?]. unfold Logic_process. rewrite unlock_algorithm by done. by apply unlock_preserves.
Qed.

Lemma with_header_leaf h msg : is_leaf (with_header h msg) = is_leaf msg.
Proof. by destruct msg. Qed.
Lemma with_header_unlock h msg : is_unlock (with_header h msg) = is_unlock msg.
Proof. by destruct msg. Qed.
Lemma setTarget_with_header n msg msg' : setTarget n msg = Ok msg' -> exists h, msg' = with_header h msg.
Proof. unfold setTarget. intros (? & _ & Hr)%outcome_bind_Ok. injection Hr as <-. eauto. Qed.

Lemma search_agree (I : MNode -> Prop) r1 r2 destination query :
  (forall n q, setTarget n query = Ok q -> agree I (r1 q) (r2 q)) ->
  agree I (performSearchExact r1 destination query) (performSearchExact r2 destination query).
Proof.
  intros Hr s Hs. unfold performSearchExact. rewrite !bind_throw_if. case_match; [done|]. case_match; [done|].
  unfold getSelfNodeInfo. rewrite !bind_gets. case_match; [|done]. case_match; [done|].
  rewrite !bind_lift. destruct (setTarget _ query) as [q| |] eqn:E; [|done..]. by apply (Hr _ q E).
Qed.

Section Alike.
Variables r1 r2 : MessageVariant -> M MNode unit.
Hypothesis alike : deliver_alike r1 r2.

Lemma search_leaf_agree destination query :
  is_leaf query = true -> agree anywhere (performSearchExact r1 destination query) (performSearchExact r2 destination query).
Proof. intros Hq. apply search_agree. intros n q [h ->]%setTarget_with_header. apply alike. by rewrite with_header_leaf. Qed.

Lemma search_unlock_agree destination query :
  is_unlock query = true -> agree unlocked (performSearchExact r1 destination query) (performSearchExact r2 destination query).
Proof. intros Hq. apply search_agree. intros n q [h ->]%setTarget_with_header. apply alike. by rewrite with_header_unlock. Qed.

(** Steps over a statement two handlers share. *)
Ltac same :=
  apply agree_bind; [apply agree_refl | by intros ? | let a := fresh "a" in let Ha := fresh "Ha" in intros a Ha].

Ltac branch := match goal with |- agree _ (if ?b then _ else _) _ => destruct b end.

(** The message just constructed. *)
Ltac built make :=
  match goal with Hm : returns (lift (make _)) _ |- _ => apply returns_lift, constructed_Ok in Hm; subst end.

Lemma lockLeft_agree :
  agree anywhere (lockLeftNeighbor (performSearchExact r1)) (lockLeftNeighbor (performSearchExact r2)).
Proof.
  unfold lockLeftNeighbor. do 2 same. case_match; [branch; [|apply agree_refl]|apply agree_refl].
  do 5 same. built makeLockNeighborRequest. by apply search_leaf_agree.
Qed.

Lemma lockResponse_agree successful :
  agree anywhere (processLockNeighborResponse wait_for_acks (performSearchExact r1) r1 successful)
    (processLockNeighborResponse wait_for_acks (performSearchExact r2) r2 successful).
Proof.
  unfold processLockNeighborResponse. do 5 same. case_match; [apply agree_refl|].
  do 3 same. apply agree_bind; [branch; [apply lockLeft_agree|apply agree_refl]|done|intros ? _].
  same. branch; [apply agree_refl|]. do 4 same. apply agree_bind; [by apply alike|done|intros ? _].
  apply agree_refl.
Qed.

Lemma signoffRequest_agree header :
  agree anywhere (processSignOffParentRequest wait_for_acks (performSearchExact r1) r1 header)
    (processSignOffParentRequest wait_for_acks (performSearchExact r2) r2 header).
Proof.
  unfold processSignOffParentRequest. do 2 same. branch; [apply agree_refl|]. do 3 same.
  apply agree_bind; [|done|intros ? _; apply agree_refl].
  branch; [do 3 same; apply lockResponse_agree|]. do 3 same. branch; [apply agree_refl|].
  do 3 same. built makeLockNeighborRequest. by apply search_leaf_agree.
Qed.

(** Unlocking happens on an unlocked node from its second statement on. *)
Ltac same_unlocked :=
  apply agree_bind;
  [apply agree_refl
  |apply (preserves_locked _ unlocked_locked);
   first [apply keeps_lock_headerTo | apply keeps_lock_send
         | unfold ask, gets_leave, gets_logic, getSelfNodeInfo, modify_leave, modify_logic, assertion; keep_lock]
  |let a := fresh "a" in let Ha := fresh "Ha" in intros a Ha].

Lemma searchUnlock_agree info id :
  agree unlocked (searchUnlock (performSearchExact r1) info id) (searchUnlock (performSearchExact r2) info id).
Proof.
  unfold searchUnlock. do 2 same_unlocked. built makeUnlockNeighbor. by apply search_unlock_agree.
Qed.

Ltac step_unlocked :=
  apply preserves_bind;
  [apply (preserves_locked _ unlocked_locked);
   first [apply keeps_lock_headerTo | apply keeps_lock_send
         | unfold ask, gets_leave, gets_logic, getSelfNodeInfo, modify_leave, modify_logic, assertion; keep_lock]
  |let a := fresh "a" in let Ha := fresh "Ha" in intros a Ha].

Lemma sendUnlock_preserves target id : preserves unlocked (sendUnlock target id).
Proof. apply (preserves_locked _ unlocked_locked). unfold sendUnlock.
  apply keeps_lock_bind; [apply keeps_lock_headerTo|intros ?]. apply keeps_lock_bind; [by apply keeps_lock_pure|intros ?].
  apply keeps_lock_send.
Qed.

Lemma searchUnlock_preserves info id : preserves unlocked (searchUnlock (performSearchExact r2) info id).
Proof.
  unfold searchUnlock. do 2 step_unlocked. built makeUnlockNeighbor. unfold performSearchExact, notifyAboutFailure.
  do 3 step_unlocked. case_match.
  - case_match; [done|]. step_unlocked. apply returns_lift in Ha3. pose proof Ha3 as Hq. apply setTarget_with_header in Hq as [h ->].
    apply alike; [done|]. by eapply setTarget_well_typed.
  - step_unlocked. case_match; do 2 step_unlocked; apply (preserves_locked _ unlocked_locked), keeps_lock_send.
Qed.

Lemma agree_lock_false {A} (k1 k2 : unit -> M MNode A) :
  (forall u, agree unlocked (k1 u) (k2 u)) -> agree anywhere (lock false ≫= k1) (lock false ≫= k2).
Proof.
  intros Hk s _. unfold lock, modify_logic. rewrite !bind_modify. apply Hk. by destruct s as [? ? ? ? ? ? []].
Qed.

Lemma unlock_process_agree header :
  agree anywhere (processUnlockNeighbor (performSearchExact r1) header)
    (processUnlockNeighbor (performSearchExact r2) header).
Proof.
  unfold processUnlockNeighbor. do 2 same. apply agree_lock_false. intros _. do 2 same_unlocked.
  apply agree_bind.
  - branch; [|apply agree_refl]. do 2 same_unlocked. apply agree_bind; [| |intros; apply agree_refl].
    + branch; [apply agree_refl|]. same_unlocked. apply searchUnlock_agree.
    + destruct (Node.isValidPeer _); [do 2 step_unlocked; apply sendUnlock_preserves|].
      step_unlocked. apply searchUnlock_preserves.
  - destruct a2; [|by intros ?]. do 2 step_unlocked. apply preserves_bind.
    + destruct (Node.isValidPeer _); [do 2 step_unlocked; apply sendUnlock_preserves|].
      step_unlocked. apply searchUnlock_preserves.
    + intros ? _. apply (preserves_locked _ unlocked_locked). unfold modify_leave, modify_logic. keep_lock.
  - intros ? _. same_unlocked. branch; [|apply agree_refl]. do 3 same_unlocked.
    apply agree_bind; [| |intros; apply agree_refl].
    + branch; [apply agree_refl|]. same_unlocked. apply searchUnlock_agree.
    + destruct (Node.isValidPeer _); [step_unlocked; apply sendUnlock_preserves|].
      step_unlocked. apply searchUnlock_preserves.
Qed.

Definition is_SearchExact (msg : MessageVariant) : bool :=
  match msg with MessageSearchExact _ _ _ _ => true | _ => false end.

(** Everything but an exact search is handled alike. *)
Lemma process_agree algorithm msg :
  is_SearchExact msg = false -> well_typed msg = true ->
  agree anywhere (process_with r1 algorithm msg) (process_with r2 algorithm msg).
Proof.
  intros Hm Hw. destruct (is_leaf msg) eqn:E; [by apply leaf_agree|].
  destruct algorithm; cbn [process_with]; [apply agree_refl|..|apply agree_refl|apply agree_refl|];
    destruct msg; try discriminate E; try discriminate Hm; cbn [Leave_process SearchExact_process];
    try (intros s _; by apply esearch_delivers_nothing).
  - apply agree_refl.
  - apply signoffRequest_agree.
  - apply lockResponse_agree.
  - apply unlock_process_agree.
  - apply agree_refl.
  - apply agree_refl.
  - apply agree_refl.
  - apply agree_refl.
  - intros s _. apply esearch_delivers_leaf.
    + cbn [well_typed] in Hw. apply andb_prop in Hw as [_ [_ Hq]%andb_prop]. exact Hq.
    + intros m s' Hl. by apply (proj1 alike).
Qed.

End Alike.

(** From depth 2 on all messages but exact searches are delivered alike. *)
Lemma recv_at_agree d1 d2 msg :
  is_SearchExact msg = false -> well_typed msg = true ->
  agree anywhere (recv_at (S (S d1)) msg) (recv_at (S (S d2)) msg).
Proof.
  intros Hm Hw. apply recv_agree; [done|]. intros algorithm. apply process_agree; [apply recv_at_alike|done..].
Qed.

(** C8: the chain of deliveries within deliveries ends. However deep they are allowed to nest,
    a node handles every well-typed message in the same way, with the same result and the same
    final state, as with the two levels of [node_logic]: an exact search delivers its query,
    a failed one the query of an entity search, the sign-off of a child or the answer to a lock
    request delivers REMOVE_NEIGHBOR, and an unlock request that a search would bring back to
    the node itself meets a node that is already unlocked. *)
Theorem nested_delivery_bounded depth msg s :
  (2 <= depth)%nat -> well_typed msg = true ->
  MinhtonNode.recv (logic := logic_at depth) msg s = MinhtonNode.recv (logic := node_logic) msg s.
Proof.
  intros Hd Hw. destruct depth as [|[|depth]]; [lia..|]. apply recv_agree with (I := anywhere); [done| |done].
  intros algorithm. destruct (is_SearchExact msg) eqn:E; [|apply process_agree; [apply recv_at_alike|done..]].
  destruct msg; try discriminate E. destruct algorithm; cbn [process_with]; try apply agree_refl.
  - apply search_agree. intros n q Hq. cbn [well_typed] in Hw. apply andb_prop in Hw as [_ [Hs Hq']%andb_prop].
    pose proof Hq as Hq2. apply setTarget_with_header in Hq2 as [h ->].
    apply recv_at_agree; [by destruct msg|]. by eapply setTarget_well_typed.
  - intros s' _. by apply esearch_delivers_nothing.
Qed.

End Nesting.
