(* ===== verification/SearchProperties.v ===== *)
(** * Exact searches arrive

    Properties of the exact search of [SearchExact]: every hop gets strictly closer to the
    destination, the best known node is taken, and a search therefore visits no node twice. *)

From S2P Require Import Prelude RoutingCalculations TreeMapper NodeInfo RoutingInformation Message Fsm MinhtonNode Access FindEnd SearchExact Join Effects.

Section Search.
Context `{Platform} `{Inet} `{UuidText} `{Payloads} `{SearchTypes} `{Uuids}.

(** The distance to the destination, and the nodes a search considers: those that are not
    behind the node, seen from the destination. *)
Definition distance (dest_value : double) (node : NodeInfo) : double := d_abs (d_sub (horizontal node) dest_value).

Definition candidates (dest_value : double) (r : RoutingInformation) : list NodeInfo :=
  List.filter (fun node =>
    if d_lt (horizontal (self_node_info_ r)) dest_value
    then negb (d_lt (horizontal node) (horizontal (self_node_info_ r)))
    else negb (d_lt (horizontal (self_node_info_ r)) (horizontal node)))
    (getAllUniqueKnownExistingNeighbors r).

Lemma closer_link_spec dest_value nodes best :
  best.1 = distance dest_value best.2 ->
  let best' := foldl (closer_link dest_value) best nodes in
  best'.1 = distance dest_value best'.2 /\
  (forall node, node ∈ nodes -> d_lt (distance dest_value node) best'.1 = false) /\
  (best' = best \/ best'.2 ∈ nodes /\ d_lt best'.1 best.1 = true).
Proof.
  revert best. induction nodes as [|x nodes IH]; intros best Hb; cbn [foldl].
  - split_and!; [done|by intros ? ?%elem_of_nil|by left].
  - pose (b1 := closer_link dest_value best x). fold b1.
    assert (Hb1 : b1.1 = distance dest_value b1.2 /\ d_lt (distance dest_value x) b1.1 = false /\
              (b1 = best \/ b1.2 = x /\ d_lt b1.1 best.1 = true)).
    { unfold b1, closer_link. fold (distance dest_value x). destruct (d_lt (distance dest_value x) best.1) eqn:E.
      - split_and!; [done|apply d_lt_irrefl|by right].
      - split_and!; [done|done|by left]. }
    destruct Hb1 as (Hd & Hx & Hc). destruct (IH b1 Hd) as (Hd' & Hall & Hc'). cbv zeta.
    split_and!; [done| |].
    + intros node [->|Hn]%elem_of_cons; [|by apply Hall].
      apply not_true_is_false. intros E.
      destruct Hc' as [Hc'|[_ Hc']]; [by rewrite Hc', Hx in E|]. by rewrite (d_lt_trans _ _ _ E Hc') in Hx.
    + destruct Hc' as [->|[Hin Hlt]].
      * destruct Hc as [->|[Hc Hlt]]; [by left|]. right. split; [rewrite Hc; set_solver|done].
      * right. split; [set_solver|]. destruct Hc as [->|[_ Hc]]; [done|]. by eapply d_lt_trans.
Qed.

Lemma calcClosestRedirect_unfold dest_value r :
  calcClosestRedirect dest_value r =
  snd (foldl (closer_link dest_value) (distance dest_value (self_node_info_ r), self_node_info_ r)
         (candidates dest_value r)).
Proof. unfold calcClosestRedirect, candidates. by destruct (d_lt _ dest_value). Qed.

Lemma redirect_spec dest_value r :
  let node := calcClosestRedirect dest_value r in
  (forall c, c ∈ candidates dest_value r -> d_lt (distance dest_value c) (distance dest_value node) = false) /\
  (node = self_node_info_ r \/
   node ∈ candidates dest_value r /\
   d_lt (distance dest_value node) (distance dest_value (self_node_info_ r)) = true).
Proof.
  cbv zeta. rewrite calcClosestRedirect_unfold.
  destruct (closer_link_spec dest_value (candidates dest_value r)
              (distance dest_value (self_node_info_ r), self_node_info_ r) eq_refl) as (Hd & Ha & Hc).
  rewrite <- Hd. split; [done|]. destruct Hc as [->|[Hin Hlt]]; [by left|right]. done.
Qed.

(** The redirect is the node itself only if no candidate is closer. *)
Lemma redirect_self dest_value r :
  Logical.eqb (l_node_info_ (calcClosestRedirect dest_value r)) (l_node_info_ (self_node_info_ r)) = true ->
  forall c, c ∈ candidates dest_value r ->
  d_lt (distance dest_value c) (distance dest_value (self_node_info_ r)) = false.
Proof.
  intros He c Hc. destruct (redirect_spec dest_value r) as [Ha _]. specialize (Ha c Hc).
  apply Logical.eqb_hvalue in He. unfold distance, horizontal in *. by rewrite He in Ha.
Qed.

Lemma redirect_other dest_value r :
  Logical.eqb (l_node_info_ (calcClosestRedirect dest_value r)) (l_node_info_ (self_node_info_ r)) = false ->
  calcClosestRedirect dest_value r ∈ candidates dest_value r /\
  d_lt (distance dest_value (calcClosestRedirect dest_value r)) (distance dest_value (self_node_info_ r)) = true.
Proof.
  intros He. destruct (redirect_spec dest_value r) as [_ [Hs|Hc]]; [|done].
  rewrite Hs in He. by rewrite (proj2 (Logical.eqb_spec _ _)) in He.
Qed.

(** ** One hop *)

Lemma headerTo_Ok target id (s : MNode) h s' :
  headerTo target id s = (Ok h, s') ->
  sender_ h = getNodeInfo s /\ target_ h = target /\ ref_event_id_ h = id /\ sent_ s' = sent_ s.
Proof.
  unfold headerTo, getSelfNodeInfo, newHeader, freshId, gets_logic, modify_logic. mred.
  destruct (generateUUID _) as [id1 source1]. intros [= <- <-]. destruct s; split_and!; reflexivity.
Qed.

Lemma send_Ok msg (s : MNode) s' : send msg s = (Ok tt, s') -> sent_ s' = sent_ s ++ [msg].
Proof.
  unfold send. intros ([] & s1 & Hp & Hm)%bind_Ok. apply modify_Ok in Hm as ->.
  assert (sent_ s1 = sent_ s) as Hs; [|by destruct s1; cbn in *; rewrite Hs].
  unfold prepareSending, getFsmState, fsm_process_event, fsm_isActionValid in Hp.
  apply bind_Ok in Hp as (? & ? & [_ ->]%throw_if_Ok & Hp).
  rewrite bind_gets, bind_modify in Hp. apply bind_Ok in Hp as (valid & s2 & Hv & Hp).
  apply bind_Ok in Hp as (? & ? & [_ ->]%throw_if_Ok & Hp).
  rewrite bind_gets in Hp. apply throw_if_Ok in Hp as [_ ->].
  unfold zoom in Hv. destruct (isActionValid _). injection Hv as _ <-. by destruct s.
Qed.

(** How an exact search goes on, by the messages a node sends. *)
Definition search_hop (destination : NodeInfo) (query : MessageVariant) (s : MNode) (msg : MessageVariant) : Prop :=
  let dest_value := horizontal destination in
  let self := getNodeInfo s in
  let header := getHeader msg in
  sender_ header = self /\ ref_event_id_ header = query_ref_event_id (getHeader query) /\
  match msg with
  | MessageSearchExact _ destination' query' notify =>
      destination' = destination /\ query' = query /\ notify = false /\
      target_ header ∈ candidates dest_value (routing_info_ s) /\
      d_lt (distance dest_value (target_ header)) (distance dest_value self) = true /\
      forall c, c ∈ candidates dest_value (routing_info_ s) ->
      d_lt (distance dest_value c) (distance dest_value (target_ header)) = false
  | MessageSearchExactFailure _ destination' query' =>
      destination' = destination /\ query' = query /\ target_ header = sender_ (getHeader query) /\
      forall c, c ∈ candidates dest_value (routing_info_ s) ->
      d_lt (distance dest_value c) (distance dest_value self) = false
  | _ => False
  end.

(** C16: one hop of an exact search. A node that is not at the destination's place on the line
    sends exactly one message: SEARCH_EXACT with the unchanged query to the candidate closest
    to the destination, which is strictly closer than the node itself, or, when no candidate
    is closer, SEARCH_EXACT_FAILURE to the sender of the query; both refer to the event of the
    query. A node at the destination's place hands the query to itself, with itself as the
    target, unless the query is empty. *)
Theorem search_exact_hop recv destination query s s' :
  performSearchExact recv destination query s = (Ok tt, s') ->
  if d_eq (horizontal (getNodeInfo s)) (horizontal destination) then
    s' = s /\ getMessageType query = kEmpty \/
    exists query', setTarget (getNodeInfo s) query = Ok query' /\ recv query' s = (Ok tt, s')
  else exists msg, sent_ s' = sent_ s ++ [msg] /\ search_hop destination query s msg.
Proof.
  unfold performSearchExact. rewrite !bind_throw_if. case_match; [done|]. case_match; [done|].
  unfold getSelfNodeInfo. rewrite bind_gets. case_match.
  { case_bool_decide as Ht.
    - intros [= <-]. by left.
    - rewrite bind_lift. destruct (setTarget _ query) as [query'| |] eqn:E; [|done..].
      intros Hr. right. by exists query'. }
  rewrite bind_gets. set (self := getNodeInfo s).
  destruct (Logical.eqb _ _) eqn:He.
  - unfold notifyAboutFailure. intros (h & s1 & Hh & Hs)%bind_Ok. rewrite bind_lift in Hs.
    destruct (makeSearchExactFailure _ _ _) as [m| |] eqn:Hm; [|done..].
    apply headerTo_Ok in Hh as (? & ? & ? & Hsent). apply send_Ok in Hs. rewrite Hsent in Hs.
    apply constructed_Ok in Hm as ->. eexists. split; [exact Hs|]. split_and!; [done..|].
    by apply redirect_self.
  - intros (h & s1 & Hh & Hs)%bind_Ok. rewrite bind_lift in Hs.
    destruct (makeSearchExact _ _ _ _) as [m| |] eqn:Hm; [|done..].
    apply headerTo_Ok in Hh as (? & Ht & ? & Hsent). apply send_Ok in Hs. rewrite Hsent in Hs.
    apply constructed_Ok in Hm as ->. eexists. split; [exact Hs|].
    unfold search_hop. cbn [getHeader target_ Header.setMessageType]. rewrite Ht.
    destruct (redirect_other _ _ He). split_and!; try done. apply redirect_spec.
Qed.

(** ** The whole way *)

(** A search for [dest_value] goes from the node with routing information [r] to the one with
    [r']. *)
Definition hop (dest_value : double) (r r' : RoutingInformation) : Prop :=
  let node := calcClosestRedirect dest_value r in
  Logical.eqb (l_node_info_ node) (l_node_info_ (self_node_info_ r)) = false /\
  horizontal (self_node_info_ r') = horizontal node.

Inductive way (dest_value : double) : RoutingInformation -> list RoutingInformation -> Prop :=
| way_end r : way dest_value r []
| way_hop r r' rs : hop dest_value r r' -> way dest_value r' rs -> way dest_value r (r' :: rs).

Lemma hop_closer dest_value r r' :
  hop dest_value r r' ->
  d_lt (distance dest_value (self_node_info_ r')) (distance dest_value (self_node_info_ r)) = true.
Proof.
  intros [He Hh]. destruct (redirect_other _ _ He) as [_ Hlt].
  unfold distance in *. by rewrite Hh.
Qed.

Lemma way_closer dest_value r rs :
  way dest_value r rs ->
  forall r', r' ∈ rs ->
  d_lt (distance dest_value (self_node_info_ r')) (distance dest_value (self_node_info_ r)) = true.
Proof.
  induction 1 as [r|r r1 rs Hhop _ IH]; intros r' Hr'; [by apply elem_of_nil in Hr'|].
  apply elem_of_cons in Hr' as [->|Hr']; [by apply hop_closer|].
  eapply d_lt_trans; [by apply IH|by apply hop_closer].
Qed.

Lemma way_NoDup dest_value r rs : way dest_value r rs -> NoDup (r :: rs).
Proof.
  induction 1 as [r|r r1 rs Hhop Hway IH]; constructor; try done; [by intros ?%elem_of_nil|apply NoDup_nil_2|].
  intros Hin. pose proof (way_closer _ _ (r1 :: rs) (way_hop _ _ _ _ Hhop Hway) _ Hin) as Hlt.
  by rewrite d_lt_irrefl in Hlt.
Qed.

(** C17: an exact search ends. However the routing information of the nodes looks, a search that
    runs through the nodes of a network visits no node twice, so that it makes fewer hops than
    the network has nodes. *)
Theorem search_exact_terminates dest_value net r rs :
  way dest_value r rs -> r ∈ net -> (forall r', r' ∈ rs -> r' ∈ net) ->
  NoDup (r :: rs) /\ (length rs < length net)%nat.
Proof.
  intros Hw Hr Hrs. pose proof (way_NoDup _ _ _ Hw) as Hn. split; [done|].
  pose proof (submseteq_length (r :: rs) net) as Hl. cbn in Hl. apply Hl.
  apply NoDup_submseteq; [done|]. intros r' [->|?]%elem_of_cons; eauto.
Qed.

End Search.
