(* ===== verification/JoinProperties.v ===== *)
(** * Joining, request by request

    Properties of single handlers of the join and of the acknowledgements it waits for: what
    becomes of a request that cannot be handled, which position a new child gets, when the
    acknowledgements are complete, and that the hop-by-hop search ends. *)

From S2P Require Import Prelude RoutingCalculations TreeMapper NodeInfo RoutingInformation RoutingInvariants ProcedureInfo Message Fsm MinhtonNode Access FindEnd SearchExact Response Join Leave Algorithms Effects.

(** ** Requests that end in an exception *)

Section Blocked.
Context `{Platform} `{Inet} `{UuidText} `{Payloads} `{SearchTypes} `{Uuids} `{!EntitySearch}.

(** A connected node with a join procedure on record. *)
Definition join_pending (s : MNode) : Prop :=
  ready s /\ m_state (fsm_ s) = kConnected /\
  is_Some (event_ids_ (procedure_info_ (logic_ s)) !! kJoinProcedure).

(** The record is there after [m] has thrown, and after it has returned some [a] with [Q a]. *)
Definition records {A} (Q : A -> Prop) (m : M MNode A) : Prop :=
  forall s r s', join_pending s -> m s = (r, s') ->
  match r with Ok a => Q a -> join_pending s' | Throw _ => join_pending s' | Undefined => True end.

Definition always {A} (a : A) : Prop := True.
Definition never {A} (a : A) : Prop := False.
Definition if_true (b : bool) : Prop := b = true.

Abbreviation keeps_record := (records always).

Lemma records_weaken {A} (Q : A -> Prop) (m : M MNode A) : keeps_record m -> records Q m.
Proof. intros Hm s r s' Hs He. specialize (Hm s r s' Hs He). destruct r; [intros _; by apply Hm|done..]. Qed.

Lemma records_bind {A B} (Q : B -> Prop) (m : M MNode A) (k : A -> M MNode B) :
  keeps_record m -> (forall a, records Q (k a)) -> records Q (m ≫= k).
Proof.
  intros Hm Hk s r s' Hs He. mred_in He. specialize (Hm s). destruct (m s) as [[a|e|] s1].
  - eapply Hk; [|done]. by apply (Hm _ _ Hs eq_refl).
  - injection He as <- <-. by apply (Hm _ _ Hs eq_refl).
  - by injection He as <- <-.
Qed.

(** After handing a request on, the node does not accept it itself. *)
Lemma records_then (m : M MNode unit) : records never m -> records if_true (m;; mret false).
Proof.
  intros Hm s r s' Hs He. mred_in He. specialize (Hm s). destruct (m s) as [[[]|e|] s1]; injection He as <- <-.
  - done.
  - by apply (Hm _ _ Hs eq_refl).
  - done.
Qed.

Lemma records_decided (m : M MNode bool) (k : M MNode unit) :
  records if_true m -> records never k -> records never (b ← m; if (b : bool) then k else mret tt).
Proof.
  intros Hm Hk s r s' Hs He. mred_in He. specialize (Hm s). destruct (m s) as [[[]|e|] s1].
  - eapply Hk; [|done]. by apply (Hm _ _ Hs eq_refl).
  - by injection He as <- <-.
  - injection He as <- <-. by apply (Hm _ _ Hs eq_refl).
  - by injection He as <- <-.
Qed.

Lemma keeps_record_pure {A} (m : M MNode A) : (forall s, (m s).2 = s) -> keeps_record m.
Proof. intros Hm s r s' Hs He. specialize (Hm s). rewrite He in Hm. subst. by destruct r. Qed.

Lemma keeps_record_logic f :
  (forall l, procedure_info_ (f l) = procedure_info_ l) -> keeps_record (modify_logic f).
Proof.
  intros Hf s r s' (Hr & Hc & Hk) [= <- <-] _. destruct s. unfold join_pending, ready in *. cbn in *. by rewrite Hf.
Qed.

Lemma keeps_record_save nodes : keeps_record (procedure (save kAcceptChildProcedure nodes)).
Proof.
  intros s r s' (Hr & Hc & Hk). unfold procedure, zoom, save. mred.
  destruct (hasKey _ _); intros [= <- <-]; destruct s as [? ? ? ? ? ? [[]]]; done.
Qed.

Lemma keeps_record_loadEventId : keeps_record (procedure (loadEventId kJoinProcedure)).
Proof.
  intros s r s' (Hr & Hc & [id Hk]). unfold procedure, zoom, loadEventId. mred.
  assert (hasKey kJoinProcedure (procedure_info_ (logic_ s)) = true) as ->.
  { unfold hasKey, hasEvent. by rewrite Hk. }
  cbn [negb]. rewrite Hk. intros [= <- <-] _. destruct s as [? ? ? ? ? ? []]. unfold join_pending, ready in *. cbn in *.
  by rewrite Hk.
Qed.

Lemma records_send msg : records never (send msg).
Proof.
  intros s r s' Hs. rewrite send_spec by apply Hs. cbv zeta.
  destruct (negb _); [by intros [= <- <-]|]. destruct (next _ _); by intros [= <- <-].
Qed.

(** Nothing but [send] and what follows it touches the machine or the record. *)
Ltac keep_record :=
  repeat first
    [ apply keeps_record_loadEventId | apply keeps_record_save
    | apply records_send
    | apply keeps_record_logic; by intros []
    | apply records_bind; [|intros ?]
    | apply keeps_record_pure; intros ?; first [done | by unfold throw_if, assertion; case_match]
    | progress cbv beta zeta
    | case_match
    | apply records_weaken; (apply keeps_record_pure; intros ?; done) ].

Lemma keeps_record_headerTo target id : keeps_record (headerTo target id).
Proof. unfold headerTo, getSelfNodeInfo, newHeader, freshId, gets_logic. keep_record. Qed.

Lemma keeps_record_addJob f ms type : keeps_record (addJob f ms type).
Proof. intros s r s' Hs [= <- <-] _. by destruct s. Qed.

(** Handing a request on removes the record, but only as the last statement. *)
Lemma records_send_remove msg : records never (send msg;; procedure (removeEventId kJoinProcedure)).
Proof.
  intros s r s' Hs He. mred_in He. pose proof (records_send msg s) as Ht.
  destruct (send msg s) as [[[]|e'|] s1] eqn:E; [|injection He as <- <-; by apply (Ht _ _ Hs eq_refl)|by injection He as <- <-].
  rewrite send_spec in E by apply Hs. cbv zeta in E. destruct (negb _); [done|].
  destruct (next _ _); [|done]. injection E as <-. destruct Hs as (_ & _ & [id Hk]).
  unfold procedure, zoom, removeEventId in He. mred_in He.
  assert (hasKey kJoinProcedure (procedure_info_ (logic_ s)) = true) as Hh.
  { unfold hasKey, hasEvent. by rewrite Hk. }
  destruct s. cbn in *. rewrite Hh in He. by injection He as <- <-.
Qed.

Lemma records_forward target origin progress hops :
  records never (forwardRequest true target origin progress hops).
Proof.
  pose proof keeps_record_headerTo. unfold forwardRequest, withRefEventId. 
  repeat first [done | apply records_send_remove | apply records_bind; [solve [repeat first [done|progress keep_record]]|intros ?] | progress cbv zeta].
Qed.

Ltac keep_forward :=
  repeat first
    [ apply records_forward
    | apply records_bind; [solve [keep_record]|intros ?]
    | apply records_then
    | progress cbv beta zeta
    | case_match
    | solve [apply records_weaken; keep_record] ].

Lemma records_search origin left_side hops : records never (searchEndOnLevel true origin left_side hops).
Proof. unfold searchEndOnLevel, getSelfNodeInfo. keep_forward. Qed.

Lemma records_adjacent origin hops : records never (forwardToAdjacentNode true origin hops).
Proof. unfold forwardToAdjacentNode, getSelfNodeInfo. keep_forward. Qed.

Lemma records_checkRight origin hops : records never (checkRight true origin hops).
Proof. pose proof records_search. unfold checkRight. repeat first [done|progress keep_forward]. Qed.

Lemma records_decideRight origin hops : records if_true (decideRight true origin hops).
Proof. pose proof records_search. unfold decideRight. repeat first [done|progress keep_forward]. Qed.

Lemma records_decide origin hops : records if_true (decideNextStep true origin hops).
Proof.
  pose proof records_search. pose proof records_decideRight.
  unfold decideNextStep. repeat first [done|progress keep_forward].
Qed.

Lemma records_accept entering balanced : records never (performAcceptChild entering balanced).
Proof.
  pose proof keeps_record_headerTo. pose proof keeps_record_addJob.
  unfold performAcceptChild, performSendJoinAccept, setTimeout, joinHeader, getSelfNodeInfo, gets_logic, lock, hasProcedure.
  repeat first [done|progress keep_record].
Qed.

#[local] Instance blocked_logic : Logic (LogicState := LogicState) := node_logic.

Lemma well_typed_join header entering progress hops :
  message_type_ header = kJoin -> well_typed (MessageJoin header entering progress hops) = true.
Proof.
  intros Ht. cbn. rewrite andb_true_r. apply bool_decide_true. unfold getMessageType. cbn. rewrite Ht. by left.
Qed.

(** A connected node that is asked to let a node join hands the request to its algorithm. *)
Lemma recv_join header entering progress hops (s : MNode) :
  ready s -> m_state (fsm_ s) = kConnected -> message_type_ header = kJoin ->
  recv (MessageJoin header entering progress hops) s = processJoin header entering progress hops s.
Proof.
  intros Hr Hs Ht. unfold recv. mred. rewrite prepareReceiving_gated; [|done|by apply well_typed_join|by rewrite Hs].
  unfold misdirected, recv_event, getMessageType. cbn [getHeader]. rewrite Ht, Hs. cbn [andb].
  replace (next kConnected _) with (Some kConnected) by by vm_compute. cbv zeta.
  rewrite fsm_ready_id by done. unfold note_admitted, getMessageType. cbn [getHeader]. rewrite Ht.
  unfold Logic_process, getMessageType. cbn [getHeader]. by rewrite Ht.
Qed.

Lemma processJoin_gate header entering progress hops (s : MNode) :
  hasKey kJoinProcedure (procedure_info_ (logic_ s)) = true ->
  processJoin header entering progress hops s =
  if node_locked (logic_ s) then (Ok tt, s) else (Throw key_exists, s).
Proof.
  intros Hk. unfold processJoin, gets_logic. rewrite bind_gets. destruct (node_locked _); [done|].
  assert (Hsave : forall id, procedure (saveEventId kJoinProcedure id) s = (Throw key_exists, s)).
  { intros id. unfold procedure, zoom, saveEventId. mred. rewrite Hk. by destruct s as [? ? ? ? ? ? []]. }
  destruct (ref_event_id_ header =? 0); mred; by rewrite Hsave.
Qed.

Lemma pending_hasKey s : join_pending s -> hasKey kJoinProcedure (procedure_info_ (logic_ s)) = true.
Proof. intros (_ & _ & [id Hk]). unfold hasKey, hasEvent. by rewrite Hk. Qed.

Lemma processJoin_throws header entering progress hops s e s' :
  ready s -> m_state (fsm_ s) = kConnected ->
  processJoin header entering progress hops s = (Throw e, s') ->
  ready s' /\ m_state (fsm_ s') = kConnected /\ hasKey kJoinProcedure (procedure_info_ (logic_ s')) = true.
Proof.
  intros Hr Hs He. destruct (hasKey kJoinProcedure (procedure_info_ (logic_ s))) eqn:Hk.
  { rewrite processJoin_gate in He by done. destruct (node_locked _); [done|]. by injection He as _ <-. }
  enough (join_pending s') as Hp by (split_and!; [apply Hp..|by apply pending_hasKey]).
  unfold processJoin, gets_logic in He. rewrite bind_gets in He. destruct (node_locked _); [done|].
  assert (Hsave : forall id, exists s1, procedure (saveEventId kJoinProcedure id) s = (Ok tt, s1) /\ join_pending s1).
  { intros id. unfold procedure, zoom, saveEventId. mred. rewrite Hk. eexists. split; [done|].
    destruct s as [? ? ? ? ? ? [[]]]. split_and!; [done..|]. eexists. apply lookup_insert_eq. }
  apply bind_throws in He as [He|([] & s1 & Hs1 & He)].
  - exfalso. destruct (ref_event_id_ header =? 0); edestruct Hsave as (s1 & Hs1 & _); by rewrite Hs1 in He.
  - assert (Hp : join_pending s1).
    { destruct (ref_event_id_ header =? 0); edestruct Hsave as (s2 & Hs2 & Hp); rewrite Hs2 in Hs1; by injection Hs1 as <-. }
    refine (records_decided _ _ _ (records_accept entering true) s1 (Throw e) s' Hp He).
    pose proof records_adjacent. pose proof records_decide. pose proof records_search. pose proof records_checkRight.
    repeat first [done|progress keep_forward].
Qed.

(** C9: an exception while a connected node handles a request to join makes the node deaf to
    all further ones. Whatever the request was and whatever was thrown, the entry of the join
    procedure stays in the procedure info; from then on every JOIN message is dropped, if the
    node was already locked for accepting the child, or refused with the exception of an
    occupied key, and the node stays as it is. *)
Theorem join_exception_blocks header entering progress hops (s : MNode) e s' :
  ready s -> m_state (fsm_ s) = kConnected -> message_type_ header = kJoin ->
  recv (MessageJoin header entering progress hops) s = (Throw e, s') ->
  forall header' entering' progress' hops', message_type_ header' = kJoin ->
  recv (MessageJoin header' entering' progress' hops') s' =
  if node_locked (logic_ s') then (Ok tt, s') else (Throw key_exists, s').
Proof.
  intros Hr Hs Ht He header' entering' progress' hops' Ht'. rewrite recv_join in He by done.
  destruct (processJoin_throws _ _ _ _ _ _ _ Hr Hs He) as (Hr' & Hs' & Hk').
  rewrite recv_join by done. by apply processJoin_gate.
Qed.

End Blocked.

(** ** Joining through a discovery *)

Section Bootstrap.
Context `{Platform} `{Inet} `{UuidText} `{Payloads} `{SearchTypes} `{Uuids} `{!EntitySearch}.
#[local] Instance bootstrap_logic : Logic (LogicState := LogicState) := node_logic.

Lemma next_join_bootstrap addr port :
  next kIdle (OnSignal (joinNetworkViaBootstrapAt addr port)) = Some kWaitForBootstrapResponse.
Proof. vm_compute. reflexivity. Qed.

Lemma of_address_defined addr port : Physical.of_address addr port <> Undefined.
Proof.
  unfold Physical.of_address, Logical.construct, Physical.rethrow, Physical.setAddress, Physical.setPort.
  mred. repeat case_match; simplify_eq; done.
Qed.

(** What the failure leaves behind. *)
Definition stuck_in_discovery (s s' : MNode) : Prop :=
  ready s' /\ m_state (fsm_ s') = kWaitForBootstrapResponse /\ sent_ s' = sent_ s /\ watchdog_ s' = watchdog_ s.

Lemma Bootstrap_initiateJoin_throws p (s : MNode) :
  ready s -> m_state (fsm_ s) = kWaitForBootstrapResponse ->
  exists s', Bootstrap_initiateJoin p s = (Throw (invalid_argument "Invalid MINHTON message header"), s') /\
    stuck_in_discovery s s'.
Proof.
  intros Hr Hs. unfold Bootstrap_initiateJoin, headerTo, getSelfNodeInfo, newHeader, freshId, gets_logic, modify_logic.
  mred. destruct (generateUUID _) as [id source]. eexists. split.
  - unfold makeBootstrapDiscover, constructed, Header.validateMessage, Header.validateHeader. cbn. by rewrite andb_false_r.
  - by destruct s.
Qed.

(** Joining through a discovery never works. Whatever address the signal carries, an idle
    node throws before it has sent anything or set a timer: either the address is not one (as
    with the signal of [start], which carries none), or the header of the discovery message is
    refused because its target has no address. The machine has then already moved on, so that
    the node waits for a response nobody sends; no timeout ends this, and every further signal
    to join by an address is ignored. *)
Theorem bootstrap_join_fails addr port (s : MNode) :
  ready s -> m_state (fsm_ s) = kIdle ->
  exists e s', processSignal (joinNetworkViaBootstrapAt addr port) s = (Throw e, s') /\
    stuck_in_discovery s s' /\
    forall addr' port', processSignal (joinNetworkViaAddress addr' port') s' = (Ok tt, s').
Proof.
  intros Hr Hs.
  assert (exists e s', processSignal (joinNetworkViaBootstrapAt addr port) s = (Throw e, s') /\ stuck_in_discovery s s')
    as (e & s' & He & Hst).
  { unfold processSignal. cbn [joinNetworkViaBootstrapAt signal_type]. unfold getFsmState.
    rewrite bind_gets, (fsm_gate _ _ _ _ (process_signal _) Hr), Hs, next_join_bootstrap. cbn [negb].
    rewrite bind_gets, bind_throw_if, fsm_set_fsm. cbn [makeFSM m_state].
    unfold Logic_processSignal. cbn [joinNetworkViaBootstrapAt signal_type join_via_bootstrap join_address join_port].
    rewrite bool_decide_false, bind_lift by done. pose proof (of_address_defined addr port).
    set (s1 := set_fsm _ s).
    assert (Hst : stuck_in_discovery s s1) by by destruct s.
    destruct (Physical.of_address addr port) as [p|e|]; [|by exists e, s1|done].
    destruct (Bootstrap_initiateJoin_throws p s1) as (s' & He & Hst'); [apply Hst..|].
    do 2 eexists. split; [exact He|]. destruct Hst as (_ & _ & E1 & E2), Hst' as (? & ? & E3 & E4).
    split_and!; congruence. }
  exists e, s'. split_and!; [done..|]. intros addr' port'. rewrite processSignal_join by apply Hst.
  by rewrite (proj1 (proj2 Hst)).
Qed.

End Bootstrap.

(** ** Acknowledgements *)

Section Acknowledgements.
Context `{Platform} `{Inet} `{UuidText} `{Payloads} `{SearchTypes} `{Uuids}.
Variable run : AckCallback -> M MNode unit.

Definition with_acks (n : Z) (cb : option AckCallback) (s : MNode) : MNode :=
  set_logic (set_response {| acks_number_ := n; cb_ := cb |} (logic_ s)) s.

(** [k] acknowledgements arrive. *)
Definition acks (k : nat) : M MNode unit := for_each (replicate k tt) (fun _ => processRemoveNeighborAck run).

Lemma ack_counts n cb s :
  1 < n -> processRemoveNeighborAck run (with_acks n (Some cb) s) = (Ok tt, with_acks (n - 1) (Some cb) s).
Proof.
  intros Hn. unfold processRemoveNeighborAck, gets_logic. rewrite bind_gets. destruct s as [? ? ? ? ? ? []]. cbn.
  replace (0 <? n) with true by lia. replace (n - 1 =? 0) with false by lia. done.
Qed.

Lemma ack_last cb s :
  processRemoveNeighborAck run (with_acks 1 (Some cb) s) = (run cb;; set_cb None) (with_acks 0 (Some cb) s).
Proof. destruct s as [? ? ? ? ? ? []]. done. Qed.

Lemma acks_below k n cb s :
  Z.of_nat k < n -> acks k (with_acks n (Some cb) s) = (Ok tt, with_acks (n - Z.of_nat k) (Some cb) s).
Proof.
  revert n. induction k as [|k IH]; intros n Hk.
  - cbn. mred. by rewrite Z.sub_0_r.
  - unfold acks. cbn [replicate for_each]. mred. rewrite ack_counts by lia.
    fold (acks k). rewrite IH by lia. f_equal. f_equal. lia.
Qed.

Lemma acks_S k m s : acks (k + m) s = (acks k;; acks m) s.
Proof.
  revert s. induction k as [|k IH]; intros s; [done|]. unfold acks. cbn [Nat.add replicate for_each]. mred.
  destruct (processRemoveNeighborAck run s) as [[[]| |] s1]; [|done..]. apply IH.
Qed.

(** A procedure that waits for acknowledgements goes on exactly once, with the last of them.
    Waiting for [n] acknowledgements with nothing else to wait for, fewer than [n] only count
    down and leave the node otherwise as it is; the [n]-th runs the function and forgets it;
    with [n = 0] the function runs at once. An acknowledgement nobody waits for violates an
    assertion. *)
Theorem acknowledgements_complete n cb (s : MNode) :
  response_ (logic_ s) = {| acks_number_ := 0; cb_ := None |} ->
  waitForAcks run 0 cb s = run cb s /\
  (forall k, (k < n)%nat ->
     (waitForAcks run (Z.of_nat n) cb;; acks k) s = (Ok tt, with_acks (Z.of_nat (n - k)) (Some cb) s)) /\
  ((0 < n)%nat ->
     (waitForAcks run (Z.of_nat n) cb;; acks n) s = (run cb;; set_cb None) (with_acks 0 (Some cb) s)) /\
  processRemoveNeighborAck run s = (Undefined, s).
Proof.
  intros Hs.
  assert (Hw : (0 < n)%nat -> waitForAcks run (Z.of_nat n) cb s = (Ok tt, with_acks (Z.of_nat n) (Some cb) s)).
  { intros Hn. unfold waitForAcks, gets_logic. rewrite bind_gets, Hs. cbn.
    replace (Z.of_nat n =? 0) with false by lia. by destruct s as [? ? ? ? ? ? []]. }
  split_and!.
  - unfold waitForAcks, gets_logic. by rewrite bind_gets, Hs.
  - intros k Hk. mred. rewrite Hw by lia. rewrite acks_below by lia. do 2 f_equal. lia.
  - intros Hn. mred. rewrite Hw by lia. replace n with (Nat.pred n + 1)%nat at 1 by lia. rewrite acks_S.
    mred. rewrite acks_below by lia. replace (Z.of_nat n - Z.of_nat (Nat.pred n)) with 1 by lia.
    unfold acks. cbn [replicate for_each]. mred. rewrite ack_last. mred.
    by destruct (run cb _) as [[[]| |]].
  - unfold processRemoveNeighborAck, gets_logic. by rewrite bind_gets, Hs.
Qed.

End Acknowledgements.

(** ** The loop of the search for a parent *)

Section ParentSearch.
Context `{Platform} `{Inet} `{UuidText} `{Payloads} `{SearchTypes} `{Uuids}.

(** A known, initialised node of the level above. *)
Definition reachable_above (level : Z) (r : RoutingInformation) (n : NodeInfo) : Prop :=
  Node.isInitialized n = true /\ n ∈ getAllUniqueKnownExistingNeighbors r /\ Node.getLevel n = level - 1.

Lemma getNodeInfoByPosition_found l n r node :
  getNodeInfoByPosition l n r = Ok node -> Node.isInitialized node = true ->
  node ∈ getAllUniqueKnownExistingNeighbors r /\ Node.getLevel node = l /\ Node.getNumber node = n.
Proof.
  unfold getNodeInfoByPosition. intros (? & _ & Hg)%outcome_bind_Ok Hi.
  apply outcome_bind_Ok in Hg as (f & _ & Hg). apply outcome_bind_Ok in Hg as (? & _ & Hg). injection Hg as <-.
  destruct (List.find _ _) as [|] eqn:E; cbn [from_option id] in *; [|done].
  apply List.find_some in E as [Hin Hp]. unfold at_position in Hp. rewrite andb_true_iff, !Z.eqb_eq in Hp.
  split; [by apply list_elem_of_In|done].
Qed.

Lemma getNodeInfoByPosition_defined l n r : getNodeInfoByPosition l n r <> Undefined.
Proof. unfold getNodeInfoByPosition, getFanout. mred. by repeat case_match. Qed.

Lemma closestParentLoop_ends fuel level c f r :
  valid_fanout f -> level_fits level f -> 0 <= c < 2 ^ 32 -> c / f + 2 <= Z.of_nat fuel ->
  match closestParentLoop fuel level c f r with
  | Ok n => reachable_above level r n | Throw _ => True | Undefined => False
  end.
Proof.
  intros Hf Hl. pose proof (valid_fanout_bounds f Hf). pose proof (level_fits_lt level f Hf Hl).
  revert c. induction fuel as [|fuel IH]; intros c Hc Hfuel.
  { pose proof (Z.div_pos c f). lia. }
  cbn [closestParentLoop]. destruct (calcParent level c f) as [[pl pn]|e|] eqn:E.
  2: done.
  2: { unfold calcParent in E. by repeat case_match. }
  mred. cbn [fst snd]. pose proof (getNodeInfoByPosition_defined pl pn r).
  destruct (getNodeInfoByPosition pl pn r) as [node|e|] eqn:G; [|done|congruence].
  assert (pl = level - 1) as ->.
  { unfold calcParent in E. repeat case_match; try done; injection E as <- _; unfold u32.
    all: apply Z.mod_small; destruct Hl; lia. }
  destruct (Node.isInitialized node) eqn:Hi; cbn [negb].
  { apply getNodeInfoByPosition_found in G as (? & ? & _); done. }
  destruct (Z.lt_ge_cases c f).
  - (* below the first child: the number wraps around and is no number of the level *)
    destruct fuel as [|fuel]; [pose proof (Z.div_pos c f); lia|].
    cbn [closestParentLoop]. unfold calcParent at 1.
    assert (isPositionValid level (u32 (c - f)) f = false) as ->; [|done].
    apply not_true_iff_false. rewrite isPositionValid_spec. intros [_ Hlt].
    unfold u32 in Hlt. replace (c - f) with (c - f + 1 * 2 ^ 32 + -1 * 2 ^ 32) in Hlt by lia.
    rewrite Z.mod_add, Z.mod_small in Hlt by lia. destruct Hl. lia.
  - assert (u32 (c - f) = c - f) as Hu by (unfold u32; apply Z.mod_small; lia).
    rewrite Hu. apply IH; [lia|]. replace (c - f) with (c + -1 * f) by lia. rewrite Z.div_add by lia. lia.
Qed.

(** The loop that looks for the parent of the last known child ends. On every level whose
    numbers fit twice into 32 bits, the search returns a node of the level above that is known
    and can be talked to, or throws once its counter has wrapped around; it does not run on. *)
Theorem parent_search_terminates join_ child r :
  valid_fanout (Node.getFanout (self_node_info_ r)) ->
  level_fits (Node.getLevel child) (Node.getFanout (self_node_info_ r)) ->
  0 <= Node.getNumber child < Node.getFanout (self_node_info_ r) ^ Node.getLevel child ->
  match findReachableNodeClosestToParent join_ child r with
  | Ok n => reachable_above (Node.getLevel child) r n | Throw _ => True | Undefined => False
  end.
Proof.
  intros Hf Hl Hn. pose proof (valid_fanout_bounds _ Hf). unfold findReachableNodeClosestToParent. cbv zeta.
  replace (_ && (_ =? 0)) with false by (symmetry; apply andb_false_iff; right; lia).
  destruct Hl as [Hl0 Hl1]. apply closestParentLoop_ends; [done|done| |].
  - unfold u32. apply Z.mod_pos_bound. lia.
  - set (c := u32 _). assert (0 <= c / Node.getFanout (self_node_info_ r)); [|lia].
    apply Z.div_pos; [|lia]. unfold c, u32. apply Z.mod_pos_bound. lia.
Qed.

End ParentSearch.

(** ** The position of a new child *)

Section ChildPosition.
Context `{Platform} `{Inet}.

(** The first child that is not there, by its index. *)
Fixpoint first_absent (children : list NodeInfo) : option nat :=
  match children with
  | [] => None
  | child :: children' => if Node.isInitialized child then S <$> first_absent children' else Some 0%nat
  end.

Lemma first_absent_full children : first_absent children = None <-> forallb Node.isInitialized children = true.
Proof.
  induction children as [|c children IH]; cbn; [done|]. destruct (Node.isInitialized c); cbn; [|done].
  rewrite <- IH. by destruct (first_absent children).
Qed.

Lemma first_absent_lookup children i :
  first_absent children = Some i -> exists child, children !! i = Some child /\ Node.isInitialized child = false.
Proof.
  revert i. induction children as [|c children IH]; cbn; [done|]. intros i. destruct (Node.isInitialized c) eqn:E.
  - destruct (first_absent children) as [j|]; [|done]. intros [= <-]. by apply IH.
  - intros [= <-]. by exists c.
Qed.

Lemma firstFree_seq r pre rest :
  children_ r = pre ++ rest ->
  firstFree (Z.of_nat <$> seq (length pre) (length rest)) r =
  Ok ((fun i => Z.of_nat (length pre + i)) <$> first_absent rest).
Proof.
  revert pre. induction rest as [|c rest IH]; intros pre Hr; [done|]. cbn [length seq fmap list_fmap firstFree].
  rewrite Nat2Z.id. unfold vec_at. rewrite Hr, list_lookup_middle by done. mred. cbn [first_absent].
  destruct (Node.isInitialized c); cbn [negb].
  - change (firstFree _ r) with (firstFree (Z.of_nat <$> seq (S (length pre)) (length rest)) r).
    replace (S (length pre)) with (length (pre ++ [c])) by (rewrite length_app; cbn; lia).
    rewrite IH by by rewrite <- app_assoc. f_equal. destruct (first_absent rest); [|done]. cbn.
    rewrite length_app. cbn. do 2 f_equal. lia.
  - cbn. by rewrite Nat.add_0_r.
Qed.

Lemma closestFree_full r f indices best_num best_diff :
  forallb Node.isInitialized (children_ r) = true ->
  (forall i, i ∈ indices -> (Z.to_nat i < length (children_ r))%nat) ->
  closestFree indices f best_num best_diff r = Ok best_num.
Proof.
  intros Hall. revert best_num best_diff. induction indices as [|i indices IH]; intros b d Hi; [done|].
  cbn [closestFree]. unfold vec_at.
  destruct (lookup_lt_is_Some_2 (children_ r) (Z.to_nat i)) as [c Hc]; [apply Hi; by left|]. rewrite Hc. mred.
  rewrite forallb_forall in Hall. rewrite Hall by (apply list_elem_of_In; by eapply list_elem_of_lookup_2).
  cbn [negb]. apply IH. intros j Hj. apply Hi. by right.
Qed.

(** The children of a node whose tables are in order. *)
Lemma children_at l n f r :
  tables_match r -> pos_key (self_node_info_ r) = (l, n, f, true) ->
  valid_fanout f -> level_fits (l + 1) f -> 0 <= l -> 0 <= n < f ^ l ->
  pos_key <$> children_ r = (fun i => at_fanout f (l + 1, n * f + i)) <$> zrange 0 f.
Proof.
  intros (l' & n' & f' & cs & left & right & css & Hk & _ & Hc & Hcs & _) Hself Hf Hfit Hl Hn.
  rewrite Hself in Hk. injection Hk as <- <- <-. rewrite calcChildren_fits in Hc by done. injection Hc as <-.
  by rewrite Hcs, <- list_fmap_compose.
Qed.

(** Where a new child goes. On a node whose tables are in order, the accepted node gets the
    first position among the node's children that nobody has, which is also the position the
    table of children has at that place; on a node without a free child the result is not a
    position. *)
Theorem new_child_position l n f r :
  tables_match r -> pos_key (self_node_info_ r) = (l, n, f, true) ->
  valid_fanout f -> level_fits (l + 1) f -> 0 <= l -> 0 <= n < f ^ l ->
  match first_absent (children_ r) with
  | Some i => exists child position,
      children_ r !! i = Some child /\ Node.isInitialized child = false /\
      calcNewChildPosition true r = Ok position /\ pos_key position = pos_key child /\
      pos_key position = at_fanout f (l + 1, n * f + Z.of_nat i)
  | None => calcNewChildPosition true r = Ok Node.default
  end.
Proof.
  intros Hm Hself Hf Hfit Hl Hn. pose proof (valid_fanout_bounds f Hf).
  pose proof (children_at _ _ _ _ Hm Hself Hf Hfit Hl Hn) as Hch.
  assert (Hlen : length (children_ r) = Z.to_nat f).
  { apply (f_equal length) in Hch. rewrite !length_fmap, length_zrange in Hch. rewrite Hch. f_equal. lia. }
  pose proof Hself as [= Hl1 Hn1 Hf1 Hv1].
  assert (Hfree : firstFree (zrange 0 f) r = Ok (Z.of_nat <$> first_absent (children_ r))).
  { pose proof (firstFree_seq r [] (children_ r) eq_refl) as Hff. cbn [length] in Hff. rewrite Hlen in Hff.
    unfold zrange. rewrite Z.sub_0_r. exact Hff. }
  unfold calcNewChildPosition, getFanout. rewrite Hf1, Hv1, Hl1. mred. cbn [negb]. rewrite Hfree.
  destruct (first_absent (children_ r)) as [i|] eqn:Ei.
  - destruct (first_absent_lookup _ _ Ei) as (child & Hi & Hn0). exists child.
    pose proof (lookup_lt_Some _ _ _ Hi) as Hlt. rewrite Hlen in Hlt.
    assert (Hkey : pos_key child = at_fanout f (l + 1, n * f + Z.of_nat i)).
    { apply (f_equal (fun v => v !! i)) in Hch. rewrite !list_lookup_fmap, Hi, zrange_lookup in Hch by lia.
      by apply (inj Some) in Hch. }
    pose proof (level_fits_lt _ _ Hf Hfit). destruct Hfit as [_ Hfit]. rewrite pow_S in Hfit by done.
    assert (Hnum : child_number (self_node_info_ r) f (Z.of_nat i) = n * f + Z.of_nat i).
    { unfold child_number. rewrite Hn1. unfold u32. rewrite (Z.mod_small (n * f)), Z.mod_small; nia. }
    assert (Hlev : u32 (l + 1) = l + 1) by (unfold u32; apply Z.mod_small; lia).
    unfold Node.of_position. cbn [fmap option_fmap option_map]. rewrite Hnum, Hlev, Logical.of_position_Ok.
    + mred. eexists. split_and!; [done..|by rewrite Hkey|done].
    + apply valid_position; [done|]. rewrite pow_S by done. nia.
  - cbn [fmap option_fmap option_map]. rewrite closestFree_full; [done|by apply first_absent_full|].
    intros i Hi%elem_of_zrange. rewrite Hlen. lia.
Qed.

End ChildPosition.
