(* ===== verification/Protocol.v ===== *)
(** * Networks of MINHTON nodes

    Nodes that exchange messages in any order. A message that was sent lies in the outbox of
    its sender until the network delivers it to the node with the address of its target, which
    handles it with all of its algorithms; every interleaving of deliveries is a run. The
    executable exploration [explore] visits all runs of a network, and is sound for the step
    relation. *)

From S2P Require Import Prelude RoutingCalculations TreeMapper NodeInfo RoutingInformation ProcedureInfo Message Fsm MinhtonNode Access FindEnd SearchExact Response Join Leave Algorithms Effects NodeInvariants.

(** ** Equality of nodes is decidable *)

#[export] Instance RemoveNeighbor_eq_dec : EqDecision RemoveNeighbor.
Proof. solve_decision. Defined.
#[export] Instance UpdateNeighbors_eq_dec : EqDecision UpdateNeighbors.
Proof. solve_decision. Defined.

Section Decidable.
Context `{Payloads} `{SearchTypes} `{!EqDecision ValueAndType} `{!EqDecision OtherPayload}.
Context `{!EqDecision FindQuery} `{!EqDecision Attribute} `{!EqDecision FindResultPromise}
  `{!EqDecision EntitySearchState}.

#[export] Instance MessageVariant_eq_dec : EqDecision MessageVariant.
Proof. unfold EqDecision, Decision. decide equality; apply (decide (_ = _)). Defined.
#[export] Instance ProcedureInfo_eq_dec : EqDecision (ProcedureInfo FindQuery Attribute FindResultPromise).
Proof. solve_decision. Defined.
#[export] Instance LogicState_eq_dec : EqDecision LogicState.
Proof. solve_decision. Defined.
#[export] Instance FiniteStateMachine_eq_dec : EqDecision FiniteStateMachine.
Proof. solve_decision. Defined.
#[export] Instance TimeoutLengthsContainer_eq_dec : EqDecision TimeoutLengthsContainer.
Proof. solve_decision. Defined.
#[export] Instance MNode_eq_dec : EqDecision MNode.
Proof. solve_decision. Defined.
End Decidable.

(** ** Networks and their steps *)

Section Networks.
Context `{Platform} `{Inet} `{UuidText} `{Payloads} `{SearchTypes} `{Uuids} `{!EntitySearch}.
#[local] Instance network_logic : Logic (LogicState := LogicState) := node_logic.

Abbreviation Network := (list MNode).

Definition address_of (s : MNode) : PhysicalNodeInfo := own_address (routing_info_ s).

(** The [j]-th message in the outbox of node [i] is delivered to node [k]. *)
Inductive net_step (net : Network) (r : outcome unit) (net' : Network) : Prop :=
| net_deliver i j k s msg t t' :
    net !! i = Some s -> sent_ s !! j = Some msg ->
    let net1 := <[i := set_sent (delete j (sent_ s)) s]> net in
    net1 !! k = Some t -> address_of t = p_node_info_ (getTarget msg) ->
    recv msg t = (r, t') -> net' = <[k := t']> net1 ->
    net_step net r net'.

(** All results of delivering message [j] of node [i]. *)
Definition deliveries (net : Network) (ij : nat * nat) : list (outcome unit * Network) :=
  match net !! ij.1 with
  | None => []
  | Some s =>
      match sent_ s !! ij.2 with
      | None => []
      | Some msg =>
          let net1 := <[ij.1 := set_sent (delete ij.2 (sent_ s)) s]> net in
          k ← seq 0 (length net1);
          match net1 !! k with
          | Some t =>
              if bool_decide (address_of t = p_node_info_ (getTarget msg)) then
                let '(r, t') := recv msg t in [(r, <[k := t']> net1)]
              else []
          | None => []
          end
      end
  end.

Definition pending (net : Network) : list (nat * nat) :=
  i ← seq 0 (length net);
  match net !! i with Some s => (fun j => (i, j)) <$> seq 0 (length (sent_ s)) | None => [] end.

Definition successors (net : Network) : list (outcome unit * Network) := pending net ≫= deliveries net.

Lemma successors_complete net r net' : net_step net r net' -> (r, net') ∈ successors net.
Proof.
  intros [i j k s msg t t' Hi Hj net1 Hk Ha Hr ->].
  unfold successors. apply list_elem_of_bind. exists (i, j). split.
  - unfold deliveries. cbn [fst snd]. rewrite Hi, Hj. cbn zeta. fold net1. apply list_elem_of_bind. exists k.
    rewrite Hk, bool_decide_true, Hr by done. split; [by apply list_elem_of_singleton|].
    apply elem_of_seq. apply lookup_lt_Some in Hk. lia.
  - unfold pending. apply list_elem_of_bind. exists i. rewrite Hi. split.
    + apply list_elem_of_fmap. exists j. split; [done|]. apply elem_of_seq. apply lookup_lt_Some in Hj. lia.
    + apply elem_of_seq. apply lookup_lt_Some in Hi. lia.
Qed.

Lemma deliveries_sound net ij r net' : (r, net') ∈ deliveries net ij -> net_step net r net'.
Proof.
  destruct ij as [i j]. unfold deliveries. cbn [fst snd]. intros Hd.
  destruct (net !! i) as [s|] eqn:Hi; [|by apply elem_of_nil in Hd].
  destruct (sent_ s !! j) as [msg|] eqn:Hj; [|by apply elem_of_nil in Hd].
  apply list_elem_of_bind in Hd as (k & Hd & _). cbn zeta in Hd.
  destruct (_ !! k) as [t|] eqn:Hk; [|by apply elem_of_nil in Hd].
  destruct (bool_decide_reflect (address_of t = p_node_info_ (getTarget msg))) as [Ha|]; [|by apply elem_of_nil in Hd].
  destruct (recv msg t) as [r0 t'] eqn:Hr. apply list_elem_of_singleton in Hd as [= -> ->].
  by eapply net_deliver.
Qed.

Lemma successors_sound net r net' : (r, net') ∈ successors net -> net_step net r net'.
Proof. unfold successors. intros (ij & Hd & _)%list_elem_of_bind. by apply deliveries_sound in Hd. Qed.

Definition delivers_to (net net' : Network) : Prop := exists r, net_step net r net'.

(** The run that delivers the messages in the given order. *)
Definition deliver (net : Network) (ij : nat * nat) : Network :=
  match deliveries net ij with (_, net') :: _ => net' | [] => net end.

Lemma deliver_reaches net ijs : rtc delivers_to net (foldl deliver net ijs).
Proof.
  revert net. induction ijs as [|ij ijs IH]; intros net; [done|]. cbn [foldl].
  etrans; [|apply IH]. unfold deliver. destruct (deliveries net ij) as [|[r net'] l] eqn:E; [done|].
  apply rtc_once. exists r. apply (deliveries_sound _ ij). rewrite E. by left.
Qed.

(** ** Exploring all runs *)

Section Explore.
Context `{!EqDecision MNode}.
Variable ok : Network -> bool.

Definition undelivered (net : Network) : bool := existsb (fun s => negb (bool_decide (sent_ s = []))) net.

(** Every delivery of [net] returns; without messages to deliver, [net] is fine. *)
Definition sound_state (net : Network) : bool :=
  if undelivered net then forallb (fun rn => is_Ok rn.1) (successors net) &&
    negb (bool_decide (successors net = [])) else ok net.

(** The networks after one, two, ... deliveries. *)
Fixpoint explore (fuel : nat) (layer : list Network) : bool :=
  match layer, fuel with
  | [], _ => true
  | _, O => false
  | _, S fuel' =>
      forallb sound_state layer &&
      explore fuel' (remove_dups (layer ≫= fun net => snd <$> successors net))
  end.

Lemma explore_sound fuel layer net net' :
  explore fuel layer = true -> net ∈ layer -> rtc delivers_to net net' -> sound_state net' = true.
Proof.
  intros He Hn Hs. revert fuel layer He Hn. induction Hs as [net|net net1 net2 [r Hstep] _ IH]; intros fuel layer He Hn.
  - destruct layer as [|n0 layer]; [by apply elem_of_nil in Hn|]. destruct fuel as [|fuel]; [done|].
    cbn [explore] in He. apply andb_prop in He as [He _].
    rewrite forallb_forall in He. apply (He net). by apply list_elem_of_In.
  - destruct layer as [|n0 layer]; [by apply elem_of_nil in Hn|]. destruct fuel as [|fuel]; [done|].
    cbn [explore] in He. apply andb_prop in He as [_ He]. eapply IH; [exact He|].
    apply elem_of_remove_dups, list_elem_of_bind. exists net. split; [|done].
    apply list_elem_of_fmap. exists (r, net1). split; [done|]. by apply successors_complete.
Qed.

Lemma explore_ends fuel layer net :
  explore fuel layer = true -> net ∈ layer ->
  ~ exists run : nat -> Network, run 0%nat = net /\ forall n, delivers_to (run n) (run (S n)).
Proof.
  revert layer net. induction fuel as [|fuel IH]; intros layer net He Hn (run & H0' & Hrun).
  - destruct layer; [by apply elem_of_nil in Hn|done].
  - destruct layer as [|n0 layer]; [by apply elem_of_nil in Hn|]. cbn [explore] in He.
    apply andb_prop in He as [_ He]. refine (IH _ (run 1%nat) He _ _).
    + apply elem_of_remove_dups, list_elem_of_bind. exists net. split; [|done].
      destruct (Hrun 0%nat) as [r Hr]. rewrite H0' in Hr. apply list_elem_of_fmap.
      exists (r, run 1%nat). split; [done|]. by apply successors_complete.
    + exists (fun n => run (S n)). done.
Qed.

(** What a successful exploration says. *)
Definition settles (net : Network) : Prop :=
  (forall net', rtc delivers_to net net' ->
     (forall r net'', net_step net' r net'' -> r = Ok tt) /\
     (undelivered net' = true -> exists net'', delivers_to net' net'') /\
     (undelivered net' = false -> ok net' = true)) /\
  ~ exists run : nat -> Network, run 0%nat = net /\ forall n, delivers_to (run n) (run (S n)).

Lemma explore_settles fuel net : explore fuel [net] = true -> settles net.
Proof.
  intros He. assert (Hn : net ∈ [net]) by by apply list_elem_of_singleton. split; [|by eapply explore_ends].
  intros net' Hs. pose proof (explore_sound _ _ _ _ He Hn Hs) as Hk. unfold sound_state in Hk.
  split_and!.
  - intros r net'' Hr. assert (undelivered net' = true) as Hu.
    { destruct Hr as [i j k s msg t t' Hi Hj]. apply existsb_exists. exists s. split.
      - apply list_elem_of_In. by eapply list_elem_of_lookup_2.
      - rewrite bool_decide_false; [done|]. intros Hz. by rewrite Hz in Hj. }
    rewrite Hu in Hk. apply andb_prop in Hk as [Hk _]. rewrite forallb_forall in Hk.
    specialize (Hk (r, net'') ltac:(apply list_elem_of_In; by apply successors_complete)).
    by destruct r as [[]| |].
  - intros Hu. rewrite Hu in Hk. apply andb_prop in Hk as [_ Hk].
    destruct (successors net') as [|[r net''] l] eqn:E; [done|]. exists net'', r.
    apply successors_sound. rewrite E. by left.
  - intros Hu. by rewrite Hu in Hk.
Qed.

End Explore.
End Networks.
