(* ===== verification/ProtocolRuns.v ===== *)
(** * Joining and leaving, in every order of delivery

    Concrete networks on which all interleavings of the messages of a join or a departure are
    explored, with the nodes, the machine and the algorithms for joining, leaving, searching a
    position and their acknowledgements as modelled. The entity search is left out ([no_search]):
    the data-storing nodes are not told of changed neighbours ([dsn_handler.cpp]) and send no
    attribute inquiries. The networks to start from have grown by joins through the root, one
    after the other, each in one order of delivery. *)

From S2P Require Import Prelude RoutingCalculations TreeMapper NodeInfo RoutingInformation ProcedureInfo Message Fsm MinhtonNode Access FindEnd SearchExact Response Join Leave Algorithms Effects NodeInvariants JoinProperties Protocol.

Definition plain_payloads : Payloads :=
  {| ValueAndType := unit; OtherPayload := unit; validateOther := fun _ => true |}.
Definition plain_search_types : SearchTypes :=
  {| FindQuery := unit; Attribute := unit; FindResultPromise := unit; EntitySearchState := unit |}.
Definition plain_texts : UuidText := {| uuidToString := fun _ => "uuid"%string |}.
(** Event ids that differ from each other. *)
Definition counting_uuids : Uuids := {| generateUUID := fun n => (n, n + 1) |}.

Section Runs.
#[local] Existing Instance x86_64.
#[local] Existing Instance ipv4_only.
#[local] Existing Instance plain_payloads.
#[local] Existing Instance plain_search_types.
#[local] Existing Instance plain_texts.
#[local] Existing Instance counting_uuids.

(** The nodes of these networks take no part in the entity search: its handlers do nothing, and
    the notifications of the routing information to it are not delivered. *)
Definition no_search : EntitySearch :=
  {| esearch_process := fun _ _ => mret tt; esearch_timeout := fun _ => mret tt |}.
#[local] Existing Instance no_search.
#[local] Instance runs_logic : Logic (LogicState := LogicState) := node_logic.

#[local] Instance unit_eq_1 : EqDecision ValueAndType := unit_eq_dec.
#[local] Instance unit_eq_2 : EqDecision OtherPayload := unit_eq_dec.
#[local] Instance unit_eq_3 : EqDecision FindQuery := unit_eq_dec.
#[local] Instance unit_eq_4 : EqDecision Attribute := unit_eq_dec.
#[local] Instance unit_eq_5 : EqDecision FindResultPromise := unit_eq_dec.
#[local] Instance unit_eq_6 : EqDecision EntitySearchState := unit_eq_dec.

Abbreviation Network := (list MNode).

(** ** Setting up *)

Definition run_lengths : TimeoutLengthsContainer :=
  {| bootstrap_response := 100; join_response := 100; join_accept_ack_response := 100;
     replacement_offer_response := 100; replacement_ack_response := 100; dsn_aggregation := 100;
     inquiry_aggregation := 100 |}.

Definition run_ip : list ascii := String.list_ascii_of_string "10.0.0.1".
Definition run_port (i : nat) : Z := 2000 + Z.of_nat i.

Definition run_logic (i : nat) : LogicState := initial_LogicState (1000 * (1 + Z.of_nat i)) tt.

Definition new_node (root : bool) (fanout : Z) (i : nat) : outcome MNode :=
  setConfig run_ip (run_port i) root fanout run_lengths (run_logic i).

(** The node that comes next asks node [entry] to let it join. *)
Definition ask_to_join (fanout : Z) (entry : nat) (net : Network) : Network :=
  match new_node false fanout (length net) with
  | Ok s => net ++ [(processSignal (joinNetworkViaAddress run_ip (run_port entry)) s).2]
  | _ => []
  end.

(** Node [i] is asked to leave. *)
Definition ask_to_leave (i : nat) (net : Network) : Network :=
  alter (fun s => (processSignal leaveNetwork s).2) i net.

(** Delivers the first message of the first outbox, again and again. *)
Fixpoint settle (fuel : nat) (net : Network) : Network :=
  match fuel with
  | O => net
  | S fuel' =>
      match pending net with
      | [] => net
      | ij :: _ => match deliveries net ij with (_, net') :: _ => settle fuel' net' | [] => net end
      end
  end.

Fixpoint joined (fanout : Z) (entries : list nat) (net : Network) : Network :=
  match entries with
  | [] => net
  | entry :: entries' => joined fanout entries' (settle 200 (ask_to_join fanout entry net))
  end.

Definition root_network (fanout : Z) : Network :=
  match new_node true fanout 0 with Ok s => [s] | _ => [] end.

(** The network of [n + 1] nodes that have joined through the root one after the other, each in
    the order of delivery of [settle]. *)
Definition network (fanout : Z) (n : nat) : Network := joined fanout (replicate n 0%nat) (root_network fanout).

(** ** Networks in order *)

Definition active (s : MNode) : bool := Node.isInitialized (getNodeInfo s).
Definition position_of (s : MNode) : Pos := (Node.getLevel (getNodeInfo s), Node.getNumber (getNodeInfo s)).
Definition actives (net : Network) : list MNode := List.filter active net.

(** Who is at a position. *)
Definition occupant (net : Network) (p : Pos) : option PhysicalNodeInfo :=
  address_of <$> List.find (fun s => bool_decide (position_of s = p)) (actives net).

Definition known_address (entry : NodeInfo) : option PhysicalNodeInfo :=
  if Node.isInitialized entry then Some (p_node_info_ entry) else None.

(** A table entry has the address of the node at its position, or none if there is no such
    node. *)
Definition entry_right (net : Network) (entry : NodeInfo) : bool :=
  bool_decide (known_address entry = occupant net (Node.getLevel entry, Node.getNumber entry)).

(** The nearest active node on one side. *)
Definition value_of (s : MNode) : double := horizontal (getNodeInfo s).
Definition nearer_left (s : MNode) (best : option MNode) (t : MNode) : option MNode :=
  if d_lt (value_of t) (value_of s) then
    match best with
    | Some b => if d_lt (value_of b) (value_of t) then Some t else best
    | None => Some t
    end
  else best.
Definition nearer_right (s : MNode) (best : option MNode) (t : MNode) : option MNode :=
  if d_lt (value_of s) (value_of t) then
    match best with
    | Some b => if d_lt (value_of t) (value_of b) then Some t else best
    | None => Some t
    end
  else best.

Definition links_right (net : Network) (s : MNode) : bool :=
  let r := routing_info_ s in
  bool_decide (known_address (adjacent_left_ r) = address_of <$> foldl (nearer_left s) None (actives net)) &&
  bool_decide (known_address (adjacent_right_ r) = address_of <$> foldl (nearer_right s) None (actives net)) &&
  forallb (entry_right net) (children_ r ++ routing_table_neighbors_ r ++ routing_table_neighbor_children_ r) &&
  ((Node.getLevel (self_node_info_ r) =? 0) || entry_right net (parent_ r)).

(** The node is connected, unlocked, waits for nothing and has no procedure under way. *)
Definition at_rest (s : MNode) : bool :=
  bool_decide (m_state (fsm_ s) = kConnected) && negb (node_locked (logic_ s)) &&
  bool_decide (response_ (logic_ s) = {| acks_number_ := 0; cb_ := None |}) &&
  bool_decide (map_ (procedure_info_ (logic_ s)) = ∅) &&
  bool_decide (event_ids_ (procedure_info_ (logic_ s)) = ∅).

(** Positions in the order in which the tree is filled. *)
Definition level_order (fanout : Z) : list Pos :=
  level ← zrange 0 4; number ← zrange 0 (fanout ^ level); [(level, number)].

(** The active nodes fill the tree from the top and from the left, all of their links are
    right, and they are at rest; nodes that left are idle. *)
Definition in_order (fanout : Z) (size : nat) (net : Network) : bool :=
  (length (actives net) =? size)%nat &&
  forallb (fun p => bool_decide (is_Some (occupant net p))) (take size (level_order fanout)) &&
  forallb (fun s => links_right net s && at_rest s) (actives net) &&
  forallb (fun s => active s || bool_decide (m_state (fsm_ s) = kIdle)) net.

(** ** One node joins or leaves *)

(** The joins that are explored: through every node of the networks of up to four nodes. *)
Definition joins : list (Z * nat * nat) :=
  fanout ← [2; 3]; n ← seq 0 4; entry ← seq 0 (S n); [(fanout, n, entry)].
Definition departures : list (Z * nat * nat) :=
  fanout ← [2; 3]; n ← seq 1 3; i ← seq 0 (S n); [(fanout, n, i)].

Lemma elem_of_joins fanout n entry :
  fanout = 2 \/ fanout = 3 -> (n <= 3)%nat -> (entry <= n)%nat -> (fanout, n, entry) ∈ joins.
Proof.
  intros Hf Hn He. apply list_elem_of_bind. exists fanout. split; [|set_solver].
  apply list_elem_of_bind. exists n. split; [|apply elem_of_seq; lia].
  apply list_elem_of_bind. exists entry. split; [by apply list_elem_of_singleton|apply elem_of_seq; lia].
Qed.

Lemma elem_of_departures fanout n i :
  fanout = 2 \/ fanout = 3 -> (1 <= n <= 3)%nat -> (i <= n)%nat -> (fanout, n, i) ∈ departures.
Proof.
  intros Hf Hn He. apply list_elem_of_bind. exists fanout. split; [|set_solver].
  apply list_elem_of_bind. exists n. split; [|apply elem_of_seq; lia].
  apply list_elem_of_bind. exists i. split; [by apply list_elem_of_singleton|apply elem_of_seq; lia].
Qed.

Lemma joins_explored :
  forallb (fun '(fanout, n, entry) =>
    explore (in_order fanout (n + 2)) 100 [ask_to_join fanout entry (network fanout n)]) joins = true.
Proof. vm_cast_no_check (eq_refl true). Qed.

Lemma departures_explored :
  forallb (fun '(fanout, n, i) =>
    explore (in_order fanout n) 100 [ask_to_leave i (network fanout n)]) departures = true.
Proof. vm_cast_no_check (eq_refl true). Qed.

Lemma explored {A} (l : list A) (f : A -> bool) x : forallb f l = true -> x ∈ l -> f x = true.
Proof. intros Hf Hx. rewrite forallb_forall in Hf. apply Hf. by apply list_elem_of_In. Qed.

(** C4: a join succeeds in every order of delivery. In the networks of one to four nodes of
    fanout 2 and 3, in which the nodes joined through the root one after the other (each with one
    order of delivery; without traffic of the entity search), let a further node join through any
    of the nodes. Then,
    whichever of the messages under way the network delivers next, no handler throws; no run
    goes on forever or gets stuck with undelivered messages; and when all is delivered the tree
    is complete with one more node, every table entry, parent and adjacent link of every node
    is right, and no node is locked or has a procedure under way. *)
Theorem join_settles fanout n entry :
  fanout = 2 \/ fanout = 3 -> (n <= 3)%nat -> (entry <= n)%nat ->
  settles (in_order fanout (n + 2)) (ask_to_join fanout entry (network fanout n)).
Proof.
  intros Hf Hn He. apply (explore_settles _ 100).
  exact (explored _ _ _ joins_explored (elem_of_joins _ _ _ Hf Hn He)).
Qed.

Lemma join_settles_witness : settles (in_order 2 5) (ask_to_join 2 1 (network 2 3)).
Proof. apply (join_settles 2 3 1); lia. Defined.

(** C5: a departure succeeds in every order of delivery. In the networks of two to four nodes of
    fanout 2 and 3, in which the nodes joined through the root one after the other (each with one
    order of delivery; without traffic of the entity search), let any node leave, the root
    included. Then no handler throws in any order of delivery, every run ends, and the remaining nodes form a
    complete tree with all links right, unlocked and with no procedure under way, while the
    node that left is idle. *)
Theorem leave_settles fanout n i :
  fanout = 2 \/ fanout = 3 -> (1 <= n <= 3)%nat -> (i <= n)%nat ->
  settles (in_order fanout n) (ask_to_leave i (network fanout n)).
Proof.
  intros Hf Hn He. apply (explore_settles _ 100).
  exact (explored _ _ _ departures_explored (elem_of_departures _ _ _ Hf Hn He)).
Qed.

Lemma leave_settles_witness : settles (in_order 2 3) (ask_to_leave 0 (network 2 3)).
Proof. apply (leave_settles 2 3 0); lia. Defined.

(** ** Two nodes join at once *)

Definition waiting (s : MNode) : bool := bool_decide (m_state (fsm_ s) = kWaitForJoinAccept).

(** The oldest timer of a node fires. *)
Definition expire (s : MNode) : MNode :=
  match watchdog_ s with
  | [] => s
  | job :: jobs => (runCallback (job_function job) (set_watchdog jobs s)).2
  end.

(** The node that still waits for an answer runs into the timeout, and then into the retry. *)
Definition retry (net : Network) : Network := (fun s => if waiting s then expire (expire s) else s) <$> net.

Definition in_order_or_retry (fanout : Z) (size : nat) (net : Network) : bool :=
  in_order fanout size net || explore (in_order fanout size) 100 [retry net].

Definition both_join (fanout : Z) (n : nat) : Network := ask_to_join fanout 0 (ask_to_join fanout 0 (network fanout n)).

Lemma concurrent_explored :
  forallb (fun '(fanout, n) => explore (in_order_or_retry fanout (n + 3)) 200 [both_join fanout n])
    [(2, 0%nat); (2, 1%nat); (3, 0%nat)] = true.
Proof. vm_cast_no_check (eq_refl true). Qed.

(** C37: two nodes that ask the root to join at the same time both get in, in the networks of one
    or two nodes of fanout 2 and of one node of fanout 3 (without traffic of the entity search).
    In every order of delivery no handler throws and every run ends; then both have joined and
    the tree is in order, or one request met a locked node and was dropped, and once the timeout
    of the node that waits has led to its retry, every run from there ends with both nodes in the
    tree. *)
Theorem concurrent_joins_settle fanout n :
  (fanout, n) ∈ [(2, 0%nat); (2, 1%nat); (3, 0%nat)] ->
  settles (in_order_or_retry fanout (n + 3)) (both_join fanout n) /\
  forall net, rtc delivers_to (both_join fanout n) net -> undelivered net = false ->
  in_order fanout (n + 3) net = true \/ settles (in_order fanout (n + 3)) (retry net).
Proof.
  intros Hc. pose proof (explore_settles _ _ _ (explored _ _ _ concurrent_explored Hc)) as Hs.
  split; [done|]. intros net Hr Hu. destruct (proj1 Hs net Hr) as (_ & _ & Hok).
  apply orb_prop in Hok as [?|Hok%explore_settles]; [by left|by right|done].
Qed.

Lemma concurrent_joins_settle_witness :
  settles (in_order_or_retry 2 4) (both_join 2 1) /\
  forall net, rtc delivers_to (both_join 2 1) net -> undelivered net = false ->
  in_order 2 4 net = true \/ settles (in_order 2 4) (retry net).
Proof. apply (concurrent_joins_settle 2 1). right. by left. Defined.

(** ** A race that blocks the root *)

(** One node joins through the root of a network of two nodes, another one through the child;
    the child hands the request to the root, where it arrives after the root has become full
    and after a later message of the child. *)
Definition race : Network := ask_to_join 2 0 (ask_to_join 2 1 (network 2 1)).
Definition race_order : list (nat * nat) :=
  [(3, 0); (2, 0); (0, 0); (3, 0); (0, 0); (1, 1)]%nat.

(** Before the last delivery the request of the child lies ready for the root, which is full. *)
Definition race_full : Network := foldl deliver race race_order.
Definition race_end : Network := deliver race_full (1, 0)%nat.

(** A connected, unlocked node that has the join procedure on record. *)
Definition blocked (s : MNode) : bool :=
  bool_decide (fsm_ s = makeFSM kConnected) && negb (node_locked (logic_ s)) &&
  hasKey kJoinProcedure (procedure_info_ (logic_ s)).

Lemma race_end_state :
  negb (undelivered race_end) &&
  match race_end with [root; _; n2; n3] => blocked root && waiting n2 && at_rest n3 | _ => false end = true.
Proof. vm_compute. reflexivity. Qed.

Definition at_the_edge : exn := logic_error "Position at the edge should be covered by other code parts".

Lemma race_last : delivers_to race_full race_end.
Proof.
  unfold race_end, deliver. destruct (deliveries race_full (1, 0)%nat) as [|[r net] l] eqn:E.
  - exfalso. assert (Hne : match deliveries race_full (1, 0)%nat with [] => false | _ => true end = true) by (vm_compute; reflexivity).
    by rewrite E in Hne.
  - exists r. apply (deliveries_sound _ (1, 0)%nat). rewrite E. by left.
Qed.

Lemma race_full_state :
  match race_full with
  | [root; child; _; _] =>
      match sent_ child with
      | MessageJoin header entering kSearchRight hops :: _ =>
          areChildrenFull (routing_info_ root) && bool_decide (routing_table_neighbors_ (routing_info_ root) = []) &&
          bool_decide ((recv (MessageJoin header entering kSearchRight hops) root).1 = Throw at_the_edge)
      | _ => false
      end
  | _ => false
  end = true.
Proof. vm_compute. reflexivity. Qed.

(** C38: two joins at the same time can block the root for good, in a network of two nodes of fanout 2 (without
    traffic of the entity search). One node joins through the root, another one through the child of the root, and messages overtake each other: there is an order of
    delivery after which the root has two children and the request that the child has passed on to it comes next, with
    the progress "search right". The root has no routing-table neighbours, and handling the request throws "Position at
    the edge should be covered by other code parts". After this delivery nothing is under way, the node that asked still
    waits, and from now on the root, connected and unlocked, refuses every JOIN message with the exception of an occupied
    key. *)
Theorem join_race_blocks_root :
  (rtc delivers_to race race_full /\
   exists root child n2 n3 header entering hops rest, race_full = [root; child; n2; n3] /\
     sent_ child = MessageJoin header entering kSearchRight hops :: rest /\
     areChildrenFull (routing_info_ root) = true /\ routing_table_neighbors_ (routing_info_ root) = [] /\
     (recv (MessageJoin header entering kSearchRight hops) root).1 = Throw at_the_edge) /\
  delivers_to race_full race_end /\ undelivered race_end = false /\
  exists root n1 n2 n3, race_end = [root; n1; n2; n3] /\
    m_state (fsm_ n2) = kWaitForJoinAccept /\ m_state (fsm_ root) = kConnected /\ node_locked (logic_ root) = false /\
    forall header entering progress hops, message_type_ header = kJoin ->
    recv (MessageJoin header entering progress hops) root = (Throw key_exists, root).
Proof.
  pose proof race_end_state as Hs. apply andb_prop in Hs as [Hu Hs]. apply negb_true_iff in Hu.
  pose proof race_full_state as Hf. split; [split; [apply deliver_reaches|]|split; [exact race_last|split; [exact Hu|]]].
  - clear Hs Hu. destruct race_full as [|root [|child [|n2 [|n3 []]]]]; try done.
    destruct (sent_ child) as [|[] rest] eqn:Es; try done. destruct search_progress; try done.
    rewrite !andb_true_iff, !bool_decide_eq_true in Hf. destruct Hf as [[Hfull Hn] Hr].
    exists root, child, n2, n3, header, entering_node, hop_count, rest. split; [reflexivity|]. split; [exact Es|].
    split; [exact Hfull|]. split; [exact Hn|exact Hr].
  - clear Hf. destruct race_end as [|root [|n1 [|n2 [|n3 []]]]]; try done.
    unfold blocked, waiting in Hs. rewrite !andb_true_iff, negb_true_iff, !bool_decide_eq_true in Hs.
    destruct Hs as [[[[Hm Hl] Hk] Hw] _]. exists root, n1, n2, n3. split_and!; [done..|by rewrite Hm|done|].
    intros header entering progress hops Ht. etrans; [apply recv_join; [by unfold ready; rewrite Hm..|done]|].
    rewrite processJoin_gate by done. by rewrite Hl.
Qed.

End Runs.
