(* ===== verification/ProtocolExamples.v ===== *)
(** * Examples of running nodes

    The theorems about nodes and their algorithms, applied to concrete nodes. *)

From S2P Require Import Prelude RoutingCalculations TreeMapper NodeInfo RoutingInformation RoutingInvariants ProcedureInfo Message Fsm MinhtonNode Access FindEnd SearchExact Response Join Leave Algorithms Effects NodeInvariants Delivery SearchProperties JoinProperties Protocol ProtocolRuns.

Section Examples.
#[local] Existing Instance x86_64.
#[local] Existing Instance ipv4_only.
#[local] Existing Instance plain_payloads.
#[local] Existing Instance plain_search_types.
#[local] Existing Instance plain_texts.
#[local] Existing Instance counting_uuids.
#[local] Existing Instance no_search.
#[local] Instance examples_logic : Logic (LogicState := LogicState) := node_logic.

#[local] Instance no_search_does : EntitySearchDoes.
Proof. split; intros; apply does_ret. Qed.
#[local] Instance no_search_nests : EntitySearchNests.
Proof. by split. Qed.

(** A node that has not joined, and a member of a network. *)
Definition idle_node : MNode := from_Ok (new_node false 2 1) eq_refl.
Definition member (n i : nat) : MNode := nth i (network 2 n) idle_node.

Lemma idle_configured : configured idle_node.
Proof.
  exists run_ip, (run_port 1), false, 2, run_lengths, (run_logic 1). vm_compute. reflexivity.
Qed.

Definition join_signal : Signal := joinNetworkViaAddress run_ip (run_port 0).
Definition asking_node : MNode := (processSignal join_signal idle_node).2.

Lemma asking_event : returning_event idle_node asking_node.
Proof. apply (event_signal _ _ _ join_signal). vm_compute. reflexivity. Qed.

(** Its request to join. *)
Definition request : MessageVariant :=
  hd (MessageOther (Header.make Node.default Node.default 0 0) tt) (sent_ asking_node).

Lemma sent_messages_typed_witness :
  well_typed request = true /\ hop_bounded request = true /\ Header.validate (getHeader request) = true.
Proof.
  apply (sent_messages_typed idle_node asking_node request idle_configured).
  - apply rtc_once. exists (Ok tt). exact asking_event.
  - apply (list_elem_of_lookup_2 _ 0%nat). vm_compute. reflexivity.
Defined.

Lemma node_address_invariant_witness :
  own_address (routing_info_ asking_node) = own_address (routing_info_ idle_node).
Proof.
  apply (node_address_invariant idle_node asking_node idle_configured).
  apply rtc_once. exists (Ok tt). exact asking_event.
Defined.

(** The node is accepted by the root. *)
Definition root_of_one : MNode := member 0 0.
Definition accepting_root : MNode := (recv request root_of_one).2.
Definition acceptance : MessageVariant := hd request (sent_ accepting_root).
Definition accepted_node : MNode := (recv acceptance asking_node).2.

Lemma accepted_event : returning_event asking_node accepted_node.
Proof. apply (event_message _ _ _ acceptance); vm_compute; reflexivity. Qed.

Lemma node_tables_invariant_witness :
  position_of accepted_node = (1, 0) /\
  (if Node.isValidPeer (self_node_info_ (routing_info_ accepted_node)) then tables_match (routing_info_ accepted_node)
   else cleared (routing_info_ accepted_node)) /\
  Forall entry_ok (entries (routing_info_ accepted_node)) /\
  left_ok (routing_info_ accepted_node) (adjacent_left_ (routing_info_ accepted_node)) /\
  right_ok (routing_info_ accepted_node) (adjacent_right_ (routing_info_ accepted_node)).
Proof.
  split; [vm_compute; reflexivity|]. apply (node_tables_invariant idle_node accepted_node idle_configured); [vm_compute; reflexivity|].
  eapply rtc_l; [exact asking_event|]. apply rtc_once. exact accepted_event.
Defined.

Lemma nested_delivery_bounded_witness :
  MinhtonNode.recv (logic := logic_at 5) request root_of_one =
  MinhtonNode.recv (logic := node_logic) request root_of_one.
Proof. apply (nested_delivery_bounded 5 request root_of_one); [lia|vm_compute; reflexivity]. Defined.

(** *** Procedures *)

Lemma procedure_roundtrip_witness :
  let p := empty_ProcedureInfo : ProcedureInfo FindQuery Attribute FindResultPromise in
  let nodes := [getNodeInfo root_of_one] in
  (exists p', (save kJoinProcedure [];; update kJoinProcedure nodes;; v ← load kJoinProcedure; mret v) p =
     (Ok nodes, p') /\
     (forall key', key' <> kJoinProcedure -> map_ p' !! key' = map_ p !! key') /\
     set_map (map_ p) p' = p) /\
  (save kJoinProcedure [];; update kJoinProcedure nodes;; v ← load kJoinProcedure;
   remove kJoinProcedure;; mret v) p = (Ok nodes, p).
Proof.
  apply (procedure_roundtrip kJoinProcedure [] [getNodeInfo root_of_one]
           (empty_ProcedureInfo : ProcedureInfo FindQuery Attribute FindResultPromise)). reflexivity.
Defined.

(** *** Requests that fail *)

(** A request that has made too many hops, at the full root of a network of three nodes. *)
Definition late_request : MessageVariant :=
  MessageJoin (Header.setMessageType kJoin (Header.make (getNodeInfo idle_node) (getNodeInfo (member 2 0)) 0 77))
    (getNodeInfo idle_node) kNone 64.

Lemma join_exception_blocks_witness :
  let s := (recv late_request (member 2 0)).2 in
  recv late_request (member 2 0) =
    (Throw (runtime_error "MINHTON message to be forwarded exceeds max hop count"), s) /\
  recv late_request s = (Throw key_exists, s).
Proof.
  assert (He : recv late_request (member 2 0) =
    (Throw (runtime_error "MINHTON message to be forwarded exceeds max hop count"), (recv late_request (member 2 0)).2))
    by (vm_compute; reflexivity).
  split; [exact He|].
  refine (join_exception_blocks _ _ _ _ (member 2 0) _ (recv late_request (member 2 0)).2
            _ _ _ He _ _ _ _ _); vm_compute; reflexivity.
Defined.

Lemma bootstrap_join_fails_witness :
  exists e s', processSignal joinNetworkViaBootstrap idle_node = (Throw e, s') /\
    stuck_in_discovery idle_node s' /\
    forall addr' port', processSignal (joinNetworkViaAddress addr' port') s' = (Ok tt, s').
Proof. apply (bootstrap_join_fails [] 0 idle_node); vm_compute; reflexivity. Defined.

Lemma acknowledgements_complete_witness :
  waitForAcks run_ack 0 Join_allUpdatesAcknowledged root_of_one =
    run_ack Join_allUpdatesAcknowledged root_of_one /\
  (forall k, (k < 3)%nat ->
     (waitForAcks run_ack 3 Join_allUpdatesAcknowledged;; acks run_ack k) root_of_one =
     (Ok tt, with_acks (Z.of_nat (3 - k)) (Some Join_allUpdatesAcknowledged) root_of_one)) /\
  ((0 < 3)%nat ->
     (waitForAcks run_ack 3 Join_allUpdatesAcknowledged;; acks run_ack 3) root_of_one =
     (run_ack Join_allUpdatesAcknowledged;; set_cb None)
       (with_acks 0 (Some Join_allUpdatesAcknowledged) root_of_one)) /\
  processRemoveNeighborAck run_ack root_of_one = (Undefined, root_of_one).
Proof. apply (acknowledgements_complete run_ack 3). vm_compute. reflexivity. Defined.

(** *** Positions *)

Lemma parent_search_terminates_witness :
  match findReachableNodeClosestToParent true (getNodeInfo (member 4 3)) (routing_info_ (member 4 2)) with
  | Ok n => reachable_above 2 (routing_info_ (member 4 2)) n | Throw _ => True | Undefined => False
  end.
Proof.
  apply (parent_search_terminates true (getNodeInfo (member 4 3)) (routing_info_ (member 4 2))).
  - vm_compute. split; discriminate.
  - vm_compute. split; discriminate.
  - vm_compute. split; [discriminate|reflexivity].
Defined.

Lemma root_tables : tables_match (routing_info_ root_of_one).
Proof.
  destruct (reachable_inv (routing_info_ root_of_one)) as [[Hm|Hc] _]; [|done|].
  - exists (routing_info_ root_of_one). split; [|done].
    apply (configured_routing root_of_one).
    exists run_ip, (run_port 0), true, 2, run_lengths, (run_logic 0). vm_compute. reflexivity.
  - destruct Hc as (_ & Hc & _). vm_compute in Hc. discriminate.
Qed.

Lemma new_child_position_witness :
  exists child position,
    children_ (routing_info_ root_of_one) !! 0%nat = Some child /\ Node.isInitialized child = false /\
    calcNewChildPosition true (routing_info_ root_of_one) = Ok position /\ pos_key position = pos_key child /\
    pos_key position = at_fanout 2 (0 + 1, 0 * 2 + 0).
Proof.
  refine (new_child_position 0 0 2 (routing_info_ root_of_one) root_tables _ _ _ _ _);
    vm_compute; first [reflexivity | split; discriminate | split; [discriminate|reflexivity] | discriminate].
Defined.

(** *** Searches *)

(** A query from the node at 2:0 to the node at 1:1. *)
Definition query : MessageVariant :=
  MessageGetNeighbors (Header.setMessageType kGetNeighbors
    (Header.make (getNodeInfo (member 4 3)) (getNodeInfo (member 4 2)) 0 99)) (getNodeInfo (member 4 3)) [kChild].

Definition searching : MNode := (performSearchExact (recv_at 2) (getNodeInfo (member 4 2)) query (member 4 3)).2.

Lemma search_exact_hop_witness :
  exists msg, sent_ searching = sent_ (member 4 3) ++ [msg] /\
    search_hop (getNodeInfo (member 4 2)) query (member 4 3) msg.
Proof.
  assert (Hd : d_eq (horizontal (getNodeInfo (member 4 3))) (horizontal (getNodeInfo (member 4 2))) = false)
    by (vm_compute; reflexivity).
  assert (Hs : performSearchExact (recv_at 2) (getNodeInfo (member 4 2)) query (member 4 3) = (Ok tt, searching))
    by (vm_compute; reflexivity).
  pose proof (search_exact_hop (recv_at 2) (getNodeInfo (member 4 2)) query (member 4 3) searching Hs) as Hh.
  rewrite Hd in Hh. exact Hh.
Defined.

(** The way of the search: from 2:0 to its neighbour 2:1, to the root and from there to 1:1. *)
Definition way_nodes : list RoutingInformation := routing_info_ <$> network 2 4.

Lemma search_exact_terminates_witness :
  NoDup [routing_info_ (member 4 3); routing_info_ (member 4 4); routing_info_ (member 4 0);
         routing_info_ (member 4 2)] /\
  (3 < length way_nodes)%nat.
Proof.
  refine (search_exact_terminates (horizontal (getNodeInfo (member 4 2))) way_nodes
    (routing_info_ (member 4 3))
    [routing_info_ (member 4 4); routing_info_ (member 4 0); routing_info_ (member 4 2)] _ _ _).
  - do 3 (apply way_hop; [split; vm_compute; reflexivity|]). apply way_end.
  - apply (list_elem_of_lookup_2 _ 3%nat). vm_compute. reflexivity.
  - intros r [->|[->|[->|[]%elem_of_nil]%elem_of_cons]%elem_of_cons]%elem_of_cons.
    + apply (list_elem_of_lookup_2 _ 4%nat). vm_compute. reflexivity.
    + apply (list_elem_of_lookup_2 _ 0%nat). vm_compute. reflexivity.
    + apply (list_elem_of_lookup_2 _ 2%nat). vm_compute. reflexivity.
Defined.

End Examples.
