(* ===== verification/EntitySearch.v ===== *)
(** * The entity search

    Model of [algorithms/esearch/minhton_entity_search_algorithm.cpp] and
    [minhton_entity_search_algorithm_helper.cpp], and of the messages of find queries and
    subscriptions: a query goes to a DSN of every second level, each forwards it to the DSNs of
    its level, asks the nodes it covers for what it does not know and answers the requesting
    node, which collects the answers until a timeout. Output on the console and logging are not
    modelled. *)

From S2P Require Import Prelude RoutingCalculations TreeMapper NodeInfo RoutingInformation ProcedureInfo Message Fsm MinhtonNode Access SearchExact Algorithms Containers NodeData BooleanExpression FindQuery DsnHandler.

(** ** Messages *)

Inductive ForwardingDirection := kDirectionNone | kDirectionLeft | kDirectionRight.

#[export] Instance ForwardingDirection_eq_dec : EqDecision ForwardingDirection.
Proof. solve_decision. Defined.

Abbreviation FoundNodes := (list (NodeInfo * list (Key * Value))).

(** What the messages of the entity search carry. *)
Inductive SearchPayload :=
| FindQueryRequest (query : Find.FindQuery) (forwarding_direction : ForwardingDirection) (interval : Z * Z)
| FindQueryAnswer (nodes_with_attributes : FoundNodes)
| SubscriptionOrder (keys : list Key) (subscribe : bool)
| SubscriptionUpdate (key : Key) (value : Value).

(** Each of them is accepted with any payload. *)
#[export] Instance search_payloads : Payloads :=
  {| ValueAndType := Value * ValueType; OtherPayload := SearchPayload; validateOther := fun _ => true |}.

(** ** The state *)

(** [using FindResult = std::vector<std::vector<Entry>>] *)
Abbreviation Entry := (Key * Value * ValueType)%type.
Abbreviation FindResult := (list (list Entry)).

(** The members of the algorithm, and the clock it reads. *)
Record SearchState := {
  local_data_ : LocalData;
  dsn_handler_ : DSNHandler;
  value_time_validity_threshold_after_inquiry_aggregation_ : Z;
  clock_ : Z;
}.

Definition set_local_data v s :=
  let '(Build_SearchState _ b c d) := s in Build_SearchState v b c d.
Definition set_dsn_handler v s :=
  let '(Build_SearchState a _ c d) := s in Build_SearchState a v c d.
Definition set_clock v s :=
  let '(Build_SearchState a b c _) := s in Build_SearchState a b c v.

(** A promise holds the result once it is set. *)
#[export] Instance search_types : SearchTypes :=
  {| FindQuery := Find.FindQuery; Attribute := Key * Value; FindResultPromise := option FindResult;
     EntitySearchState := SearchState |}.

(** [std::chrono::system_clock] in milliseconds: a reading and the clock after it. *)
Class Clock := { read_clock : Z -> Z * Z }.

Section Search.
Context `{Platform} `{Inet} `{UuidText} `{Uuids} `{Unordered} `{Clock}.

Definition makeFindQueryRequest (header : MinhtonMessageHeader) (query : Find.FindQuery)
    (forwarding_direction : ForwardingDirection) (interval : Z * Z) : outcome MessageVariant :=
  constructed validateImpl kFindQueryRequest header
    (fun header_ => MessageOther header_ (FindQueryRequest query forwarding_direction interval)).
Definition makeFindQueryAnswer (header : MinhtonMessageHeader) (nodes : FoundNodes) : outcome MessageVariant :=
  constructed validateImpl kFindQueryAnswer header (fun header_ => MessageOther header_ (FindQueryAnswer nodes)).
Definition makeSubscriptionOrder (header : MinhtonMessageHeader) (keys : list Key) (subscribe : bool)
    : outcome MessageVariant :=
  constructed validateImpl kSubscriptionOrder header
    (fun header_ => MessageOther header_ (SubscriptionOrder keys subscribe)).
Definition makeSubscriptionUpdate (header : MinhtonMessageHeader) (key : Key) (value : Value)
    : outcome MessageVariant :=
  constructed validateImpl kSubscriptionUpdate header
    (fun header_ => MessageOther header_ (SubscriptionUpdate key value)).

(** ** Access to the state *)

Definition on_search {A} (f : M SearchState A) : M MNode A :=
  zoom (fun s => search_ (logic_ s)) (fun v s => set_logic (set_search v (logic_ s)) s) f.
Definition dsn_handler {A} (f : M DSNHandler A) : M MNode A := on_search (zoom dsn_handler_ set_dsn_handler f).
Definition local_data {A} (f : M LocalData A) : M MNode A := on_search (zoom local_data_ set_local_data f).
Definition gets_search {A} (f : SearchState -> A) : M MNode A := gets_logic (fun l => f (search_ l)).

(** [access_->get_timestamp()] *)
Definition get_timestamp : M MNode Z :=
  on_search (fun s => let '(now, clock) := read_clock (clock_ s) in (Ok (u64 now), set_clock clock s)).

(** [dsn_handler_.isActive()], which looks at the node's routing information. *)
Definition isActive : M MNode bool :=
  r ← gets routing_info_;
  dsn_handler (Dsn.isActive r).

(** [catch (AlgorithmException const &)] *)
Definition catch_algorithm (m : M MNode unit) : M MNode unit := fun s =>
  match m s with
  | (Throw (AlgorithmException _ _), s') => (Ok tt, s')
  | r => r
  end.

(** The constructor. *)
Definition initial_SearchState (r : RoutingInformation) (inquiry_timeout clock : Z) : outcome SearchState :=
  handler ← Dsn.construct r;
  mret {| local_data_ := Local.empty; dsn_handler_ := handler;
          value_time_validity_threshold_after_inquiry_aggregation_ := u64 (5000 + inquiry_timeout);
          clock_ := clock |}.

(** ** Forwarding a query among the DSNs of a level *)

(** The messages to the right: each DSN gets the numbers up to the next one. *)
Fixpoint right_messages (interval_end level_end : Z) (right_interval : list NodeInfo)
    : list (NodeInfo * ForwardingDirection * (Z * Z)) :=
  match right_interval with
  | [] => []
  | node :: rest =>
      let upper_interval_limit :=
        match rest with next :: _ => Node.getNumber next | [] => Z.min interval_end level_end end in
      (node, kDirectionRight, (Node.getNumber node, upper_interval_limit))
      :: right_messages interval_end level_end rest
  end.

Fixpoint left_messages (interval_start : Z) (left_interval : list NodeInfo)
    : list (NodeInfo * ForwardingDirection * (Z * Z)) :=
  match left_interval with
  | [] => []
  | node :: rest =>
      let lower_interval_limit :=
        match rest with next :: _ => Node.getNumber next | [] => Z.max 0 interval_start end in
      (node, kDirectionLeft, (lower_interval_limit, Node.getNumber node)) :: left_messages interval_start rest
  end.

Definition by_number_descending (n1 n2 : NodeInfo) : bool := Node.getNumber n2 <? Node.getNumber n1.

(** [messages_info]: to whom a query is forwarded, and with which interval. *)
Definition forwarding_messages (number level_end : Z) (dsn_numbers : list Z) (rt_neighbors : list NodeInfo)
    (direction : ForwardingDirection) (interval : Z * Z) : list (NodeInfo * ForwardingDirection * (Z * Z)) :=
  let '(interval_start, interval_end) := interval in
  let is_dsn_and_in_interval node :=
    bool_decide (Node.getNumber node ∈ dsn_numbers) &&
    ((interval_start <? Node.getNumber node) && (Node.getNumber node <? interval_end)) in
  let dsn_rt_neighbors_in_interval := List.filter is_dsn_and_in_interval rt_neighbors in
  (if bool_decide (direction = kDirectionRight) || bool_decide (direction = kDirectionNone) then
     right_messages interval_end level_end
       (List.filter (fun node => number <? Node.getNumber node) dsn_rt_neighbors_in_interval)
   else []) ++
  (if bool_decide (direction = kDirectionLeft) || bool_decide (direction = kDirectionNone) then
     left_messages interval_start
       (std_sort by_number_descending
          (List.filter (fun node => Node.getNumber node <? number) dsn_rt_neighbors_in_interval))
   else []).

Definition performFindQueryForwarding (header : MinhtonMessageHeader) (query : Find.FindQuery)
    (direction : ForwardingDirection) (interval : Z * Z) : M MNode unit :=
  self ← getSelfNodeInfo;
  let fanout := Node.getFanout self in
  let level := Node.getLevel self in
  rt_neighbors ← gets (fun s => getAllInitializedRoutingTableNeighbors (routing_info_ s));
  dsn_numbers ← lift (getDSNSet level fanout);
  for_each (forwarding_messages (Node.getNumber self) (cvt_u32 (fanout ^ level)) dsn_numbers rt_neighbors
              direction interval)
    (fun '(node, dir, interval) =>
      header' ← headerTo node (ref_event_id_ header);
      msg_request ← lift (makeFindQueryRequest header' query dir interval);
      send msg_request).

(** ** Results *)

Definition kFindQuerySomeScopeThreshold : nat := 2.

(** [filterDuplicateAttributes]: the attributes of each node sorted by key, each key once. *)
Definition by_key (a b : Key * Value) : bool := string_lt a.1 b.1.
Definition same_key (a b : Key * Value) : bool := String.eqb a.1 b.1.
Definition filterDuplicateAttributes (results : FoundNodes) : FoundNodes :=
  (fun e => (e.1, std_unique same_key (std_sort by_key e.2))) <$> results.

(** [temp.resize(n)] *)
Definition resize (n : nat) (temp : FoundNodes) : FoundNodes :=
  take n temp ++ replicate (n - length temp) (Node.default, []).

Definition filterAggregationResultsAfterInquiries (full_results : FoundNodes) (scope : Find.FindQueryScope)
    : FoundNodes :=
  let cleaned_results := filterDuplicateAttributes full_results in
  match scope with
  | Find.kAll => cleaned_results
  | Find.kSome => assoc_of_range Node.eqb (resize kFindQuerySomeScopeThreshold (walk cleaned_results))
  end.

Definition filterAggregationResultsAfterDSNs (full_results : FoundNodes) (scope : Find.FindQueryScope)
    : FoundNodes := filterDuplicateAttributes full_results.

(** The attributes of one node: the value of each relevant key, and [false] for a topic it
    does not have. *)
Definition attributes_of (relevant_topic_keys : list Key) (d : Data.NodeData) (keys : list Key)
    : outcome (list (Key * Value)) :=
  foldr (fun key rest =>
    attributes ← rest;
    if Data.hasKey key d then
      value ← Data.getValue key d;
      mret ((key, value) :: attributes)
    else if bool_decide (key ∈ relevant_topic_keys) then mret ((key, Value_bool false) :: attributes)
    else mret attributes) (mret []) keys.

(** The loop over the nodes; [relevant_keys] is carried from node to node. *)
Fixpoint relevant_attributes (self : NodeInfo) (local : LocalData) (cover_data : CoverData)
    (select_all : bool) (relevant_topic_keys relevant_keys : list Key) (true_nodes : list NodeInfo)
    (results : FoundNodes) : outcome FoundNodes :=
  match true_nodes with
  | [] => mret results
  | node :: true_nodes' =>
      let known : option Data.NodeData :=
        if Logical.eqb (l_node_info_ node) (l_node_info_ self) then Some (l_data local)
        else d_data <$> Dsn.cover_find (l_node_info_ node) cover_data in
      match known with
      | None =>
          relevant_attributes self local cover_data select_all relevant_topic_keys relevant_keys true_nodes' results
      | Some d =>
          let relevant_keys :=
            if select_all || bool_decide (relevant_keys = []) then Data.getAllCurrentKeys d else relevant_keys in
          node_data ← attributes_of relevant_topic_keys d relevant_keys;
          relevant_attributes self local cover_data select_all relevant_topic_keys relevant_keys true_nodes'
            (if Nat.eqb (length node_data) 0 then results else assoc_assign Node.eqb node node_data results)
      end
  end.

Definition getRelevantAttributesAndValues (true_nodes : list NodeInfo) (query : Find.FindQuery)
    : M MNode FoundNodes :=
  relevant_keys ← lift (Find.getRelevantAttributes query);
  relevant_topic_keys ← lift (Find.getRelevantTopicAttributes query);
  let selection := Find.selection_ query in
  let relevant_keys :=
    if bool_decide (selection = Find.kSelectSpecific) then Find.selected_attribute_keys_ query else relevant_keys in
  cover_data ← gets_search (fun x => cover_data_ (dsn_handler_ x));
  local ← gets_search local_data_;
  self ← getSelfNodeInfo;
  lift (relevant_attributes self local cover_data (bool_decide (selection = Find.kSelectAll)) relevant_topic_keys
          relevant_keys true_nodes []).

Definition savePreliminaryResultsFromInquiryAggregation (ref_event_id : Z) (results : FoundNodes) : M MNode unit :=
  catch_algorithm (for_each (walk results) (fun '(node, attributes) =>
    procedure (addFindQueryPreliminaryResults ref_event_id node attributes))).

(** ** Conclusions *)

Definition concludeAggregationOfInquiries (ref_event_id : Z) : M MNode unit :=
  query ← procedure (loadFindQuery ref_event_id);
  let requesting_node := Find.requesting_node_ query in
  timestamp_now ← get_timestamp;
  handler ← gets_search dsn_handler_;
  true_nodes ← lift (Dsn.getTrueNodes query timestamp_now handler);
  threshold ← gets_search value_time_validity_threshold_after_inquiry_aggregation_;
  let validity_threshold_timestamp := u64 (timestamp_now - threshold) in
  local ← gets_search local_data_;
  self ← getSelfNodeInfo;
  value ← lift (Find.evaluate (Own local) true validity_threshold_timestamp query);
  let true_nodes := if isTrue value then true_nodes ++ [self] else true_nodes in
  results ← getRelevantAttributesAndValues true_nodes query;
  let filtered_results := filterAggregationResultsAfterInquiries results (Find.scope_ query) in
  (if negb (Node.eqb requesting_node self) then
     header ← headerTo requesting_node ref_event_id;
     msg_answer ← lift (makeFindQueryAnswer header filtered_results);
     send msg_answer;;
     procedure (removeFindQuery ref_event_id)
   else savePreliminaryResultsFromInquiryAggregation ref_event_id filtered_results);;
  catch_algorithm (procedure (removeInquiryAggregationStartTimestamp ref_event_id)).

(** [loadFindResultPromise(id).set_value(entries)] *)
Definition set_promise (ref_event_id : Z) (entries : FindResult) : M MNode unit :=
  promise ← procedure (loadFindResultPromise ref_event_id);
  throw_if (bool_decide (is_Some promise)) (logic_error "std::future_error: Promise already satisfied");;
  procedure (modify (fun p => set_promises (<[ref_event_id := Some entries]> (find_result_promises_ p)) p)).

Definition notifyAboutFindQueryResults (ref_event_id : Z) (results : FoundNodes) : M MNode unit :=
  let entry (attribute : Key * Value) : Entry := (attribute.1, attribute.2, kValueDynamic) in
  set_promise ref_event_id (map (fun e => map entry e.2) (walk results)).

Definition concludeAggregationOfDSNs (ref_event_id : Z) : M MNode unit :=
  query ← procedure (loadFindQuery ref_event_id);
  results ← procedure (loadFindQueryPreliminaryResults ref_event_id);
  let filtered_results := filterAggregationResultsAfterDSNs results (Find.scope_ query) in
  notifyAboutFindQueryResults ref_event_id filtered_results;;
  procedure (removeFindQuery ref_event_id);;
  procedure (removeFindQueryPreliminaryResults ref_event_id);;
  procedure (removeDSNAggregationStartTimestamp ref_event_id).

(** The condition of the two timeouts on the start of an aggregation. *)
Definition dsn_aggregation_due (start_timestamp treshold : Z) : bool := treshold <=? start_timestamp.
Definition inquiry_aggregation_due (start_timestamp treshold : Z) : bool := start_timestamp <=? treshold.

Definition processDSNAggregationTimeout : M MNode unit :=
  timestamp_now ← get_timestamp;
  timeout_length ← gets (getTimeoutLength kDsnAggregationTimeout);
  let treshold := u64 (timestamp_now - timeout_length) in
  starts ← gets (fun s => getDSNAggregationStartTimestampMap (procedure_info_ (logic_ s)));
  for_each (walk (map_to_list starts)) (fun '(ref_event_id, start_timestamp) =>
    if dsn_aggregation_due start_timestamp treshold then concludeAggregationOfDSNs ref_event_id else mret tt).

Definition processInquiryAggregationTimeout : M MNode unit :=
  timestamp_now ← get_timestamp;
  timeout_length ← gets (getTimeoutLength kInquiryAggregationTimeout);
  let treshold := u64 (timestamp_now - timeout_length) in
  starts ← gets (fun s => getInquiryAggregationStartTimestampMap (procedure_info_ (logic_ s)));
  for_each (walk (map_to_list starts)) (fun '(ref_event_id, start_timestamp) =>
    if inquiry_aggregation_due start_timestamp treshold then concludeAggregationOfInquiries ref_event_id
    else mret tt).

Definition processTimeout (type : TimeoutType) : M MNode unit :=
  match type with
  | kDsnAggregationTimeout => processDSNAggregationTimeout
  | kInquiryAggregationTimeout => processInquiryAggregationTimeout
  | _ => mret tt
  end.

(** ** Queries *)

Definition performSendInquiryAggregations (ref_event_id : Z) (query : Find.FindQuery) : M MNode unit :=
  timestamp_now ← get_timestamp;
  let requesting_node := Find.requesting_node_ query in
  handler ← gets_search dsn_handler_;
  undecided_nodes_and_missing_keys ←
    lift (Dsn.getUndecidedNodesAndMissingKeys query false timestamp_now handler);
  true_nodes ← lift (Dsn.getTrueNodes query timestamp_now handler);
  dsn_handler (Dsn.notifyAboutQueryRequest query timestamp_now);;
  self ← getSelfNodeInfo;
  (if negb (Node.eqb requesting_node self) then procedure (saveFindQuery ref_event_id query) else mret tt);;
  if Nat.eqb (length undecided_nodes_and_missing_keys) 0 ||
     (bool_decide (Find.scope_ query = Find.kSome) && Nat.leb kFindQuerySomeScopeThreshold (length true_nodes))
  then concludeAggregationOfInquiries ref_event_id
  else
    for_each undecided_nodes_and_missing_keys (fun '(undecided_node, missing_keys) =>
      header ← headerTo undecided_node ref_event_id;
      let inquire_all := bool_decide (Find.selection_ query = Find.kSelectAll) in
      msg_inquiry ← lift (makeAttributeInquiryRequest header inquire_all (sort_unique missing_keys));
      send msg_inquiry);;
    setTimeout kInquiryAggregationTimeout;;
    procedure (saveInquiryAggregationStartTimestamp ref_event_id timestamp_now).

Definition processFindQueryRequest (header : MinhtonMessageHeader) (query : Find.FindQuery)
    (direction : ForwardingDirection) (interval : Z * Z) : M MNode unit :=
  active ← isActive;
  if negb active then mret tt
  else
    performFindQueryForwarding header query direction interval;;
    self ← getSelfNodeInfo;
    if negb (Node.eqb (Find.requesting_node_ query) self)
    then performSendInquiryAggregations (ref_event_id_ header) query
    else mret tt.

Definition processFindQueryAnswer (header : MinhtonMessageHeader) (nodes : FoundNodes) : M MNode unit :=
  savePreliminaryResultsFromInquiryAggregation (ref_event_id_ header) nodes.

(** The loop [for (level = 2; level < known_max_level; level += 2)]; one iteration for every
    second level. *)
Fixpoint middle_dsns (fuel : nat) (level known_max_level : Z) (self : NodeInfo) (we_are_dsn : bool)
    : outcome (list NodeInfo) :=
  if level <? known_max_level then
    match fuel with
    | O => Undefined
    | S fuel' =>
        let fanout := Node.getFanout self in
        node ← (if (Node.getLevel self =? level) && we_are_dsn then mret self
                else
                  level_ds ← getDSNSet level fanout;
                  if Z.of_nat (length level_ds) <=? fanout + 1 then Node.of_position level fanout fanout
                  else
                    middle_number ← vec_at level_ds (Nat.div2 (length level_ds));
                    Node.of_position level middle_number fanout);
        rest ← middle_dsns fuel' (u32 (level + 2)) known_max_level self we_are_dsn;
        mret (node :: rest)
    end
  else Ok [].

Definition calcDSNsToSendInitialCDSForwardingTo (r : RoutingInformation) : outcome (list NodeInfo) :=
  let self := self_node_info_ r in
  let fanout := Node.getFanout self in
  let adj_left := adjacent_left_ r in
  let adj_right := adjacent_right_ r in
  this_level_ds ← getDSNSet (Node.getLevel self) fanout;
  let we_are_dsn := bool_decide (Node.getNumber self ∈ this_level_ds) in
  let known_max_level :=
    if negb (Node.getLevel adj_left =? Node.getLevel adj_right) ||
       negb (Node.getLevel adj_left =? Node.getLevel self) ||
       negb (Node.getLevel adj_right =? Node.getLevel self)
    then Z.max (Z.max (Node.getLevel adj_left) (Node.getLevel adj_right)) (Node.getLevel self)
    else Node.getLevel adj_left in
  first ← (if negb (Node.getLevel self =? 0) then Node.of_position 0 0 fanout else mret self);
  middle ← middle_dsns (Z.to_nat known_max_level) 2 known_max_level self we_are_dsn;
  last ← (if known_max_level mod 2 =? 0 then
            if (Node.getLevel self =? known_max_level) && we_are_dsn then mret self
            else Node.of_position known_max_level (if known_max_level =? 0 then 0 else fanout) fanout
          else Node.of_position (u32 (known_max_level + 1)) fanout fanout);
  mret ([first] ++ middle ++ [last]).

Section Delivering.
(** [access_->recv], through which an exact search that ends here delivers its query *)
Variable recv : MessageVariant -> M MNode unit.

Definition perform_search_exact : NodeInfo -> MessageVariant -> M MNode unit := performSearchExact recv.

(** The result is in the promise saved under the returned id. *)
Definition find (query : Find.FindQuery) : M MNode Z :=
  self ← getSelfNodeInfo;
  let query := Find.setRequestingNode self query in
  lift (Find.serializeBooleanExpression query);;
  ref_event_id ← freshId;
  procedure (saveFindQuery ref_event_id query);;
  procedure (saveFindQueryPreliminaryResults ref_event_id []);;
  procedure (saveFindResultPromise ref_event_id None);;
  setTimeout kDsnAggregationTimeout;;
  timestamp_now ← get_timestamp;
  procedure (saveDSNAggregationStartTimestamp ref_event_id timestamp_now);;
  dsns_to_send_request_to ← ask calcDSNsToSendInitialCDSForwardingTo;
  for_each dsns_to_send_request_to (fun dsn_target =>
    self ← getSelfNodeInfo;
    header ← headerTo dsn_target ref_event_id;
    let interval := (0, cvt_u32 (Node.getFanout self ^ Node.getLevel dsn_target)) in
    msg_request ← lift (makeFindQueryRequest header query kDirectionNone interval);
    if Logical.eqb (l_node_info_ dsn_target) (l_node_info_ self) then
      active ← isActive;
      if (active : bool) then
        performFindQueryForwarding (getHeader msg_request) query kDirectionNone interval;;
        performSendInquiryAggregations ref_event_id query
      else mret tt
    else perform_search_exact dsn_target msg_request);;
  mret ref_event_id.

(** ** Attributes *)

Definition updateSubscribers (key : Key) : M MNode unit :=
  local ← gets_search local_data_;
  value ← lift (Data.getValue key (l_data local));
  for_each (Local.getSubscribers key local) (fun sub =>
    header ← headerTo sub 0;
    msg_update ← lift (makeSubscriptionUpdate header key value);
    send msg_update).

(** The attributes of the keys that are there; [getAllCurrentKeys] gives exactly these. *)
Definition values_and_types (keys : list Key) (d : Data.NodeData) : gmap Key (Value * ValueType) :=
  foldl (fun m key =>
    match Data.data_ d !! key, m !! key with
    | Some entry, None => <[key := (entry.1.1, entry.2)]> m
    | _, _ => m
    end) ∅ keys.

Definition insert_entry (entry : Entry) : M MNode unit :=
  let '(key, value, type) := entry in
  timestamp_now ← get_timestamp;
  inserted ← local_data (Local.base (Data.insert key (value, timestamp_now, type)));
  throw_if (negb inserted) (AlgorithmException kUndefinedAlgorithm "already inserted");;
  updateSubscribers key.

(** [publish_attributes_after_insert_and_removal_] is always true. *)
Definition localInsert (entries : list Entry) : M MNode unit :=
  for_each entries insert_entry;;
  we_are_dsn ← ask areWeDSN;
  if (we_are_dsn : bool) then mret tt
  else
    our_dsn ← ask getCoveringDSNOrTempDSN;
    self ← getSelfNodeInfo;
    header ← newHeader self our_dsn 0;
    local ← gets_search local_data_;
    let d := l_data local in
    msg ← lift (makeAttributeInquiryAnswer header self (values_and_types (Data.getAllCurrentKeys d) d) []);
    perform_search_exact our_dsn msg.

(** An entry whose value is the current one ends the whole call. *)
Fixpoint localUpdate (entries : list Entry) : M MNode unit :=
  match entries with
  | [] => mret tt
  | (key, value, type) :: entries' =>
      local ← gets_search local_data_;
      let unchanged :=
        match Data.data_ (l_data local) !! key with Some old => Value_eqb old.1.1 value | None => false end in
      if unchanged then mret tt
      else
        timestamp_now ← get_timestamp;
        updated ← local_data (Local.base (Data.update key (value, timestamp_now, type)));
        throw_if (negb updated) (AlgorithmException kUndefinedAlgorithm "could not update");;
        updateSubscribers key;;
        localUpdate entries'
  end.

Definition localRemove (keys : list Key) : M MNode unit :=
  for_each keys (fun key =>
    local_data (Local.base (Data.remove key));;
    updateSubscribers key);;
  throw (logic_error "not implemented yet").

Definition processAttributeInquiryRequest (header : MinhtonMessageHeader) (inquire_all : bool)
    (missing_keys : list Key) : M MNode unit :=
  self ← getSelfNodeInfo;
  header' ← newHeader self (sender_ header) (ref_event_id_ header);
  local ← gets_search local_data_;
  let d := l_data local in
  let attribute_values_and_types :=
    values_and_types (if inquire_all then Data.getAllCurrentKeys d else missing_keys) d in
  msg_answer ← lift (makeAttributeInquiryAnswer header' self attribute_values_and_types []);
  send msg_answer.

Definition processAttributeInquiryAnswer (inquired_node : NodeInfo) (values : gmap Key (Value * ValueType))
    (removed_attribute_keys : list Key) : M MNode unit :=
  timestamp_now ← get_timestamp;
  dsn_handler (Dsn.updateInquiredOrSubscribedAttributeValues inquired_node values timestamp_now);;
  if bool_decide (removed_attribute_keys = []) then mret tt
  else dsn_handler (Dsn.updateRemovedAttributes inquired_node removed_attribute_keys).

(** The callback of the DSN handler. *)
Definition requestAttributeInformation (node : NodeInfo) : M MNode unit :=
  header ← headerTo node 0;
  msg ← lift (makeAttributeInquiryRequest header true []);
  if Node.isInitialized node then send msg else perform_search_exact node msg.

(** What the handler does when the routing information notifies it. *)
Definition onNotification (note : Notification) : M MNode unit :=
  r ← gets routing_info_;
  requested ← dsn_handler (match note with
                           | NeighborChange new_node _ _ _ => Dsn.onNeighborChangeNotification r new_node
                           | NodeInfoChange _ _ => Dsn.onNodeInfoChangeNotification r
                           end);
  for_each requested requestAttributeInformation.

(** ** Subscriptions *)

Definition optimizeSubscriptions : M MNode unit :=
  timestamp_now ← get_timestamp;
  subscribe_map ← gets_search (fun x => Dsn.getNodesAndKeysToSubscribe timestamp_now (dsn_handler_ x));
  unsubscribe_map ← dsn_handler (Dsn.getNodesAndKeysToUnsubscribe timestamp_now);
  let order subscribe '(node, keys) :=
    header ← headerTo node 0;
    msg ← lift (makeSubscriptionOrder header keys subscribe);
    send msg in
  for_each (walk subscribe_map) (order true);;
  for_each (walk unsubscribe_map) (order false);;
  dsn_handler (Dsn.setPlacedSubscriptionOrders subscribe_map);;
  dsn_handler (Dsn.setPlacedUnsubscriptionOrders unsubscribe_map).

Definition processSubscriptionOrder (header : MinhtonMessageHeader) (keys : list Key) (subscribed : bool)
    : M MNode unit :=
  let orderer := sender_ header in
  for_each keys (fun key =>
    local_data (if subscribed then Local.addKeySubscriber key orderer else Local.removeKeySubscriber key orderer)).

Definition processSubscriptionUpdate (header : MinhtonMessageHeader) (key : Key) (value : Value) : M MNode unit :=
  timestamp_now ← get_timestamp;
  dsn_handler (Dsn.updateInquiredOrSubscribedAttributeValues (sender_ header) {[key := (value, kValueDynamic)]}
                 timestamp_now).

Definition processSearchExactFailure (query : MessageVariant) : M MNode unit :=
  fanout ← ask getFanout;
  let query_header := getHeader query in
  if bool_decide (message_type_ query_header = kFindQueryRequest) ||
     bool_decide (message_type_ query_header = kAttributeInquiryAnswer) then
    let non_existing_target := target_ query_header in
    parent ← lift (calcParent (Node.getLevel non_existing_target) (Node.getNumber non_existing_target) fanout);
    new_dsn_target ← lift (Node.of_position parent.1 parent.2 fanout);
    query' ← lift (setTarget new_dsn_target query);
    perform_search_exact new_dsn_target query'
  else throw (logic_error "not implemented yet").

Definition process (msg : MessageVariant) : M MNode unit :=
  match msg with
  | MessageOther header (FindQueryRequest query direction interval) =>
      processFindQueryRequest header query direction interval
  | MessageOther header (FindQueryAnswer nodes) => processFindQueryAnswer header nodes
  | MessageAttributeInquiryAnswer _ inquired_node values removed =>
      processAttributeInquiryAnswer inquired_node values removed
  | MessageAttributeInquiryRequest header inquire_all missing_keys =>
      processAttributeInquiryRequest header inquire_all missing_keys
  | MessageOther header (SubscriptionUpdate key value) => processSubscriptionUpdate header key value
  | MessageOther header (SubscriptionOrder keys subscribe) => processSubscriptionOrder header keys subscribe
  | MessageSearchExactFailure _ _ query => processSearchExactFailure query
  | _ => throw (AlgorithmException kUndefinedAlgorithm "Wrong Algorithm Interface process called")
  end.

End Delivering.

(** The interface of the node is implemented. *)
#[export] Instance minhton_entity_search : EntitySearch :=
  {| esearch_process := process; esearch_timeout := processTimeout |}.

End Search.
