(* ===== verification/SearchEffects.v ===== *)
(** * What the entity search does to a node

    The entity search meets what the node asks of it ([EntitySearchDoes]): like the other
    algorithms it changes its own state and the pending timeouts and sends well-typed messages
    with valid headers, and it nests deliveries no deeper than they do ([EntitySearchNests]).
    With it every invariant of a node holds for the whole program. *)

From S2P Require Import Prelude RoutingCalculations NodeInfo RoutingInformation ProcedureInfo Message Fsm MinhtonNode Access SearchExact Algorithms Effects Delivery Containers NodeData BooleanExpression FindQuery DsnHandler EntitySearch.

Section Effects.
Context `{Platform} `{Inet} `{UuidText} `{Uuids} `{Unordered} `{Clock}.

(** ** The messages *)

Lemma sendable_FindQueryRequest h q d i m : makeFindQueryRequest h q d i = Ok m -> sendable m.
Proof. intros ->%constructed_Ok. split; reflexivity. Qed.
Lemma sendable_FindQueryAnswer h n m : makeFindQueryAnswer h n = Ok m -> sendable m.
Proof. intros ->%constructed_Ok. split; reflexivity. Qed.
Lemma sendable_SubscriptionOrder h k b m : makeSubscriptionOrder h k b = Ok m -> sendable m.
Proof. intros ->%constructed_Ok. split; reflexivity. Qed.
Lemma sendable_SubscriptionUpdate h k v m : makeSubscriptionUpdate h k v = Ok m -> sendable m.
Proof. intros ->%constructed_Ok. split; reflexivity. Qed.
Lemma query_ok_FindQueryRequest h q d i m : makeFindQueryRequest h q d i = Ok m -> query_ok m.
Proof. intros ->%constructed_Ok. split; reflexivity. Qed.
Lemma query_ok_AttributeInquiryAnswer h a b c m : makeAttributeInquiryAnswer h a b c = Ok m -> query_ok m.
Proof. intros ->%constructed_Ok. split; reflexivity. Qed.
Lemma query_ok_AttributeInquiryRequest h a b m : makeAttributeInquiryRequest h a b = Ok m -> query_ok m.
Proof. intros ->%constructed_Ok. split; reflexivity. Qed.
Hint Resolve sendable_FindQueryRequest sendable_FindQueryAnswer sendable_SubscriptionOrder
  sendable_SubscriptionUpdate query_ok_FindQueryRequest query_ok_AttributeInquiryAnswer
  query_ok_AttributeInquiryRequest : sendable.

(** ** Access to the state *)

Lemma does_on_search {A} (f : M SearchState A) : does (on_search f).
Proof. apply does_one. intros s _. unfold on_search, zoom. destruct (f _). apply act_logic. Qed.
Lemma does_dsn_handler {A} (f : M DSNHandler A) : does (dsn_handler f). Proof. apply does_on_search. Qed.
Lemma does_local_data {A} (f : M LocalData A) : does (local_data f). Proof. apply does_on_search. Qed.
Lemma does_gets_search {A} (f : SearchState -> A) : does (gets_search f). Proof. apply does_gets. Qed.
Lemma does_get_timestamp : does get_timestamp. Proof. apply does_on_search. Qed.
Hint Resolve does_dsn_handler does_local_data does_gets_search does_get_timestamp does_headerTo does_newHeader
  does_freshId does_getSelfNodeInfo does_gets_logic : does.

Lemma does_isActive : does isActive. Proof. unfold isActive. does. Qed.
Hint Resolve does_isActive : does.

(** What is caught has only changed the procedure info. *)
Lemma does_catch (m : M MNode unit) :
  (forall s r s', m s = (r, s') -> rtc (act true) s s') -> does (catch_algorithm m).
Proof.
  intros Hm s r s' _. unfold catch_algorithm. destruct (m s) as [o s1] eqn:E. apply Hm in E. intros Hr.
  apply acts_weaken. destruct o as [|ex|]; [|destruct ex|]; by injection Hr as <- <-.
Qed.
Lemma procedure_acts {A} (f : M _ A) s r s' : procedure f s = (r, s') -> rtc (act true) s s'.
Proof. unfold procedure, zoom. destruct (f _). intros [= <- <-]. apply rtc_once, act_logic. Qed.
Lemma for_each_acts {A} (l : list A) (f : A -> M MNode unit) :
  (forall a s r s', f a s = (r, s') -> rtc (act true) s s') ->
  forall s r s', for_each l f s = (r, s') -> rtc (act true) s s'.
Proof.
  intros Hf. induction l as [|a l IH]; intros s r s'; cbn; [by intros [= <- <-]|]. mred.
  destruct (f a s) as [o s1] eqn:E. apply Hf in E. destruct o; intros Hr; [|by injection Hr as <- <-..].
  etrans; [done|]. by eapply IH.
Qed.

Lemma does_savePreliminary id results : does (savePreliminaryResultsFromInquiryAggregation id results).
Proof. apply does_catch, for_each_acts. intros [node attributes] s r s'. apply procedure_acts. Qed.
Lemma does_removeInquiryStart id : does (catch_algorithm (procedure (removeInquiryAggregationStartTimestamp id))).
Proof. apply does_catch. intros s r s'. apply procedure_acts. Qed.
Hint Resolve does_savePreliminary does_removeInquiryStart : does.

(** ** The algorithm *)

Lemma does_performFindQueryForwarding h q d i : does (performFindQueryForwarding h q d i).
Proof. unfold performFindQueryForwarding. does. Qed.
Lemma does_getRelevant nodes q : does (getRelevantAttributesAndValues nodes q).
Proof. unfold getRelevantAttributesAndValues. does. Qed.
Hint Resolve does_performFindQueryForwarding does_getRelevant : does.
Lemma does_concludeInquiries id : does (concludeAggregationOfInquiries id).
Proof. unfold concludeAggregationOfInquiries. does. Qed.
Lemma does_set_promise id entries : does (set_promise id entries).
Proof. unfold set_promise. does. Qed.
Hint Resolve does_concludeInquiries does_set_promise : does.
Lemma does_concludeDSNs id : does (concludeAggregationOfDSNs id).
Proof. unfold concludeAggregationOfDSNs, notifyAboutFindQueryResults. does. Qed.
Hint Resolve does_concludeDSNs : does.
Lemma does_performSendInquiry id q : does (performSendInquiryAggregations id q).
Proof. unfold performSendInquiryAggregations. does. Qed.
Hint Resolve does_performSendInquiry : does.

Lemma does_processTimeout type : does (processTimeout type).
Proof. unfold processTimeout, processDSNAggregationTimeout, processInquiryAggregationTimeout. does. Qed.

Section Delivering.
Variable recv : MessageVariant -> M MNode unit.
Hypothesis recv_delivers : delivers recv.

Lemma does_perform_search_exact n q : query_ok q -> does (perform_search_exact recv n q).
Proof. apply does_performSearchExact, recv_delivers. Qed.
Hint Resolve does_perform_search_exact : does.

Lemma does_updateSubscribers key : does (updateSubscribers key).
Proof. unfold updateSubscribers. does. Qed.
Hint Resolve does_updateSubscribers : does.

Lemma setTarget_query_ok target q q' : query_ok q -> setTarget target q = Ok q' -> query_ok q'.
Proof.
  intros [Hs Hw] Hq. split; [|by eapply setTarget_well_typed]. revert Hq. unfold setTarget.
  intros (? & _ & Hr)%outcome_bind_Ok. injection Hr as <-. by destruct q.
Qed.
Hint Resolve setTarget_query_ok : sendable.

Lemma does_processSearchExactFailure q : query_ok q -> does (processSearchExactFailure recv q).
Proof. intros Hq. unfold processSearchExactFailure. does. Qed.
Hint Resolve does_processSearchExactFailure : does.

Lemma does_process msg : well_typed msg = true -> does (process recv msg).
Proof.
  intros Hw. unfold process, processFindQueryRequest, processFindQueryAnswer, processAttributeInquiryAnswer,
    processAttributeInquiryRequest, processSubscriptionUpdate, processSubscriptionOrder.
  destruct msg; try solve [does]. apply does_processSearchExactFailure.
  cbn in Hw. by apply andb_prop in Hw as [_ [? ?]%andb_prop].
Qed.

(** The operations the application calls, and the notifications of the routing information. *)
Lemma does_find q : does (find recv q).
Proof. unfold find. does. Qed.
Lemma does_localInsert entries : does (localInsert recv entries).
Proof. unfold localInsert, insert_entry. does. Qed.
Lemma does_localUpdate entries : does (localUpdate entries).
Proof. induction entries as [|[[key value] type] entries IH]; cbn [localUpdate]; does. Qed.
Lemma does_localRemove keys : does (localRemove keys).
Proof. unfold localRemove. does. Qed.
Lemma does_onNotification note : does (onNotification recv note).
Proof. unfold onNotification, requestAttributeInformation. does. Qed.
Lemma does_optimizeSubscriptions : does optimizeSubscriptions.
Proof. unfold optimizeSubscriptions. does. Qed.

End Delivering.

#[export] Instance minhton_search_does : EntitySearchDoes.
Proof.
  split; [intros recv msg Hr Hw; by apply does_process|]. apply does_processTimeout.
Qed.

(** The queries a failed search delivers are handled without delivering another message. *)
Lemma requery_is_leaf query :
  well_typed query = true ->
  bool_decide (message_type_ (getHeader query) = kFindQueryRequest) ||
  bool_decide (message_type_ (getHeader query) = kAttributeInquiryAnswer) = true ->
  is_leaf query = true.
Proof.
  intros Hw%well_typed_type Ht. unfold getMessageType in Hw.
  apply orb_true_iff in Ht as [Ht%bool_decide_eq_true|Ht%bool_decide_eq_true]; rewrite Ht in Hw;
    destruct query; try reflexivity; cbn in Hw; by apply list_elem_of_singleton in Hw.
Qed.

Lemma failure_agree r1 r2 query s :
  well_typed query = true -> (forall msg s', is_leaf msg = true -> r1 msg s' = r2 msg s') ->
  processSearchExactFailure r1 query s = processSearchExactFailure r2 query s.
Proof.
  intros Hw Hr. unfold processSearchExactFailure. apply (agree_bind anywhere); [done|done| |done]. intros fanout _.
  destruct (bool_decide _ || bool_decide _) eqn:E; [|apply agree_refl].
  pose proof (requery_is_leaf query Hw E) as Hl.
  apply agree_bind; [done|done|]. intros parent _. apply agree_bind; [done|done|]. intros n _.
  apply agree_bind; [done|done|]. intros q [h ->]%returns_lift%setTarget_with_header.
  apply search_agree. intros n' q [h' ->]%setTarget_with_header s' _. apply Hr. by rewrite !with_header_leaf.
Qed.

#[export] Instance minhton_search_nests : EntitySearchNests.
Proof.
  split; intros r1 r2.
  - intros [] s Hm; first [solve [destruct Hm]|reflexivity].
  - intros header destination query s. apply failure_agree.
Qed.

End Effects.
