(* ===== verification/Forwarding.v ===== *)
(** * How a query spreads over a level

    A find query reaches one DSN of a level with the interval of all numbers of the level; every
    DSN that receives it hands parts of its interval on to the DSNs of its routing table. On a
    level all of whose nodes are known to each other's tables, every DSN receives the query
    exactly once. *)

From S2P Require Import Prelude RoutingCalculations NodeInfo RoutingInformation Message EntitySearch.

Definition numbers (nodes : list NodeInfo) : list Z := Node.getNumber <$> nodes.

(** The elements of [D] from [lo] on and below [hi]. *)
Definition between (lo hi : Z) (D : list Z) : list Z := base.filter (fun d => lo <= d < hi) D.

Lemma elem_of_between lo hi D d : d ∈ between lo hi D <-> lo <= d < hi /\ d ∈ D.
Proof. unfold between. by rewrite list_elem_of_filter. Qed.

Lemma between_split lo mid hi D :
  lo <= mid <= hi -> between lo hi D ≡ₚ between lo mid D ++ between mid hi D.
Proof.
  intros Hm. unfold between. induction D as [|d D IH]; [done|]. rewrite !filter_cons.
  repeat destruct (decide _); try lia; rewrite IH; cbn; [done| |done].
  by rewrite Permutation_middle.
Qed.

Lemma between_empty lo hi D : (forall d, d ∈ D -> lo <= d < hi -> False) -> between lo hi D = [].
Proof.
  intros Hn. apply elem_of_nil_inv. intros d (Hd & HD)%elem_of_between. eauto.
Qed.

Lemma between_all lo hi D : (forall d, d ∈ D -> lo <= d < hi) -> between lo hi D = D.
Proof.
  intros Ha. unfold between. induction D as [|d D IH]; [done|].
  rewrite filter_cons_True by (apply Ha; left). f_equal. apply IH. intros x Hx. apply Ha. by right.
Qed.

Lemma between_single n D : NoDup D -> n ∈ D -> between n (n + 1) D ≡ₚ [n].
Proof.
  intros Hnd Hn. apply NoDup_Permutation; [by apply NoDup_filter|apply NoDup_singleton|].
  intros d. rewrite elem_of_between, list_elem_of_singleton. split; [lia|]. intros ->. split; [lia|done].
Qed.

(** ** One DSN *)

Definition ascending_nodes (nodes : list NodeInfo) : Prop := StronglySorted Z.lt (numbers nodes).
Definition descending_nodes (nodes : list NodeInfo) : Prop := StronglySorted Z.gt (numbers nodes).

Abbreviation Forwarded := (NodeInfo * ForwardingDirection * (Z * Z))%type.

(** The parts of the interval the messages to the right and to the left stand for. *)
Definition right_part (m : Forwarded) (D : list Z) : list Z := between (Node.getNumber m.1.1) m.2.2 D.
Definition left_part (m : Forwarded) (D : list Z) : list Z := between (m.2.1 + 1) (Node.getNumber m.1.1 + 1) D.

Lemma ascending_cons n m nodes : ascending_nodes (n :: m :: nodes) -> Node.getNumber n < Node.getNumber m.
Proof. intros [_ Hf]%StronglySorted_inv. by apply Forall_cons in Hf as [? _]. Qed.

Lemma ascending_NoDup nodes : ascending_nodes nodes -> NoDup (numbers nodes).
Proof.
  induction nodes as [|n nodes IH]; intros Ha; [apply NoDup_nil_2|]. apply StronglySorted_inv in Ha as [Ha Hf].
  apply NoDup_cons. split; [|by apply IH]. intros Hn. rewrite Forall_forall in Hf. specialize (Hf _ Hn). lia.
Qed.

(** The messages to the right cut the rest of the interval into consecutive parts. *)
Lemma right_messages_parts b E D node nodes :
  ascending_nodes (node :: nodes) -> (forall n, n ∈ node :: nodes -> Node.getNumber n < b) -> b <= E ->
  between (Node.getNumber node) b D ≡ₚ (right_messages b E (node :: nodes) ≫= fun m => right_part m D) /\
  (forall m, m ∈ right_messages b E (node :: nodes) ->
     m.1.1 ∈ node :: nodes /\ m.1.2 = kDirectionRight /\ m.2.1 = Node.getNumber m.1.1 /\
     Node.getNumber m.1.1 < m.2.2 <= b).
Proof.
  intros Ha Hb HE. revert node Ha Hb. induction nodes as [|next nodes IH]; intros node Ha Hb.
  - cbn. rewrite Z.min_l by done. split.
    + unfold right_part. cbn. by rewrite app_nil_r.
    + intros m ->%list_elem_of_singleton. cbn. split_and!; [left|done|done|apply Hb; left|lia].
  - pose proof (ascending_cons _ _ _ Ha) as Hlt. destruct (IH next) as [Hp Hm].
    { by apply StronglySorted_inv in Ha as [? _]. }
    { intros n Hn. apply Hb. by right. }
    change (right_messages b E (node :: next :: nodes)) with
      ((node, kDirectionRight, (Node.getNumber node, Node.getNumber next)) :: right_messages b E (next :: nodes)).
    split.
    + rewrite (between_split _ (Node.getNumber next)), Hp; [done|]. specialize (Hb next ltac:(right; left)). lia.
    + intros m [->|Hin]%elem_of_cons; cbn.
      * specialize (Hb next ltac:(right; left)). split_and!; [left|done|done|lia|lia].
      * destruct (Hm m Hin) as (? & ?). split; [by right|done].
Qed.

Lemma left_messages_parts a D node nodes :
  descending_nodes (node :: nodes) -> (forall n, n ∈ node :: nodes -> a < Node.getNumber n) -> 0 <= a ->
  between (a + 1) (Node.getNumber node + 1) D ≡ₚ (left_messages a (node :: nodes) ≫= fun m => left_part m D) /\
  (forall m, m ∈ left_messages a (node :: nodes) ->
     m.1.1 ∈ node :: nodes /\ m.1.2 = kDirectionLeft /\ m.2.2 = Node.getNumber m.1.1 /\
     a <= m.2.1 < Node.getNumber m.1.1).
Proof.
  intros Hd Ha H0. revert node Hd Ha. induction nodes as [|next nodes IH]; intros node Hd Ha.
  - cbn. rewrite Z.max_r by done. split.
    + unfold left_part. cbn. by rewrite app_nil_r.
    + intros m ->%list_elem_of_singleton. cbn. split_and!; [left|done|done|lia|apply Ha; left].
  - assert (Hlt : Node.getNumber next < Node.getNumber node).
    { apply StronglySorted_inv in Hd as [_ Hf]. apply Forall_cons in Hf as [? _]. lia. }
    destruct (IH next) as [Hp Hm].
    { by apply StronglySorted_inv in Hd as [? _]. }
    { intros n Hn. apply Ha. by right. }
    change (left_messages a (node :: next :: nodes)) with
      ((node, kDirectionLeft, (Node.getNumber next, Node.getNumber node)) :: left_messages a (next :: nodes)).
    specialize (Ha next ltac:(right; left)). split.
    + rewrite (between_split _ (Node.getNumber next + 1)), Hp by lia. apply Permutation_app_comm.
    + intros m [->|Hin]%elem_of_cons; cbn.
      * split_and!; [left|done|done|lia|lia].
      * destruct (Hm m Hin) as (? & ?). split; [by right|done].
Qed.

(** [std::sort] by descending numbers. *)
Lemma sort_insert_descending x nodes :
  descending_nodes nodes -> (forall n, n ∈ nodes -> Node.getNumber n <> Node.getNumber x) ->
  descending_nodes (sort_insert by_number_descending x nodes).
Proof.
  unfold by_number_descending. induction nodes as [|y nodes IH]; intros Hd Hx; cbn; [by repeat constructor|].
  destruct (Z.ltb_spec (Node.getNumber y) (Node.getNumber x)) as [Hlt|Hge].
  - constructor; [done|]. apply StronglySorted_inv in Hd as [_ Hf]. constructor; [lia|].
    eapply Forall_impl; [done|]. cbn. lia.
  - specialize (Hx y ltac:(left)) as Hne. apply StronglySorted_inv in Hd as [Hd Hf]. constructor.
    + apply IH; [done|]. intros n Hn. apply Hx. by right.
    + unfold numbers. rewrite sort_insert_Permutation. constructor; [cbn; lia|done].
Qed.

Lemma std_sort_descending nodes : NoDup (numbers nodes) -> descending_nodes (std_sort by_number_descending nodes).
Proof.
  induction nodes as [|x nodes IH]; intros Hd; [constructor|]. apply NoDup_cons in Hd as [Hx Hd].
  change (descending_nodes (sort_insert by_number_descending x (std_sort by_number_descending nodes))).
  apply sort_insert_descending; [by apply IH|]. intros n Hn He. apply Hx. rewrite <- He.
  rewrite std_sort_Permutation in Hn. unfold numbers. by apply list_elem_of_fmap_2.
Qed.

(** ** A level *)
Section Level.
Variables (level_end : Z) (D : list Z) (table : Z -> list NodeInfo).

(** Who receives the query, starting with the DSN [n] and the given direction and interval. *)
Fixpoint reached (fuel : nat) (n : Z) (direction : ForwardingDirection) (interval : Z * Z) : list Z :=
  match fuel with
  | O => []
  | S fuel' =>
      n :: (forwarding_messages n level_end D (table n) direction interval ≫= fun m =>
              reached fuel' (Node.getNumber m.1.1) m.1.2 m.2)
  end.

Hypothesis D_nodup : NoDup D.
(** Tables are in order, and name a DSN at or before every other one. *)
Hypothesis table_ascending : forall n, n ∈ D -> ascending_nodes (table n).
Hypothesis table_right : forall n d, n ∈ D -> d ∈ D -> n < d ->
  exists m, m ∈ table n /\ Node.getNumber m ∈ D /\ n < Node.getNumber m <= d.
Hypothesis table_left : forall n d, n ∈ D -> d ∈ D -> d < n ->
  exists m, m ∈ table n /\ Node.getNumber m ∈ D /\ d <= Node.getNumber m < n.

Lemma filter_ascending (p : NodeInfo -> bool) nodes : ascending_nodes nodes -> ascending_nodes (List.filter p nodes).
Proof.
  induction nodes as [|n nodes IH]; intros Ha; cbn; [done|]. apply StronglySorted_inv in Ha as [Ha Hf].
  destruct (p n); [|by apply IH]. constructor; [by apply IH|]. rewrite Forall_forall in Hf |- *.
  intros x (m & -> & Hm)%list_elem_of_fmap. apply Hf, list_elem_of_fmap_2.
  apply list_elem_of_In, List.filter_In in Hm as [Hm _]. by apply list_elem_of_In.
Qed.

(** The DSNs of the table that lie in the interval, on one side. *)
Definition in_interval (a b : Z) (node : NodeInfo) : bool :=
  bool_decide (Node.getNumber node ∈ D) && ((a <? Node.getNumber node) && (Node.getNumber node <? b)).
Definition right_dsns (n a b : Z) : list NodeInfo :=
  List.filter (fun node => n <? Node.getNumber node) (List.filter (in_interval a b) (table n)).
Definition left_dsns (n a b : Z) : list NodeInfo :=
  List.filter (fun node => Node.getNumber node <? n) (List.filter (in_interval a b) (table n)).

Lemma elem_of_right_dsns n a b m :
  m ∈ right_dsns n a b <-> m ∈ table n /\ Node.getNumber m ∈ D /\ a < Node.getNumber m < b /\ n < Node.getNumber m.
Proof.
  unfold right_dsns, in_interval. rewrite list_elem_of_In, !List.filter_In, <- list_elem_of_In.
  rewrite !andb_true_iff, bool_decide_eq_true. split; [intros ((? & ? & ?) & ?)|intros (? & ? & ? & ?)]; split_and!; try done; lia.
Qed.
Lemma elem_of_left_dsns n a b m :
  m ∈ left_dsns n a b <-> m ∈ table n /\ Node.getNumber m ∈ D /\ a < Node.getNumber m < b /\ Node.getNumber m < n.
Proof.
  unfold left_dsns, in_interval. rewrite list_elem_of_In, !List.filter_In, <- list_elem_of_In.
  rewrite !andb_true_iff, bool_decide_eq_true. split; [intros ((? & ? & ?) & ?)|intros (? & ? & ? & ?)]; split_and!; try done; lia.
Qed.

(** [forwarding_messages] in each direction. *)
Lemma forwarding_right n a b :
  forwarding_messages n level_end D (table n) kDirectionRight (a, b) =
  right_messages b level_end (right_dsns n a b).
Proof. apply app_nil_r. Qed.
Lemma forwarding_left n a b :
  forwarding_messages n level_end D (table n) kDirectionLeft (a, b) =
  left_messages a (std_sort by_number_descending (left_dsns n a b)).
Proof. done. Qed.
Lemma forwarding_none n a b :
  forwarding_messages n level_end D (table n) kDirectionNone (a, b) =
  right_messages b level_end (right_dsns n a b) ++
  left_messages a (std_sort by_number_descending (left_dsns n a b)).
Proof. done. Qed.

Lemma bind_Permutation {A B} (l : list A) (f g : A -> list B) :
  (forall x, x ∈ l -> f x ≡ₚ g x) -> l ≫= f ≡ₚ l ≫= g.
Proof.
  induction l as [|x l IH]; intros Hfg; cbn; [done|]. rewrite Hfg by left. rewrite IH; [done|].
  intros y Hy. apply Hfg. by right.
Qed.

(** What is handed on to the right reaches every DSN to the right in the interval, once. *)
Lemma right_reached fuel n a b :
  (forall n' b', n' ∈ D -> n' < b' <= level_end -> b' - n' <= Z.of_nat fuel ->
     reached fuel n' kDirectionRight (n', b') ≡ₚ between n' b' D) ->
  n ∈ D -> a <= n -> n < b <= level_end -> b - n <= Z.of_nat (S fuel) ->
  (right_messages b level_end (right_dsns n a b) ≫= fun m => reached fuel (Node.getNumber m.1.1) m.1.2 m.2)
  ≡ₚ between (n + 1) b D.
Proof.
  intros IH Hn Ha Hb Hf.
  assert (Hasc : ascending_nodes (right_dsns n a b)) by by apply filter_ascending, filter_ascending, table_ascending.
  assert (Hnear : forall d, d ∈ D -> n < d < b -> exists m, m ∈ right_dsns n a b /\ Node.getNumber m <= d).
  { intros d Hd Hnd. destruct (table_right n d) as (m & ? & ? & ?); [done..|lia|]. exists m.
    rewrite elem_of_right_dsns. split_and!; try done; lia. }
  assert (Hall : forall m, m ∈ right_dsns n a b -> n < Node.getNumber m < b /\ Node.getNumber m ∈ D).
  { intros m (_ & ? & ? & ?)%elem_of_right_dsns. split; [lia|done]. }
  destruct (right_dsns n a b) as [|first rest] eqn:E.
  - cbn. rewrite between_empty; [done|]. intros d Hd Hnd. destruct (Hnear d Hd) as (m & Hm & _); [lia|].
    by apply not_elem_of_nil in Hm.
  - destruct (right_messages_parts b level_end D first rest) as [Hp Hm]; [done|intros m Hm'; by apply Hall|lia|].
    rewrite (between_split (n + 1) (Node.getNumber first) b);
      [|destruct (Hall first ltac:(left)) as [? _]; lia].
    rewrite (between_empty (n + 1) (Node.getNumber first)).
    + rewrite Hp. cbn [app]. apply bind_Permutation. intros [[m dir] [lo hi]] Hin.
      destruct (Hm _ Hin) as (Hmem & Hdir & Hlo & Hhi). cbn in *. subst.
      destruct (Hall m Hmem) as [Hmn HmD]. unfold right_part. cbn. apply IH; [done|lia|lia].
    + intros d Hd Hnd. destruct (Hnear d Hd) as (m & Hm' & Hle).
      { destruct (Hall first ltac:(left)) as [? _]. lia. }
      apply elem_of_cons in Hm' as [->|Hm']; [lia|]. apply StronglySorted_inv in Hasc as [_ Hs].
      rewrite Forall_forall in Hs. specialize (Hs (Node.getNumber m) (list_elem_of_fmap_2 _ _ _ Hm')). lia.
Qed.

Lemma left_reached fuel n a b :
  (forall n' a', n' ∈ D -> 0 <= a' < n' -> n' - a' <= Z.of_nat fuel ->
     reached fuel n' kDirectionLeft (a', n') ≡ₚ between (a' + 1) (n' + 1) D) ->
  n ∈ D -> 0 <= a < n -> n <= b -> n - a <= Z.of_nat (S fuel) ->
  (left_messages a (std_sort by_number_descending (left_dsns n a b)) ≫= fun m =>
     reached fuel (Node.getNumber m.1.1) m.1.2 m.2)
  ≡ₚ between (a + 1) n D.
Proof.
  intros IH Hn Ha Hb Hf.
  assert (Hdesc : descending_nodes (std_sort by_number_descending (left_dsns n a b))).
  { apply std_sort_descending, ascending_NoDup. by apply filter_ascending, filter_ascending, table_ascending. }
  assert (Hnear : forall d, d ∈ D -> a < d < n -> exists m, m ∈ left_dsns n a b /\ d <= Node.getNumber m).
  { intros d Hd Hnd. destruct (table_left n d) as (m & ? & ? & ?); [done..|lia|]. exists m.
    rewrite elem_of_left_dsns. split_and!; try done; lia. }
  assert (Hall : forall m, m ∈ left_dsns n a b -> a < Node.getNumber m < n /\ Node.getNumber m ∈ D).
  { intros m (_ & ? & ? & ?)%elem_of_left_dsns. split; [lia|done]. }
  setoid_rewrite <- (std_sort_Permutation by_number_descending (left_dsns n a b)) in Hnear.
  setoid_rewrite <- (std_sort_Permutation by_number_descending (left_dsns n a b)) in Hall.
  destruct (std_sort by_number_descending (left_dsns n a b)) as [|first rest] eqn:E.
  - cbn. rewrite between_empty; [done|]. intros d Hd Hnd. destruct (Hnear d Hd) as (m & Hm & _); [lia|].
    by apply not_elem_of_nil in Hm.
  - destruct (left_messages_parts a D first rest) as [Hp Hm]; [done|intros m Hm'; by apply Hall|lia|].
    rewrite (between_split (a + 1) (Node.getNumber first + 1) n);
      [|destruct (Hall first ltac:(left)) as [? _]; lia].
    rewrite (between_empty (Node.getNumber first + 1) n).
    + rewrite Hp, app_nil_r. apply bind_Permutation. intros [[m dir] [lo hi]] Hin.
      destruct (Hm _ Hin) as (Hmem & Hdir & Hhi & Hlo). cbn in *. subst.
      destruct (Hall m Hmem) as [Hmn HmD]. unfold left_part. cbn. apply IH; [done|lia|lia].
    + intros d Hd Hnd. destruct (Hnear d Hd) as (m & Hm' & Hle).
      { destruct (Hall first ltac:(left)) as [? _]. lia. }
      apply elem_of_cons in Hm' as [->|Hm']; [lia|]. apply StronglySorted_inv in Hdesc as [_ Hs].
      rewrite Forall_forall in Hs. specialize (Hs (Node.getNumber m) (list_elem_of_fmap_2 _ _ _ Hm')). lia.
Qed.

Lemma reached_right fuel n b :
  n ∈ D -> n < b <= level_end -> b - n <= Z.of_nat fuel ->
  reached fuel n kDirectionRight (n, b) ≡ₚ between n b D.
Proof.
  revert n b. induction fuel as [|fuel IH]; intros n b Hn Hb Hf; [lia|].
  cbn [reached]. rewrite forwarding_right, right_reached by (done || lia).
  rewrite (between_split n (n + 1) b), between_single by (done || lia). done.
Qed.

Lemma reached_left fuel n a :
  n ∈ D -> 0 <= a < n -> n - a <= Z.of_nat fuel ->
  reached fuel n kDirectionLeft (a, n) ≡ₚ between (a + 1) (n + 1) D.
Proof.
  revert n a. induction fuel as [|fuel IH]; intros n a Hn Ha Hf; [lia|].
  cbn [reached]. rewrite forwarding_left, left_reached by (done || lia).
  rewrite (between_split (a + 1) n (n + 1)), (between_single n D) by (done || lia).
  by rewrite Permutation_app_comm.
Qed.

Lemma reached_all n :
  (forall d, d ∈ D -> 0 < d < level_end) -> n ∈ D ->
  reached (Z.to_nat level_end + 1) n kDirectionNone (0, level_end) ≡ₚ D.
Proof.
  intros HD Hn. pose proof (HD n Hn). rewrite Nat.add_1_r. cbn [reached].
  rewrite forwarding_none, bind_app, right_reached, left_reached by first [done|lia|intros; apply reached_right; done || lia|intros; apply reached_left; done || lia].
  transitivity (between 1 level_end D).
  - rewrite (between_split 1 n level_end), (between_split n (n + 1) level_end), (between_single n D) by (done || lia).
    rewrite (Permutation_app_comm (between (n + 1) level_end D)). cbn [app]. apply Permutation_middle.
  - rewrite between_all; [done|]. intros d Hd. specialize (HD d Hd). lia.
Qed.

End Level.

(** ** The DSNs of a level *)

(** Neighbouring DSNs are in each other's routing tables. *)
Lemma dsn_gap_is_distance l f i x y :
  valid_fanout f -> level_fits l f -> 1 < l ->
  dsns l f !! i = Some x -> dsns l f !! S i = Some y -> rt_distance f (y - x).
Proof.
  intros Hf Hfit Hl Hx Hy. pose proof (valid_fanout_bounds f Hf).
  destruct (dsn_arith l f) as (q & Hq & Hq1 & Hc & Hpow); [done..|].
  apply dsns_lookup in Hx, Hy. rewrite Hc in *.
  destruct Hx as [[? ->]|(? & _ & ->)], Hy as [[? ->]|(? & Ho & ->)]; try lia.
  - destruct (decide (f = 2)) as [->|Hne].
    + exists 2, 1. split_and!; lia.
    + exists 1, 2. split_and!; [lia..|]. rewrite Z.pow_1_r. nia.
  - rewrite Ho in Hq. assert (f <> 2) by by intros ->. exists 0, (f - 1). split_and!; [lia..|]. rewrite Z.pow_0_r. nia.
Qed.

(** A node's routing table when every position of its level is occupied: the nodes at the
    positions of the left and the right table, from left to right. *)
Definition complete_table `{Platform} (l f n : Z) (nodes : list NodeInfo) : Prop :=
  ascending_nodes nodes /\
  forall k, k ∈ numbers nodes <-> returned_in (l, k) (calcLeftRT l n f) \/ returned_in (l, k) (calcRightRT l n f).

Section Complete.
Context `{Platform} (l f : Z) (table : Z -> list NodeInfo).
Context (Hf : valid_fanout f) (Hfit : level_fits l f) (Hl : 1 < l).
Context (Ht : forall m, m ∈ dsns l f -> complete_table l f m (table m)).

Lemma dsns_in_level d : d ∈ dsns l f -> 0 < d < f ^ l.
Proof. intros [i Hi]%list_elem_of_lookup. by eapply dsns_bounds. Qed.

Lemma complete_table_has m k :
  m ∈ dsns l f -> 0 <= k < f ^ l -> rt_distance f (Z.abs (k - m)) -> k ∈ numbers (table m).
Proof.
  intros Hm Hk Hr. apply (Ht m Hm). pose proof (dsns_in_level m Hm). destruct (Z.le_gt_cases m k).
  - right. destruct (calcRightRT_elem l f Hf Hfit m) as (rrt & -> & Hrr); [lia|]. apply Hrr. exists (k - m).
    rewrite Z.abs_eq in Hr by lia. split_and!; [done|lia|f_equal; lia].
  - left. destruct (calcLeftRT_elem l f Hf Hfit m) as (lrt & -> & Hlr); [lia|]. apply Hlr. exists (m - k).
    replace (Z.abs (k - m)) with (m - k) in Hr by lia. split_and!; [done|lia|f_equal; lia].
Qed.

(** The DSN next to [m] is a node of its table. *)
Lemma complete_table_next m i j y :
  dsns l f !! i = Some m -> dsns l f !! j = Some y -> (j = S i \/ i = S j) ->
  exists node, node ∈ table m /\ Node.getNumber node = y.
Proof.
  intros Hi Hj Hij. assert (Hy : y ∈ dsns l f) by (apply list_elem_of_lookup; by exists j).
  assert (Hm : m ∈ dsns l f) by (apply list_elem_of_lookup; by exists i). pose proof (dsns_in_level y Hy).
  pose proof (dsns_increasing l f Hf Hl) as Hinc.
  assert (Hr : rt_distance f (Z.abs (y - m))).
  { destruct Hij as [->| ->].
    - pose proof (Hinc i (S i) m y ltac:(lia) Hi Hj). rewrite Z.abs_eq by lia. by eapply dsn_gap_is_distance.
    - pose proof (Hinc j (S j) y m ltac:(lia) Hj Hi). replace (Z.abs (y - m)) with (m - y) by lia.
      by eapply dsn_gap_is_distance. }
  apply complete_table_has in Hr; [|done|lia]. apply list_elem_of_fmap in Hr as (node & -> & Hn). by exists node.
Qed.

Lemma dsns_order i j x y : dsns l f !! i = Some x -> dsns l f !! j = Some y -> (x < y <-> (i < j)%nat).
Proof.
  intros Hi Hj. pose proof (dsns_increasing l f Hf Hl) as Hinc.
  destruct (Nat.lt_trichotomy i j) as [Hlt|[->|Hlt]].
  - specialize (Hinc i j x y Hlt Hi Hj). lia.
  - simplify_eq. lia.
  - specialize (Hinc j i y x Hlt Hj Hi). lia.
Qed.

Lemma dsns_NoDup : NoDup (dsns l f).
Proof.
  apply NoDup_alt. intros i j x Hi Hj. pose proof (dsns_order i j x x Hi Hj). pose proof (dsns_order j i x x Hj Hi). lia.
Qed.

Lemma complete_right m d : m ∈ dsns l f -> d ∈ dsns l f -> m < d ->
  exists node, node ∈ table m /\ Node.getNumber node ∈ dsns l f /\ m < Node.getNumber node <= d.
Proof.
  intros [i Hi]%list_elem_of_lookup [j Hj]%list_elem_of_lookup Hlt. apply (dsns_order i j) in Hlt as Hij; [|done..].
  destruct (lookup_lt_is_Some_2 (dsns l f) (S i)) as [y Hy]; [apply lookup_lt_Some in Hj; lia|].
  destruct (complete_table_next m i (S i) y) as (node & Hn & Hnum); [done..|by left|]. exists node. rewrite Hnum.
  pose proof (dsns_order i (S i) m y Hi Hy). pose proof (dsns_order j (S i) d y Hj Hy).
  split_and!; [done|apply list_elem_of_lookup; by exists (S i)|lia|lia].
Qed.

Lemma complete_left m d : m ∈ dsns l f -> d ∈ dsns l f -> d < m ->
  exists node, node ∈ table m /\ Node.getNumber node ∈ dsns l f /\ d <= Node.getNumber node < m.
Proof.
  intros [i Hi]%list_elem_of_lookup [j Hj]%list_elem_of_lookup Hlt. apply (dsns_order j i) in Hlt as Hij; [|done..].
  destruct i as [|i]; [lia|].
  destruct (lookup_lt_is_Some_2 (dsns l f) i) as [y Hy]; [apply lookup_lt_Some in Hi; lia|].
  destruct (complete_table_next m (S i) i y) as (node & Hn & Hnum); [done..|by right|]. exists node. rewrite Hnum.
  pose proof (dsns_order i (S i) y m Hy Hi). pose proof (dsns_order i j y d Hy Hj).
  split_and!; [done|apply list_elem_of_lookup; by exists i|lia|lia].
Qed.

End Complete.

(** C2: a find query reaches every DSN of a level exactly once. On an even level whose nodes
    all know their routing-table neighbours, the DSN that gets the initial request (no
    direction, the interval of all numbers) and the DSNs that get the query through the
    forwarding of the others are all DSNs of the level, each once: nothing is missed, nothing
    is answered twice, and the forwarding ends. *)
Theorem query_reaches_every_dsn_once `{Platform} l f D n table :
  valid_fanout f -> level_fits l f -> 1 < l -> l mod 2 = 0 ->
  getDSNSet l f = Ok D -> n ∈ D -> (forall m, m ∈ D -> complete_table l f m (table m)) ->
  reached (f ^ l) D table (Z.to_nat (f ^ l) + 1) n kDirectionNone (0, f ^ l) ≡ₚ D.
Proof.
  intros Hf Hfit Hl Heven HD Hn Ht. rewrite getDSNSet_form in HD by done. injection HD as HD.
  change (dsns l f = D) in HD. subst D. apply reached_all; [|by intros m Hm; apply Ht| | | |done].
  - by apply dsns_NoDup.
  - intros m d. by apply complete_right.
  - intros m d. by apply complete_left.
  - intros d. by apply dsns_in_level.
Qed.

(** *** A level of sixteen nodes *)
Section Example.
#[local] Existing Instance x86_64.

Definition sixteen_node (n : Z) : NodeInfo :=
  Node.setLogicalNodeInfo
    {| level_ := 4; number_ := n; fanout_ := 2; uuid_ := UUID_generated; initialized_ := true |} Node.default.
Definition sixteen_table (n : Z) : list NodeInfo :=
  match calcLeftRT 4 n 2, calcRightRT 4 n 2 with
  | Ok left_table, Ok right_table => sixteen_node <$> (reverse left_table.*2 ++ right_table.*2)
  | _, _ => []
  end.

(** Evaluates the tables of a node. *)
Ltac eval_table n :=
  let t := eval vm_compute in (numbers (sixteen_table n)) in change (numbers (sixteen_table n)) with t;
  let t := eval vm_compute in (calcLeftRT 4 n 2) in change (calcLeftRT 4 n 2) with t;
  let t := eval vm_compute in (calcRightRT 4 n 2) in change (calcRightRT 4 n 2) with t.

Lemma sixteen_complete n : n ∈ [2; 6; 10; 14] -> complete_table 4 2 n (sixteen_table n).
Proof.
  rewrite list_elem_of_In. cbn. unfold complete_table, ascending_nodes.
  intros [<-|[<-|[<-|[<-|[]]]]];
    [eval_table 2|eval_table 6|eval_table 10|eval_table 14]; (split; [repeat constructor|]);
    intros k; unfold returned_in; rewrite !list_elem_of_In; cbn [In]; intuition congruence.
Qed.

Lemma query_reaches_every_dsn_once_witness :
  reached (2 ^ 4) [2; 6; 10; 14] sixteen_table (Z.to_nat (2 ^ 4) + 1) 6 kDirectionNone (0, 2 ^ 4) ≡ₚ [2; 6; 10; 14].
Proof.
  apply (query_reaches_every_dsn_once 4 2 [2; 6; 10; 14] 6 sixteen_table).
  - by unfold valid_fanout.
  - by unfold level_fits.
  - done.
  - done.
  - vm_compute. reflexivity.
  - apply list_elem_of_In. cbn. intuition lia.
  - apply sixteen_complete.
Defined.
End Example.
