(* ===== verification/SearchOutcomes.v ===== *)
(** * What a search finds

    Properties of the entity search: a data-storing node judges a node that has answered as the
    node would judge itself, every inquiry it sends is a valid message, and how the search
    departs from what it means to do: overdue aggregations that are never concluded, padded
    results, attributes that cannot be removed, updates that stop early. *)

From S2P Require Import Prelude RoutingCalculations NodeInfo RoutingInformation ProcedureInfo Message Fsm MinhtonNode Access SearchExact Algorithms Containers NodeData BooleanExpression FindQuery DsnHandler DsnProperties EntitySearch.
Import Data Dsn.

(** ** Storing an answer *)
Section Answers.
Context `{Platform} `{Inet} `{Unordered}.

(** The entry of a node after attributes have been stored in it for the first time. *)
Definition stored (kvs : list (Key * (Value * ValueType))) (t : Z) (x : DistributedData) : DistributedData :=
  foldl (fun x e => set_update_timestamps (<[e.1 := [t]]> (update_timestamps_ x))
                      (set_d_data {| data_ := <[e.1 := (e.2.1, t, e.2.2)]> (data_ (d_data x)) |} x)) x kvs.

Lemma store_new_attribute t key value type x :
  data_ (d_data x) !! key = None -> update_timestamps_ x !! key = None ->
  store_attribute t (key, (value, type)) x = (Ok tt, stored [(key, (value, type))] t x).
Proof.
  intros Hd Hq. unfold store_attribute, Distributed.update, Distributed.insert, Distributed.base, Data.update, Data.insert.
  mred. rewrite Hd. cbn [negb]. destruct x as [[d] p ks q]. cbn in *. unfold Data.hasKey. cbn [data_]. rewrite Hd. cbn.
  rewrite Hq. done.
Qed.

Lemma store_new_attributes t kvs x :
  NoDup kvs.*1 -> (forall key, key ∈ kvs.*1 -> data_ (d_data x) !! key = None /\ update_timestamps_ x !! key = None) ->
  for_each kvs (store_attribute t) x = (Ok tt, stored kvs t x).
Proof.
  revert x. induction kvs as [|[key [value type]] kvs IH]; intros x Hd Hn; [done|].
  cbn [for_each]. apply NoDup_cons in Hd as [Hk Hd]. destruct (Hn key) as [H1' H2']; [left|].
  change ((store_attribute t (key, (value, type)) ≫= fun _ => for_each kvs (store_attribute t)) x
    = (Ok tt, stored kvs t (stored [(key, (value, type))] t x))).
  mred. rewrite store_new_attribute by done. apply IH; [done|]. intros key' Hk'. cbn.
  assert (key' <> key) by by intros ->. rewrite !lookup_insert_ne by done. apply Hn. by right.
Qed.

Lemma stored_lookup kvs t x key :
  NoDup kvs.*1 ->
  data_ (d_data (stored kvs t x)) !! key =
  match (list_to_map kvs : gmap Key (Value * ValueType)) !! key with
  | Some vt => Some (vt.1, t, vt.2)
  | None => data_ (d_data x) !! key
  end.
Proof.
  revert x. induction kvs as [|[k vt] kvs IH]; intros x Hd; cbn; [by rewrite lookup_empty|].
  apply NoDup_cons in Hd as [Hk Hd]. unfold stored in IH. rewrite IH by done. cbn.
  destruct (decide (key = k)) as [->|Hne].
  - rewrite lookup_insert_eq. rewrite (not_elem_of_list_to_map_1 (M := gmap Key)) by done. by rewrite lookup_insert_eq.
  - rewrite lookup_insert_ne by done. by rewrite lookup_insert_ne.
Qed.

Lemma stored_rest kvs t x :
  subscription_ordered_keys_ (stored kvs t x) = subscription_ordered_keys_ x /\
  d_p_node_info_ (stored kvs t x) = d_p_node_info_ x.
Proof.
  revert x. induction kvs as [|[k vt] kvs IH]; intros x; [done|]. unfold stored in *. cbn [foldl].
  match goal with |- context [foldl _ ?y kvs] => destruct (IH y) as [-> ->] end. done.
Qed.

(** What a node answers when it is asked for everything. *)
Definition full_answer (d : NodeData) : gmap Key (Value * ValueType) := values_and_types (getAllCurrentKeys d) d.

Lemma values_and_types_lookup ks d key :
  values_and_types ks d !! key =
  if bool_decide (key ∈ ks) then (fun e : ValueTimestampAndType => (e.1.1, e.2)) <$> data_ d !! key else None.
Proof.
  unfold values_and_types.
  enough (Hg : forall m : gmap Key (Value * ValueType), foldl _ m ks !! key =
    match m !! key with
    | Some vt => Some vt
    | None => if bool_decide (key ∈ ks) then (fun e : ValueTimestampAndType => (e.1.1, e.2)) <$> data_ d !! key else None
    end) by by rewrite Hg, lookup_empty.
  induction ks as [|k ks IH]; intros m; cbn; [by destruct (m !! key)|].
  rewrite IH. destruct (decide (key = k)) as [->|Hne].
  - rewrite (bool_decide_true (k ∈ k :: ks)) by left.
    destruct (data_ d !! k) as [entry|]; [|destruct (m !! k); [done|by case_bool_decide]].
    destruct (m !! k) eqn:Em; [by rewrite Em|]. by rewrite lookup_insert_eq.
  - replace (bool_decide (key ∈ k :: ks)) with (bool_decide (key ∈ ks))
      by (apply bool_decide_ext; rewrite elem_of_cons; naive_solver).
    destruct (data_ d !! k), (m !! k); try done. by rewrite lookup_insert_ne.
Qed.

Lemma full_answer_lookup d key :
  full_answer d !! key = (fun e : ValueTimestampAndType => (e.1.1, e.2)) <$> data_ d !! key.
Proof.
  unfold full_answer. rewrite values_and_types_lookup. case_bool_decide as Hk; [done|].
  rewrite elem_of_getAllCurrentKeys in Hk. apply not_true_iff_false, lookup_hasKey_false in Hk. by rewrite Hk.
Qed.

(** Atoms only see values. *)
Lemma existing_same_value a d d' :
  (fun e : ValueTimestampAndType => e.1.1) <$> data_ (Evaluated.data d') !! key_of a =
  (fun e : ValueTimestampAndType => e.1.1) <$> data_ (Evaluated.data d) !! key_of a ->
  evaluateExisting a d' = evaluateExisting a d.
Proof.
  intros He. unfold evaluateExisting, Evaluated.hasKey, Evaluated.getValue, Data.hasKey, Data.getValue.
  destruct (data_ (Evaluated.data d') !! key_of a), (data_ (Evaluated.data d) !! key_of a); cbn in *; try done.
  by injection He as ->.
Qed.


(** *** The stored answer and the node itself *)
Section Judged.
Variables (l : LocalData) (address : PhysicalNodeInfo) (t : Z).

Let x : DistributedData := stored (walk (map_to_list (full_answer (l_data l)))) t (Distributed.of_address address).

Lemma walk_keys_NoDup : NoDup (walk (map_to_list (full_answer (l_data l)))).*1.
Proof. rewrite walk_Permutation. apply NoDup_fst_map_to_list. Qed.

Lemma judged_lookup key :
  data_ (d_data x) !! key = (fun e : ValueTimestampAndType => (e.1.1, t, e.2)) <$> data_ (l_data l) !! key.
Proof.
  unfold x. rewrite stored_lookup by apply walk_keys_NoDup. cbn. rewrite lookup_empty.
  erewrite (list_to_map_proper _ (map_to_list (full_answer (l_data l)))) by (apply walk_keys_NoDup || apply walk_Permutation).
  rewrite list_to_map_to_list, full_answer_lookup. by destruct (data_ (l_data l) !! key).
Qed.

(** A fresh value need not be asked for. *)
Lemma judged_needs key i :
  validity_threshold_timestamp i <= t ->
  needs key (Remote x) i = negb (hasKey key (l_data l)) && inquire_unknown_attributes i.
Proof.
  intros Hi. unfold needs, Evaluated.hasKey, Data.hasKey. cbn [Evaluated.data]. rewrite judged_lookup.
  destruct (data_ (l_data l) !! key) as [entry|] eqn:E; cbn; [|done].
  unfold is_up_to_date, Evaluated.isValueUpToDate, Distributed.isValueUpToDate, Data.hasKey, getValueTimestampAndType.
  mred. rewrite judged_lookup, E. cbn. destruct (Distributed.isKeySubscribed key x); cbn; [apply andb_false_r|].
  destruct (bool_decide _); cbn; [apply andb_false_r|]. rewrite (proj2 (Z.leb_le _ _)) by done. apply andb_false_r.
Qed.

Lemma judged_evaluate e i :
  all_information_present i = true -> validity_threshold_timestamp i <= t ->
  forall i', evaluate e (Remote x) i = evaluate e (Own l) i'.
Proof.
  intros Ha Hi i'. induction e as [a|e1 IH1 e2 IH2|e1 IH1 e2 IH2|e1 IH|]; cbn [evaluate];
    [|by rewrite IH1, IH2|by rewrite IH1, IH2|by rewrite IH|done].
  rewrite evaluateAtomic_remote, judged_needs, Ha by done. unfold evaluateAtomic. cbn [Evaluated.isLocal].
  assert (Hs : evaluateExisting a (Remote x) = evaluateExisting a (Own l)).
  { apply existing_same_value. cbn [Evaluated.data]. rewrite judged_lookup. by destruct (data_ (l_data l) !! key_of a). }
  destruct (hasKey (key_of a) (l_data l)) eqn:Ek; cbn; [done|]. destruct (inquire_unknown_attributes i); [|done].
  unfold evaluateExisting, Evaluated.hasKey. cbn [Evaluated.data]. by rewrite Ek.
Qed.

End Judged.

(** C18: a data-storing node judges a node that has answered as the node judges itself. When the
    attributes of a covered node are not known yet and it answers an inquiry for everything,
    storing the answer succeeds, and from then on, as long as the answer is not older than the
    query allows, every query that is evaluated with all information present (as for the final
    answer) has on what is stored the value, or the exception, it has on the node's own
    attributes. While information may still be missing the two differ for a key the node does not
    have: it is undecided for the data-storing node and settled for the node itself. *)
Theorem answered_node_judged_as_by_itself q l node t now now' h :
  cover_find (l_node_info_ node) (cover_data_ h) = Some (Distributed.of_address (p_node_info_ node)) ->
  u64 (now - Find.validity_threshold_ q) <= t ->
  exists h' x,
    updateInquiredOrSubscribedAttributeValues node (full_answer (l_data l)) t h = (Ok tt, h') /\
    cover_find (l_node_info_ node) (cover_data_ h') = Some x /\
    Find.evaluate (Remote x) true now q = Find.evaluate (Own l) true now' q.
Proof.
  intros Hf Ht. unfold updateInquiredOrSubscribedAttributeValues. rewrite bind_get. rewrite Hf.
  assert (Hs : store_attributes node (full_answer (l_data l)) t (Distributed.of_address (p_node_info_ node)) =
    (Ok tt, stored (walk (map_to_list (full_answer (l_data l)))) t (Distributed.of_address (p_node_info_ node)))).
  { unfold store_attributes. mred. cbn [d_p_node_info_ Distributed.of_address].
    assert (Hp : Physical.eqb (p_node_info_ node) (p_node_info_ node) = true).
    { unfold Physical.eqb. rewrite Z.eqb_refl. by apply bool_decide_eq_true. }
    rewrite Hp. cbn [negb]. apply store_new_attributes; [apply walk_keys_NoDup|]. intros key _. split; apply lookup_empty. }
  unfold zoom, on_entry. rewrite Hs. eexists _, _. split; [done|]. split.
  - destruct h. cbn. unfold cover_find. apply assoc_find_assign. apply Logical.eqb_refl.
  - unfold Find.evaluate, Find.expr. destruct (Find.expr_ q) as [e|]; [|done]. mred.
    by rewrite (judged_evaluate l _ t e (Find.createEvaluationInformation true now q) eq_refl Ht
      (Find.createEvaluationInformation true now' q)).
Qed.

End Answers.

(** ** Requests and results *)
Section Outcomes.
Context `{Platform} `{Inet} `{UuidText} `{Uuids} `{Unordered} `{Clock}.

(** No inquiry is refused by its own message. Whatever a data-storing node knows, every node
    on which a query is undecided is asked for at least one key or for everything, so that the
    payload check of the inquiry passes; without it the search would end in an exception with
    part of the inquiries sent. *)
Theorem inquiries_are_valid query now h nodes header n ks :
  getUndecidedNodesAndMissingKeys query false now h = Ok nodes -> (n, ks) ∈ nodes ->
  validateImpl (MessageAttributeInquiryRequest header
    (bool_decide (Find.selection_ query = Find.kSelectAll)) (sort_unique ks)) = true.
Proof.
  intros Hu Hin. destruct (undecided_of_nonempty _ _ _ _ _ _ _ Hu Hin) as (peer & data & _ & _ & Hk).
  cbn. destruct (Hk eq_refl) as [->|Hne]; [done|]. rewrite orb_true_iff. right.
  by rewrite bool_decide_false.
Qed.

(** The queries a node on which they are true is reported for. *)
Lemma elem_of_getTrueNodes query now h nodes n :
  getTrueNodes query now h = Ok nodes ->
  n ∈ nodes <-> exists peer data, (peer, data) ∈ cover_data_ h /\ n = node_of peer data /\
    Find.evaluate (Remote data) true now query = Ok kTrue.
Proof.
  intros Ht. rewrite (elem_of_true_of _ _ _ _ Ht). split; intros (p & d & Hin & ?); exists p, d; (split; [|done]);
    [by rewrite elem_of_walk in Hin|by rewrite elem_of_walk].
Qed.

(** A query for some nodes invents one. With the scope "some" the results of a DSN are cut
    or filled up to two entries: a DSN that found nothing reports the uninitialised node
    without attributes, and a DSN that found one node reports the uninitialised node beside it. *)
Theorem some_scope_invents_a_node n attributes :
  filterAggregationResultsAfterInquiries [] Find.kSome = [(Node.default, [])] /\
  (Node.eqb n Node.default = false ->
   filterAggregationResultsAfterInquiries [(n, attributes)] Find.kSome =
   [(n, std_unique same_key (std_sort by_key attributes)); (Node.default, [])]).
Proof.
  unfold filterAggregationResultsAfterInquiries, filterDuplicateAttributes, resize, kFindQuerySomeScopeThreshold.
  cbn [fmap list_fmap fst snd]. split.
  - rewrite (proj2 (walk_nil (A := NodeInfo * list (Key * Value)) [])) by done. reflexivity.
  - intros Hn. set (e := (n, std_unique same_key (std_sort by_key attributes))).
    assert (Hw : walk [e] = [e]).
    { pose proof (walk_Permutation _ [e]) as Hp. symmetry in Hp. by apply Permutation_singleton_l in Hp. }
    rewrite Hw. unfold e, assoc_of_range. cbn. by rewrite Hn.
Qed.

(** ** The attributes of the node *)

Lemma updateSubscribers_missing key s :
  hasKey key (l_data (local_data_ (search_ (logic_ s)))) = false ->
  updateSubscribers key s = (Throw (out_of_range "unordered_map::at"), s).
Proof.
  intros Hk%lookup_hasKey_false. unfold updateSubscribers, gets_search, gets_logic. mred. unfold getValue. by rewrite Hk.
Qed.

(** Removing attributes always fails. [localRemove] throws for every list of keys; when the
    list is not empty the first key is removed and then looked up for its subscribers, so that
    the remaining keys are not removed. *)
Theorem localRemove_always_throws keys s :
  match keys with
  | [] => localRemove keys s = (Throw (logic_error "not implemented yet"), s)
  | key :: _ => exists s', localRemove keys s = (Throw (out_of_range "unordered_map::at"), s') /\
      data_ (l_data (local_data_ (search_ (logic_ s')))) = delete key (data_ (l_data (local_data_ (search_ (logic_ s)))))
  end.
Proof.
  destruct keys as [|key keys]; [done|]. unfold localRemove. cbn [for_each].
  set (s1 := (local_data (Local.base (Data.remove key)) s).2).
  assert (E : local_data (Local.base (Data.remove key)) s = (Ok tt, s1)) by done.
  assert (Hd : data_ (l_data (local_data_ (search_ (logic_ s1)))) =
    delete key (data_ (l_data (local_data_ (search_ (logic_ s)))))) by by destruct s as [? ? ? ? ? ? [? ? ? ? ? ? ? []]].
  exists s1. split; [|done]. mred. rewrite E. cbn beta iota.
  rewrite updateSubscribers_missing; [done|]. apply lookup_hasKey_false. by rewrite Hd, lookup_delete_eq.
Qed.

(** An update with a value that has not changed drops the updates after it. *)
Theorem localUpdate_stops_at_unchanged key value type entries s old :
  data_ (l_data (local_data_ (search_ (logic_ s)))) !! key = Some old -> Value_eqb old.1.1 value = true ->
  localUpdate ((key, value, type) :: entries) s = (Ok tt, s).
Proof.
  intros Hk Hv. cbn [localUpdate]. unfold gets_search, gets_logic. mred. by rewrite Hk, Hv.
Qed.

(** A query whose text could not be parsed cannot be searched for: its expression is the null
    pointer, which [find] calls through before it does anything else. *)
Theorem find_unparsed_query recv query s :
  Find.expr_ query = None -> find recv query s = (Undefined, s).
Proof.
  intros Hn. unfold find, getSelfNodeInfo, Find.serializeBooleanExpression, Find.expr. mred.
  destruct query. cbn in *. by rewrite Hn.
Qed.

(** ** Aggregation *)

Lemma get_timestamp_reads s now clock' :
  read_clock (clock_ (search_ (logic_ s))) = (now, clock') ->
  get_timestamp s = (Ok (u64 now), set_logic (set_search (set_clock clock' (search_ (logic_ s))) (logic_ s)) s).
Proof. intros Hc. unfold get_timestamp, on_search, zoom. by rewrite Hc. Qed.

Lemma for_each_skip {S A} (l : list A) (f : A -> M S unit) s : (forall a, a ∈ l -> f a s = (Ok tt, s)) -> for_each l f s = (Ok tt, s).
Proof.
  induction l as [|a l IH]; intros Hf; cbn; [done|]. mred. rewrite Hf by left. apply IH. intros b Hb. apply Hf. by right.
Qed.

(** An overdue search is never concluded. The timeout of the requesting node concludes the
    searches that started at or after the time it looks back to, instead of at or before it:
    when the clock shows even a millisecond more than the timeout since the start of each
    search, the timeout changes nothing but the clock, no promise is set, and nothing
    schedules another timeout. *)
Theorem overdue_search_never_concluded s now clock' :
  read_clock (clock_ (search_ (logic_ s))) = (now, clock') -> now < 2 ^ 64 ->
  getTimeoutLength kDsnAggregationTimeout s <= now ->
  (forall id start, dsn_aggregation_start_timestamp_ (procedure_info_ (logic_ s)) !! id = Some start ->
     start + getTimeoutLength kDsnAggregationTimeout s < now) ->
  processDSNAggregationTimeout s =
  (Ok tt, set_logic (set_search (set_clock clock' (search_ (logic_ s))) (logic_ s)) s).
Proof.
  intros Hc Hnow Hlen Hlate. unfold processDSNAggregationTimeout.
  assert (Hl0 : 0 <= getTimeoutLength kDsnAggregationTimeout s) by (rewrite getTimeoutLength_u16; apply Z.mod_pos_bound; lia).
  mred. rewrite (get_timestamp_reads s now clock' Hc). cbn beta iota.
  set (s1 := set_logic _ s).
  assert (Hs : getTimeoutLength kDsnAggregationTimeout s1 = getTimeoutLength kDsnAggregationTimeout s /\
    procedure_info_ (logic_ s1) = procedure_info_ (logic_ s)) by by destruct s as [? ? ? ? ? ? []].
  destruct Hs as [-> ->]. apply for_each_skip. intros [id start] Hin.
  rewrite elem_of_walk, elem_of_map_to_list in Hin. specialize (Hlate id start Hin).
  unfold dsn_aggregation_due, u64. rewrite (Z.mod_small now), Z.mod_small by lia.
  by rewrite (proj2 (Z.leb_gt _ _)) by lia.
Qed.

(** The state after an aggregation has been concluded. *)
Definition concluded (id : Z) (entries : FindResult) (s s' : MNode) : Prop :=
  let p := procedure_info_ (logic_ s) in
  let p' := procedure_info_ (logic_ s') in
  find_result_promises_ p' = <[id := Some entries]> (find_result_promises_ p) /\
  find_query_requests_ p' = delete id (find_query_requests_ p) /\
  find_query_preliminary_results_ p' = delete id (find_query_preliminary_results_ p) /\
  dsn_aggregation_start_timestamp_ p' = delete id (dsn_aggregation_start_timestamp_ p) /\
  search_ (logic_ s') = search_ (logic_ s) /\ sent_ s' = sent_ s.

(** What the application gets for the collected results. *)
Definition entries_of (results : FoundNodes) : FindResult :=
  map (fun e => map (fun a : Key * Value => (a.1, a.2, kValueDynamic)) e.2) (walk (filterDuplicateAttributes results)).

Lemma load_entry {V} id (m : gmap Z V) v : m !! id = Some v -> Entries.load id m = (Ok v, m).
Proof. intros Hv. unfold Entries.load. mred. by rewrite Hv. Qed.

Lemma remove_entry {V} id (m : gmap Z V) v : m !! id = Some v -> Entries.remove id m = (Ok tt, delete id m).
Proof. intros Hv. unfold Entries.remove, Entries.has. mred. by rewrite Hv. Qed.

Lemma concludeDSNs_sets_promise id query results start s :
  let p := procedure_info_ (logic_ s) in
  find_query_requests_ p !! id = Some query -> find_query_preliminary_results_ p !! id = Some results ->
  dsn_aggregation_start_timestamp_ p !! id = Some start -> find_result_promises_ p !! id = Some None ->
  exists s', concludeAggregationOfDSNs id s = (Ok tt, s') /\ concluded id (entries_of results) s s'.
Proof.
  intros p Hq Hr Hs Hp.
  destruct s as [f r n t w o [[m1 m2 m3 m4 m5 m6 m7 m8 m9 m10] b u j re bo le se]]. subst p.
  unfold concludeAggregationOfDSNs, notifyAboutFindQueryResults, set_promise, procedure, loadFindQuery,
    loadFindQueryPreliminaryResults, loadFindResultPromise, removeFindQuery, removeFindQueryPreliminaryResults,
    removeDSNAggregationStartTimestamp. mred.
  cbn [logic_ procedure_info_ find_query_requests_]. erewrite load_entry by exact Hq.
  cbn -[Entries.load Entries.remove]. erewrite load_entry by exact Hr.
  cbn -[Entries.load Entries.remove]. erewrite load_entry by exact Hp.
  cbn -[Entries.load Entries.remove]. erewrite remove_entry by exact Hq.
  cbn -[Entries.load Entries.remove]. erewrite remove_entry by exact Hr.
  cbn -[Entries.load Entries.remove]. erewrite remove_entry by exact Hs.
  eexists. split; [done|]. by split_and!.
Qed.

(** A search that times out on time delivers what was collected. When one search is pending
    and the timeout looks back no further than its start, the promise gets the collected
    nodes, the attributes of each sorted by key without duplicates, and everything remembered
    of the search but the promise is forgotten; nothing is sent. *)
Theorem search_delivers_results s now clock' id start query results :
  let p := procedure_info_ (logic_ s) in
  read_clock (clock_ (search_ (logic_ s))) = (now, clock') ->
  dsn_aggregation_start_timestamp_ p = {[id := start]} ->
  u64 (u64 now - getTimeoutLength kDsnAggregationTimeout s) <= start ->
  find_query_requests_ p !! id = Some query -> find_query_preliminary_results_ p !! id = Some results ->
  find_result_promises_ p !! id = Some None ->
  exists s', processDSNAggregationTimeout s = (Ok tt, s') /\
    concluded id (entries_of results)
      (set_logic (set_search (set_clock clock' (search_ (logic_ s))) (logic_ s)) s) s'.
Proof.
  intros p Hc Hstart Hdue Hq Hr Hp. unfold processDSNAggregationTimeout.
  mred. rewrite (get_timestamp_reads s now clock' Hc). cbn beta iota.
  set (s1 := set_logic _ s).
  assert (Hs : getTimeoutLength kDsnAggregationTimeout s1 = getTimeoutLength kDsnAggregationTimeout s /\
    procedure_info_ (logic_ s1) = procedure_info_ (logic_ s)) by by destruct s as [? ? ? ? ? ? []].
  destruct Hs as [-> Hp1]. rewrite Hp1. unfold getDSNAggregationStartTimestampMap. fold p. rewrite Hstart, map_to_list_singleton.
  assert (Hw : walk [(id, start)] = [(id, start)]).
  { pose proof (walk_Permutation _ [(id, start)]) as Hperm. symmetry in Hperm. by apply Permutation_singleton_l in Hperm. }
  rewrite Hw. cbn [for_each]. unfold dsn_aggregation_due. rewrite (proj2 (Z.leb_le _ _)) by done.
  destruct (concludeDSNs_sets_promise id query results start s1) as (s' & Hs' & Hcon); rewrite ?Hp1; try done.
  { fold p. rewrite Hstart. apply lookup_singleton_eq. }
  exists s'. split; [|done]. mred. by rewrite Hs'.
Qed.

(** ** Where a query is sent first *)

(** The even levels the search addresses when the deepest known level is [K]. *)
Fixpoint even_levels (fuel : nat) (level K : Z) : list Z :=
  match fuel with
  | O => []
  | S fuel' => if level <? K then level :: even_levels fuel' (level + 2) K else []
  end.
Definition addressed_levels (K : Z) : list Z :=
  0 :: even_levels (Z.to_nat K) 2 K ++ [if K mod 2 =? 0 then K else K + 1].

Definition at_dsn_position (f : Z) (n : NodeInfo) : Prop :=
  exists D, getDSNSet (Node.getLevel n) f = Ok D /\ Node.getNumber n ∈ D.

Lemma of_position_at l n f :
  valid_fanout f -> 0 <= n < f ^ l ->
  exists node, Node.of_position l n f = Ok node /\ Node.getLevel node = l /\ Node.getNumber node = n.
Proof.
  intros Hf Hn. unfold Node.of_position. rewrite Logical.of_position_Ok by (apply valid_position; [done|lia]).
  by eexists.
Qed.

Lemma dsn_position l f d :
  valid_fanout f -> level_fits l f -> 1 < l -> l mod 2 = 0 -> d ∈ dsns l f ->
  exists node, Node.of_position l d f = Ok node /\ Node.getLevel node = l /\ at_dsn_position f node.
Proof.
  intros Hf Hfit Hl He Hd. pose proof Hd as [i Hi]%list_elem_of_lookup. apply dsns_bounds in Hi; [|done..].
  destruct (of_position_at l d f Hf) as (node & Hn & Hlv & Hnum); [lia|]. exists node. split_and!; [done..|].
  exists (dsns l f). rewrite Hlv, Hnum. split; [by apply getDSNSet_form|done].
Qed.

Lemma first_dsn l f : valid_fanout f -> 1 < l -> f ∈ dsns l f.
Proof.
  intros Hf Hl. destruct (dsn_arith l f) as (q & _ & Hq1 & Hc & _); [done..|]. unfold dsns. rewrite Hc.
  destruct (Z.to_nat q) as [|k] eqn:E; [lia|]. rewrite odd_multiples_S. left.
Qed.

Lemma level_fits_below l l' f : valid_fanout f -> level_fits l f -> 0 <= l' <= l -> level_fits l' f.
Proof.
  intros Hf [? Hfit] Hl. split; [lia|]. pose proof (valid_fanout_bounds f Hf).
  assert (f ^ l' <= f ^ l) by (apply Z.pow_le_mono_r; lia). lia.
Qed.

Section Targets.
Variables (self : NodeInfo) (K : Z) (D : list Z).
Let f := Node.getFanout self.
Hypothesis (Hf : valid_fanout f) (Hfit : level_fits (K + 1) f).
Hypothesis (HD : getDSNSet (Node.getLevel self) f = Ok D).

(** The node addressed on a level above the deepest. *)
Lemma middle_target level :
  2 <= level < K -> level mod 2 = 0 ->
  exists node,
    (if (Node.getLevel self =? level) && bool_decide (Node.getNumber self ∈ D) then mret self
     else level_ds ← getDSNSet level f;
          if Z.of_nat (length level_ds) <=? f + 1 then Node.of_position level f f
          else middle_number ← vec_at level_ds (Nat.div2 (length level_ds)); Node.of_position level middle_number f)
    = Ok node /\ Node.getLevel node = level /\ at_dsn_position f node.
Proof.
  intros Hl He. pose proof (level_fits_below (K + 1) level f Hf Hfit ltac:(lia)) as Hfl.
  destruct ((Node.getLevel self =? level) && bool_decide (Node.getNumber self ∈ D)) eqn:Es.
  { apply andb_prop in Es as [Hs%Z.eqb_eq Hd%bool_decide_eq_true]. exists self. split_and!; [done..|]. by exists D. }
  rewrite getDSNSet_form by (done || lia). fold (dsns level f). cbn [mbind outcome_bind].
  destruct (_ <=? _) eqn:Esz; [apply dsn_position; [done..|lia|done|by apply first_dsn; [|lia]]|].
  destruct (lookup_lt_is_Some_2 (dsns level f) (Nat.div2 (length (dsns level f)))) as [d Hd].
  { pose proof (valid_fanout_bounds f Hf). apply Z.leb_gt in Esz. apply Nat.lt_div2. lia. }
  rewrite (vec_at_Some _ _ _ Hd). cbn [mbind outcome_bind].
  apply dsn_position; [done..|lia|done|]. apply list_elem_of_lookup. by eexists.
Qed.

Lemma middle_targets fuel level :
  2 <= level -> level mod 2 = 0 -> K - level <= Z.of_nat fuel ->
  exists ns, middle_dsns fuel level K self (bool_decide (Node.getNumber self ∈ D)) = Ok ns /\
    Node.getLevel <$> ns = even_levels fuel level K /\ Forall (at_dsn_position f) ns.
Proof.
  revert level. induction fuel as [|fuel IH]; intros level Hl He Hk; cbn [middle_dsns even_levels].
  { rewrite (proj2 (Z.ltb_ge _ _)) by lia. exists []. by split_and!. }
  destruct (Z.ltb_spec level K) as [Hlt|Hge]; [|exists []; by split_and!].
  fold f. destruct (middle_target level ltac:(lia) He) as (node & -> & Hlv & Hdsn). cbn [mbind outcome_bind].
  pose proof (level_fits_lt _ f Hf Hfit). rewrite u32_id by (unfold in_u32; lia).
  destruct (IH (level + 2)) as (ns & -> & Hns & Hall); [lia|by rewrite <- Z.add_mod_idemp_l, He|lia|].
  exists (node :: ns). split; [done|]. split; [cbn; by rewrite Hlv, Hns|by constructor].
Qed.
End Targets.

(** Where a search is sent first. A node addresses one position of the root level, then one
    of every further even level above the deepest level it knows of, and then one of that level
    or, when it is odd, of the level below it; each is the position of a DSN of its level. (A
    root that is alone addresses itself twice.) Together with the forwarding within a level the
    search reaches the DSNs of all these levels. *)
Theorem search_addresses_every_even_level r D :
  let self := self_node_info_ r in
  let f := Node.getFanout self in
  let K := Z.max (Z.max (Node.getLevel (adjacent_left_ r)) (Node.getLevel (adjacent_right_ r))) (Node.getLevel self) in
  valid_fanout f -> level_fits (K + 1) f -> 0 <= Node.getLevel self -> 0 <= Node.getNumber self < f ^ Node.getLevel self ->
  getDSNSet (Node.getLevel self) f = Ok D ->
  exists ns, calcDSNsToSendInitialCDSForwardingTo r = Ok ns /\
    Node.getLevel <$> ns = addressed_levels K /\ Forall (at_dsn_position f) ns.
Proof.
  intros self f K Hf Hfit Hl Hn HD. unfold calcDSNsToSendInitialCDSForwardingTo. fold self f. rewrite HD.
  cbn [mbind outcome_bind].
  match goal with |- context [middle_dsns _ 2 ?k] => replace k with K end.
  2:{ unfold K. destruct (negb _ || negb _ || negb _) eqn:E; [done|].
      apply orb_false_iff in E as [[E1 E2]%orb_false_iff E3]. apply negb_false_iff in E1, E2, E3. lia. }
  assert (Hfirst : exists node, (if negb (Node.getLevel self =? 0) then Node.of_position 0 0 f else mret self) = Ok node /\
    Node.getLevel node = 0 /\ at_dsn_position f node).
  { destruct (Z.eqb_spec (Node.getLevel self) 0) as [E|E]; cbn [negb].
    - exists self. split_and!; [done..|]. exists [0]. rewrite E in *. split; [done|]. rewrite Z.pow_0_r in Hn.
      replace (Node.getNumber self) with 0 by lia. left.
    - destruct (of_position_at 0 0 f Hf) as (node & ? & Hlv & Hnum); [lia|]. exists node. split_and!; [done..|].
      exists [0]. rewrite Hlv, Hnum. split; [done|left]. }
  destruct Hfirst as (n1 & -> & Hl1 & Hd1). cbn [mbind outcome_bind].
  destruct (middle_targets self K D Hf Hfit HD (Z.to_nat K) 2) as (mid & -> & Hlm & Hdm); [lia|done|unfold K; lia|].
  cbn [mbind outcome_bind].
  assert (Hlast : exists node,
    (if K mod 2 =? 0 then
       if (Node.getLevel self =? K) && bool_decide (Node.getNumber self ∈ D) then mret self
       else Node.of_position K (if K =? 0 then 0 else f) f
     else Node.of_position (u32 (K + 1)) f f) = Ok node /\
    Node.getLevel node = (if K mod 2 =? 0 then K else K + 1) /\ at_dsn_position f node).
  { pose proof (level_fits_lt _ f Hf Hfit). assert (0 <= K) by (unfold K; lia).
    destruct (Z.eqb_spec (K mod 2) 0) as [Ek|Ek].
    - destruct ((Node.getLevel self =? K) && bool_decide (Node.getNumber self ∈ D)) eqn:Es.
      { apply andb_prop in Es as [Hs%Z.eqb_eq Hd%bool_decide_eq_true]. exists self. split_and!; [done..|]. by exists D. }
      destruct (Z.eqb_spec K 0) as [->|Hk0].
      + destruct (of_position_at 0 0 f Hf) as (node & ? & Hlv & Hnum); [lia|]. exists node. split_and!; [done..|].
        exists [0]. rewrite Hlv, Hnum. split; [done|left].
      + assert (1 < K) by (destruct (decide (K = 1)) as [->|]; [done|lia]).
        apply dsn_position; [done|apply (level_fits_below (K + 1)); [done..|lia]|lia|done|by apply first_dsn].
    - rewrite u32_id by (unfold in_u32; lia). pose proof (Z.mod_pos_bound K 2 ltac:(lia)).
      assert (K <> 0) by by intros ->.
      apply dsn_position; [done..|lia| |by apply first_dsn; [|lia]].
      rewrite <- Z.add_mod_idemp_l by lia. by replace (K mod 2) with 1 by lia. }
  destruct Hlast as (n3 & -> & Hl3 & Hd3). cbn [mbind outcome_bind]. eexists. split; [done|]. split.
  - rewrite fmap_app, fmap_app. cbn [fmap list_fmap]. by rewrite Hl1, Hlm, Hl3.
  - apply Forall_cons. split; [done|]. apply Forall_app. split; [done|]. by repeat constructor.
Qed.

End Outcomes.
