(* ===== verification/SearchExamples.v ===== *)
(** * Searches on concrete nodes

    A root with a child on which the properties of the entity search are applied: its clock,
    its attributes, a pending search and an answer that has come in. *)

From S2P Require Import Prelude RoutingCalculations NodeInfo RoutingInformation RoutingInvariants ProcedureInfo Message Fsm MinhtonNode Access SearchExact Algorithms ProtocolRuns Containers NodeData BooleanExpression FindQuery DsnHandler DsnProperties EntitySearch SearchOutcomes.
Import Data.

(** A clock that does not move. *)
Definition frozen_clock : Clock := {| read_clock := fun z => (z, z) |}.

Section Examples.
#[local] Existing Instance x86_64.
#[local] Existing Instance ipv4_only.
#[local] Existing Instance plain_texts.
#[local] Existing Instance counting_uuids.
#[local] Existing Instance in_order.
#[local] Existing Instance frozen_clock.

Definition seven : Value := Value_int 7.

(** Has the attribute [a], at the price of an inquiry when it is not known. *)
Definition has_a : Find.FindQuery :=
  {| Find.expr_ := Some (AtomicExpression (PresenceExpression "a"%string)); Find.scope_ := Find.kAll;
     Find.requesting_node_ := Node.default; Find.validity_threshold_ := 1000;
     Find.inquire_unknown_attributes_ := true; Find.inquire_outdated_attributes_ := true;
     Find.permissive_ := false; Find.selection_ := Find.kSelectUnspecific; Find.selected_attribute_keys_ := [] |}.

(** The attributes of the node with [a] = 7. *)
Definition with_a : LocalData :=
  (Local.base (Data.insert "a"%string (seven, 500, kValueDynamic)) Local.empty).2.

Definition searcher (clock : Z) (p : ProcedureInfo FindQuery Attribute FindResultPromise) : MNode :=
  {| fsm_ := makeFSM kConnected; routing_info_ := dsn_root; replacing_node_ := Node.default;
     timeout_lengths_container_ := run_lengths; watchdog_ := []; sent_ := [];
     logic_ := set_procedure_info p (initial_LogicState 1
       {| local_data_ := with_a; dsn_handler_ := root_handler;
          value_time_validity_threshold_after_inquiry_aggregation_ := 5100; clock_ := clock |}) |}.

(** A search begun at time 1000 that has found one node. *)
Definition one_pending : ProcedureInfo FindQuery Attribute FindResultPromise :=
  Build_ProcedureInfo (FindQuery := Find.FindQuery) (Attribute := Key * Value)
    (FindResultPromise := option FindResult)
    ∅ ∅ {[5 := has_a]} ∅ {[5 := [(example_node 1 0, [("a"%string, seven)])]]} {[5 := 1000]} ∅ ∅ ∅ {[5 := None]}.

Lemma answered_node_judged_as_by_itself_witness : exists h' x,
  Dsn.updateInquiredOrSubscribedAttributeValues (example_node 1 0) (full_answer (l_data with_a)) 900 root_handler
    = (Ok tt, h') /\
  Dsn.cover_find (l_node_info_ (example_node 1 0)) (cover_data_ h') = Some x /\
  Find.evaluate (Remote x) true 1500 has_a = Find.evaluate (Own with_a) true 1500 has_a.
Proof. apply answered_node_judged_as_by_itself; vm_compute; done. Defined.

Definition inquired : list (NodeInfo * list Key) :=
  match Dsn.getUndecidedNodesAndMissingKeys has_a false 1500 root_handler with Ok nodes => nodes | _ => [] end.

Lemma inquiries_are_valid_witness :
  exists n, inquired = [(n, ["a"%string])] /\
  validateImpl (MessageAttributeInquiryRequest (Header.make Node.default Node.default 0 0)
    (bool_decide (Find.selection_ has_a = Find.kSelectAll)) (sort_unique ["a"%string])) = true.
Proof.
  eexists. assert (E : inquired = [(_, ["a"%string])]) by (vm_compute; reflexivity). split; [exact E|].
  eapply (inquiries_are_valid has_a 1500 root_handler inquired); [vm_compute; reflexivity|]. rewrite E. left.
Defined.

Lemma localUpdate_stops_at_unchanged_witness :
  localUpdate [("a"%string, seven, kValueDynamic); ("b"%string, seven, kValueDynamic)] (searcher 1050 one_pending)
    = (Ok tt, searcher 1050 one_pending).
Proof. eapply localUpdate_stops_at_unchanged; vm_compute; reflexivity. Defined.

Lemma find_unparsed_query_witness :
  find (fun _ => mret tt) Find.empty (searcher 1050 one_pending) = (Undefined, searcher 1050 one_pending).
Proof. apply find_unparsed_query. reflexivity. Defined.

Lemma overdue_search_never_concluded_witness :
  processDSNAggregationTimeout (searcher 1101 one_pending) = (Ok tt, searcher 1101 one_pending).
Proof.
  apply (overdue_search_never_concluded (searcher 1101 one_pending) 1101 1101); [done..|vm_compute; congruence|].
  intros id start Hs. change (({[5 := 1000]} : gmap Z Z) !! id = Some start) in Hs.
  apply lookup_singleton_Some in Hs as [<- <-]. vm_compute. reflexivity.
Defined.

Lemma search_delivers_results_witness : exists s',
  processDSNAggregationTimeout (searcher 1100 one_pending) = (Ok tt, s') /\
  find_result_promises_ (procedure_info_ (logic_ s')) !! 5 = Some (Some [[("a"%string, seven, kValueDynamic)]]).
Proof.
  destruct (search_delivers_results (searcher 1100 one_pending) 1100 1100 5 1000 has_a
    [(example_node 1 0, [("a"%string, seven)])]) as (s' & Hs & Hp & _); [done|done|vm_compute; congruence|done..|].
  exists s'. split; [exact Hs|]. rewrite Hp. vm_compute. reflexivity.
Defined.

Lemma search_addresses_every_even_level_witness : exists ns,
  calcDSNsToSendInitialCDSForwardingTo below_root = Ok ns /\ Node.getLevel <$> ns = [0; 2].
Proof.
  destruct (search_addresses_every_even_level below_root []) as (ns & Hn & Hl & _).
  - vm_compute. intuition congruence.
  - vm_compute. intuition congruence.
  - vm_compute. congruence.
  - vm_compute. intuition congruence.
  - vm_compute. reflexivity.
  - exists ns. split; [exact Hn|]. rewrite Hl. vm_compute. reflexivity.
Defined.

End Examples.
