(* ===== verification/RouteCalculation.v ===== *)
(** * Routes without conflicts

    Model of [daisi/src/path_planning/consensus/route_calculation_helper.cpp] and of the central
    server [consensus/central/central_server.cpp]: a start time is looked for at which a vehicle
    reaches no intersection of its route too close to the time of another vehicle. *)

From Stdlib Require Import SpecFloat.
From S2P Require Import Prelude TreeMapper Containers.

(** ** Numbers *)

(** [float] (binary32) and [double] (binary64) share one representation. *)
Abbreviation float := spec_float.

(** The value rounded to nearest in another format. *)
Definition convert (prec emax : Z) (x : spec_float) : spec_float :=
  match x with
  | S754_finite s m e => binary_normalize prec emax (if s then Z.neg m else Z.pos m) e s
  | _ => x
  end.
Definition float_of_double : double -> float := convert 24 128.
Definition double_of_float : float -> double := convert 53 1024.

(** The conversion to [int] truncates; out of range it is undefined. *)
Definition int_of_double (x : double) : outcome Z :=
  match x with
  | S754_zero _ => Ok 0
  | S754_finite s m e =>
      let magnitude := if 0 <=? e then Z.pos m * 2 ^ e else Z.pos m / 2 ^ (- e) in
      let z := if s then - magnitude else magnitude in
      if (- 2 ^ 31 <=? z) && (z <? 2 ^ 31) then Ok z else Undefined
  | _ => Undefined
  end.

(** ** Occupancies *)

(** [ns3::Vector2D] and [PPVector] *)
Record Vector2D := { x : double; y : double }.
Abbreviation PPVector := (float * float)%type.
Definition PP_eqb (a b : PPVector) : bool := SFeqb a.1 b.1 && SFeqb a.2 b.2.
Definition PP_of (v : Vector2D) : PPVector := (float_of_double (x v), float_of_double (y v)).

(** [std::map<Timestamp, ID>]: the entries in ascending order. *)
Abbreviation Times := (list (double * Z)).
Abbreviation IntersectionOccupancy := (list (PPVector * Times)).
Abbreviation PointTimePairs := (list (Vector2D * double)).

(** [upper_bound(t)]: the entries before it and those from it on. *)
Fixpoint split_upper (t : double) (entry : Times) : Times * Times :=
  match entry with
  | [] => ([], [])
  | e :: entry' =>
      if d_lt t e.1 then ([], entry)
      else let '(before, after) := split_upper t entry' in (e :: before, after)
  end.

(** [find(t) != end()]: the first entry not before [t] is not after it. *)
Fixpoint has_time (t : double) (entry : Times) : bool :=
  match entry with
  | [] => false
  | e :: entry' => if d_lt e.1 t then has_time t entry' else negb (d_lt t e.1)
  end.

(** [entry[t] = id] *)
Fixpoint set_time (t : double) (id : Z) (entry : Times) : Times :=
  match entry with
  | [] => [(t, id)]
  | e :: entry' =>
      if d_lt e.1 t then e :: set_time t id entry'
      else if d_lt t e.1 then (t, id) :: entry else (e.1, id) :: entry'
  end.

(** ** [RouteCalculationHelper] *)

(** One point of the route. *)
Definition possiblePoint (start_time_s time_between_intersections_s : double)
    (intersection_occupancy : IntersectionOccupancy) (point : Vector2D * double) : bool :=
  match assoc_find PP_eqb (PP_of point.1) intersection_occupancy with
  | None | Some [] => true
  | Some entry =>
      let time_at_point := d_add point.2 start_time_s in
      if has_time time_at_point entry then false
      else
        let '(before, after) := split_upper time_at_point entry in
        let shortly_after :=
          match after with
          | next :: _ => d_le next.1 (d_add time_at_point time_between_intersections_s)
          | [] => false
          end in
        let shortly_before :=
          match last before with
          | Some previous => d_le (d_sub time_at_point time_between_intersections_s) previous.1
          | None => false
          end in
        negb shortly_after && negb shortly_before
  end.

Definition possibleRoute (points : PointTimePairs) (start_time_s time_between_intersections_s : double)
    (intersection_occupancy : IntersectionOccupancy) : bool :=
  forallb (possiblePoint start_time_s time_between_intersections_s intersection_occupancy) points.

(** [delta_s] *)
Definition delta_s : double := d_div (d_of_Z 1) (d_of_Z 1000).

Definition start_time (initial_start_time : double) (i : Z) : double :=
  d_add initial_start_time (d_mul delta_s (d_of_Z i)).

(** The loop: the first possible start time, if one is found in the given number of rounds. *)
Fixpoint first_possible (rounds : nat) (i : Z) (possible : double -> bool) (initial_start_time : double)
    : option double :=
  match rounds with
  | O => None
  | S rounds' =>
      if possible (start_time initial_start_time i) then Some (start_time initial_start_time i)
      else first_possible rounds' (i + 1) possible initial_start_time
  end.

Definition runtime_error_check (ok : bool) (what : string) : outcome unit :=
  throw_when (negb ok) (runtime_error what).

(** [quiet_NaN()] if there is none. *)
Definition calculatePossibleStartTime (points : PointTimePairs)
    (initial_start_time max_preplanning_time_s time_between_intersections_s : double)
    (intersection_occupancy : IntersectionOccupancy) : outcome double :=
  whole ← int_of_double max_preplanning_time_s;
  retries ← int_of_double (d_div (d_of_Z whole) delta_s);
  match first_possible (Z.to_nat retries) 0
          (fun t => possibleRoute points t time_between_intersections_s intersection_occupancy)
          initial_start_time with
  | Some t =>
      (if is_nan t then mret tt
       else runtime_error_check (d_le initial_start_time t) "Cannot start before initial start time");;
      mret t
  | None => mret S754_nan
  end.

(** ** The nearest occupancies decide *)

(** Two times of one intersection that are too close: the same time, or one within [delta] of
    the other. *)
Definition conflict (delta t k : double) : bool :=
  negb (d_lt k t) && negb (d_lt t k) ||
  (d_lt t k && d_le k (d_add t delta) || d_lt k t && d_le (d_sub t delta) k).

(** What [std::map] maintains. *)
Definition times_ok (entry : Times) : Prop :=
  StronglySorted (fun a b => d_lt a.1 b.1 = true) entry /\ Forall (fun e => is_nan e.1 = false) entry.

Lemma times_ok_cons e entry :
  times_ok (e :: entry) ->
  times_ok entry /\ (forall e', e' ∈ entry -> d_lt e.1 e'.1 = true) /\ is_nan e.1 = false.
Proof.
  intros [Hs Hn]. apply StronglySorted_inv in Hs as [Hs He]. apply Forall_cons in Hn as [? ?].
  split; [done|]. split; [|done]. intros e' He'. by eapply Forall_forall in He.
Qed.

Lemma has_time_spec t entry :
  times_ok entry ->
  has_time t entry = true <-> exists e, e ∈ entry /\ d_lt e.1 t = false /\ d_lt t e.1 = false.
Proof.
  induction entry as [|e entry IH]; intros Hok; cbn; [split; [done|intros (? & ?%elem_of_nil & _); done]|].
  destruct (times_ok_cons _ _ Hok) as (Hok' & Hlt & _). specialize (IH Hok'). destruct (d_lt e.1 t) eqn:E.
  - rewrite IH. split; intros (e' & He & ? & ?); exists e'; [by split; [right|]|].
    apply elem_of_cons in He as [->|He]; [congruence|done].
  - destruct (d_lt t e.1) eqn:E2; cbn; [|split; [intros _; exists e; by split; [left|]|done]].
    split; [done|]. intros (e' & [->|He']%elem_of_cons & _ & Hf); [congruence|].
    rewrite (d_lt_trans t e.1 e'.1) in Hf; [done|done|by apply Hlt].
Qed.

Lemma split_upper_spec t entry :
  times_ok entry ->
  let '(before, after) := split_upper t entry in
  entry = before ++ after /\ (forall e, e ∈ before -> d_lt t e.1 = false) /\ (forall e, e ∈ after -> d_lt t e.1 = true).
Proof.
  induction entry as [|e entry IH]; intros Hok; cbn.
  { split_and!; [done|by intros ? ?%elem_of_nil..]. }
  destruct (times_ok_cons _ _ Hok) as (Hok' & Hlt & _). destruct (d_lt t e.1) eqn:E.
  - split; [done|]. split; [by intros ? ?%elem_of_nil|]. intros e' [->|He']%elem_of_cons; [done|].
    eapply d_lt_trans; [done|by apply Hlt].
  - specialize (IH Hok'). destruct (split_upper t entry) as [before after]. destruct IH as (-> & Hb & Ha).
    split; [done|]. split; [|done]. intros e' [->|He']%elem_of_cons; [done|by apply Hb].
Qed.

Lemma times_ok_app before after e1 e2 :
  times_ok (before ++ after) -> e1 ∈ before -> e2 ∈ after -> d_lt e1.1 e2.1 = true.
Proof.
  intros [Hs _]. revert Hs. induction before as [|e before IH]; cbn; intros Hs He1 He2; [by apply elem_of_nil in He1|].
  apply StronglySorted_inv in Hs as [Hs He]. apply elem_of_cons in He1 as [->|He1]; [|by apply IH].
  eapply Forall_forall in He; [done|]. apply elem_of_app. by right.
Qed.
Lemma times_ok_last before e e' :
  times_ok before -> last before = Some e -> e' ∈ before -> e' = e \/ d_lt e'.1 e.1 = true.
Proof.
  intros Hok [l ->]%last_Some He'. apply elem_of_app in He' as [He'|He'%list_elem_of_singleton]; [|by left].
  right. eapply times_ok_app; [done..|left].
Qed.

(** The part of the occupancies on either side of a time at which the intersection is free. *)
Section Nearest.
Variables (delta t : double) (before after : Times).
Hypothesis ok : times_ok (before ++ after).
Hypothesis before_t : forall e, e ∈ before -> d_lt e.1 t = true.
Hypothesis after_t : forall e, e ∈ after -> d_lt t e.1 = true.

Lemma d_lt_asym a b : d_lt a b = true -> d_lt b a = false.
Proof.
  intros Hab. apply not_true_iff_false. intros Hba. pose proof (d_lt_trans _ _ _ Hab Hba). by rewrite d_lt_irrefl in *.
Qed.

Lemma conflict_before e : e ∈ before -> conflict delta t e.1 = d_le (d_sub t delta) e.1.
Proof. intros He%before_t. unfold conflict. by rewrite He, (d_lt_asym _ _ He). Qed.
Lemma conflict_after e : e ∈ after -> conflict delta t e.1 = d_le e.1 (d_add t delta).
Proof. intros He%after_t. unfold conflict. rewrite He, (d_lt_asym _ _ He). cbn. apply orb_false_r. Qed.

Lemma ok_before : times_ok before.
Proof. destruct ok as [Hs Hn]. split; [by eapply StronglySorted_app_1_l|by apply Forall_app in Hn as []]. Qed.

Lemma nearest_before :
  match last before with Some e => d_le (d_sub t delta) e.1 | None => false end = false <->
  forall e, e ∈ before -> conflict delta t e.1 = false.
Proof.
  destruct (last before) as [e|] eqn:El.
  - assert (He : e ∈ before) by (apply last_Some in El as [l ->]; apply elem_of_app; right; left).
    split; [|intros Hk; rewrite <- conflict_before by done; by apply Hk].
    intros Hp k Hk. rewrite conflict_before by done. apply not_true_iff_false in Hp. apply not_true_iff_false.
    intros Hc. apply Hp. destruct (times_ok_last before e k ok_before El Hk) as [->|Hlt]; [done|].
    by eapply d_le_lt_trans.
  - apply last_None in El as ->. split; [by intros _ ? ?%elem_of_nil|done].
Qed.

Lemma nearest_after :
  match after with e :: _ => d_le e.1 (d_add t delta) | [] => false end = false <->
  forall e, e ∈ after -> conflict delta t e.1 = false.
Proof.
  generalize conflict_after, ok. generalize after. intros [|e l] Hca Hok; [split; [by intros _ ? ?%elem_of_nil|done]|].
  split; [|intros Hk; rewrite <- Hca by left; apply Hk; left].
  intros Hp k Hk. rewrite Hca by done. apply not_true_iff_false in Hp. apply not_true_iff_false.
  intros Hc. apply Hp. apply elem_of_cons in Hk as [->|Hk]; [done|]. eapply d_lt_le_trans; [|done].
  eapply (times_ok_app (before ++ [e]) l); [by rewrite <- app_assoc|apply elem_of_app; right; left|done].
Qed.
End Nearest.

Lemma possible_entry delta t entry :
  times_ok entry ->
  (if has_time t entry then false
   else let '(before, after) := split_upper t entry in
     negb (match after with next :: _ => d_le next.1 (d_add t delta) | [] => false end) &&
     negb (match last before with Some previous => d_le (d_sub t delta) previous.1 | None => false end)) = true <->
  forall k, k ∈ entry -> conflict delta t k.1 = false.
Proof.
  intros Hok. destruct (has_time t entry) eqn:Eh.
  - split; [done|]. apply has_time_spec in Eh as (e & He & H1 & H2); [|done]. intros Hk. specialize (Hk e He).
    unfold conflict in Hk. by rewrite H1, H2 in Hk.
  - assert (Hsame : forall e, e ∈ entry -> d_lt t e.1 = false -> d_lt e.1 t = true).
    { intros e He H1. destruct (d_lt e.1 t) eqn:E2; [done|]. apply not_true_iff_false in Eh. destruct Eh.
      apply has_time_spec; [done|]. by exists e. }
    pose proof (split_upper_spec t entry Hok) as Hs. destruct (split_upper t entry) as [before after].
    destruct Hs as (-> & Hb & Ha).
    assert (Hb' : forall e, e ∈ before -> d_lt e.1 t = true).
    { intros e He. apply Hsame; [apply elem_of_app; by left|by apply Hb]. }
    rewrite andb_true_iff, !negb_true_iff, (nearest_before delta t before after Hok Hb'),
      (nearest_after delta t before after Hok Ha). setoid_rewrite elem_of_app. naive_solver.
Qed.

(** Looking at the two nearest occupancies is enough. A point of a route is possible at a
    start time exactly if its time conflicts with none of the times at which the intersection
    is occupied. *)
Theorem possiblePoint_exact start delta occupancy point :
  (forall entry, assoc_find PP_eqb (PP_of point.1) occupancy = Some entry -> times_ok entry) ->
  possiblePoint start delta occupancy point = true <->
  forall entry k, assoc_find PP_eqb (PP_of point.1) occupancy = Some entry -> k ∈ entry ->
    conflict delta (d_add point.2 start) k.1 = false.
Proof.
  intros Hocc. unfold possiblePoint. destruct (assoc_find _ _ _) as [entry|]; [|split; [intros _ ? ? [=]|done]].
  destruct entry as [|e entry]; [split; [by intros _ ? ? [= <-] ?%elem_of_nil|done]|].
  rewrite (possible_entry delta (d_add point.2 start) (e :: entry) (Hocc _ eq_refl)).
  split; [intros Hk ? k [= <-]; apply Hk|intros Hk k; by apply Hk].
Qed.

(** ** The start time that is found *)

Lemma first_possible_Some rounds i possible initial t :
  first_possible rounds i possible initial = Some t ->
  exists j, i <= j < i + Z.of_nat rounds /\ t = start_time initial j /\ possible t = true /\
    forall j', i <= j' < j -> possible (start_time initial j') = false.
Proof.
  revert i. induction rounds as [|rounds IH]; intros i; cbn [first_possible]; [done|].
  destruct (possible (start_time initial i)) eqn:E.
  - intros [= <-]. exists i. split_and!; [lia|lia|done|done|lia].
  - intros (j & Hj & -> & Hp & Hb)%IH. exists j. split_and!; [lia|lia|done|done|].
    intros j' Hj'. destruct (decide (j' = i)) as [->|]; [done|]. apply Hb. lia.
Qed.

Lemma first_possible_None rounds i possible initial :
  first_possible rounds i possible initial = None ->
  forall j, i <= j < i + Z.of_nat rounds -> possible (start_time initial j) = false.
Proof.
  revert i. induction rounds as [|rounds IH]; intros i; cbn [first_possible]; [lia|].
  destruct (possible (start_time initial i)) eqn:E; [done|]. intros Hn j Hj.
  destruct (decide (j = i)) as [->|]; [done|]. apply (IH (i + 1) Hn). lia.
Qed.

(** Every map of times is one [std::map] can have. *)
Definition occupancy_ok (occupancy : IntersectionOccupancy) : Prop := Forall (fun e => times_ok e.2) occupancy.

Lemma occupancy_ok_find occupancy p entry :
  occupancy_ok occupancy -> assoc_find PP_eqb p occupancy = Some entry -> times_ok entry.
Proof. intros Hok (p' & Hin & _)%assoc_find_Some. eapply Forall_forall in Hok; [|done]. done. Qed.

(** A route that starts at [t] is in nobody's way. *)
Definition free_route (points : PointTimePairs) (t delta : double) (occupancy : IntersectionOccupancy) : Prop :=
  forall point entry k, point ∈ points -> assoc_find PP_eqb (PP_of point.1) occupancy = Some entry ->
    k ∈ entry -> conflict delta (d_add point.2 t) k.1 = false.

Lemma possibleRoute_exact points t delta occupancy :
  occupancy_ok occupancy -> possibleRoute points t delta occupancy = true <-> free_route points t delta occupancy.
Proof.
  intros Hok. unfold possibleRoute, free_route. rewrite forallb_forall. split.
  - intros Hp point entry k Hin%list_elem_of_In. specialize (Hp point Hin).
    rewrite possiblePoint_exact in Hp; [apply Hp|]. intros e. by apply occupancy_ok_find.
  - intros Hf point Hin. apply possiblePoint_exact; [intros e; by apply occupancy_ok_find|].
    intros entry k. apply Hf. by apply list_elem_of_In.
Qed.

(** The number of steps the calculation tries. *)
Definition steps_of (horizon : double) : outcome Z :=
  int_of_double horizon ≫= fun whole => int_of_double (d_div (d_of_Z whole) delta_s).

(** C23: the start time that is found is the earliest possible one. When the calculation returns a
    number, the route that starts then conflicts with no occupancy, the start is not before the
    wanted one, and at every earlier step of a millisecond the route conflicts; when it returns
    NaN, the route conflicts at every step of the planning horizon. *)
Theorem start_time_earliest points initial horizon delta occupancy t retries :
  occupancy_ok occupancy -> steps_of horizon = Ok retries ->
  (forall j, 0 <= j < retries -> is_nan (start_time initial j) = false) ->
  calculatePossibleStartTime points initial horizon delta occupancy = Ok t ->
  if is_nan t
  then forall j, 0 <= j < retries -> ~ free_route points (start_time initial j) delta occupancy
  else free_route points t delta occupancy /\ d_le initial t = true /\
    exists i, t = start_time initial i /\ 0 <= i < retries /\
      forall j, 0 <= j < i -> ~ free_route points (start_time initial j) delta occupancy.
Proof.
  intros Hok Hr Hnum. unfold calculatePossibleStartTime, steps_of in *.
  destruct (int_of_double horizon) as [whole| |]; [|done..]. cbn in Hr |- *. rewrite Hr. cbn.
  assert (Hnot : forall s, possibleRoute points s delta occupancy = false -> ~ free_route points s delta occupancy).
  { intros s Hs Hf%possibleRoute_exact; [congruence|done]. }
  destruct (first_possible _ _ _ _) as [t'|] eqn:E.
  - apply first_possible_Some in E as (j & Hj & -> & Hp & Hb). rewrite (Hnum j) by lia. unfold runtime_error_check.
    destruct (d_le initial (start_time initial j)) eqn:El; [|done]. cbn. intros [= <-]. rewrite (Hnum j) by lia.
    split; [by apply possibleRoute_exact|]. split; [done|]. exists j. split_and!; [done|lia|lia|]. intros k Hk. by apply Hnot, Hb.
  - intros [= <-]. cbn. intros j Hj. apply Hnot.
    apply (first_possible_None _ _ _ _ E). lia.
Qed.

Lemma set_time_ok t id entry : is_nan t = false -> times_ok entry -> times_ok (set_time t id entry).
Proof.
  intros Ht. induction entry as [|e entry IH]; intros Hok; cbn.
  { split; repeat constructor. done. }
  destruct (times_ok_cons _ _ Hok) as (Hok' & Hlt & Hn). destruct (d_lt e.1 t) eqn:E1; [|destruct (d_lt t e.1) eqn:E2].
  - destruct (IH Hok') as [Hs Hf]. split; [|by constructor]. constructor; [done|]. apply Forall_forall. intros e'.
    enough (Hin : forall l, (forall e', e' ∈ l -> d_lt e.1 e'.1 = true) -> e' ∈ set_time t id l -> d_lt e.1 e'.1 = true) by by apply Hin.
    clear -E1. intros l. induction l as [|a l IHl]; cbn; intros Hl; [intros [= ->]%list_elem_of_singleton; done|].
    pose proof (Hl a ltac:(left)). destruct (d_lt a.1 t); [|destruct (d_lt t a.1)].
    + intros [->|He]%elem_of_cons; [done|]. apply IHl; [|done]. intros. apply Hl. by right.
    + intros [->|He]%elem_of_cons; [done|]. by apply Hl.
    + intros [->|He]%elem_of_cons; [done|]. apply Hl. by right.
  - destruct Hok as [Hs Hf]. split; [|by constructor]. constructor; [done|]. apply Forall_forall.
    intros e' [->|He']%elem_of_cons; [done|]. cbn. eapply d_lt_trans; [done|by apply Hlt].
  - destruct Hok as [Hs Hf]. apply StronglySorted_inv in Hs as [Hs Hfe]. apply Forall_cons in Hf as [? ?].
    split; constructor; done.
Qed.

Lemma elem_of_set_time t id entry e :
  e ∈ set_time t id entry -> e ∈ entry \/ e.2 = id /\ d_lt e.1 t = false /\ d_lt t e.1 = false.
Proof.
  induction entry as [|a entry IH]; cbn.
  - intros ->%list_elem_of_singleton. right. cbn. by rewrite !d_lt_irrefl.
  - destruct (d_lt a.1 t) eqn:E1; [|destruct (d_lt t a.1) eqn:E2].
    + intros [->|He]%elem_of_cons; [left; left|]. destruct (IH He) as [?|?]; [left; by right|by right].
    + intros [->|He]%elem_of_cons; [|by left]. right. cbn. by rewrite !d_lt_irrefl.
    + intros [->|He]%elem_of_cons; [by right|left; by right].
Qed.

Lemma set_time_has t id entry :
  exists e, e ∈ set_time t id entry /\ e.2 = id /\ d_lt e.1 t = false /\ d_lt t e.1 = false.
Proof.
  induction entry as [|a entry (e & He & ?)]; cbn.
  - exists (t, id). split; [left|]. cbn. by rewrite !d_lt_irrefl.
  - destruct (d_lt a.1 t) eqn:E1; [|destruct (d_lt t a.1) eqn:E2].
    + exists e. split; [by right|done].
    + exists (t, id). split; [left|]. cbn. by rewrite !d_lt_irrefl.
    + exists (a.1, id). split; [left|done].
Qed.

Lemma d_add_comm a b : d_add a b = d_add b a.
Proof.
  destruct a as [[]|[]| |[] m e], b as [[]|[]| |[] m' e']; try done; unfold d_add, SFadd; by rewrite Z.min_comm, Z.add_comm.
Qed.
