(* ===== verification/CentralServer.v ===== *)
(** * Central management of the intersections

    Model of [daisi/src/path_planning/consensus/central]: the server that knows all occupancies
    ([central_server.cpp]) and the participants that ask it ([central_participant.cpp]).
    Sockets, serialization and logging are not modelled; a message is handed to the other side. *)

From Stdlib Require Import SpecFloat.
From S2P Require Import Prelude TreeMapper Containers RouteCalculation.

#[export] Instance spec_float_eq_dec : EqDecision spec_float.
Proof. solve_decision. Defined.

(** The settings the server reads. *)
Record CentralSettings := {
  time_between_intersects : double;
  max_preplanning_time : double;
}.

(** A point of a request: x, y and the time relative to the start. *)
Abbreviation IntersectionTime := (float * float * double)%type.

Record Request := {
  request_id : Z;
  earliest_possible_start_ms : Z;
  intersection_times : list IntersectionTime;
}.

Record Response := {
  success : bool;
  response_id : Z;
  start_offset : double;
}.

(** ** The server *)
Module Server.

Definition setIntersections (intersections : list PPVector) : M IntersectionOccupancy unit :=
  for_each intersections (fun intersection => modify (assoc_assign PP_eqb intersection [])).

(** The points as they are checked: the time is narrowed to [float]. *)
Definition point_of (point : IntersectionTime) : Vector2D * double :=
  ({| x := double_of_float point.1.1; y := double_of_float point.1.2 |},
   double_of_float (float_of_double point.2)).

(** [intersection_occupancy_.at({x, y})[start + time] = 0] *)
Definition occupy (possible_start_s : double) (point : IntersectionTime) : M IntersectionOccupancy unit :=
  occupancy ← get;
  match assoc_find PP_eqb point.1 occupancy with
  | None => throw (out_of_range "unordered_map::at")
  | Some entry =>
      modify (assoc_assign PP_eqb point.1 (set_time (d_add possible_start_s point.2) 0 entry))
  end.

Definition processMessage (settings : CentralSettings) (request : Request) : M IntersectionOccupancy Response :=
  let earliest_start_s := d_div (d_of_Z (earliest_possible_start_ms request)) (d_of_Z 1000) in
  let points := map point_of (intersection_times request) in
  occupancy ← get;
  possible_start_s ← lift (calculatePossibleStartTime points earliest_start_s (max_preplanning_time settings)
                             (time_between_intersects settings) occupancy);
  if is_nan possible_start_s then
    mret {| success := false; response_id := request_id request; start_offset := d_of_Z 0 |}
  else
    for_each (intersection_times request) (occupy possible_start_s);;
    mret {| success := true; response_id := request_id request; start_offset := possible_start_s |}.
End Server.

(** ** A participant *)
Module Participant.

(** What became of a request. *)
Inductive Outcome := Succeeded (start_time : double) | Failed.

Record State := {
  next_request_id_ : Z;
  requests_ : gmap Z (list IntersectionTime);
  called_ : list (Z * Outcome);
  sent_ : list Request;
}.

Definition empty : State := {| next_request_id_ := 0; requests_ := ∅; called_ := []; sent_ := [] |}.

(** The conversion to [uint64_t] truncates; out of range it is undefined. *)
Definition u64_of_double (x : double) : outcome Z :=
  match x with
  | S754_zero _ => Ok 0
  | S754_finite s m e =>
      let magnitude := if 0 <=? e then Z.pos m * 2 ^ e else Z.pos m / 2 ^ (- e) in
      if if s then magnitude =? 0 else magnitude <? 2 ^ 64 then Ok magnitude else Undefined
  | _ => Undefined
  end.

(** [now_ms] is the simulation time. *)
Definition findConsensusImpl (points : PointTimePairs) (seconds_earliest_start : double) (now_ms : Z) : M State unit :=
  let intersections := map (fun point : Vector2D * double => (PP_of point.1, point.2)) points in
  s ← get;
  let id := next_request_id_ s in
  offset ← lift (u64_of_double (d_mul seconds_earliest_start (d_of_Z 1000)));
  let request := {| request_id := id; earliest_possible_start_ms := u64 (now_ms + offset);
                    intersection_times := intersections |} in
  modify (fun s => {| next_request_id_ := u32 (id + 1); requests_ := <[id := intersections]> (requests_ s);
                      called_ := called_ s; sent_ := sent_ s ++ [request] |}).

(** [requests_] is searched in an assertion only; the callback of an unknown request is an empty
    function. *)
Definition processMessage (response : Response) : M State unit :=
  s ← get;
  if bool_decide (requests_ s !! response_id response = None) then lift Undefined
  else
    let result := if success response then Succeeded (start_offset response) else Failed in
    modify (fun s => {| next_request_id_ := next_request_id_ s; requests_ := delete (response_id response) (requests_ s);
                        called_ := called_ s ++ [(response_id response, result)]; sent_ := sent_ s |}).
End Participant.

(** ** What the server grants *)

(** The numbers of a point survive the conversions of the server; the coordinates always do,
    the time when it is a [float]. *)
Definition point_exact (point : IntersectionTime) : bool :=
  bool_decide (PP_of (Server.point_of point).1 = point.1) &&
  bool_decide (double_of_float (float_of_double point.2) = point.2).

Lemma set_time_keeps t id entry e : e ∈ entry -> exists e', e' ∈ set_time t id entry /\ e'.1 = e.1.
Proof.
  induction entry as [|a entry IH]; [by intros ?%elem_of_nil|]. cbn. intros He.
  destruct (d_lt a.1 t); [|destruct (d_lt t a.1)].
  - apply elem_of_cons in He as [->|(e' & ? & ?)%IH]; [exists a; by split; [left|]|exists e'; by split; [right|]].
  - exists e. by split; [right|].
  - apply elem_of_cons in He as [->|He]; [exists (a.1, id); by split; [left|]|exists e; by split; [right|]].
Qed.

(** The intersection [p] is occupied at the time [t]. *)
Definition occupied (occupancy : IntersectionOccupancy) (p : PPVector) (t : double) : Prop :=
  exists entry e, assoc_find PP_eqb p occupancy = Some entry /\ e ∈ entry /\ d_lt e.1 t = false /\ d_lt t e.1 = false.

Lemma assign_keeps t id p entry occupancy q :
  assoc_find PP_eqb p occupancy = Some entry ->
  forall old, assoc_find PP_eqb q occupancy = Some old ->
  exists new, assoc_find PP_eqb q (assoc_assign PP_eqb p (set_time t id entry) occupancy) = Some new /\
    forall e, e ∈ old -> exists e', e' ∈ new /\ e'.1 = e.1.
Proof.
  induction occupancy as [|[k v] occupancy IH]; cbn; [done|].
  destruct (PP_eqb k p) eqn:Ep.
  - intros [= ->] old. cbn. destruct (PP_eqb k q).
    + intros [= ->]. eexists. split; [done|]. intros e. apply set_time_keeps.
    + intros ->. eexists. split; [done|]. intros e He. by exists e.
  - intros Hp old. cbn. destruct (PP_eqb k q); [|by apply IH].
    intros [= ->]. eexists. split; [done|]. intros e He. by exists e.
Qed.

Lemma assign_found {V} p (v v' : V) occupancy :
  assoc_find PP_eqb p occupancy = Some v' -> assoc_find PP_eqb p (assoc_assign PP_eqb p v occupancy) = Some v.
Proof.
  induction occupancy as [|[k w] occupancy IH]; cbn; [done|]. destruct (PP_eqb k p) eqn:E; cbn; rewrite E; [done|apply IH].
Qed.

Lemma occupy_occupied start point occupancy occupancy' :
  Server.occupy start point occupancy = (Ok tt, occupancy') ->
  occupied occupancy' point.1 (d_add start point.2) /\
  forall p t, occupied occupancy p t -> occupied occupancy' p t.
Proof.
  unfold Server.occupy. rewrite bind_get. destruct (assoc_find _ _ _) as [entry|] eqn:E; [|done].
  intros [= <-]. split.
  - destruct (set_time_has (d_add start point.2) 0 entry) as (e & He & _ & ?). exists (set_time (d_add start point.2) 0 entry), e.
    split; [by eapply assign_found|]. by split.
  - intros p t (old & e & Hf & He & Ht). destruct (assign_keeps (d_add start point.2) 0 _ _ _ p E old Hf) as (new & Hn & Hk).
    destruct (Hk e He) as (e' & ? & Heq). exists new, e'. rewrite Heq. by split.
Qed.

Lemma occupy_all start points occupancy occupancy' :
  for_each points (Server.occupy start) occupancy = (Ok tt, occupancy') ->
  (forall point, point ∈ points -> occupied occupancy' point.1 (d_add start point.2)) /\
  forall p t, occupied occupancy p t -> occupied occupancy' p t.
Proof.
  revert occupancy. induction points as [|point points IH]; intros occupancy; cbn [for_each].
  - intros [= <-]. split; [by intros ? ?%elem_of_nil|done].
  - intros ([] & mid & [Ho Hk]%occupy_occupied & [Ho' Hk']%IH)%bind_Ok. split; [|auto].
    intros p [->|Hp]%elem_of_cons; auto.
Qed.

(** C22: what the server grants is free, and taken from then on. When it grants a request whose
    times are [float]s, the vehicle conflicts at no intersection of its route with any vehicle
    granted before; its times are occupied afterwards, and so are all that were occupied. *)
Theorem grant_conflict_free settings request occupancy response occupancy' :
  occupancy_ok occupancy -> forallb point_exact (intersection_times request) = true ->
  Server.processMessage settings request occupancy = (Ok response, occupancy') -> success response = true ->
  (forall point entry k, point ∈ intersection_times request -> assoc_find PP_eqb point.1 occupancy = Some entry ->
     k ∈ entry -> conflict (time_between_intersects settings) (d_add (start_offset response) point.2) k.1 = false) /\
  (forall point, point ∈ intersection_times request ->
     occupied occupancy' point.1 (d_add (start_offset response) point.2)) /\
  (forall p t, occupied occupancy p t -> occupied occupancy' p t).
Proof.
  intros Hok Hex. unfold Server.processMessage. rewrite bind_get, bind_lift.
  destruct (calculatePossibleStartTime _ _ _ _ _) as [t| |] eqn:Et; [|done..].
  destruct (is_nan t) eqn:En; [by intros [= <- <-]|].
  intros ([] & mid & [Ho Hk]%occupy_all & Hret)%bind_Ok. injection Hret as <- <-. intros _. cbn. split; [|done].
  unfold calculatePossibleStartTime in Et. apply outcome_bind_Ok in Et as (whole & _ & (retries & _ & Et)%outcome_bind_Ok).
  destruct (first_possible _ _ _ _) as [t'|] eqn:Ef; [|by injection Et as <-].
  apply outcome_bind_Ok in Et as (_ & _ & [= ->]). apply first_possible_Some in Ef as (_ & _ & _ & Hp & _).
  apply possibleRoute_exact in Hp; [|done]. intros point entry k Hin Hf Hk'.
  rewrite forallb_forall in Hex. specialize (Hex point ltac:(by apply list_elem_of_In)).
  apply andb_prop in Hex as [E1%bool_decide_eq_true E2%bool_decide_eq_true].
  specialize (Hp (Server.point_of point) entry k). rewrite E1 in Hp.
  change (Server.point_of point).2 with (double_of_float (float_of_double point.2)) in Hp. rewrite E2, d_add_comm in Hp.
  apply Hp; [|done..]. apply list_elem_of_fmap. by exists point.
Qed.

(** ** Examples *)

Definition seconds (n d : Z) : double := d_div (d_of_Z n) (d_of_Z d).
Definition crossing (t : double) : IntersectionTime := (S754_zero false, S754_zero false, t).
Definition one_intersection : IntersectionOccupancy := [((S754_zero false, S754_zero false), [])].
Definition gap_settings : CentralSettings :=
  {| time_between_intersects := seconds 1 100; max_preplanning_time := d_of_Z 1 |}.
Definition ask_for (id : Z) (t : double) : Request :=
  {| request_id := id; earliest_possible_start_ms := 0; intersection_times := [crossing t] |}.
Definition granted (settings : CentralSettings) (request : Request) (occupancy : IntersectionOccupancy)
    : option (double * IntersectionOccupancy) :=
  match Server.processMessage settings request occupancy with
  | (Ok response, occupancy') => if success response then Some (start_offset response, occupancy') else None
  | _ => None
  end.

(** Two vehicles can be granted conflicting times. The server checks the times of a request
    rounded to [float] and enters them as [double]s: two vehicles that reach one intersection
    a tenth of a second after their start are let through a hundredth of a second apart, the
    minimal gap itself, which the server means to exclude. *)
Theorem rounding_breaks_grants :
  let t := seconds 1 10 in
  exists start1 occupancy1 start2 occupancy2,
    granted gap_settings (ask_for 0 t) one_intersection = Some (start1, occupancy1) /\
    granted gap_settings (ask_for 1 t) occupancy1 = Some (start2, occupancy2) /\
    conflict (time_between_intersects gap_settings) (d_add start1 t) (d_add start2 t) = true.
Proof.
  intros t.
  assert (Hc : match granted gap_settings (ask_for 0 t) one_intersection with
    | Some (start1, occupancy1) => match granted gap_settings (ask_for 1 t) occupancy1 with
      | Some (start2, _) => conflict (time_between_intersects gap_settings) (d_add start1 t) (d_add start2 t)
      | None => false end
    | None => false end = true) by (vm_compute; reflexivity).
  destruct (granted _ (ask_for 0 t) _) as [[start1 occupancy1]|] eqn:E1; [|done].
  destruct (granted _ (ask_for 1 t) _) as [[start2 occupancy2]|] eqn:E2; [|done].
  exists start1, occupancy1, start2, occupancy2. split; [reflexivity|]. split; [exact E2|exact Hc].
Qed.

(** With times that are [float]s. *)
Definition after_first : IntersectionOccupancy :=
  from_option snd [] (granted gap_settings (ask_for 0 (seconds 1 2)) one_intersection).

Lemma after_first_ok : occupancy_ok after_first.
Proof.
  assert (E : after_first = [((S754_zero false, S754_zero false), [(seconds 1 2, 0)])]) by (vm_compute; reflexivity).
  rewrite E. repeat constructor.
Qed.

Definition second_answer : outcome Response * IntersectionOccupancy :=
  Server.processMessage gap_settings (ask_for 1 (seconds 1 2)) after_first.

Lemma grant_conflict_free_witness : exists response occupancy',
  second_answer = (Ok response, occupancy') /\
  occupied occupancy' (S754_zero false, S754_zero false) (d_add (start_offset response) (seconds 1 2)).
Proof.
  assert (Hs : match second_answer with (Ok response, _) => success response | _ => false end = true)
    by (vm_compute; reflexivity).
  destruct second_answer as [[response| |] occupancy'] eqn:E; [|discriminate Hs..].
  exists response, occupancy'. split; [reflexivity|].
  destruct (grant_conflict_free gap_settings (ask_for 1 (seconds 1 2)) after_first response occupancy'
    after_first_ok ltac:(vm_compute; reflexivity) E Hs) as (_ & Ho & _).
  apply (Ho (crossing (seconds 1 2))). left.
Defined.

Definition one_point : PointTimePairs := [({| x := S754_zero false; y := S754_zero false |}, seconds 1 2)].
Definition found_start : outcome double :=
  calculatePossibleStartTime one_point (d_of_Z 0) (d_of_Z 1) (seconds 1 100) after_first.

Lemma start_time_earliest_witness : exists t,
  found_start = Ok t /\ free_route one_point t (seconds 1 100) after_first.
Proof.
  assert (Hs : match found_start with Ok t => negb (is_nan t) | _ => false end = true) by (vm_compute; reflexivity).
  destruct found_start as [t| |] eqn:E; [|discriminate Hs..]. exists t. split; [reflexivity|].
  apply negb_true_iff in Hs.
  pose proof (start_time_earliest one_point (d_of_Z 0) (d_of_Z 1) (seconds 1 100) after_first t 1000 after_first_ok
    ltac:(vm_compute; reflexivity)) as Ht.
  rewrite Hs in Ht. apply Ht; [|exact E]. intros j Hj. apply negb_true_iff.
  apply (forallb_elem (fun j => negb (is_nan (start_time (d_of_Z 0) j))) (zrange 0 1000));
    [vm_compute; reflexivity|by apply elem_of_zrange].
Defined.

Lemma possiblePoint_exact_witness :
  conflict (seconds 1 100) (d_add (seconds 1 2) (d_of_Z 1)) (seconds 1 2) = false.
Proof.
  apply (possiblePoint_exact (d_of_Z 1) (seconds 1 100) after_first ({| x := S754_zero false; y := S754_zero false |}, seconds 1 2))
    with (entry := [(seconds 1 2, 0)]) (k := (seconds 1 2, 0)).
  - intros entry. apply occupancy_ok_find, after_first_ok.
  - vm_compute. reflexivity.
  - vm_compute. reflexivity.
  - left.
Defined.

(** ** The requests of a participant *)

(** A participant calls back exactly once for a request. Asking enters the request under a new
    id and sends it; the first response to it calls the callback that belongs to it with what
    the server said and forgets it; a second response fails the assertion. *)
Theorem request_answered_once points seconds_earliest now_ms s s1 response s2 :
  Participant.requests_ s !! Participant.next_request_id_ s = None ->
  Participant.findConsensusImpl points seconds_earliest now_ms s = (Ok tt, s1) ->
  response_id response = Participant.next_request_id_ s ->
  Participant.processMessage response s1 = (Ok tt, s2) ->
  (exists request, Participant.sent_ s1 = Participant.sent_ s ++ [request] /\
     request_id request = response_id response /\ map fst (intersection_times request) = map PP_of points.*1) /\
  Participant.called_ s2 = Participant.called_ s ++
    [(response_id response, if success response then Participant.Succeeded (start_offset response) else Participant.Failed)] /\
  Participant.requests_ s2 = Participant.requests_ s /\
  forall response', response_id response' = response_id response ->
    Participant.processMessage response' s2 = (Undefined, s2).
Proof.
  intros Hnew. unfold Participant.findConsensusImpl. rewrite bind_get, bind_lift.
  destruct (Participant.u64_of_double _) as [offset| |]; [|done..]. intros [= <-] Hid.
  unfold Participant.processMessage. rewrite bind_get. cbn. rewrite Hid, lookup_insert_eq. cbn.
  intros [= <-]. cbn. split_and!.
  - eexists. split; [done|]. cbn. split; [done|]. change (points.*1) with (map fst points). by rewrite !map_map.
  - done.
  - by rewrite delete_insert_id.
  - intros response' ->. unfold Participant.processMessage. rewrite bind_get. cbn. by rewrite lookup_delete_eq.
Qed.

Lemma request_answered_once_witness : exists s1 s2,
  Participant.findConsensusImpl one_point (seconds 1 2) 1000 Participant.empty = (Ok tt, s1) /\
  Participant.processMessage {| success := false; response_id := 0; start_offset := d_of_Z 0 |} s1 = (Ok tt, s2) /\
  Participant.called_ s2 = [(0, Participant.Failed)].
Proof.
  set (s1 := (Participant.findConsensusImpl one_point (seconds 1 2) 1000 Participant.empty).2).
  set (response := {| success := false; response_id := 0; start_offset := d_of_Z 0 |}).
  set (s2 := (Participant.processMessage response s1).2).
  assert (E1 : Participant.findConsensusImpl one_point (seconds 1 2) 1000 Participant.empty = (Ok tt, s1))
    by (vm_compute; reflexivity).
  assert (E2 : Participant.processMessage response s1 = (Ok tt, s2)) by (vm_compute; reflexivity).
  exists s1, s2. split; [exact E1|]. split; [exact E2|].
  exact (proj1 (proj2 (request_answered_once one_point (seconds 1 2) 1000 Participant.empty s1 response s2
    eq_refl E1 eq_refl E2))).
Defined.
