(* ===== verification/Paxos.v ===== *)
(** * Consensus on the occupancy of intersections

    Model of [daisi/src/path_planning/consensus/paxos]: every participant is proposer
    ([paxos_proposer.cpp]) and acceptor ([paxos_acceptor.cpp]) over one container
    ([paxos_data.h]); [paxos_consensus.cpp] hands it the messages of the topic, and
    [paxos_replication_manager.cpp] keeps the ledger. Of SOLA and ns-3 the messages published,
    the pending timeouts and the callbacks called are kept; logging is not modelled. *)

From Stdlib Require Import SpecFloat.
From S2P Require Import Prelude TreeMapper Containers RouteCalculation.

(** ** Data *)

(** [IntersectionTimeInfo] *)
Abbreviation IntersectionTimeInfo := (PPVector * double)%type.
(** Proposal id and station id. *)
Abbreviation RequestID := (Z * Z)%type.

(** [operator>] of [std::pair] *)
Definition request_gtb (a b : RequestID) : bool := (b.1 <? a.1) || (b.1 =? a.1) && (b.2 <? a.2).

Inductive PaxosMessage :=
| PrepareMessage (instance_id prepare_id station_id : Z)
| PromiseMessage (instance_id prepare_id station_id : Z) (already_accepted : bool)
    (accepted_prepare_id accepted_station_id : Z)
| OKMessage (instance_id proposal_id station_id sender_station : Z)
| AcceptMessage (instance_id proposal_id station_id : Z) (intersections : list IntersectionTimeInfo)
| ResponseMessage (instance_id proposal_id station_id : Z).

Record ReplicationMessage := {
  rm_instance_id : Z;
  rm_proposal_id : Z;
  rm_station_id : Z;
}.

(** The settings the algorithm reads. *)
Record PaxosSettings := {
  replication : bool;
  number_paxos_participants : Z;
  time_delta_intersections : double;
  max_preplanning_time : double;
}.

Record AcceptedProposal := {
  ap_instance : Z;
  ap_proposal : Z;
  ap_station : Z;
  ap_data : list IntersectionTimeInfo;
}.
Definition no_accepted : AcceptedProposal :=
  {| ap_instance := 0; ap_proposal := 0; ap_station := 0; ap_data := [] |}.
Definition accepted_initialized (p : AcceptedProposal) : bool := negb (bool_decide (ap_data p = [])).

(** [PaxosContainer] *)
Record PaxosContainer := {
  node_id : Z;
  settings : PaxosSettings;
  instance_to_promised : gmap Z RequestID;
  accepted_data_current_instance : AcceptedProposal;
  finally_accepted_data : list (list IntersectionTimeInfo);
  agreed_data : IntersectionOccupancy;
}.

(** [PaxosProposer::Proposal]; the event is the number of a pending timeout. *)
Inductive Phase := kNone | kPrepare | kAccept | kFinished.

Record Proposal := {
  points : PointTimePairs;
  start_time : double;
  p_instance : Z;
  p_proposal : Z;
  needed_for_quorum : Z;
  outstanding_oks : Z;
  timeout_event : option Z;
  phase : Phase;
  has_callbacks : bool;
}.
Definition no_proposal : Proposal :=
  {| points := []; start_time := S754_zero false; p_instance := 0; p_proposal := 0; needed_for_quorum := 0;
     outstanding_oks := 0; timeout_event := None; phase := kNone; has_callbacks := false |}.
Definition proposal_initialized (p : Proposal) : bool := negb (Nat.eqb (length (points p)) 0).

Definition set_needed v (p : Proposal) :=
  let '(Build_Proposal a b c d _ f g h i) := p in Build_Proposal a b c d v f g h i.
Definition set_outstanding v (p : Proposal) :=
  let '(Build_Proposal a b c d e _ g h i) := p in Build_Proposal a b c d e v g h i.
Definition set_timeout_event v (p : Proposal) :=
  let '(Build_Proposal a b c d e f _ h i) := p in Build_Proposal a b c d e f v h i.
Definition set_phase v (p : Proposal) :=
  let '(Build_Proposal a b c d e f g _ i) := p in Build_Proposal a b c d e f g v i.

Record ProposerState := {
  remaining_responses_ : Z;
  current_proposal_ : Proposal;
  instance_to_proposal_id_ : gmap Z Z;
}.

Record AlreadyReceivedOKS := {
  ar_instance : Z;
  ar_proposal : Z;
  ar_station : Z;
  already_received : Z;
}.

Record AcceptorState := {
  current_accepted_instance_ : Z;
  current_accepted_proposal_id_ : Z;
  current_accepted_station_ : Z;
  remaining_oks_ : Z;
  already_received_ : list AlreadyReceivedOKS;
}.

(** A callback that was called, with the proposal it belongs to. *)
Inductive Called :=
| SuccessCallback (instance proposal : Z) (start : double)
| FailCallback (proposal : option Z).

(** What a participant has done to its surroundings. Pending timeouts are numbered events for a
    proposal id. *)
Record Surroundings := {
  published_ : list PaxosMessage;
  replicated_ : list ReplicationMessage;
  called_ : list Called;
  timeouts_ : list (Z * Z);
  next_event_ : Z;
}.

(** [PaxosConsensus] *)
Record PaxosNode := {
  container : PaxosContainer;
  proposer : ProposerState;
  acceptor : AcceptorState;
  around : Surroundings;
}.

Definition set_container v n := {| container := v; proposer := proposer n; acceptor := acceptor n; around := around n |}.
Definition set_proposer v n := {| container := container n; proposer := v; acceptor := acceptor n; around := around n |}.
Definition set_acceptor v n := {| container := container n; proposer := proposer n; acceptor := v; around := around n |}.
Definition set_around v n := {| container := container n; proposer := proposer n; acceptor := acceptor n; around := v |}.

Definition set_promised v (c : PaxosContainer) :=
  let '(Build_PaxosContainer a b _ d e f) := c in Build_PaxosContainer a b v d e f.
Definition set_accepted v (c : PaxosContainer) :=
  let '(Build_PaxosContainer a b p _ e f) := c in Build_PaxosContainer a b p v e f.
Definition set_finally v (c : PaxosContainer) :=
  let '(Build_PaxosContainer a b p d _ f) := c in Build_PaxosContainer a b p d v f.
Definition set_agreed v (c : PaxosContainer) :=
  let '(Build_PaxosContainer a b p d e _) := c in Build_PaxosContainer a b p d e v.
Definition set_remaining_responses v (p : ProposerState) :=
  let '(Build_ProposerState _ b c) := p in Build_ProposerState v b c.
Definition set_current_proposal v (p : ProposerState) :=
  let '(Build_ProposerState a _ c) := p in Build_ProposerState a v c.
Definition set_proposal_ids v (p : ProposerState) :=
  let '(Build_ProposerState a b _) := p in Build_ProposerState a b v.
Definition set_remaining_oks v (a : AcceptorState) :=
  let '(Build_AcceptorState i p s _ l) := a in Build_AcceptorState i p s v l.
Definition set_already_received v (a : AcceptorState) :=
  let '(Build_AcceptorState i p s r _) := a in Build_AcceptorState i p s r v.
Definition set_current_accepted (v : Z * Z * Z) (a : AcceptorState) :=
  let '(Build_AcceptorState _ _ _ r l) := a in Build_AcceptorState v.1.1 v.1.2 v.2 r l.
Definition set_published v (o : Surroundings) :=
  let '(Build_Surroundings _ b c d e) := o in Build_Surroundings v b c d e.
Definition set_replicated v (o : Surroundings) :=
  let '(Build_Surroundings a _ c d e) := o in Build_Surroundings a v c d e.
Definition set_called v (o : Surroundings) :=
  let '(Build_Surroundings a b _ d e) := o in Build_Surroundings a b v d e.
Definition set_timeouts v (o : Surroundings) :=
  let '(Build_Surroundings a b c _ e) := o in Build_Surroundings a b c v e.
Definition set_next_event v (o : Surroundings) :=
  let '(Build_Surroundings a b c d _) := o in Build_Surroundings a b c d v.

(** The constructor. *)
Definition initial_PaxosNode (id : Z) (s : PaxosSettings) : PaxosNode := {|
  container := {| node_id := id; settings := s; instance_to_promised := ∅;
                  accepted_data_current_instance := no_accepted; finally_accepted_data := []; agreed_data := [] |};
  proposer := {| remaining_responses_ := 0; current_proposal_ := no_proposal; instance_to_proposal_id_ := ∅ |};
  acceptor := {| current_accepted_instance_ := UINT32_MAX; current_accepted_proposal_id_ := UINT32_MAX;
                 current_accepted_station_ := UINT32_MAX; remaining_oks_ := 0; already_received_ := [] |};
  around := {| published_ := []; replicated_ := []; called_ := []; timeouts_ := []; next_event_ := 0 |};
|}.

(** ** Access *)

Definition on_container (f : PaxosContainer -> PaxosContainer) : M PaxosNode unit :=
  modify (fun n => set_container (f (container n)) n).
Definition on_proposer (f : ProposerState -> ProposerState) : M PaxosNode unit :=
  modify (fun n => set_proposer (f (proposer n)) n).
Definition on_proposal (f : Proposal -> Proposal) : M PaxosNode unit :=
  on_proposer (fun p => set_current_proposal (f (current_proposal_ p)) p).
Definition on_acceptor (f : AcceptorState -> AcceptorState) : M PaxosNode unit :=
  modify (fun n => set_acceptor (f (acceptor n)) n).
Definition on_around (f : Surroundings -> Surroundings) : M PaxosNode unit :=
  modify (fun n => set_around (f (around n)) n).

Definition promise_to (instance : Z) (request : RequestID) : M PaxosNode unit :=
  on_container (fun c => set_promised (<[instance := request]> (instance_to_promised c)) c).

(** [container_->instance_to_promised[instance]], which enters a missing instance. *)
Definition promised_at (instance : Z) : M PaxosNode RequestID :=
  n ← get;
  match instance_to_promised (container n) !! instance with
  | Some request => mret request
  | None => promise_to instance (0, 0);; mret (0, 0)
  end.

(** [instance_to_proposal_id_[instance]], likewise *)
Definition proposal_id_at (instance : Z) : M PaxosNode Z :=
  n ← get;
  match instance_to_proposal_id_ (proposer n) !! instance with
  | Some id => mret id
  | None => on_proposer (fun p => set_proposal_ids (<[instance := 0]> (instance_to_proposal_id_ p)) p);; mret 0
  end.

(** [container_->sola->publishMessage(kPaxosTopic, msg)]: the publisher does not get it. *)
Definition publishMessage (msg : PaxosMessage) : M PaxosNode unit :=
  on_around (fun o => set_published (published_ o ++ [msg]) o).

(** [ns3::Simulator::Schedule], in 500 ms *)
Definition schedule (proposal_id : Z) : M PaxosNode Z :=
  n ← get;
  let event := next_event_ (around n) in
  on_around (fun o => set_next_event (event + 1) (set_timeouts (timeouts_ o ++ [(event, proposal_id)]) o));;
  mret event.

(** [ns3::Simulator::Cancel] *)
Definition cancel (event : option Z) : M PaxosNode unit :=
  on_around (fun o => set_timeouts (List.filter (fun t => negb (bool_decide (Some t.1 = event))) (timeouts_ o)) o).

Definition call_fail (proposal : option Z) : M PaxosNode unit :=
  on_around (fun o => set_called (called_ o ++ [FailCallback proposal]) o).

(** The accepted data become an instance. *)
Definition push_accepted : M PaxosNode unit :=
  on_container (fun c => set_finally (finally_accepted_data c ++ [ap_data (accepted_data_current_instance c)]) c).

Section Participants.
(** [getAllIntersections().count(point) == 1], on the ordered set of ns-3 vectors *)
Variable known_intersection : Vector2D -> bool.

Definition check (b : bool) (what : string) : M PaxosNode unit := throw_if (negb b) (runtime_error what).

(** [agreed_data[intersection][time] = node_id] *)
Definition agree_on (intersection : PPVector) (time : double) : M PaxosNode unit :=
  on_container (fun c =>
    let entry := from_option id [] (assoc_find PP_eqb intersection (agreed_data c)) in
    set_agreed (assoc_assign PP_eqb intersection (set_time time (node_id c) entry) (agreed_data c)) c).

(** ** [PaxosProposer] *)

Definition calculatePossibleStartTime (points : PointTimePairs) (seconds_till_start : double) (now_ms : Z)
    (n : PaxosNode) : outcome double :=
  let earliest_start_s :=
    d_div (d_add (d_of_Z now_ms) (d_mul seconds_till_start (d_of_Z 1000))) (d_of_Z 1000) in
  RouteCalculation.calculatePossibleStartTime points earliest_start_s
    (max_preplanning_time (settings (container n))) (time_delta_intersections (settings (container n)))
    (agreed_data (container n)).

Definition findConsensus (points : PointTimePairs) (seconds_till_start : double) (now_ms : Z) : M PaxosNode unit :=
  n ← get;
  possible_start_s ← lift (calculatePossibleStartTime points seconds_till_start now_ms n);
  if is_nan possible_start_s then call_fail None
  else
    let instance := u32 (Z.of_nat (length (finally_accepted_data (container n)))) in
    proposal_id ← proposal_id_at instance;
    on_proposer (fun p => set_proposal_ids (<[instance := u32 (proposal_id + 1)]> (instance_to_proposal_id_ p)) p);;
    event ← schedule proposal_id;
    let others := u32 (u64 (number_paxos_participants (settings (container n)) - 1)) in
    check (negb (proposal_initialized (current_proposal_ (proposer n))))
      "We cannot start a new proposal while one proposal of ourselves is still running";;
    on_proposal (fun _ =>
      {| points := points; start_time := possible_start_s; p_instance := instance; p_proposal := proposal_id;
         needed_for_quorum := others; outstanding_oks := others; timeout_event := Some event; phase := kPrepare;
         has_callbacks := true |});;
    let station := node_id (container n) in
    let prepare := (proposal_id, station) in
    let may_promise :=
      match instance_to_promised (container n) !! instance with
      | None => true
      | Some promised => request_gtb prepare promised
      end in
    if (may_promise : bool) then
      promise_to instance prepare;;
      publishMessage (PrepareMessage instance proposal_id station)
    else mret tt.

Definition prepareTimeout (proposal_id : Z) : M PaxosNode unit :=
  n ← get;
  let current := current_proposal_ (proposer n) in
  if negb (proposal_initialized current) || negb (p_proposal current =? proposal_id) then mret tt
  else if negb (needed_for_quorum current =? 0) || negb (outstanding_oks current =? 0) then
    call_fail (Some (p_proposal current));;
    on_proposal (fun _ => no_proposal)
  else mret tt.

(** The quorum is there: the accept phase begins. *)
Definition start_accept_phase (instance_id prepare_id station_id : Z) : M PaxosNode unit :=
  on_proposal (set_phase kAccept);;
  n ← get;
  cancel (timeout_event (current_proposal_ (proposer n)));;
  event ← schedule (p_proposal (current_proposal_ (proposer n)));
  on_proposal (set_timeout_event (Some event));;
  promised ← promised_at instance_id;
  if negb (bool_decide ((prepare_id, station_id) = promised)) then mret tt
  else
    n ← get;
    let current := current_proposal_ (proposer n) in
    let self := node_id (container n) in
    let info := map (fun entry : Vector2D * double => (PP_of entry.1, entry.2)) (points current) in
    on_container (set_accepted
      {| ap_instance := p_instance current; ap_proposal := p_proposal current; ap_station := self; ap_data := info |});;
    let intersects :=
      map (fun point : Vector2D * double => (PP_of point.1, d_add point.2 (start_time current))) (points current) in
    on_proposer (set_remaining_responses (u32 (number_paxos_participants (settings (container n)))));;
    publishMessage (AcceptMessage (p_instance current) (p_proposal current) self intersects).

Definition processPromiseMessage (instance_id prepare_id station_id : Z) (already_accepted : bool)
    (accepted_prepare_id : Z) : M PaxosNode unit :=
  n ← get;
  let current := current_proposal_ (proposer n) in
  if negb (station_id =? node_id (container n)) then mret tt
  else if negb (proposal_initialized current) || (needed_for_quorum current =? 0) then mret tt
  else
    (if already_accepted then
       id ← proposal_id_at instance_id;
       if id <? accepted_prepare_id then
         on_proposer (fun p =>
           set_proposal_ids (<[instance_id := u32 (accepted_prepare_id + 1)]> (instance_to_proposal_id_ p)) p)
       else mret tt
     else mret tt);;
    let needed := needed_for_quorum current - 1 in
    on_proposal (set_needed needed);;
    if needed =? 0 then start_accept_phase instance_id prepare_id station_id else mret tt.

(** Only the station is looked at. *)
Definition processResponseMessage (station_id : Z) : M PaxosNode unit :=
  n ← get;
  if negb (station_id =? node_id (container n)) then mret tt
  else
    let remaining := u32 (remaining_responses_ (proposer n) - 1) in
    on_proposer (set_remaining_responses remaining);;
    if remaining =? 0 then
      on_proposal (set_phase kFinished);;
      let current := current_proposal_ (proposer n) in
      throw_if (negb (has_callbacks current)) bad_function_call;;
      on_around (fun o =>
        set_called (called_ o ++ [SuccessCallback (p_instance current) (p_proposal current) (start_time current)]) o);;
      cancel (timeout_event current);;
      on_proposal (fun _ => no_proposal)
    else mret tt.

Definition proposer_processOKMessage (station_id : Z) : M PaxosNode unit :=
  n ← get;
  if negb (station_id =? node_id (container n)) then mret tt
  else
    let outstanding := u32 (outstanding_oks (current_proposal_ (proposer n)) - 1) in
    on_proposal (set_outstanding outstanding);;
    if outstanding =? 0 then
      processResponseMessage station_id;;
      push_accepted;;
      on_container (set_accepted no_accepted);;
      n ← get;
      let current := current_proposal_ (proposer n) in
      for_each (points current) (fun point =>
        check (known_intersection point.1) "Invalid point";;
        agree_on (PP_of point.1) (d_add point.2 (start_time current)))
    else mret tt.

(** ** [PaxosAcceptor] *)

Definition processPrepareMessage (instance_id prepare_id station_id : Z) : M PaxosNode unit :=
  n ← get;
  let c := container n in
  let prepare := (prepare_id, station_id) in
  let may_promise :=
    match instance_to_promised c !! instance_id with
    | None => true
    | Some promised => request_gtb prepare promised
    end in
  if (may_promise : bool) then
    promise_to instance_id prepare;;
    let current_instance := u32 (Z.of_nat (length (finally_accepted_data c))) in
    let accepted := accepted_data_current_instance c in
    let promise :=
      if (current_instance =? instance_id) && accepted_initialized accepted
      then PromiseMessage instance_id prepare_id station_id true (ap_proposal accepted) (ap_station accepted)
      else PromiseMessage instance_id prepare_id station_id false 0 0 in
    if instance_id <? current_instance then mret tt else publishMessage promise
  else mret tt.

Definition sendResponseMessage : M PaxosNode unit :=
  push_accepted;;
  n ← get;
  let a := acceptor n in
  let instance := current_accepted_instance_ a in
  let proposal := current_accepted_proposal_id_ a in
  let station := current_accepted_station_ a in
  throw_if (negb (Z.of_nat (length (finally_accepted_data (container n))) - 1 =? instance))
    (runtime_error "incorrect size");;
  on_container (set_accepted no_accepted);;
  for_each (from_option id [] (last (finally_accepted_data (container n)))) (fun point =>
    check (known_intersection {| x := double_of_float point.1.1; y := double_of_float point.1.2 |}) "Invalid point";;
    agree_on point.1 point.2);;
  (if replication (settings (container n)) then
     on_around (fun o => set_replicated
       (replicated_ o ++ [{| rm_instance_id := instance; rm_proposal_id := proposal; rm_station_id := station |}]) o)
   else mret tt);;
  promise_to instance (UINT32_MAX, UINT32_MAX);;
  on_acceptor (set_current_accepted (UINT32_MAX, UINT32_MAX, UINT32_MAX));;
  publishMessage (ResponseMessage instance proposal station).

Definition ok_for (instance_id proposal_id station_id : Z) (ok : AlreadyReceivedOKS) : bool :=
  (ar_proposal ok =? proposal_id) && (ar_instance ok =? instance_id) && (ar_station ok =? station_id).

Definition processAcceptMessage (instance_id proposal_id station_id : Z)
    (intersections : list IntersectionTimeInfo) : M PaxosNode unit :=
  promised ← promised_at instance_id;
  if negb (bool_decide ((proposal_id, station_id) = promised)) then mret tt
  else
    (if bool_decide (intersections = []) then lift Undefined else mret tt);;
    on_container (set_accepted
      {| ap_instance := instance_id; ap_proposal := proposal_id; ap_station := station_id; ap_data := intersections |});;
    n ← get;
    on_acceptor (set_current_accepted (instance_id, proposal_id, station_id));;
    let remaining := u32 (u64 (number_paxos_participants (settings (container n)) - 2)) in
    let received := already_received_ (acceptor n) in
    let remaining := match find_index (ok_for instance_id proposal_id station_id) received with
                     | Some i => u32 (remaining - from_option already_received 0 (received !! i))
                     | None => remaining
                     end in
    on_acceptor (set_remaining_oks remaining);;
    on_acceptor (set_already_received
      match find_index (ok_for instance_id proposal_id station_id) received with
      | Some i => list_delete i received
      | None => received
      end);;
    publishMessage (OKMessage instance_id proposal_id station_id (node_id (container n)));;
    if remaining =? 0 then sendResponseMessage else mret tt.

(** An OK for a proposal that is not the accepted one is remembered. *)
Definition remember_ok (instance_id proposal_id station_id : Z) : M PaxosNode unit :=
  n ← get;
  let received := already_received_ (acceptor n) in
  match find_index (ok_for instance_id proposal_id station_id) received with
  | Some i =>
      let count := u32 (from_option already_received 0 (received !! i) + 1) in
      on_acceptor (set_already_received
        (<[i := {| ar_instance := instance_id; ar_proposal := proposal_id; ar_station := station_id;
                   already_received := count |}]> received));;
      if count <=? 6 then mret tt else lift Undefined
  | None =>
      on_acceptor (set_already_received
        (received ++ [{| ar_instance := instance_id; ar_proposal := proposal_id; ar_station := station_id;
                         already_received := 1 |}]))
  end.

Definition acceptor_processOKMessage (instance_id proposal_id station_id : Z) : M PaxosNode unit :=
  n ← get;
  let accepted := accepted_data_current_instance (container n) in
  let a := acceptor n in
  if station_id =? node_id (container n) then mret tt
  else if negb (accepted_initialized accepted) || negb (ap_instance accepted =? instance_id) ||
          negb (ap_proposal accepted =? proposal_id) || negb (ap_station accepted =? station_id)
  then remember_ok instance_id proposal_id station_id
  else
    throw_if (negb (instance_id =? current_accepted_instance_ a) ||
              negb (proposal_id =? current_accepted_proposal_id_ a) ||
              negb (station_id =? current_accepted_station_ a)) (runtime_error "values not equal");;
    let remaining := u32 (remaining_oks_ a - 1) in
    on_acceptor (set_remaining_oks remaining);;
    if remaining =? 0 then sendResponseMessage else mret tt.

(** ** [PaxosConsensus::processPaxosMessage] *)
Definition processPaxosMessage (msg : PaxosMessage) : M PaxosNode unit :=
  match msg with
  | PrepareMessage instance prepare station => processPrepareMessage instance prepare station
  | AcceptMessage instance proposal station intersections =>
      processAcceptMessage instance proposal station intersections
  | PromiseMessage instance prepare station accepted accepted_prepare _ =>
      processPromiseMessage instance prepare station accepted accepted_prepare
  | ResponseMessage _ _ station => processResponseMessage station
  | OKMessage instance proposal station _ =>
      proposer_processOKMessage station;;
      acceptor_processOKMessage instance proposal station
  end.

End Participants.

(** ** [PaxosReplicationManager] *)
Module Replication.

Record Data := {
  proposal_id : Z;
  station_id : Z;
}.
Record State := {
  participants : Z;
  log_ : gmap Z Data;
  outstanding_data_ : gmap (Z * Z * Z) (Data * Z);
}.

Definition processReplicationMessage (msg : ReplicationMessage) : M State unit :=
  s ← get;
  throw_if (bool_decide (is_Some (log_ s !! rm_instance_id msg)))
    (runtime_error "already accepted for this instance! Duplicate message");;
  let key := (rm_instance_id msg, rm_proposal_id msg, rm_station_id msg) in
  match outstanding_data_ s !! key with
  | Some (data, remaining) =>
      let remaining := u32 (remaining - 1) in
      if remaining =? 0 then
        modify (fun _ => {| participants := participants s; log_ := <[rm_instance_id msg := data]> (log_ s);
               outstanding_data_ := delete key (outstanding_data_ s) |})
      else
        modify (fun _ => {| participants := participants s; log_ := log_ s;
               outstanding_data_ := <[key := (data, remaining)]> (outstanding_data_ s) |})
  | None =>
      let data := {| proposal_id := rm_proposal_id msg; station_id := rm_station_id msg |} in
      modify (fun _ => {| participants := participants s; log_ := log_ s;
             outstanding_data_ := <[key := (data, u32 (u64 (participants s - 2)))]> (outstanding_data_ s) |})
  end.
End Replication.
