(* ===== verification/PaxosSafety.v ===== *)
(** * Agreement among the participants

    A network of participants ([Paxos.v]) as a step relation: a message in flight is delivered,
    once, or lost, in any order; a participant is asked for a route; a timeout fires. Two participants
    that commit an instance commit the same proposal with the same data, as long as promises do
    not outlive the proposal they were given for; without that they can disagree. *)

From Stdlib Require Import SpecFloat.
From S2P Require Import Prelude TreeMapper Containers RouteCalculation Paxos.

Section Network.
Variable known_intersection : Vector2D -> bool.

(** ** The step relation *)

(** [in_flight]: receivers and messages on their way; [delivered]: those that were received. *)
Record PaxosNetwork := {
  nodes : gmap Z PaxosNode;
  in_flight : list (Z * PaxosMessage);
  delivered : list (Z * PaxosMessage);
}.

(** What was published is on its way to all others. *)
Definition broadcast (from : Z) (others : gmap Z PaxosNode) (msgs : list PaxosMessage) : list (Z * PaxosMessage) :=
  m ← msgs; to ← filter (fun id => id <> from) (map_to_list others).*1; [(to, m)].

Definition newly_published (n n' : PaxosNode) : list PaxosMessage :=
  drop (length (published_ (around n))) (published_ (around n')).

(** The node [id] becomes [n']. *)
Definition update (id : Z) (n n' : PaxosNode) (net : PaxosNetwork) : PaxosNetwork :=
  {| nodes := <[id := n']> (nodes net);
     in_flight := in_flight net ++ broadcast id (nodes net) (newly_published n n');
     delivered := delivered net |}.

(** A promise that is counted belongs to the current proposal. The proposal ids do not reach the
    largest [uint32_t]. *)
Definition timely (n : PaxosNode) (m : PaxosMessage) : Prop :=
  match m with
  | PromiseMessage instance prepare station _ accepted_prepare _ =>
      accepted_prepare < UINT32_MAX /\
      let current := current_proposal_ (proposer n) in
      (station = node_id (container n) -> proposal_initialized current = true -> needed_for_quorum current <> 0 ->
       p_instance current = instance /\ p_proposal current = prepare)
  | _ => True
  end.

(** The next id of a proposal for the instance a route would be asked in. *)
Definition next_proposal_id (n : PaxosNode) : Z :=
  from_option id 0
    (instance_to_proposal_id_ (proposer n) !! u32 (Z.of_nat (length (finally_accepted_data (container n))))).

Section Steps.
(** Which deliveries are considered. A message is delivered at most once, as the OKs of an acceptor are only counted. *)
Variable allowed : PaxosNode -> PaxosMessage -> Prop.

Inductive step (net : PaxosNetwork) : PaxosNetwork -> Prop :=
| step_deliver q1 id m q2 n n' :
    in_flight net = q1 ++ (id, m) :: q2 -> nodes net !! id = Some n -> allowed n m ->
    processPaxosMessage known_intersection m n = (Ok tt, n') ->
    step net (update id n n' {| nodes := nodes net; in_flight := q1 ++ q2; delivered := (id, m) :: delivered net |})
| step_lose q1 id m q2 :
    in_flight net = q1 ++ (id, m) :: q2 ->
    step net {| nodes := nodes net; in_flight := q1 ++ q2; delivered := delivered net |}
| step_find id n n' points seconds now_ms :
    nodes net !! id = Some n -> next_proposal_id n < UINT32_MAX ->
    findConsensus points seconds now_ms n = (Ok tt, n') ->
    step net (update id n n' net)
| step_timeout id n n' t1 event proposal_id t2 :
    nodes net !! id = Some n -> timeouts_ (around n) = t1 ++ (event, proposal_id) :: t2 ->
    prepareTimeout proposal_id (set_around (set_timeouts (t1 ++ t2) (around n)) n) = (Ok tt, n') ->
    step net (update id n n' net).

(** Participants with ids of their own, all with the same settings. *)
Definition initial (s : PaxosSettings) (ids : list Z) : PaxosNetwork :=
  {| nodes := list_to_map (map (fun id => (id, initial_PaxosNode id s)) ids); in_flight := []; delivered := [] |}.

Definition well_formed (s : PaxosSettings) (ids : list Z) : Prop :=
  NoDup ids /\ Forall (fun id => 0 <= id < UINT32_MAX) ids /\
  number_paxos_participants s = Z.of_nat (length ids) /\ 2 <= number_paxos_participants s < 2 ^ 32.

Definition reachable (s : PaxosSettings) (ids : list Z) (net : PaxosNetwork) : Prop :=
  rtc step (initial s ids) net.
End Steps.

(** A participant has committed the proposal [request] for an instance: it has told the proposer
    that it has all OKs. *)
Definition committed (n : PaxosNode) (instance : Z) (request : RequestID) : Prop :=
  ResponseMessage instance request.1 request.2 ∈ published_ (around n).

(** ** What matters of a participant

    The rest of its state neither guards what it publishes nor what it accepts. *)

Record View := {
  v_promised : gmap Z RequestID;
  v_accepted : AcceptedProposal;
  v_finally : list (list IntersectionTimeInfo);
  v_remaining : Z;
  v_saved : list AlreadyReceivedOKS;
  v_current : option (Z * Z * bool);
  v_ids : gmap Z Z;
  v_published : list PaxosMessage;
}.

(** The current proposal: instance, id and whether it waits for its quorum. *)
Definition view (n : PaxosNode) : View :=
  let c := container n in let p := proposer n in let a := acceptor n in
  let current := current_proposal_ p in
  {| v_promised := instance_to_promised c; v_accepted := accepted_data_current_instance c;
     v_finally := finally_accepted_data c; v_remaining := remaining_oks_ a; v_saved := already_received_ a;
     v_current := if proposal_initialized current
                  then Some (p_instance current, p_proposal current, negb (needed_for_quorum current =? 0)) else None;
     v_ids := instance_to_proposal_id_ p; v_published := published_ (around n) |}.

(** Lexicographic order of requests. *)
Definition request_le (a b : RequestID) : Prop := a.1 < b.1 \/ a.1 = b.1 /\ a.2 <= b.2.

Lemma request_gtb_lt a b : request_gtb a b = true <-> b.1 < a.1 \/ b.1 = a.1 /\ b.2 < a.2.
Proof. unfold request_gtb. rewrite orb_true_iff, andb_true_iff. lia. Qed.

Definition count (p : PaxosMessage -> bool) (l : list PaxosMessage) : Z := Z.of_nat (length (List.filter p l)).

Definition is_ok (i p s : Z) (m : PaxosMessage) : bool :=
  match m with OKMessage i' p' s' _ => (i' =? i) && (p' =? p) && (s' =? s) | _ => false end.
Definition is_ok_of (i p s k : Z) (m : PaxosMessage) : bool :=
  match m with OKMessage i' p' s' k' => (i' =? i) && (p' =? p) && (s' =? s) && (k' =? k) | _ => false end.
Definition is_accept (i p s : Z) (m : PaxosMessage) : bool :=
  match m with AcceptMessage i' p' s' _ => (i' =? i) && (p' =? p) && (s' =? s) | _ => false end.

Lemma count_app f l1 l2 : count f (l1 ++ l2) = count f l1 + count f l2.
Proof. unfold count. rewrite List.filter_app, length_app. lia. Qed.
Lemma count_nil f : count f [] = 0.
Proof. done. Qed.
Lemma count_cons f m l : count f (m :: l) = (if f m then 1 else 0) + count f l.
Proof. unfold count. cbn. destruct (f m); cbn; lia. Qed.
Lemma count_nonneg f l : 0 <= count f l.
Proof. unfold count. lia. Qed.
Lemma count_pos f l m : m ∈ l -> f m = true -> 1 <= count f l.
Proof.
  intros Hm Hf. assert (In m (List.filter f l)) as Hin by (apply filter_In; by rewrite <- list_elem_of_In).
  unfold count. destruct (List.filter f l); [done|cbn; lia].
Qed.
Lemma count_elem f l : 1 <= count f l -> exists m, m ∈ l /\ f m = true.
Proof.
  unfold count. destruct (List.filter f l) as [|m l'] eqn:E; cbn; [lia|]. intros _. exists m.
  assert (In m (List.filter f l)) as [? ?]%filter_In by (rewrite E; by left). by rewrite list_elem_of_In.
Qed.
Lemma count_zero f l : (forall m, m ∈ l -> f m = false) -> count f l = 0.
Proof.
  intros Hl. pose proof (count_nonneg f l). destruct (decide (count f l = 0)) as [|Hne]; [done|].
  destruct (count_elem f l) as (m & Hm & Hf); [lia|]. by rewrite Hl in Hf.
Qed.

Section Invariant.
(** The participant and their number. *)
Variables (me N : Z).
Hypothesis id_range : 0 <= me < UINT32_MAX.
Hypothesis N_range : 2 <= N < 2 ^ 32.

(** It has voted for a request: told the others OK, or sent its own proposal. *)
Definition voted (l : list PaxosMessage) (i : Z) (r : RequestID) : Prop :=
  OKMessage i r.1 r.2 me ∈ l \/ r.2 = me /\ exists data, AcceptMessage i r.1 me data ∈ l.

(** [received] are the messages it has got so far. *)
Record view_inv (received : list PaxosMessage) (v : View) : Prop := {
  inv_voted : forall i r, voted (v_published v) i r -> exists b, v_promised v !! i = Some b /\ request_le r b;
  inv_current : accepted_initialized (v_accepted v) = true -> ap_station (v_accepted v) <> me ->
    let a := v_accepted v in
    (forall r, voted (v_published v) (ap_instance a) r -> request_le r (ap_proposal a, ap_station a)) /\
    AcceptMessage (ap_instance a) (ap_proposal a) (ap_station a) (ap_data a) ∈ received /\
    OKMessage (ap_instance a) (ap_proposal a) (ap_station a) me ∈ v_published v /\
    N - 2 <= v_remaining v + count (is_ok (ap_instance a) (ap_proposal a) (ap_station a)) received;
  inv_saved : forall ok, ok ∈ v_saved v ->
    0 <= already_received ok <= count (is_ok (ar_instance ok) (ar_proposal ok) (ar_station ok)) received;
  inv_committed : forall i p s, ResponseMessage i p s ∈ v_published v ->
    v_promised v !! i = Some (UINT32_MAX, UINT32_MAX) /\
    (exists data, v_finally v !! Z.to_nat i = Some data /\ AcceptMessage i p s data ∈ received) /\
    OKMessage i p s me ∈ v_published v /\ N - 2 <= count (is_ok i p s) received /\
    forall r, voted (v_published v) i r -> request_le r (p, s);
  inv_own : forall i p s data, AcceptMessage i p s data ∈ v_published v ->
    s = me /\ exists q, v_ids v !! i = Some q /\ p < q;
  inv_once : forall i p, count (is_accept i p me) (v_published v) <= 1;
  inv_ids : forall i q, v_ids v !! i = Some q -> 0 <= q <= UINT32_MAX;
  inv_fresh : forall i p waiting, v_current v = Some (i, p, waiting) ->
    (exists q, v_ids v !! i = Some q /\ p < q) /\
    (waiting = true -> forall data, AcceptMessage i p me data ∉ v_published v);
  inv_sender : forall i p s k, OKMessage i p s k ∈ v_published v -> k = me /\ s <> me;
  inv_ok_once : forall i p s, count (is_ok i p s) (v_published v) <= count (is_accept i p s) received;
  inv_prepares : forall i p s, PrepareMessage i p s ∈ v_published v -> s = me /\ 0 <= p <= UINT32_MAX;
  inv_range : forall i b, v_promised v !! i = Some b -> b.1 <= UINT32_MAX /\ b.2 <= UINT32_MAX;
}.

Lemma request_le_refl a : request_le a a.
Proof. unfold request_le. lia. Qed.
Lemma request_le_trans a b c : request_le a b -> request_le b c -> request_le a c.
Proof. unfold request_le. lia. Qed.
Lemma request_gtb_le a b : request_gtb a b = true -> request_le b a.
Proof. rewrite request_gtb_lt. unfold request_le. lia. Qed.

Lemma voted_snoc l m i r : voted (l ++ [m]) i r <-> voted l i r \/ voted [m] i r.
Proof. unfold voted. setoid_rewrite elem_of_app. naive_solver. Qed.

(** Messages without consequence. *)
Definition quiet (m : PaxosMessage) : Prop :=
  match m with
  | PrepareMessage _ p s => s = me /\ 0 <= p <= UINT32_MAX
  | PromiseMessage _ _ _ _ _ _ => True
  | _ => False
  end.

Lemma voted_quiet l m i r : quiet m -> voted (l ++ [m]) i r -> voted l i r.
Proof.
  intros Hm [?|Hv]%voted_snoc; [done|]. unfold voted in Hv. setoid_rewrite list_elem_of_singleton in Hv.
  destruct m; naive_solver.
Qed.

(** ** What a handler may do to the view

    One lemma per kind of change, each keeping the invariant. *)


(** A field of the invariant about an unchanged part of the view. *)
Ltac kept Hi :=
  first [ exact (inv_voted _ _ Hi) | exact (inv_current _ _ Hi) | exact (inv_saved _ _ Hi)
        | exact (inv_committed _ _ Hi) | exact (inv_own _ _ Hi) | exact (inv_once _ _ Hi) | exact (inv_ids _ _ Hi)
        | exact (inv_fresh _ _ Hi) | exact (inv_sender _ _ Hi) | exact (inv_ok_once _ _ Hi)
        | exact (inv_prepares _ _ Hi) | exact (inv_range _ _ Hi) ].

Lemma elem_of_quiet l m m' : quiet m -> m' ∈ l ++ [m] -> m' ∈ l \/ m' = m.
Proof. rewrite elem_of_app, list_elem_of_singleton. tauto. Qed.

Lemma count_quiet f l m : quiet m -> (forall m, quiet m -> f m = false) -> count f (l ++ [m]) = count f l.
Proof. intros Hm Hf. rewrite count_app, count_cons, count_nil, Hf by done. lia. Qed.

Section Moves.
Variable received : list PaxosMessage.

Lemma say_inv P A F R S C I L m :
  quiet m -> view_inv received (Build_View P A F R S C I L) -> view_inv received (Build_View P A F R S C I (L ++ [m])).
Proof.
  intros Hm Hi. split; cbn; try kept Hi.
  - intros i r Hv%voted_quiet; [|done]. by apply (inv_voted _ _ Hi).
  - intros Ha Hs. destruct (inv_current _ _ Hi Ha Hs) as (H1 & H2 & H3 & H4). cbn in *. split_and!; [|done| |done].
    + intros r Hv%voted_quiet; [|done]. by apply H1.
    + apply elem_of_app. by left.
  - intros i p s [Hr| <-]%elem_of_quiet; [|done..]. destruct (inv_committed _ _ Hi i p s Hr) as (H1 & H2 & H3 & H4 & H5).
    cbn in *. split_and!; [done|done|apply elem_of_app; by left|done|]. intros r Hv%voted_quiet; [|done]. by apply H5.
  - intros i p s data [Hr| <-]%elem_of_quiet; [|done..]. by apply (inv_own _ _ Hi i p s data).
  - intros i p. rewrite count_quiet; [apply (inv_once _ _ Hi)|done|by intros []].
  - intros i p w Hc. destruct (inv_fresh _ _ Hi i p w Hc) as [? Hf]. split; [done|].
    intros Hw data [Ha| <-]%elem_of_quiet; [|done..]. by eapply Hf.
  - intros i p s k [Hr| <-]%elem_of_quiet; [|done..]. by eapply (inv_sender _ _ Hi).
  - intros i p s. rewrite count_quiet; [apply (inv_ok_once _ _ Hi)|done|by intros []].
  - intros i p s [Hr| <-]%elem_of_quiet; [by apply (inv_prepares _ _ Hi i)|done|done].
Qed.

Lemma raise_inv P A F R S C I L i r :
  (forall b, P !! i = Some b -> request_gtb r b = true) -> r.1 <= UINT32_MAX -> r.2 <= UINT32_MAX ->
  view_inv received (Build_View P A F R S C I L) -> view_inv received (Build_View (<[i := r]> P) A F R S C I L).
Proof.
  intros Hr H1 H2 Hi. split; cbn; try kept Hi.
  - intros j v (b & Hb & Hle)%(inv_voted _ _ Hi). cbn in Hb. destruct (decide (j = i)) as [->|Hne].
    + exists r. rewrite lookup_insert_eq. split; [done|]. eapply request_le_trans; [done|]. by apply request_gtb_le, Hr.
    + exists b. by rewrite lookup_insert_ne.
  - intros j p s Hc. destruct (inv_committed _ _ Hi j p s Hc) as (Hm & ?). split; [|done]. cbn in Hm.
    destruct (decide (j = i)) as [->|Hne]; [|by rewrite lookup_insert_ne].
    specialize (Hr _ Hm). rewrite request_gtb_lt in Hr. cbn in Hr. lia.
  - intros j b. destruct (decide (j = i)) as [->|Hne]; [by rewrite lookup_insert_eq; intros [= <-]|].
    rewrite lookup_insert_ne by done. apply (inv_range _ _ Hi).
Qed.

Lemma propose_inv P A F R S C I L i p w :
  from_option id 0 (I !! i) = p -> 0 <= p < UINT32_MAX ->
  view_inv received (Build_View P A F R S C I L) ->
  view_inv received (Build_View P A F R S (Some (i, p, w)) (<[i := p + 1]> I) L).
Proof.
  intros Hp Hr Hi. split; cbn; try kept Hi.
  - intros j q s data Ha. destruct (inv_own _ _ Hi j q s data Ha) as (-> & q' & Hq & ?). cbn in Hq. split; [done|].
    destruct (decide (j = i)) as [->|Hne]; [|exists q'; by rewrite lookup_insert_ne].
    exists (p + 1). rewrite lookup_insert_eq, Hq in *. cbn in Hp. split; [done|]. unfold id in Hp. lia.
  - intros j q. destruct (decide (j = i)) as [->|Hne]; [rewrite lookup_insert_eq; intros [= <-]; lia|].
    rewrite lookup_insert_ne by done. apply (inv_ids _ _ Hi).
  - intros j q w' [= <- <- <-]. split; [exists (p + 1); rewrite lookup_insert_eq; split; [done|lia]|].
    intros _ data Ha. destruct (inv_own _ _ Hi i p me data Ha) as (_ & q & Hq & ?). cbn in Hq. rewrite Hq in Hp. cbn in Hp.
    unfold id in Hp. lia.
Qed.
Lemma voted_own l i p data j r :
  voted (l ++ [AcceptMessage i p me data]) j r -> voted l j r \/ j = i /\ r = (p, me).
Proof.
  intros [?|[Ho|(Hr & data' & Ha)]]%voted_snoc; [by left|..].
  - by apply list_elem_of_singleton in Ho.
  - apply list_elem_of_singleton in Ha as [= -> <- _]. right. split; [done|]. destruct r; cbn in *; congruence.
Qed.

Lemma own_inv P A F R S C I L i p data info :
  C = Some (i, p, true) -> P !! i = Some (p, me) ->
  view_inv received (Build_View P A F R S C I L) ->
  view_inv received
    (Build_View P {| ap_instance := i; ap_proposal := p; ap_station := me; ap_data := info |} F R S
       (Some (i, p, false)) I (L ++ [AcceptMessage i p me data])).
Proof.
  intros -> Hp Hi. destruct (inv_fresh _ _ Hi i p true eq_refl) as [Hq Hnew]. cbn in Hq, Hnew. specialize (Hnew eq_refl).
  split; cbn; try kept Hi.
  - intros j r [Hv|[-> ->]]%voted_own; [by apply (inv_voted _ _ Hi)|]. exists (p, me). split; [done|apply request_le_refl].
  - done.
  - intros j p' s [Hr|Hr%list_elem_of_singleton]%elem_of_app; [|done].
    destruct (inv_committed _ _ Hi j p' s Hr) as (H1 & H2 & H3 & H4 & H5). cbn in *.
    split_and!; [done|done|apply elem_of_app; by left|done|]. intros r [Hv|[-> ->]]%voted_own; [by apply H5|].
    rewrite Hp in H1. injection H1 as _ Hme. lia.
  - intros j p' s d [Ha|[= -> -> -> ->]%list_elem_of_singleton]%elem_of_app; [by apply (inv_own _ _ Hi j p' s d)|done].
  - intros j p'. rewrite count_app, count_cons, count_nil. cbn. destruct ((i =? j) && (p =? p') && (me =? me)) eqn:E.
    + apply andb_prop in E as [[->%Z.eqb_eq ->%Z.eqb_eq]%andb_prop _].
      rewrite count_zero; [lia|]. intros [] Hm; try done. cbn. apply not_true_iff_false.
      intros [[->%Z.eqb_eq ->%Z.eqb_eq]%andb_prop ->%Z.eqb_eq]%andb_prop. by apply (Hnew intersections).
    + pose proof (inv_once _ _ Hi j p') as Ho. cbn in Ho. lia.
  - by intros j p' w [= <- <- <-].
  - intros j p' s k [Hr|Hr%list_elem_of_singleton]%elem_of_app; [|done]. by eapply (inv_sender _ _ Hi).
  - intros j p' s. rewrite count_app. cbn. rewrite count_cons, count_nil. cbn.
    pose proof (inv_ok_once _ _ Hi j p' s) as Ho. cbn in Ho. lia.
  - intros j p' s [Hr|Hr%list_elem_of_singleton]%elem_of_app; [|done]. by apply (inv_prepares _ _ Hi j).
Qed.

Lemma voted_ok l i p s j r :
  voted (l ++ [OKMessage i p s me]) j r -> voted l j r \/ j = i /\ r = (p, s).
Proof.
  intros [?|[Ho|(Hr & data' & Ha)]]%voted_snoc; [by left|..].
  - apply list_elem_of_singleton in Ho as [= -> <- <-]. right. by destruct r.
  - by apply list_elem_of_singleton in Ha.
Qed.

Lemma accept_inv P A F R S C I L i p s data R' S' :
  AcceptMessage i p s data ∈ received -> P !! i = Some (p, s) -> s <> me -> s < UINT32_MAX ->
  N - 2 <= R' + count (is_ok i p s) received -> (forall ok, ok ∈ S' -> ok ∈ S) ->
  count (is_ok i p s) L < count (is_accept i p s) received ->
  view_inv received (Build_View P A F R S C I L) ->
  view_inv received
    (Build_View P {| ap_instance := i; ap_proposal := p; ap_station := s; ap_data := data |} F R' S' C I
       (L ++ [OKMessage i p s me])).
Proof.
  intros Hacc Hp Hs Hmax Hrem Hsub Hlt Hi. split; cbn; try kept Hi.
  - intros j r [Hv|[-> ->]]%voted_ok; [by apply (inv_voted _ _ Hi)|]. exists (p, s). split; [done|apply request_le_refl].
  - intros _ _. split_and!; [|done|apply elem_of_app; right; left|done].
    intros r [(b & Hb & Hle)%(inv_voted _ _ Hi)|[_ ->]]%voted_ok; [|apply request_le_refl].
    cbn in Hb. rewrite Hp in Hb. by injection Hb as <-.
  - intros ok Hok. by apply (inv_saved _ _ Hi), Hsub.
  - intros j p' s' [Hr|Hr%list_elem_of_singleton]%elem_of_app; [|done].
    destruct (inv_committed _ _ Hi j p' s' Hr) as (H1 & H2 & H3 & H4 & H5). cbn in *.
    split_and!; [done|done|apply elem_of_app; by left|done|]. intros r [Hv|[-> ->]]%voted_ok; [by apply H5|].
    rewrite Hp in H1. injection H1 as _ Hme. lia.
  - intros j p' s' d [Ha|Ha%list_elem_of_singleton]%elem_of_app; [by apply (inv_own _ _ Hi j p' s' d)|done].
  - intros j p'. rewrite count_app, count_cons, count_nil. cbn. pose proof (inv_once _ _ Hi j p') as Ho. cbn in Ho. lia.
  - intros j p' w Hc. destruct (inv_fresh _ _ Hi j p' w Hc) as [? Hf]. split; [done|].
    intros Hw d [Ha|Ha%list_elem_of_singleton]%elem_of_app; [by eapply Hf|done].
  - intros j p' s' k [Hr|[= -> -> -> ->]%list_elem_of_singleton]%elem_of_app; [by eapply (inv_sender _ _ Hi)|done].
  - intros j p' s'. rewrite count_app. rewrite count_cons, count_nil. cbn.
    pose proof (inv_ok_once _ _ Hi j p' s') as Ho. cbn in Ho.
    destruct ((i =? j) && (p =? p') && (s =? s')) eqn:E; [|lia].
    apply andb_prop in E as [[->%Z.eqb_eq ->%Z.eqb_eq]%andb_prop ->%Z.eqb_eq]. lia.
  - intros j p' s' [Hr|Hr%list_elem_of_singleton]%elem_of_app; [|done]. by apply (inv_prepares _ _ Hi j).
Qed.

Lemma voted_response l i p s j r : voted (l ++ [ResponseMessage i p s]) j r -> voted l j r.
Proof.
  intros [?|[Ho|(Hr & data' & Ha)]]%voted_snoc; [done|..].
  - by apply list_elem_of_singleton in Ho.
  - by apply list_elem_of_singleton in Ha.
Qed.

Lemma commit_inv P F R S C I L i p s data :
  data <> [] -> s <> me -> Z.of_nat (length F) = i -> N - 2 <= count (is_ok i p s) received ->
  view_inv received
    (Build_View P {| ap_instance := i; ap_proposal := p; ap_station := s; ap_data := data |} F R S C I L) ->
  view_inv received
    (Build_View (<[i := (UINT32_MAX, UINT32_MAX)]> P) no_accepted (F ++ [data]) R S C I (L ++ [ResponseMessage i p s])).
Proof.
  intros Hd Hs Hl Hc Hi.
  destruct (inv_current _ _ Hi) as (Hv & Hacc & Hok & _); cbn in *; [by unfold accepted_initialized; cbn; rewrite bool_decide_false|done|].
  split; cbn; try kept Hi.
  - intros j r (b & Hb & Hle)%voted_response%(inv_voted _ _ Hi). cbn in Hb. destruct (decide (j = i)) as [->|Hne].
    + exists (UINT32_MAX, UINT32_MAX). rewrite lookup_insert_eq. split; [done|]. eapply request_le_trans; [done|].
      destruct (inv_range _ _ Hi i b Hb). unfold request_le. cbn. lia.
    + exists b. by rewrite lookup_insert_ne.
  - done.
  - intros j p' s' [Hr|[= -> -> ->]%list_elem_of_singleton]%elem_of_app.
    + destruct (inv_committed _ _ Hi j p' s' Hr) as (H1 & (d & Hf & ?) & H3 & H4 & H5). cbn in *.
      split_and!; [|exists d; split; [by apply lookup_app_l_Some|done]|apply elem_of_app; by left|done|].
      * destruct (decide (j = i)) as [->|Hne]; [by rewrite lookup_insert_eq|by rewrite lookup_insert_ne].
      * intros r Hr'%voted_response. by apply H5.
    + rewrite lookup_insert_eq. split_and!; [done| |apply elem_of_app; by left|done|].
      * exists data. split; [|done]. rewrite lookup_app_r by lia. by replace (Z.to_nat i - length F)%nat with 0%nat by lia.
      * intros r Hr%voted_response. by apply Hv.
  - intros j p' s' d [Ha|Ha%list_elem_of_singleton]%elem_of_app; [by apply (inv_own _ _ Hi j p' s' d)|done].
  - intros j p'. rewrite count_app, count_cons, count_nil. cbn. pose proof (inv_once _ _ Hi j p') as Ho. cbn in Ho. lia.
  - intros j p' w Hcur. destruct (inv_fresh _ _ Hi j p' w Hcur) as [? Hf]. split; [done|].
    intros Hw d [Ha|Ha%list_elem_of_singleton]%elem_of_app; [by eapply Hf|done].
  - intros j p' s' k [Hr|Hr%list_elem_of_singleton]%elem_of_app; [by eapply (inv_sender _ _ Hi)|done].
  - intros j p' s'. rewrite count_app. rewrite count_cons, count_nil. cbn.
    pose proof (inv_ok_once _ _ Hi j p' s') as Ho. cbn in Ho. lia.
  - intros j p' s' [Hr|Hr%list_elem_of_singleton]%elem_of_app; [|done]. by apply (inv_prepares _ _ Hi j).
  - intros j b. destruct (decide (j = i)) as [->|Hne]; [rewrite lookup_insert_eq; by intros [= <-]|].
    rewrite lookup_insert_ne by done. apply (inv_range _ _ Hi).
Qed.

Lemma ids_inv P A F R S C I L I' :
  (forall i q, I !! i = Some q -> exists q', I' !! i = Some q' /\ q <= q') ->
  (forall i q, I' !! i = Some q -> 0 <= q <= UINT32_MAX) ->
  view_inv received (Build_View P A F R S C I L) -> view_inv received (Build_View P A F R S C I' L).
Proof.
  intros Hle Hr Hi. split; cbn; try kept Hi; [|done|].
  - intros i p s data Ha. destruct (inv_own _ _ Hi i p s data Ha) as (-> & q & Hq & ?).
    destruct (Hle i q Hq) as (q' & ? & ?). split; [done|]. exists q'. split; [done|lia].
  - intros i p w Hc. destruct (inv_fresh _ _ Hi i p w Hc) as [(q & Hq & ?) ?]. split; [|done].
    destruct (Hle i q Hq) as (q' & ? & ?). exists q'. split; [done|lia].
Qed.

Lemma give_up_inv P A F R S C I L :
  view_inv received (Build_View P A F R S C I L) -> view_inv received (Build_View P A F R S None I L).
Proof. intros Hi. split; cbn; try kept Hi. done. Qed.

Lemma quorum_inv P A F R S I L i p w :
  view_inv received (Build_View P A F R S (Some (i, p, true)) I L) ->
  view_inv received (Build_View P A F R S (Some (i, p, w)) I L).
Proof.
  intros Hi. split; cbn; try kept Hi. intros j q w2 [= <- <- <-].
  destruct (inv_fresh _ _ Hi i p true eq_refl) as [? Hf]. split; [done|]. intros _. by apply Hf.
Qed.

Lemma remaining_inv P A F R S C I L R' :
  N - 2 <= R' + count (is_ok (ap_instance A) (ap_proposal A) (ap_station A)) received ->
  view_inv received (Build_View P A F R S C I L) -> view_inv received (Build_View P A F R' S C I L).
Proof.
  intros HR Hi. split; cbn; try kept Hi. intros Ha Hs. destruct (inv_current _ _ Hi Ha Hs) as (? & ? & ? & _).
  by split_and!.
Qed.

Lemma saved_inv P A F R S C I L S' :
  (forall ok, ok ∈ S' ->
     0 <= already_received ok <= count (is_ok (ar_instance ok) (ar_proposal ok) (ar_station ok)) received) ->
  view_inv received (Build_View P A F R S C I L) -> view_inv received (Build_View P A F R S' C I L).
Proof. intros HS Hi. split; cbn; try kept Hi. done. Qed.

Lemma push_inv P A F R S C I L data :
  view_inv received (Build_View P A F R S C I L) -> view_inv received (Build_View P no_accepted (F ++ [data]) R S C I L).
Proof.
  intros Hi. split; cbn; try kept Hi; [done|]. intros i p s Hc.
  destruct (inv_committed _ _ Hi i p s Hc) as (H1 & (d & Hf & ?) & H3). split; [done|]. split; [|done].
  exists d. split; [by apply lookup_app_l_Some|done].
Qed.
End Moves.

(** ** Receiving more keeps the invariant *)

Lemma receive_inv received m v : view_inv received v -> view_inv (m :: received) v.
Proof.
  assert (Hc : forall f, count f received <= count f (m :: received)).
  { intros f. rewrite count_cons. destruct (f m); lia. }
  intros Hi. split; try kept Hi.
  - intros Ha Hs. destruct (inv_current _ _ Hi Ha Hs) as (H1 & H2 & H3 & H4). split_and!; [done|by right|done|].
    etrans; [exact H4|]. specialize (Hc (is_ok (ap_instance (v_accepted v)) (ap_proposal (v_accepted v)) (ap_station (v_accepted v)))). lia.
  - intros ok Hok. destruct (inv_saved _ _ Hi ok Hok). split; [done|]. etrans; [done|apply Hc].
  - intros i p s Hr. destruct (inv_committed _ _ Hi i p s Hr) as (H1 & (d & ? & ?) & H3 & H4 & H5).
    split_and!; [done|exists d; split; [done|by right]|done| |done]. etrans; [exact H4|apply Hc].
  - intros i p s. etrans; [apply (inv_ok_once _ _ Hi)|apply Hc].
Qed.

(** ** Every handler is a sequence of moves *)

Definition node_inv (received : list PaxosMessage) (n : PaxosNode) : Prop :=
  node_id (container n) = me /\ number_paxos_participants (settings (container n)) = N /\
  remaining_oks_ (acceptor n) < 2 ^ 32 /\ view_inv received (view n).

(** Evaluates a handler on a participant given field by field. *)
Ltac participant n :=
  destruct n as [[? ? ?P ?A ?F ?D] [?rr [?pts ?st ?pi ?pp ?nq ?oo ?te ?ph ?hc] ?I] [?ci ?cp ?cs ?R ?S] [?L ?rep ?cal ?tos ?ne]].
Ltac fields :=
  cbn [container proposer acceptor around set_container set_proposer set_acceptor set_around node_id settings
       instance_to_promised accepted_data_current_instance finally_accepted_data agreed_data set_promised set_accepted
       set_finally remaining_responses_ current_proposal_ instance_to_proposal_id_ set_remaining_responses
       set_current_proposal set_proposal_ids current_accepted_instance_ current_accepted_proposal_id_
       current_accepted_station_ remaining_oks_ already_received_ set_remaining_oks set_already_received
       set_current_accepted published_ replicated_ called_ timeouts_ next_event_ set_published set_replicated set_called
       set_timeouts set_next_event set_phase set_needed set_outstanding set_timeout_event points p_instance p_proposal
       needed_for_quorum outstanding_oks timeout_event has_callbacks start_time proposal_initialized fst snd].
Ltac handle :=
  unfold promise_to, publishMessage, call_fail, cancel, push_accepted, on_proposal;
  unfold on_container, on_proposer, on_acceptor, on_around, check; mred; fields.

Lemma prepare_inv received i p s n n' :
  node_inv received n -> p <= UINT32_MAX -> s <= UINT32_MAX ->
  processPrepareMessage i p s n = (Ok tt, n') -> node_inv received n'.
Proof.
  intros (Hid & HN & HR & Hi) Hp Hs. participant n. unfold processPrepareMessage. handle.
  destruct (match P !! i with None => true | Some b => request_gtb (p, s) b end) eqn:Em; [|by intros [= <-]].
  assert (Hraise : forall b, P !! i = Some b -> request_gtb (p, s) b = true) by (intros b Hb; by rewrite Hb in Em).
  handle. destruct (i <? _); intros [= <-]; split_and!; try done.
  - by apply raise_inv.
  - apply say_inv; [by destruct (_ && _)|]. by apply raise_inv.
Qed.

(** An id that is read is there afterwards. *)
Lemma ids_read_inv received P A F R S C I L i :
  view_inv received (Build_View P A F R S C I L) -> I !! i = None ->
  view_inv received (Build_View P A F R S C (<[i := 0]> I) L).
Proof.
  intros Hi Hn. eapply ids_inv; [| |exact Hi].
  - intros j q Hq. exists q. rewrite lookup_insert_ne by congruence. split; [done|lia].
  - intros j q. destruct (decide (j = i)) as [->|?]; [rewrite lookup_insert_eq; intros [= <-]; unfold UINT32_MAX; lia|].
    rewrite lookup_insert_ne by done. apply (inv_ids _ _ Hi).
Qed.

Lemma ids_raise_inv received P A F R S C I L i q0 q :
  view_inv received (Build_View P A F R S C I L) -> I !! i = Some q0 -> q0 <= q <= UINT32_MAX ->
  view_inv received (Build_View P A F R S C (<[i := q]> I) L).
Proof.
  intros Hi Hq Hle. assert (0 <= q0 <= UINT32_MAX) by (apply (inv_ids _ _ Hi i); done).
  eapply ids_inv; [| |exact Hi]; intros j q1; (destruct (decide (j = i)) as [->|?];
    [rewrite ?lookup_insert_eq|rewrite lookup_insert_ne by done]).
  - intros Hq1. exists q. rewrite Hq in Hq1. injection Hq1 as <-. split; [done|lia].
  - intros Hq1. exists q1. split; [done|lia].
  - intros [= <-]. lia.
  - apply (inv_ids _ _ Hi).
Qed.

(** What an earlier accepted proposal does to the ids. *)
Definition learn_id (i : Z) (b : bool) (q : Z) : M PaxosNode unit :=
  if b then
    id ← proposal_id_at i;
    if id <? q then
      on_proposer (fun p => set_proposal_ids (<[i := u32 (q + 1)]> (instance_to_proposal_id_ p)) p)
    else mret tt
  else mret tt.

Lemma learn_id_inv received i b q n n' :
  node_inv received n -> q < UINT32_MAX -> learn_id i b q n = (Ok tt, n') ->
  node_inv received n' /\ exists I, n' = set_proposer (set_proposal_ids I (proposer n)) n.
Proof.
  intros (Hid & HN & HR & Hi) Hq. participant n. unfold learn_id, proposal_id_at. handle. cbn in Hi, HR.
  destruct b; handle; [|intros [= <-]; split; [done|by exists I]].
  destruct (I !! i) as [q0|] eqn:E; handle.
  - destruct (q0 <? q) eqn:Hlt; intros [= <-]; (split; [split_and!; try done|by eexists]).
    assert (0 <= q0) by (apply (inv_ids _ _ Hi i); done).
    rewrite u32_id by (unfold in_u32, UINT32_MAX in *; lia). by eapply ids_raise_inv; [|exact E|lia].
  - apply (ids_read_inv _ _ _ _ _ _ _ _ _ i) in Hi; [|done].
    destruct (0 <? q) eqn:Hlt; intros [= <-]; (split; [split_and!; try done|by eexists]).
    rewrite u32_id by (unfold in_u32, UINT32_MAX in *; lia).
    eapply ids_raise_inv; [exact Hi|apply lookup_insert_eq|lia].
Qed.

Lemma start_accept_inv received i p s n n' :
  node_id (container n) = me -> number_paxos_participants (settings (container n)) = N ->
  remaining_oks_ (acceptor n) < 2 ^ 32 -> s = me ->
  view_inv received
    (Build_View (instance_to_promised (container n)) (accepted_data_current_instance (container n))
       (finally_accepted_data (container n)) (remaining_oks_ (acceptor n)) (already_received_ (acceptor n))
       (Some (i, p, true)) (instance_to_proposal_id_ (proposer n)) (published_ (around n))) ->
  points (current_proposal_ (proposer n)) <> [] -> p_instance (current_proposal_ (proposer n)) = i ->
  p_proposal (current_proposal_ (proposer n)) = p -> needed_for_quorum (current_proposal_ (proposer n)) = 0 ->
  start_accept_phase i p s n = (Ok tt, n') -> node_inv received n'.
Proof.
  intros Hid HN HR -> Hi. participant n. unfold start_accept_phase, schedule, promised_at. handle. cbn in Hid, HN, HR, Hi.
  intros Hp -> -> ->. destruct pts as [|pt pts]; [done|].
  destruct (P !! i) as [r|] eqn:E; handle; (case_bool_decide as Er; handle; intros [= <-]; split_and!; try done).
  - subst r. cbn. rewrite Hid. eapply own_inv; [done|exact E|exact Hi].
  - by eapply quorum_inv.
  - cbn. rewrite Hid. eapply own_inv; [done|cbn; rewrite lookup_insert_eq; congruence|].
    apply raise_inv; [by rewrite E|cbn; unfold UINT32_MAX; lia..|exact Hi].
  - cbn. eapply quorum_inv. apply raise_inv; [by rewrite E|cbn; unfold UINT32_MAX; lia..|]. exact Hi.
Qed.

Lemma promise_inv received i p s b q t n n' :
  node_inv received n -> timely n (PromiseMessage i p s b q t) ->
  processPromiseMessage i p s b q n = (Ok tt, n') -> node_inv received n'.
Proof.
  intros Hn [Hq Ht]. cbn zeta in Ht. unfold processPromiseMessage. rewrite bind_get. fold (learn_id i b q).
  destruct (s =? node_id (container n)) eqn:Es; cbn [negb]; [|by intros [= <-]].
  destruct (proposal_initialized (current_proposal_ (proposer n))) eqn:Ep; cbn [negb orb]; [|by intros [= <-]].
  destruct (needed_for_quorum (current_proposal_ (proposer n)) =? 0) eqn:Eq; [by intros [= <-]|].
  destruct Ht as [Hti Htp]; [lia|done|lia|].
  intros ([] & n1 & H1 & H2)%bind_Ok. destruct (learn_id_inv _ _ _ _ _ _ Hn Hq H1) as [(Hid & HN & HR & Hi) [I1 ->]]. clear H1.
  participant n. cbn in Hi, Hid, HN, HR, Ep, Eq, Hti, Htp. subst pi pp. cbn in H2.
  unfold view, proposal_initialized in *; cbn in Hi, Ep. rewrite Ep, Eq in Hi. cbn in Hi.
  revert H2. handle. destruct (nq - 1 =? 0) eqn:En.
  - intros H. eapply start_accept_inv; [..|exact H]; cbn; try done; [cbn in Es; lia| |lia]. by destruct pts.
  - intros [= <-]. split_and!; try done. unfold view, proposal_initialized; cbn. rewrite Ep, En. cbn. by eapply quorum_inv.
Qed.


Lemma response_inv received s n n' :
  node_inv received n -> processResponseMessage s n = (Ok tt, n') -> node_inv received n'.
Proof.
  intros (Hid & HN & HR & Hi). participant n. unfold processResponseMessage. handle. cbn in Hid, HN, HR, Hi.
  destruct (s =? _); cbn [negb]; [|by intros [= <-]]. handle.
  destruct (u32 _ =? 0); [|by intros [= <-]]. handle. destruct hc; cbn [negb]; [|done]. handle.
  intros [= <-]. split_and!; try done. by apply give_up_inv in Hi.
Qed.

(** Entering agreed times changes nothing else. *)
Lemma agree_all {A} (l : list A) (f : A -> M PaxosNode unit) :
  (forall x n n', f x n = (Ok tt, n') -> exists d, n' = set_container (set_agreed d (container n)) n) ->
  forall n n', for_each l f n = (Ok tt, n') -> exists d, n' = set_container (set_agreed d (container n)) n.
Proof.
  intros Hf. induction l as [|x l IH]; intros n n'.
  - intros [= <-]. exists (agreed_data (container n)). by participant n.
  - intros ([] & n1 & [d ->]%Hf & [d' ->]%IH)%bind_Ok. exists d'. by participant n.
Qed.

Lemma agree_one {n0} (b : bool) what intersection time n n' :
  n0 = node_id (container n) ->
  (check b what;; agree_on intersection time) n = (Ok tt, n') ->
  exists d, n' = set_container (set_agreed d (container n)) n.
Proof.
  intros _. participant n. unfold agree_on. handle. destruct b; cbn [negb]; [|done]. handle. intros [= <-]. by eexists.
Qed.

Lemma agreed_inv received n d :
  node_inv received n -> node_inv received (set_container (set_agreed d (container n)) n).
Proof. by participant n. Qed.

Lemma proposer_ok_inv received s n n' :
  node_inv received n -> proposer_processOKMessage known_intersection s n = (Ok tt, n') -> node_inv received n'.
Proof.
  intros Hn. unfold proposer_processOKMessage. rewrite bind_get.
  destruct (s =? _); cbn [negb]; [|by intros [= <-]].
  intros ([] & n1 & H1 & H2)%bind_Ok.
  assert (Hn1 : node_inv received n1).
  { revert H1 Hn. participant n. handle. by intros [= <-]. }
  clear H1 Hn. destruct (u32 _ =? 0); [|by injection H2 as <-].
  apply bind_Ok in H2 as ([] & n2 & H1 & H2). eapply response_inv in H1; [|exact Hn1].
  apply bind_Ok in H2 as ([] & n3 & H3 & H2). apply bind_Ok in H2 as ([] & n4 & H4 & H2).
  rewrite bind_get in H2. apply agree_all in H2 as [d ->].
  - apply agreed_inv. revert H1 H3 H4. participant n2. handle. intros (? & ? & ? & Hi) [= <-] [= <-].
    split_and!; try done. by eapply push_inv.
  - intros x m m'. by eapply agree_one.
Qed.

Lemma timeout_inv received p n n' :
  node_inv received n -> prepareTimeout p n = (Ok tt, n') -> node_inv received n'.
Proof.
  intros (Hid & HN & HR & Hi). participant n. unfold prepareTimeout. handle. cbn in Hid, HN, HR, Hi.
  destruct (_ || _); [by intros [= <-]|]. destruct (_ || _); [|by intros [= <-]]. handle. intros [= <-].
  split_and!; try done. by eapply give_up_inv.
Qed.

(** A proposal of its own. *)
Lemma own_proposal_inv received P A F R S C I L i p (ready : bool) w :
  I !! i = Some p -> p < UINT32_MAX -> view_inv received (Build_View P A F R S C I L) ->
  view_inv received
    (Build_View P A F R S (if ready then Some (i, p, w) else None) (<[i := u32 (p + 1)]> I) L).
Proof.
  intros Hp Hlt Hi. assert (0 <= p) by (apply (inv_ids _ _ Hi i); done).
  rewrite u32_id by (unfold in_u32, UINT32_MAX in *; lia).
  assert (view_inv received (Build_View P A F R S (Some (i, p, w)) (<[i := p + 1]> I) L)) as Hi'.
  { apply (propose_inv received P A F R S C); [by rewrite Hp|lia|exact Hi]. }
  destruct ready; [exact Hi'|by eapply give_up_inv].
Qed.

Lemma request_inv received P A F R S C I L i p :
  0 <= p <= UINT32_MAX -> (forall b, P !! i = Some b -> request_gtb (p, me) b = true) ->
  view_inv received (Build_View P A F R S C I L) ->
  view_inv received (Build_View (<[i := (p, me)]> P) A F R S C I (L ++ [PrepareMessage i p me])).
Proof. intros Hp Hg Hi. apply say_inv; [done|]. apply raise_inv; [done|cbn; lia..|done]. Qed.

Lemma find_inv received pts seconds now n n' :
  node_inv received n -> next_proposal_id n < UINT32_MAX ->
  findConsensus pts seconds now n = (Ok tt, n') -> node_inv received n'.
Proof.
  intros Hn Hid. unfold findConsensus. rewrite bind_get. intros (s & n1 & [_ ->]%lift_Ok & H)%bind_Ok.
  destruct (is_nan s); [revert H Hn; participant n; handle; by intros [= <-]|].
  unfold next_proposal_id in Hid. set (i := u32 _) in *.
  apply bind_Ok in H as (p & n2 & H1 & H).
  assert (exists I, n2 = set_proposer (set_proposal_ids I (proposer n)) n /\ node_inv received n2 /\ I !! i = Some p /\
    p < UINT32_MAX) as (I & -> & (Hme & HN & HR & Hi) & Hp & Hlt).
  { destruct Hn as (Hme & HN & HR & Hi). revert H1. unfold proposal_id_at. participant n. handle. cbn in Hme, HN, HR, Hi, Hid.
    destruct (I !! i) as [q|] eqn:E; handle; intros [= <- <-]; eexists; (split; [reflexivity|]).
    - by split_and!.
    - split; [|by rewrite lookup_insert_eq]. split_and!; try done. by apply ids_read_inv. }
  clear H1 Hn Hid. revert H. participant n. unfold schedule. handle. cbn in Hme, HN, HR, Hi. rewrite Hme.
  destruct (proposal_initialized _); cbn [negb]; [done|]. handle.
  assert (0 <= p <= UINT32_MAX) by by apply (inv_ids _ _ Hi i).
  apply (own_proposal_inv _ _ _ _ _ _ _ _ _ i p (negb (Nat.eqb (length pts) 0))
    (negb (u32 (u64 (number_paxos_participants settings - 1)) =? 0))) in Hi; [|done..].
  destruct (match P !! i with None => true | Some b => request_gtb (p, me) b end) eqn:Em; handle; intros [= <-]; split_and!; try done.
  apply request_inv; [done|by intros b Hb; rewrite Hb in Em|exact Hi].
Qed.

(** All OKs are there: the accepted data become an instance. *)
Lemma send_response_inv received i p s data n n' :
  node_inv received n -> accepted_data_current_instance (container n) =
    {| ap_instance := i; ap_proposal := p; ap_station := s; ap_data := data |} ->
  (current_accepted_instance_ (acceptor n), current_accepted_proposal_id_ (acceptor n),
   current_accepted_station_ (acceptor n)) = (i, p, s) ->
  data <> [] -> s <> me -> N - 2 <= count (is_ok i p s) received ->
  sendResponseMessage known_intersection n = (Ok tt, n') -> node_inv received n'.
Proof.
  intros (Hid & HN & HR & Hi) HA Hcur Hd Hs Hc. participant n. cbn in Hid, HN, HR, Hi, HA, Hcur. subst A.
  injection Hcur as -> -> ->. unfold sendResponseMessage. handle.
  destruct (_ - 1 =? i) eqn:El; cbn [negb]; [|done]. handle. cbn.
  match goal with |- context [for_each ?l ?f ?m] => destruct (for_each l f m) as [[[]| |] n1] eqn:E end; [|done..].
  apply agree_all in E as [d ->]; [|intros ? ? ?; by eapply agree_one]. cbn.
  rewrite length_app in El. cbn in El. apply Z.eqb_eq in El.
  destruct (replication settings); handle; intros [= <-]; (split_and!; try done; apply commit_inv; [done..|lia|done|exact Hi]).
Qed.

(** What is still missing when a proposal is accepted; remembered OKs are deducted. *)
Definition first_remaining (i p s : Z) (saved : list AlreadyReceivedOKS) : Z :=
  match find_index (ok_for i p s) saved with
  | Some k => u32 (u32 (u64 (N - 2)) - from_option already_received 0 (saved !! k))
  | None => u32 (u64 (N - 2))
  end.

Lemma u32_ge z : z < 2 ^ 32 -> z <= u32 z.
Proof.
  intros. destruct (Z.leb_spec 0 z); [by rewrite u32_id|]. pose proof (u32_range z). unfold in_u32 in *. lia.
Qed.
Lemma u32_le z : 0 <= z -> u32 z <= z.
Proof. intros. unfold u32. apply Z.mod_le; lia. Qed.

Lemma others_u32 : u32 (u64 (N - 2)) = N - 2.
Proof. unfold u32, u64. rewrite (Z.mod_small (N - 2) (2 ^ 64)) by lia. apply Z.mod_small. lia. Qed.

Lemma ok_for_true i p s ok :
  ok_for i p s ok = true <-> ar_instance ok = i /\ ar_proposal ok = p /\ ar_station ok = s.
Proof. unfold ok_for. rewrite !andb_true_iff, !Z.eqb_eq. tauto. Qed.

Lemma saved_at received v i p s k :
  view_inv received v -> find_index (ok_for i p s) (v_saved v) = Some k ->
  exists ok, v_saved v !! k = Some ok /\ 0 <= already_received ok <= count (is_ok i p s) received.
Proof.
  intros Hi (ok & Hok & (<- & <- & <-)%ok_for_true & _)%find_index_Some. exists ok. split; [done|].
  apply (inv_saved _ _ Hi). by eapply list_elem_of_lookup_2.
Qed.

Lemma first_remaining_enough received v i p s :
  view_inv received v ->
  N - 2 <= first_remaining i p s (v_saved v) + count (is_ok i p s) received /\ first_remaining i p s (v_saved v) < 2 ^ 32.
Proof.
  intros Hi. unfold first_remaining. rewrite others_u32. pose proof (count_nonneg (is_ok i p s) received).
  destruct (find_index _ _) as [k|] eqn:E; [|lia]. destruct (saved_at _ _ _ _ _ _ Hi E) as (ok & -> & ?). cbn [from_option].
  pose proof (u32_ge (N - 2 - already_received ok) ltac:(lia)).
  pose proof (u32_range (N - 2 - already_received ok)). unfold in_u32 in *. lia.
Qed.

Lemma accept_message_inv received i p s data n n' :
  node_inv received n -> s <> me -> s < UINT32_MAX ->
  processAcceptMessage known_intersection i p s data n = (Ok tt, n') ->
  node_inv (AcceptMessage i p s data :: received) n'.
Proof.
  intros (Hid & HN & HR & Hi) Hs Hm. unfold processAcceptMessage.
  intros (promised & n1 & H1 & H)%bind_Ok.
  assert (node_inv received n1 /\ instance_to_promised (container n1) !! i = Some promised) as [(Hid1 & HN1 & HR1 & Hi1) Hp].
  { revert H1. unfold promised_at. participant n. cbn in Hid, HN, HR, Hi. handle.
    destruct (P !! i) as [r|] eqn:E; handle; intros [= <- <-]; [by split|].
    split; [|apply lookup_insert_eq]. split_and!; try done.
    apply raise_inv; [by rewrite E|cbn; unfold UINT32_MAX; lia..|exact Hi]. }
  clear n H1 Hid HN HR Hi. assert (Hi := receive_inv _ (AcceptMessage i p s data) _ Hi1).
  case_bool_decide as Hr; cbn [negb] in H; [subst promised|by injection H as <-].
  case_bool_decide as Hd; [done|].
  assert (Hlt : count (is_ok i p s) (published_ (around n1)) <
    count (is_accept i p s) (AcceptMessage i p s data :: received)).
  { rewrite count_cons. cbn. rewrite !Z.eqb_refl. pose proof (inv_ok_once _ _ Hi1 i p s) as Ho.
    unfold view in Ho. cbn in Ho |- *. lia. }
  clear Hi1. revert H. participant n1. cbn in Hid1, HN1, HR1, Hi, Hp, Hlt. handle. cbn.
  rewrite HN1, Hid1. fold (first_remaining i p s S).
  destruct (first_remaining_enough _ _ i p s Hi) as [Henough Hlim]. cbn in Henough, Hlim.
  set (R1 := first_remaining i p s S) in *. set (S1 := match find_index _ _ with Some _ => _ | None => _ end).
  assert (Hacc : view_inv (AcceptMessage i p s data :: received)
    (Build_View P {| ap_instance := i; ap_proposal := p; ap_station := s; ap_data := data |} F R1 S1
       (if proposal_initialized {| points := pts; start_time := st; p_instance := pi; p_proposal := pp; needed_for_quorum := nq;
          outstanding_oks := oo; timeout_event := te; phase := ph; has_callbacks := hc |}
        then Some (pi, pp, negb (nq =? 0)) else None) I (L ++ [OKMessage i p s me]))).
  { eapply accept_inv; [by left|exact Hp|done..| |exact Hlt|exact Hi]. intros ok. subst S1.
    destruct (find_index _ _); [|done]. apply list_elem_of_delete_inv. }
  destruct (R1 =? 0) eqn:ER; [|intros [= <-]; by split_and!].
  intros H. eapply (send_response_inv _ i p s data); [|..|exact H]; [by split_and!|done..|lia].
Qed.

(** A received OK counts for its proposal. *)
Lemma remember_inv received i p s k n n' :
  node_inv received n -> remember_ok i p s n = (Ok tt, n') -> node_inv (OKMessage i p s k :: received) n'.
Proof.
  intros (Hid & HN & HR & Hi). assert (Hi' := receive_inv _ (OKMessage i p s k) _ Hi).
  unfold remember_ok. participant n. handle. cbn in Hid, HN, HR, Hi, Hi'.
  assert (Hplus : count (is_ok i p s) (OKMessage i p s k :: received) = 1 + count (is_ok i p s) received).
  { rewrite count_cons. cbn. by rewrite !Z.eqb_refl. }
  pose proof (count_nonneg (is_ok i p s) received).
  destruct (find_index (ok_for i p s) S) as [x|] eqn:E; handle.
  - destruct (saved_at _ _ _ _ _ _ Hi E) as (ok & Hok & Hb). cbn in Hok. rewrite Hok. cbn [from_option].
    destruct (_ <=? 6); handle; [|done]. intros [= <-]. split_and!; try done. eapply saved_inv; [|exact Hi'].
    intros ok' [y [(<- & <- & _)|[_ Hy]]%list_lookup_insert_Some]%list_elem_of_lookup;
      [|by eapply (inv_saved _ _ Hi'), list_elem_of_lookup_2]. cbn [ar_instance ar_proposal ar_station Paxos.already_received].
    rewrite Hplus.
    pose proof (u32_le (already_received ok + 1)). pose proof (u32_range (already_received ok + 1)). unfold in_u32 in *. lia.
  - intros [= <-]. split_and!; try done. eapply saved_inv; [|exact Hi'].
    intros ok' [Hin| ->%list_elem_of_singleton]%elem_of_app; [by apply (inv_saved _ _ Hi')|]. cbn. lia.
Qed.

Lemma node_receive_inv received m n : node_inv received n -> node_inv (m :: received) n.
Proof. intros (? & ? & ? & ?). split_and!; try done. by apply receive_inv. Qed.

Lemma acceptor_ok_inv received i p s k n n' :
  node_inv received n -> acceptor_processOKMessage known_intersection i p s n = (Ok tt, n') ->
  node_inv (OKMessage i p s k :: received) n'.
Proof.
  intros Hn. unfold acceptor_processOKMessage. rewrite bind_get. destruct Hn as (Hid & HN & HR & Hi).
  destruct (Z.eqb_spec s (node_id (container n))) as [|Hs]; [intros [= <-]; by apply node_receive_inv|].
  rewrite Hid in Hs. destruct (negb _ || _ || _ || _) eqn:Eg; [by apply remember_inv|].
  apply orb_false_iff in Eg as [[[Ei Eii]%orb_false_iff Ep]%orb_false_iff Es].
  apply negb_false_iff in Ei. apply negb_false_iff, Z.eqb_eq in Eii, Ep, Es.
  apply (receive_inv _ (OKMessage i p s k)) in Hi as Hi'.
  intros ([] & n1 & [Eq ->]%throw_if_Ok & H)%bind_Ok.
  apply orb_false_iff in Eq as [[E1 E2]%orb_false_iff E3]. apply negb_false_iff, Z.eqb_eq in E1, E2, E3.
  apply bind_Ok in H as ([] & n1 & H1 & H). revert H1 H. participant n. handle. cbn in * |-. destruct A as [ai ap as' data].
  cbn in Eii, Ep, Es. subst ai ap as'. intros [= <-].
  assert (Hd : data <> []) by (intros ->; done).
  destruct (inv_current _ _ Hi) as (_ & _ & _ & Hc); [done|done|]. cbn in Hc.
  assert (Hplus : count (is_ok i p s) (OKMessage i p s k :: received) = 1 + count (is_ok i p s) received).
  { rewrite count_cons. cbn. by rewrite !Z.eqb_refl. }
  pose proof (u32_ge (R - 1) ltac:(lia)). pose proof (u32_range (R - 1)) as Hr. unfold in_u32 in Hr.
  apply (remaining_inv _ _ _ _ _ _ _ _ _ (u32 (R - 1))) in Hi'; [|cbn; lia].
  destruct (u32 (R - 1) =? 0) eqn:ER; [|intros [= <-]; split_and!; try done; apply Hr].
  intros H'. eapply (send_response_inv _ i p s data); [|..|exact H']; try done; [|cbn; congruence|lia].
  split_and!; try done. apply Hr.
Qed.

(** The messages of a participant of the network. *)
Definition sensible (m : PaxosMessage) : Prop :=
  match m with
  | AcceptMessage _ _ s _ => s <> me /\ s < UINT32_MAX
  | PrepareMessage _ p s => p <= UINT32_MAX /\ s <= UINT32_MAX
  | _ => True
  end.

Lemma process_inv received m n n' :
  node_inv received n -> sensible m -> timely n m -> processPaxosMessage known_intersection m n = (Ok tt, n') ->
  node_inv (m :: received) n'.
Proof.
  intros Hn Hm Ht. destruct m as [i p s|i p s b q t|i p s k|i p s data|i p s]; cbn [processPaxosMessage]; intros H.
  - apply node_receive_inv. destruct Hm. by apply (prepare_inv _ i p s n).
  - apply node_receive_inv. by eapply promise_inv.
  - apply bind_Ok in H as ([] & n1 & H1 & H2). eapply acceptor_ok_inv; [|exact H2]. by eapply proposer_ok_inv.
  - destruct Hm. by apply (accept_message_inv _ i p s data n).
  - apply node_receive_inv. by eapply response_inv.
Qed.

(** A participant that has done nothing. *)
Lemma consensus_initial_inv s : number_paxos_participants s = N -> node_inv [] (initial_PaxosNode me s).
Proof.
  intros HN. split_and!; try done. split; cbn; try done; try (intros *; by rewrite lookup_empty); intros *;
    try by intros ?%elem_of_nil. by intros [?%elem_of_nil|(_ & data & ?%elem_of_nil)].
Qed.

End Invariant.

(** ** What is published stays published *)

Definition appends {A} (f : M PaxosNode A) : Prop :=
  forall n r n', f n = (r, n') -> published_ (around n) `prefix_of` published_ (around n').

Lemma appends_bind {A B} (m : M PaxosNode A) (k : A -> M PaxosNode B) :
  appends m -> (forall a, appends (k a)) -> appends (m ≫= k).
Proof.
  intros Hm Hk n r n'. mred. destruct (m n) as [[a|e|] n1] eqn:E; intros H.
  - etrans; [by eapply Hm|by eapply Hk].
  - injection H as _ <-. by eapply Hm.
  - injection H as _ <-. by eapply Hm.
Qed.
Lemma appends_pure {A} (f : M PaxosNode A) : (forall n, (f n).2 = n) -> appends f.
Proof. intros Hf n r n' E. specialize (Hf n). rewrite E in Hf. cbn in Hf. by subst. Qed.
Lemma appends_ret {A} (a : A) : appends (mret a).
Proof. by apply appends_pure. Qed.
Lemma appends_get : appends get.
Proof. by apply appends_pure. Qed.
Lemma appends_lift {A} (m : outcome A) : appends (lift m).
Proof. by apply appends_pure. Qed.
Lemma appends_throw_if b e : appends (throw_if b e).
Proof. apply appends_pure. by destruct b. Qed.
Lemma appends_container f : appends (on_container f).
Proof. by intros n r n' [= _ <-]. Qed.
Lemma appends_proposer f : appends (on_proposer f).
Proof. by intros n r n' [= _ <-]. Qed.
Lemma appends_acceptor f : appends (on_acceptor f).
Proof. by intros n r n' [= _ <-]. Qed.
Lemma appends_around f :
  (forall o, published_ o `prefix_of` published_ (f o)) -> appends (on_around f).
Proof. intros Hf n r n' [= _ <-]. apply Hf. Qed.
Lemma appends_for_each {A} (l : list A) (f : A -> M PaxosNode unit) : (forall x, appends (f x)) -> appends (for_each l f).
Proof. intros Hf. induction l; [apply appends_ret|by apply appends_bind]. Qed.

(** Follows the statements of a handler. *)
Ltac appends :=
  repeat match goal with
  | |- appends (_ ≫= _) => apply appends_bind; [|intros ?]
  | |- appends (mret _) => apply appends_ret
  | |- appends get => apply appends_get
  | |- appends (lift _) => apply appends_lift
  | |- appends (throw_if _ _) => apply appends_throw_if
  | |- appends (on_container _) => apply appends_container
  | |- appends (on_proposer _) => apply appends_proposer
  | |- appends (on_acceptor _) => apply appends_acceptor
  | |- appends (on_around _) => apply appends_around; intros []; cbn; (reflexivity || by eexists)
  | |- appends (for_each _ _) => apply appends_for_each; intros ?
  | |- appends (if ?b then _ else _) => destruct b
  | |- appends (match ?x with _ => _ end) => destruct x
  | |- appends (let _ := _ in _) => cbv zeta
  end.

Ltac basics :=
  unfold push_accepted, check, agree_on, promised_at, proposal_id_at, schedule, cancel, call_fail, on_proposal;
  unfold promise_to, publishMessage.

Lemma send_response_appends : appends (sendResponseMessage known_intersection).
Proof. unfold sendResponseMessage. basics. appends. Qed.

Lemma process_appends m : appends (processPaxosMessage known_intersection m).
Proof.
  pose proof send_response_appends as Hs. destruct m; cbn [processPaxosMessage].
  - unfold processPrepareMessage. basics. appends.
  - unfold processPromiseMessage, start_accept_phase. basics. appends.
  - unfold proposer_processOKMessage, processResponseMessage, acceptor_processOKMessage, remember_ok. basics. appends; done.
  - unfold processAcceptMessage. basics. appends; done.
  - unfold processResponseMessage. basics. appends.
Qed.

Lemma find_appends points seconds now_ms : appends (findConsensus points seconds now_ms).
Proof. unfold findConsensus. basics. appends. Qed.

Lemma timeout_appends proposal_id : appends (prepareTimeout proposal_id).
Proof. unfold prepareTimeout. basics. appends. Qed.

(** ** The network *)

(** The messages of [l] for the participant [k]. *)
Definition messages_to (k : Z) (l : list (Z * PaxosMessage)) : list PaxosMessage :=
  (List.filter (fun x : Z * PaxosMessage => x.1 =? k) l).*2.

Definition published_by (ns : gmap Z PaxosNode) (j : Z) : list PaxosMessage :=
  from_option (fun n => published_ (around n)) [] (ns !! j).

(** What the others than [k] have published. *)
Definition published_to (ids : list Z) (k : Z) (ns : gmap Z PaxosNode) : list PaxosMessage :=
  flat_map (fun j => if j =? k then [] else published_by ns j) ids.

Lemma messages_to_app k l1 l2 : messages_to k (l1 ++ l2) = messages_to k l1 ++ messages_to k l2.
Proof. unfold messages_to. by rewrite List.filter_app, fmap_app. Qed.
Lemma messages_to_cons k x l : messages_to k (x :: l) = (if x.1 =? k then [x.2] else []) ++ messages_to k l.
Proof. unfold messages_to. cbn. by destruct (x.1 =? k). Qed.
Lemma elem_of_messages_to k m l : m ∈ messages_to k l <-> (k, m) ∈ l.
Proof.
  unfold messages_to. rewrite list_elem_of_fmap. setoid_rewrite list_elem_of_In. setoid_rewrite filter_In. split.
  - intros ([k' m'] & -> & Hin & Hk). cbn in *. apply Z.eqb_eq in Hk. by subst.
  - intros Hin. exists (k, m). cbn. by rewrite Z.eqb_refl.
Qed.
Lemma messages_to_perm k l1 l2 : l1 ≡ₚ l2 -> messages_to k l1 ≡ₚ messages_to k l2.
Proof.
  induction 1 as [|x l1 l2 _ IH|x y l|l1 l2 l3 _ IH1 _ IH2]; rewrite ?messages_to_cons; [done|by rewrite IH| |by etrans].
  rewrite !app_assoc. apply Permutation_app_tail, Permutation_app_comm.
Qed.

Lemma messages_to_none k l : (forall m, (k, m) ∉ l) -> messages_to k l = [].
Proof.
  intros Hl. destruct (messages_to k l) as [|m l'] eqn:E; [done|]. destruct (Hl m). apply elem_of_messages_to.
  rewrite E. by left.
Qed.

(** The copies of one message. *)
Definition copies (from : Z) (m : PaxosMessage) (receivers : list Z) : list (Z * PaxosMessage) :=
  to ← filter (fun id => id <> from) receivers; [(to, m)].

Lemma copies_cons from m x l :
  copies from m (x :: l) = (if decide (x <> from) then [(x, m)] else []) ++ copies from m l.
Proof. unfold copies. rewrite filter_cons. by case_decide. Qed.

Lemma elem_of_copies from m receivers k m' : (k, m') ∈ copies from m receivers -> k ∈ receivers /\ k <> from.
Proof.
  unfold copies. intros (to & Hin%list_elem_of_singleton & [? ?]%list_elem_of_filter)%list_elem_of_bind.
  injection Hin as -> _. done.
Qed.

Lemma messages_to_copies k from m receivers :
  NoDup receivers -> messages_to k (copies from m receivers) ⊆+ (if from =? k then [] else [m]).
Proof.
  intros Hnd. destruct (Z.eqb_spec from k) as [->|Hne].
  { rewrite messages_to_none; [done|]. intros m' [_ ?]%elem_of_copies. done. }
  induction receivers as [|x l IH]; [apply submseteq_nil_l|]. apply NoDup_cons in Hnd as [Hx Hnd].
  specialize (IH Hnd). rewrite copies_cons. case_decide as Hxf; [|done].
  rewrite messages_to_app, messages_to_cons. cbn. destruct (Z.eqb_spec x k) as [->|]; [|done].
  rewrite messages_to_none; [done|]. intros m' [? _]%elem_of_copies. done.
Qed.

Lemma messages_to_broadcast k from others msgs :
  messages_to k (broadcast from others msgs) ⊆+ (if from =? k then [] else msgs).
Proof.
  induction msgs as [|m msgs IH]; [by destruct (_ =? _)|].
  change (broadcast from others (m :: msgs)) with
    (copies from m (map_to_list others).*1 ++ broadcast from others msgs).
  rewrite messages_to_app. pose proof (messages_to_copies k from m _ (NoDup_fst_map_to_list others)) as Hone.
  destruct (from =? k).
  - by apply (submseteq_app _ [] _ []).
  - by apply (submseteq_app _ [m]).
Qed.

Lemma published_to_cons k ns j ids :
  published_to (j :: ids) k ns = (if j =? k then [] else published_by ns j) ++ published_to ids k ns.
Proof. done. Qed.

(** One more message list for one publisher. *)
Lemma published_to_update ids k ns id n' new :
  NoDup ids -> id ∈ ids -> published_ (around n') = published_by ns id ++ new ->
  published_to ids k (<[id := n']> ns) ≡ₚ published_to ids k ns ++ (if id =? k then [] else new).
Proof.
  intros Hnd Hin Hp. assert (Hne : forall j, j <> id -> published_by (<[id := n']> ns) j = published_by ns j).
  { intros j Hj. unfold published_by. by rewrite lookup_insert_ne. }
  assert (Heq : published_by (<[id := n']> ns) id = published_by ns id ++ new).
  { unfold published_by at 1. by rewrite lookup_insert_eq. }
  assert (Hout : forall l, id ∉ l -> published_to l k (<[id := n']> ns) = published_to l k ns).
  { induction l as [|j l IH]; [done|]. intros [Hj Hl]%not_elem_of_cons.
    by rewrite !published_to_cons, Hne, IH by done. }
  induction ids as [|j ids IH]; [by apply elem_of_nil in Hin|]. apply NoDup_cons in Hnd as [Hj Hnd].
  rewrite !published_to_cons. destruct (decide (j = id)) as [->|Hjne].
  - rewrite Heq, Hout by done. destruct (id =? k); [by rewrite app_nil_r|].
    rewrite <- !app_assoc. apply Permutation_app_head, Permutation_app_comm.
  - apply elem_of_cons in Hin as [->|Hin]; [done|]. rewrite Hne, <- app_assoc by done. apply Permutation_app_head.
    by apply IH.
Qed.

Record net_inv (ids : list Z) (net : PaxosNetwork) : Prop := {
  ni_dom : forall id, is_Some (nodes net !! id) <-> id ∈ ids;
  ni_nodes : forall id n, nodes net !! id = Some n ->
    node_inv id (Z.of_nat (length ids)) (messages_to id (delivered net)) n;
  ni_sent : forall k, messages_to k (in_flight net ++ delivered net) ⊆+ published_to ids k (nodes net);
}.

Lemma update_inv ids id n n' net :
  NoDup ids -> nodes net !! id = Some n -> published_ (around n) `prefix_of` published_ (around n') ->
  node_inv id (Z.of_nat (length ids)) (messages_to id (delivered net)) n' ->
  (forall j m, j <> id -> nodes net !! j = Some m ->
     node_inv j (Z.of_nat (length ids)) (messages_to j (delivered net)) m) ->
  (forall j, is_Some (nodes net !! j) <-> j ∈ ids) ->
  (forall k, messages_to k (in_flight net ++ delivered net) ⊆+ published_to ids k (nodes net)) ->
  net_inv ids (update id n n' net).
Proof.
  intros Hnd Hn [new Hnew] Hn' Hothers Hdom Hsent. split; cbn.
  - intros j. destruct (decide (j = id)) as [->|?]; [|by rewrite lookup_insert_ne].
    rewrite lookup_insert_eq, <- Hdom, Hn. by split; eexists.
  - intros j m. destruct (decide (j = id)) as [->|?]; [rewrite lookup_insert_eq; by intros [= <-]|].
    rewrite lookup_insert_ne by done. by apply Hothers.
  - intros k. rewrite (published_to_update _ _ _ _ _ new); [|done|by rewrite <- Hdom, Hn|].
    2:{ unfold published_by. by rewrite Hn. }
    etrans; [apply Permutation_submseteq, (messages_to_perm k _
      ((in_flight net ++ delivered net) ++ broadcast id (nodes net) (newly_published n n'))); cbn; solve_Permutation|].
    rewrite messages_to_app. apply submseteq_app; [done|]. unfold newly_published. rewrite Hnew, drop_app_length.
    apply messages_to_broadcast.
Qed.


(** What is on its way or has arrived was published by another participant. *)
Lemma published_origin ids net k m :
  net_inv ids net -> (k, m) ∈ in_flight net ++ delivered net ->
  exists j n, j ∈ ids /\ j <> k /\ nodes net !! j = Some n /\ m ∈ published_ (around n).
Proof.
  intros Hn Hm%elem_of_messages_to. eapply elem_of_submseteq in Hm; [|apply (ni_sent _ _ Hn)].
  unfold published_to in Hm. apply list_elem_of_In, in_flat_map in Hm as (j & Hj & Hm). apply list_elem_of_In in Hj.
  destruct (Z.eqb_spec j k); [done|]. apply list_elem_of_In in Hm. unfold published_by in Hm.
  destruct (nodes net !! j) as [n'|] eqn:E; [|by apply elem_of_nil in Hm]. by exists j, n'.
Qed.

Section Run.
Variable ids : list Z.
Hypothesis ids_distinct : NoDup ids.
Hypothesis ids_range : Forall (fun id => 0 <= id < UINT32_MAX) ids.
Hypothesis ids_number : 2 <= Z.of_nat (length ids) < 2 ^ 32.

Lemma sensible_in_flight net k m :
  net_inv ids net -> (k, m) ∈ in_flight net ++ delivered net -> sensible k m.
Proof.
  intros Hn Hm. destruct (published_origin _ _ _ _ Hn Hm) as (j & n & Hj & Hjk & Hnode & Hp).
  destruct (ni_nodes _ _ Hn j n Hnode) as (_ & _ & _ & Hv). rewrite Forall_forall in ids_range. specialize (ids_range j Hj).
  destruct m as [i p s| | |i p s data|]; cbn; try done.
  - destruct (inv_prepares _ _ _ _ Hv i p s Hp) as [-> ?]. lia.
  - destruct (inv_own _ _ _ _ Hv i p s data Hp) as [-> _]. lia.
Qed.

Lemma consensus_step_inv net net' : net_inv ids net -> step timely net net' -> net_inv ids net'.
Proof.
  intros Hn Hstep. assert (Hnode := ni_nodes _ _ Hn). assert (Hdom := ni_dom _ _ Hn). assert (Hsent := ni_sent _ _ Hn).
  assert (Hid : forall id n, nodes net !! id = Some n -> 0 <= id < UINT32_MAX).
  { intros id n Hid. rewrite Forall_forall in ids_range. apply ids_range. rewrite <- Hdom, Hid. by eexists. }
  destruct Hstep as [q1 id m q2 n n' Hq Hl Ht Hp|q1 id m q2 Hq|id n n' pts secs now Hl Hnext Hf|id n n' t1 e p t2 Hl Ht Hf].
  - assert (Hperm : in_flight net ++ delivered net ≡ₚ (q1 ++ q2) ++ (id, m) :: delivered net).
    { rewrite Hq. solve_Permutation. }
    apply update_inv; cbn [nodes in_flight delivered]; try done.
    + by eapply process_appends.
    + rewrite messages_to_cons. cbn. rewrite Z.eqb_refl. cbn.
      eapply process_inv; [by eapply Hid|done|by apply Hnode| |done|done].
      eapply sensible_in_flight; [done|]. rewrite Hq. set_solver.
    + intros j m' Hj Hm'. rewrite messages_to_cons. cbn. rewrite (proj2 (Z.eqb_neq id j)) by done. by apply Hnode.
    + intros k. etrans; [|apply Hsent]. apply Permutation_submseteq, messages_to_perm. by symmetry.
  - split; cbn [nodes in_flight delivered]; try done. intros k. etrans; [|apply Hsent]. rewrite Hq, !messages_to_app, messages_to_cons.
    apply submseteq_app; [|done]. apply submseteq_app; [done|]. by apply submseteq_inserts_l.
  - apply update_inv; try done; [by eapply find_appends| |by intros; apply Hnode].
    eapply find_inv; [by eapply Hid|done|by apply Hnode|done|done].
  - apply update_inv; try done; [| |by intros; apply Hnode].
    + apply timeout_appends in Hf. by destruct n as [? ? ? []].
    + eapply timeout_inv; [|done]. specialize (Hnode _ _ Hl). by destruct n as [? ? ? []].
Qed.

Lemma initial_net_inv s :
  number_paxos_participants s = Z.of_nat (length ids) -> net_inv ids (initial s ids).
Proof.
  intros Hs. set (f := fun id => (id, initial_PaxosNode id s)).
  assert (Hfst : (f <$> ids).*1 = ids).
  { rewrite <- list_fmap_compose. apply list_fmap_id. }
  assert (Hnodes : forall id n, list_to_map (M := gmap Z PaxosNode) (f <$> ids) !! id = Some n <->
    id ∈ ids /\ n = initial_PaxosNode id s).
  { intros id n. rewrite <- elem_of_list_to_map by (by rewrite Hfst). rewrite list_elem_of_fmap. unfold f. naive_solver. }
  split; cbn.
  - intros id. change (map f ids) with (f <$> ids). split; [intros [n [? _]%Hnodes]; done|].
    intros Hid. exists (initial_PaxosNode id s). by apply Hnodes.
  - intros id n [_ ->]%Hnodes. by apply consensus_initial_inv.
  - intros k. apply submseteq_nil_l.
Qed.

Lemma consensus_reachable_inv s net :
  number_paxos_participants s = Z.of_nat (length ids) -> reachable timely s ids net -> net_inv ids net.
Proof.
  intros Hs Hr. unfold reachable in Hr. remember (initial s ids) as net0 eqn:E.
  assert (H0 : net_inv ids net0) by (subst; by apply initial_net_inv). clear E.
  induction Hr; eauto using consensus_step_inv.
Qed.
End Run.

(** ** Everybody has voted for what is committed *)

Lemma count_perm f l1 l2 : l1 ≡ₚ l2 -> count f l1 = count f l2.
Proof. induction 1; rewrite ?count_cons in *; lia. Qed.
Lemma count_submseteq f l1 l2 : l1 ⊆+ l2 -> count f l1 <= count f l2.
Proof. intros [l ->%(count_perm f)]%submseteq_Permutation. rewrite count_app. pose proof (count_nonneg f l). lia. Qed.
Lemma count_unique f l m m' : count f l <= 1 -> m ∈ l -> m' ∈ l -> f m = true -> f m' = true -> m = m'.
Proof.
  intros Hc [l1 [l2 ->]]%list_elem_of_split Hm' Hf Hf'. rewrite count_app, count_cons, Hf in Hc.
  pose proof (count_nonneg f l1). pose proof (count_nonneg f l2).
  apply elem_of_app in Hm' as [Hin|[->|Hin]%elem_of_cons]; [|done|]; pose proof (count_pos f _ _ Hin Hf'); lia.
Qed.

Lemma count_published f (P : Z -> Prop) `{forall j, Decision (P j)} ids k ns :
  (forall j, j ∈ ids -> j <> k -> count f (published_by ns j) <= if decide (P j) then 1 else 0) ->
  count f (published_to ids k ns) <= Z.of_nat (length (filter P ids)).
Proof.
  induction ids as [|j ids IH]; intros Hle; [done|]. rewrite published_to_cons, count_app, filter_cons.
  specialize (IH (fun j' Hj' => Hle j' (list_elem_of_further _ _ _ Hj'))). specialize (Hle j (list_elem_of_here _ _)).
  destruct (Z.eqb_spec j k) as [->|Hjk]; [rewrite count_nil; case_decide; cbn [length]; lia|].
  specialize (Hle Hjk). case_decide; cbn [length]; lia.
Qed.

Section Agreement.
Variables (ids : list Z) (net : PaxosNetwork).
Hypothesis ids_distinct : NoDup ids.
Hypothesis invariant : net_inv ids net.

Lemma node_published k n : nodes net !! k = Some n -> published_by (nodes net) k = published_ (around n).
Proof. intros Hk. unfold published_by. by rewrite Hk. Qed.

Lemma node_of j : j ∈ ids -> exists n, nodes net !! j = Some n /\
  view_inv j (Z.of_nat (length ids)) (messages_to j (delivered net)) (view n).
Proof.
  intros [n Hn]%(ni_dom _ _ invariant). exists n. split; [done|]. by apply (ni_nodes _ _ invariant).
Qed.

Lemma received_le f k : count f (messages_to k (delivered net)) <= count f (published_to ids k (nodes net)).
Proof.
  etrans; [|apply count_submseteq, (ni_sent _ _ invariant)]. rewrite messages_to_app, count_app.
  pose proof (count_nonneg f (messages_to k (in_flight net))). lia.
Qed.

(** Only the proposer of a request sends it for acceptance, and once. *)
Lemma accepts_once i p s k : count (is_accept i p s) (published_to ids k (nodes net)) <= 1.
Proof.
  etrans; [apply (count_published _ (fun j => j = s))|].
  - intros j Hj _. destruct (node_of j Hj) as (n & Hn & Hv). rewrite (node_published j n) by done. case_decide as Hjs.
    + subst j. apply (inv_once _ _ _ _ Hv).
    + rewrite count_zero; [done|]. intros [] Hm; try done. cbn. destruct (inv_own _ _ _ _ Hv _ _ _ _ Hm) as [-> _].
      destruct (Z.eqb_spec j s); [done|]. by rewrite andb_false_r.
  - assert (filter (fun j => j = s) ids ⊆+ [s]) as Hsub%submseteq_length.
    { apply NoDup_submseteq; [by apply NoDup_filter|]. intros j [-> _]%list_elem_of_filter. by left. }
    cbn in Hsub. lia.
Qed.

(** A participant tells everyone OK at most once per request, and never for its own. *)
Lemma oks_once i p s j :
  j ∈ ids -> count (is_ok i p s) (published_by (nodes net) j) <= if decide (j = s) then 0 else 1.
Proof.
  intros Hj. destruct (node_of j Hj) as (n & Hn & Hv). rewrite (node_published j n) by done. case_decide as Hjs.
  - rewrite count_zero; [done|]. intros [] Hm; try done. cbn. destruct (inv_sender _ _ _ _ Hv _ _ _ _ Hm) as [_ Hne].
    destruct (Z.eqb_spec station_id s); [congruence|]. by rewrite andb_false_r.
  - etrans; [apply (inv_ok_once _ _ _ _ Hv)|]. etrans; [apply received_le|apply accepts_once].
Qed.

Lemma accept_origin i p s data k :
  (k, AcceptMessage i p s data) ∈ delivered net ->
  s ∈ ids /\ s <> k /\ AcceptMessage i p s data ∈ published_by (nodes net) s.
Proof.
  intros Hm. destruct (published_origin ids net k (AcceptMessage i p s data) invariant) as (j & n & Hj & Hjk & Hn & Hp).
  { apply elem_of_app. by right. }
  destruct (inv_own _ _ _ _ (proj2 (proj2 (proj2 (ni_nodes _ _ invariant j n Hn)))) _ _ _ _ Hp) as [-> _].
  by rewrite (node_published j n).
Qed.

Lemma committed_votes k n i p s j :
  nodes net !! k = Some n -> committed n i (p, s) -> j ∈ ids -> voted j (published_by (nodes net) j) i (p, s).
Proof.
  intros Hn Hc Hj. assert (Hk : k ∈ ids) by (apply (ni_dom _ _ invariant); by rewrite Hn).
  destruct (node_of k Hk) as (n' & Hn' & Hv). rewrite Hn in Hn'. injection Hn' as <-.
  destruct (inv_committed _ _ _ _ Hv i p s Hc) as (_ & (data & _ & Hacc) & Hok & Hcount & _).
  apply elem_of_messages_to, accept_origin in Hacc as (Hs & Hsk & Hpub).
  destruct (decide (j = s)) as [->|Hjs]; [right; split; [done|by exists data]|].
  destruct (decide (j = k)) as [->|Hjk]; [left; by rewrite (node_published k n)|]. left.
  destruct (decide (count (is_ok i p s) (published_by (nodes net) j) = 0)) as [Hz|Hz].
  - (* then too few OKs could have arrived *)
    assert (Hle : count (is_ok i p s) (published_to ids k (nodes net)) <=
      Z.of_nat (length (filter (fun x => x ∉ [k; s; j]) ids))).
    { apply count_published. intros x Hx Hxk. pose proof (oks_once i p s x Hx) as Ho. case_decide as Hxs; case_decide as Hin; try lia.
      apply elem_of_cons in Hin as [|[|[->|[]%elem_of_nil]%elem_of_cons]%elem_of_cons]; [done..|lia]. }
    assert ([k; s; j] ++ filter (fun x => x ∉ [k; s; j]) ids ⊆+ ids) as Hsub%submseteq_length.
    { apply NoDup_submseteq.
      - apply NoDup_app. split_and!; [|by intros x Hx [? _]%list_elem_of_filter|by apply NoDup_filter].
        repeat (apply NoDup_cons; split; [set_solver|]). by apply NoDup_nil.
      - intros x [Hx|[_ Hx]%list_elem_of_filter]%elem_of_app; [set_solver|done]. }
    rewrite length_app in Hsub. cbn [length] in Hsub. pose proof (received_le (is_ok i p s) k). lia.
  - pose proof (count_nonneg (is_ok i p s) (published_by (nodes net) j)).
    destruct (count_elem (is_ok i p s) (published_by (nodes net) j)) as ([] & Hm & Ho); [lia|..]; try done.
    cbn in Ho. apply andb_prop in Ho as [[->%Z.eqb_eq ->%Z.eqb_eq]%andb_prop ->%Z.eqb_eq].
    destruct (node_of j Hj) as (m & Hm' & Hvm). rewrite (node_published j m) in * by done.
    by destruct (inv_sender _ _ _ _ Hvm _ _ _ _ Hm) as [-> _].
Qed.
End Agreement.

(** C3: agreement of the acceptors. Take a network of at least two participants with different ids below the largest
    [uint32_t], all with the true number of participants in their settings, in which messages are delivered in any order
    or lost, but none twice, routes are asked for and timeouts fire at any time, no handler throws and no proposal id reaches
    the largest [uint32_t]. Suppose further that a promise that is counted for a proposal was given for it: the rule
    [timely], which the code does not enforce and without which agreement fails (the property on stale promises). Then two
    acceptors that have confirmed an instance to its proposer, as having all OKs, have confirmed the same proposal, and both
    hold the same route data for the instance. It says nothing on what the proposer itself keeps. *)
Theorem agreement s ids net A B nA nB i r r' :
  well_formed s ids -> reachable timely s ids net ->
  nodes net !! A = Some nA -> nodes net !! B = Some nB -> committed nA i r -> committed nB i r' ->
  r = r' /\ exists data,
    finally_accepted_data (container nA) !! Z.to_nat i = Some data /\
    finally_accepted_data (container nB) !! Z.to_nat i = Some data.
Proof.
  intros (Hnd & Hrange & HN & Hnum) Hreach HA HB Hc Hc'. rewrite HN in Hnum.
  pose proof (consensus_reachable_inv ids Hnd Hrange Hnum s net HN Hreach) as Hinv.
  assert (HAi : A ∈ ids) by (apply (ni_dom _ _ Hinv); by rewrite HA).
  assert (HBi : B ∈ ids) by (apply (ni_dom _ _ Hinv); by rewrite HB). destruct r as [p st], r' as [p' st'].
  destruct (ni_nodes _ _ Hinv A nA HA) as (_ & _ & _ & Hva). destruct (ni_nodes _ _ Hinv B nB HB) as (_ & _ & _ & Hvb).
  pose proof (committed_votes ids net Hnd Hinv A nA i p st B HA Hc HBi) as V1.
  pose proof (committed_votes ids net Hnd Hinv B nB i p' st' A HB Hc' HAi) as V2.
  rewrite (node_published net B nB) in V1 by done. rewrite (node_published net A nA) in V2 by done.
  destruct (inv_committed _ _ _ _ Hva i p st Hc) as (_ & (d & Hd & Hm) & _ & _ & Hle).
  destruct (inv_committed _ _ _ _ Hvb i p' st' Hc') as (_ & (d' & Hd' & Hm') & _ & _ & Hle').
  specialize (Hle _ V2). specialize (Hle' _ V1). unfold request_le in Hle, Hle'. cbn in Hle, Hle'.
  assert (p = p' /\ st = st') as [<- <-] by lia. split; [done|]. exists d. split; [done|]. etrans; [exact Hd'|]. f_equal.
  apply elem_of_messages_to, (accept_origin ids net Hinv) in Hm as (Hst & HstA & Hm).
  apply elem_of_messages_to, (accept_origin ids net Hinv) in Hm' as (_ & _ & Hm').
  assert (AcceptMessage i p st d' = AcceptMessage i p st d) as [= ->]; [|done].
  destruct (node_of ids net Hinv st Hst) as (n & Hn & Hv). rewrite (node_published net st n) in Hm, Hm' by done.
  eapply (count_unique (is_accept i p st)); [apply (inv_once _ _ _ _ Hv)|done..| |]; cbn; by rewrite !Z.eqb_refl.
Qed.

End Network.
