(* ===== verification/PaxosRuns.v ===== *)
(** * Runs of the participants

    The step relation of [PaxosSafety.v] made executable, a run that commits an instance, and a
    run in which two participants commit different proposals for the same instance, because a
    promise of an earlier instance is counted for a later one. *)

From Stdlib Require Import SpecFloat.
From S2P Require Import Prelude TreeMapper Containers RouteCalculation Paxos PaxosSafety.

(** ** Executable steps *)

(** [Deliver id which]: the first message for [id] that passes the test. *)
Inductive Action :=
| Deliver (id : Z) (which : PaxosMessage -> bool)
| Find (id : Z) (points : PointTimePairs) (seconds : double) (now_ms : Z)
| Timeout (id : Z) (index : nat).

Fixpoint position_of (p : Z * PaxosMessage -> bool) (l : list (Z * PaxosMessage)) : nat :=
  match l with
  | [] => O
  | x :: l' => if p x then O else S (position_of p l')
  end.

Section Play.
Variable known_intersection : Vector2D -> bool.
Variable allowed : PaxosNode -> PaxosMessage -> bool.

Definition without (index : nat) (net : PaxosNetwork) : list (Z * PaxosMessage) := delete index (in_flight net).

Definition play (a : Action) (net : PaxosNetwork) : option PaxosNetwork :=
  match a with
  | Deliver receiver which =>
      let index := position_of (fun x => (x.1 =? receiver) && which x.2) (in_flight net) in
      '(id, m) ← in_flight net !! index;
      n ← nodes net !! id;
      if allowed n m then
        match processPaxosMessage known_intersection m n with
        | (Ok tt, n') =>
            Some (update id n n' {| nodes := nodes net; in_flight := without index net;
                                    delivered := (id, m) :: delivered net |})
        | _ => None
        end
      else None
  | Find id points seconds now_ms =>
      n ← nodes net !! id;
      if next_proposal_id n <? UINT32_MAX then
        match findConsensus points seconds now_ms n with (Ok tt, n') => Some (update id n n' net) | _ => None end
      else None
  | Timeout id index =>
      n ← nodes net !! id;
      '(_, proposal_id) ← timeouts_ (around n) !! index;
      match prepareTimeout proposal_id (set_around (set_timeouts (delete index (timeouts_ (around n))) (around n)) n) with
      | (Ok tt, n') => Some (update id n n' net)
      | _ => None
      end
  end.

Fixpoint play_all (actions : list Action) (net : PaxosNetwork) : option PaxosNetwork :=
  match actions with
  | [] => Some net
  | a :: rest => play a net ≫= play_all rest
  end.

Section Sound.
Variable rule : PaxosNode -> PaxosMessage -> Prop.
Hypothesis allowed_rule : forall n m, allowed n m = true -> rule n m.

Lemma play_step a net net' : play a net = Some net' -> step known_intersection rule net net'.
Proof.
  destruct a as [receiver which|id points seconds now_ms|id index]; cbn [play].
  - set (index := position_of _ _). destruct (in_flight net !! index) as [[id m]|] eqn:Em; cbn; [|done].
    destruct (nodes net !! id) as [n|] eqn:En; cbn; [|done]. destruct (allowed n m) eqn:Ea; [|done].
    destruct (processPaxosMessage _ m n) as [[[]| |] n'] eqn:Ep; try done. intros [= <-].
    unfold without. rewrite delete_take_drop. econstructor; [|done|by apply allowed_rule|done]. by symmetry; apply take_drop_middle.
  - destruct (nodes net !! id) as [n|] eqn:En; cbn; [|done]. destruct (_ <? _) eqn:El; [|done].
    destruct (findConsensus _ _ _ n) as [[[]| |] n'] eqn:Ef; try done. intros [= <-].
    apply Z.ltb_lt in El. by eapply step_find.
  - destruct (nodes net !! id) as [n|] eqn:En; cbn; [|done].
    destruct (timeouts_ (around n) !! index) as [[event p]|] eqn:Et; cbn; [|done].
    destruct (prepareTimeout _ _) as [[[]| |] n'] eqn:Ef; try done. intros [= <-].
    rewrite delete_take_drop in Ef. eapply step_timeout; [done| |done]. by symmetry; apply take_drop_middle.
Qed.

Lemma play_all_reachable actions s ids net :
  play_all actions (initial s ids) = Some net -> reachable known_intersection rule s ids net.
Proof.
  unfold reachable. generalize (initial s ids). induction actions as [|a actions IH]; intros net0; cbn.
  - intros [= ->]. constructor.
  - destruct (play a net0) as [net1|] eqn:E; cbn; [|done]. intros H. econstructor; [by eapply play_step|by apply IH].
Qed.
End Sound.
End Play.

(** [timely] as a test. *)
Definition timely_b (n : PaxosNode) (m : PaxosMessage) : bool :=
  match m with
  | PromiseMessage instance prepare station _ accepted_prepare _ =>
      (accepted_prepare <? UINT32_MAX) &&
      let current := current_proposal_ (proposer n) in
      (negb (station =? node_id (container n)) || negb (proposal_initialized current) ||
       (needed_for_quorum current =? 0) ||
       (p_instance current =? instance) && (p_proposal current =? prepare))
  | _ => true
  end.

Lemma timely_b_timely n m : timely_b n m = true -> timely n m.
Proof.
  destruct m as [|i p s b q t| | |]; try done. cbn. intros [H1%Z.ltb_lt H]%andb_prop. split; [done|].
  intros -> Hi Hq. rewrite Z.eqb_refl, Hi in H. cbn in H. apply orb_prop in H as [H|H]; [lia|].
  apply andb_prop in H. lia.
Qed.

(** ** Two runs of three participants *)

Definition three : PaxosSettings :=
  {| replication := false; number_paxos_participants := 3; time_delta_intersections := d_of_Z 2;
     max_preplanning_time := d_of_Z 100 |}.
Definition crossing : PointTimePairs := [({| x := d_of_Z 10; y := d_of_Z 20 |}, d_of_Z 5)].
Definition anywhere : Vector2D -> bool := fun _ => true.

Definition prepare (i p s : Z) (m : PaxosMessage) : bool :=
  match m with PrepareMessage i' p' s' => (i' =? i) && (p' =? p) && (s' =? s) | _ => false end.
Definition promise (i p s : Z) (m : PaxosMessage) : bool :=
  match m with PromiseMessage i' p' s' _ _ _ => (i' =? i) && (p' =? p) && (s' =? s) | _ => false end.
Definition accept (i p s : Z) (m : PaxosMessage) : bool :=
  match m with AcceptMessage i' p' s' _ => (i' =? i) && (p' =? p) && (s' =? s) | _ => false end.
Definition ok (i p s k : Z) (m : PaxosMessage) : bool :=
  match m with OKMessage i' p' s' k' => (i' =? i) && (p' =? p) && (s' =? s) && (k' =? k) | _ => false end.
Definition response (i : Z) (m : PaxosMessage) : bool :=
  match m with ResponseMessage i' _ _ => i' =? i | _ => false end.

Definition at_start : PaxosNetwork := initial three [1; 2; 3].
Definition find_now (id : Z) : Action := Find id crossing (d_of_Z 0) 0.

(** Participant 2 asks and gets its route. *)
Definition decided (p : Z) : list Action :=
  [ Deliver 1 (accept 0 p 2); Deliver 3 (accept 0 p 2);
    Deliver 1 (ok 0 p 2 3); Deliver 3 (ok 0 p 2 1);
    Deliver 2 (response 0); Deliver 2 (response 0);
    Deliver 2 (ok 0 p 2 1); Deliver 2 (ok 0 p 2 3) ].

Definition asked : list Action :=
  [ find_now 2; Deliver 1 (prepare 0 0 2); Deliver 3 (prepare 0 0 2);
    Deliver 2 (promise 0 0 2); Deliver 2 (promise 0 0 2) ] ++ decided 0.

(** The first proposal of participant 2 times out; a promise for it completes the quorum of the
    second, so that a promise for the second stays on its way. *)
Definition leftover : list Action :=
  [ find_now 2; Deliver 1 (prepare 0 0 2); Deliver 3 (prepare 0 0 2); Timeout 2 0;
    find_now 2; Deliver 1 (prepare 0 1 2); Deliver 3 (prepare 0 1 2);
    Deliver 2 (promise 0 0 2); Deliver 2 (promise 0 1 2) ] ++ decided 1.

(** Instance 1: participant 1 has its proposal accepted by the others; participant 2 proposes
    too, with one promise, commits the proposal of participant 1, and then counts the promise
    of instance 0. *)
Definition disagreement : list Action :=
  leftover ++
  [ find_now 1; Deliver 2 (prepare 1 0 1); Deliver 3 (prepare 1 0 1);
    Deliver 1 (promise 1 0 1); Deliver 1 (promise 1 0 1);
    Deliver 2 (accept 1 0 1); Deliver 3 (accept 1 0 1);
    find_now 2; Deliver 1 (prepare 1 0 2); Deliver 3 (prepare 1 0 2);
    Deliver 2 (promise 1 0 2); Deliver 2 (ok 1 0 1 3);
    Deliver 2 (promise 0 1 2);
    Deliver 1 (accept 1 0 2); Deliver 3 (accept 1 0 2); Deliver 3 (ok 1 0 2 1) ].

(** The network after a run. *)
Definition after (allowed : PaxosNode -> PaxosMessage -> bool) (actions : list Action) : PaxosNetwork :=
  default at_start (play_all anywhere allowed actions at_start).
Definition node_at (id : Z) (net : PaxosNetwork) : PaxosNode :=
  default (initial_PaxosNode id three) (nodes net !! id).

Lemma three_well_formed : well_formed three [1; 2; 3].
Proof.
  split_and!; [|repeat constructor; unfold UINT32_MAX; lia|done|cbn; lia..].
  repeat (apply NoDup_cons; split; [set_solver|]). by apply NoDup_nil.
Qed.

Lemma after_reachable (rule : PaxosNode -> PaxosMessage -> Prop) allowed actions :
  (forall n m, allowed n m = true -> rule n m) ->
  (if play_all anywhere allowed actions at_start then true else false) = true ->
  reachable anywhere rule three [1; 2; 3] (after allowed actions).
Proof.
  intros Hr Hp. apply (play_all_reachable anywhere allowed rule Hr actions). unfold after, at_start in *.
  by destruct (play_all _ _ _ _).
Qed.

Lemma agreement_witness :
  let net := after timely_b asked in
  committed (node_at 1 net) 0 (0, 2) /\ committed (node_at 3 net) 0 (0, 2) /\
  (0, 2) = (0, 2) /\ exists data,
    finally_accepted_data (container (node_at 1 net)) !! Z.to_nat 0 = Some data /\
    finally_accepted_data (container (node_at 3 net)) !! Z.to_nat 0 = Some data.
Proof.
  cbv zeta. assert (H1 : committed (node_at 1 (after timely_b asked)) 0 (0, 2)).
  { apply (list_elem_of_lookup_2 _ 2). vm_compute. reflexivity. }
  assert (H3 : committed (node_at 3 (after timely_b asked)) 0 (0, 2)).
  { apply (list_elem_of_lookup_2 _ 2). vm_compute. reflexivity. }
  split; [exact H1|]. split; [exact H3|].
  apply (agreement anywhere three [1; 2; 3] (after timely_b asked) 1 3 (node_at 1 (after timely_b asked))
    (node_at 3 (after timely_b asked)) 0 (0, 2) (0, 2)).
  - exact three_well_formed.
  - apply (after_reachable timely timely_b asked timely_b_timely). vm_compute. reflexivity.
  - vm_compute. reflexivity.
  - vm_compute. reflexivity.
  - exact H1.
  - exact H3.
Defined.

(** C32: a promise of an earlier instance breaks agreement. The code counts a promise by its station alone, whatever
    instance and proposal it was given for. So there is a run of three participants, in which every message is delivered at
    most once, at the end of which two acceptors have confirmed different proposals for instance 1, and hold for it the
    same crossing with different times. *)
Theorem stale_promise_breaks_agreement :
  let net := after (fun _ _ => true) disagreement in
  well_formed three [1; 2; 3] /\ reachable anywhere (fun _ _ => True) three [1; 2; 3] net /\
  committed (node_at 2 net) 1 (0, 1) /\ committed (node_at 3 net) 1 (0, 2) /\
  exists time2 time3,
    finally_accepted_data (container (node_at 2 net)) !! 1%nat = Some [(PP_of {| x := d_of_Z 10; y := d_of_Z 20 |}, time2)] /\
    finally_accepted_data (container (node_at 3 net)) !! 1%nat = Some [(PP_of {| x := d_of_Z 10; y := d_of_Z 20 |}, time3)] /\
    d_lt time3 time2 = true.
Proof.
  cbv zeta. split; [apply three_well_formed|]. split; [|split; [|split]].
  - by apply after_reachable.
  - apply (list_elem_of_lookup_2 _ 6). vm_compute. reflexivity.
  - apply (list_elem_of_lookup_2 _ 8). vm_compute. reflexivity.
  - eexists _, _. split; [|split]; [vm_compute; reflexivity..|]. vm_compute. reflexivity.
Qed.

(** The participant whose route it is keeps other times for its crossings than all others: what
    it commits is relative to the start of its route. *)
Theorem proposer_commits_relative_times :
  let net := after timely_b (Find 2 crossing (d_of_Z 10) 0 :: tail asked) in
  reachable anywhere timely three [1; 2; 3] net /\
  finally_accepted_data (container (node_at 1 net)) = [[(PP_of {| x := d_of_Z 10; y := d_of_Z 20 |}, d_of_Z 15)]] /\
  finally_accepted_data (container (node_at 2 net)) = [[(PP_of {| x := d_of_Z 10; y := d_of_Z 20 |}, d_of_Z 5)]].
Proof.
  cbv zeta. split; [|split; vm_compute; reflexivity].
  apply (after_reachable timely timely_b); [apply timely_b_timely|vm_compute; reflexivity].
Qed.
