(* ===== verification/PaxosLedger.v ===== *)
(** * The ledger of the participants

    [PaxosReplicationManager] enters a proposal for an instance when it has been told so by all
    participants but the proposer. *)

From S2P Require Import Prelude TreeMapper Containers RouteCalculation Paxos.

Import Replication.

(** The messages in the order of their arrival, as long as none throws. *)
Fixpoint process_all (messages : list ReplicationMessage) (s : State) : option State :=
  match messages with
  | [] => Some s
  | msg :: rest =>
      match processReplicationMessage msg s with
      | (Ok tt, s') => process_all rest s'
      | _ => None
      end
  end.

Definition empty_ledger (n : Z) : State := {| participants := n; log_ := ∅; outstanding_data_ := ∅ |}.

Definition key_of (msg : ReplicationMessage) : Z * Z * Z := (rm_instance_id msg, rm_proposal_id msg, rm_station_id msg).

(** How often a proposal was reported. *)
Definition reports (key : Z * Z * Z) (messages : list ReplicationMessage) : Z :=
  Z.of_nat (length (List.filter (fun msg => bool_decide (key_of msg = key)) messages)).

Lemma reports_snoc key messages msg :
  reports key (messages ++ [msg]) = reports key messages + (if decide (key_of msg = key) then 1 else 0).
Proof.
  unfold reports. rewrite List.filter_app, length_app. cbn. case_bool_decide; case_decide; cbn; try done; lia.
Qed.

Section Ledger.
Variable n : Z.
Hypothesis n_range : 3 <= n < 2 ^ 32.

Record ledger_inv (messages : list ReplicationMessage) (s : State) : Prop := {
  li_participants : participants s = n;
  li_outstanding : forall i p t, outstanding_data_ s !! (i, p, t) =
    (let c := reports (i, p, t) messages in
     if decide (1 <= c < n - 1) then Some ({| proposal_id := p; station_id := t |}, n - 1 - c) else None);
  li_log : forall i d, log_ s !! i = Some d <-> reports (i, proposal_id d, station_id d) messages = n - 1;
  li_bound : forall key, 0 <= reports key messages <= n - 1;
}.

Lemma others_of : u32 (u64 (n - 2)) = n - 2.
Proof. unfold u32, u64. rewrite (Z.mod_small (n - 2) (2 ^ 64)) by lia. apply Z.mod_small. lia. Qed.

(** One more report of the proposal [(i, p, t)]. *)
Lemma reports_here messages i p t :
  reports (i, p, t) (messages ++ [{| rm_instance_id := i; rm_proposal_id := p; rm_station_id := t |}]) =
  reports (i, p, t) messages + 1.
Proof. rewrite reports_snoc. by rewrite decide_True. Qed.
Lemma reports_elsewhere messages i p t key :
  key <> (i, p, t) ->
  reports key (messages ++ [{| rm_instance_id := i; rm_proposal_id := p; rm_station_id := t |}]) = reports key messages.
Proof. intros Hne. rewrite reports_snoc, decide_False; [lia|]. unfold key_of. cbn. congruence. Qed.

Lemma data_eta d : {| proposal_id := proposal_id d; station_id := station_id d |} = d.
Proof. by destruct d. Qed.

(** A report that does not complete its proposal leaves the log, and the log what it says. *)
Lemma pending_inv messages i p t s :
  ledger_inv messages s -> log_ s !! i = None -> reports (i, p, t) messages + 1 < n - 1 ->
  ledger_inv (messages ++ [{| rm_instance_id := i; rm_proposal_id := p; rm_station_id := t |}])
    {| participants := n; log_ := log_ s;
       outstanding_data_ := <[(i, p, t) := ({| proposal_id := p; station_id := t |},
         n - 1 - (reports (i, p, t) messages + 1))]> (outstanding_data_ s) |}.
Proof.
  intros [Hn Ho Hl Hb] Hnone Hlt. pose proof (Hb (i, p, t)). split; cbn; [done|..].
  - intros j q u. destruct (decide ((j, q, u) = (i, p, t))) as [[= -> -> ->]|Hne].
    + rewrite lookup_insert_eq, reports_here, decide_True by lia. done.
    + rewrite lookup_insert_ne, reports_elsewhere by done. apply Ho.
  - intros j d. destruct (decide ((j, proposal_id d, station_id d) = (i, p, t))) as [[= -> <- <-]|Hne].
    + rewrite reports_here, Hnone. split; [done|lia].
    + rewrite reports_elsewhere by done. apply Hl.
  - intros key. destruct (decide (key = (i, p, t))) as [->|Hne]; [rewrite reports_here; lia|].
    rewrite reports_elsewhere by done. apply Hb.
Qed.

Lemma completed_inv messages i p t s :
  ledger_inv messages s -> log_ s !! i = None -> reports (i, p, t) messages + 1 = n - 1 ->
  ledger_inv (messages ++ [{| rm_instance_id := i; rm_proposal_id := p; rm_station_id := t |}])
    {| participants := n; log_ := <[i := {| proposal_id := p; station_id := t |}]> (log_ s);
       outstanding_data_ := delete (i, p, t) (outstanding_data_ s) |}.
Proof.
  intros [Hn Ho Hl Hb] Hnone Heq. split; cbn; [done|..].
  - intros j q u. destruct (decide ((j, q, u) = (i, p, t))) as [[= -> -> ->]|Hne].
    + rewrite lookup_delete_eq, reports_here, decide_False by lia. done.
    + rewrite lookup_delete_ne, reports_elsewhere by done. apply Ho.
  - intros j d. destruct (decide (j = i)) as [->|Hj].
    + rewrite lookup_insert_eq. destruct (decide ((i, proposal_id d, station_id d) = (i, p, t))) as [[= <- <-]|Hne].
      * rewrite reports_here, data_eta. split; [lia|done].
      * rewrite reports_elsewhere, <- Hl, Hnone by done. split; [intros [= <-]; done|done].
    + rewrite lookup_insert_ne, reports_elsewhere by congruence. apply Hl.
  - intros key. destruct (decide (key = (i, p, t))) as [->|Hne]; [rewrite reports_here; lia|].
    rewrite reports_elsewhere by done. apply Hb.
Qed.

Lemma report_inv messages msg s s' :
  ledger_inv messages s -> processReplicationMessage msg s = (Ok tt, s') -> ledger_inv (messages ++ [msg]) s'.
Proof.
  intros Hi. destruct msg as [i p t]. unfold processReplicationMessage. mred. cbn [rm_instance_id rm_proposal_id rm_station_id].
  case_bool_decide as Hlog; [done|]. assert (Hnone : log_ s !! i = None) by (by apply eq_None_not_Some). clear Hlog.
  assert (reports (i, p, t) messages <> n - 1) as Hpt.
  { intros Hq. apply (li_log _ _ Hi i {| proposal_id := p; station_id := t |}) in Hq. by rewrite Hnone in Hq. }
  pose proof (li_bound _ _ Hi (i, p, t)) as Hb. rewrite (li_outstanding _ _ Hi), (li_participants _ _ Hi), others_of.
  cbv zeta. case_decide as Hd.
  - rewrite u32_id by (unfold in_u32; lia). case_match eqn:Hz; intros [= <-].
    + apply completed_inv; [done..|lia].
    + replace (n - 1 - reports (i, p, t) messages - 1) with (n - 1 - (reports (i, p, t) messages + 1)) by lia.
      apply pending_inv; [done..|lia].
  - intros [= <-]. replace (n - 2) with (n - 1 - (reports (i, p, t) messages + 1)) by lia. apply pending_inv; [done..|lia].
Qed.

Lemma reports_inv messages s :
  process_all messages (empty_ledger n) = Some s -> ledger_inv messages s.
Proof.
  assert (Hgen : forall before s0, ledger_inv before s0 ->
    process_all messages s0 = Some s -> ledger_inv (before ++ messages) s).
  { induction messages as [|msg messages IH]; intros before s0 Hi; cbn.
    - intros [= <-]. by rewrite app_nil_r.
    - destruct (processReplicationMessage msg s0) as [[[]| |] s1] eqn:E; try done. intros H.
      rewrite cons_middle, app_assoc. eapply IH; [|exact H]. by eapply report_inv. }
  apply (Hgen []). split; cbn; [done|intros..].
  - by rewrite lookup_empty.
  - rewrite lookup_empty. unfold reports. cbn. split; [done|lia].
  - unfold reports. cbn. lia.
Qed.
End Ledger.

(** The ledger shows a proposal for an instance exactly if it was reported as often as there are
    participants other than the proposer; at least three participants. *)
Theorem logged_iff_reported_by_all n messages s :
  3 <= n < 2 ^ 32 -> process_all messages (empty_ledger n) = Some s ->
  forall i d, log_ s !! i = Some d <-> reports (i, proposal_id d, station_id d) messages = n - 1.
Proof. intros Hn Hp. by apply (li_log n messages s), reports_inv. Qed.

Definition report (i p t : Z) : ReplicationMessage :=
  {| rm_instance_id := i; rm_proposal_id := p; rm_station_id := t |}.

Lemma logged_iff_reported_by_all_witness :
  let s := default (empty_ledger 3) (process_all [report 0 1 2; report 1 0 1; report 0 1 2] (empty_ledger 3)) in
  log_ s !! 0 = Some {| proposal_id := 1; station_id := 2 |}.
Proof.
  apply (logged_iff_reported_by_all 3 [report 0 1 2; report 1 0 1; report 0 1 2]); [lia|vm_compute; reflexivity..].
Defined.

(** With two participants, for whom the proposer needs the report of one, nothing is entered. *)
Theorem two_participants_log_nothing i p t :
  exists s, process_all [report i p t] (empty_ledger 2) = Some s /\ log_ s = ∅ /\
    snd <$> outstanding_data_ s !! (i, p, t) = Some 0.
Proof. eexists. split; [reflexivity|]. split; [done|]. cbn. by rewrite lookup_insert_eq. Qed.
