(* ===== verification/Graph.v ===== *)
(** * Directed graphs and simple temporal networks

    Model of [daisi/src/datastructure]: a graph as a vector of vertices and a matrix of optional
    edges ([directed_graph.tpp]), its weights and shortest distances
    ([weighted_directed_graph.tpp]), and the networks of time constraints the task management of
    a vehicle solves ([simple_temporal_network.tpp], with the edges of
    [stn_task_management_components.h]). A reference to an edge is an operation on it in place.
    The number of vertices is assumed to fit into an [int]. *)

From Stdlib Require Import SpecFloat.
From S2P Require Import Prelude TreeMapper.

(** ** The operators the templates need *)

(** [operator==] of the vertices *)
Class VertexEq (V : Type) := veqb : V -> V -> bool.

(** The arithmetic of the weights: [double] in the code. *)
Class Weights (W : Type) := {
  w_add : W -> W -> W;
  w_neg : W -> W;
  w_lt : W -> W -> bool;
  w_le : W -> W -> bool;
  w_eq : W -> W -> bool;
  w_zero : W;
  w_inf : W;
}.

#[export] Instance double_weights : Weights double := {|
  w_add := d_add; w_neg := SFopp; w_lt := d_lt; w_le := d_le; w_eq := d_eq;
  w_zero := S754_zero false; w_inf := S754_infinity false;
|}.

(** ** [DirectedGraph] *)

Record DirectedGraph (V E : Type) := {
  vertices_ : list V;
  adjacency_matrix_ : list (list (option E));
}.
Arguments vertices_ {V E} _.
Arguments adjacency_matrix_ {V E} _.
Arguments Build_DirectedGraph {V E} _ _.

Module Graph.
Section Operations.
Context {V E : Type} `{VertexEq V}.
Implicit Type g : DirectedGraph V E.

Definition empty : DirectedGraph V E := {| vertices_ := []; adjacency_matrix_ := [] |}.

Definition set_vertices (v : list V) g : DirectedGraph V E := {| vertices_ := v; adjacency_matrix_ := adjacency_matrix_ g |}.
Definition set_matrix (m : list (list (option E))) g : DirectedGraph V E := {| vertices_ := vertices_ g; adjacency_matrix_ := m |}.

(** [std::find] on the vertices *)
Definition find_vertex (v : V) g : option nat := find_index (fun x => veqb x v) (vertices_ g).

Definition hasVertex (v : V) g : bool := match find_vertex v g with Some _ => true | None => false end.

(** [adjacency_matrix_[i][j]] *)
Definition cell g (i j : nat) : outcome (option E) :=
  row ← vec_at (adjacency_matrix_ g) i; vec_at row j.

Definition set_cell (i j : nat) (e : option E) : M (DirectedGraph V E) unit :=
  g ← get;
  _ ← lift (cell g i j);
  modify (set_matrix (alter (fun row => <[j := e]> row) i (adjacency_matrix_ g))).

Definition addVertex (vertex : V) : M (DirectedGraph V E) unit :=
  g ← get;
  if hasVertex vertex g then mret tt
  else
    let vertices := vertices_ g ++ [vertex] in
    let n := length vertices in
    let matrix := adjacency_matrix_ g ++ [[]] in
    (* rows n - 1 and 0 to n - 2 *)
    (if Nat.ltb (length matrix) n then lift Undefined else mret tt);;
    let matrix := alter (fun row => row ++ replicate n None) (n - 1)%nat matrix in
    let matrix := imap (fun i row => if Nat.ltb i (n - 1) then row ++ [None] else row) matrix in
    modify (fun _ => {| vertices_ := vertices; adjacency_matrix_ := matrix |}).

(** [row.erase(row.begin() + index + index)] *)
Definition erase_cell (index : nat) (row : list (option E)) : outcome (list (option E)) :=
  if Nat.ltb (index + index) (length row) then Ok (delete (index + index)%nat row) else Undefined.

Definition removeVertex (vertex : V) : M (DirectedGraph V E) unit :=
  g ← get;
  match find_vertex vertex g with
  | None => mret tt
  | Some index =>
      modify (set_vertices (delete index (vertices_ g)));;
      (if Nat.ltb index (length (adjacency_matrix_ g)) then mret tt else lift Undefined);;
      modify (set_matrix (delete index (adjacency_matrix_ g)));;
      g ← get;
      rows ← lift (mapM (M := outcome) (erase_cell index) (adjacency_matrix_ g));
      modify (set_matrix rows)
  end.

Definition addEdge (start end_ : V) (edge : E) : M (DirectedGraph V E) unit :=
  g ← get;
  match find_vertex start g, find_vertex end_ g with
  | None, _ => throw (logic_error "Start Vertex does not exist")
  | _, None => throw (logic_error "End Vertex does not exist")
  | Some i, Some j => set_cell i j (Some edge)
  end.

Definition removeEdge (start end_ : V) : M (DirectedGraph V E) unit :=
  g ← get;
  match find_vertex start g, find_vertex end_ g with
  | Some i, Some j => set_cell i j None
  | _, _ => mret tt
  end.

Definition hasEdge (start end_ : V) g : outcome bool :=
  match find_vertex start g, find_vertex end_ g with
  | Some i, Some j => e ← cell g i j; mret (bool_decide (is_Some e))
  | _, _ => mret false
  end.

Definition getVertices g : list V := vertices_ g.

Definition getEdge (start end_ : V) g : outcome E :=
  match find_vertex start g, find_vertex end_ g with
  | None, _ => Throw (logic_error "Start Vertex does not exist")
  | _, None => Throw (logic_error "End Vertex does not exist")
  | Some i, Some j =>
      e ← cell g i j;
      match e with Some edge => mret edge | None => Throw bad_optional_access end
  end.

(** A member function called on the edge [getEdge] refers to. *)
Definition on_edge (start end_ : V) (f : E -> outcome E) : M (DirectedGraph V E) unit :=
  g ← get;
  edge ← lift (getEdge start end_ g);
  edge' ← lift (f edge);
  match find_vertex start g, find_vertex end_ g with
  | Some i, Some j => set_cell i j (Some edge')
  | _, _ => mret tt
  end.

(** The entries of a row or a column that hold an edge, with their vertices. *)
Fixpoint present (vertices : list V) (cells : nat -> outcome (option E)) (i : nat) : outcome (list (V * E)) :=
  match vertices with
  | [] => mret []
  | v :: rest =>
      e ← cells i;
      l ← present rest cells (S i);
      mret (match e with Some edge => (v, edge) :: l | None => l end)
  end.

Definition getOutgoingEdges (start : V) g : outcome (list (V * E)) :=
  match find_vertex start g with
  | None => Throw (logic_error "Start Vertex does not exist")
  | Some start_index => present (vertices_ g) (fun i => cell g start_index i) 0
  end.

Definition getIncomingEdges (end_ : V) g : outcome (list (V * E)) :=
  match find_vertex end_ g with
  | None => Throw (logic_error "End Vertex does not exist")
  | Some end_index => present (vertices_ g) (fun i => cell g i end_index) 0
  end.
End Operations.
End Graph.

(** ** [WeightedDirectedGraph] *)

(** What the networks need of their edges. *)
Class WeightedEdge (E W : Type) := {
  new_edge : bool -> E;
  addWeight : W -> E -> outcome E;
  removeLastWeight : E -> outcome E;
  getWeight : E -> outcome W;
}.

Module Weighted.
Section Operations.
Context {V E W : Type} `{VertexEq V} `{Weights W} `{WeightedEdge E W}.
Abbreviation Matrix := (list (list W)).

Definition weight_of (g : DirectedGraph V E) (i k : nat) : outcome W :=
  opt_edge ← Graph.cell g i k;
  match opt_edge with
  | Some edge => getWeight edge
  | None => mret (if Nat.eqb i k then w_zero else w_inf)
  end.

Definition getWeightMatrix (g : DirectedGraph V E) : outcome Matrix :=
  let n := length (vertices_ g) in
  mapM (M := outcome) (fun i => mapM (M := outcome) (weight_of g i) (seq 0 n)) (seq 0 n).

(** [dist[i][j]] *)
Definition at2 (dist : Matrix) (i j : nat) : outcome W := row ← vec_at dist i; vec_at row j.

Definition relax (k i j : nat) (dist : Matrix) : outcome Matrix :=
  dik ← at2 dist i k;
  dkj ← at2 dist k j;
  let alternative := w_add dik dkj in
  dij ← at2 dist i j;
  if w_lt alternative dij then mret (alter (fun row => <[j := alternative]> row) i dist) else mret dist.

(** [for (i = 0; i < n; i++) dist = body(i, dist)] *)
Fixpoint loop {A} (indices : list nat) (body : nat -> A -> outcome A) (a : A) : outcome A :=
  match indices with
  | [] => mret a
  | i :: rest => a' ← body i a; loop rest body a'
  end.

Definition floydWarshall (g : DirectedGraph V E) : outcome Matrix :=
  let n := length (vertices_ g) in
  dist ← getWeightMatrix g;
  loop (seq 0 n) (fun k => loop (seq 0 n) (fun i => loop (seq 0 n) (fun j => relax k i j))) dist.
End Operations.
End Weighted.

(** ** [StnTaskManagementEdge] *)

Record StnTaskManagementEdge (W : Type) := {
  weights_ : list W;
  all_positive_ : bool;
}.
Arguments weights_ {W} _.
Arguments all_positive_ {W} _.

Module StnEdge.
Section Operations.
Context {W : Type} `{Weights W}.

Definition with_weights (l : list W) (e : StnTaskManagementEdge W) : StnTaskManagementEdge W :=
  {| weights_ := l; all_positive_ := all_positive_ e |}.

Definition add (weight : W) (e : StnTaskManagementEdge W) : outcome (StnTaskManagementEdge W) :=
  if w_le w_zero weight && all_positive_ e then Ok (with_weights (weights_ e ++ [weight]) e)
  else if w_le weight w_zero && negb (all_positive_ e) then Ok (with_weights (weights_ e ++ [weight]) e)
  else Throw (invalid_argument "Weight does not fit to the edge type").

(** [*std::max_element] and [*std::min_element] *)
Definition max_element (l : list W) : outcome W :=
  match l with [] => Undefined | x :: l' => Ok (foldl (fun m y => if w_lt m y then y else m) x l') end.
Definition min_element (l : list W) : outcome W :=
  match l with [] => Undefined | x :: l' => Ok (foldl (fun m y => if w_lt y m then y else m) x l') end.

Definition weight (e : StnTaskManagementEdge W) : outcome W :=
  if all_positive_ e then max_element (weights_ e) else min_element (weights_ e).

Definition remove_last (e : StnTaskManagementEdge W) : outcome (StnTaskManagementEdge W) :=
  match weights_ e with [] => Undefined | _ => Ok (with_weights (removelast (weights_ e)) e) end.

Definition getNumberOfWeights (e : StnTaskManagementEdge W) : nat := length (weights_ e).

(** [index >= weights_.size()] compares unsigned. *)
Definition updateWeight (index : Z) (weight : W) (e : StnTaskManagementEdge W) : outcome (StnTaskManagementEdge W) :=
  if Z.of_nat (length (weights_ e)) <=? u64 index then Throw (invalid_argument "Index out of range")
  else if w_le w_zero weight && all_positive_ e then Ok (with_weights (<[Z.to_nat (u64 index) := weight]> (weights_ e)) e)
  else if w_lt weight w_zero && negb (all_positive_ e) then Ok (with_weights (<[Z.to_nat (u64 index) := weight]> (weights_ e)) e)
  else Throw (invalid_argument "Weight does not fit to the edge type").
End Operations.
End StnEdge.

#[export] Instance stn_edge {W} `{Weights W} : WeightedEdge (StnTaskManagementEdge W) W := {|
  new_edge := fun all_positive => {| weights_ := []; all_positive_ := all_positive |};
  addWeight := StnEdge.add;
  removeLastWeight := StnEdge.remove_last;
  getWeight := StnEdge.weight;
|}.

(** ** [SimpleTemporalNetwork] *)

Record SimpleTemporalNetwork (V E W : Type) := {
  network : DirectedGraph V E;
  d_graph_ : list (list W);
}.
Arguments network {V E W} _.
Arguments d_graph_ {V E W} _.
Arguments Build_SimpleTemporalNetwork {V E W} _ _.

Module Stn.
Section Operations.
Context {V E W : Type} `{VertexEq V} `{Weights W} `{!WeightedEdge E W}.
Abbreviation Net := (SimpleTemporalNetwork V E W).

Definition on_graph {A} (m : M (DirectedGraph V E) A) : M Net A :=
  zoom network (fun g n => {| network := g; d_graph_ := d_graph_ n |}) m.

(** The constructor, with [Vertex::createOrigin()]. *)
Definition create (origin : V) : M Net unit := on_graph (Graph.addVertex origin).

Definition removeVertex (vertex : V) : M Net unit :=
  n ← get;
  first ← lift (vec_at (vertices_ (network n)) 0);
  throw_if (veqb vertex first) (invalid_argument "Cannot remove origin from Simple Temporal Network");;
  on_graph (Graph.removeVertex vertex).

Definition getOrigin (n : Net) : outcome V := vec_at (vertices_ (network n)) 0.

(** One of the two halves of a constraint: the edge gets another weight, or is made. *)
Definition add_bound (start end_ : V) (all_positive : bool) (weight : W) : M Net unit :=
  n ← get;
  present ← lift (Graph.hasEdge start end_ (network n));
  if (present : bool) then on_graph (Graph.on_edge start end_ (addWeight weight))
  else
    edge ← lift (addWeight weight (new_edge all_positive));
    on_graph (Graph.addEdge start end_ edge).

Definition optionally {S A} (o : option A) (f : A -> M S unit) : M S unit :=
  match o with Some a => f a | None => mret tt end.

Definition addBinaryConstraint (start end_ : V) (lower_bound upper_bound : option W) : M Net unit :=
  n ← get;
  throw_if (negb (Graph.hasVertex start (network n)) || negb (Graph.hasVertex end_ (network n)))
    (invalid_argument "Bound cannot be added for non-existent vertices");;
  optionally upper_bound (fun upper => add_bound start end_ true upper);;
  optionally lower_bound (fun lower => add_bound end_ start false (w_neg lower)).

Definition replace_bound (start end_ : V) (weight : W) : M Net unit :=
  n ← get;
  present ← lift (Graph.hasEdge start end_ (network n));
  throw_if (negb present) (invalid_argument "Bound cannot be updated if no edge exists");;
  on_graph (Graph.on_edge start end_ removeLastWeight);;
  on_graph (Graph.on_edge start end_ (addWeight weight)).

Definition updateLastBinaryConstraint (start end_ : V) (lower_bound upper_bound : option W) : M Net unit :=
  n ← get;
  throw_if (negb (Graph.hasVertex start (network n)) || negb (Graph.hasVertex end_ (network n)))
    (invalid_argument "Bound cannot be updated for non-existent vertices");;
  optionally upper_bound (fun upper => replace_bound start end_ upper);;
  optionally lower_bound (fun lower => replace_bound end_ start (w_neg lower)).

Definition addUnaryConstraint (vertex : V) (lower_bound upper_bound : option W) : M Net unit :=
  n ← get;
  origin ← lift (getOrigin n);
  addBinaryConstraint origin vertex lower_bound upper_bound.

(** The loop of [solve] over the diagonal. *)
Fixpoint zero_diagonal (d : list (list W)) (indices : list nat) : outcome bool :=
  match indices with
  | [] => mret true
  | i :: rest => dii ← Weighted.at2 d i i; if w_eq dii w_zero then zero_diagonal d rest else mret false
  end.

Definition solve : M Net bool :=
  n ← get;
  d ← lift (Weighted.floydWarshall (network n));
  modify (fun n => {| network := network n; d_graph_ := d |});;
  lift (zero_diagonal d (seq 0 (length (vertices_ (network n))))).

Fixpoint solution (vertices : list V) (i : nat) (value : nat -> outcome W) : outcome (list (V * W)) :=
  match vertices with
  | [] => mret []
  | v :: rest => w ← value i; l ← solution rest (S i) value; mret ((v, w) :: l)
  end.

Definition getEarliestSolution (n : Net) : outcome (list (V * W)) :=
  solution (vertices_ (network n)) 0 (fun i => d ← Weighted.at2 (d_graph_ n) i 0; mret (w_neg d)).

Definition getLatestSolution (n : Net) : outcome (list (V * W)) :=
  solution (vertices_ (network n)) 0 (fun i => Weighted.at2 (d_graph_ n) 0 i).
End Operations.
End Stn.
