(* ===== verification/GraphProperties.v ===== *)
(** * Graphs and networks of time constraints: what they do

    The matrix of a graph stays square; removing a vertex; shortest distances; and the networks
    of time constraints: [solve] decides whether the constraints can be met, and the earliest
    solution meets them and is the earliest. The last are stated for exact arithmetic on whole
    numbers (of any unit) with infinity, where the code computes with [double]. *)

From S2P Require Import Prelude TreeMapper Graph.

#[local] Arguments Nat.ltb : simpl never.

(** ** Square matrices *)

Definition square {A} (n : nat) (m : list (list A)) : Prop := length m = n /\ Forall (fun row => length row = n) m.

Lemma square_row {A} n (m : list (list A)) i :
  square n m -> (i < n)%nat -> exists row, m !! i = Some row /\ length row = n.
Proof.
  intros [Hl Hr] Hi. destruct (lookup_lt_is_Some_2 m i) as [row Hrow]; [lia|]. exists row. split; [done|].
  by eapply (Forall_lookup_1 _ _ _ _ Hr).
Qed.

Lemma square_set {A} n (m : list (list A)) i j a : square n m -> square n (alter (fun row => <[j := a]> row) i m).
Proof.
  intros [Hl Hr]. split; [by rewrite length_alter|]. apply Forall_lookup_2. intros x row Hx.
  destruct (decide (i = x)) as [->|Hne].
  - rewrite list_lookup_alter_eq in Hx. destruct (m !! x) as [row'|] eqn:Er; [|done]. injection Hx as <-.
    rewrite length_insert. by apply (Forall_lookup_1 _ _ _ _ Hr Er).
  - rewrite list_lookup_alter_ne in Hx by done. by apply (Forall_lookup_1 _ _ _ _ Hr Hx).
Qed.

(** ** Graphs *)

Section Graphs.
Context {V E : Type} `{VertexEq V}.
Implicit Type g : DirectedGraph V E.

Definition graph_ok g : Prop := square (length (vertices_ g)) (adjacency_matrix_ g).

Lemma find_vertex_lt v g i : Graph.find_vertex v g = Some i -> (i < length (vertices_ g))%nat.
Proof. intros (x & Hx & _)%find_index_Some. by eapply lookup_lt_Some. Qed.

Definition entry_of g (i j : nat) : option E := row ← adjacency_matrix_ g !! i; e ← row !! j; e.

Lemma cell_ok g i j :
  graph_ok g -> (i < length (vertices_ g))%nat -> (j < length (vertices_ g))%nat ->
  Graph.cell g i j = Ok (entry_of g i j).
Proof.
  intros Hg Hi Hj. destruct (square_row _ _ i Hg Hi) as (row & Hrow & Hl).
  destruct (lookup_lt_is_Some_2 row j) as [e He]; [lia|].
  unfold Graph.cell, entry_of, vec_at. rewrite Hrow. cbn. by rewrite He.
Qed.

Lemma set_cell_ok g i j e :
  graph_ok g -> (i < length (vertices_ g))%nat -> (j < length (vertices_ g))%nat ->
  exists g', Graph.set_cell i j e g = (Ok tt, g') /\ graph_ok g' /\ vertices_ g' = vertices_ g /\
    forall a b, entry_of g' a b = if decide (a = i /\ b = j) then e else entry_of g a b.
Proof.
  intros Hg Hi Hj. unfold Graph.set_cell. rewrite bind_get, bind_lift, cell_ok by done. eexists. split; [reflexivity|].
  split; [by apply square_set|]. split; [done|]. intros a b. unfold entry_of. cbn.
  destruct (square_row _ _ i Hg Hi) as (row & Hrow & Hl). destruct (decide (a = i)) as [->|Ha].
  - rewrite list_lookup_alter_eq, Hrow. cbn. destruct (decide (b = j)) as [->|Hb].
    + rewrite list_lookup_insert_eq by lia. by rewrite decide_True.
    + rewrite list_lookup_insert_ne by done. rewrite decide_False by tauto. done.
  - rewrite list_lookup_alter_ne by done. by rewrite decide_False by tauto.
Qed.

(** [addVertex] *)
Lemma addVertex_ok v g :
  graph_ok g -> Graph.hasVertex v g = false ->
  exists g', Graph.addVertex v g = (Ok tt, g') /\ graph_ok g' /\ vertices_ g' = vertices_ g ++ [v] /\
    forall a b, entry_of g' a b = entry_of g a b.
Proof.
  intros [Hl Hr] Hv. unfold Graph.addVertex. rewrite bind_get, Hv. set (n := length (vertices_ g)) in *. mred.
  rewrite !length_app, Hl. cbn [length]. fold n. replace (Nat.ltb (n + 1) (n + 1)) with false by (symmetry; apply Nat.ltb_irrefl).
  eexists. split; [reflexivity|]. rewrite (Nat.add_sub n 1).
  assert (Hm : imap (fun i row => if Nat.ltb i n then row ++ [None] else row)
      (alter (fun row => row ++ replicate (n + 1) None) n (adjacency_matrix_ g ++ [[]])) =
    ((fun row => row ++ [None]) <$> adjacency_matrix_ g) ++ [replicate (n + 1) None]).
  { rewrite alter_app_r_alt by lia. rewrite Hl, Nat.sub_diag. cbn. rewrite imap_app. cbn. rewrite Hl, Nat.add_0_r. replace (Nat.ltb n n) with false by (symmetry; apply Nat.ltb_irrefl). f_equal.
    apply list_eq. intros i. rewrite list_lookup_imap, list_lookup_fmap.
    destruct (adjacency_matrix_ g !! i) as [row|] eqn:Er; [|done]. cbn.
    apply lookup_lt_Some in Er. by rewrite (proj2 (Nat.ltb_lt i n)) by lia. }
  rewrite Hm. split; [|split; [done|]].
  - unfold graph_ok, square. cbn. rewrite !length_app, length_fmap, Hl. cbn. split; [done|]. apply Forall_app. split.
    + apply Forall_fmap. eapply Forall_impl; [exact Hr|]. cbn. intros row Hrow. rewrite length_app, Hrow. done.
    + apply Forall_singleton. by rewrite length_replicate.
  - intros a b. unfold entry_of. cbn. destruct (decide (a < n)%nat) as [Ha|Ha].
    + rewrite lookup_app_l by (rewrite length_fmap; lia). rewrite list_lookup_fmap.
      destruct (adjacency_matrix_ g !! a) as [row|] eqn:Er; [|done]. cbn.
      destruct (decide (b < length row)%nat); [by rewrite lookup_app_l|].
      rewrite (lookup_ge_None_2 row b) by lia. rewrite lookup_app_r by lia.
      by destruct (b - length row)%nat.
    + rewrite lookup_app_r by (rewrite length_fmap; lia). rewrite (lookup_ge_None_2 (adjacency_matrix_ g) a) by lia.
      cbn. destruct (a - _)%nat; cbn; [|done]. destruct (replicate (n + 1) None !! b) eqn:Eb; cbn; [|done].
      by apply lookup_replicate_1 in Eb as [-> _].
Qed.

(** An edge that was added is there, between these two vertices and nowhere else, and the graph stays
    well formed. *)
Theorem addEdge_getEdge g start end_ edge i j :
  graph_ok g -> Graph.find_vertex start g = Some i -> Graph.find_vertex end_ g = Some j ->
  exists g', Graph.addEdge start end_ edge g = (Ok tt, g') /\ graph_ok g' /\
    Graph.getEdge start end_ g' = Ok edge /\ Graph.hasEdge start end_ g' = Ok true /\
    forall a b, entry_of g' a b = if decide (a = i /\ b = j) then Some edge else entry_of g a b.
Proof.
  intros Hg Hi Hj. destruct (set_cell_ok g i j (Some edge)) as (g' & Hs & Hg' & Hv & He);
    [done|by eapply find_vertex_lt..|].
  exists g'. unfold Graph.addEdge. rewrite bind_get, Hi, Hj. split; [done|]. split; [done|].
  assert (Hi' : Graph.find_vertex start g' = Some i) by (unfold Graph.find_vertex in *; by rewrite Hv).
  assert (Hj' : Graph.find_vertex end_ g' = Some j) by (unfold Graph.find_vertex in *; by rewrite Hv).
  unfold Graph.getEdge, Graph.hasEdge. rewrite Hi', Hj', cell_ok by (done || by eapply find_vertex_lt).
  mred. rewrite He, decide_True by done. split; [done|]. split; [by rewrite bool_decide_true by eauto|]. done.
Qed.

(** What removing the vertex at [index] means: its row and its column go. *)
Definition without_vertex (index : nat) g : DirectedGraph V E :=
  {| vertices_ := delete index (vertices_ g);
     adjacency_matrix_ := (fun row => delete index row) <$> delete index (adjacency_matrix_ g) |}.

Lemma delete_square n (m : list (list (option E))) i :
  square n m -> (i < n)%nat -> length (delete i m) = (n - 1)%nat /\ Forall (fun row => length row = n) (delete i m).
Proof.
  intros [Hl Hr] Hi. split; [rewrite length_delete; [by rewrite Hl|apply lookup_lt_is_Some_2; lia]|].
  apply Forall_forall. intros row Hrow%list_elem_of_delete_inv. by eapply Forall_forall in Hr.
Qed.

Lemma erase_cells index (rows : list (list (option E))) n :
  Forall (fun row => length row = n) rows -> (index + index < n)%nat ->
  mapM (M := outcome) (Graph.erase_cell index) rows = Ok ((fun row => delete (index + index)%nat row) <$> rows).
Proof.
  induction 1 as [|row rows Hrow _ IH]; intros Hi; [done|]. cbn. specialize (IH Hi).
  assert (Graph.erase_cell index row = Ok (delete (index + index)%nat row)) as ->.
  { unfold Graph.erase_cell. by rewrite (proj2 (Nat.ltb_lt _ _)) by lia. }
  cbn in IH |- *. by rewrite IH.
Qed.

(** Removing a vertex erases the column of another vertex, or undefined memory: of the vertex at [index]
    the column of twice [index] goes, if there is one. Only the first vertex is removed correctly. *)
Theorem removeVertex_erases_other_column g vertex index :
  graph_ok g -> Graph.find_vertex vertex g = Some index ->
  let n := length (vertices_ g) in
  if decide (index = 0)%nat then Graph.removeVertex vertex g = (Ok tt, without_vertex 0 g)
  else if decide (2 * index < n)%nat then
    Graph.removeVertex vertex g =
      (Ok tt, {| vertices_ := delete index (vertices_ g);
                 adjacency_matrix_ := (fun row => delete (2 * index)%nat row) <$> delete index (adjacency_matrix_ g) |})
  else exists g', Graph.removeVertex vertex g = (Undefined, g').
Proof.
  intros Hg Hf n. pose proof (find_vertex_lt _ _ _ Hf) as Hi. fold n in Hi.
  destruct (delete_square n _ index Hg Hi) as [Hl Hr].
  unfold Graph.removeVertex. rewrite bind_get, Hf, bind_modify, (proj1 Hg). fold n.
  rewrite (proj2 (Nat.ltb_lt index n)), bind_ret, bind_modify, bind_get, bind_lift by done.
  cbn [adjacency_matrix_ vertices_ Graph.set_vertices Graph.set_matrix].
  assert (Hok : (2 * index < n)%nat ->
    mapM (M := outcome) (Graph.erase_cell index) (delete index (adjacency_matrix_ g)) =
    Ok ((fun row => delete (2 * index)%nat row) <$> delete index (adjacency_matrix_ g))).
  { intros H2. replace (2 * index)%nat with (index + index)%nat in * by lia. by apply (erase_cells _ _ n). }
  case_decide as H0; [subst index; by rewrite Hok by lia|].
  case_decide as H2; [by rewrite Hok|]. destruct (delete index (adjacency_matrix_ g)) as [|row rows]; [cbn in Hl; lia|].
  apply Forall_cons in Hr as [Hrow _].
  assert (Graph.erase_cell index row = Undefined) as He by (unfold Graph.erase_cell; by rewrite (proj2 (Nat.ltb_ge _ _)) by lia).
  cbn. rewrite He. by eexists.
Qed.
End Graphs.

(** ** Exact weights *)

(** Whole numbers with both infinities. *)
Inductive exact := Fin (z : Z) | PInf | NInf.

Definition exact_add (a b : exact) : exact :=
  match a, b with
  | Fin x, Fin y => Fin (x + y)
  | PInf, _ | _, PInf => PInf
  | _, _ => NInf
  end.
Definition exact_le (a b : exact) : bool :=
  match a, b with
  | Fin x, Fin y => x <=? y
  | NInf, _ | _, PInf => true
  | _, _ => false
  end.
Definition exact_neg (a : exact) : exact := match a with Fin x => Fin (- x) | PInf => NInf | NInf => PInf end.

#[export] Instance exact_weights : Weights exact := {|
  w_add := exact_add; w_neg := exact_neg; w_lt := fun a b => negb (exact_le b a); w_le := exact_le;
  w_eq := fun a b => exact_le a b && exact_le b a; w_zero := Fin 0; w_inf := PInf;
|}.

#[local] Notation "a <=e b" := (exact_le a b = true) (at level 70, no associativity).

(** Cases over exact weights. *)
Ltac exact_cases :=
  repeat match goal with a : exact |- _ => destruct a end; cbn in *; try done; try lia.

Lemma exact_le_refl a : a <=e a.
Proof. exact_cases. Qed.
Lemma exact_le_trans a b c : a <=e b -> b <=e c -> a <=e c.
Proof. intros. exact_cases. Qed.
Lemma exact_add_mono a b c d : a <=e b -> c <=e d -> exact_add a c <=e exact_add b d.
Proof. intros. exact_cases. Qed.
Lemma exact_add_assoc a b c : exact_add a (exact_add b c) = exact_add (exact_add a b) c.
Proof. exact_cases. by rewrite Z.add_assoc. Qed.
Lemma exact_add_zero a b : Fin 0 <=e b -> a <=e exact_add a b.
Proof. intros. exact_cases. Qed.
Lemma exact_add_zero_l a b : Fin 0 <=e b -> a <=e exact_add b a.
Proof. intros. exact_cases. Qed.
Lemma exact_le_total a b : exact_le a b = false -> b <=e a.
Proof. intros. exact_cases. Qed.

(** ** Shortest distances *)

Definition entry (d : list (list exact)) (i j : nat) : exact := from_option id NInf (row ← d !! i; row !! j).

Lemma at2_square n d i j : square n d -> (i < n)%nat -> (j < n)%nat -> Weighted.at2 d i j = Ok (entry d i j).
Proof.
  intros Hd Hi Hj. destruct (square_row _ _ i Hd Hi) as (row & Hrow & Hl).
  destruct (lookup_lt_is_Some_2 row j) as [e He]; [lia|].
  unfold Weighted.at2, entry, vec_at. rewrite Hrow. cbn. by rewrite He.
Qed.

Lemma entry_set n d i j w a b :
  square n d -> (i < n)%nat -> (j < n)%nat ->
  entry (alter (fun row => <[j := w]> row) i d) a b = if decide (a = i /\ b = j) then w else entry d a b.
Proof.
  intros Hd Hi Hj. destruct (square_row _ _ i Hd Hi) as (row & Hrow & Hl). unfold entry.
  destruct (decide (a = i)) as [->|Ha].
  - rewrite list_lookup_alter_eq, Hrow. cbn. destruct (decide (b = j)) as [->|Hb].
    + rewrite list_lookup_insert_eq by lia. by rewrite decide_True.
    + rewrite list_lookup_insert_ne by done. by rewrite decide_False by tauto.
  - rewrite list_lookup_alter_ne by done. by rewrite decide_False by tauto.
Qed.

Section Distances.
Variable n : nat.

(** [x] meets what the matrix says about differences. *)
Definition within (x : nat -> Z) (d : list (list exact)) : Prop :=
  forall i j, (i < n)%nat -> (j < n)%nat -> Fin (x j - x i) <=e entry d i j.

Definition above_minus_infinity (d : list (list exact)) : Prop :=
  forall i j, (i < n)%nat -> (j < n)%nat -> entry d i j <> NInf.

(** [d'] is not above [d], and loses no solution. *)
Definition improves (d d' : list (list exact)) : Prop :=
  square n d' /\ (forall i j, (i < n)%nat -> (j < n)%nat -> entry d' i j <=e entry d i j) /\
  (forall x, within x d -> within x d') /\ (above_minus_infinity d -> above_minus_infinity d').

Lemma improves_refl d : square n d -> improves d d.
Proof. intros Hd. split; [done|]. split; [intros; apply exact_le_refl|done]. Qed.
Lemma improves_trans d1 d2 d3 : improves d1 d2 -> improves d2 d3 -> improves d1 d3.
Proof.
  intros (_ & H12 & W12 & A12) (Hs & H23 & W23 & A23). split; [done|]. split; [|by auto].
  intros. eapply exact_le_trans; [by apply H23|by apply H12].
Qed.

Lemma relax_spec k i j d :
  square n d -> (k < n)%nat -> (i < n)%nat -> (j < n)%nat ->
  exists d', Weighted.relax k i j d = Ok d' /\ improves d d' /\
    forall a b, entry d' a b =
      if decide (a = i /\ b = j)
      then (let alternative := exact_add (entry d i k) (entry d k j) in
            if exact_le (entry d i j) alternative then entry d i j else alternative)
      else entry d a b.
Proof.
  intros Hd Hk Hi Hj. unfold Weighted.relax. rewrite !(at2_square n) by done. mred. cbn.
  destruct (exact_le (entry d i j) _) eqn:E; cbn.
  - exists d. split; [done|]. split; [by apply improves_refl|]. intros a b. case_decide as Hab; [|done]. by destruct Hab as [-> ->].
  - eexists. split; [reflexivity|]. assert (He := fun a b => entry_set n d i j (exact_add (entry d i k) (entry d k j)) a b Hd Hi Hj).
    split; [|exact He]. split; [by apply square_set|]. split_and!.
    + intros a b _ _. rewrite He. case_decide as Hab; [|apply exact_le_refl]. destruct Hab as [-> ->]. by apply exact_le_total.
    + intros x Hx a b Ha Hb. rewrite He. case_decide as Hab; [|by apply Hx]. destruct Hab as [-> ->].
      replace (x j - x i) with ((x k - x i) + (x j - x k)) by lia.
      change (Fin (x k - x i + (x j - x k))) with (exact_add (Fin (x k - x i)) (Fin (x j - x k))).
      apply exact_add_mono; by apply Hx.
    + intros Ha a b Hai Hbi. rewrite He. case_decide as Hab; [|by apply Ha].
      pose proof (Ha i k Hi Hk). pose proof (Ha k j Hk Hj). destruct (entry d i k), (entry d k j); done.
Qed.

(** A loop whose rounds improve. *)
Lemma loop_improves (l : list nat) (body : nat -> list (list exact) -> outcome (list (list exact))) d :
  (forall i d, i ∈ l -> square n d -> exists d', body i d = Ok d' /\ improves d d') ->
  square n d -> exists d', Weighted.loop l body d = Ok d' /\ improves d d'.
Proof.
  revert d. induction l as [|i l IH]; intros d Hb Hd; cbn.
  - exists d. split; [done|by apply improves_refl].
  - destruct (Hb i d) as (d1 & H1 & I1); [by left|done|]. mred. rewrite H1.
    destruct (IH d1) as (d2 & H2 & I2); [|apply I1|].
    + intros i' d' Hi'. apply Hb. by right.
    + exists d2. split; [done|]. by eapply improves_trans.
Qed.

Definition row_loop (k i : nat) : list (list exact) -> outcome (list (list exact)) :=
  Weighted.loop (seq 0 n) (fun j => Weighted.relax k i j).
Definition phase (k : nat) : list (list exact) -> outcome (list (list exact)) :=
  Weighted.loop (seq 0 n) (row_loop k).

Lemma row_improves k i d :
  (k < n)%nat -> (i < n)%nat -> square n d -> exists d', row_loop k i d = Ok d' /\ improves d d'.
Proof.
  intros Hk Hi. apply loop_improves. intros j d0 [_ Hj]%elem_of_seq Hd0.
  destruct (relax_spec k i j d0) as (d' & H & I & _); [done|done|done|lia|]. by exists d'.
Qed.

Lemma phase_improves k d : (k < n)%nat -> square n d -> exists d', phase k d = Ok d' /\ improves d d'.
Proof.
  intros Hk. apply loop_improves. intros i d0 [_ Hi]%elem_of_seq. apply row_improves; [done|lia].
Qed.

(** One phase, when the pivot has no negative distance to itself. *)
Section Phase.
Variables (D : nat -> nat -> exact) (k : nat).
Hypothesis pivot : (k < n)%nat.
Hypothesis no_negative : Fin 0 <=e D k k.

Definition through (i j : nat) : exact :=
  let alternative := exact_add (D i k) (D k j) in if exact_le (D i j) alternative then D i j else alternative.

Lemma through_column i : through i k = D i k.
Proof. unfold through. by rewrite exact_add_zero. Qed.
Lemma through_row j : through k j = D k j.
Proof. unfold through. by rewrite exact_add_zero_l. Qed.

(** The entries up to row [i], column [j] are done. *)
Definition done_until (i j : nat) (d : list (list exact)) : Prop :=
  square n d /\ forall a b, (a < n)%nat -> (b < n)%nat ->
    entry d a b = if decide (a < i \/ a = i /\ b < j)%nat then through a b else D a b.

Lemma relax_done i j d :
  (i < n)%nat -> (j < n)%nat -> done_until i j d ->
  exists d', Weighted.relax k i j d = Ok d' /\ done_until i (S j) d'.
Proof.
  intros Hi Hj [Hd He]. destruct (relax_spec k i j d) as (d' & Hr & [Hd' _] & He'); [done..|].
  exists d'. split; [done|]. split; [done|]. intros a b Ha Hb. rewrite He'.
  assert (entry d i k = D i k) as -> by (rewrite He by done; case_decide; [apply through_column|done]).
  assert (entry d k j = D k j) as -> by (rewrite He by done; case_decide; [apply through_row|done]).
  assert (entry d i j = D i j) as -> by (rewrite He by done; rewrite decide_False by lia; done).
  destruct (decide (a = i /\ b = j)) as [[-> ->]|Hab]; [by rewrite decide_True by lia|].
  rewrite He by done. case_decide; case_decide; (done || lia).
Qed.

Lemma row_done i d :
  (i < n)%nat -> done_until i 0 d -> exists d', row_loop k i d = Ok d' /\ done_until (S i) 0 d'.
Proof.
  intros Hi. unfold row_loop.
  assert (Hgen : forall m j d, (j + m = n)%nat -> done_until i j d ->
    exists d', Weighted.loop (seq j m) (fun j => Weighted.relax k i j) d = Ok d' /\ done_until i n d').
  { induction m as [|m IH]; intros j d0 Hj Hd0; cbn.
    - exists d0. split; [done|]. by replace n with j by lia.
    - destruct (relax_done i j d0) as (d1 & H1 & I1); [done|lia|done|]. mred. rewrite H1. apply IH; [lia|done]. }
  intros Hd. destruct (Hgen n 0%nat d) as (d' & H' & [Hs He]); [lia|done|]. exists d'. split; [done|]. split; [done|].
  intros a b Ha Hb. rewrite He by done. case_decide; case_decide; (done || lia).
Qed.

Lemma phase_exact d :
  square n d -> (forall a b, (a < n)%nat -> (b < n)%nat -> entry d a b = D a b) ->
  exists d', phase k d = Ok d' /\ square n d' /\
    forall a b, (a < n)%nat -> (b < n)%nat -> entry d' a b = through a b.
Proof.
  intros Hd He. unfold phase.
  assert (Hgen : forall m i d, (i + m = n)%nat -> done_until i 0 d ->
    exists d', Weighted.loop (seq i m) (row_loop k) d = Ok d' /\ done_until n 0 d').
  { induction m as [|m IH]; intros i d0 Hi Hd0; cbn.
    - exists d0. split; [done|]. by replace n with i by lia.
    - destruct (row_done i d0) as (d1 & H1 & I1); [lia|done|]. mred. rewrite H1. apply IH; [lia|done]. }
  destruct (Hgen n 0%nat d) as (d' & H' & [Hs Hd']); [lia| |].
  - split; [done|]. intros a b Ha Hb. rewrite decide_False by lia. by apply He.
  - exists d'. split; [done|]. split; [done|]. intros a b Ha Hb. rewrite Hd' by done. by rewrite decide_True by lia.
Qed.

(** Distances through earlier pivots stay no shorter. *)
Lemma through_triangle m :
  (forall i j, (i < n)%nat -> (j < n)%nat -> D i j <=e exact_add (D i m) (D m j)) ->
  (m < n)%nat -> forall i j, (i < n)%nat -> (j < n)%nat -> through i j <=e exact_add (through i m) (through m j).
Proof.
  intros Ht Hm i j Hi Hj.
  assert (Hdirect : through i j <=e D i j).
  { unfold through. destruct (exact_le (D i j) _) eqn:E; [apply exact_le_refl|by apply exact_le_total]. }
  assert (Halt : through i j <=e exact_add (D i k) (D k j)).
  { unfold through. destruct (exact_le (D i j) _) eqn:E; [done|apply exact_le_refl]. }
  pose proof (Ht i j Hi Hj) as T1. pose proof (Ht k j pivot Hj) as T2. pose proof (Ht i k Hi pivot) as T3.
  pose proof (Ht k k pivot pivot) as T4.
  unfold through at 2 3. cbv zeta. destruct (exact_le (D i m) _); destruct (exact_le (D m j) _).
  - eapply exact_le_trans; [exact Hdirect|exact T1].
  - eapply exact_le_trans; [exact Halt|]. rewrite exact_add_assoc. apply exact_add_mono; [done|apply exact_le_refl].
  - eapply exact_le_trans; [exact Halt|]. rewrite <- exact_add_assoc. apply exact_add_mono; [apply exact_le_refl|done].
  - eapply exact_le_trans; [exact Halt|]. rewrite <- !exact_add_assoc. apply exact_add_mono; [apply exact_le_refl|].
    rewrite !exact_add_assoc. apply (exact_le_trans _ (exact_add (D k k) (D k j))).
    + by apply exact_add_zero_l.
    + apply exact_add_mono; [done|apply exact_le_refl].
Qed.

Lemma through_pivot i j : through i j <=e exact_add (through i k) (through k j).
Proof.
  rewrite through_column, through_row. unfold through. destruct (exact_le (D i j) _) eqn:E; [done|apply exact_le_refl].
Qed.
End Phase.

Definition shortest (from : nat) (d : list (list exact)) : outcome (list (list exact)) :=
  Weighted.loop (seq from (n - from)) phase d.

(** Triangle inequality for the first [m] pivots. *)
Definition triangle (m : nat) (d : list (list exact)) : Prop :=
  forall k i j, (k < m)%nat -> (i < n)%nat -> (j < n)%nat -> entry d i j <=e exact_add (entry d i k) (entry d k j).

Lemma shortest_improves from d : square n d -> exists d', shortest from d = Ok d' /\ improves d d'.
Proof. apply loop_improves. intros k d0 [? Hk]%elem_of_seq. apply phase_improves. lia. Qed.

Lemma shortest_triangle from d d' :
  (from <= n)%nat -> square n d -> triangle from d -> shortest from d = Ok d' ->
  (forall i, (i < n)%nat -> Fin 0 <=e entry d' i i) -> triangle n d'.
Proof.
  unfold shortest. remember (n - from)%nat as m eqn:Em. revert from d Em.
  induction m as [|m IH]; intros from d Em Hle Hd Ht; cbn.
  - intros [= <-] _. by replace n with from by lia.
  - mred. intros H Hdiag. assert (Hk : (from < n)%nat) by lia.
    destruct (phase_improves from d Hk Hd) as (d1 & H1 & Hs1 & Hle1 & _). rewrite H1 in H.
    destruct (loop_improves (seq (S from) m) phase d1) as (d2 & H2 & _ & Hle2 & _); [|done|].
    { intros k d0 [_ Hk']%elem_of_seq. apply phase_improves. lia. }
    rewrite H2 in H. injection H as ->.
    assert (Hpos : Fin 0 <=e entry d from from).
    { eapply exact_le_trans; [by apply Hdiag|]. eapply exact_le_trans; [by apply Hle2|by apply Hle1]. }
    destruct (phase_exact (entry d) from Hk Hpos d Hd) as (d1' & H1' & _ & He); [done|]. rewrite H1' in H1. injection H1 as ->.
    apply (IH (S from) d1); [lia|lia|done| |done|done].
    intros k i j Hk' Hi Hj. rewrite !He by (done || lia). destruct (decide (k = from)) as [->|Hne].
    + by apply through_pivot.
    + apply (through_triangle (entry d) from Hk Hpos k); [|lia|done..]. intros i' j' Hi' Hj'. apply Ht; (done || lia).
Qed.
End Distances.

(** ** Networks of time constraints *)

Section Networks.
Context {V E : Type} `{VertexEq V} `{!WeightedEdge E exact}.
Implicit Type g : DirectedGraph V E.

(** Every edge has a finite weight, and no vertex an edge to itself. *)
Definition proper g : Prop :=
  graph_ok g /\ (forall i, entry_of g i i = None) /\
  forall i j edge, entry_of g i j = Some edge -> exists z, getWeight edge = Ok (Fin z).

(** [x] gives every vertex a time, by its index. *)
Definition satisfies g (x : nat -> Z) : Prop :=
  forall i j edge z, entry_of g i j = Some edge -> getWeight edge = Ok (Fin z) -> x j - x i <= z.

Definition weight_at g (i j : nat) : exact :=
  match entry_of g i j with
  | Some edge => match getWeight edge with Ok w => w | _ => PInf end
  | None => if Nat.eqb i j then Fin 0 else PInf
  end.

Lemma weight_of_ok g i j :
  proper g -> (i < length (vertices_ g))%nat -> (j < length (vertices_ g))%nat ->
  Weighted.weight_of g i j = Ok (weight_at g i j).
Proof.
  intros (Hg & _ & He) Hi Hj. unfold Weighted.weight_of, weight_at. rewrite cell_ok by done. mred.
  destruct (entry_of g i j) as [edge|] eqn:E1; [|done]. by destruct (He _ _ _ E1) as [z ->].
Qed.

Lemma weight_matrix_ok g :
  proper g -> let n := length (vertices_ g) in
  exists d, Weighted.getWeightMatrix g = Ok d /\ square n d /\
    forall i j, (i < n)%nat -> (j < n)%nat -> entry d i j = weight_at g i j.
Proof.
  intros Hg n. exists ((fun i => weight_at g i <$> seq 0 n) <$> seq 0 n). split; [|split].
  - apply mapM_Ok. intros i [_ Hi]%elem_of_seq. apply mapM_Ok. intros j [_ Hj]%elem_of_seq. by apply weight_of_ok.
  - split; [by rewrite length_fmap, length_seq|]. apply Forall_fmap, Forall_true. intros i. cbn.
    by rewrite length_fmap, length_seq.
  - intros i j Hi Hj. unfold entry. rewrite list_lookup_fmap, lookup_seq_lt by done. cbn.
    rewrite list_lookup_fmap, lookup_seq_lt by done. done.
Qed.

Lemma within_satisfies g d x :
  proper g -> (forall i j, (i < length (vertices_ g))%nat -> (j < length (vertices_ g))%nat -> entry d i j = weight_at g i j) ->
  satisfies g x <-> within (length (vertices_ g)) x d.
Proof.
  intros (Hg & Hself & Hz) He. split.
  - intros Hx i j Hi Hj. rewrite He by done. unfold weight_at. destruct (entry_of g i j) as [edge|] eqn:E1.
    + destruct (Hz _ _ _ E1) as [z Ez]. rewrite Ez. specialize (Hx _ _ _ _ E1 Ez). cbn. lia.
    + destruct (Nat.eqb_spec i j) as [->|]; [cbn; lia|done].
  - intros Hx i j edge z E1 Ez.
    assert (i < length (vertices_ g) /\ j < length (vertices_ g))%nat as [Hi Hj].
    { unfold entry_of in E1. destruct (adjacency_matrix_ g !! i) as [row|] eqn:Er; [|done]. cbn in E1.
      destruct (row !! j) as [e|] eqn:Ec; [|done]. destruct Hg as [Hl Hr]. apply lookup_lt_Some in Er as Hlt.
      apply lookup_lt_Some in Ec. apply (Forall_lookup_1 _ _ _ _ Hr) in Er. lia. }
    specialize (Hx i j Hi Hj). rewrite He in Hx by done. unfold weight_at in Hx. rewrite E1, Ez in Hx. cbn in Hx. lia.
Qed.

Lemma zero_diagonal_ok n d l :
  square n d -> (forall i, i ∈ l -> (i < n)%nat) ->
  exists b, Stn.zero_diagonal d l = Ok b /\ (b = true <-> forall i, i ∈ l -> entry d i i = Fin 0).
Proof.
  intros Hd. induction l as [|i l IH]; intros Hl; cbn.
  - exists true. split; [done|]. split; [|done]. intros _ i Hi. by apply elem_of_nil in Hi.
  - rewrite (at2_square n) by (done || apply Hl; by left). mred.
    destruct IH as (b & Hb & Hiff); [intros i' Hi'; apply Hl; by right|]. unfold w_eq. cbn.
    destruct (exact_le (entry d i i) (Fin 0) && _) eqn:E1.
    + exists b. split; [done|]. rewrite Hiff. setoid_rewrite elem_of_cons. apply andb_prop in E1 as [E1 E2].
      assert (entry d i i = Fin 0) as H0 by (destruct (entry d i i); cbn in *; try done; f_equal; lia). naive_solver.
    + exists false. split; [done|]. split; [done|]. intros Hall. rewrite (Hall i) in E1 by (by left). done.
Qed.

(** Shortest distances of a proper network. *)
Lemma floydWarshall_ok g :
  proper g -> let n := length (vertices_ g) in
  exists d, Weighted.floydWarshall g = Ok d /\ square n d /\ above_minus_infinity n d /\
    (forall x, satisfies g x -> within n x d) /\
    (forall i j, (i < n)%nat -> (j < n)%nat -> entry d i j <=e weight_at g i j) /\
    ((forall i, (i < n)%nat -> entry d i i = Fin 0) -> triangle n n d).
Proof.
  intros Hg n. destruct (weight_matrix_ok g Hg) as (d0 & H0 & Hs0 & He0). fold n in Hs0, He0.
  destruct (shortest_improves n 0 d0 Hs0) as (d & Hd & Hs & Hle & Hw & Ha).
  unfold shortest in Hd. rewrite Nat.sub_0_r in Hd. exists d. unfold Weighted.floydWarshall. rewrite H0. mred.
  split; [exact Hd|]. split; [done|]. split_and!.
  - apply Ha. intros i j Hi Hj. rewrite He0 by done. unfold weight_at. destruct Hg as (_ & _ & Hz).
    destruct (entry_of g i j) as [edge|] eqn:E1; [by destruct (Hz _ _ _ E1) as [z ->]|by destruct (Nat.eqb i j)].
  - intros x Hx. apply Hw. by apply (within_satisfies g d0 x Hg He0).
  - intros i j Hi Hj. rewrite <- He0 by done. by apply Hle.
  - intros Hdiag. apply (shortest_triangle n 0 d0 d); [lia|done|intros k i j Hk; lia| |].
    + unfold shortest. by rewrite Nat.sub_0_r.
    + intros i Hi. rewrite Hdiag by done. apply exact_le_refl.
Qed.

Definition net_of g d : SimpleTemporalNetwork V E exact := {| network := g; d_graph_ := d |}.

Lemma solve_ok g d0 :
  proper g -> let n := length (vertices_ g) in
  exists b d, Stn.solve (net_of g d0) = (Ok b, net_of g d) /\ Weighted.floydWarshall g = Ok d /\ square n d /\
    (b = true <-> forall i, (i < n)%nat -> entry d i i = Fin 0).
Proof.
  intros Hg n. destruct (floydWarshall_ok g Hg) as (d & Hd & Hs & _). fold n in Hs.
  destruct (zero_diagonal_ok n d (seq 0 n) Hs) as (b & Hb & Hiff); [intros i [_ Hi]%elem_of_seq; lia|].
  exists b, d. split_and!; [|done|done|].
  - unfold Stn.solve. rewrite bind_get, bind_lift. cbn [network net_of]. rewrite Hd, bind_modify. unfold lift. fold n.
    by rewrite Hb.
  - rewrite Hiff. split; intros Hall i Hi; apply Hall; [apply elem_of_seq; lia|]. apply elem_of_seq in Hi. lia.
Qed.

(** The smallest of the distances from any vertex. *)
Definition exact_min (a b : exact) : exact := if exact_le a b then a else b.
Definition closest (d : list (list exact)) (j : nat) (sources : list nat) : exact :=
  foldr (fun i m => exact_min (entry d i j) m) PInf sources.

Lemma closest_le d j sources i : i ∈ sources -> closest d j sources <=e entry d i j.
Proof.
  induction sources as [|k l IH]; intros Hi; [by apply elem_of_nil in Hi|]. cbn. unfold exact_min.
  destruct (exact_le (entry d k j) _) eqn:Ek; apply elem_of_cons in Hi as [->|Hi].
  - apply exact_le_refl.
  - eapply exact_le_trans; [exact Ek|by apply IH].
  - by apply exact_le_total.
  - by apply IH.
Qed.
Lemma closest_attained d j sources :
  closest d j sources = PInf \/ exists i, i ∈ sources /\ closest d j sources = entry d i j.
Proof.
  induction sources as [|k l IH]; [by left|]. cbn. unfold exact_min. destruct (exact_le _ _).
  - right. exists k. split; [by left|done].
  - destruct IH as [IH|(i & Hi & IH)]; [by left|]. right. exists i. split; [by right|done].
Qed.

(** Distances that obey the triangle inequality give a solution. *)
Lemma distances_satisfy g d :
  proper g -> let n := length (vertices_ g) in
  above_minus_infinity n d -> (forall i, (i < n)%nat -> entry d i i = Fin 0) ->
  (forall i j, (i < n)%nat -> (j < n)%nat -> entry d i j <=e weight_at g i j) -> triangle n n d ->
  exists x, satisfies g x.
Proof.
  intros Hg n Ha Hdiag Hle Ht. set (c := fun j => closest d j (seq 0 n)).
  assert (Hc : forall j, (j < n)%nat -> exists z, c j = Fin z).
  { intros j Hj. unfold c. assert (closest d j (seq 0 n) <=e entry d j j) as Hjj by (apply closest_le, elem_of_seq; lia).
    rewrite Hdiag in Hjj by done. destruct (closest_attained d j (seq 0 n)) as [Hp|(i & [_ Hi]%elem_of_seq & Hp)]; rewrite Hp in *.
    - done.
    - specialize (Ha i j ltac:(lia) Hj). destruct (entry d i j); [by eexists|done|done]. }
  exists (fun j => match c j with Fin z => z | _ => 0 end).
  pose proof (within_satisfies g ((fun i => weight_at g i <$> seq 0 n) <$> seq 0 n)) as Hws.
  rewrite Hws; [|done|].
  2:{ intros i j Hi Hj. unfold entry. rewrite list_lookup_fmap, lookup_seq_lt by done. cbn.
      rewrite list_lookup_fmap, lookup_seq_lt by done. done. }
  intros i j Hi Hj. unfold entry. rewrite list_lookup_fmap, lookup_seq_lt by done. cbn.
  rewrite list_lookup_fmap, lookup_seq_lt by done. cbn.
  destruct (Hc i Hi) as [zi Ezi], (Hc j Hj) as [zj Ezj]. rewrite Ezi, Ezj.
  destruct (closest_attained d i (seq 0 n)) as [Hp|(k & [_ Hk]%elem_of_seq & Hp)]; fold (c i) in Hp; [congruence|].
  assert (c j <=e entry d k j) as H1 by (apply closest_le, elem_of_seq; lia).
  pose proof (Ht i k j Hi ltac:(lia) Hj) as H2. pose proof (Hle i j Hi Hj) as H3. unfold id.
  rewrite <- Hp, Ezi in H2. rewrite Ezj in H1.
  destruct (entry d k j), (entry d i j), (weight_at g i j); cbn in *; try done; lia.
Qed.

(** [solve] decides whether the time constraints can be met: it returns, and returns [true] exactly if
    there are times for the vertices whose differences respect the weight of every edge. *)
Theorem solve_decides g d0 :
  proper g ->
  exists b net', Stn.solve (net_of g d0) = (Ok b, net') /\ (b = true <-> exists x, satisfies g x).
Proof.
  intros Hg. destruct (solve_ok g d0 Hg) as (b & d & Hs & Hf & Hsq & Hiff).
  destruct (floydWarshall_ok g Hg) as (d' & Hf' & _ & Ha & Hw & Hle & Ht). rewrite Hf in Hf'. injection Hf' as <-.
  exists b, (net_of g d). split; [done|]. rewrite Hiff. split.
  - intros Hdiag. apply (distances_satisfy g d); auto.
  - intros [x Hx] i Hi. pose proof (Hw x Hx i i Hi Hi) as H1. pose proof (Hle i i Hi Hi) as H2.
    unfold weight_at in H2. destruct Hg as (_ & Hself & _). rewrite Hself, Nat.eqb_refl in H2.
    rewrite Z.sub_diag in H1. destruct (entry d i i); cbn in *; try done. f_equal. lia.
Qed.

Lemma solution_ok (l : list V) i (value : nat -> outcome exact) (w : nat -> exact) :
  (forall k, (k < length l)%nat -> value (i + k)%nat = Ok (w (i + k)%nat)) ->
  Stn.solution l i value = Ok (imap (fun k v => (v, w (i + k)%nat)) l).
Proof.
  revert i. induction l as [|v l IH]; intros i Hv; [done|]. cbn.
  pose proof (Hv 0%nat) as H0. rewrite Nat.add_0_r in *. rewrite H0 by (cbn; lia). mred. rewrite IH.
  - f_equal. f_equal. apply imap_ext. intros k v' _. cbn. do 2 f_equal. lia.
  - intros k Hk. replace (S i + k)%nat with (i + S k)%nat by lia. apply Hv. cbn. lia.
Qed.

(** The earliest solution. After [solve] has succeeded, [getEarliestSolution] gives every vertex a time; if
    these are finite they meet all constraints, start with the origin at 0, and no other times with the
    origin at 0 are earlier for any vertex. *)
Theorem earliest_solution g d0 net' l :
  proper g -> (0 < length (vertices_ g))%nat ->
  Stn.solve (net_of g d0) = (Ok true, net') -> Stn.getEarliestSolution net' = Ok l ->
  Forall (fun p => exists z, p.2 = Fin z) l ->
  exists x, l = imap (fun i v => (v, Fin (x i))) (vertices_ g) /\ satisfies g x /\ x 0%nat = 0 /\
    forall y, satisfies g y -> y 0%nat = 0 -> forall i, (i < length (vertices_ g))%nat -> x i <= y i.
Proof.
  intros Hg Hpos Hsolve Hl Hfin. destruct (solve_ok g d0 Hg) as (b & d & Hs & Hf & Hsq & Hiff).
  rewrite Hsolve in Hs. injection Hs as <- ->. pose proof (proj1 Hiff eq_refl) as Hdiag. clear Hiff.
  destruct (floydWarshall_ok g Hg) as (d' & Hf' & _ & _ & Hw & Hle & Ht). rewrite Hf in Hf'. injection Hf' as <-.
  specialize (Ht Hdiag). set (n := length (vertices_ g)) in *.
  assert (Stn.getEarliestSolution (net_of g d) = Ok (imap (fun k v => (v, exact_neg (entry d k 0))) (vertices_ g))) as Hl'.
  { apply (solution_ok _ 0 _ (fun k => exact_neg (entry d k 0))). intros k Hk. cbn [Nat.add d_graph_ net_of].
    rewrite (at2_square n) by done. done. }
  rewrite Hl in Hl'. injection Hl' as ->.
  assert (Hz : forall i, (i < n)%nat -> exists z, entry d i 0 = Fin (- z)).
  { intros i Hi. destruct (lookup_lt_is_Some_2 (vertices_ g) i Hi) as [v Hv].
    assert (exists z, exact_neg (entry d i 0) = Fin z) as [z Hz].
    { apply (Forall_lookup_1 _ _ i (v, exact_neg (entry d i 0)) Hfin). by rewrite list_lookup_imap, Hv. }
    exists z. destruct (entry d i 0); [|done|done]. injection Hz as <-. f_equal. lia. }
  exists (fun i => match entry d i 0 with Fin z => - z | _ => 0 end). split_and!.
  - apply imap_ext. intros i v Hv. f_equal. apply lookup_lt_Some in Hv. by destruct (Hz i Hv) as [z ->].
  - intros i j edge z E1 Ez.
    assert (i < n /\ j < n)%nat as [Hi Hj].
    { unfold entry_of in E1. destruct (adjacency_matrix_ g !! i) as [row|] eqn:Er; [|done]. cbn in E1.
      destruct (row !! j) as [e|] eqn:Ec; [|done]. destruct Hg as ([Hlm Hr] & _). apply lookup_lt_Some in Er as Hlt.
      apply lookup_lt_Some in Ec. apply (Forall_lookup_1 _ _ _ _ Hr) in Er. lia. }
    pose proof (Ht j i 0%nat Hj Hi Hpos) as H1. pose proof (Hle i j Hi Hj) as H2. unfold weight_at in H2. rewrite E1, Ez in H2.
    destruct (Hz i Hi) as [zi Ei], (Hz j Hj) as [zj Ej]. rewrite Ei, Ej in *. destruct (entry d i j); cbn in *; try done; lia.
  - by rewrite Hdiag.
  - intros y Hy Hy0 i Hi. pose proof (Hw y Hy i 0%nat Hi Hpos) as H1. destruct (Hz i Hi) as [z Ez]. rewrite Ez in *.
    cbn in H1. lia.
Qed.
End Networks.

(** ** Adding constraints *)

Section Constraints.
Context {V : Type} `{VertexEq V}.
Abbreviation Edge := (StnTaskManagementEdge exact).
Implicit Type g : DirectedGraph V Edge.

Lemma entry_range g i j e :
  graph_ok g -> entry_of g i j = Some e -> (i < length (vertices_ g))%nat /\ (j < length (vertices_ g))%nat.
Proof.
  intros [Hlm Hr] He. unfold entry_of in He. destruct (adjacency_matrix_ g !! i) as [row|] eqn:Er; [|done]. cbn in He.
  destruct (row !! j) as [c|] eqn:Ec; [|done]. apply lookup_lt_Some in Er as Hlt. apply lookup_lt_Some in Ec.
  apply (Forall_lookup_1 _ _ _ _ Hr) in Er. lia.
Qed.

(** A bound between vertices that have none yet is the new edge. *)
Lemma add_bound_new start end_ (positive : bool) w (net : SimpleTemporalNetwork V Edge exact) i j :
  proper (network net) -> Graph.find_vertex start (network net) = Some i ->
  Graph.find_vertex end_ (network net) = Some j -> i <> j -> entry_of (network net) i j = None ->
  (if positive then 0 <= w else w <= 0) ->
  exists net', Stn.add_bound start end_ positive (Fin w) net = (Ok tt, net') /\ proper (network net') /\
    vertices_ (network net') = vertices_ (network net) /\
    (forall a b, (a, b) <> (i, j) -> entry_of (network net') a b = entry_of (network net) a b) /\
    forall x, satisfies (network net') x <-> satisfies (network net) x /\ x j - x i <= w.
Proof.
  intros (Hg & Hself & Hz) Hi Hj Hij Hnone Hw. destruct net as [g d]. cbn [network] in *.
  set (edge := {| weights_ := [Fin w]; all_positive_ := positive |}).
  assert (Hedge : addWeight (Fin w) (new_edge positive) = Ok edge).
  { unfold edge. cbn. unfold StnEdge.add. cbn. destruct positive; cbn.
    - by rewrite (proj2 (Z.leb_le 0 w)).
    - rewrite andb_false_r. by rewrite (proj2 (Z.leb_le w 0)). }
  assert (Hweight : getWeight edge = Ok (Fin w)) by (unfold edge; by destruct positive).
  destruct (set_cell_ok g i j (Some edge)) as (g' & Hs & Hg' & Hv & He); [done|by eapply find_vertex_lt..|].
  exists {| network := g'; d_graph_ := d |}. cbn [network]. split_and!.
  - assert (Graph.hasEdge start end_ g = Ok false) as Hno.
    { unfold Graph.hasEdge. rewrite Hi, Hj. by rewrite cell_ok, Hnone by (done || by eapply find_vertex_lt). }
    unfold Stn.add_bound. rewrite bind_get, bind_lift. cbn [network]. rewrite Hno.
    rewrite bind_lift, Hedge. unfold Stn.on_graph, zoom, Graph.addEdge. cbn [network]. rewrite bind_get, Hi, Hj, Hs. done.
  - split; [done|]. split.
    + intros a. rewrite He, decide_False by (intros [-> ->]; done). apply Hself.
    + intros a b e. rewrite He. case_decide as Hab; [intros [= <-]; by exists w|apply Hz].
  - done.
  - intros a b Hab. rewrite He, decide_False; [done|]. intros [-> ->]. done.
  - intros x. split.
    + intros Hx. split.
      * intros a b e z E1 Ez. apply (Hx a b e z); [|done]. rewrite He, decide_False; [done|]. intros [-> ->]. congruence.
      * apply (Hx i j edge w); [by rewrite He, decide_True|done].
    + intros [Hx Hwx] a b e z. rewrite He. case_decide as Hab; [|by apply Hx].
      destruct Hab as [-> ->]. intros [= <-]. rewrite Hweight. intros [= <-]. done.
Qed.

Lemma find_vertex_same v g g' : vertices_ g' = vertices_ g -> Graph.find_vertex v g' = Graph.find_vertex v g.
Proof. intros Hv. unfold Graph.find_vertex. by rewrite Hv. Qed.

(** What a constraint between two vertices that had none means: the times that satisfy the network
    afterwards are those that did before and whose difference lies between the bounds. *)
Theorem addBinaryConstraint_meaning start end_ lower upper (net : SimpleTemporalNetwork V Edge exact) i j :
  proper (network net) -> Graph.find_vertex start (network net) = Some i ->
  Graph.find_vertex end_ (network net) = Some j -> i <> j ->
  entry_of (network net) i j = None -> entry_of (network net) j i = None -> 0 <= lower -> 0 <= upper ->
  exists net', Stn.addBinaryConstraint start end_ (Some (Fin lower)) (Some (Fin upper)) net = (Ok tt, net') /\
    proper (network net') /\
    forall x, satisfies (network net') x <-> satisfies (network net) x /\ lower <= x j - x i <= upper.
Proof.
  intros Hp Hi Hj Hij Hnone1 Hnone2 Hlo Hup.
  destruct (add_bound_new start end_ true upper net i j Hp Hi Hj Hij Hnone1 Hup) as (n1 & H1 & Hp1 & Hv1 & He1 & Hs1).
  destruct (add_bound_new end_ start false (- lower) n1 j i) as (n2 & H2 & Hp2 & _ & _ & Hs2); [done| | |congruence| |lia|].
  { by rewrite (find_vertex_same _ _ _ Hv1). }
  { by rewrite (find_vertex_same _ _ _ Hv1). }
  { rewrite He1; [done|]. intros [= -> _]. done. }
  exists n2. split; [|split; [done|]].
  - unfold Stn.addBinaryConstraint, Graph.hasVertex. rewrite bind_get, Hi, Hj. cbn [negb orb]. rewrite bind_throw_if.
    cbn [Stn.optionally]. mred. rewrite H1. exact H2.
  - intros x. rewrite Hs2, Hs1. split; [intros [[? ?] ?]; split; [done|lia]|intros [? ?]; split_and!; [done|lia..]].
Qed.
End Constraints.

(** ** Examples *)

#[export] Instance nat_vertex : VertexEq nat := Nat.eqb.
Abbreviation Network := (SimpleTemporalNetwork nat (StnTaskManagementEdge exact) exact).
Definition blank : Network := {| network := Graph.empty; d_graph_ := [] |}.

(** Origin 0, start 1 and finish 2 of an order. *)
Definition with_order : M Network unit :=
  Stn.create 0%nat;; Stn.on_graph (Graph.addVertex 1%nat);; Stn.on_graph (Graph.addVertex 2%nat).
Definition order_net : Network := (with_order blank).2.

Lemma order_net_proper : proper (network order_net).
Proof.
  split; [split; [done|repeat constructor]|]. split.
  - intros i. by do 3 (destruct i as [|i]; [done|]).
  - intros i j edge. by do 3 (destruct i as [|i]; [by do 3 (destruct j as [|j]; [done|])|]).
Qed.

Lemma addBinaryConstraint_meaning_witness :
  exists net', Stn.addBinaryConstraint 1%nat 2%nat (Some (Fin 3)) (Some (Fin 5)) order_net = (Ok tt, net') /\
    proper (network net') /\
    forall x, satisfies (network net') x <-> satisfies (network order_net) x /\ 3 <= x 2%nat - x 1%nat <= 5.
Proof.
  apply (addBinaryConstraint_meaning 1%nat 2%nat 3 5 order_net 1 2); [apply order_net_proper|reflexivity|reflexivity|done|reflexivity|reflexivity|lia|lia].
Defined.

Lemma solve_decides_witness :
  exists b net', Stn.solve (net_of (network order_net) []) = (Ok b, net') /\
    (b = true <-> exists x, satisfies (network order_net) x).
Proof. apply (solve_decides (network order_net) []). apply order_net_proper. Defined.

Lemma addEdge_getEdge_witness :
  exists g', Graph.addEdge 1%nat 2%nat (new_edge true : StnTaskManagementEdge exact) (network order_net) = (Ok tt, g') /\
    graph_ok g' /\ Graph.getEdge 1%nat 2%nat g' = Ok (new_edge true) /\ Graph.hasEdge 1%nat 2%nat g' = Ok true /\
    forall a b, entry_of g' a b = if decide (a = 1%nat /\ b = 2%nat) then Some (new_edge true) else entry_of (network order_net) a b.
Proof.
  apply (addEdge_getEdge (network order_net) 1%nat 2%nat (new_edge true) 1 2);
    [apply order_net_proper|reflexivity|reflexivity].
Defined.

(** The start of the order after 3, at least 4 for the order. *)
Definition timed_net : Network :=
  ((Stn.addUnaryConstraint 1%nat (Some (Fin 3)) None;; Stn.addBinaryConstraint 1%nat 2%nat (Some (Fin 4)) None) order_net).2.

Lemma timed_net_proper : proper (network timed_net).
Proof.
  split; [split; [done|repeat constructor]|]. split.
  - intros i. by do 3 (destruct i as [|i]; [done|]).
  - intros i j edge.
    by do 3 (destruct i as [|i]; [by do 3 (destruct j as [|j]; [try done; intros [= <-]; by eexists|])|]).
Qed.

Lemma earliest_solution_witness :
  exists x, [(0%nat, Fin 0); (1%nat, Fin 3); (2%nat, Fin 7)] = imap (fun i v => (v, Fin (x i))) [0%nat; 1%nat; 2%nat] /\
    satisfies (network timed_net) x /\ x 0%nat = 0 /\
    forall y, satisfies (network timed_net) y -> y 0%nat = 0 -> forall i, (i < 3)%nat -> x i <= y i.
Proof.
  apply (earliest_solution (network timed_net) [] (Stn.solve (net_of (network timed_net) [])).2
    [(0%nat, Fin 0); (1%nat, Fin 3); (2%nat, Fin 7)]).
  - apply timed_net_proper.
  - apply Nat.ltb_lt. vm_compute. reflexivity.
  - vm_compute. reflexivity.
  - vm_compute. reflexivity.
  - repeat constructor; by eexists.
Defined.

Lemma removeVertex_erases_other_column_witness :
  exists g', Graph.removeVertex 2%nat (network order_net) = (Undefined, g').
Proof.
  apply (removeVertex_erases_other_column (network order_net) 2%nat 2); [apply order_net_proper|reflexivity].
Defined.

(** Of several upper bounds for the same two vertices the loosest counts: after 10 and then 5 the finish may still
    be at 10. *)
Theorem tighter_upper_bound_ignored :
  let net := ((Stn.addUnaryConstraint 2%nat None (Some (Fin 10));; Stn.addUnaryConstraint 2%nat None (Some (Fin 5));;
               Stn.solve) order_net) in
  net.1 = Ok true /\ Stn.getLatestSolution net.2 = Ok [(0%nat, Fin 0); (1%nat, PInf); (2%nat, Fin 10)].
Proof. by vm_compute. Qed.

(** Removing the two vertices of an order one after the other, as a vehicle does when it starts a task, has undefined
    behaviour. *)
Theorem starting_a_task_is_undefined :
  (Stn.removeVertex 1%nat;; Stn.removeVertex 2%nat) order_net =
    (Undefined, {| network := {| vertices_ := [0%nat]; adjacency_matrix_ := [[None; None]] |}; d_graph_ := [] |}).
Proof. reflexivity. Qed.
