(* ===== verification/NetworkDoubles.v ===== *)
(** * Networks of time constraints in doubles

    What [GraphProperties] shows of [solve] and its solutions in exact arithmetic holds for the
    doubles the code computes with, as long as the weights are whole numbers that leave room for
    their sums. The run on doubles follows the exact one step by step until a vertex gets a
    negative distance to itself; from then on both know that there is no solution. *)

From Stdlib Require Import SpecFloat.
From S2P Require Import Prelude TreeMapper WholeDoubles Graph GraphProperties.

(** ** A double and the number it stands for *)

(** Exact weights up to [B]. *)
Definition bounded (B : Z) (a : exact) : Prop := match a with Fin z => Z.abs z <= B | PInf => True | NInf => False end.

Definition stands_for (x : double) (a : exact) : Prop :=
  match a with Fin z => whole x z | PInf => x = S754_infinity false | NInf => False end.

Definition follows (B : Z) (x : double) (a : exact) : Prop := stands_for x a /\ bounded B a.

Lemma follows_weaken B B' x a : B <= B' -> follows B x a -> follows B' x a.
Proof. intros HB [Hs Hb]. split; [done|]. destruct a; cbn in *; [lia|done|done]. Qed.

Lemma stands_add x y a b : stands_for x a -> stands_for y b -> bounded (2 ^ 53 - 1) (exact_add a b) -> stands_for (d_add x y) (exact_add a b).
Proof.
  destruct a as [za| |], b as [zb| |]; cbn; try done.
  - intros Hx Hy Hb. apply whole_add; [done|done|lia].
  - intros Hx -> _. by destruct Hx.
  - intros -> Hy _. by destruct Hy.
  - by intros -> -> _.
Qed.

Lemma stands_lt x y a b : stands_for x a -> stands_for y b -> d_lt x y = negb (exact_le b a).
Proof.
  destruct a as [za| |], b as [zb| |]; cbn; try done.
  - intros Hx Hy. rewrite (whole_lt x y za zb Hx Hy). apply Z.ltb_antisym.
  - intros Hx ->. by destruct Hx as [[]|[]].
  - intros -> Hy. by destruct Hy as [[]|[]].
  - by intros -> ->.
Qed.

Lemma stands_zero x a : stands_for x a -> d_eq x (S754_zero false) = exact_le a (Fin 0) && exact_le (Fin 0) a.
Proof.
  destruct a as [za| |]; cbn; [|by intros ->|done]. intros Hx. rewrite (whole_eq x _ za 0 Hx (whole_zero false)).
  destruct (Z.eqb_spec za 0) as [->|]; [done|]. symmetry. apply andb_false_iff. rewrite !Z.leb_gt. lia.
Qed.

(** ** Runs on doubles follow the exact run *)

Abbreviation Doubles := (list (list double)).
Abbreviation Exacts := (list (list exact)).

Definition matrix_follows (B : Z) (d : Doubles) (D : Exacts) : Prop := Forall2 (Forall2 (follows B)) d D.

Lemma matrix_weaken B B' d D : B <= B' -> matrix_follows B d D -> matrix_follows B' d D.
Proof.
  intros HB Hd. eapply Forall2_impl; [exact Hd|]. intros r R Hr. eapply Forall2_impl; [exact Hr|]. intros x a. by apply follows_weaken.
Qed.

Lemma follows_at B d D i j a :
  matrix_follows B d D -> Weighted.at2 D i j = Ok a -> exists x, Weighted.at2 d i j = Ok x /\ follows B x a.
Proof.
  intros Hd. unfold Weighted.at2, vec_at. destruct (D !! i) as [R|] eqn:ER; [|done]. cbn.
  destruct (Forall2_lookup_r _ _ _ _ _ Hd ER) as (r & Er & Hr). rewrite Er. cbn.
  destruct (R !! j) as [b|] eqn:Eb; [|done]. intros [= <-].
  destruct (Forall2_lookup_r _ _ _ _ _ Hr Eb) as (x & Ex & Hx). rewrite Ex. by exists x.
Qed.

Lemma follows_square B n d D : matrix_follows B d D -> square n D -> square n d.
Proof.
  intros Hd [Hl Hr]. split; [by rewrite (Forall2_length _ _ _ Hd)|]. apply Forall_lookup_2. intros i r Er.
  destruct (Forall2_lookup_l _ _ _ _ _ Hd Er) as (R & ER & HR). rewrite (Forall2_length _ _ _ HR).
  by apply (Forall_lookup_1 _ _ _ _ Hr ER).
Qed.

Lemma follows_set B d D i j x a :
  matrix_follows B d D -> follows B x a ->
  matrix_follows B (alter (fun row => <[j := x]> row) i d) (alter (fun row => <[j := a]> row) i D).
Proof. intros Hd Hx. apply Forall2_alter; [done|]. intros r R _ _ Hr. by apply Forall2_insert. Qed.

(** Row and column of the pivot are bounded by half of what the rest may be. *)
Lemma relax_follows B k i j d D a b c :
  matrix_follows (2 * B) d D -> 2 * B < 2 ^ 53 -> Weighted.at2 D i k = Ok a -> Weighted.at2 D k j = Ok b -> Weighted.at2 D i j = Ok c ->
  bounded B a -> bounded B b ->
  exists d' D', Weighted.relax k i j d = Ok d' /\ Weighted.relax k i j D = Ok D' /\ matrix_follows (2 * B) d' D'.
Proof.
  intros Hd HB Ha Hb Hc Hba Hbb.
  destruct (follows_at _ _ _ _ _ _ Hd Ha) as (x & Ex & Hx & _), (follows_at _ _ _ _ _ _ Hd Hb) as (y & Ey & Hy & _),
    (follows_at _ _ _ _ _ _ Hd Hc) as (z & Ez & Hz & _).
  assert (Hab : bounded (2 * B) (exact_add a b)) by (destruct a, b; cbn in *; try done; lia).
  assert (Hxy : stands_for (d_add x y) (exact_add a b)).
  { apply stands_add; [done|done|]. destruct (exact_add a b); cbn in *; try done; lia. }
  unfold Weighted.relax. rewrite Ex, Ey, Ez, Ha, Hb, Hc. mred. cbn [w_lt w_add double_weights exact_weights].
  rewrite (stands_lt _ _ _ _ Hxy Hz). destruct (exact_le c (exact_add a b)); cbn [negb].
  - by exists d, D.
  - eexists _, _. split; [reflexivity|]. split; [reflexivity|]. by apply follows_set.
Qed.

Section Runs.
Variable n : nat.

Definition d_row_loop (k i : nat) : Doubles -> outcome Doubles := Weighted.loop (seq 0 n) (fun j => Weighted.relax k i j).
Definition d_phase (k : nat) : Doubles -> outcome Doubles := Weighted.loop (seq 0 n) (d_row_loop k).

(** A phase without a negative distance of the pivot to itself at most doubles the entries. *)
Section Phase.
Variables (B : Z) (D0 : Exacts) (k : nat).
Hypothesis (nonneg : 0 <= B) (room : 2 * B < 2 ^ 53) (pivot : (k < n)%nat) (no_negative : exact_le (Fin 0) (entry D0 k k) = true).
Hypothesis bounds : forall i j, (i < n)%nat -> (j < n)%nat -> bounded B (entry D0 i j).

Lemma row_follows i d D :
  (i < n)%nat -> matrix_follows (2 * B) d D -> done_until n (entry D0) k i 0 D ->
  exists d' D', d_row_loop k i d = Ok d' /\ row_loop n k i D = Ok D' /\ matrix_follows (2 * B) d' D' /\
    done_until n (entry D0) k (S i) 0 D'.
Proof.
  intros Hi. unfold d_row_loop, row_loop.
  assert (Hgen : forall m j d D, (j + m = n)%nat -> matrix_follows (2 * B) d D -> done_until n (entry D0) k i j D ->
    exists d' D', Weighted.loop (seq j m) (fun j => Weighted.relax k i j) d = Ok d' /\
      Weighted.loop (seq j m) (fun j => Weighted.relax k i j) D = Ok D' /\ matrix_follows (2 * B) d' D' /\
      done_until n (entry D0) k i n D').
  { induction m as [|m IH]; intros j d1 D1 Hj Hf Hdone; cbn.
    - exists d1, D1. do 3 (split; [done|]). by assert (j = n) as -> by lia.
    - pose proof Hdone as [Hsq He].
      assert (Eik : entry D1 i k = entry D0 i k) by (rewrite He by done; case_decide; [by apply through_column|done]).
      assert (Ekj : entry D1 k j = entry D0 k j) by (rewrite He by (done || lia); case_decide; [by apply through_row|done]).
      destruct (relax_follows B k i j d1 D1 (entry D1 i k) (entry D1 k j) (entry D1 i j)) as (d2 & D2 & H1 & H2 & Hf2);
        [done|done|apply (at2_square n); (done || lia)..|rewrite Eik; apply bounds; (done || lia)|rewrite Ekj; apply bounds; (done || lia)|].
      destruct (relax_done n (entry D0) k pivot no_negative i j D1) as (D2' & H2' & Hdone2); [done|lia|done|].
      rewrite H2 in H2'. injection H2' as <-. mred. rewrite H1, H2. apply IH; [lia|done|done]. }
  intros Hf Hdone. destruct (Hgen n 0%nat d D) as (d' & D' & H1 & H2 & H3 & [Hs He]); [lia|done|done|].
  exists d', D'. do 3 (split; [done|]). split; [done|].
  intros a b Ha Hb. rewrite He by done. case_decide; case_decide; (done || lia).
Qed.

Lemma phase_follows d :
  square n D0 -> matrix_follows B d D0 ->
  exists d' D', d_phase k d = Ok d' /\ phase n k D0 = Ok D' /\ matrix_follows (2 * B) d' D'.
Proof.
  intros Hsq Hd. unfold d_phase, phase.
  assert (Hgen : forall m i d D, (i + m = n)%nat -> matrix_follows (2 * B) d D -> done_until n (entry D0) k i 0 D ->
    exists d' D', Weighted.loop (seq i m) (d_row_loop k) d = Ok d' /\
      Weighted.loop (seq i m) (row_loop n k) D = Ok D' /\ matrix_follows (2 * B) d' D').
  { induction m as [|m IH]; intros i d1 D1 Hi Hf Hdone; cbn; [by exists d1, D1|].
    destruct (row_follows i d1 D1) as (d2 & D2 & H1 & H2 & Hf2 & Hdone2); [lia|done|done|]. mred. rewrite H1, H2.
    apply IH; [lia|done|done]. }
  apply (Hgen n 0%nat); [lia|apply (matrix_weaken B); [lia|done]|]. split; [done|]. intros a b Ha Hb. by rewrite decide_False by lia.
Qed.
End Phase.

(** ** A negative distance stays *)

Definition negative_loop (d : Doubles) : Prop :=
  square n d /\ exists i x, (i < n)%nat /\ Weighted.at2 d i i = Ok x /\ d_lt x (S754_zero false) = true.

Lemma d_at2_square (d : Doubles) i j : square n d -> (i < n)%nat -> (j < n)%nat -> exists x, Weighted.at2 d i j = Ok x.
Proof.
  intros Hd Hi Hj. destruct (square_row _ _ i Hd Hi) as (row & Hrow & Hl).
  destruct (lookup_lt_is_Some_2 row j) as [x Hx]; [lia|]. exists x. unfold Weighted.at2, vec_at. rewrite Hrow. cbn. by rewrite Hx.
Qed.

Lemma at2_set (d : Doubles) i j w a x :
  square n d -> (i < n)%nat -> (j < n)%nat -> Weighted.at2 d a a = Ok x ->
  Weighted.at2 (alter (fun row => <[j := w]> row) i d) a a = Ok (if decide (a = i /\ a = j) then w else x).
Proof.
  intros Hd Hi Hj. destruct (square_row _ _ i Hd Hi) as (row & Hrow & Hl). unfold Weighted.at2, vec_at.
  destruct (decide (a = i)) as [->|Ha].
  - rewrite list_lookup_alter_eq, Hrow. cbn. destruct (decide (i = j)) as [<-|Hb].
    + rewrite list_lookup_insert_eq by lia. by rewrite decide_True.
    + rewrite list_lookup_insert_ne by done. by rewrite decide_False by tauto.
  - rewrite list_lookup_alter_ne by done. by rewrite decide_False by tauto.
Qed.

Lemma relax_keeps k i j d :
  (k < n)%nat -> (i < n)%nat -> (j < n)%nat -> negative_loop d -> exists d', Weighted.relax k i j d = Ok d' /\ negative_loop d'.
Proof.
  intros Hk Hi Hj [Hsq (a & x & Ha & Hx & Hneg)]. unfold Weighted.relax.
  destruct (d_at2_square d i k Hsq Hi Hk) as [y Ey], (d_at2_square d k j Hsq Hk Hj) as [z Ez], (d_at2_square d i j Hsq Hi Hj) as [c Ec].
  rewrite Ey, Ez, Ec. mred. cbn [w_lt w_add double_weights]. destruct (d_lt (d_add y z) c) eqn:El.
  - eexists. split; [reflexivity|]. split; [by apply square_set|]. exists a. rewrite (at2_set d i j _ a x) by done.
    destruct (decide (a = i /\ a = j)) as [[-> <-]|]; [|by eexists]. eexists. split; [done|]. split; [done|].
    assert (x = c) as -> by congruence. by apply (d_lt_trans _ c).
  - exists d. split; [done|]. split; [done|]. by exists a, x.
Qed.

Lemma loop_keeps (l : list nat) (body : nat -> Doubles -> outcome Doubles) d :
  (forall i d, i ∈ l -> negative_loop d -> exists d', body i d = Ok d' /\ negative_loop d') ->
  negative_loop d -> exists d', Weighted.loop l body d = Ok d' /\ negative_loop d'.
Proof.
  revert d. induction l as [|i l IH]; intros d Hb Hd; cbn; [by exists d|].
  destruct (Hb i d) as (d1 & H1 & Hd1); [by left|done|]. mred. rewrite H1. apply IH; [|done]. intros i' d' Hi'. apply Hb. by right.
Qed.

Definition d_shortest (from : nat) : Doubles -> outcome Doubles := Weighted.loop (seq from (n - from)) d_phase.

Lemma shortest_keeps from d : negative_loop d -> exists d', d_shortest from d = Ok d' /\ negative_loop d'.
Proof.
  apply loop_keeps. intros k d1 [Hfrom Hk]%elem_of_seq. apply loop_keeps. intros i d2 [_ Hi]%elem_of_seq. apply loop_keeps.
  intros j d3 [_ Hj]%elem_of_seq. apply relax_keeps; lia.
Qed.

(** ** All phases *)

Definition exact_negative (D : Exacts) : Prop := exists i, (i < n)%nat /\ exact_le (Fin 0) (entry D i i) = false.

Lemma follows_bounds B d D : matrix_follows B d D -> square n D -> forall i j, (i < n)%nat -> (j < n)%nat -> bounded B (entry D i j).
Proof. intros Hd Hsq i j Hi Hj. destruct (follows_at B d D i j _ Hd (at2_square n D i j Hsq Hi Hj)) as (x & _ & _ & Hb). done. Qed.

Lemma shortest_follows m from B d D :
  (from + m = n)%nat -> 0 <= B -> B * 2 ^ Z.of_nat m < 2 ^ 53 -> square n D -> matrix_follows B d D ->
  exists d' D', d_shortest from d = Ok d' /\ shortest n from D = Ok D' /\ square n D' /\
    (matrix_follows (B * 2 ^ Z.of_nat m) d' D' \/ negative_loop d' /\ exact_negative D').
Proof.
  revert from B d D. induction m as [|m IH]; intros from B d D Hm HB Hroom Hsq Hd.
  - exists d, D. unfold d_shortest, shortest. replace (n - from)%nat with 0%nat by lia. cbn. rewrite Z.mul_1_r.
    split_and!; [done..|by left].
  - assert (Hk : (from < n)%nat) by lia.
    destruct (exact_le (Fin 0) (entry D from from)) eqn:Hpivot.
    + rewrite Nat2Z.inj_succ, Z.pow_succ_r in Hroom by lia. pose proof (Z.pow_pos_nonneg 2 (Z.of_nat m) ltac:(lia) ltac:(lia)).
      destruct (phase_follows B D from HB ltac:(nia) Hk Hpivot (follows_bounds B d D Hd Hsq) d Hsq Hd) as (d1 & D1 & H1 & H2 & Hf).
      destruct (phase_improves n from D Hk Hsq) as (D1' & H2' & Hsq1 & _). rewrite H2 in H2'. injection H2' as <-.
      destruct (IH (S from) (2 * B) d1 D1) as (d' & D' & E1 & E2 & Hsq' & Hor); [lia|lia|nia|done|done|].
      exists d', D'. unfold d_shortest, shortest in *. replace (n - from)%nat with (S (n - S from)) by lia. cbn [seq Weighted.loop].
      mred. rewrite H1, H2. split_and!; [done..|]. rewrite Nat2Z.inj_succ, Z.pow_succ_r by lia.
      replace (B * (2 * 2 ^ Z.of_nat m)) with (2 * B * 2 ^ Z.of_nat m) by ring. exact Hor.
    + assert (Hneg : negative_loop d).
      { split; [by eapply follows_square|]. exists from.
        destruct (follows_at B d D from from _ Hd (at2_square n D from from Hsq Hk Hk)) as (x & Ex & Hx & _). exists x.
        split_and!; [done..|]. rewrite (stands_lt x _ _ (Fin 0) Hx (whole_zero false)). by rewrite Hpivot. }
      destruct (shortest_keeps from d Hneg) as (d' & E1 & Hn'). destruct (shortest_improves n from D Hsq) as (D' & E2 & Hsq' & Hle & _).
      exists d', D'. split_and!; [done..|]. right. split; [done|]. exists from. split; [done|]. apply not_true_iff_false. intros H.
      apply not_true_iff_false in Hpivot. apply Hpivot. eapply exact_le_trans; [exact H|by apply Hle].
Qed.

(** The test of the diagonal comes out the same. *)
Lemma diagonal_follows B d D l :
  matrix_follows B d D -> square n D -> (forall i, i ∈ l -> (i < n)%nat) -> Stn.zero_diagonal d l = Stn.zero_diagonal D l.
Proof.
  intros Hd Hsq. induction l as [|i l IH]; intros Hl; [done|]. cbn.
  assert (Hi : (i < n)%nat) by (apply Hl; by left). pose proof (at2_square n D i i Hsq Hi Hi) as Ha.
  destruct (follows_at B d D i i _ Hd Ha) as (x & Ex & Hx & _). rewrite Ex, Ha. mred. cbn [w_eq double_weights exact_weights w_zero].
  rewrite (stands_zero x _ Hx). destruct (exact_le _ _ && _); [|done]. apply IH. intros i' Hi'. apply Hl. by right.
Qed.

Lemma diagonal_negative d : negative_loop d -> Stn.zero_diagonal d (seq 0 n) = Ok false.
Proof.
  intros [Hsq (a & x & Ha & Hx & Hneg)].
  assert (Hgen : forall l, (forall i, i ∈ l -> (i < n)%nat) -> a ∈ l -> Stn.zero_diagonal d l = Ok false).
  { induction l as [|i l IH]; intros Hl Hin; [by apply elem_of_nil in Hin|]. cbn.
    destruct (d_at2_square d i i Hsq) as [y Ey]; [by apply Hl; left..|]. rewrite Ey. mred. cbn [w_eq double_weights w_zero].
    destruct (d_eq y (S754_zero false)) eqn:Eq; [|done]. apply elem_of_cons in Hin as [->|Hin].
    - assert (y = x) as -> by congruence. unfold d_lt, SFltb in Hneg. unfold d_eq, SFeqb in Eq. by destruct (SFcompare x _) as [[]|].
    - apply IH; [|done]. intros i' Hi'. apply Hl. by right. }
  apply Hgen; [intros i [_ Hi]%elem_of_seq; lia|apply elem_of_seq; lia].
Qed.
End Runs.

(** ** Networks with whole weights *)

Section Networks.
Context {V : Type} `{VertexEq V}.
Abbreviation Edge := (StnTaskManagementEdge double).
Abbreviation ExactEdge := (StnTaskManagementEdge exact).
Implicit Type g : DirectedGraph V Edge.

(** The graph is square, no vertex has an edge to itself, every edge has a weight, and all weights
    are whole numbers of at most [W] in absolute value. *)
Definition whole_network (W : Z) g : Prop :=
  graph_ok g /\ (forall i, entry_of g i i = None) /\
  forall i j e, entry_of g i j = Some e -> weights_ e <> [] /\ Forall (fun x => exists z, whole x z /\ Z.abs z <= W) (weights_ e).

(** [x] gives every vertex a time, by its index, that respects the weight of every edge. *)
Definition meets g (x : nat -> Z) : Prop :=
  forall i j e w z, entry_of g i j = Some e -> getWeight e = Ok w -> whole w z -> x j - x i <= z.

(** The same network with exact weights *)
Definition value (x : double) : Z :=
  match x with S754_finite s m e => cond_Zopp s (Z.pos m / 2 ^ (- e)) | _ => 0 end.
Definition exact_edge (e : Edge) : ExactEdge := {| weights_ := (fun x => Fin (value x)) <$> weights_ e; all_positive_ := all_positive_ e |}.
Definition exact_graph g : DirectedGraph V ExactEdge :=
  {| vertices_ := vertices_ g; adjacency_matrix_ := (fun row : list (option Edge) => (fun c : option Edge => exact_edge <$> c) <$> row) <$> adjacency_matrix_ g |}.

Lemma whole_value x z : whole x z -> value x = z.
Proof.
  intros [s|s m k v Hk Hm Hv]; [done|]. cbn [value]. rewrite Z.opp_involutive, Hv, Z.div_mul; [done|].
  pose proof (Z.pow_pos_nonneg 2 k). lia.
Qed.

Lemma exact_entry g i j : entry_of (exact_graph g) i j = exact_edge <$> entry_of g i j.
Proof.
  unfold entry_of, exact_graph. cbn [adjacency_matrix_]. rewrite list_lookup_fmap. destruct (adjacency_matrix_ g !! i) as [row|]; [|done].
  cbn. rewrite list_lookup_fmap. by destruct (row !! j) as [[e|]|].
Qed.

(** The largest and the smallest weight are the same. *)
Lemma fold_follows (l : list double) (pick_d : double -> double -> bool) (pick : exact -> exact -> bool) x :
  (forall y z, whole y (value y) -> whole z (value z) -> pick_d y z = pick (Fin (value y)) (Fin (value z))) ->
  Forall (fun y => whole y (value y)) l -> whole x (value x) ->
  exists y, foldl (fun m y => if pick_d m y then y else m) x l = y /\ whole y (value y) /\ (y = x \/ y ∈ l) /\
    foldl (fun m y => if pick m y then y else m) (Fin (value x)) ((fun x => Fin (value x)) <$> l) = Fin (value y).
Proof.
  intros Hpick. revert x. induction l as [|y l IH]; intros x Hl Hx; cbn; [exists x; auto|].
  apply Forall_cons in Hl as [Hy Hl]. rewrite <- (Hpick x y) by done. destruct (pick_d x y).
  - destruct (IH y Hl Hy) as (w & -> & Hw & Hin & ->). exists w. split_and!; [done..|set_solver|done].
  - destruct (IH x Hl Hx) as (w & -> & Hw & Hin & ->). exists w. split_and!; [done..|set_solver|done].
Qed.

Lemma weight_follows W g i j e :
  whole_network W g -> entry_of g i j = Some e ->
  exists x, getWeight e = Ok x /\ whole x (value x) /\ Z.abs (value x) <= W /\ getWeight (exact_edge e) = Ok (Fin (value x)).
Proof.
  intros (_ & _ & He) E1. destruct (He i j e E1) as [Hne Hw]. destruct e as [[|x l] positive]; [done|].
  assert (Hall : Forall (fun y => whole y (value y) /\ Z.abs (value y) <= W) (x :: l)).
  { eapply Forall_impl; [exact Hw|]. intros y (z & Hy & Hz). by rewrite (whole_value y z Hy). }
  assert (Hwhole : Forall (fun y => whole y (value y)) (x :: l)) by (eapply Forall_impl; [exact Hall|]; by intros y [? _]).
  apply Forall_cons in Hwhole as [Hx Hl]. rewrite Forall_forall in Hall.
  assert (Hlt : forall y z, whole y (value y) -> whole z (value z) -> d_lt y z = negb (exact_le (Fin (value z)) (Fin (value y)))).
  { intros y z Hy Hz. apply (stands_lt y z (Fin (value y)) (Fin (value z)) Hy Hz). }
  destruct positive; cbn.
  - destruct (fold_follows l d_lt (fun a b => negb (exact_le b a)) x Hlt Hl Hx) as (y & -> & Hy & Hin & ->).
    exists y. split_and!; [done..|apply Hall; set_solver|done].
  - destruct (fold_follows l (fun m y => d_lt y m) (fun a b => negb (exact_le a b)) x) as (y & -> & Hy & Hin & ->); [by intros; apply Hlt|done..|].
    exists y. split_and!; [done..|apply Hall; set_solver|done].
Qed.

Lemma exact_proper W g : whole_network W g -> proper (exact_graph g).
Proof.
  intros Hg. pose proof Hg as ((Hl & Hr) & Hself & _). split; [|split].
  - split; cbn; [by rewrite length_fmap|]. apply Forall_fmap. eapply Forall_impl; [exact Hr|]. intros row Hrow. cbn. by rewrite length_fmap.
  - intros i. by rewrite exact_entry, Hself.
  - intros i j edge. rewrite exact_entry. destruct (entry_of g i j) as [e|] eqn:E1; [|done]. intros [= <-].
    destruct (weight_follows W g i j e Hg E1) as (x & _ & _ & _ & Hw). by eexists.
Qed.

Lemma meets_exact W g x : whole_network W g -> meets g x <-> satisfies (exact_graph g) x.
Proof.
  intros Hg. split.
  - intros Hx i j edge z. rewrite exact_entry. destruct (entry_of g i j) as [e|] eqn:E1; [|done]. intros [= <-].
    destruct (weight_follows W g i j e Hg E1) as (w & Ew & Hw & _ & ->). intros [= <-]. by apply (Hx i j e w).
  - intros Hx i j e w z E1 Ew Hw. destruct (weight_follows W g i j e Hg E1) as (w' & Ew' & _ & _ & E2).
    rewrite Ew in Ew'. injection Ew' as <-. rewrite (whole_value w z Hw) in E2. apply (Hx i j (exact_edge e) z); [|done].
    by rewrite exact_entry, E1.
Qed.

Definition d_weight_at g (i j : nat) : double :=
  match entry_of g i j with
  | Some e => match getWeight e with Ok w => w | _ => S754_infinity false end
  | None => if Nat.eqb i j then S754_zero false else S754_infinity false
  end.

Lemma weight_at_follows W g i j : 0 <= W -> whole_network W g -> follows W (d_weight_at g i j) (weight_at (exact_graph g) i j).
Proof.
  intros HW Hg. unfold d_weight_at, weight_at. rewrite exact_entry. destruct (entry_of g i j) as [e|] eqn:E1; cbn [fmap option_fmap option_map].
  - destruct (weight_follows W g i j e Hg E1) as (x & -> & Hx & Hb & ->). done.
  - destruct (Nat.eqb i j); [|done]. split; [constructor|done].
Qed.

Lemma weights_follow W g :
  0 <= W -> whole_network W g ->
  exists d D, Weighted.getWeightMatrix g = Ok d /\ Weighted.getWeightMatrix (exact_graph g) = Ok D /\
    square (length (vertices_ g)) D /\ matrix_follows W d D.
Proof.
  intros HW Hg. set (n := length (vertices_ g)).
  exists ((fun i => d_weight_at g i <$> seq 0 n) <$> seq 0 n), ((fun i => weight_at (exact_graph g) i <$> seq 0 n) <$> seq 0 n).
  split_and!.
  - apply mapM_Ok. intros i [_ Hi]%elem_of_seq. apply mapM_Ok. intros j [_ Hj]%elem_of_seq.
    unfold Weighted.weight_of, d_weight_at. rewrite cell_ok by (apply Hg || done). mred.
    destruct (entry_of g i j) as [e|] eqn:E1; [|done]. by destruct (weight_follows W g i j e Hg E1) as (x & -> & _).
  - apply mapM_Ok. intros i [_ Hi]%elem_of_seq. apply mapM_Ok. intros j [_ Hj]%elem_of_seq.
    apply weight_of_ok; [by eapply exact_proper|done..].
  - split; [by rewrite length_fmap, length_seq|]. apply Forall_fmap, Forall_true. intros i. cbn. by rewrite length_fmap, length_seq.
  - apply Forall2_fmap, Forall_Forall2_diag, Forall_true. intros i. apply Forall2_fmap, Forall_Forall2_diag, Forall_true. intros j.
    by apply weight_at_follows.
Qed.

Definition d_net g (d : Doubles) : SimpleTemporalNetwork V Edge double := {| network := g; d_graph_ := d |}.

(** [solve] on doubles and on the exact network come to the same result. *)
Lemma solve_follows W g d0 D0 :
  0 <= W -> W * 2 ^ Z.of_nat (length (vertices_ g)) < 2 ^ 53 -> whole_network W g ->
  exists b d D, Stn.solve (d_net g d0) = (Ok b, d_net g d) /\ Stn.solve (net_of (exact_graph g) D0) = (Ok b, net_of (exact_graph g) D) /\
    square (length (vertices_ g)) D /\ (b = true -> matrix_follows (W * 2 ^ Z.of_nat (length (vertices_ g))) d D).
Proof.
  intros HW Hroom Hg. set (n := length (vertices_ g)) in *.
  destruct (weights_follow W g HW Hg) as (d1 & D1 & E1 & E2 & Hsq & Hf).
  destruct (shortest_follows n n 0 W d1 D1) as (d & D & H1 & H2 & Hsq' & Hor); [done..|].
  assert (F1 : Weighted.floydWarshall g = Ok d).
  { unfold Weighted.floydWarshall. rewrite E1. mred. unfold d_shortest in H1. rewrite Nat.sub_0_r in H1. exact H1. }
  assert (F2 : Weighted.floydWarshall (exact_graph g) = Ok D).
  { unfold Weighted.floydWarshall. rewrite E2. mred. unfold shortest in H2. rewrite Nat.sub_0_r in H2. exact H2. }
  assert (Hd : forall i, i ∈ seq 0 n -> (i < n)%nat) by (intros i [_ Hi]%elem_of_seq; lia).
  destruct (zero_diagonal_ok n D (seq 0 n) Hsq' Hd) as (b & Hb & Hiff). exists b, d, D. split_and!.
  - unfold Stn.solve. rewrite bind_get, bind_lift. cbn [network d_net]. rewrite F1, bind_modify. unfold lift. fold n.
    destruct Hor as [Hfin|[Hneg (i & Hi & Hlt)]].
    + by rewrite (diagonal_follows n _ d D (seq 0 n) Hfin Hsq' Hd), Hb.
    + rewrite (diagonal_negative n d Hneg). destruct b; [|done]. exfalso.
      assert (entry D i i = Fin 0) as E0 by (apply Hiff; [done|apply elem_of_seq; lia]). by rewrite E0 in Hlt.
  - unfold Stn.solve. rewrite bind_get, bind_lift. cbn [network net_of]. rewrite F2, bind_modify. unfold lift.
    change (length (vertices_ (exact_graph g))) with n. by rewrite Hb.
  - done.
  - intros ->. destruct Hor as [Hfin|[_ (i & Hi & Hlt)]]; [done|]. exfalso.
    assert (entry D i i = Fin 0) as E0 by (apply Hiff; [done|apply elem_of_seq; lia]). by rewrite E0 in Hlt.
Qed.

(** The value [getEarliestSolution] has for a vertex *)
Definition negated (y : double) (a : exact) : Prop :=
  match a with Fin z => whole y (- z) | PInf => y = S754_infinity true | NInf => False end.

Lemma earliest_follows n B (d : Doubles) (D : Exacts) (vertices : list V) (l : list (V * double)) :
  matrix_follows B d D -> square n D -> length vertices = n -> (0 < n)%nat ->
  Stn.solution vertices 0 (fun i => x ← Weighted.at2 d i 0; mret (w_neg x)) = Ok l ->
  length l = n /\ forall i v, vertices !! i = Some v -> exists y, l !! i = Some (v, y) /\ negated y (entry D i 0).
Proof.
  intros Hf Hsq Hn Hpos.
  assert (Hgen : forall (vs : list V) (k : nat) (l : list (V * double)), (k + length vs = n)%nat ->
    Stn.solution vs k (fun i => x ← Weighted.at2 d i 0; mret (w_neg x)) = Ok l ->
    length l = length vs /\ forall i v, vs !! i = Some v -> exists y, l !! i = Some (v, y) /\ negated y (entry D (k + i) 0)).
  { induction vs as [|v vs IH]; intros k l' Hk; cbn [Stn.solution].
    - intros [= <-]. split; [done|]. intros i v. by rewrite lookup_nil.
    - cbn [length] in Hk. intros (w & Hw & H2)%outcome_bind_Ok. apply outcome_bind_Ok in H2 as (l2 & H2 & [= <-]).
      apply outcome_bind_Ok in Hw as (x & Hx & [= <-]).
      destruct (follows_at B d D k 0 _ Hf (at2_square n D k 0 Hsq ltac:(lia) Hpos)) as (x' & Hx' & Hs & _). rewrite Hx in Hx'. injection Hx' as <-.
      destruct (IH (S k) l2) as [Hlen Hat]; [lia|done|]. split; [cbn; lia|]. intros [|i] v' Hv'; cbn in Hv' |- *.
      + injection Hv' as ->. eexists. split; [done|]. rewrite Nat.add_0_r. destruct (entry D k 0); cbn in Hs |- *; [by apply whole_opp|by rewrite Hs|done].
      + replace (k + S i)%nat with (S k + i)%nat by lia. by apply Hat. }
  intros Hl. destruct (Hgen vertices 0%nat l Hn Hl) as [H1 H2]. split; [lia|]. exact H2.
Qed.

Lemma solution_total (vs : list V) (k : nat) (f : nat -> outcome double) :
  (forall i, (k <= i < k + length vs)%nat -> exists x, f i = Ok x) -> exists l, Stn.solution vs k f = Ok l.
Proof.
  revert k. induction vs as [|v vs IH]; intros k Hf; [by eexists|]. cbn [Stn.solution]. cbn [length] in Hf.
  destruct (Hf k) as [x ->]; [lia|]. destruct (IH (S k)) as [l' E]; [intros i Hi; apply Hf; lia|]. mred. rewrite E. by eexists.
Qed.

(** C14: [solve] decides whether the time constraints can be met, in the doubles of the code. Take a square graph
    without edges from a vertex to itself, whose edges have weights, at least one each, that are whole
    numbers of at most W in absolute value, with W * 2^n < 2^53 for n vertices, so that no sum is rounded. Then [solve] returns, and returns [true] exactly
    if there are whole times for the vertices whose differences respect the weight of every edge. Without room for the
    sums it can refuse constraints that can be met ([rounding_refuses_solvable]). *)
Theorem solve_decides_doubles W g d0 :
  whole_network W g -> 0 <= W -> W * 2 ^ Z.of_nat (length (vertices_ g)) < 2 ^ 53 ->
  exists b net', Stn.solve (d_net g d0) = (Ok b, net') /\ (b = true <-> exists x, meets g x).
Proof.
  intros Hg HW Hroom. destruct (solve_follows W g d0 [] HW Hroom Hg) as (b & d & D & Hs & HS & _).
  destruct (solve_decides (exact_graph g) [] (exact_proper W g Hg)) as (b' & net' & HS' & Hiff). rewrite HS in HS'.
  injection HS' as <- _. exists b, (d_net g d). split; [done|]. rewrite Hiff. by setoid_rewrite (meets_exact W g _ Hg).
Qed.

(** C29: the earliest solution, in the doubles of the code. For a network as in the theorem on [solve], after [solve] has
    succeeded, [getEarliestSolution] returns a time for every vertex, if there is a vertex. If no time is infinite they are
    whole numbers that meet all constraints, the origin (the first vertex) is at 0, and no other solution in whole numbers with the origin at 0 is
    earlier at any vertex. *)
Theorem earliest_solution_doubles W g d0 net' :
  whole_network W g -> 0 <= W -> W * 2 ^ Z.of_nat (length (vertices_ g)) < 2 ^ 53 -> (0 < length (vertices_ g))%nat ->
  Stn.solve (d_net g d0) = (Ok true, net') ->
  exists l, Stn.getEarliestSolution net' = Ok l /\ l.*1 = vertices_ g /\
  (Forall (fun p => p.2 <> S754_infinity true) l ->
  exists x, Forall2 (fun p q => p.1 = q.1 /\ whole p.2 q.2) l (imap (fun i v => (v, x i)) (vertices_ g)) /\
    meets g x /\ x 0%nat = 0 /\
    forall y, meets g y -> y 0%nat = 0 -> forall i, (i < length (vertices_ g))%nat -> x i <= y i).
Proof.
  intros Hg HW Hroom Hpos Hsolve. destruct (solve_follows W g d0 [] HW Hroom Hg) as (b & d & D & Hs & HS & Hsq & Hf).
  rewrite Hsolve in Hs. injection Hs as <- ->. specialize (Hf eq_refl). set (n := length (vertices_ g)) in *.
  assert (HL : Stn.getEarliestSolution (net_of (exact_graph g) D) = Ok (imap (fun k v => (v, exact_neg (entry D k 0))) (vertices_ g))).
  { apply (solution_ok _ 0 _ (fun k => exact_neg (entry D k 0))). intros k Hk. cbn [Nat.add d_graph_ net_of].
    rewrite (at2_square n) by done. done. }
  destruct (solution_total (vertices_ g) 0 (fun i => x ← Weighted.at2 d i 0; mret (w_neg x))) as [l Hl].
  { intros i Hi. destruct (follows_at _ d D i 0 _ Hf (at2_square n D i 0 Hsq ltac:(lia) Hpos)) as (x & -> & _). by eexists. }
  destruct (earliest_follows n _ d D (vertices_ g) l Hf Hsq eq_refl Hpos Hl) as [Hlen Hat]. exists l. split; [exact Hl|]. split.
  { apply list_eq. intros i. rewrite list_lookup_fmap. destruct (vertices_ g !! i) as [v|] eqn:Ev.
    - by destruct (Hat i v Ev) as (y & -> & _).
    - apply lookup_ge_None in Ev. by rewrite lookup_ge_None_2 by lia. }
  intros Hfin. destruct (earliest_solution (exact_graph g) [] _ _ (exact_proper W g Hg) Hpos HS HL) as (x & Ex & Hx & Hx0 & Hmin).
  { apply Forall_lookup_2. intros i [v a] Hi. rewrite list_lookup_imap in Hi. destruct (vertices_ g !! i) as [v'|] eqn:Ev; [|done].
    injection Hi as <- <-. cbn. destruct (Hat i v' Ev) as (y & Hy & Hya). apply (Forall_lookup_1 _ _ _ _ Hfin) in Hy. cbn in Hy.
    destruct (entry D i 0) as [z| |]; [by eexists|by rewrite Hya in Hy|done]. }
  exists x. split; [|split_and!; [by apply (meets_exact W)|done|]].
  - apply Forall2_same_length_lookup_2; [by rewrite length_imap|]. intros i [v y] [v' z] Hy Hz.
    rewrite list_lookup_imap in Hz. destruct (vertices_ g !! i) as [u|] eqn:Ev; [|done]. injection Hz as <- <-.
    destruct (Hat i u Ev) as (y' & Hy' & Hya). rewrite Hy in Hy'. injection Hy' as -> ->. split; [done|]. cbn.
    assert (Hu : (imap (fun k v => (v, exact_neg (entry D k 0))) (vertices_ g)) !! i = Some (u, Fin (x i))).
    { rewrite Ex. rewrite list_lookup_imap. change (vertices_ (exact_graph g)) with (vertices_ g). by rewrite Ev. }
    rewrite list_lookup_imap, Ev in Hu. injection Hu as Hu. destruct (entry D i 0) as [z| |]; [|done|done]. injection Hu as <-. exact Hya.
  - intros y Hy Hy0. apply Hmin; [by apply (meets_exact W)|done].
Qed.
End Networks.

(** ** Examples *)

(** Constraints on the vertices of an order, with weights from whole numbers *)
Section Build.
Context {W : Type} `{Weights W}.
Abbreviation Net := (SimpleTemporalNetwork nat (StnTaskManagementEdge W) W).

Definition no_vertices : Net := {| network := Graph.empty; d_graph_ := [] |}.
Definition vertices_up_to (k : nat) : M Net unit := for_each (seq 0 k) (fun v => Stn.on_graph (Graph.addVertex v)).
Definition constraints (of_Z : Z -> W) (l : list (nat * nat * option Z * option Z)) : M Net unit :=
  for_each l (fun c => Stn.addBinaryConstraint c.1.1.1 c.1.1.2 (of_Z <$> c.1.2) (of_Z <$> c.2)).
Definition built (of_Z : Z -> W) (k : nat) (l : list (nat * nat * option Z * option Z)) : Net :=
  ((vertices_up_to k;; constraints of_Z l) no_vertices).2.
End Build.

(** The start at 3 or later, 4 to 6 for the order. *)
Definition order_constraints : list (nat * nat * option Z * option Z) := [(0%nat, 1%nat, Some 3, None); (1%nat, 2%nat, Some 4, Some 6)].
Definition order_doubles : DirectedGraph nat (StnTaskManagementEdge double) := network (built d_of_Z 3 order_constraints).

Lemma order_doubles_whole : whole_network 6 order_doubles.
Proof.
  split; [split; [reflexivity|repeat constructor]|]. split.
  - intros i. by do 3 (destruct i as [|i]; [done|]).
  - assert (Hw : forall z, Z.abs z <= 6 -> exists z', whole (d_of_Z z) z' /\ Z.abs z' <= 6).
    { intros z Hz. exists z. split; [apply whole_of_Z; lia|done]. }
    assert (Hn : forall z, Z.abs z <= 6 -> exists z', whole (SFopp (d_of_Z z)) z' /\ Z.abs z' <= 6).
    { intros z Hz. exists (- z). split; [apply whole_opp, whole_of_Z; lia|lia]. }
    intros i j e. destruct i as [|[|[|i]]]; [..|done]; (destruct j as [|[|[|j]]]; [..|done]); try done; intros [= <-];
      (split; [done|]); repeat constructor; first [apply (Hn 3); lia|apply (Hn 4); lia|apply (Hw 6); lia].
Qed.

Lemma solve_decides_doubles_witness :
  exists b net', Stn.solve (d_net order_doubles []) = (Ok b, net') /\ (b = true <-> exists x, meets order_doubles x).
Proof. apply (solve_decides_doubles 6 order_doubles []); [apply order_doubles_whole|lia|reflexivity]. Defined.

Lemma earliest_solution_doubles_witness :
  exists l, Stn.getEarliestSolution (Stn.solve (d_net order_doubles [])).2 = Ok l /\ l.*1 = [0; 1; 2]%nat /\
    exists x, Forall2 (fun p q => p.1 = q.1 /\ whole p.2 q.2) l (imap (fun i v => (v, x i)) [0; 1; 2]%nat) /\
    meets order_doubles x /\ x 0%nat = 0 /\
    forall y, meets order_doubles y -> y 0%nat = 0 -> forall i, (i < 3)%nat -> x i <= y i.
Proof.
  destruct (earliest_solution_doubles 6 order_doubles [] (Stn.solve (d_net order_doubles [])).2) as (l & Hl & Hv & H).
  - apply order_doubles_whole.
  - lia.
  - reflexivity.
  - apply Nat.ltb_lt. reflexivity.
  - vm_compute. reflexivity.
  - exists l. split; [exact Hl|]. split; [exact Hv|]. apply H. vm_compute in Hl. injection Hl as <-. clear.
    repeat constructor; vm_compute; discriminate.
Defined.

(** Times of the size of 10^16 have no room for a 1: the constraints can be met, but not in doubles. *)
Definition far_constraints : list (nat * nat * option Z * option Z) :=
  [(0%nat, 1%nat, None, Some (10 ^ 16)); (1%nat, 2%nat, None, Some 1); (2%nat, 3%nat, None, Some 1);
   (0%nat, 3%nat, Some (10 ^ 16 + 2), None)].

Theorem rounding_refuses_solvable :
  (Stn.solve (built Fin 4 far_constraints)).1 = Ok true /\ (Stn.solve (built d_of_Z 4 far_constraints)).1 = Ok false.
Proof. split; vm_compute; reflexivity. Qed.
