(* ===== verification/MaterialFlow.v ===== *)
(** * Tasks, orders and the abilities they ask for

    Model of [daisi/src/material_flow/model] (locations, orders, time windows, tasks), of
    [cpps/amr/model] (load carriers, static abilities, the fleet) and of
    [cpps/amr/physical/material_flow_functionality_mapping.cpp], which turns orders into what a
    vehicle does. UUIDs are arguments of the constructors that draw them. *)

From Stdlib Require Import SpecFloat.
From S2P Require Import Prelude TreeMapper RouteCalculation.

Abbreviation Position := Vector2D.
Abbreviation Duration := double.
Abbreviation Parameters := (list (string * string)).

(** ** Orders *)

Record Location := { loc_id : string; loc_type : string; loc_position : Position }.

(** Of a transport order step and of a move order step. *)
Record OrderStep := { step_name : string; step_parameters : Parameters; step_location : Location }.
Record ActionOrderStep := { action_name : string; action_parameters : Parameters }.

Inductive OrderStates :=
| kCreated | kQueued | kStarted | kGoToPickUpLocation | kReachedPickUpLocation | kLoad | kLoaded
| kGoToDeliveryLocation | kReachedDeliveryLocation | kUnload | kUnloaded | kFinished_ | kError | kInvalid.

Record TransportOrder := {
  to_state : OrderStates;
  to_uuid : string;
  pickup_transport_order_steps : list OrderStep;
  delivery_transport_order_step : OrderStep;
}.
Record MoveOrder := { mo_uuid : string; move_order_step : OrderStep }.
Record ActionOrder := { ao_uuid : string; action_order_step : ActionOrderStep }.

(** [std::variant<TransportOrder, MoveOrder, ActionOrder>] *)
Inductive Order :=
| transport_order (o : TransportOrder)
| move_order (o : MoveOrder)
| action_order (o : ActionOrder).

(** [operator==] of the variant: the same alternative and the same uuid *)
Definition order_eqb (o1 o2 : Order) : bool :=
  match o1, o2 with
  | transport_order a, transport_order b => bool_decide (to_uuid a = to_uuid b)
  | move_order a, move_order b => bool_decide (mo_uuid a = mo_uuid b)
  | action_order a, action_order b => bool_decide (ao_uuid a = ao_uuid b)
  | _, _ => false
  end.

(** ** [TimeWindow] *)

Record TimeWindow := {
  earliest_start_ : Duration;
  latest_finish_ : Duration;
  spawn_time_ : option Duration;
}.

Module Window.
Definition getAbsoluteEarliestStart (w : TimeWindow) : outcome Duration :=
  match spawn_time_ w with
  | Some spawn => Ok (d_add (earliest_start_ w) spawn)
  | None => Throw (runtime_error "Spawn time not set")
  end.

Definition getAbsoluteLatestFinish (w : TimeWindow) : outcome Duration :=
  match spawn_time_ w with
  | Some spawn => Ok (d_add spawn (latest_finish_ w))
  | None => Throw (runtime_error "Spawn time not set")
  end.

Definition hasSpawnTime (w : TimeWindow) : bool := match spawn_time_ w with Some _ => true | None => false end.

Definition setSpawnTime (spawn_time : Duration) (w : TimeWindow) : TimeWindow :=
  {| earliest_start_ := earliest_start_ w; latest_finish_ := latest_finish_ w; spawn_time_ := Some spawn_time |}.
End Window.

(** ** Load carriers and abilities *)

Inductive LoadCarrier := kEuroPalett | kEuroBox | kPackage | kNoLoadCarrierType.

#[export] Instance LoadCarrier_eq_dec : EqDecision LoadCarrier.
Proof. solve_decision. Defined.

Module Carrier.
Definition eqb (l1 l2 : LoadCarrier) : bool := bool_decide (l1 = l2).
Definition lt (l1 l2 : LoadCarrier) : bool := false.
Definition le (l1 l2 : LoadCarrier) : bool := eqb l1 l2 || lt l1 l2.
Definition gt (l1 l2 : LoadCarrier) : bool := false.
Definition ge (l1 l2 : LoadCarrier) : bool := eqb l1 l2 || gt l1 l2.
Definition isValid (l : LoadCarrier) : bool := negb (eqb l kNoLoadCarrierType).

Definition string_to_type_ : list (string * LoadCarrier) :=
  [("eurobox", kEuroBox); ("pallet", kEuroPalett); ("package", kPackage)]%string.

Definition getTypeAsString (l : LoadCarrier) : string :=
  match List.find (fun e => eqb e.2 l) string_to_type_ with Some e => e.1 | None => "invalid"%string end.

Definition getTypeFromString (type_name : string) : outcome LoadCarrier :=
  match List.find (fun e => bool_decide (e.1 = type_name)) string_to_type_ with
  | Some e => Ok e.2
  | None => Throw (invalid_argument "Invalid string for LoadCarrier Type")
  end.
End Carrier.

Record AmrStaticAbility := {
  load_carrier_ : LoadCarrier;
  max_payload_weight_kg_ : float;
}.

Module Ability.
Definition isValid (a : AmrStaticAbility) : bool :=
  Carrier.isValid (load_carrier_ a) && SFltb (S754_zero false) (max_payload_weight_kg_ a).
Definition eqb (a1 a2 : AmrStaticAbility) : bool :=
  Carrier.eqb (load_carrier_ a1) (load_carrier_ a2) && SFeqb (max_payload_weight_kg_ a1) (max_payload_weight_kg_ a2).
Definition neqb (a1 a2 : AmrStaticAbility) : bool :=
  negb (Carrier.eqb (load_carrier_ a1) (load_carrier_ a2)) ||
  negb (SFeqb (max_payload_weight_kg_ a1) (max_payload_weight_kg_ a2)).
Definition lt (a1 a2 : AmrStaticAbility) : bool :=
  Carrier.lt (load_carrier_ a1) (load_carrier_ a2) && SFltb (max_payload_weight_kg_ a1) (max_payload_weight_kg_ a2).
Definition le (a1 a2 : AmrStaticAbility) : bool :=
  Carrier.le (load_carrier_ a1) (load_carrier_ a2) && SFleb (max_payload_weight_kg_ a1) (max_payload_weight_kg_ a2).
Definition gt (a1 a2 : AmrStaticAbility) : bool :=
  Carrier.gt (load_carrier_ a1) (load_carrier_ a2) && SFltb (max_payload_weight_kg_ a2) (max_payload_weight_kg_ a1).
Definition ge (a1 a2 : AmrStaticAbility) : bool :=
  Carrier.ge (load_carrier_ a1) (load_carrier_ a2) && SFleb (max_payload_weight_kg_ a2) (max_payload_weight_kg_ a1).
End Ability.

(** ** [Task] *)

Record Task := {
  uuid_ : string;
  name_ : string;
  connection_string_ : string;
  orders_ : list Order;
  follow_up_task_uuids_ : list string;
  preceding_task_uuids_ : list string;
  time_window_ : option TimeWindow;
  ability_requirement_ : AmrStaticAbility;
}.

Module TaskOf.
Definition construct (uuid name connection_string : string) (orders : list Order)
    (follow_up_task_uuids : list string) : outcome Task :=
  if bool_decide (length orders = 0%nat) then Throw (invalid_argument "Orders cannot be empty.")
  else Ok {| uuid_ := uuid; name_ := name; connection_string_ := connection_string; orders_ := orders;
             follow_up_task_uuids_ := follow_up_task_uuids; preceding_task_uuids_ := []; time_window_ := None;
             ability_requirement_ := {| load_carrier_ := kNoLoadCarrierType;
                                        max_payload_weight_kg_ := S754_zero false |} |}.

(** [operator==] *)
Definition eqb (t1 t2 : Task) : bool := bool_decide (uuid_ t1 = uuid_ t2).

Definition hasTimeWindow (t : Task) : bool := match time_window_ t with Some _ => true | None => false end.

(** [time_window_.value()] *)
Definition getTimeWindow (t : Task) : outcome TimeWindow :=
  match time_window_ t with Some w => Ok w | None => Throw bad_optional_access end.

Definition with_window (w : option TimeWindow) (t : Task) : Task :=
  {| uuid_ := uuid_ t; name_ := name_ t; connection_string_ := connection_string_ t; orders_ := orders_ t;
     follow_up_task_uuids_ := follow_up_task_uuids_ t; preceding_task_uuids_ := preceding_task_uuids_ t;
     time_window_ := w; ability_requirement_ := ability_requirement_ t |}.

Definition setTimeWindow (w : TimeWindow) (t : Task) : Task := with_window (Some w) t.

Definition setPrecedingTasks (preceding_tasks : list string) (t : Task) : Task :=
  {| uuid_ := uuid_ t; name_ := name_ t; connection_string_ := connection_string_ t; orders_ := orders_ t;
     follow_up_task_uuids_ := follow_up_task_uuids_ t; preceding_task_uuids_ := preceding_tasks;
     time_window_ := time_window_ t; ability_requirement_ := ability_requirement_ t |}.

Definition setAbilityRequirement (ability : AmrStaticAbility) (t : Task) : Task :=
  {| uuid_ := uuid_ t; name_ := name_ t; connection_string_ := connection_string_ t; orders_ := orders_ t;
     follow_up_task_uuids_ := follow_up_task_uuids_ t; preceding_task_uuids_ := preceding_task_uuids_ t;
     time_window_ := time_window_ t; ability_requirement_ := ability |}.

Definition setSpawnTime (spawn_time : Duration) : M Task unit :=
  t ← get;
  (if hasTimeWindow t then
     modify (fun t => with_window (Window.setSpawnTime spawn_time <$> time_window_ t) t)
   else mret tt);;
  throw (runtime_error "TimeWindow not set").

(** [orders_.at(order_index)] *)
Definition setOrderState (order_index : Z) (state : OrderStates) : M Task unit :=
  t ← get;
  match orders_ t !! Z.to_nat order_index with
  | None => throw (out_of_range "vector::_M_range_check")
  | Some (transport_order o) =>
      let o' := {| to_state := state; to_uuid := to_uuid o;
                   pickup_transport_order_steps := pickup_transport_order_steps o;
                   delivery_transport_order_step := delivery_transport_order_step o |} in
      modify (fun t =>
        {| uuid_ := uuid_ t; name_ := name_ t; connection_string_ := connection_string_ t;
           orders_ := <[Z.to_nat order_index := transport_order o']> (orders_ t);
           follow_up_task_uuids_ := follow_up_task_uuids_ t; preceding_task_uuids_ := preceding_task_uuids_ t;
           time_window_ := time_window_ t; ability_requirement_ := ability_requirement_ t |})
  | Some _ => throw (runtime_error "not supported yet")
  end.
End TaskOf.

(** ** [AmrFleet]

    The abilities of the vehicles, with their kinematics, which are not looked into. *)
Module Fleet.
Section Fleet.
Context {AmrKinematics : Type}.
Variable infos_ : list (AmrStaticAbility * AmrKinematics).

Definition getAllExistingAbilities : list AmrStaticAbility := infos_.*1.

Definition getFittingExistingAbilities (ability_requirement : AmrStaticAbility) : list AmrStaticAbility :=
  List.filter (fun existing_ability => Ability.le ability_requirement existing_ability) infos_.*1.

Definition is_min (S : list AmrStaticAbility) (m : AmrStaticAbility) : bool :=
  forallb (fun s => negb (Ability.le s m) || Ability.le m s) S.

Definition getClosestExistingAbility (ability_requirement : AmrStaticAbility) : outcome AmrStaticAbility :=
  let S := getFittingExistingAbilities ability_requirement in
  match S with
  | [m] => Ok m
  | _ =>
      match List.find (is_min S) S with
      | Some m => Ok m
      | None => Throw (logic_error "Minimal ability element not found. Algorithm wrong. ")
      end
  end.

Definition getKinematicsOfAbility (ability : AmrStaticAbility) : outcome AmrKinematics :=
  match List.find (fun info => Ability.eqb ability info.1) infos_ with
  | Some info => Ok info.2
  | None => Throw (runtime_error "Kinematics for Ability not found. ")
  end.
End Fleet.
End Fleet.

(** ** What a vehicle does for an order *)

(** [FunctionalityVariant]; the first alternative is [std::monostate] *)
Inductive Functionality :=
| NoFunctionality
| Load (position : Position)
| MoveTo (destination : Position)
| Navigate (waypoints : list Position)
| Unload (position : Position).

Module Mapping.
(** The functionalities so far and the last position. *)
Abbreviation State := (list Functionality * option Position)%type.

Definition emplace_back (f : Functionality) : M State unit := modify (fun s => (s.1 ++ [f], s.2)).
Definition set_last_position (p : Position) : M State unit := modify (fun s => (s.1, Some p)).

Definition handleMoveOrder (o : MoveOrder) : M State unit :=
  s ← get;
  throw_if (negb (bool_decide (is_Some s.2))) (logic_error "MoveOrder can only happen after other operations");;
  let move_to_position := loc_position (step_location (move_order_step o)) in
  emplace_back (MoveTo move_to_position);;
  set_last_position move_to_position.

Definition has_parameter (key : string) (params : Parameters) : bool :=
  existsb (fun e => bool_decide (e.1 = key)) params.

Definition handleActionOrder (o : ActionOrder) : M State unit :=
  s ← get;
  match s.2 with
  | None => throw (logic_error "ActionOrder can only happen after other operations")
  | Some last_position =>
      let params := action_parameters (action_order_step o) in
      if has_parameter "load" params then emplace_back (Load last_position)
      else if has_parameter "unload" params then emplace_back (Unload last_position)
      else throw (invalid_argument "ActionOrder invalid")
  end.

Definition position_of_step (step : OrderStep) : Position := loc_position (step_location step).

Definition handleTransportOrder (o : TransportOrder) : M State unit :=
  for_each (pickup_transport_order_steps o) (fun pickup_step =>
    emplace_back (MoveTo (position_of_step pickup_step));;
    emplace_back (Load (position_of_step pickup_step)));;
  let delivery := position_of_step (delivery_transport_order_step o) in
  emplace_back (MoveTo delivery);;
  emplace_back (Unload delivery);;
  set_last_position delivery.

Definition handle_order (order : Order) : M State unit :=
  match order with
  | move_order o => handleMoveOrder o
  | action_order o => handleActionOrder o
  | transport_order o => handleTransportOrder o
  end.

Definition materialFlowToFunctionalities (orders : list Order) (last_position : option Position)
    : outcome (list Functionality) :=
  match for_each orders handle_order ([], last_position) with
  | (Ok _, s) => Ok s.1
  | (Throw e, _) => Throw e
  | (Undefined, _) => Undefined
  end.
End Mapping.

(** ** Properties *)

Definition weighted (a : AmrStaticAbility) : Prop := is_nan (max_payload_weight_kg_ a) = false.

Lemma ability_le_refl a : weighted a -> Ability.le a a = true.
Proof.
  unfold weighted, Ability.le, Carrier.le, Carrier.eqb. intros Hn. rewrite bool_decide_true by done. cbn.
  fold d_le. rewrite (d_le_lt _ _ Hn Hn). apply negb_true_iff, d_lt_irrefl.
Qed.

Lemma ability_le_trans a b c : Ability.le a b = true -> Ability.le b c = true -> Ability.le a c = true.
Proof.
  unfold Ability.le, Carrier.le, Carrier.lt, Carrier.eqb. rewrite !orb_false_r.
  intros [H1%bool_decide_eq_true_1 W1]%andb_prop [H2%bool_decide_eq_true_1 W2]%andb_prop.
  apply andb_true_intro. split; [apply bool_decide_eq_true_2; congruence|].
  by eapply d_le_trans.
Qed.

(** A finite set of abilities has a minimal one. *)
Lemma minimal_exists (S : list AmrStaticAbility) :
  S <> [] -> Forall weighted S -> exists m, m ∈ S /\ Fleet.is_min S m = true.
Proof.
  unfold Fleet.is_min. setoid_rewrite forallb_forall. setoid_rewrite <- list_elem_of_In.
  assert (Himp : forall a b, (negb a || b = true) <-> (a = true -> b = true)) by (intros [] []; naive_solver).
  setoid_rewrite Himp. induction S as [|h S IH]; intros Hne Hw; [done|]. apply Forall_cons in Hw as [Hh Hw].
  destruct S as [|h' S]; [exists h; split; [by left|]; intros s [-> |Hs%elem_of_nil]%elem_of_cons; done|].
  destruct IH as (m & Hm & Hmin); [done|done|]. set (T := h' :: S) in *.
  destruct (Ability.le h m) eqn:E1; [destruct (Ability.le m h) eqn:E2|].
  - exists m. split; [by right|]. intros s [-> |Hs]%elem_of_cons; [done|by apply Hmin].
  - exists h. split; [by left|]. intros s [-> |Hs]%elem_of_cons Hle; [done|].
    eapply ability_le_trans; [exact E1|]. apply Hmin; [done|]. by eapply ability_le_trans.
  - exists m. split; [by right|]. intros s [-> |Hs]%elem_of_cons; [congruence|by apply Hmin].
Qed.

(** The closest ability exists whenever a vehicle fits a requirement (with weights that are numbers): it fits, and
    no fitting ability is strictly below it. *)
Theorem closest_ability_minimal {K} (infos : list (AmrStaticAbility * K)) requirement :
  Forall weighted infos.*1 -> Fleet.getFittingExistingAbilities infos requirement <> [] ->
  exists m, Fleet.getClosestExistingAbility infos requirement = Ok m /\ m ∈ infos.*1 /\
    Ability.le requirement m = true /\
    forall s, s ∈ infos.*1 -> Ability.le requirement s = true -> Ability.le s m = true -> Ability.le m s = true.
Proof.
  intros Hw Hne. set (S := Fleet.getFittingExistingAbilities infos requirement) in *.
  assert (HS : forall a, a ∈ S <-> a ∈ infos.*1 /\ Ability.le requirement a = true).
  { intros a. unfold S, Fleet.getFittingExistingAbilities. by rewrite !list_elem_of_In, filter_In. }
  assert (HwS : Forall weighted S).
  { apply Forall_forall. intros a [Ha _]%HS. by eapply Forall_forall in Hw. }
  destruct (minimal_exists S Hne HwS) as (m0 & Hm0 & Hmin0).
  assert (exists m, Fleet.getClosestExistingAbility infos requirement = Ok m /\ m ∈ S /\ Fleet.is_min S m = true)
    as (m & Hm & HmS & Hmin).
  { unfold Fleet.getClosestExistingAbility. fold S. destruct S as [|a [|b T]] eqn:ES; [done| |].
    - exists a. split; [done|]. split; [by left|]. apply list_elem_of_singleton in Hm0. by subst.
    - destruct (List.find (Fleet.is_min (a :: b :: T)) (a :: b :: T)) as [m|] eqn:Ef.
      + exists m. split; [done|]. apply find_some in Ef as [Hin ?]. split; [by apply list_elem_of_In|done].
      + exfalso. rewrite (find_none _ _ Ef m0) in Hmin0; [done|]. by apply list_elem_of_In. }
  exists m. split; [done|]. apply HS in HmS as [Hin Hreq]. split; [done|]. split; [done|].
  intros s Hs Hrs Hsm. unfold Fleet.is_min in Hmin. rewrite forallb_forall in Hmin.
  assert (s ∈ S) as Hss by (by apply HS). apply list_elem_of_In, Hmin in Hss. by rewrite Hsm in Hss.
Qed.

Lemma closest_ability_minimal_witness :
  let kg z := {| load_carrier_ := kEuroBox; max_payload_weight_kg_ := d_of_Z z |} in
  let infos := [(kg 30, tt); (kg 10, tt); (kg 20, tt)] in
  Fleet.getClosestExistingAbility infos (kg 15) = Ok (kg 20) /\
  exists m, Fleet.getClosestExistingAbility infos (kg 15) = Ok m /\ m ∈ infos.*1 /\ Ability.le (kg 15) m = true /\
    forall s, s ∈ infos.*1 -> Ability.le (kg 15) s = true -> Ability.le s m = true -> Ability.le m s = true.
Proof.
  intros kg infos. split; [vm_compute; reflexivity|].
  apply (closest_ability_minimal infos (kg 15)).
  - repeat constructor; reflexivity.
  - vm_compute. discriminate.
Defined.

(** The comparison that looks strict never holds. *)
Lemma ability_lt_never a b : Ability.lt a b = false.
Proof. done. Qed.

(** [Task::setSpawnTime] always throws, also after it has set the spawn time of an existing window. *)
Theorem setSpawnTime_always_throws spawn t :
  (TaskOf.setSpawnTime spawn t).1 = Throw (runtime_error "TimeWindow not set").
Proof. unfold TaskOf.setSpawnTime. mred. destruct (TaskOf.hasTimeWindow t); done. Qed.

(** What the orders of a task come to: pick-ups and the delivery for a transport order, one functionality for the
    others. *)
Definition functionalities_of (last : option Position) (o : Order) : list Functionality :=
  match o with
  | transport_order o =>
      (step ← pickup_transport_order_steps o;
       [MoveTo (Mapping.position_of_step step); Load (Mapping.position_of_step step)]) ++
      [MoveTo (Mapping.position_of_step (delivery_transport_order_step o));
       Unload (Mapping.position_of_step (delivery_transport_order_step o))]
  | move_order o => [MoveTo (loc_position (step_location (move_order_step o)))]
  | action_order o =>
      match last with
      | Some p => [if Mapping.has_parameter "load" (action_parameters (action_order_step o)) then Load p else Unload p]
      | None => []
      end
  end.

Definition position_after (last : option Position) (o : Order) : option Position :=
  match o with
  | transport_order o => Some (Mapping.position_of_step (delivery_transport_order_step o))
  | move_order o => Some (loc_position (step_location (move_order_step o)))
  | action_order _ => last
  end.

(** Orders that can be carried out from a position: moves and actions need one, actions load or unload. *)
Definition executable (last : option Position) (o : Order) : bool :=
  match o with
  | transport_order _ => true
  | move_order _ => bool_decide (is_Some last)
  | action_order o =>
      bool_decide (is_Some last) &&
      (Mapping.has_parameter "load" (action_parameters (action_order_step o)) ||
       Mapping.has_parameter "unload" (action_parameters (action_order_step o)))
  end.

Fixpoint functionalities (last : option Position) (orders : list Order) : list Functionality :=
  match orders with
  | [] => []
  | o :: rest => functionalities_of last o ++ functionalities (position_after last o) rest
  end.
Fixpoint all_executable (last : option Position) (orders : list Order) : bool :=
  match orders with
  | [] => true
  | o :: rest => executable last o && all_executable (position_after last o) rest
  end.

Lemma pickups_ok steps fs last :
  for_each steps (fun pickup_step =>
    Mapping.emplace_back (MoveTo (Mapping.position_of_step pickup_step));;
    Mapping.emplace_back (Load (Mapping.position_of_step pickup_step))) (fs, last) =
  (Ok tt, (fs ++ (step ← steps; [MoveTo (Mapping.position_of_step step); Load (Mapping.position_of_step step)]), last)).
Proof.
  revert fs. induction steps as [|step steps IH]; intros fs; [cbn; by rewrite app_nil_r|].
  cbn [for_each]. unfold Mapping.emplace_back in *. mred. cbn [fst snd]. rewrite IH. cbn. by rewrite <- !app_assoc.
Qed.

Lemma handle_order_ok o fs last :
  if executable last o
  then Mapping.handle_order o (fs, last) = (Ok tt, (fs ++ functionalities_of last o, position_after last o))
  else exists e s, Mapping.handle_order o (fs, last) = (Throw e, s).
Proof.
  destruct o as [o|o|o]; cbn [executable Mapping.handle_order functionalities_of position_after].
  - unfold Mapping.handleTransportOrder. mred. rewrite pickups_ok. cbn. by rewrite <- !app_assoc.
  - unfold Mapping.handleMoveOrder. mred. cbn. case_bool_decide as E; cbn; [done|by do 2 eexists].
  - unfold Mapping.handleActionOrder. mred. cbn. destruct last as [p|]; cbn; [|by do 2 eexists].
    destruct (Mapping.has_parameter "load" _); cbn; [done|]. destruct (Mapping.has_parameter "unload" _); cbn; [done|].
    by do 2 eexists.
Qed.

(** The functionalities of a list of orders: exactly if every order can be carried out from the position the ones
    before lead to, the result is theirs in order; otherwise an exception is thrown. *)
Theorem materialFlowToFunctionalities_spec orders last :
  if all_executable last orders
  then Mapping.materialFlowToFunctionalities orders last = Ok (functionalities last orders)
  else exists e, Mapping.materialFlowToFunctionalities orders last = Throw e.
Proof.
  unfold Mapping.materialFlowToFunctionalities.
  assert (Hgen : forall orders fs last,
    if all_executable last orders
    then exists p, for_each orders Mapping.handle_order (fs, last) = (Ok tt, (fs ++ functionalities last orders, p))
    else exists e s, for_each orders Mapping.handle_order (fs, last) = (Throw e, s)).
  { clear. induction orders as [|o orders IH]; intros fs last; cbn [all_executable functionalities for_each].
    - exists last. by rewrite app_nil_r.
    - pose proof (handle_order_ok o fs last) as Ho. destruct (executable last o); cbn [andb].
      + specialize (IH (fs ++ functionalities_of last o) (position_after last o)).
        destruct (all_executable (position_after last o) orders).
        * destruct IH as [p IH]. exists p. mred. rewrite Ho, IH. by rewrite app_assoc.
        * destruct IH as (e & s & IH). exists e, s. mred. by rewrite Ho, IH.
      + destruct Ho as (e & s & Ho). exists e, s. mred. by rewrite Ho. }
  specialize (Hgen orders [] last).
  destruct (all_executable last orders).
  - destruct Hgen as [p Hgen]. by rewrite Hgen.
  - destruct Hgen as (e & s & Hgen). exists e. by rewrite Hgen.
Qed.
