(* ===== verification/Precedence.v ===== *)
(** * Which tasks can be auctioned

    Model of [cpps/logical/algorithms/assignment/layered_precedence_graph.cpp] and its components
    header: the tasks of a material flow as the vertices of a directed graph, each on the free,
    the second, the hidden or the scheduled layer. UUIDs are arguments of the constructor that
    draws them. *)

From S2P Require Import Prelude TreeMapper RouteCalculation Graph MaterialFlow.

Inductive PrecedenceGraphLayer := kFree | kSecond | kHidden | kScheduled | kNone.

#[export] Instance layer_eq_dec : EqDecision PrecedenceGraphLayer.
Proof. solve_decision. Defined.

Record LPCVertex := {
  task : Task;
  layer : PrecedenceGraphLayer;
  latest_finish : option Duration;
  earliest_valid_start : option Duration;
  scheduled : bool;
}.

Module Vertex.
Definition make (t : Task) : LPCVertex :=
  {| task := t; layer := kNone; latest_finish := None; earliest_valid_start := None; scheduled := false |}.
Definition set_layer (l : PrecedenceGraphLayer) (v : LPCVertex) : LPCVertex :=
  {| task := task v; layer := l; latest_finish := latest_finish v; earliest_valid_start := earliest_valid_start v;
     scheduled := scheduled v |}.
Definition set_latest_finish (time : Duration) (v : LPCVertex) : LPCVertex :=
  {| task := task v; layer := layer v; latest_finish := Some time; earliest_valid_start := earliest_valid_start v;
     scheduled := scheduled v |}.
Definition set_earliest_valid_start (time : Duration) (v : LPCVertex) : LPCVertex :=
  {| task := task v; layer := layer v; latest_finish := latest_finish v; earliest_valid_start := Some time;
     scheduled := scheduled v |}.
Definition set_scheduled (v : LPCVertex) : LPCVertex :=
  {| task := task v; layer := layer v; latest_finish := latest_finish v;
     earliest_valid_start := earliest_valid_start v; scheduled := true |}.
End Vertex.

(** [operator==] of the vertices *)
#[export] Instance lpc_eq : VertexEq LPCVertex := fun v1 v2 => TaskOf.eqb (task v1) (task v2).

Abbreviation LayeredPrecedenceGraph := (DirectedGraph LPCVertex unit).

Definition on_layer (l : PrecedenceGraphLayer) (v : LPCVertex) : bool := bool_decide (layer v = l).

Module Layers.
(** A change of [vertices_[i]] in place. *)
Definition update (i : nat) (f : LPCVertex -> LPCVertex) : M LayeredPrecedenceGraph unit :=
  modify (fun g => Graph.set_vertices (alter f i (vertices_ g)) g).

(** [for (auto &vertex : vertices_)]: the body sees the vertex as it is by then. *)
Definition for_vertices (body : nat -> LPCVertex -> M LayeredPrecedenceGraph unit) : M LayeredPrecedenceGraph unit :=
  g ← get;
  for_each (seq 0 (length (vertices_ g))) (fun i =>
    g ← get;
    vertex ← lift (vec_at (vertices_ g) i);
    body i vertex).

(** The same loop, with what its body pushes to a vector. *)
Fixpoint collect {S B} (indices : list nat) (body : nat -> M S (list B)) : M S (list B) :=
  match indices with
  | [] => mret []
  | i :: rest => l ← body i; l' ← collect rest body; mret (l ++ l')
  end.
Definition collect_vertices (body : nat -> LPCVertex -> M LayeredPrecedenceGraph (list LPCVertex))
    : M LayeredPrecedenceGraph (list LPCVertex) :=
  g ← get;
  collect (seq 0 (length (vertices_ g))) (fun i =>
    g ← get;
    vertex ← lift (vec_at (vertices_ g) i);
    body i vertex).

Definition init_free (i : nat) (vertex : LPCVertex) : M LayeredPrecedenceGraph (list LPCVertex) :=
  g ← get;
  incoming_edges ← lift (Graph.getIncomingEdges vertex g);
  if bool_decide (length incoming_edges = 0%nat)
  then update i (Vertex.set_layer kFree);; mret [Vertex.set_layer kFree vertex]
  else mret [].

Definition init_second (free_vertex : LPCVertex) (i : nat) (vertex : LPCVertex) : M LayeredPrecedenceGraph unit :=
  if negb (veqb free_vertex vertex) then
    g ← get;
    edge ← lift (Graph.hasEdge free_vertex vertex g);
    if (edge : bool) then
      throw_if (on_layer kFree vertex) (runtime_error "Conceptionally, the algorithm should not allow this state.");;
      (if negb (on_layer kSecond vertex) then update i (Vertex.set_layer kSecond) else mret tt)
    else mret tt
  else mret tt.

Definition init_hidden (i : nat) (vertex : LPCVertex) : M LayeredPrecedenceGraph unit :=
  if negb (on_layer kFree vertex) && negb (on_layer kSecond vertex)
  then update i (Vertex.set_layer kHidden) else mret tt.

Definition initLayers : M LayeredPrecedenceGraph unit :=
  temp_free_layer_vertices ← collect_vertices init_free;
  for_each temp_free_layer_vertices (fun free_vertex => for_vertices (init_second free_vertex));;
  for_vertices init_hidden.

(** ** [next()] *)

Definition hidden_to_second (t_dash : LPCVertex) (i : nat) (t_dash_dash : LPCVertex) : M LayeredPrecedenceGraph unit :=
  if on_layer kHidden t_dash_dash then
    g ← get;
    edge ← lift (Graph.hasEdge t_dash t_dash_dash g);
    if (edge : bool) then
      parents ← lift (Graph.getIncomingEdges t_dash_dash g);
      if forallb (fun parent => on_layer kScheduled parent.1 || on_layer kFree parent.1) parents
      then update i (Vertex.set_layer kSecond)
      else mret tt
    else mret tt
  else mret tt.

Definition updateLayersHiddenToSecond (t_dash : LPCVertex) : M LayeredPrecedenceGraph unit :=
  for_vertices (hidden_to_second t_dash).

(** [latest_finish.value()] *)
Definition finish_of (parent : LPCVertex * unit) : outcome Duration :=
  match latest_finish parent.1 with Some t => Ok t | None => Throw bad_optional_access end.

Definition second_to_free (t : LPCVertex) (i : nat) (t_dash : LPCVertex) : M LayeredPrecedenceGraph unit :=
  if on_layer kSecond t_dash then
    g ← get;
    edge ← lift (Graph.hasEdge t t_dash g);
    if (edge : bool) then
      parents ← lift (Graph.getIncomingEdges t_dash g);
      if forallb (fun parent => on_layer kScheduled parent.1) parents then
        update i (Vertex.set_layer kFree);;
        parent_finish_times ← lift (mapM (M := outcome) finish_of parents);
        start ← lift (StnEdge.max_element parent_finish_times);
        update i (Vertex.set_earliest_valid_start start);;
        updateLayersHiddenToSecond t_dash
      else mret tt
    else mret tt
  else mret tt.

Definition updateLayersSecondToFree (t : LPCVertex) : M LayeredPrecedenceGraph unit :=
  for_vertices (second_to_free t).

Definition schedule_free (i : nat) (vertex : LPCVertex) : M LayeredPrecedenceGraph (list LPCVertex) :=
  if on_layer kFree vertex
  then update i (Vertex.set_layer kScheduled);; mret [Vertex.set_layer kScheduled vertex]
  else mret [].

Definition next : M LayeredPrecedenceGraph unit :=
  temp_previously_free_layer ← collect_vertices schedule_free;
  for_each temp_previously_free_layer updateLayersSecondToFree.

(** ** Queries and updates of single tasks *)

Definition getLayerVertices (l : PrecedenceGraphLayer) (g : LayeredPrecedenceGraph) : list LPCVertex :=
  List.filter (on_layer l) (vertices_ g).

Definition getAuctionableTasks (g : LayeredPrecedenceGraph) : list Task :=
  task <$> List.filter (fun vertex => negb (scheduled vertex)) (getLayerVertices kFree g).

Definition getTasks (g : LayeredPrecedenceGraph) : list Task := task <$> vertices_ g.

Definition has_uuid (task_uuid : string) (vertex : LPCVertex) : bool := bool_decide (uuid_ (task vertex) = task_uuid).

(** [std::find_if] by the uuid of the task, and what follows in the setters. *)
Definition on_task (task_uuid : string) (missing : exn) (f : nat -> LPCVertex -> M LayeredPrecedenceGraph unit)
    : M LayeredPrecedenceGraph unit :=
  g ← get;
  match find_index (has_uuid task_uuid) (vertices_ g) with
  | None => throw missing
  | Some i => vertex ← lift (vec_at (vertices_ g) i); f i vertex
  end.

Definition setEarliestValidStartTime (task_uuid : string) (time : Duration) : M LayeredPrecedenceGraph unit :=
  on_task task_uuid (runtime_error "Vertex for task uuid not found in LayeredPrecedenceGraph.") (fun i vertex =>
    throw_if (negb (on_layer kFree vertex))
      (runtime_error "Earliest start time of Task can only be set if the task is on the free layer.");;
    update i (Vertex.set_earliest_valid_start time)).

Definition setLatestFinishTime (task_uuid : string) (time : Duration) : M LayeredPrecedenceGraph unit :=
  on_task task_uuid (runtime_error "Vertex for task uuid not found in LayeredPrecedenceGraph.") (fun i vertex =>
    throw_if (negb (on_layer kFree vertex))
      (runtime_error "Latest start time of Task can only be set if the task is on the free layer after its scheduling.");;
    update i (Vertex.set_latest_finish time)).

Definition setTaskScheduled (task_uuid : string) : M LayeredPrecedenceGraph unit :=
  on_task task_uuid (invalid_argument "Vertex with task uuid does not exist.") (fun i vertex =>
    throw_if (negb (on_layer kFree vertex))
      (runtime_error "Only vertices from free layer can be set as scheduled. ");;
    update i Vertex.set_scheduled).

Definition areAllTasksScheduled (g : LayeredPrecedenceGraph) : bool := forallb (on_layer kScheduled) (vertices_ g).

Definition areAllFreeTasksScheduled (g : LayeredPrecedenceGraph) : bool :=
  forallb (fun vertex => negb (on_layer kFree vertex) || scheduled vertex) (vertices_ g).

Definition getVertex (task_uuid : string) (g : LayeredPrecedenceGraph) : outcome LPCVertex :=
  match List.find (has_uuid task_uuid) (vertices_ g) with
  | Some vertex => Ok vertex
  | None => Throw (invalid_argument "Vertex with task uuid does not exist.")
  end.

Definition getTask (task_uuid : string) (g : LayeredPrecedenceGraph) : outcome Task :=
  vertex ← getVertex task_uuid g; mret (task vertex).

Definition getEarliestValidStartTime (task_uuid : string) (g : LayeredPrecedenceGraph) : outcome Duration :=
  vertex ← getVertex task_uuid g;
  match earliest_valid_start vertex with
  | Some time => mret time
  | None => Throw (runtime_error "Earliest valid start of vertex is not set.")
  end.

Definition getLatestFinishTime (task_uuid : string) (g : LayeredPrecedenceGraph) : outcome Duration :=
  vertex ← getVertex task_uuid g;
  match latest_finish vertex with
  | Some time => mret time
  | None => Throw (runtime_error "Latest finish of vertex is not set.")
  end.

Definition isFreeTaskScheduled (task_uuid : string) (g : LayeredPrecedenceGraph) : outcome bool :=
  vertex ← getVertex task_uuid g;
  if on_layer kFree vertex then mret (scheduled vertex) else Throw (runtime_error "Task is not free").

Definition isTaskFree (task_uuid : string) (g : LayeredPrecedenceGraph) : outcome bool :=
  vertex ← getVertex task_uuid g; mret (on_layer kFree vertex).

(** ** The constructor, with its three tasks *)

Definition test_step (name : string) (x y : Z) : OrderStep :=
  {| step_name := name; step_parameters := [];
     step_location := {| loc_id := "0x0"; loc_type := "type"; loc_position := Build_Vector2D (d_of_Z x) (d_of_Z y) |} |}.

Definition test_task (name order_uuid task_uuid connection_string : string) (pickup delivery : OrderStep) : outcome Task :=
  TaskOf.construct task_uuid name connection_string
    [transport_order {| to_state := kInvalid; to_uuid := order_uuid; pickup_transport_order_steps := [pickup];
                        delivery_transport_order_step := delivery |}] [].

Definition test_ability (l : LoadCarrier) : AmrStaticAbility := {| load_carrier_ := l; max_payload_weight_kg_ := d_of_Z 20 |}.

Definition test_graph (task1 task2 task3 : Task) : M LayeredPrecedenceGraph unit :=
  let v1 := Vertex.make task1 in
  let v2 := Vertex.make task2 in
  let v3 := Vertex.make task3 in
  Graph.addVertex v1;; Graph.addVertex v2;; Graph.addVertex v3;;
  Graph.addEdge v1 v3 tt;; Graph.addEdge v2 v3 tt.

(** The tasks the scheduler gets, and the graph. *)
Definition construct (uuid : nat -> string) (connection_string : string) : M (list Task) LayeredPrecedenceGraph :=
  task1 ← lift (test_task "task1" (uuid 0%nat) (uuid 1%nat) connection_string (test_step "tos11" 10 10) (test_step "tos12" 10 20));
  task2 ← lift (test_task "task2" (uuid 2%nat) (uuid 3%nat) connection_string (test_step "tos21" 20 10) (test_step "tos22" 10 20));
  task3 ← lift (test_task "task3" (uuid 4%nat) (uuid 5%nat) connection_string (test_step "tos31" 10 20) (test_step "tos32" 5 5));
  modify (fun tasks_ => tasks_ ++ [task1; task2; task3]);;
  let task1 := TaskOf.setAbilityRequirement (test_ability kPackage) task1 in
  let task2 := TaskOf.setAbilityRequirement (test_ability kEuroBox) task2 in
  let task3 := TaskOf.setAbilityRequirement (test_ability kPackage) task3 in
  match (test_graph task1 task2 task3;; initLayers) Graph.empty with
  | (Ok _, g) => mret g
  | (Throw e, _) => throw e
  | (Undefined, _) => lift Undefined
  end.
End Layers.
