(* ===== verification/PrecedenceProperties.v ===== *)
(** * The layers of a precedence graph: what they guarantee

    A task is free or scheduled exactly if the tasks before it are scheduled; each step schedules
    the free tasks, and gives the tasks it frees an earliest start after the finish of the tasks
    before them; and without cycles every task is scheduled after as many rounds as the longest
    chain has tasks. *)

From Stdlib Require Import SpecFloat.
From S2P Require Import Prelude TreeMapper RouteCalculation Graph GraphProperties MaterialFlow Precedence.

#[local] Arguments Nat.ltb : simpl never.

(** ** The graph behind the layers *)

Abbreviation LPG := LayeredPrecedenceGraph.
Definition uuid_of (v : LPCVertex) : string := uuid_ (task v).

(** Square, and no task twice. *)
Definition wf (g : LPG) : Prop := graph_ok g /\ NoDup (uuid_of <$> vertices_ g).

Definition edge (g : LPG) (i j : nat) : Prop := entry_of g i j = Some tt.

(** The same tasks and edges; the vertices may differ in the rest. *)
Definition same_graph (g g' : LPG) : Prop :=
  adjacency_matrix_ g' = adjacency_matrix_ g /\ task <$> vertices_ g' = task <$> vertices_ g.

Lemma same_graph_refl g : same_graph g g. Proof. done. Qed.
Lemma same_graph_trans g1 g2 g3 : same_graph g1 g2 -> same_graph g2 g3 -> same_graph g1 g3.
Proof. intros [H1 H2] [H3 H4]. split; congruence. Qed.
#[local] Hint Resolve same_graph_refl : core.

Lemma same_length g g' : same_graph g g' -> length (vertices_ g') = length (vertices_ g).
Proof. intros [_ Ht]. apply (f_equal length) in Ht. by rewrite !length_fmap in Ht. Qed.

Lemma same_wf g g' : wf g -> same_graph g g' -> wf g'.
Proof.
  intros [Hg Hn] Hs. pose proof (same_length _ _ Hs) as Hl. destruct Hs as [Hm Ht]. split.
  - unfold graph_ok. by rewrite Hm, Hl.
  - unfold uuid_of in *. rewrite (list_fmap_compose task uuid_) in *. by rewrite Ht.
Qed.

Lemma same_edge g g' i j : same_graph g g' -> edge g' i j <-> edge g i j.
Proof. intros [Hm _]. unfold edge, entry_of. by rewrite Hm. Qed.

Lemma same_task g g' i v' :
  same_graph g g' -> vertices_ g' !! i = Some v' -> exists v, vertices_ g !! i = Some v /\ task v' = task v.
Proof.
  intros [_ Ht] Hi. apply (f_equal (fun l => l !! i)) in Ht. rewrite !list_lookup_fmap, Hi in Ht.
  destruct (vertices_ g !! i) as [v|]; [|done]. exists v. split; [done|]. by injection Ht.
Qed.

Lemma edge_lt g i j : wf g -> edge g i j -> (i < length (vertices_ g))%nat /\ (j < length (vertices_ g))%nat.
Proof.
  intros [[Hl Hr] _] He. unfold edge, entry_of in He. destruct (adjacency_matrix_ g !! i) as [row|] eqn:Er; [|done].
  cbn in He. destruct (row !! j) as [e|] eqn:Ej; [|done]. pose proof (Forall_lookup_1 _ _ _ _ Hr Er) as Hrow.
  apply lookup_lt_Some in Er, Ej. cbn in Hrow. lia.
Qed.

Lemma edge_source g i j : wf g -> edge g i j -> exists p, vertices_ g !! i = Some p.
Proof. intros Hw He. destruct (edge_lt _ _ _ Hw He) as [Hi _]. by apply lookup_lt_is_Some in Hi. Qed.

Lemma find_vertex_at g i v w :
  wf g -> vertices_ g !! i = Some v -> task w = task v -> Graph.find_vertex w g = Some i.
Proof.
  intros [_ Hn] Hi Ht. unfold Graph.find_vertex.
  destruct (find_index (fun x => veqb x w) (vertices_ g)) as [k|] eqn:Ek.
  - apply find_index_Some in Ek as (x & Hk & Hx & _). f_equal. eapply NoDup_lookup; [exact Hn| |].
    + rewrite list_lookup_fmap, Hk. cbn. reflexivity.
    + rewrite list_lookup_fmap, Hi. cbn. f_equal. apply bool_decide_eq_true_1 in Hx. unfold uuid_of. congruence.
  - rewrite find_index_None in Ek. specialize (Ek v ltac:(by eapply list_elem_of_lookup_2)).
    unfold veqb, lpc_eq, TaskOf.eqb in Ek. by rewrite Ht, bool_decide_true in Ek.
Qed.

#[export] Instance edge_dec g i j : Decision (edge g i j).
Proof. unfold edge. apply _. Defined.

Lemma hasEdge_at g i j v w v' w' :
  wf g -> vertices_ g !! i = Some v -> vertices_ g !! j = Some w -> task v' = task v -> task w' = task w ->
  Graph.hasEdge v' w' g = Ok (bool_decide (edge g i j)).
Proof.
  intros Hw Hi Hj Hv Hw'. unfold Graph.hasEdge.
  rewrite (find_vertex_at g i v v'), (find_vertex_at g j w w') by done.
  rewrite cell_ok by (apply Hw || by eapply lookup_lt_Some). cbn. f_equal. apply bool_decide_ext. unfold edge.
  destruct (entry_of g i j) as [[]|]; split; intros H; (done || by eauto || by destruct H).
Qed.

Lemma present_spec {V E} (vertices : list V) (cells : nat -> outcome (option E)) (f : nat -> option E) k :
  (forall i, (k <= i < k + length vertices)%nat -> cells i = Ok (f i)) ->
  exists l, Graph.present vertices cells k = Ok l /\
    forall p, p ∈ l.*1 <-> exists i, vertices !! i = Some p /\ is_Some (f (k + i)%nat).
Proof.
  revert k. induction vertices as [|v vertices IH]; intros k Hc.
  - exists []. split; [done|]. intros p. split; [by intros ?%elem_of_nil|]. intros (i & Hi & _). done.
  - cbn [Graph.present]. rewrite Hc by (cbn; lia). cbn [mbind outcome_bind].
    destruct (IH (S k)) as (l & Hl & Hel); [intros i Hi; apply Hc; cbn; lia|]. rewrite Hl. cbn.
    exists (match f k with Some e => (v, e) :: l | None => l end). split; [done|]. intros p. split.
    + intros Hp. assert (p = v /\ is_Some (f k) \/ p ∈ l.*1) as [[-> Hf]|Hp'].
      { destruct (f k); [|by right]. cbn in Hp. apply elem_of_cons in Hp as [->|Hp]; [left; eauto|by right]. }
      * exists 0%nat. split; [done|]. by rewrite Nat.add_0_r.
      * apply Hel in Hp' as (i & Hi & Hf). exists (S i). split; [done|]. by rewrite <- Nat.add_succ_comm.
    + intros ([|i] & Hi & Hf).
      * injection Hi as ->. rewrite Nat.add_0_r in Hf. destruct Hf as [e ->]. cbn. by left.
      * assert (p ∈ l.*1) by (apply Hel; exists i; split; [done|by rewrite Nat.add_succ_comm]).
        destruct (f k); [by right|done].
Qed.

Lemma incoming_at g j w w' :
  wf g -> vertices_ g !! j = Some w -> task w' = task w ->
  exists l, Graph.getIncomingEdges w' g = Ok l /\
    forall p, p ∈ l.*1 <-> exists i, vertices_ g !! i = Some p /\ edge g i j.
Proof.
  intros Hw Hj Ht. unfold Graph.getIncomingEdges. rewrite (find_vertex_at g j w w') by done.
  destruct (present_spec (vertices_ g) (fun i => Graph.cell g i j) (fun i => entry_of g i j) 0) as (l & Hl & Hel).
  { intros i Hi. apply cell_ok; [apply Hw|lia|by eapply lookup_lt_Some]. }
  exists l. split; [done|]. intros p. rewrite Hel. unfold edge. cbn.
  split; intros (i & Hi & He); exists i; (split; [done|]); [destruct He as [[] He]; done|by rewrite He].
Qed.

(** ** Loops over the vertices *)

Lemma lookup_update (f : LPCVertex -> LPCVertex) i (g : LPG) k :
  vertices_ (Graph.set_vertices (alter f i (vertices_ g)) g) !! k =
    if decide (k = i) then f <$> vertices_ g !! k else vertices_ g !! k.
Proof.
  cbn. destruct (decide (k = i)) as [->|Hne]; [apply list_lookup_alter_eq|by apply list_lookup_alter_ne].
Qed.

Lemma same_update (f : LPCVertex -> LPCVertex) i (g : LPG) :
  (forall v, task (f v) = task v) -> same_graph g (Graph.set_vertices (alter f i (vertices_ g)) g).
Proof.
  intros Hf. split; [done|]. apply list_eq. intros k. rewrite !list_lookup_fmap, lookup_update.
  destruct (decide (k = i)); [|done]. destruct (vertices_ g !! k); cbn; [by rewrite Hf|done].
Qed.

Lemma vec_at_vertex {A} (l : list A) i v : l !! i = Some v -> vec_at l i = Ok v.
Proof. unfold vec_at. by intros ->. Qed.

Lemma alter_alter {A} (f h : A -> A) k (l : list A) : alter f k (alter h k l) = alter (fun v => f (h v)) k l.
Proof. revert k. induction l as [|x l IH]; intros [|k]; cbn; [done..|]. f_equal. apply IH. Qed.

Section Loops.
Variable g0 : LPG.
Hypothesis Hw0 : wf g0.

Lemma for_seq {S} (body : nat -> M S unit) (I : nat -> S -> Prop) a n s :
  I a s -> (forall i s, (a <= i < a + n)%nat -> I i s -> exists s', body i s = (Ok tt, s') /\ I (1 + i)%nat s') ->
  exists s', for_each (seq a n) body s = (Ok tt, s') /\ I (a + n)%nat s'.
Proof.
  revert a s. induction n as [|n IH]; intros a s Ha Hb; cbn [seq for_each].
  - exists s. split; [done|]. by rewrite Nat.add_0_r.
  - destruct (Hb a s) as (s1 & H1 & HI1); [lia|done|]. destruct (IH (Datatypes.S a) s1) as (s2 & H2 & HI2).
    + done.
    + intros i s' Hi. apply Hb. lia.
    + exists s2. mred. rewrite H1. split; [done|]. by rewrite <- Nat.add_succ_comm.
Qed.

Lemma for_vertices_rule body (I : nat -> LPG -> Prop) g :
  same_graph g0 g -> I 0%nat g ->
  (forall i v g, same_graph g0 g -> vertices_ g !! i = Some v -> I i g ->
    exists g', body i v g = (Ok tt, g') /\ same_graph g0 g' /\ I (1 + i)%nat g') ->
  exists g', Layers.for_vertices body g = (Ok tt, g') /\ same_graph g0 g' /\ I (length (vertices_ g0)) g'.
Proof.
  intros Hs HI Hb. unfold Layers.for_vertices. rewrite bind_get, (same_length _ _ Hs).
  destruct (for_seq (fun i => g ← get; vertex ← lift (vec_at (vertices_ g) i); body i vertex)
              (fun i g => same_graph g0 g /\ I i g) 0 (length (vertices_ g0)) g) as (g' & Hg' & ?); [done| |eauto].
  intros i s Hi [Hsi HIi]. mred. destruct (lookup_lt_is_Some_2 (vertices_ s) i) as [v Hv].
  { rewrite (same_length _ _ Hsi). lia. }
  rewrite (vec_at_vertex _ _ _ Hv). apply Hb; done.
Qed.

Lemma collect_seq {S B} (body : nat -> M S (list B)) (I : nat -> S -> Prop) (pushed : nat -> B -> Prop) a n s :
  I a s ->
  (forall i s, (a <= i < a + n)%nat -> I i s ->
    exists l s', body i s = (Ok l, s') /\ I (1 + i)%nat s' /\ forall x, x ∈ l <-> pushed i x) ->
  exists l s', Layers.collect (seq a n) body s = (Ok l, s') /\ I (a + n)%nat s' /\
    forall x, x ∈ l <-> exists i, (a <= i < a + n)%nat /\ pushed i x.
Proof.
  revert a s. induction n as [|n IH]; intros a s Ha Hb; cbn [seq Layers.collect].
  - exists [], s. rewrite Nat.add_0_r. split; [done|]. split; [done|].
    intros x. split; [by intros ?%elem_of_nil|]. intros (i & Hi & _). lia.
  - destruct (Hb a s) as (l1 & s1 & H1 & HI1 & Hl1); [lia|done|].
    destruct (IH (Datatypes.S a) s1) as (l2 & s2 & H2 & HI2 & Hl2); [done|intros i s' Hi; apply Hb; lia|].
    exists (l1 ++ l2), s2. mred. rewrite H1, H2. split; [done|]. split; [by rewrite <- Nat.add_succ_comm|].
    intros x. rewrite elem_of_app, Hl1, Hl2. split.
    + intros [Hx|(i & Hi & Hx)]; [exists a|exists i]; split; (done || lia).
    + intros (i & Hi & Hx). destruct (decide (i = a)) as [->|]; [by left|]. right. exists i. split; [lia|done].
Qed.

(** The vertices that were pushed come from the positions passed. *)
Lemma collect_vertices_rule body (I : nat -> LPG -> Prop) (pushed : nat -> LPCVertex -> Prop) g :
  same_graph g0 g -> I 0%nat g ->
  (forall i v g, same_graph g0 g -> vertices_ g !! i = Some v -> I i g ->
    exists l g', body i v g = (Ok l, g') /\ same_graph g0 g' /\ I (1 + i)%nat g' /\ forall x, x ∈ l <-> pushed i x) ->
  exists l g', Layers.collect_vertices body g = (Ok l, g') /\ same_graph g0 g' /\ I (length (vertices_ g0)) g' /\
    forall x, x ∈ l <-> exists i, (i < length (vertices_ g0))%nat /\ pushed i x.
Proof.
  intros Hs HI Hb. unfold Layers.collect_vertices. rewrite bind_get, (same_length _ _ Hs).
  destruct (collect_seq (fun i => g ← get; vertex ← lift (vec_at (vertices_ g) i); body i vertex)
              (fun i g => same_graph g0 g /\ I i g) pushed 0 (length (vertices_ g0)) g)
    as (l & g' & Hc & [Hs' HI'] & Hl); [done| |].
  - intros i s Hi [Hsi HIi]. mred. destruct (lookup_lt_is_Some_2 (vertices_ s) i) as [v Hv].
    { rewrite (same_length _ _ Hsi). lia. }
    rewrite (vec_at_vertex _ _ _ Hv). destruct (Hb i v s Hsi Hv HIi) as (l & s' & ? & ? & ? & ?). eauto 10.
  - exists l, g'. split; [done|]. split; [done|]. split; [done|]. intros x. rewrite Hl.
    split; intros (i & Hi & Hx); exists i; (split; [lia|done]).
Qed.
End Loops.

(** ** The largest finish time *)

Definition later (m y : Duration) : Duration := if d_lt m y then y else m.

Lemma later_nan (l : list Duration) m : is_nan m = true -> foldl later m l = m.
Proof.
  intros Hn. induction l as [|y l IH]; [done|]. cbn. assert (d_lt m y = false) as Hmy.
  { apply not_true_iff_false. intros Hlt. destruct (d_lt_number _ _ Hlt). congruence. }
  unfold later at 2. by rewrite Hmy.
Qed.

Lemma latest_spec (l : list Duration) m :
  foldl later m l ∈ m :: l /\ d_lt (foldl later m l) m = false /\ forall y, y ∈ l -> d_lt (foldl later m l) y = false.
Proof.
  revert m. induction l as [|y l IH]; intros m; cbn [foldl].
  - split; [by left|]. split; [apply d_lt_irrefl|by intros ? ?%elem_of_nil].
  - destruct (IH (later m y)) as (Hin & Hm & Hl). unfold later in Hm at 2. destruct (d_lt m y) eqn:E.
    + assert (later m y = y) as Hy by (unfold later; by rewrite E). rewrite Hy in *. split; [by right|]. split.
      * apply not_true_iff_false. intros Hlt. apply not_true_iff_false in Hm. apply Hm. by eapply d_lt_trans.
      * intros z [-> |Hz]%elem_of_cons; [done|by apply Hl].
    + assert (later m y = m) as Hy by (unfold later; by rewrite E). rewrite Hy in *. split; [set_solver|]. split; [done|].
      intros z [-> |Hz]%elem_of_cons; [|by apply Hl]. destruct (is_nan m) eqn:Nm; [by rewrite later_nan|].
      apply not_true_iff_false. intros Hlt. by rewrite (d_lt_weaken _ m y) in Hm.
Qed.

Lemma max_element_spec (l : list Duration) :
  l <> [] -> exists m, StnEdge.max_element l = Ok m /\ m ∈ l /\ forall y, y ∈ l -> d_lt m y = false.
Proof.
  destruct l as [|x l]; [done|]. intros _. exists (foldl later x l). split; [done|].
  destruct (latest_spec l x) as (Hin & Hx & Hl). split; [done|]. intros y [-> |Hy]%elem_of_cons; [done|by apply Hl].
Qed.

(** ** What holds of the layers *)

Definition at_layer (g : LPG) (i : nat) (l : PrecedenceGraphLayer) : Prop :=
  exists v, vertices_ g !! i = Some v /\ layer v = l.
Definition open_at (g : LPG) (i : nat) : Prop := at_layer g i kScheduled \/ at_layer g i kFree.

Record layered (g : LPG) : Prop := {
  l_none i : ~ at_layer g i kNone;
  l_done i j : open_at g j -> edge g i j -> at_layer g i kScheduled;
  l_waits j : at_layer g j kSecond \/ at_layer g j kHidden -> exists i, edge g i j /\ ~ at_layer g i kScheduled;
  l_hidden j : at_layer g j kHidden -> exists i, edge g i j /\ ~ open_at g i;
  l_finish j v : vertices_ g !! j = Some v -> layer v = kScheduled \/ layer v = kFree /\ scheduled v = true ->
    is_Some (latest_finish v);
  l_flag j v : vertices_ g !! j = Some v -> scheduled v = true -> layer v = kScheduled \/ layer v = kFree;
}.

(** The start of a task: the finish of one before it, and of none before it earlier. *)
Definition starts_after (g : LPG) (j : nat) (v : LPCVertex) : Prop :=
  exists start, earliest_valid_start v = Some start /\
    (exists i p, edge g i j /\ vertices_ g !! i = Some p /\ latest_finish p = Some start) /\
    forall i p f, edge g i j -> vertices_ g !! i = Some p -> latest_finish p = Some f -> d_lt start f = false.

#[export] Instance at_layer_dec g i l : Decision (at_layer g i l).
Proof.
  destruct (vertices_ g !! i) as [v|] eqn:E.
  - destruct (decide (layer v = l)) as [H|H]; [left; by exists v|right]. intros (w & Hw & ?). congruence.
  - right. intros (w & Hw & _). congruence.
Defined.

Lemma at_layer_update (f : LPCVertex -> LPCVertex) k v (g : LPG) i l :
  vertices_ g !! k = Some v ->
  at_layer (Graph.set_vertices (alter f k (vertices_ g)) g) i l <->
    (if decide (i = k) then layer (f v) = l else at_layer g i l).
Proof.
  intros Hk. unfold at_layer. rewrite lookup_update. destruct (decide (i = k)) as [->|]; [|done]. rewrite Hk. cbn.
  split; [by intros (w & [= <-] & ?)|eauto].
Qed.

Lemma at_layer_unique g i l l' : at_layer g i l -> at_layer g i l' -> l = l'.
Proof. intros (v & Hv & <-) (w & Hw & <-). congruence. Qed.

Lemma on_layer_at g i v l : vertices_ g !! i = Some v -> on_layer l v = true <-> at_layer g i l.
Proof.
  intros Hv. unfold on_layer. rewrite bool_decide_eq_true. split; [by exists v|]. intros (w & Hw & ?). congruence.
Qed.

(** In the second part of [next]: [g1] is the state after the first; [P] and [Q] allow for what the loops still have
    to see to. *)
Record stage (g1 : LPG) (P Q : nat -> Prop) (g : LPG) : Prop := {
  s_graph : same_graph g1 g;
  s_done i : at_layer g i kScheduled <-> at_layer g1 i kScheduled;
  s_same i v v1 : vertices_ g !! i = Some v -> vertices_ g1 !! i = Some v1 ->
    latest_finish v = latest_finish v1 /\ scheduled v = scheduled v1;
  s_none i : ~ at_layer g i kNone;
  s_free i j : at_layer g j kFree -> edge g1 i j -> at_layer g1 i kScheduled;
  s_start j v : vertices_ g !! j = Some v -> layer v = kFree -> starts_after g1 j v;
  s_second j : at_layer g j kSecond -> (exists i, edge g1 i j /\ ~ at_layer g1 i kScheduled) \/ P j;
  s_hidden j : at_layer g j kHidden -> (exists i, edge g1 i j /\ ~ open_at g i) \/ Q j;
}.

Lemma stage_weaken g1 (P P' Q Q' : nat -> Prop) g :
  stage g1 P Q g -> (forall j, at_layer g j kSecond -> P j -> P' j \/ exists i, edge g1 i j /\ ~ at_layer g1 i kScheduled) ->
  (forall j, at_layer g j kHidden -> Q j -> Q' j \/ exists i, edge g1 i j /\ ~ open_at g i) -> stage g1 P' Q' g.
Proof.
  intros [] HP HQ. split; try done.
  - intros j Hj. destruct (s_second0 j Hj) as [?|Hp]; [by left|]. destruct (HP j Hj Hp); tauto.
  - intros j Hj. destruct (s_hidden0 j Hj) as [?|Hq]; [by left|]. destruct (HQ j Hj Hq); tauto.
Qed.

Section Stages.
Variable g1 : LPG.
Hypothesis Hw : wf g1.
Hypothesis Hfinish : forall i v, vertices_ g1 !! i = Some v -> layer v = kScheduled -> is_Some (latest_finish v).

Lemma stage_wf P Q g : stage g1 P Q g -> wf g.
Proof. intros []. by eapply same_wf. Qed.

(** A vertex is put on the second layer: one before it is only free. *)
Lemma stage_to_second P Q g k m v :
  stage g1 P Q g -> vertices_ g !! m = Some v -> layer v = kHidden -> at_layer g k kFree -> edge g1 k m ->
  stage g1 P Q (Graph.set_vertices (alter (Vertex.set_layer kSecond) m (vertices_ g)) g) /\
  at_layer (Graph.set_vertices (alter (Vertex.set_layer kSecond) m (vertices_ g)) g) k kFree.
Proof.
  intros Hst Hm Hl Hk He. set (g' := Graph.set_vertices _ g).
  assert (Hat : forall i l, at_layer g' i l <-> if decide (i = m) then kSecond = l else at_layer g i l).
  { intros i l. unfold g'. by rewrite (at_layer_update _ _ v). }
  assert (Hmh : at_layer g m kHidden) by (by exists v).
  assert (k <> m) by (intros ->; by pose proof (at_layer_unique _ _ _ _ Hk Hmh)).
  assert (Hnk : ~ at_layer g1 k kScheduled).
  { rewrite <- s_done by exact Hst. intros Hs. by pose proof (at_layer_unique _ _ _ _ Hk Hs). }
  assert (Hop : forall i, open_at g' i <-> open_at g i).
  { intros i. unfold open_at. rewrite !Hat. destruct (decide (i = m)) as [->|]; [|done].
    split; intros [Ho|Ho]; try done; by pose proof (at_layer_unique _ _ _ _ Hmh Ho). }
  split; [|by rewrite Hat, decide_False]. destruct Hst. split.
  - eapply same_graph_trans; [done|]. by apply same_update.
  - intros i. rewrite Hat. destruct (decide (i = m)) as [->|]; [|done]. rewrite <- s_done0.
    split; [done|]. intros Ho. by pose proof (at_layer_unique _ _ _ _ Hmh Ho).
  - intros i w v1. unfold g'. rewrite lookup_update. destruct (decide (i = m)) as [->|]; [|by apply s_same0].
    rewrite Hm. intros [= <-] H1. by apply (s_same0 m v).
  - intros i. rewrite Hat. destruct (decide (i = m)); [done|apply s_none0].
  - intros i j. rewrite Hat. destruct (decide (j = m)); [done|]. apply s_free0.
  - intros j w. unfold g'. rewrite lookup_update. destruct (decide (j = m)) as [->|]; [|apply s_start0].
    rewrite Hm. by intros [= <-].
  - intros j. rewrite Hat. destruct (decide (j = m)) as [->|]; [|apply s_second0]. intros _. left. by exists k.
  - intros j. rewrite Hat. destruct (decide (j = m)) as [->|]; [done|]. intros Hj. setoid_rewrite Hop. by apply s_hidden0.
Qed.

(** A vertex is freed: all before it are scheduled. *)
Lemma stage_to_free P g m v start :
  stage g1 P (fun _ => False) g -> vertices_ g !! m = Some v -> layer v = kSecond ->
  (forall i, edge g1 i m -> at_layer g1 i kScheduled) -> starts_after g1 m (Vertex.set_earliest_valid_start start v) ->
  let f v := Vertex.set_earliest_valid_start start (Vertex.set_layer kFree v) in
  stage g1 P (fun j => edge g1 m j) (Graph.set_vertices (alter f m (vertices_ g)) g).
Proof.
  intros Hst Hm Hl Hp Hstart f. set (g' := Graph.set_vertices _ g).
  assert (Hat : forall i l, at_layer g' i l <-> if decide (i = m) then kFree = l else at_layer g i l).
  { intros i l. unfold g'. by rewrite (at_layer_update _ _ v). }
  assert (Hms : at_layer g m kSecond) by (by exists v). destruct Hst. split.
  - eapply same_graph_trans; [done|]. by apply same_update.
  - intros i. rewrite Hat. destruct (decide (i = m)) as [->|]; [|done]. rewrite <- s_done0.
    split; [done|]. intros Ho. by pose proof (at_layer_unique _ _ _ _ Hms Ho).
  - intros i w v1. unfold g'. rewrite lookup_update. destruct (decide (i = m)) as [->|]; [|by apply s_same0].
    rewrite Hm. intros [= <-] H1. by apply (s_same0 m v).
  - intros i. rewrite Hat. destruct (decide (i = m)); [done|apply s_none0].
  - intros i j. rewrite Hat. destruct (decide (j = m)) as [->|]; [|by apply s_free0]. intros _. apply Hp.
  - intros j w. unfold g'. rewrite lookup_update. destruct (decide (j = m)) as [->|]; [|apply s_start0].
    rewrite Hm. intros [= <-] _. exact Hstart.
  - intros j. rewrite Hat. destruct (decide (j = m)); [done|]. apply s_second0.
  - intros j. rewrite Hat. destruct (decide (j = m)); [done|]. intros Hj.
    destruct (s_hidden0 j Hj) as [(i & Hi & Ho)|[]]. destruct (decide (i = m)) as [->|]; [by right|].
    left. exists i. split; [done|]. unfold open_at. rewrite !Hat. by rewrite !decide_False.
Qed.

Lemma forallb_parents (f : LPCVertex -> bool) (l : list (LPCVertex * unit)) :
  forallb (fun parent => f parent.1) l = true <-> forall p, p ∈ l.*1 -> f p = true.
Proof.
  rewrite forallb_forall. split.
  - intros Hf p Hp. apply list_elem_of_fmap in Hp as (x & -> & Hx). apply Hf. by apply list_elem_of_In.
  - intros Hf x Hx. apply Hf. apply list_elem_of_fmap_2. by apply list_elem_of_In.
Qed.

Lemma not_forallb_parents (f : LPCVertex -> bool) (l : list (LPCVertex * unit)) :
  forallb (fun parent => f parent.1) l = false -> exists p, p ∈ l.*1 /\ f p = false.
Proof.
  induction l as [|[p u] l IH]; [done|]. cbn. destruct (f p) eqn:E; cbn.
  - intros Hf. destruct (IH Hf) as (q & Hq & ?). exists q. split; [by right|done].
  - intros _. exists p. split; [by left|done].
Qed.

Lemma hidden_to_second_step P g k vd m v :
  stage g1 P (fun j => (m <= j)%nat /\ edge g1 k j) g -> at_layer g k kFree ->
  (exists w, vertices_ g !! k = Some w /\ task vd = task w) -> vertices_ g !! m = Some v ->
  exists g', Layers.hidden_to_second vd m v g = (Ok tt, g') /\
    stage g1 P (fun j => (1 + m <= j)%nat /\ edge g1 k j) g' /\ at_layer g' k kFree.
Proof.
  intros Hst Hk (w & Hkw & Hvd) Hm. pose proof (stage_wf _ _ _ Hst) as Hwg. pose proof (s_graph _ _ _ _ Hst) as Hsg.
  assert (Hskip : (at_layer g m kHidden -> edge g1 k m -> exists i, edge g1 i m /\ ~ open_at g i) ->
    stage g1 P (fun j => (1 + m <= j)%nat /\ edge g1 k j) g).
  { intros Hm'. eapply stage_weaken; [exact Hst|by left|]. cbn. intros j Hj [Hle He].
    destruct (decide (j = m)) as [->|]; [right; by apply Hm'|left; split; [lia|done]]. }
  unfold Layers.hidden_to_second. destruct (on_layer kHidden v) eqn:Eh.
  2:{ exists g. split; [done|]. split; [|done]. apply Hskip. intros Hh. apply (on_layer_at _ _ _ _ Hm) in Hh. congruence. }
  rewrite bind_get, (hasEdge_at g k m w v) by done. mred. case_bool_decide as He.
  2:{ exists g. split; [done|]. split; [|done]. apply Hskip. intros _ He'. by rewrite (same_edge g1 g) in He by done. }
  rewrite (same_edge g1 g) in He by done.
  destruct (incoming_at g m v v Hwg Hm eq_refl) as (parents & Hpar & Hel). rewrite Hpar.
  assert (Hopen : forall i p, vertices_ g !! i = Some p -> on_layer kScheduled p || on_layer kFree p = true <-> open_at g i).
  { intros i p Hp. rewrite orb_true_iff, !(on_layer_at g i p) by done. done. }
  destruct (forallb _ parents) eqn:Ef.
  - destruct (stage_to_second P (fun j => (m <= j)%nat /\ edge g1 k j) g k m v) as [Hst' Hk']; try done.
    { by apply bool_decide_eq_true_1 in Eh. }
    eexists. split; [reflexivity|]. split; [|done]. eapply stage_weaken; [exact Hst'|by left|]. cbn.
    intros j Hj [Hle Hej]. left. split; [|done]. destruct (decide (j = m)) as [->|]; [|lia]. exfalso.
    rewrite (at_layer_update _ _ v), decide_True in Hj by done. done.
  - apply (not_forallb_parents (fun p => on_layer kScheduled p || on_layer kFree p)) in Ef as (p & Hp & Hnp).
    exists g. split; [done|]. split; [|done]. apply Hskip. intros _ _. apply Hel in Hp as (i & Hi & Hei).
    exists i. rewrite (same_edge g1 g) in Hei by done. split; [done|]. rewrite <- (Hopen i p Hi). congruence.
Qed.

Lemma updateLayersHiddenToSecond_stage P g k vd :
  stage g1 P (fun j => edge g1 k j) g -> at_layer g k kFree ->
  (exists w, vertices_ g !! k = Some w /\ task vd = task w) ->
  exists g', Layers.updateLayersHiddenToSecond vd g = (Ok tt, g') /\ stage g1 P (fun _ => False) g' /\
    at_layer g' k kFree.
Proof.
  intros Hst Hk Hvd. unfold Layers.updateLayersHiddenToSecond.
  destruct (for_vertices_rule g1 (Layers.hidden_to_second vd)
    (fun m g => stage g1 P (fun j => (m <= j)%nat /\ edge g1 k j) g /\ at_layer g k kFree /\
      exists w, vertices_ g !! k = Some w /\ task vd = task w) g) as (g' & Hf & Hs' & Hst' & Hk' & _).
  - by apply Hst.
  - split; [|done]. eapply stage_weaken; [exact Hst|by left|]. intros j Hj He. left. split; [lia|done].
  - intros m v h Hsh Hm (Hsth & Hkh & Hvh). destruct (hidden_to_second_step P h k vd m v) as (h' & Hb & Hst' & Hk'); try done.
    exists h'. split; [done|]. split; [by apply Hst'|]. split; [done|]. split; [done|].
    destruct Hkh as (w & Hw1 & _), Hk' as (w' & Hw' & _). exists w'. split; [done|]. destruct Hvh as (u & Hu & ->).
    destruct (same_task g1 h k u) as (x & Hx & ?); [done|done|].
    destruct (same_task g1 h' k w') as (y & Hy & ?); [apply Hst'|done|]. congruence.
  - exists g'. split; [done|]. split; [|done]. eapply stage_weaken; [exact Hst'|by left|]. cbn. intros j Hj [Hle He].
    apply edge_lt in He; [lia|done].
Qed.

(** The start a freed task gets: the latest finish of the tasks before it. *)
Lemma start_of_parents P Q g k v parents :
  stage g1 P Q g -> parents <> [] ->
  (forall p, p ∈ parents.*1 <-> exists i, vertices_ g !! i = Some p /\ edge g1 i k) ->
  (forall p, p ∈ parents.*1 -> on_layer kScheduled p = true) ->
  exists times start, mapM (M := outcome) Layers.finish_of parents = Ok times /\ StnEdge.max_element times = Ok start /\
    starts_after g1 k (Vertex.set_earliest_valid_start start v).
Proof.
  intros Hst Hne Hel Hall. pose proof (s_graph _ _ _ _ Hst) as Hsg.
  set (finish := fun x : LPCVertex * unit => from_option id (S754_zero false) (latest_finish x.1)).
  assert (Hpv : forall p, p ∈ parents.*1 -> exists i p1, edge g1 i k /\ vertices_ g1 !! i = Some p1 /\
      latest_finish p = latest_finish p1 /\ is_Some (latest_finish p)).
  { intros p Hp. pose proof (Hall p Hp) as Hps. apply Hel in Hp as (i & Hi & Hei).
    destruct (edge_source _ _ _ Hw Hei) as [p1 Hp1]. exists i, p1.
    destruct (s_same _ _ _ _ Hst i p p1 Hi Hp1) as [Hf _]. split; [done|]. split; [done|]. split; [done|]. rewrite Hf.
    apply (on_layer_at _ _ _ _ Hi) in Hps. apply (s_done _ _ _ _ Hst) in Hps as (p2 & Hp2 & ?).
    eapply Hfinish; [exact Hp1|congruence]. }
  assert (Hmap : mapM (M := outcome) Layers.finish_of parents = Ok (finish <$> parents)).
  { apply mapM_Ok. intros x Hx. unfold Layers.finish_of, finish.
    destruct (Hpv x.1) as (i & p1 & _ & _ & _ & [f Hf]); [by apply list_elem_of_fmap_2|by rewrite Hf]. }
  destruct (max_element_spec (finish <$> parents)) as (start & Hmax & Hin & Hge); [by destruct parents|].
  exists (finish <$> parents), start. split; [done|]. split; [done|]. exists start. split; [done|]. split.
  - apply list_elem_of_fmap in Hin as (x & -> & Hx). destruct (Hpv x.1) as (i & p1 & Hei & Hp1 & Hf & [f Hf']).
    { by apply list_elem_of_fmap_2. }
    exists i, p1. split; [done|]. split; [done|]. unfold finish. by rewrite <- Hf, Hf'.
  - intros i p1 f Hei Hp1 Hf. destruct (lookup_lt_is_Some_2 (vertices_ g) i) as [p Hp].
    { rewrite (same_length _ _ Hsg). by eapply lookup_lt_Some. }
    destruct (s_same _ _ _ _ Hst i p p1 Hp Hp1) as [Hff _]. apply Hge.
    assert (p ∈ parents.*1) as Hpp by (apply Hel; by exists i).
    apply list_elem_of_fmap in Hpp as (x & -> & Hx). apply list_elem_of_fmap. exists x. split; [|done].
    unfold finish. by rewrite Hff, Hf.
Qed.

Lemma second_to_free_step P g a ta k v :
  stage g1 (fun j => P j \/ (k <= j)%nat /\ edge g1 a j) (fun _ => False) g ->
  (exists w, vertices_ g !! a = Some w /\ task ta = task w) -> vertices_ g !! k = Some v ->
  exists g', Layers.second_to_free ta k v g = (Ok tt, g') /\
    stage g1 (fun j => P j \/ (1 + k <= j)%nat /\ edge g1 a j) (fun _ => False) g'.
Proof.
  intros Hst (w & Haw & Hta) Hk. pose proof (stage_wf _ _ _ Hst) as Hwg. pose proof (s_graph _ _ _ _ Hst) as Hsg.
  assert (Hskip : (at_layer g k kSecond -> edge g1 a k -> exists i, edge g1 i k /\ ~ at_layer g1 i kScheduled) ->
    stage g1 (fun j => P j \/ (1 + k <= j)%nat /\ edge g1 a j) (fun _ => False) g).
  { intros Hk'. eapply stage_weaken; [exact Hst| |by left]. cbn. intros j Hj [Hp|[Hle He]]; [by left; left|].
    destruct (decide (j = k)) as [->|]; [right; by apply Hk'|left; right; split; [lia|done]]. }
  unfold Layers.second_to_free. destruct (on_layer kSecond v) eqn:Es.
  2:{ exists g. split; [done|]. apply Hskip. intros Hh. apply (on_layer_at _ _ _ _ Hk) in Hh. congruence. }
  rewrite bind_get, (hasEdge_at g a k w v), bind_lift by done. case_bool_decide as He.
  2:{ exists g. split; [done|]. apply Hskip. intros _ He'. by rewrite (same_edge g1 g) in He by done. }
  rewrite (same_edge g1 g) in He by done.
  destruct (incoming_at g k v v Hwg Hk eq_refl) as (parents & Hpar & Hel). rewrite bind_lift, Hpar.
  setoid_rewrite (same_edge g1 g) in Hel; [|done]. destruct (forallb _ parents) eqn:Ef.
  2:{ apply (not_forallb_parents (on_layer kScheduled)) in Ef as (p & Hp & Hnp).
      exists g. split; [done|]. apply Hskip. intros _ _. apply Hel in Hp as (i & Hi & Hei).
      exists i. split; [done|]. rewrite <- (s_done _ _ _ _ Hst), <- (on_layer_at g i p _ Hi). congruence. }
  rewrite (forallb_parents (on_layer kScheduled)) in Ef.
  destruct (start_of_parents _ _ g k (Vertex.set_layer kFree v) parents Hst) as (times & start & Htimes & Hmax & Hstart).
  { assert (w ∈ parents.*1) by (apply Hel; by exists a). by destruct parents; [apply elem_of_nil in H|]. }
  { done. } { done. }
  destruct (updateLayersHiddenToSecond_stage (fun j => P j \/ (k <= j)%nat /\ edge g1 a j)
    (Graph.set_vertices (alter (fun v => Vertex.set_earliest_valid_start start (Vertex.set_layer kFree v)) k
      (vertices_ g)) g) k v) as (g3 & Hu & Hst3 & Hk3).
  { apply stage_to_free with (v := v); try done; [by apply bool_decide_eq_true_1 in Es|]. intros i Hei.
    destruct (edge_source _ _ _ Hw Hei) as [p1 Hp1%lookup_lt_Some]. rewrite <- (same_length _ _ Hsg) in Hp1.
    apply lookup_lt_is_Some in Hp1 as [p Hp].
    rewrite <- (s_done _ _ _ _ Hst), <- (on_layer_at g i p _ Hp). apply Ef, Hel. by exists i. }
  { by rewrite (at_layer_update _ _ v), decide_True. }
  { eexists. rewrite lookup_update, decide_True, Hk by done. by cbn. }
  exists g3. split.
  - unfold Layers.update. rewrite bind_modify, bind_lift, Htimes, bind_lift, Hmax, bind_modify, <- Hu. f_equal. unfold Graph.set_vertices. cbn. f_equal.
    apply alter_alter.
  - eapply stage_weaken; [exact Hst3| |by left]. cbn. intros j Hj [Hp|[Hle Hej]]; [by left; left|].
    left. right. split; [|done]. destruct (decide (j = k)) as [->|]; [|lia].
    by pose proof (at_layer_unique _ _ _ _ Hj Hk3).
Qed.

Lemma updateLayersSecondToFree_stage P g a ta :
  stage g1 (fun j => P j \/ edge g1 a j) (fun _ => False) g ->
  (exists w, vertices_ g1 !! a = Some w /\ task ta = task w) ->
  exists g', Layers.updateLayersSecondToFree ta g = (Ok tt, g') /\ stage g1 P (fun _ => False) g'.
Proof.
  intros Hst (w & Haw & Hta). unfold Layers.updateLayersSecondToFree.
  destruct (for_vertices_rule g1 (Layers.second_to_free ta)
    (fun k g => stage g1 (fun j => P j \/ (k <= j)%nat /\ edge g1 a j) (fun _ => False) g) g) as (g' & Hf & Hs' & Hst').
  - apply Hst.
  - eapply stage_weaken; [exact Hst| |by left]. cbn. intros j _ [Hp|He]; [by left; left|left; right; split; [lia|done]].
  - intros k v h Hsh Hk Hsth. destruct (lookup_lt_is_Some_2 (vertices_ h) a) as [w' Hw'].
    { rewrite (same_length _ _ Hsh). by eapply lookup_lt_Some. }
    destruct (second_to_free_step P h a ta k v Hsth) as (h' & Hb & Hst'); [|done|].
    { exists w'. split; [done|]. destruct (same_task _ _ _ _ Hsh Hw') as (x & Hx & Ht). congruence. }
    exists h'. split; [done|]. split; [by apply Hst'|done].
  - exists g'. split; [done|]. eapply stage_weaken; [exact Hst'| |by left]. cbn.
    intros j _ [Hp|[Hle He]]; [by left|]. apply edge_lt in He; [lia|done].
Qed.

(** What the tasks that were just scheduled may free. *)
Definition pending (l : list LPCVertex) (j : nat) : Prop :=
  exists x a w, x ∈ l /\ vertices_ g1 !! a = Some w /\ task x = task w /\ edge g1 a j.

Lemma update_all_stage (l : list LPCVertex) g :
  (forall x, x ∈ l -> exists a w, vertices_ g1 !! a = Some w /\ task x = task w) ->
  stage g1 (pending l) (fun _ => False) g ->
  exists g', for_each l Layers.updateLayersSecondToFree g = (Ok tt, g') /\ stage g1 (fun _ => False) (fun _ => False) g'.
Proof.
  revert g. induction l as [|x l IH]; intros g Hl Hst; cbn [for_each].
  - exists g. split; [done|]. eapply stage_weaken; [exact Hst| |by left]. intros j _ (x & a & w & Hx & _).
    by apply elem_of_nil in Hx.
  - destruct (Hl x) as (a & w & Ha & Ht); [by left|].
    destruct (updateLayersSecondToFree_stage (pending l) g a x) as (g' & Hu & Hst'); [|by exists w|].
    { eapply stage_weaken; [exact Hst| |by left]. intros j _ (y & b & u & [->|Hy]%elem_of_cons & Hb & Hu & He); left.
      - right. assert (a = b) as ->; [|done]. destruct Hw as [_ Hn]. eapply NoDup_lookup; [exact Hn| |].
        + rewrite list_lookup_fmap, Ha. cbn. reflexivity.
        + rewrite list_lookup_fmap, Hb. cbn. unfold uuid_of. by rewrite <- Ht, Hu.
      - left. by exists y, b, u. }
    destruct (IH g') as (g'' & Hf & Hst''); [|done|].
    { intros y Hy. apply Hl. by right. }
    exists g''. split; [|done]. mred. by rewrite Hu.
Qed.
End Stages.

(** ** [next()] *)

(** The free tasks become scheduled. *)
Definition promoted (v : LPCVertex) : LPCVertex :=
  if decide (layer v = kFree) then Vertex.set_layer kScheduled v else v.

Lemma schedule_all_free g :
  wf g -> exists l g1, Layers.collect_vertices Layers.schedule_free g = (Ok l, g1) /\ same_graph g g1 /\
    (forall i, vertices_ g1 !! i = promoted <$> vertices_ g !! i) /\
    forall x, x ∈ l <-> exists i v, vertices_ g !! i = Some v /\ layer v = kFree /\ x = promoted v.
Proof.
  intros Hw.
  destruct (collect_vertices_rule g Layers.schedule_free
    (fun k h => forall i, vertices_ h !! i = (if decide (i < k)%nat then promoted else id) <$> vertices_ g !! i)
    (fun i x => exists v, vertices_ g !! i = Some v /\ layer v = kFree /\ x = promoted v) g) as (l & g1 & Hc & Hs & Hv & Hl).
  - done.
  - intros i. rewrite decide_False by lia. by destruct (vertices_ g !! i).
  - intros i v h Hs Hi Hh. pose proof (Hh i) as Hgi. rewrite Hi, decide_False in Hgi by lia.
    destruct (vertices_ g !! i) as [v0|] eqn:Eg; [|done]. cbn in Hgi. injection Hgi as <-.
    unfold Layers.schedule_free. destruct (on_layer kFree v) eqn:Ef.
    + apply bool_decide_eq_true_1 in Ef. assert (promoted v = Vertex.set_layer kScheduled v) as Hp.
      { unfold promoted. by rewrite decide_True. }
      eexists _, _. unfold Layers.update. rewrite bind_modify. split; [reflexivity|]. split; [|split].
      * eapply same_graph_trans; [exact Hs|]. by apply same_update.
      * intros k. rewrite lookup_update. destruct (decide (k = i)) as [->|].
        -- rewrite Hi, Eg, decide_True by lia. cbn. by rewrite Hp.
        -- rewrite Hh. destruct (decide (k < i)%nat), (decide (k < 1 + i)%nat); (done || lia).
      * intros x. rewrite list_elem_of_singleton, <- Hp. split; [intros ->; eauto|]. intros (w & ? & _ & ->). congruence.
    + apply bool_decide_eq_false_1 in Ef. eexists [], h. split; [done|]. split; [done|]. split.
      * intros k. rewrite Hh. destruct (decide (k = i)) as [->|].
        -- rewrite Eg, decide_False, decide_True by lia. cbn. unfold promoted. by rewrite decide_False.
        -- destruct (decide (k < i)%nat), (decide (k < 1 + i)%nat); (done || lia).
      * intros x. split; [by intros ?%elem_of_nil|]. intros (w & ? & ? & _). congruence.
  - exists l, g1. split; [done|]. split; [done|]. split.
    + intros i. rewrite Hv. destruct (decide (i < length (vertices_ g))%nat); [done|].
      by rewrite (lookup_ge_None_2 (vertices_ g)) by lia.
    + intros x. rewrite Hl. split; [intros (i & _ & v & ?); eauto|]. intros (i & v & Hv' & ?). exists i.
      split; [by eapply lookup_lt_Some|eauto].
Qed.

Section Next.
Variables g g1 : LPG.
Hypothesis Hw : wf g.
Hypothesis Hlayers : layered g.
Hypothesis Hpromoted : forall i, vertices_ g1 !! i = promoted <$> vertices_ g !! i.
Hypothesis Hsame : same_graph g g1.

Lemma at_promoted i l :
  at_layer g1 i l <-> match l with kScheduled => open_at g i | kFree => False | _ => at_layer g i l end.
Proof.
  unfold open_at, at_layer. rewrite Hpromoted. destruct (vertices_ g !! i) as [v|] eqn:E; cbn.
  - unfold promoted. destruct (decide (layer v = kFree)) as [Hf|Hf]; cbn; split.
    + intros (w & [= <-] & <-). cbn. right. by exists v.
    + destruct l; try done; try (intros (w & [= <-] & ?); congruence). intros _. by eexists.
    + intros (w & [= <-] & <-). destruct (layer v) eqn:El; try done; try (by exists v). left. by exists v.
    + destruct l; try done; try (intros (w & [= <-] & ?); by exists v).
      intros [(w & [= <-] & ?)|(w & [= <-] & ?)]; [by exists v|done].
  - split; [by intros (w & ? & _)|]. destruct l; try done; try (by intros (w & ? & _)).
    intros [(w & ? & _)|(w & ? & _)]; done.
Qed.

Lemma promoted_same i v v1 :
  vertices_ g !! i = Some v -> vertices_ g1 !! i = Some v1 ->
  latest_finish v1 = latest_finish v /\ scheduled v1 = scheduled v /\ task v1 = task v.
Proof. intros Hv. rewrite Hpromoted, Hv. cbn. intros [= <-]. unfold promoted. by destruct (decide _). Qed.

Lemma first_stage (l : list LPCVertex) :
  (forall x, x ∈ l <-> exists i v, vertices_ g !! i = Some v /\ layer v = kFree /\ x = promoted v) ->
  stage g1 (pending g1 l) (fun _ => False) g1.
Proof.
  intros Hl. split.
  - done.
  - done.
  - intros i v v1 Hv Hv1. rewrite Hv in Hv1. by injection Hv1 as ->.
  - intros i. rewrite at_promoted. apply Hlayers.
  - intros i j. by rewrite at_promoted.
  - intros j v Hj Hf. exfalso. assert (at_layer g1 j kFree) as Ha by (by exists v). by rewrite at_promoted in Ha.
  - intros j. rewrite at_promoted. intros Hj.
    destruct (l_waits g Hlayers j (or_introl Hj)) as (i & He & Hn). rewrite <- (same_edge g g1) in He by done.
    destruct (decide (at_layer g i kFree)) as [Hf|Hf].
    + right. destruct Hf as (v & Hv & Hf). exists (promoted v), i, (promoted v).
      split; [apply Hl; by exists i, v|]. split; [by rewrite Hpromoted, Hv|]. done.
    + left. exists i. split; [done|]. rewrite at_promoted. unfold open_at. tauto.
  - intros j. rewrite at_promoted. intros Hj. destruct (l_hidden g Hlayers j Hj) as (i & He & Hn).
    rewrite <- (same_edge g g1) in He by done. left. exists i. split; [done|]. unfold open_at in *. rewrite !at_promoted.
    tauto.
Qed.

Hypothesis Hall : Layers.areAllFreeTasksScheduled g = true.

(** Every task that is free by now has a finish time. *)
Lemma open_finish i v : vertices_ g !! i = Some v -> open_at g i -> is_Some (latest_finish v).
Proof.
  intros Hv Ho. apply (l_finish g Hlayers i v Hv). destruct Ho as [(w & Hw' & Hl)|(w & Hw' & Hl)].
  - left. congruence.
  - right. assert (w = v) as -> by congruence. split; [done|]. unfold Layers.areAllFreeTasksScheduled in Hall.
    rewrite forallb_forall in Hall. specialize (Hall v). unfold on_layer in Hall. rewrite bool_decide_true in Hall by done.
    apply Hall. apply list_elem_of_In. by eapply list_elem_of_lookup_2.
Qed.

Lemma promoted_finish i v1 : vertices_ g1 !! i = Some v1 -> layer v1 = kScheduled -> is_Some (latest_finish v1).
Proof.
  intros Hv1 Hl. destruct (same_task _ _ _ _ Hsame Hv1) as (v & Hv & _).
  destruct (promoted_same i v v1) as (-> & _); [done|done|]. apply (open_finish i v Hv).
  assert (at_layer g1 i kScheduled) as Ha by (by exists v1). by rewrite at_promoted in Ha.
Qed.

Lemma last_stage g' : stage g1 (fun _ => False) (fun _ => False) g' -> layered g'.
Proof.
  intros Hst. pose proof (same_graph_trans _ _ _ Hsame (s_graph _ _ _ _ Hst)) as Hgg.
  assert (Hdone : forall i, at_layer g' i kScheduled <-> open_at g i).
  { intros i. rewrite (s_done _ _ _ _ Hst). apply at_promoted. }
  assert (Hback : forall j v, vertices_ g' !! j = Some v -> exists v0, vertices_ g !! j = Some v0 /\
      latest_finish v = latest_finish v0 /\ scheduled v = scheduled v0).
  { intros j v Hv. destruct (same_task _ _ _ _ (s_graph _ _ _ _ Hst) Hv) as (v1 & Hv1 & _).
    destruct (same_task _ _ _ _ Hsame Hv1) as (v0 & Hv0 & _). exists v0. split; [done|].
    destruct (s_same _ _ _ _ Hst j v v1 Hv Hv1), (promoted_same j v0 v1 Hv0 Hv1) as (? & ? & _). split; congruence. }
  split.
  - apply (s_none _ _ _ _ Hst).
  - intros i j Ho He. rewrite Hdone. rewrite (same_edge g g') in He by done. destruct Ho as [Ho|Ho].
    + left. apply (l_done g Hlayers i j); [by apply Hdone|done].
    + rewrite <- at_promoted with (l := kScheduled). apply (s_free _ _ _ _ Hst i j Ho). by rewrite (same_edge g g1).
  - intros j [Hj|Hj].
    + destruct (s_second _ _ _ _ Hst j Hj) as [(i & He & Hn)|[]]. exists i.
      rewrite (same_edge g1 g') by apply Hst. split; [done|]. by rewrite (s_done _ _ _ _ Hst).
    + destruct (s_hidden _ _ _ _ Hst j Hj) as [(i & He & Hn)|[]]. exists i.
      rewrite (same_edge g1 g') by apply Hst. split; [done|]. intros Hs. apply Hn. by left.
  - intros j Hj. destruct (s_hidden _ _ _ _ Hst j Hj) as [(i & He & Hn)|[]]. exists i.
    by rewrite (same_edge g1 g') by apply Hst.
  - intros j v Hv Hl. destruct (Hback j v Hv) as (v0 & Hv0 & -> & Hfl). apply (open_finish j v0 Hv0).
    destruct Hl as [Hl|[_ Hl]].
    + apply Hdone. by exists v.
    + rewrite Hfl in Hl. destruct (l_flag g Hlayers j v0 Hv0 Hl); [left|right]; by exists v0.
  - intros j v Hv Hs. destruct (Hback j v Hv) as (v0 & Hv0 & _ & Hfl). rewrite Hfl in Hs.
    assert (at_layer g' j kScheduled) as (w & Hw' & Hl).
    { apply Hdone. destruct (l_flag g Hlayers j v0 Hv0 Hs); [left|right]; by exists v0. }
    left. congruence.
Qed.
End Next.

(** The start of a task over the graph it is taken from. *)
Lemma starts_after_same g g' j v :
  same_graph g g' ->
  (forall i p p', edge g i j -> vertices_ g !! i = Some p -> vertices_ g' !! i = Some p' -> latest_finish p = latest_finish p') ->
  starts_after g j v -> starts_after g' j v.
Proof.
  intros Hs Hf (start & He & (i & p & Hei & Hp & Hfp) & Hle). exists start. split; [done|]. split.
  - destruct (lookup_lt_is_Some_2 (vertices_ g') i) as [p' Hp'].
    { rewrite (same_length _ _ Hs). by eapply lookup_lt_Some. }
    exists i, p'. rewrite (same_edge g g') by done. rewrite <- (Hf i p p') by done. done.
  - intros k q f Hek Hq Hfq. rewrite (same_edge g g') in Hek by done. destruct (same_task _ _ _ _ Hs Hq) as (q0 & Hq0 & _).
    apply (Hle k q0 f); [done|done|]. by rewrite (Hf k q0 q).
Qed.

Lemma next_ok g :
  wf g -> layered g -> Layers.areAllFreeTasksScheduled g = true ->
  exists g', Layers.next g = (Ok tt, g') /\ same_graph g g' /\ layered g' /\
    (forall i, at_layer g' i kScheduled <-> open_at g i) /\
    forall j v, vertices_ g' !! j = Some v -> layer v = kFree -> starts_after g' j v /\ scheduled v = false.
Proof.
  intros Hw Hl Hall. destruct (schedule_all_free g Hw) as (l & g1 & Hc & Hs & Hp & Hel).
  assert (Hw1 : wf g1) by (by eapply same_wf).
  destruct (update_all_stage g1 Hw1 (promoted_finish g g1 Hl Hp Hs Hall) l g1) as (g' & Hu & Hst).
  - intros x Hx. apply Hel in Hx as (i & v & Hv & _ & ->). exists i, (promoted v). by rewrite Hp, Hv.
  - by apply (first_stage g g1).
  - exists g'. split; [unfold Layers.next; mred; by rewrite Hc|].
    split; [by eapply same_graph_trans; [|apply Hst]|]. split; [by apply (last_stage g g1)|]. split.
    + intros i. rewrite (s_done _ _ _ _ Hst). apply (at_promoted g g1 Hp i kScheduled).
    + intros j v Hv Hf. split.
      * eapply starts_after_same; [apply Hst| |by eapply s_start].
        intros i p p' _ Hpi Hpi'. by destruct (s_same _ _ _ _ Hst i p' p Hpi' Hpi) as [-> _].
      * destruct (same_task _ _ _ _ (s_graph _ _ _ _ Hst) Hv) as (v1 & Hv1 & _).
        destruct (same_task _ _ _ _ Hs Hv1) as (v0 & Hv0 & _).
        destruct (s_same _ _ _ _ Hst j v v1 Hv Hv1) as [_ ->], (promoted_same g g1 Hp j v0 v1 Hv0 Hv1) as (_ & -> & _).
        apply not_true_iff_false. intros Hfl. assert (at_layer g' j kScheduled) as (w & Hw' & Hlw).
        { apply (s_done _ _ _ _ Hst), (at_promoted g g1 Hp j kScheduled).
          destruct (l_flag g Hl j v0 Hv0 Hfl); [left|right]; by exists v0. }
        congruence.
Qed.

(** ** [initLayers()] *)

Section Init.
Variable g : LPG.
Hypothesis Hw : wf g.
Hypothesis Hfresh : forall i v, vertices_ g !! i = Some v -> layer v = kNone /\ scheduled v = false.

Definition root (i : nat) : Prop := Forall (fun p => ~ edge g p i) (seq 0 (length (vertices_ g))).

#[local] Instance root_dec i : Decision (root i).
Proof. unfold root. apply _. Defined.

Lemma root_spec i : root i <-> forall p, ~ edge g p i.
Proof.
  unfold root. rewrite Forall_forall. split; [|auto]. intros H p He. apply (H p); [|done]. apply elem_of_seq.
  apply edge_lt in He; [lia|done].
Qed.

Definition initially_free (i : nat) (v : LPCVertex) : LPCVertex :=
  if decide (root i) then Vertex.set_layer kFree v else v.

Lemma init_free_all :
  exists l h, Layers.collect_vertices Layers.init_free g = (Ok l, h) /\ same_graph g h /\
    (forall i, vertices_ h !! i = initially_free i <$> vertices_ g !! i) /\
    forall x, x ∈ l <-> exists i v, vertices_ g !! i = Some v /\ root i /\ x = initially_free i v.
Proof.
  destruct (collect_vertices_rule g Layers.init_free
    (fun k h => forall i, vertices_ h !! i = (if decide (i < k)%nat then initially_free i else id) <$> vertices_ g !! i)
    (fun i x => exists v, vertices_ g !! i = Some v /\ root i /\ x = initially_free i v) g) as (l & h & Hc & Hs & Hv & Hl).
  - done.
  - intros i. rewrite decide_False by lia. by destruct (vertices_ g !! i).
  - intros i v h Hs Hi Hh. pose proof (Hh i) as Hgi. rewrite Hi, decide_False in Hgi by lia.
    destruct (vertices_ g !! i) as [v0|] eqn:Eg; [|done]. cbn in Hgi. injection Hgi as <-.
    assert (Hwh : wf h) by (by eapply same_wf). destruct (incoming_at h i v v Hwh Hi eq_refl) as (edges & Hedges & Hel).
    unfold Layers.init_free. rewrite bind_get, bind_lift, Hedges.
    assert (Hroot : length edges = 0%nat <-> root i).
    { rewrite root_spec. split.
      - intros Hlen p He. apply nil_length_inv in Hlen as ->. destruct (edge_source _ _ _ Hw He) as [q Hq].
        destruct (lookup_lt_is_Some_2 (vertices_ h) p) as [q' Hq'].
        { rewrite (same_length _ _ Hs). by eapply lookup_lt_Some. }
        apply (elem_of_nil q'). apply Hel. exists p. by rewrite (same_edge g h).
      - intros Hno. destruct edges as [|[e u] edges]; [done|]. exfalso.
        destruct (proj1 (Hel e)) as (p & _ & He); [by left|]. rewrite (same_edge g h) in He by done. by apply (Hno p). }
    case_bool_decide as Hlen.
    + assert (initially_free i v = Vertex.set_layer kFree v) as Hp.
      { unfold initially_free. rewrite decide_True by (by apply Hroot). done. }
      eexists _, _. unfold Layers.update. rewrite bind_modify. split; [reflexivity|]. split; [|split].
      * eapply same_graph_trans; [exact Hs|]. by apply same_update.
      * intros k. rewrite lookup_update. destruct (decide (k = i)) as [->|].
        -- rewrite Hi, Eg, decide_True by lia. cbn. by rewrite Hp.
        -- rewrite Hh. destruct (decide (k < i)%nat), (decide (k < 1 + i)%nat); (done || lia).
      * intros x. rewrite list_elem_of_singleton, <- Hp. split; [intros ->; apply Hroot in Hlen; eauto|]. intros (w & ? & _ & ->). congruence.
    + eexists [], h. split; [done|]. split; [done|]. split.
      * intros k. rewrite Hh. destruct (decide (k = i)) as [->|].
        -- rewrite Eg, decide_False, decide_True by lia. cbn. unfold initially_free. rewrite decide_False; [done|].
           by intros Hr%Hroot.
        -- destruct (decide (k < i)%nat), (decide (k < 1 + i)%nat); (done || lia).
      * intros x. split; [by intros ?%elem_of_nil|]. intros (w & ? & Hr%Hroot & _). done.
  - exists l, h. split; [done|]. split; [done|]. split.
    + intros i. rewrite Hv. destruct (decide (i < length (vertices_ g))%nat); [done|].
      by rewrite (lookup_ge_None_2 (vertices_ g)) by lia.
    + intros x. rewrite Hl. split; [intros (i & _ & v & ?); eauto|]. intros (i & v & Hv' & ?). exists i.
      split; [by eapply lookup_lt_Some|eauto].
Qed.

(** The layers while the second one is filled; [seen a i]: [i] was looked at as a child of [a]. *)
Record filling (seen : nat -> nat -> Prop) (h : LPG) : Prop := {
  f_graph : same_graph g h;
  f_flag i v : vertices_ h !! i = Some v -> scheduled v = false;
  f_free i : at_layer h i kFree <-> root i /\ (i < length (vertices_ g))%nat;
  f_layers i l : at_layer h i l -> l = kFree \/ l = kSecond \/ l = kNone;
  f_second i : at_layer h i kSecond -> exists a, root a /\ edge g a i;
  f_seen a i : seen a i -> root a -> edge g a i -> at_layer h i kSecond;
}.

Lemma filling_weaken seen seen' h :
  filling seen h -> (forall a i, seen' a i -> root a -> edge g a i -> seen a i \/ at_layer h i kSecond) -> filling seen' h.
Proof. intros [] Hs. split; try done. intros a i Hsee Hr He. destruct (Hs a i Hsee Hr He); [by eapply f_seen0|done]. Qed.

Lemma init_second_step seen h a ta i v :
  filling (fun b j => seen b j \/ b = a /\ (j < i)%nat) h -> root a ->
  (exists w, vertices_ h !! a = Some w /\ task ta = task w) -> vertices_ h !! i = Some v ->
  exists h', Layers.init_second ta i v h = (Ok tt, h') /\ filling (fun b j => seen b j \/ b = a /\ (j < 1 + i)%nat) h'.
Proof.
  intros Hf Ha (w & Haw & Hta) Hi. assert (Hwh : wf h) by (eapply same_wf; [exact Hw|apply Hf]).
  assert (Hskip : (edge g a i -> at_layer h i kSecond) -> filling (fun b j => seen b j \/ b = a /\ (j < 1 + i)%nat) h).
  { intros Hai. eapply filling_weaken; [exact Hf|]. cbn. intros b j [Hs|[-> Hj]] _ He; [by left; left|].
    destruct (decide (j = i)) as [->|]; [right; by apply Hai|left; right; split; [done|lia]]. }
  unfold Layers.init_second. destruct (veqb ta v) eqn:Ev; cbn [negb].
  { exists h. split; [done|]. apply Hskip. intros He. exfalso.
    apply bool_decide_eq_true_1 in Ev. assert (a = i) as <-.
    { destruct Hwh as [_ Hn]. eapply NoDup_lookup; [exact Hn| |].
      - rewrite list_lookup_fmap, Haw. cbn. reflexivity.
      - rewrite list_lookup_fmap, Hi. cbn. unfold uuid_of. by rewrite <- Ev, Hta. }
    rewrite root_spec in Ha. by apply (Ha a). }
  rewrite bind_get, (hasEdge_at h a i w v), bind_lift by done. case_bool_decide as He.
  2:{ exists h. split; [done|]. apply Hskip. intros He'. by rewrite (same_edge g h) in He by apply Hf. }
  rewrite (same_edge g h) in He by apply Hf.
  assert (Hnf : ~ at_layer h i kFree).
  { rewrite (f_free _ _ Hf). intros [Hr _]. rewrite root_spec in Hr. by apply (Hr a). }
  rewrite bind_throw_if. destruct (on_layer kFree v) eqn:Ef; [by apply (on_layer_at _ _ _ _ Hi) in Ef|].
  destruct (on_layer kSecond v) eqn:Es; cbn [negb].
  { exists h. split; [done|]. apply Hskip. intros _. by apply (on_layer_at _ _ _ _ Hi). }
  eexists. split; [reflexivity|]. set (h' := Graph.set_vertices _ h).
  assert (Hat : forall k l, at_layer h' k l <-> if decide (k = i) then kSecond = l else at_layer h k l).
  { intros k l. unfold h'. by rewrite (at_layer_update _ _ v). }
  destruct Hf. split.
  - eapply same_graph_trans; [done|]. by apply same_update.
  - intros k u. unfold h'. rewrite lookup_update. destruct (decide (k = i)) as [->|]; [|apply f_flag0].
    rewrite Hi. intros [= <-]. cbn. by apply (f_flag0 i).
  - intros k. rewrite Hat. destruct (decide (k = i)) as [->|]; [|apply f_free0]. split; [done|]. by rewrite <- f_free0.
  - intros k l. rewrite Hat. destruct (decide (k = i)); [|apply f_layers0]. intros <-. tauto.
  - intros k. rewrite Hat. destruct (decide (k = i)) as [->|]; [|apply f_second0]. intros _. by exists a.
  - intros b k Hs Hr Hbk. rewrite Hat. destruct (decide (k = i)) as [|Hk]; [done|]. eapply f_seen0; [|done|done].
    destruct Hs as [Hs|[-> Hlt]]; [by left|right; split; [done|lia]].
Qed.

Lemma init_second_all (l : list LPCVertex) (done_roots : list nat) h :
  (forall x, x ∈ l -> exists a w, vertices_ g !! a = Some w /\ root a /\ task x = task w) ->
  filling (fun b j => b ∈ done_roots) h ->
  exists h', for_each l (fun free_vertex => Layers.for_vertices (Layers.init_second free_vertex)) h = (Ok tt, h') /\
    filling (fun b j => b ∈ done_roots \/ exists x w, x ∈ l /\ vertices_ g !! b = Some w /\ task x = task w) h'.
Proof.
  revert done_roots h. induction l as [|x l IH]; intros done_roots h Hl Hf; cbn [for_each].
  - exists h. split; [done|]. eapply filling_weaken; [exact Hf|]. intros a i [Hin|(x & w & Hx & _)] _ _; [by left|].
    by apply elem_of_nil in Hx.
  - destruct (Hl x) as (a & w & Ha & Hr & Ht); [by left|].
    destruct (for_vertices_rule g (Layers.init_second x)
      (fun i h => filling (fun b j => b ∈ done_roots \/ b = a /\ (j < i)%nat) h) h) as (h1 & Hb & Hs1 & Hf1).
    + apply Hf.
    + eapply filling_weaken; [exact Hf|]. cbn. intros b j [?|[_ ?]] _ _; [by left|lia].
    + intros i v k Hsk Hi Hfk. destruct (lookup_lt_is_Some_2 (vertices_ k) a) as [w' Hw'].
      { rewrite (same_length _ _ Hsk). by eapply lookup_lt_Some. }
      destruct (init_second_step (fun b _ => b ∈ done_roots) k a x i v Hfk Hr) as (k' & Hk' & Hfk'); [|done|].
      { exists w'. split; [done|]. destruct (same_task _ _ _ _ Hsk Hw') as (u & Hu & ?). congruence. }
      exists k'. split; [done|]. split; [apply Hfk'|done].
    + destruct (IH (a :: done_roots) h1) as (h2 & Hfe & Hf2).
      * intros y Hy. apply Hl. by right.
      * eapply filling_weaken; [exact Hf1|]. cbn. intros b j [->|Hb']%elem_of_cons _ He; left; [|by left].
        right. split; [done|]. apply edge_lt in He; [lia|done].
      * exists h2. split; [mred; by rewrite Hb|]. eapply filling_weaken; [exact Hf2|]. cbn.
        intros b j [Hin|(y & u & [->|Hy]%elem_of_cons & Hub & Hyu)] _ _; left.
        -- left. by right.
        -- left. assert (a = b) as ->; [|by left]. destruct Hw as [_ Hn]. eapply NoDup_lookup; [exact Hn| |].
           ++ rewrite list_lookup_fmap, Ha. cbn. reflexivity.
           ++ rewrite list_lookup_fmap, Hub. cbn. unfold uuid_of. by rewrite <- Ht, Hyu.
        -- right. eauto.
Qed.

(** What is left becomes hidden. *)
Lemma init_hidden_all h :
  same_graph g h -> (forall i v, vertices_ h !! i = Some v -> scheduled v = false) ->
  (forall i l, at_layer h i l -> l = kFree \/ l = kSecond \/ l = kNone) ->
  exists h', Layers.for_vertices Layers.init_hidden h = (Ok tt, h') /\ same_graph g h' /\
    (forall i v, vertices_ h' !! i = Some v -> scheduled v = false) /\
    forall i l, at_layer h' i l <->
      match l with kHidden => at_layer h i kNone | kNone => False | _ => at_layer h i l end.
Proof.
  intros Hs Hfl Hls.
  destruct (for_vertices_rule g Layers.init_hidden
    (fun k h' => (forall i v, vertices_ h' !! i = Some v -> scheduled v = false) /\
      forall i l, at_layer h' i l <-> if decide (i < k)%nat
        then match l with kHidden => at_layer h i kNone | kNone => False | _ => at_layer h i l end
        else at_layer h i l) h) as (h' & Hf & Hs' & Hfl' & Hat).
  - done.
  - split; [done|]. intros i l. by rewrite decide_False by lia.
  - intros k v h' Hsh' Hk [Hflh Hath]. assert (Hlk : layer v = kFree \/ layer v = kSecond \/ layer v = kNone).
    { apply (Hls k). specialize (Hath k (layer v)). rewrite decide_False in Hath by lia. apply Hath. by exists v. }
    unfold Layers.init_hidden, on_layer.
    assert (Hkeep : layer v <> kNone -> forall i l, at_layer h' i l <-> if decide (i < 1 + k)%nat
        then match l with kHidden => at_layer h i kNone | kNone => False | _ => at_layer h i l end else at_layer h i l).
    { intros Hn i l. rewrite Hath. destruct (decide (i < k)%nat), (decide (i < 1 + k)%nat); try (done || lia).
      assert (i = k) as -> by lia. assert (Hv : at_layer h k (layer v)).
      { specialize (Hath k (layer v)). rewrite decide_False in Hath by lia. apply Hath. by exists v. }
      destruct l; split; intros Ha; try done; try by pose proof (at_layer_unique _ _ _ _ Hv Ha); congruence.
      pose proof (at_layer_unique _ _ _ _ Hv Ha) as E. rewrite E in Hlk. by destruct Hlk as [?|[?|?]]. }
    destruct Hlk as [Hl|[Hl|Hl]]; rewrite Hl; cbn.
    + exists h'. split; [done|]. split; [done|]. split; [done|]. apply Hkeep. congruence.
    + exists h'. split; [done|]. split; [done|]. split; [done|]. apply Hkeep. congruence.
    + eexists. split; [reflexivity|]. split; [|split].
      * eapply same_graph_trans; [exact Hsh'|]. by apply same_update.
      * intros i w. rewrite lookup_update. destruct (decide (i = k)) as [->|]; [|apply Hflh].
        rewrite Hk. intros [= <-]. cbn. by apply (Hflh k).
      * intros i l. rewrite (at_layer_update _ _ v) by done. destruct (decide (i = k)) as [->|].
        -- rewrite decide_True by lia. assert (Hv : at_layer h k kNone).
           { specialize (Hath k kNone). rewrite decide_False in Hath by lia. apply Hath. by exists v. }
           cbn. destruct l; split; intros Ha; try done; by pose proof (at_layer_unique _ _ _ _ Hv Ha).
        -- rewrite Hath. destruct (decide (i < k)%nat), (decide (i < S k)%nat); (done || lia).
  - exists h'. split; [done|]. split; [done|]. split; [done|]. intros i l. rewrite Hat.
    destruct (decide (i < length (vertices_ g))%nat) as [|Hge]; [done|]. rewrite <- (same_length _ _ Hs) in Hge.
    assert (Hno : forall l, ~ at_layer h i l) by (intros l' (v & Hv%lookup_lt_Some & _); lia).
    destruct l; split; intros Ha; try done; by apply Hno in Ha.
Qed.

(** On a fresh graph with any edges, cyclic or not, [initLayers] succeeds (the exception inside is never thrown)
    and builds consistent layers. *)
Lemma initLayers_layered :
  exists g', Layers.initLayers g = (Ok tt, g') /\ same_graph g g' /\ layered g' /\
    (forall i, at_layer g' i kFree <-> (i < length (vertices_ g))%nat /\ forall p, ~ edge g p i) /\
    (forall i v, vertices_ g' !! i = Some v -> scheduled v = false) /\
    (forall i, ~ at_layer g' i kScheduled).
Proof.
  destruct init_free_all as (l & h1 & Hc & Hs1 & Hv1 & Hl).
  assert (Hlook : forall i v, vertices_ h1 !! i = Some v -> exists v0, vertices_ g !! i = Some v0 /\
      v = initially_free i v0 /\ layer v0 = kNone /\ scheduled v0 = false).
  { intros i v. rewrite Hv1. destruct (vertices_ g !! i) as [v0|] eqn:E; [|done]. cbn. intros [= <-].
    exists v0. destruct (Hfresh i v0 E). done. }
  assert (Hf1 : filling (fun b j => b ∈ []) h1).
  { split.
    - done.
    - intros i v Hv. destruct (Hlook i v Hv) as (v0 & _ & -> & _ & ?). unfold initially_free. by destruct (decide _).
    - intros i. split.
      + intros (v & Hv & Hf). destruct (Hlook i v Hv) as (v0 & Hv0 & -> & Hn & _). unfold initially_free in Hf.
        destruct (decide (root i)); [|congruence]. split; [done|by eapply lookup_lt_Some].
      + intros [Hr Hi]. apply lookup_lt_is_Some in Hi as [v0 Hv0]. exists (initially_free i v0).
        rewrite Hv1, Hv0. split; [done|]. unfold initially_free. by rewrite decide_True.
    - intros i l' (v & Hv & <-). destruct (Hlook i v Hv) as (v0 & _ & -> & Hn & _). unfold initially_free.
      destruct (decide (root i)); cbn; tauto.
    - intros i (v & Hv & Hf). destruct (Hlook i v Hv) as (v0 & _ & -> & Hn & _). unfold initially_free in Hf.
      destruct (decide (root i)); cbn in Hf; congruence.
    - by intros a i ?%elem_of_nil. }
  destruct (init_second_all l [] h1) as (h2 & Hfe & Hf2); [|done|].
  { intros x Hx. apply Hl in Hx as (i & v & Hv & Hr & ->). exists i, v. split; [done|]. split; [done|].
    unfold initially_free. by destruct (decide _). }
  destruct (init_hidden_all h2) as (h3 & Hh & Hs3 & Hfl3 & Hat3); [apply Hf2|apply Hf2|apply Hf2|].
  assert (Hno : forall i, ~ at_layer h3 i kScheduled).
  { intros i. rewrite Hat3. intros Ha. destruct (f_layers _ _ Hf2 i _ Ha) as [?|[?|?]]; done. }
  assert (Hfree : forall i, at_layer h3 i kFree <-> (i < length (vertices_ g))%nat /\ forall p, ~ edge g p i).
  { intros i. rewrite Hat3, (f_free _ _ Hf2), root_spec. tauto. }
  exists h3. split; [unfold Layers.initLayers; mred; by rewrite Hc, Hfe|]. split; [done|]. split; [|done]. split.
  - intros i Hi. by apply Hat3 in Hi.
  - intros i j [Hj|Hj] He; [by apply Hno in Hj|]. rewrite (same_edge g h3) in He by done. apply Hfree in Hj as [_ Hj].
    by apply Hj in He.
  - intros j Hj. assert (Hp : exists i, edge g i j).
    { destruct (decide (root j)) as [Hr|Hr].
      - exfalso. assert (at_layer h3 j kFree) as Hjf.
        { apply Hfree. rewrite <- root_spec. split; [|done]. destruct Hj as [(v & Hv & _)|(v & Hv & _)];
            rewrite <- (same_length _ _ Hs3); by eapply lookup_lt_Some. }
        destruct Hj as [Hj|Hj]; by pose proof (at_layer_unique _ _ _ _ Hjf Hj).
      - unfold root in Hr. apply not_Forall_Exists in Hr; [|apply _]. apply Exists_exists in Hr as (i & _ & Hi).
        exists i. by destruct (decide (edge g i j)). }
    destruct Hp as [i He]. exists i. split; [by rewrite (same_edge g h3)|apply Hno].
  - intros j Hj. pose proof Hj as Hjh. rewrite Hat3 in Hj. assert (Hr : ~ root j).
    { intros Hr. assert (at_layer h2 j kFree) as Hjf.
      { apply (f_free _ _ Hf2). split; [done|]. destruct Hj as (v & Hv & _).
        rewrite <- (same_length g h2) by apply Hf2. by eapply lookup_lt_Some. }
      by pose proof (at_layer_unique _ _ _ _ Hjf Hj). }
    unfold root in Hr. apply not_Forall_Exists in Hr; [|apply _]. apply Exists_exists in Hr as (i & _ & Hi).
    assert (He : edge g i j) by by destruct (decide (edge g i j)). exists i.
    split; [by rewrite (same_edge g h3)|]. intros [Ho|Ho]; [by apply Hno in Ho|]. apply Hfree in Ho as [Hlt Ho].
    rewrite <- root_spec in Ho. assert (Hs : at_layer h2 j kSecond).
    { apply (f_seen _ _ Hf2 i j); [|done|done]. right. apply lookup_lt_is_Some in Hlt as [w Hw'].
      exists (initially_free i w), w. split; [apply Hl; by exists i, w|]. split; [done|].
      unfold initially_free. by destruct (decide _). }
    by pose proof (at_layer_unique _ _ _ _ Hs Hj).
  - intros j v Hv [Hl'|[_ Hl']].
    + exfalso. apply (Hno j). by exists v.
    + by rewrite (Hfl3 j v Hv) in Hl'.
  - intros j v Hv Hl'. by rewrite (Hfl3 j v Hv) in Hl'.
Qed.
End Init.

(** C15: when all free tasks have been auctioned, [next] succeeds, moves exactly the free tasks to the scheduled layer
    and keeps the layers consistent (in particular: a task is free or scheduled exactly if all before it are
    scheduled); every task that is free afterwards is still to be auctioned, and starts at the finish of one of
    the tasks before it, and before none of them. *)
Theorem next_schedules g :
  wf g -> layered g -> Layers.areAllFreeTasksScheduled g = true ->
  exists g', Layers.next g = (Ok tt, g') /\ same_graph g g' /\ layered g' /\
    (forall i, at_layer g' i kScheduled <-> open_at g i) /\
    forall j v, vertices_ g' !! j = Some v -> layer v = kFree -> starts_after g' j v /\ scheduled v = false.
Proof. apply next_ok. Qed.

(** ** Rounds of auctions *)

(** What an auction that finds a winner for every auctionable task does to the graph: the finish times, the flags, and
    the next step. *)
Definition assign (finish : string -> Duration) (t : Task) : M LPG unit :=
  Layers.setLatestFinishTime (uuid_ t) (finish (uuid_ t));; Layers.setTaskScheduled (uuid_ t).
Definition auction_round (finish : string -> Duration) : M LPG unit :=
  g ← get;
  for_each (Layers.getAuctionableTasks g) (assign finish);;
  Layers.next.
Fixpoint rounds (finish : nat -> string -> Duration) (k : nat) : M LPG unit :=
  match k with
  | 0%nat => mret tt
  | S k => rounds finish k;; auction_round (finish k)
  end.

Lemma on_task_at g i v missing f :
  wf g -> vertices_ g !! i = Some v -> Layers.on_task (uuid_of v) missing f g = f i v g.
Proof.
  intros [_ Hn] Hi. unfold Layers.on_task. rewrite bind_get.
  destruct (find_index (Layers.has_uuid (uuid_of v)) (vertices_ g)) as [k|] eqn:Ek.
  - apply find_index_Some in Ek as (x & Hk & Hx & _). assert (k = i) as ->.
    { eapply NoDup_lookup; [exact Hn| |]; rewrite list_lookup_fmap; [rewrite Hk|rewrite Hi]; cbn; [reflexivity|].
      f_equal. by apply bool_decide_eq_true_1 in Hx. }
    by rewrite bind_lift, (vec_at_vertex _ _ _ Hi).
  - rewrite find_index_None in Ek. specialize (Ek v ltac:(by eapply list_elem_of_lookup_2)).
    unfold Layers.has_uuid in Ek. by rewrite bool_decide_true in Ek.
Qed.

(** The vertex of a task that found its winner. *)
Definition won (time : Duration) (v : LPCVertex) : LPCVertex := Vertex.set_scheduled (Vertex.set_latest_finish time v).

Lemma assign_at finish g i v :
  wf g -> vertices_ g !! i = Some v -> layer v = kFree ->
  assign finish (task v) g = (Ok tt, Graph.set_vertices (alter (won (finish (uuid_of v))) i (vertices_ g)) g).
Proof.
  intros Hw Hi Hf. unfold assign, Layers.setLatestFinishTime, Layers.setTaskScheduled.
  change (uuid_ (task v)) with (uuid_of v). unfold mbind, M_bind. rewrite (on_task_at g i v) by done.
  set (g' := Graph.set_vertices (alter (Vertex.set_latest_finish (finish (uuid_of v))) i (vertices_ g)) g).
  assert (Hs : same_graph g g') by by apply same_update.
  assert (Hi' : vertices_ g' !! i = Some (Vertex.set_latest_finish (finish (uuid_of v)) v)).
  { unfold g'. by rewrite lookup_update, decide_True, Hi. }
  unfold on_layer at 1. rewrite bool_decide_true by done. cbn -[Layers.on_task uuid_of]. fold g'.
  change (uuid_of v) with (uuid_of (Vertex.set_latest_finish (finish (uuid_of v)) v)) at 1.
  rewrite (on_task_at g' i) by (done || by eapply same_wf). unfold on_layer. cbn. rewrite bool_decide_true by done. cbn.
  unfold Layers.update, modify, g', Graph.set_vertices. cbn. by rewrite alter_alter.
Qed.

Lemma won_layered g i v time :
  layered g -> vertices_ g !! i = Some v -> layer v = kFree ->
  let g' := Graph.set_vertices (alter (won time) i (vertices_ g)) g in
  layered g' /\ forall k l, at_layer g' k l <-> at_layer g k l.
Proof.
  intros [] Hi Hf g'. assert (Hat : forall k l, at_layer g' k l <-> at_layer g k l).
  { intros k l. unfold g'. rewrite (at_layer_update _ _ v) by done. destruct (decide (k = i)) as [->|]; [|done].
    cbn. split; [intros <-; by exists v|]. intros (w & Hw & ?). congruence. }
  assert (Ho : forall k, open_at g' k <-> open_at g k) by (intros k; unfold open_at; by rewrite !Hat).
  assert (Hs : same_graph g g') by by apply same_update.
  split; [|done]. split.
  - intros k. by rewrite Hat.
  - intros k j. rewrite Ho, Hat, (same_edge g g') by done. apply l_done0.
  - intros j. rewrite !Hat. setoid_rewrite (same_edge g g'); [|done]. setoid_rewrite Hat. apply l_waits0.
  - intros j. rewrite !Hat. setoid_rewrite (same_edge g g'); [|done]. setoid_rewrite Ho. apply l_hidden0.
  - intros j w. unfold g'. rewrite lookup_update. destruct (decide (j = i)) as [->|]; [|apply l_finish0].
    rewrite Hi. intros [= <-] _. by eexists.
  - intros j w. unfold g'. rewrite lookup_update. destruct (decide (j = i)) as [->|]; [|apply l_flag0].
    rewrite Hi. intros [= <-] _. by right.
Qed.

Lemma assign_all finish g (l : list Task) h :
  wf g -> same_graph g h -> layered h -> (forall i k, at_layer h i k <-> at_layer g i k) ->
  (forall t, t ∈ l -> exists i v, vertices_ g !! i = Some v /\ layer v = kFree /\ task v = t) ->
  (forall i v, vertices_ h !! i = Some v -> layer v = kFree -> scheduled v = true \/ task v ∈ l) ->
  exists h', for_each l (assign finish) h = (Ok tt, h') /\ same_graph g h' /\ layered h' /\
    (forall i k, at_layer h' i k <-> at_layer g i k) /\ Layers.areAllFreeTasksScheduled h' = true.
Proof.
  intros Hw. revert h. induction l as [|t l IH]; intros h Hs Hl Hat Hin Hall; cbn [for_each].
  - exists h. split; [done|]. split; [done|]. split; [done|]. split; [done|].
    apply forallb_forall. intros v Hv. apply list_elem_of_In, list_elem_of_lookup_1 in Hv as [i Hv].
    unfold on_layer. case_bool_decide as Hf; [|done]. cbn. destruct (Hall i v Hv Hf) as [?|Hn]; [done|by apply elem_of_nil in Hn].
  - destruct (Hin t) as (i & v & Hv & Hf & Ht); [by left|].
    destruct (lookup_lt_is_Some_2 (vertices_ h) i) as [w Hwi].
    { rewrite (same_length _ _ Hs). by eapply lookup_lt_Some. }
    assert (Hfw : layer w = kFree).
    { assert (at_layer h i kFree) as (w' & ? & ?) by (apply Hat; by exists v). congruence. }
    assert (Htw : task w = t) by (destruct (same_task _ _ _ _ Hs Hwi) as (v' & ? & ?); congruence).
    set (h1 := Graph.set_vertices (alter (won (finish (uuid_of w))) i (vertices_ h)) h).
    destruct (won_layered h i w (finish (uuid_of w)) Hl Hwi Hfw) as [Hl1 Hat1]. fold h1 in Hl1, Hat1.
    destruct (IH h1) as (h' & Hfe & ?).
    + eapply same_graph_trans; [exact Hs|]. by apply same_update.
    + done.
    + intros j k. by rewrite Hat1.
    + intros t' Ht'. apply Hin. by right.
    + intros j u. unfold h1. rewrite lookup_update. destruct (decide (j = i)) as [->|Hne].
      * rewrite Hwi. intros [= <-] _. by left.
      * intros Hu Hfu. destruct (Hall j u Hu Hfu) as [?|[Heq|?]%elem_of_cons]; [by left| |by right]. exfalso. apply Hne.
        assert (Hwh : wf h) by (by eapply same_wf). destruct Hwh as [_ Hn].
        eapply NoDup_lookup; [exact Hn| |]; rewrite list_lookup_fmap; [rewrite Hu|rewrite Hwi]; cbn; [reflexivity|].
        unfold uuid_of. by rewrite Heq, Htw.
    + exists h'. split; [|done]. mred. rewrite <- Htw, (assign_at finish h i w) by (done || by eapply same_wf). done.
Qed.

Lemma auction_round_ok finish g :
  wf g -> layered g ->
  exists g', auction_round finish g = (Ok tt, g') /\ same_graph g g' /\ layered g' /\
    forall i, at_layer g' i kScheduled <-> open_at g i.
Proof.
  intros Hw Hl. destruct (assign_all finish g (Layers.getAuctionableTasks g) g) as (g1 & Hfe & Hs & Hl1 & Hat & Hall); try done.
  - intros t Ht. unfold Layers.getAuctionableTasks, Layers.getLayerVertices in Ht.
    apply list_elem_of_fmap in Ht as (v & -> & Hv). rewrite list_elem_of_In, filter_In, filter_In in Hv.
    destruct Hv as [[Hv Hf] _]. apply list_elem_of_In, list_elem_of_lookup_1 in Hv as [i Hv].
    exists i, v. split; [done|]. split; [by apply bool_decide_eq_true_1 in Hf|done].
  - intros i v Hv Hf. destruct (scheduled v) eqn:E; [by left|right]. apply list_elem_of_fmap_2.
    rewrite list_elem_of_In. unfold Layers.getLayerVertices. rewrite !filter_In. split; [split|by rewrite E].
    + apply list_elem_of_In. by eapply list_elem_of_lookup_2.
    + by apply bool_decide_eq_true_2.
  - destruct (next_ok g1) as (g' & Hn & Hs' & Hl' & Hd & _); [by eapply same_wf|done|done|].
    exists g'. unfold auction_round. rewrite bind_get. unfold mbind, M_bind. rewrite Hfe. split; [done|].
    split; [by eapply same_graph_trans|]. split; [done|]. intros i. rewrite Hd. unfold open_at. by rewrite !Hat.
Qed.

(** What a round does to tasks of one more depth. *)
Lemma depth_progress g g1 g' depth k :
  wf g -> same_graph g g1 -> layered g1 -> (forall i j, edge g i j -> (depth i < depth j)%nat) ->
  (forall i, (i < length (vertices_ g))%nat -> (depth i < k)%nat -> at_layer g1 i kScheduled) ->
  (forall i, at_layer g' i kScheduled <-> open_at g1 i) ->
  forall i, (i < length (vertices_ g))%nat -> (depth i < S k)%nat -> at_layer g' i kScheduled.
Proof.
  intros Hw Hs Hl1 Hd Hdone Hd' i Hi Hk. apply Hd'.
  assert (Hparents : forall p, edge g1 p i -> at_layer g1 p kScheduled).
  { intros p He. rewrite (same_edge g g1) in He by done. apply Hdone; [by apply edge_lt in He as [? _]|].
    apply Hd in He. lia. }
  destruct (lookup_lt_is_Some_2 (vertices_ g1) i) as [v Hv]; [by rewrite (same_length _ _ Hs)|].
  destruct (layer v) eqn:El.
  - right. by exists v.
  - destruct (l_waits g1 Hl1 i) as (p & He & Hn); [left; by exists v|]. by apply Hparents in He.
  - destruct (l_waits g1 Hl1 i) as (p & He & Hn); [right; by exists v|]. by apply Hparents in He.
  - left. by exists v.
  - exfalso. apply (l_none g1 Hl1 i). by exists v.
Qed.

Lemma rounds_progress finish g depth k :
  wf g -> layered g -> (forall i j, edge g i j -> (depth i < depth j)%nat) ->
  exists g', rounds finish k g = (Ok tt, g') /\ same_graph g g' /\ layered g' /\
    forall i, (i < length (vertices_ g))%nat -> (depth i < k)%nat -> at_layer g' i kScheduled.
Proof.
  intros Hw Hl Hd. induction k as [|k (g1 & Hr & Hs & Hl1 & Hdone)].
  - exists g. split; [done|]. split; [done|]. split; [done|]. lia.
  - destruct (auction_round_ok (finish k) g1) as (g' & Ha & Hs' & Hl' & Hd'); [by eapply same_wf|done|].
    exists g'. cbn [rounds]. unfold mbind, M_bind. rewrite Hr. split; [done|]. split; [by eapply same_graph_trans|].
    split; [done|]. by apply (depth_progress g g1 g' depth k).
Qed.

(** C24: without cycles every task is scheduled: on a fresh graph whose edges lead from smaller to greater depth, with
    all depths below [k], [initLayers] and [k] rounds of auctions succeed and leave all tasks scheduled, whatever the
    finish times. *)
Theorem all_tasks_scheduled finish g depth k :
  wf g -> (forall i v, vertices_ g !! i = Some v -> layer v = kNone /\ scheduled v = false) ->
  (forall i j, edge g i j -> (depth i < depth j)%nat) -> (forall i, (i < length (vertices_ g))%nat -> (depth i < k)%nat) ->
  exists g', (Layers.initLayers;; rounds finish k) g = (Ok tt, g') /\ same_graph g g' /\
    Layers.areAllTasksScheduled g' = true.
Proof.
  intros Hw Hfresh Hd Hk. destruct (initLayers_layered g Hw Hfresh) as (g1 & Hi & Hs & Hl & _).
  assert (Hd1 : forall i j, edge g1 i j -> (depth i < depth j)%nat) by (intros i j; rewrite (same_edge g g1) by done; apply Hd).
  assert (Hw1 : wf g1) by by eapply same_wf.
  destruct (rounds_progress finish g1 depth k Hw1 Hl Hd1) as (g' & Hr & Hs' & _ & Hdone).
  exists g'. unfold mbind, M_bind. rewrite Hi. split; [done|]. split; [by eapply same_graph_trans|].
  apply forallb_forall. intros v Hv. apply list_elem_of_In, list_elem_of_lookup_1 in Hv as [i Hv].
  apply (on_layer_at _ _ _ _ Hv). apply lookup_lt_Some in Hv. rewrite (same_length _ _ Hs') in Hv.
  apply Hdone; [done|]. apply Hk. by rewrite <- (same_length _ _ Hs).
Qed.

(** ** The graph of the constructor *)

Definition sample_task (u : string) : Task :=
  {| uuid_ := u; name_ := u; connection_string_ := "mf"; orders_ := []; follow_up_task_uuids_ := [];
     preceding_task_uuids_ := []; time_window_ := None;
     ability_requirement_ := Layers.test_ability kPackage |}.
Definition sample_graph : LPG := (Layers.test_graph (sample_task "1") (sample_task "2") (sample_task "3") Graph.empty).2.
Definition sample_finish : nat -> string -> Duration := fun k u => d_of_Z (if bool_decide (u = "2"%string) then 20 else 10).

Lemma sample_wf : wf sample_graph.
Proof.
  split; [|apply (bool_decide_unpack _); vm_compute; exact I].
  split; [reflexivity|]. apply (bool_decide_unpack _). vm_compute. exact I.
Qed.

(** The graph after its layers are set up and the first two tasks are auctioned. *)
Definition sample_auctioned : LPG :=
  ((Layers.initLayers;; assign (sample_finish 0) (sample_task "1");; assign (sample_finish 0) (sample_task "2"))
     sample_graph).2.

Lemma sample_auctioned_ok :
  wf sample_auctioned /\ layered sample_auctioned /\ Layers.areAllFreeTasksScheduled sample_auctioned = true.
Proof.
  assert (Hfresh : forall i v, vertices_ sample_graph !! i = Some v -> layer v = kNone /\ scheduled v = false).
  { intros [|[|[|i]]] v; vm_compute; intros [= <-]; done. }
  destruct (initLayers_layered sample_graph sample_wf Hfresh) as (g1 & Hi & Hs & Hl & _).
  assert (Hg1 : g1 = (Layers.initLayers sample_graph).2) by by rewrite Hi.
  assert (Hv1 : Layers.getAuctionableTasks g1 = [sample_task "1"; sample_task "2"]) by (rewrite Hg1; vm_compute; reflexivity).
  destruct (assign_all (sample_finish 0) g1 (Layers.getAuctionableTasks g1) g1) as (g2 & Ha & Hs2 & Hl2 & _ & Hall).
  - eapply same_wf; [apply sample_wf|done].
  - done.
  - done.
  - done.
  - intros t Ht. rewrite Hv1 in Ht. rewrite Hg1. apply elem_of_cons in Ht as [->|Ht%list_elem_of_singleton];
      [exists 0%nat|subst t; exists 1%nat]; eexists; vm_compute; split_and!; reflexivity.
  - intros i v Hv Hf. right. rewrite Hv1. rewrite Hg1 in Hv.
    destruct i as [|[|[|i]]]; vm_compute in Hv; try discriminate Hv; injection Hv as <-; try discriminate Hf; vm_compute; set_solver.
  - assert (g2 = sample_auctioned) as <-.
    { unfold sample_auctioned, mbind, M_bind. rewrite Hi. rewrite Hv1 in Ha. cbn [for_each] in Ha.
      unfold mbind, M_bind in Ha. destruct (assign _ (sample_task "1") g1) as [[]?]; cbn; try discriminate Ha.
      destruct (assign _ (sample_task "2") _) as [[[]| |]?]; try discriminate Ha. by injection Ha. }
    split; [|done]. eapply same_wf; [eapply same_wf; [apply sample_wf|exact Hs]|exact Hs2].
Qed.

Lemma next_schedules_witness :
  Layers.areAllTasksScheduled (Layers.next sample_auctioned).2 = false /\
  Layers.getEarliestValidStartTime "3" (Layers.next sample_auctioned).2 = Ok (d_of_Z 20) /\
  exists g', Layers.next sample_auctioned = (Ok tt, g') /\ same_graph sample_auctioned g' /\ layered g' /\
    (forall i, at_layer g' i kScheduled <-> open_at sample_auctioned i) /\
    forall j v, vertices_ g' !! j = Some v -> layer v = kFree -> starts_after g' j v /\ scheduled v = false.
Proof.
  split; [vm_compute; reflexivity|]. split; [vm_compute; reflexivity|].
  apply (next_schedules sample_auctioned); apply sample_auctioned_ok.
Defined.

Lemma all_tasks_scheduled_witness :
  Layers.areAllTasksScheduled ((Layers.initLayers;; rounds sample_finish 1) sample_graph).2 = false /\
  exists g', (Layers.initLayers;; rounds sample_finish 2) sample_graph = (Ok tt, g') /\ same_graph sample_graph g' /\
    Layers.areAllTasksScheduled g' = true.
Proof.
  split; [vm_compute; reflexivity|].
  apply (all_tasks_scheduled sample_finish sample_graph (fun i => if Nat.ltb i 2 then 0 else 1)%nat 2).
  - apply sample_wf.
  - intros [|[|[|i]]] v; vm_compute; intros [= <-]; done.
  - intros [|[|[|i]]] [|[|[|j]]] He; vm_compute in He; try discriminate He; vm_compute; lia.
  - intros [|[|[|i]]] _; vm_compute; lia.
Defined.
