(* ===== verification/Metrics.v ===== *)
(** * The metrics tasks are compared by

    Model of [cpps/logical/task_management/metrics.cpp] and [metrics_composition.h], and of the
    bids of [cpps/logical/message/auction_based/bid_submission.h] that are ordered by them. *)

From Stdlib Require Import SpecFloat.
From S2P Require Import Prelude TreeMapper RouteCalculation MaterialFlow.

(** [daisi::util::Distance] *)
Abbreviation Distance := double.

Definition d_gt (a b : double) : bool := d_lt b a.
Definition d_ge (a b : double) : bool := d_le b a.
(** [std::max] *)
Definition std_max (a b : double) : double := if d_lt a b then b else a.

Record Metrics := {
  empty_travel_time : Duration;
  loaded_travel_time : Duration;
  action_time : Duration;
  empty_travel_distance : Distance;
  loaded_travel_distance : Distance;
  start_up_time : Duration;
  makespan_ : Duration;
  start_time_ : Duration;
  start_time_set_ : bool;
  execution_start_time_ : Duration;
  execution_start_time_set_ : bool;
}.

Module Metric.
Definition construct (ett ltt at_ : Duration) (etd ltd : Distance) : Metrics :=
  {| empty_travel_time := ett; loaded_travel_time := ltt; action_time := at_;
     empty_travel_distance := etd; loaded_travel_distance := ltd; start_up_time := S754_zero false;
     makespan_ := S754_zero false; start_time_ := S754_zero false; start_time_set_ := false;
     execution_start_time_ := S754_zero false; execution_start_time_set_ := false |}.

(** [Metrics()] *)
Definition initial : Metrics :=
  construct (S754_zero false) (S754_zero false) (S754_zero false) (S754_zero false) (S754_zero false).

Definition isStartTimeSet (m : Metrics) : bool := start_time_set_ m.
Definition isExecutionStartTimeSet (m : Metrics) : bool := execution_start_time_set_ m.

Definition with_times (makespan start : Duration) (start_set : bool) (execution : Duration) (execution_set : bool)
    (m : Metrics) : Metrics :=
  {| empty_travel_time := empty_travel_time m; loaded_travel_time := loaded_travel_time m;
     action_time := action_time m; empty_travel_distance := empty_travel_distance m;
     loaded_travel_distance := loaded_travel_distance m; start_up_time := start_up_time m;
     makespan_ := makespan; start_time_ := start; start_time_set_ := start_set;
     execution_start_time_ := execution; execution_start_time_set_ := execution_set |}.

Definition set_start_up_time (t : Duration) (m : Metrics) : Metrics :=
  {| empty_travel_time := empty_travel_time m; loaded_travel_time := loaded_travel_time m;
     action_time := action_time m; empty_travel_distance := empty_travel_distance m;
     loaded_travel_distance := loaded_travel_distance m; start_up_time := t;
     makespan_ := makespan_ m; start_time_ := start_time_ m; start_time_set_ := start_time_set_ m;
     execution_start_time_ := execution_start_time_ m; execution_start_time_set_ := execution_start_time_set_ m |}.

Definition setMakespan (makespan : Duration) (m : Metrics) : outcome Metrics :=
  if negb (isStartTimeSet m) && negb (isExecutionStartTimeSet m)
  then Ok (with_times makespan (start_time_ m) (start_time_set_ m) (execution_start_time_ m) (execution_start_time_set_ m) m)
  else Throw (invalid_argument "makespan cannot be set if start_time_ is set").

Definition setStartTime (start_time : Duration) (m : Metrics) : outcome Metrics :=
  if negb (isExecutionStartTimeSet m)
  then Ok (with_times (makespan_ m) start_time true (execution_start_time_ m) (execution_start_time_set_ m) m)
  else Throw (invalid_argument "Execution start time is already set").

Definition setExecutionStartTime (execution_start_time : Duration) (m : Metrics) : outcome Metrics :=
  if negb (isStartTimeSet m)
  then Ok (with_times (makespan_ m) (start_time_ m) (start_time_set_ m) execution_start_time true m)
  else Throw (invalid_argument "Start time is already set").

Definition getTime (m : Metrics) : Duration :=
  d_add (d_add (empty_travel_time m) (loaded_travel_time m)) (action_time m).

Definition getExecutionTime (m : Metrics) : Duration :=
  d_sub (d_add (d_add (empty_travel_time m) (loaded_travel_time m)) (action_time m)) (start_up_time m).

Definition getDistance (m : Metrics) : Distance := d_add (empty_travel_distance m) (loaded_travel_distance m).

Definition getMakespan (m : Metrics) : outcome Duration :=
  if d_gt (makespan_ m) (S754_zero false) then Ok (makespan_ m)
  else if isExecutionStartTimeSet m then Ok (d_add (execution_start_time_ m) (getExecutionTime m))
  else if isStartTimeSet m then Ok (d_add (start_time_ m) (getTime m))
  else Throw (runtime_error "No makespan values are available.").

(** [operator-] and [operator+] *)
Definition minus (m other : Metrics) : outcome Metrics :=
  let diff := construct (d_sub (empty_travel_time m) (empty_travel_time other))
    (d_sub (loaded_travel_time m) (loaded_travel_time other)) (d_sub (action_time m) (action_time other))
    (d_sub (empty_travel_distance m) (empty_travel_distance other))
    (d_sub (loaded_travel_distance m) (loaded_travel_distance other)) in
  own ← getMakespan m;
  others ← getMakespan other;
  setMakespan (SFabs (d_sub own others)) diff.

Definition plus (m other : Metrics) : outcome Metrics :=
  let sum := construct (d_add (empty_travel_time m) (empty_travel_time other))
    (d_add (loaded_travel_time m) (loaded_travel_time other)) (d_add (action_time m) (action_time other))
    (d_add (empty_travel_distance m) (empty_travel_distance other))
    (d_add (loaded_travel_distance m) (loaded_travel_distance other)) in
  own ← getMakespan m;
  others ← getMakespan other;
  setMakespan (std_max own others) sum.

Definition utility_function_ (m : Metrics) : double := SFopp (empty_travel_time m).

Definition lt (lhs rhs : Metrics) : bool := d_lt (utility_function_ lhs) (utility_function_ rhs).
Definition le (lhs rhs : Metrics) : bool := d_le (utility_function_ lhs) (utility_function_ rhs).
Definition gt (lhs rhs : Metrics) : bool := d_gt (utility_function_ lhs) (utility_function_ rhs).
Definition ge (lhs rhs : Metrics) : bool := d_ge (utility_function_ lhs) (utility_function_ rhs).
Definition eq (lhs rhs : Metrics) : bool := d_eq (utility_function_ lhs) (utility_function_ rhs).
Definition neq (lhs rhs : Metrics) : bool := negb (d_eq (utility_function_ lhs) (utility_function_ rhs)).
End Metric.

Record MetricsComposition := {
  current_metrics_ : Metrics;
  insertion_metrics_ : Metrics;
  insertion_metrics_set_ : bool;
  diff_insertion_metrics_ : Metrics;
  diff_insertion_metrics_set_ : bool;
}.

Module Composition.
(** [MetricsComposition()] and the constructors from one and three metrics. *)
Definition initial : MetricsComposition :=
  {| current_metrics_ := Metric.initial; insertion_metrics_ := Metric.initial; insertion_metrics_set_ := false;
     diff_insertion_metrics_ := Metric.initial; diff_insertion_metrics_set_ := false |}.
Definition of_current (current : Metrics) : MetricsComposition :=
  {| current_metrics_ := current; insertion_metrics_ := current; insertion_metrics_set_ := false;
     diff_insertion_metrics_ := current; diff_insertion_metrics_set_ := false |}.
Definition of_metrics (current insertion diff : Metrics) : MetricsComposition :=
  {| current_metrics_ := current; insertion_metrics_ := insertion; insertion_metrics_set_ := true;
     diff_insertion_metrics_ := diff; diff_insertion_metrics_set_ := true |}.

Definition getMetricsForAuction (c : MetricsComposition) : Metrics := diff_insertion_metrics_ c.
Definition hasDiffInsertionMetrics (c : MetricsComposition) : bool := diff_insertion_metrics_set_ c.

Definition updateCurrentMetrics (m : Metrics) (c : MetricsComposition) : MetricsComposition :=
  {| current_metrics_ := m; insertion_metrics_ := insertion_metrics_ c;
     insertion_metrics_set_ := insertion_metrics_set_ c; diff_insertion_metrics_ := diff_insertion_metrics_ c;
     diff_insertion_metrics_set_ := diff_insertion_metrics_set_ c |}.

Definition setDiffInsertionMetrics (m : Metrics) (c : MetricsComposition) : outcome MetricsComposition :=
  if negb (diff_insertion_metrics_set_ c)
  then Ok {| current_metrics_ := current_metrics_ c; insertion_metrics_ := insertion_metrics_ c;
             insertion_metrics_set_ := insertion_metrics_set_ c; diff_insertion_metrics_ := m;
             diff_insertion_metrics_set_ := true |}
  else Throw (logic_error "diff insertion metrics already set").

Definition fixInsertionMetrics (c : MetricsComposition) : outcome MetricsComposition :=
  if negb (insertion_metrics_set_ c)
  then Ok {| current_metrics_ := current_metrics_ c; insertion_metrics_ := current_metrics_ c;
             insertion_metrics_set_ := true; diff_insertion_metrics_ := diff_insertion_metrics_ c;
             diff_insertion_metrics_set_ := diff_insertion_metrics_set_ c |}
  else Throw (logic_error "insertion metrics already set").

Definition lt (a b : MetricsComposition) : bool := Metric.lt (getMetricsForAuction a) (getMetricsForAuction b).
Definition le (a b : MetricsComposition) : bool := Metric.le (getMetricsForAuction a) (getMetricsForAuction b).
Definition gt (a b : MetricsComposition) : bool := Metric.gt (getMetricsForAuction a) (getMetricsForAuction b).
Definition ge (a b : MetricsComposition) : bool := Metric.ge (getMetricsForAuction a) (getMetricsForAuction b).
Definition eq (a b : MetricsComposition) : bool := Metric.eq (getMetricsForAuction a) (getMetricsForAuction b).
Definition neq (a b : MetricsComposition) : bool := Metric.neq (getMetricsForAuction a) (getMetricsForAuction b).

(** [operator-] *)
Definition minus (a b : MetricsComposition) : outcome MetricsComposition :=
  diff ← Metric.minus (current_metrics_ a) (current_metrics_ b);
  mret (of_metrics (current_metrics_ a) (insertion_metrics_ a) diff).
End Composition.

(** ** Bids *)

Record BidSubmission := {
  bid_task_uuid : string;
  bid_participant_connection : string;
  bid_participant_ability : AmrStaticAbility;
  bid_metrics_composition : MetricsComposition;
}.

(** [std::string::operator>]: lexicographic on the characters. *)
Fixpoint string_gt (a b : string) : bool :=
  match a, b with
  | String x a', String y b' =>
      if Nat.ltb (nat_of_ascii y) (nat_of_ascii x) then true
      else if Nat.ltb (nat_of_ascii x) (nat_of_ascii y) then false
      else string_gt a' b'
  | String _ _, EmptyString => true
  | EmptyString, _ => false
  end.

Module Bid.
(** [operator>] *)
Definition gt (b other : BidSubmission) : bool :=
  if Composition.neq (bid_metrics_composition b) (bid_metrics_composition other)
  then Composition.gt (bid_metrics_composition b) (bid_metrics_composition other)
  else if Ability.neqb (bid_participant_ability b) (bid_participant_ability other)
  then Ability.lt (bid_participant_ability b) (bid_participant_ability other)
  else string_gt (bid_participant_connection b) (bid_participant_connection other).
End Bid.

(** ** [std::sort]

    Its comparison must be a strict weak order on the elements; otherwise the behaviour is undefined. *)
Section Sort.
Context {A : Type} (before : A -> A -> bool).

Definition weak_order (l : list A) : bool :=
  let same a b := negb (before a b) && negb (before b a) in
  forallb (fun a => negb (before a a) &&
    forallb (fun b => forallb (fun c =>
      (negb (before a b && before b c) || before a c) && (negb (same a b && same b c) || same a c)) l) l) l.

Definition sorted_by (l : list A) : outcome (list A) :=
  if weak_order l then Ok (std_sort before l) else Undefined.
End Sort.

(** ** Properties *)

Section SortProperties.
Context {A : Type} (before : A -> A -> bool).
Implicit Types (l : list A).

Lemma weak_order_spec l :
  weak_order before l = true <->
  (forall a, a ∈ l -> before a a = false) /\
  (forall a b c, a ∈ l -> b ∈ l -> c ∈ l -> before a b = true -> before b c = true -> before a c = true) /\
  (forall a b c, a ∈ l -> b ∈ l -> c ∈ l -> before a b = false -> before b a = false -> before b c = false ->
     before c b = false -> before a c = false /\ before c a = false).
Proof.
  unfold weak_order. rewrite forallb_forall. setoid_rewrite andb_true_iff. setoid_rewrite forallb_forall.
  setoid_rewrite forallb_forall. setoid_rewrite <- list_elem_of_In. split.
  - intros H. split; [|split].
    + intros a Ha. by apply negb_true_iff, H.
    + intros a b c Ha Hb Hc Hab Hbc. specialize (proj2 (H a Ha) b Hb c Hc). rewrite Hab, Hbc. cbn.
      by intros [? _]%andb_prop.
    + intros a b c Ha Hb Hc Hab Hba Hbc Hcb. specialize (proj2 (H a Ha) b Hb c Hc). rewrite Hab, Hba, Hbc, Hcb. cbn.
      intros [? ?]%andb_prop. by rewrite !negb_true_iff in *.
  - intros (Hi & Ht & Hs) a Ha. split; [apply negb_true_iff; auto|]. intros b Hb c Hc.
    destruct (before a b) eqn:Eab, (before b c) eqn:Ebc, (before b a) eqn:Eba, (before c b) eqn:Ecb,
      (before a c) eqn:Eac, (before c a) eqn:Eca; try done;
      try (by rewrite (Ht a b c) in Eac); by destruct (Hs a b c Ha Hb Hc Eab Eba Ebc Ecb) as [? ?]; congruence.
Qed.

Lemma weak_order_incl l k : (forall a, a ∈ k -> a ∈ l) -> weak_order before l = true -> weak_order before k = true.
Proof.
  intros Hin (Hi & Ht & Hs)%weak_order_spec. apply weak_order_spec. split; [auto|]. split; [eauto|].
  intros a b c Ha Hb Hc. apply Hs; auto.
Qed.

(** The front of a sorted range: no element comes before it. *)
Lemma sort_front l :
  weak_order before l = true ->
  match std_sort before l with
  | [] => l = []
  | a :: _ => a ∈ l /\ forall y, y ∈ l -> before y a = false
  end.
Proof.
  induction l as [|x l IH]; intros Hw; [done|].
  assert (Hwl : weak_order before l = true) by (eapply weak_order_incl; [|exact Hw]; by right).
  specialize (IH Hwl). apply weak_order_spec in Hw as (Hi & Ht & _). cbn [std_sort foldr].
  change (foldr (sort_insert before) [] l) with (std_sort before l).
  destruct (std_sort before l) as [|h t] eqn:Es; cbn [sort_insert].
  - subst l. split; [by left|]. intros y ->%list_elem_of_singleton. apply Hi. by left.
  - destruct IH as [Hh Hmin]. assert (x ∈ x :: l) by by left. assert (h ∈ x :: l) by by right.
    destruct (before x h) eqn:Exh.
    + split; [done|]. intros y [->|Hy]%elem_of_cons; [by apply Hi|]. apply not_true_iff_false. intros Hyx.
      assert (y ∈ x :: l) by by right. pose proof (Hmin y Hy) as Hf. by rewrite (Ht y x h) in Hf.
    + split; [done|]. intros y [->|Hy]%elem_of_cons; [done|by apply Hmin].
Qed.

Lemma sorted_by_spec l k :
  sorted_by before l = Ok k ->
  k ≡ₚ l /\ match k with [] => l = [] | a :: _ => a ∈ l /\ forall y, y ∈ l -> before y a = false end.
Proof.
  unfold sorted_by. destruct (weak_order before l) eqn:Hw; [|done]. intros [= <-].
  split; [apply std_sort_Permutation|by apply sort_front].
Qed.
End SortProperties.

(** *** Comparing by metrics *)

(** The number a composition is compared by. *)
Definition auction_value (c : MetricsComposition) : double := Metric.utility_function_ (Composition.getMetricsForAuction c).

Lemma d_eq_key a b : is_nan a = false -> is_nan b = false -> d_eq a b = true <-> d_key a = d_key b.
Proof.
  unfold d_eq, SFeqb. destruct a as [[]|[]| |[] m e], b as [[]|[]| |[] m' e']; intros Ha Hb; try done;
    cbn [SFcompare d_key]; try (split; [done|congruence]); change (Pos.compare_cont Eq m m') with (Pos.compare m m');
    change (Pos.compare_cont Eq m' m) with (Pos.compare m' m);
    destruct (Z.compare_spec e e'), (Pos.compare_spec m m'); subst; cbn;
    split; intros H'; try done; try congruence; try (injection H' as ?; lia); try (injection H' as ? ?; lia).
Qed.

Lemma d_eq_numbers a b : is_nan a = false -> is_nan b = false -> d_eq a b = true <-> d_lt a b = false /\ d_lt b a = false.
Proof.
  intros Ha Hb. rewrite d_eq_key by done. rewrite <- !not_true_iff_false, !d_lt_key by done. split.
  - intros ->. split; apply key_lt_irrefl.
  - destruct (key_lt_total (d_key a) (d_key b)) as [?|[?|?]]; tauto.
Qed.

Lemma string_gt_irrefl a : string_gt a a = false.
Proof. induction a as [|x a IH]; [done|]. cbn -[Nat.ltb]. by rewrite Nat.ltb_irrefl. Qed.

Lemma string_gt_cases x a y b :
  string_gt (String x a) (String y b) = true <->
  (nat_of_ascii y < nat_of_ascii x)%nat \/ x = y /\ string_gt a b = true.
Proof.
  cbn -[Nat.ltb]. destruct (Nat.ltb_spec (nat_of_ascii y) (nat_of_ascii x)) as [H|H].
  - split; [by left|done].
  - destruct (Nat.ltb_spec (nat_of_ascii x) (nat_of_ascii y)) as [H'|H'].
    + split; [done|]. intros [?|[-> _]]; lia.
    + assert (x = y) as -> by (rewrite <- (ascii_nat_embedding x), <- (ascii_nat_embedding y); f_equal; lia).
      split; [by right|]. intros [?|[_ ?]]; [lia|done].
Qed.

Lemma string_gt_trans a b c : string_gt a b = true -> string_gt b c = true -> string_gt a c = true.
Proof.
  revert b c. induction a as [|x a IH]; intros [|y b] [|z c]; try done. rewrite !string_gt_cases.
  intros [H|[-> H]] [H'|[-> H']]; [left; lia|by left|by left|right; split; [done|by eapply IH]].
Qed.

Lemma string_gt_total a b : string_gt a b = false -> string_gt b a = false -> a = b.
Proof.
  revert b. induction a as [|x a IH]; intros [|y b]; try done. rewrite <- !not_true_iff_false, !string_gt_cases.
  intros H1 H2. assert (x = y) as ->.
  { rewrite <- (ascii_nat_embedding x), <- (ascii_nat_embedding y). f_equal.
    destruct (Nat.lt_trichotomy (nat_of_ascii x) (nat_of_ascii y)) as [?|[?|?]]; [exfalso; tauto|done|exfalso; tauto]. }
  f_equal. apply IH; apply not_true_iff_false; tauto.
Qed.

(** Bids for one kind of vehicle: the better metrics, then the greater connection. *)
Lemma bid_gt_spec b1 b2 :
  is_nan (auction_value (bid_metrics_composition b1)) = false -> is_nan (auction_value (bid_metrics_composition b2)) = false ->
  Ability.neqb (bid_participant_ability b1) (bid_participant_ability b2) = false ->
  Bid.gt b1 b2 = true <->
    d_lt (auction_value (bid_metrics_composition b2)) (auction_value (bid_metrics_composition b1)) = true \/
    d_eq (auction_value (bid_metrics_composition b1)) (auction_value (bid_metrics_composition b2)) = true /\
    string_gt (bid_participant_connection b1) (bid_participant_connection b2) = true.
Proof.
  intros H1 H2 Ha. unfold Bid.gt, Composition.neq, Composition.gt, Metric.neq, Metric.gt, d_gt. rewrite Ha.
  fold (auction_value (bid_metrics_composition b1)) (auction_value (bid_metrics_composition b2)).
  destruct (d_eq (auction_value (bid_metrics_composition b1)) (auction_value (bid_metrics_composition b2))) eqn:E; cbn [negb].
  - apply d_eq_numbers in E as [_ ->]; [|done..]. split; [tauto|]. by intros [?|[_ ?]].
  - split; [tauto|]. by intros [?|[? _]].
Qed.

Definition comparable (bids : list BidSubmission) : Prop :=
  (forall b, b ∈ bids -> is_nan (auction_value (bid_metrics_composition b)) = false) /\
  forall b1 b2, b1 ∈ bids -> b2 ∈ bids -> Ability.neqb (bid_participant_ability b1) (bid_participant_ability b2) = false.

(** Bids of vehicles of one kind can be sorted. *)
Lemma comparable_weak_order bids : comparable bids -> weak_order Bid.gt bids = true.
Proof.
  intros [Hn Ha]. set (v := fun b => d_key (auction_value (bid_metrics_composition b))).
  set (c := bid_participant_connection).
  assert (Hgt : forall a b, a ∈ bids -> b ∈ bids ->
    Bid.gt a b = true <-> key_lt (v b) (v a) \/ v a = v b /\ string_gt (c a) (c b) = true).
  { intros a b Hina Hinb. rewrite bid_gt_spec by auto. rewrite d_lt_key, d_eq_key by auto. done. }
  apply weak_order_spec. split; [|split].
  - intros a Hia. apply not_true_iff_false. rewrite Hgt by done. rewrite string_gt_irrefl. intros [H|[_ ?]]; [|done].
    by apply key_lt_irrefl in H.
  - intros a b d Hia Hib Hid. rewrite !Hgt by done. intros [H|[H Hs]] [H'|[H' Hs']].
    + left. by eapply key_lt_trans.
    + left. by rewrite <- H'.
    + left. by rewrite H.
    + right. split; [congruence|by eapply string_gt_trans].
  - assert (Heq : forall a b, a ∈ bids -> b ∈ bids -> Bid.gt a b = false -> Bid.gt b a = false -> v a = v b /\ c a = c b).
    { intros a b Hia Hib. rewrite <- !not_true_iff_false, !Hgt by done. intros H1 H2.
      destruct (key_lt_total (v a) (v b)) as [?|[E|?]]; [tauto| |tauto]. split; [done|].
      apply string_gt_total; apply not_true_iff_false; intros ?; [apply H1|apply H2]; right; split; congruence. }
    intros a b d Hia Hib Hid Hab Hba Hbd Hdb. destruct (Heq a b Hia Hib Hab Hba) as [Hv1 Hc1], (Heq b d Hib Hid Hbd Hdb) as [Hv2 Hc2].
    rewrite <- !not_true_iff_false, !Hgt by done. rewrite Hv1, Hc1, Hv2, Hc2, string_gt_irrefl.
    split; (intros [H|[_ ?]]; [by apply key_lt_irrefl in H|done]).
Qed.

(** Bids of equal metrics by two vehicles of one kind and one of another are not ordered consistently. *)
Definition tied_bid (connection : string) (carrier : LoadCarrier) : BidSubmission :=
  {| bid_task_uuid := "task"; bid_participant_connection := connection;
     bid_participant_ability := {| load_carrier_ := carrier; max_payload_weight_kg_ := d_of_Z 20 |};
     bid_metrics_composition := Composition.initial |}.

Lemma tied_bids_not_ordered :
  sorted_by Bid.gt [tied_bid "a" kPackage; tied_bid "b" kEuroBox; tied_bid "c" kPackage] = Undefined.
Proof. vm_compute. reflexivity. Qed.
