(* ===== verification/Auction.v ===== *)
(** * The auction of a material flow: the initiator

    Model of [cpps/logical/algorithms/assignment]: the state of an auction
    ([auction_initiator_state.cpp]) and the initiator that runs it
    ([iterated_auction_assignment_initiator.cpp]), with the messages of
    [cpps/logical/message/auction_based] and the scheduler of a material flow
    ([material_flow/model/material_flow.cpp]). What is sent and scheduled is kept in the state;
    UUIDs of messages, which are only logged, are left out. *)

From Stdlib Require Import SpecFloat.
From S2P Require Import Prelude TreeMapper RouteCalculation Graph MaterialFlow Precedence Metrics.

(** ** Messages *)

Record CallForProposal := { cfp_initiator_connection : string; cfp_tasks : list Task }.
Record IterationNotification := { in_initiator_connection : string; in_task_uuids : list string }.
Record WinnerNotification := {
  wn_task_uuid : string;
  wn_initiator_connection : string;
  wn_latest_finish_time : Duration;
}.
Record WinnerResponse := { wr_task_uuid : string; wr_participant_connection : string; wr_accept : bool }.

Inductive AuctionMessage :=
| call_for_proposal (m : CallForProposal)
| bid_submission (m : BidSubmission)
| iteration_notification (m : IterationNotification)
| winner_notification (m : WinnerNotification)
| winner_response (m : WinnerResponse).

(** What leaves a node: to a topic or to a connection. *)
Inductive Sent :=
| Published (topic : string) (m : AuctionMessage)
| SentTo (connection : string) (m : AuctionMessage).

(** ** [AuctionInitiatorState] *)

Record Winner := { task_uuid : string; winner_connection : string; latest_finish_time : Duration }.

Record AuctionInitiatorState := {
  bid_submissions_ : list BidSubmission;
  winner_acceptions_ : list WinnerResponse;
  no_bid_submissions_counter_ : Z;
  no_winner_acceptions_counter_ : Z;
}.

Module Bids.
Abbreviation State := AuctionInitiatorState.

Definition initial : State :=
  {| bid_submissions_ := []; winner_acceptions_ := []; no_bid_submissions_counter_ := 0;
     no_winner_acceptions_counter_ := 0 |}.
Definition set_bids (l : list BidSubmission) (s : State) : State :=
  {| bid_submissions_ := l; winner_acceptions_ := winner_acceptions_ s;
     no_bid_submissions_counter_ := no_bid_submissions_counter_ s;
     no_winner_acceptions_counter_ := no_winner_acceptions_counter_ s |}.
Definition set_acceptions (l : list WinnerResponse) (s : State) : State :=
  {| bid_submissions_ := bid_submissions_ s; winner_acceptions_ := l;
     no_bid_submissions_counter_ := no_bid_submissions_counter_ s;
     no_winner_acceptions_counter_ := no_winner_acceptions_counter_ s |}.
Definition set_bid_counter (n : Z) (s : State) : State :=
  {| bid_submissions_ := bid_submissions_ s; winner_acceptions_ := winner_acceptions_ s;
     no_bid_submissions_counter_ := n; no_winner_acceptions_counter_ := no_winner_acceptions_counter_ s |}.
Definition set_winner_counter (n : Z) (s : State) : State :=
  {| bid_submissions_ := bid_submissions_ s; winner_acceptions_ := winner_acceptions_ s;
     no_bid_submissions_counter_ := no_bid_submissions_counter_ s; no_winner_acceptions_counter_ := n |}.

Definition removeBidsForTask (bids : list BidSubmission) (uuid : string) : list BidSubmission :=
  List.filter (fun bid => negb (bool_decide (bid_task_uuid bid = uuid))) bids.

Definition removeBidsForWinner (bids : list BidSubmission) (uuid connection : string) : list BidSubmission :=
  List.filter (fun bid =>
    negb (bool_decide (bid_task_uuid bid = uuid) && bool_decide (bid_participant_connection bid = connection))) bids.

Definition removeBidsWhichMeetAbilityRequirement (bids : list BidSubmission) (requirement : AmrStaticAbility)
    : list BidSubmission :=
  List.filter (fun bid => negb (Ability.le requirement (bid_participant_ability bid))) bids.

Definition addBidSubmission (bid : BidSubmission) : M State unit :=
  modify (fun s => set_bids (bid_submissions_ s ++ [bid]) s).

Definition addWinnerResponse (response : WinnerResponse) : M State unit :=
  if wr_accept response then modify (fun s => set_acceptions (winner_acceptions_ s ++ [response]) s)
  else modify (fun s => set_bids
    (removeBidsForWinner (bid_submissions_ s) (wr_task_uuid response) (wr_participant_connection response)) s).

(** The tasks are looked up in the graph. *)
Fixpoint accepted_tasks (winners : list WinnerResponse) (g : LayeredPrecedenceGraph) : M State (list Task) :=
  match winners with
  | [] => mret []
  | winner :: rest =>
      auctioned_task ← lift (Layers.getTask (wr_task_uuid winner) g);
      modify (fun s => set_bids (removeBidsForTask (bid_submissions_ s) (wr_task_uuid winner)) s);;
      tasks ← accepted_tasks rest g;
      mret (auctioned_task :: tasks)
  end.

Definition processWinnerAcceptions (g : LayeredPrecedenceGraph) : M State (list Task) :=
  s ← get;
  auctioned_tasks ← accepted_tasks (winner_acceptions_ s) g;
  modify (set_acceptions []);;
  mret auctioned_tasks.

Definition countWinnerResponseProcessing : M State unit :=
  s ← get;
  match winner_acceptions_ s with
  | _ :: _ => modify (set_winner_counter 0)
  | [] =>
      let n := u8 (no_winner_acceptions_counter_ s + 1) in
      modify (set_winner_counter n);;
      throw_if (100 <=? n) (runtime_error "No winner acceptions.")
  end.

Definition countBidSubmissionProcessing : M State unit :=
  s ← get;
  match bid_submissions_ s with
  | _ :: _ => modify (set_bid_counter 0)
  | [] =>
      let n := u8 (no_bid_submissions_counter_ s + 1) in
      modify (set_bid_counter n);;
      throw_if (5 <=? n) (runtime_error "No bid submissions.")
  end.

(** One pass of the loop of [selectWinner]: the best bid of those left, and the bids for other tasks. *)
Definition auctionable (uuid : string) (g : LayeredPrecedenceGraph) : outcome bool :=
  free ← Layers.isTaskFree uuid g;
  if (free : bool) then scheduled ← Layers.isFreeTaskScheduled uuid g; mret (negb scheduled) else mret false.

Definition award (best_bid : BidSubmission) : M LayeredPrecedenceGraph (list Winner) :=
  let uuid := bid_task_uuid best_bid in
  g ← get;
  open ← lift (auctionable uuid g);
  if (open : bool) then
    finish ← lift (Metric.getMakespan (current_metrics_ (bid_metrics_composition best_bid)));
    Layers.setLatestFinishTime uuid finish;;
    Layers.setTaskScheduled uuid;;
    mret [{| task_uuid := uuid; winner_connection := bid_participant_connection best_bid;
             latest_finish_time := finish |}]
  else mret [].

(** [while (!temp_bids.empty())]; each pass removes at least the best bid. *)
Fixpoint select (fuel : nat) (temp_bids : list BidSubmission) : M LayeredPrecedenceGraph (list Winner) :=
  match fuel with
  | O => mret []
  | S fuel =>
      sorted ← lift (sorted_by Bid.gt temp_bids);
      match sorted with
      | [] => mret []
      | best_bid :: _ =>
          let rest := removeBidsForTask sorted (bid_task_uuid best_bid) in
          winner ← award best_bid;
          winners ← select fuel rest;
          mret (winner ++ winners)
      end
  end.

Definition selectWinner (bids : list BidSubmission) : M LayeredPrecedenceGraph (list Winner) :=
  select (length bids) bids.

Definition clearIterationInfo (s : State) : State := set_acceptions [] (set_bids [] s).
Definition clearWinnerAcceptions (s : State) : State := set_acceptions [] (set_bids [] s).
End Bids.

(** ** [MFDLScheduler] *)
Module Scheduler.
Definition addTask (t : Task) : M (list Task) unit := modify (fun tasks_ => tasks_ ++ [t]).

(** A failed [assert] ends the program. *)
Definition processOrderUpdate (t : Task) (order_index : Z) (order_state : OrderStates) : M (list Task) unit :=
  tasks_ ← get;
  match find_index (fun x => TaskOf.eqb x t) tasks_ with
  | None => lift Undefined
  | Some i =>
      x ← lift (vec_at tasks_ i);
      match TaskOf.setOrderState order_index order_state x with
      | (Ok _, x') => modify (<[i := x']>)
      | (Throw e, x') => modify (<[i := x']>);; throw e
      | (Undefined, _) => lift Undefined
      end
  end.

(** [std::get<TransportOrder>] *)
Definition order_finished (o : Order) : outcome bool :=
  match o with
  | transport_order t => Ok (match to_state t with kFinished_ => true | _ => false end)
  | _ => Throw (logic_error "std::bad_variant_access")
  end.
Fixpoint all_of {A} (p : A -> outcome bool) (l : list A) : outcome bool :=
  match l with
  | [] => mret true
  | x :: l => b ← p x; if (b : bool) then all_of p l else mret false
  end.
Definition isFinished (tasks_ : list Task) : outcome bool := all_of (fun t => all_of order_finished (orders_ t)) tasks_.
End Scheduler.

(** ** [IteratedAuctionAssignmentInitiator] *)

(** The member functions the initiator has the simulator call later. *)
Inductive Event := kBidProcessing | kWinnerResponseProcessing | kSetPreparationFinished | kSubscribeTopic (topic : string).

(** The graph and the auction state, which exist together while a material flow is processed. *)
Record Process := { layered_precedence_graph_ : LayeredPrecedenceGraph; auction_initiator_state_ : AuctionInitiatorState }.

Record InitiatorState := {
  process_ : option Process;
  material_flow_ : list Task;
  ability_topic_mapping_ : list (AmrStaticAbility * string);
  preparation_finished_ : bool;
  scheduled_ : list (Duration * Event);
  sent_ : list Sent;
}.

Module Initiator.
Section Initiator.
(** The connection of the node, the fleet, and the text of a static ability as a stream prints it. *)
Variable connection : string.
Context {AmrKinematics : Type}.
Variable fleet : list (AmrStaticAbility * AmrKinematics).
Variable printed : AmrStaticAbility -> string.
Abbreviation I := InitiatorState.

Definition set_process (p : option Process) (s : I) : I :=
  {| process_ := p; material_flow_ := material_flow_ s; ability_topic_mapping_ := ability_topic_mapping_ s;
     preparation_finished_ := preparation_finished_ s; scheduled_ := scheduled_ s; sent_ := sent_ s |}.
Definition set_material_flow (l : list Task) (s : I) : I :=
  {| process_ := process_ s; material_flow_ := l; ability_topic_mapping_ := ability_topic_mapping_ s;
     preparation_finished_ := preparation_finished_ s; scheduled_ := scheduled_ s; sent_ := sent_ s |}.
Definition set_topics (l : list (AmrStaticAbility * string)) (s : I) : I :=
  {| process_ := process_ s; material_flow_ := material_flow_ s; ability_topic_mapping_ := l;
     preparation_finished_ := preparation_finished_ s; scheduled_ := scheduled_ s; sent_ := sent_ s |}.
Definition setPreparationFinished : M I unit :=
  modify (fun s =>
    {| process_ := process_ s; material_flow_ := material_flow_ s; ability_topic_mapping_ := ability_topic_mapping_ s;
       preparation_finished_ := true; scheduled_ := scheduled_ s; sent_ := sent_ s |}).
Definition schedule (delay : Duration) (e : Event) : M I unit :=
  modify (fun s =>
    {| process_ := process_ s; material_flow_ := material_flow_ s; ability_topic_mapping_ := ability_topic_mapping_ s;
       preparation_finished_ := preparation_finished_ s; scheduled_ := scheduled_ s ++ [(delay, e)]; sent_ := sent_ s |}).
Definition emit (m : Sent) : M I unit :=
  modify (fun s =>
    {| process_ := process_ s; material_flow_ := material_flow_ s; ability_topic_mapping_ := ability_topic_mapping_ s;
       preparation_finished_ := preparation_finished_ s; scheduled_ := scheduled_ s; sent_ := sent_ s ++ [m] |}).

(** Through the pointers, which are null while no material flow is processed. *)
Definition in_process {A} (m : M Process A) : M I A := fun s =>
  match process_ s with
  | None => (Undefined, s)
  | Some p => let (r, p') := m p in (r, set_process (Some p') s)
  end.
Definition on_graph {A} (m : M LayeredPrecedenceGraph A) : M I A :=
  in_process (zoom layered_precedence_graph_
    (fun g p => {| layered_precedence_graph_ := g; auction_initiator_state_ := auction_initiator_state_ p |}) m).
Definition on_auction {A} (m : M AuctionInitiatorState A) : M I A :=
  in_process (zoom auction_initiator_state_
    (fun a p => {| layered_precedence_graph_ := layered_precedence_graph_ p; auction_initiator_state_ := a |}) m).

(** [delays_]: 0.1, 0.7 and 0.3 seconds *)
Definition subscribe_topic : Duration := d_div (d_of_Z 1) (d_of_Z 10).
Definition waiting_to_receive_bids : Duration := d_div (d_of_Z 7) (d_of_Z 10).
Definition waiting_to_receive_winner_responses : Duration := d_div (d_of_Z 3) (d_of_Z 10).

(** [AmrFleet::getTopicForAbility] *)
Definition getTopicForAbility (ability : AmrStaticAbility) : string := String.append "topic" (printed ability).

(** An [unordered_map] by ability: entries in the order of their insertion. *)
Fixpoint update_ability {B} (default : B) (f : B -> B) (ability : AmrStaticAbility) (m : list (AmrStaticAbility * B))
    : list (AmrStaticAbility * B) :=
  match m with
  | [] => [(ability, f default)]
  | (a, b) :: m => if Ability.eqb a ability then (a, f b) :: m else (a, b) :: update_ability default f ability m
  end.

(** [ability_topic_mapping_[ability]] *)
Definition topic_for (ability : AmrStaticAbility) : M I string :=
  modify (fun s => set_topics (update_ability EmptyString id ability (ability_topic_mapping_ s)) s);;
  s ← get;
  mret (match List.find (fun e => Ability.eqb e.1 ability) (ability_topic_mapping_ s) with
        | Some e => e.2 | None => EmptyString end).

Definition prepareInteraction : M I Duration :=
  let fix subscribe (abilities : list AmrStaticAbility) (topic_counter : Z) : M I Z :=
    match abilities with
    | [] => mret topic_counter
    | ability :: rest =>
        let topic := getTopicForAbility ability in
        modify (fun s => set_topics (update_ability EmptyString (fun _ => topic) ability (ability_topic_mapping_ s)) s);;
        schedule (d_mul subscribe_topic (d_of_Z topic_counter)) (kSubscribeTopic topic);;
        subscribe rest (u8 (topic_counter + 1))
    end in
  topic_counter ← subscribe (Fleet.getAllExistingAbilities fleet) 0;
  mret (d_mul subscribe_topic (d_of_Z topic_counter)).

(** The constructor. *)
Definition construct : M I unit :=
  preparation_duration ← prepareInteraction;
  schedule preparation_duration kSetPreparationFinished.

Definition getTaskAbilityMapping (tasks : list Task) : list (AmrStaticAbility * list Task) :=
  fold_left (fun mapping task =>
    fold_left (fun mapping ability => update_ability [] (fun l => l ++ [task]) ability mapping)
      (Fleet.getFittingExistingAbilities fleet (ability_requirement_ task)) mapping) tasks [].

Definition callForProposal : M I unit :=
  tasks ← on_graph (gets Layers.getAuctionableTasks);
  for_each (getTaskAbilityMapping tasks) (fun entry =>
    topic ← topic_for entry.1;
    emit (Published topic (call_for_proposal {| cfp_initiator_connection := connection; cfp_tasks := entry.2 |}))).

Definition iterationNotification (tasks : list Task) : M I unit :=
  for_each (getTaskAbilityMapping tasks) (fun entry =>
    topic ← topic_for entry.1;
    emit (Published topic (iteration_notification
      {| in_initiator_connection := connection; in_task_uuids := uuid_ <$> entry.2 |}))).

Definition notifyWinners (winners : list Winner) : M I unit :=
  on_auction (modify Bids.clearWinnerAcceptions);;
  for_each winners (fun winner =>
    emit (SentTo (winner_connection winner) (winner_notification
      {| wn_task_uuid := task_uuid winner; wn_initiator_connection := connection;
         wn_latest_finish_time := latest_finish_time winner |}))).

Definition startIteration : M I unit :=
  callForProposal;;
  schedule waiting_to_receive_bids kBidProcessing.

Definition finishIteration : M I unit :=
  on_graph Layers.next;;
  on_auction (modify Bids.clearIterationInfo);;
  all_scheduled ← on_graph (gets Layers.areAllTasksScheduled);
  if negb all_scheduled then startIteration
  else modify (fun s => set_material_flow [] (set_process None s)).

Definition bidProcessing : M I unit :=
  on_auction Bids.countBidSubmissionProcessing;;
  bids ← on_auction (gets bid_submissions_);
  winners ← on_graph (Bids.selectWinner bids);
  match winners with
  | _ :: _ =>
      notifyWinners winners;;
      schedule waiting_to_receive_winner_responses kWinnerResponseProcessing
  | [] =>
      tasks ← on_graph (gets Layers.getAuctionableTasks);
      iterationNotification tasks;;
      schedule waiting_to_receive_bids kBidProcessing
  end.

Definition winnerResponseProcessing : M I unit :=
  on_auction Bids.countWinnerResponseProcessing;;
  g ← on_graph get;
  auctioned_tasks ← on_auction (Bids.processWinnerAcceptions g);
  iterationNotification auctioned_tasks;;
  done ← on_graph (gets Layers.areAllFreeTasksScheduled);
  if (done : bool) then finishIteration else schedule waiting_to_receive_bids kBidProcessing.

(** [now] in milliseconds *)
Definition addMaterialFlow (uuid : nat -> string) (now : Z) (scheduler : list Task) : M I unit :=
  s ← get;
  throw_if (bool_decide (is_Some (process_ s)))
    (runtime_error "A material flow is already processed currently. Support of multiple is not implemented yet.");;
  modify (set_material_flow scheduler);;
  g ← zoom material_flow_ set_material_flow (Layers.construct uuid connection);
  modify (set_process (Some {| layered_precedence_graph_ := g; auction_initiator_state_ := Bids.initial |}));;
  for_each (Layers.getAuctionableTasks g) (fun task =>
    on_graph (Layers.setEarliestValidStartTime (uuid_ task) (d_of_Z now)));;
  s ← get;
  if preparation_finished_ s then startIteration else mret tt.

Definition logMaterialFlowOrderStatesOfTask (task : Task) (order_state : OrderStates) : M I unit :=
  for_each (seq 0 (length (orders_ task))) (fun i =>
    zoom material_flow_ set_material_flow (Scheduler.processOrderUpdate task (u8 (Z.of_nat i)) order_state)).

Definition logMaterialFlowContent : M I unit :=
  tasks ← on_graph (gets Layers.getTasks);
  for_each tasks (fun task => logMaterialFlowOrderStatesOfTask task kCreated).

(** [process(BidSubmission)] and [process(WinnerResponse)] *)
Definition process_BidSubmission (bid : BidSubmission) : M I unit := on_auction (Bids.addBidSubmission bid).

Definition process_WinnerResponse (response : WinnerResponse) : M I unit :=
  (if wr_accept response then
     g ← on_graph get;
     task ← lift (Layers.getTask (wr_task_uuid response) g);
     logMaterialFlowOrderStatesOfTask task kQueued
   else mret tt);;
  on_auction (Bids.addWinnerResponse response).

(** What the simulator runs when the time has come; the subscription itself is the overlay's. *)
Definition run_event (e : Event) : M I unit :=
  match e with
  | kBidProcessing => bidProcessing
  | kWinnerResponseProcessing => winnerResponseProcessing
  | kSetPreparationFinished => setPreparationFinished
  | kSubscribeTopic _ => mret tt
  end.

Definition initial : I :=
  {| process_ := None; material_flow_ := []; ability_topic_mapping_ := []; preparation_finished_ := false;
     scheduled_ := []; sent_ := [] |}.
End Initiator.
End Initiator.
