(* ===== verification/AuctionParticipant.v ===== *)
(** * The auction of a material flow: the participants

    Model of [cpps/logical/algorithms/assignment/auction_participant_state.cpp] and
    [iterated_auction_assignment_participant.cpp]: a vehicle that bids for tasks through its task
    management, which is known here by the interface of
    [task_management/auction_based_task_management.h]. *)

From S2P Require Import Prelude Containers TreeMapper RouteCalculation MaterialFlow Metrics Auction.

(** ** [AuctionBasedTaskManagement]

    The state [T] of a task management and its insertion points [P], with the virtual functions a participant calls.
    [canAddTask] works on a copy but keeps what it calculated. *)
Class AuctionBasedTaskManagement (T P : Type) := {
  addTask : Task -> option P -> M T bool;
  canAddTask : Task -> option P -> M T bool;
  getLatestCalculatedInsertionInfo : T -> outcome (MetricsComposition * option P);
}.

Section Participant.
Context {T P : Type} `{AuctionBasedTaskManagement T P} `{Unordered}.

(** ** [AuctionParticipantTaskState] and [AuctionParticipantState] *)

Record AuctionParticipantTaskState := {
  task_ : Task;
  metrics_composition_ : option MetricsComposition;
  insertion_point_ : option P;
}.

Definition new_task_state (t : Task) : AuctionParticipantTaskState :=
  {| task_ := t; metrics_composition_ := None; insertion_point_ := None |}.

Definition setInformation (m : MetricsComposition) (p : option P) (s : AuctionParticipantTaskState)
    : AuctionParticipantTaskState :=
  {| task_ := task_ s; metrics_composition_ := Some m; insertion_point_ := p |}.

Definition removeInformation (s : AuctionParticipantTaskState) : AuctionParticipantTaskState :=
  {| task_ := task_ s; metrics_composition_ := None; insertion_point_ := None |}.

Definition getMetricsComposition (s : AuctionParticipantTaskState) : outcome MetricsComposition :=
  match metrics_composition_ s with
  | Some m => Ok m
  | None => Throw (runtime_error "MetricsComposition does not have a value. ")
  end.

Definition isValid (s : AuctionParticipantTaskState) : bool :=
  bool_decide (is_Some (insertion_point_ s)) && bool_decide (is_Some (metrics_composition_ s)).

(** The map from task uuids, an [unordered_map]: a list of its entries, which is walked in the order of the library. *)
Record AuctionParticipantState := {
  task_state_mapping : list (string * AuctionParticipantTaskState);
  previously_submitted : string;
}.

Definition set_mapping (m : list (string * AuctionParticipantTaskState)) (s : AuctionParticipantState)
    : AuctionParticipantState := {| task_state_mapping := m; previously_submitted := previously_submitted s |}.

Section Maps.
Context {B : Type}.
Definition has_key (k : string) (m : list (string * B)) : bool := existsb (fun e => bool_decide (e.1 = k)) m.
Definition map_find (k : string) (m : list (string * B)) : option B := snd <$> List.find (fun e => bool_decide (e.1 = k)) m.
Definition try_emplace (k : string) (v : B) (m : list (string * B)) : list (string * B) :=
  if has_key k m then m else m ++ [(k, v)].
Definition map_erase (k : string) (m : list (string * B)) : list (string * B) :=
  List.filter (fun e => negb (bool_decide (e.1 = k))) m.
Definition map_set (k : string) (v : B) (m : list (string * B)) : list (string * B) :=
  (fun e => if bool_decide (e.1 = k) then (k, v) else e) <$> m.
End Maps.

(** The constructor. *)
Definition of_tasks (tasks : list Task) : AuctionParticipantState :=
  {| task_state_mapping := fold_left (fun m t => try_emplace (uuid_ t) (new_task_state t) m) tasks [];
     previously_submitted := EmptyString |}.

Definition hasEntries (s : AuctionParticipantState) : bool := negb (bool_decide (length (task_state_mapping s) = 0%nat)).

Definition prune (s : AuctionParticipantState) : AuctionParticipantState :=
  set_mapping (List.filter (fun e => isValid e.2) (task_state_mapping s)) s.

Definition checkAllTaskStatesValid (s : AuctionParticipantState) : bool :=
  forallb (fun e => isValid e.2) (task_state_mapping s).

(** The comparison of [pickBest]; the states are valid by then. *)
Definition better (s1 s2 : AuctionParticipantTaskState) : bool :=
  match metrics_composition_ s1, metrics_composition_ s2 with
  | Some m1, Some m2 => Composition.gt m1 m2
  | _, _ => false
  end.

Definition pickBest (s : AuctionParticipantState) : outcome AuctionParticipantTaskState :=
  if bool_decide (length (task_state_mapping s) = 0%nat)
  then Throw (runtime_error "If the task state mapping is empty, this method should never be called.")
  else if negb (checkAllTaskStatesValid s)
  then Throw (runtime_error "Some task states are not valid. Pruning beforehand is necessary.")
  else
    sorted ← sorted_by better (walk (task_state_mapping s)).*2;
    match sorted with best :: _ => mret best | [] => Undefined end.

(** ** [IteratedAuctionAssignmentParticipant] *)

Record ParticipantState := {
  initiator_auction_state_mapping_ : list (string * AuctionParticipantState);
  task_management_ : T;
  participant_sent_ : list Sent;
}.

Section Operations.
(** The connection of the node and the ability of its load handling unit. *)
Variable connection : string.
Variable ability : AmrStaticAbility.

Definition set_auctions (m : list (string * AuctionParticipantState)) (s : ParticipantState) : ParticipantState :=
  {| initiator_auction_state_mapping_ := m; task_management_ := task_management_ s;
     participant_sent_ := participant_sent_ s |}.
Definition set_management (t : T) (s : ParticipantState) : ParticipantState :=
  {| initiator_auction_state_mapping_ := initiator_auction_state_mapping_ s; task_management_ := t;
     participant_sent_ := participant_sent_ s |}.
Definition send_to (to : string) (m : AuctionMessage) : M ParticipantState unit :=
  modify (fun s =>
    {| initiator_auction_state_mapping_ := initiator_auction_state_mapping_ s; task_management_ := task_management_ s;
       participant_sent_ := participant_sent_ s ++ [SentTo to m] |}).
Definition on_management {A} (m : M T A) : M ParticipantState A := zoom task_management_ set_management m.

(** The auction of an initiator, which is there, changed in place. *)
Definition on_auction_state (initiator : string) (f : AuctionParticipantState -> AuctionParticipantState)
    : M ParticipantState unit :=
  modify (fun s => set_auctions
    ((fun e => if bool_decide (e.1 = initiator) then (e.1, f e.2) else e) <$> initiator_auction_state_mapping_ s) s).

(** [calculateBids] changes the entries of an auction in place. *)
Abbreviation Bidding := (T * AuctionParticipantState)%type.

Definition set_entry (k : string) (entry : AuctionParticipantTaskState) : M Bidding unit :=
  modify (fun s => (s.1, set_mapping (map_set k entry (task_state_mapping s.2)) s.2)).

Definition calculate_entry (e : string * AuctionParticipantTaskState) : M Bidding unit :=
  can ← zoom fst (fun t s => (t, s.2)) (canAddTask (task_ e.2) None);
  if (can : bool) then
    s ← get;
    info ← lift (getLatestCalculatedInsertionInfo s.1);
    set_entry e.1 (setInformation info.1 info.2 e.2)
  else set_entry e.1 (removeInformation e.2).

Definition calculateBids : M Bidding unit :=
  s ← get;
  for_each (walk (task_state_mapping s.2)) calculate_entry;;
  modify (fun s => (s.1, prune s.2)).

(** On a new auction, which is lost if an exception leaves the function. *)
Definition bids_for (state : AuctionParticipantState) : M ParticipantState AuctionParticipantState := fun s =>
  match calculateBids (task_management_ s, state) with
  | (Ok _, (t, state')) => (Ok state', set_management t s)
  | (Throw e, (t, _)) => (Throw e, set_management t s)
  | (Undefined, (t, _)) => (Undefined, set_management t s)
  end.

Definition submitBid (initiator_connection : string) : M ParticipantState unit :=
  s ← get;
  match map_find initiator_connection (initiator_auction_state_mapping_ s) with
  | None => throw (runtime_error "Auction state for initiator connection not found.")
  | Some state =>
      best ← lift (pickBest state);
      let uuid := uuid_ (task_ best) in
      if bool_decide (uuid = previously_submitted state) then mret tt
      else
        metrics ← lift (getMetricsComposition best);
        send_to initiator_connection (bid_submission
          {| bid_task_uuid := uuid; bid_participant_connection := connection; bid_participant_ability := ability;
             bid_metrics_composition := metrics |});;
        on_auction_state initiator_connection
          (fun a => {| task_state_mapping := task_state_mapping a; previously_submitted := uuid |})
  end.

Definition process_CallForProposal (m : CallForProposal) : M ParticipantState unit :=
  let state := of_tasks (cfp_tasks m) in
  let initiator := cfp_initiator_connection m in
  s ← get;
  throw_if (has_key initiator (initiator_auction_state_mapping_ s))
    (runtime_error "Auction Participant process already in place for initiator connection.");;
  state ← bids_for state;
  if hasEntries state then
    modify (fun s => set_auctions (try_emplace initiator state (initiator_auction_state_mapping_ s)) s);;
    submitBid initiator
  else mret tt.

Definition process_IterationNotification (m : IterationNotification) : M ParticipantState unit :=
  let initiator := in_initiator_connection m in
  s ← get;
  match map_find initiator (initiator_auction_state_mapping_ s) with
  | None => mret tt
  | Some state =>
      let state := set_mapping (fold_left (fun l uuid => map_erase uuid l) (in_task_uuids m) (task_state_mapping state)) state in
      on_auction_state initiator (fun _ => state);;
      if hasEntries state then submitBid initiator
      else modify (fun s => set_auctions (map_erase initiator (initiator_auction_state_mapping_ s)) s)
  end.

(** Whether the task is still accepted: the metrics must be those of the bid. *)
Definition still_acceptable (task_state : AuctionParticipantTaskState) : M T bool :=
  if isValid task_state then
    can ← canAddTask (task_ task_state) (insertion_point_ task_state);
    if (can : bool) then
      t ← get;
      info ← lift (getLatestCalculatedInsertionInfo t);
      metrics ← lift (getMetricsComposition task_state);
      mret (Composition.eq info.1 metrics)
    else mret false
  else mret false.

Definition respond (initiator uuid : string) (accept : bool) : M ParticipantState unit :=
  send_to initiator (winner_response
    {| wr_task_uuid := uuid; wr_participant_connection := connection; wr_accept := accept |}).

(** On the auction of an initiator, where it is kept. *)
Definition recalculate (initiator : string) (state : AuctionParticipantState) : M ParticipantState unit := fun s =>
  let (r, s') := calculateBids (task_management_ s, state) in
  (r, (on_auction_state initiator (fun _ => s'.2) (set_management s'.1 s)).2).

Definition process_WinnerNotification (m : WinnerNotification) : M ParticipantState unit :=
  let initiator := wn_initiator_connection m in
  let uuid := wn_task_uuid m in
  s ← get;
  match map_find initiator (initiator_auction_state_mapping_ s) with
  | None => throw (runtime_error "The auction winner does not have information about auction process.")
  | Some state =>
      match map_find uuid (task_state_mapping state) with
      | None => throw (runtime_error "The auction winner does not have information about the auctioned task. ")
      | Some task_state =>
          accept ← on_management (still_acceptable task_state);
          if (accept : bool) then
            success ← on_management (addTask (task_ task_state) (insertion_point_ task_state));
            throw_if (negb success) (runtime_error "Winner accepts, but cannot add the task.");;
            respond initiator uuid true;;
            recalculate initiator state
          else
            on_auction_state initiator (fun a => prune (set_mapping
              (map_set uuid (removeInformation task_state) (task_state_mapping a)) a));;
            respond initiator uuid false
      end
  end.
End Operations.
End Participant.
Arguments AuctionParticipantTaskState P : clear implicits.
Arguments AuctionParticipantState P : clear implicits.
Arguments ParticipantState T P : clear implicits.
