(* ===== verification/AuctionProperties.v ===== *)
(** * Auctions: who wins, and what becomes of the tasks

    [selectWinner] gives every auctionable task that got a bid to one of the best bidders; an
    iteration with a winner for every auctionable task schedules them all, also those whose
    winners refuse; and the run of iterations ends when the graph has no cycles. *)

From Stdlib Require Import SpecFloat.
From S2P Require Import Prelude Containers TreeMapper RouteCalculation Graph GraphProperties MaterialFlow Precedence PrecedenceProperties Metrics Auction AuctionParticipant.

(** ** Tasks of the graph *)

Definition open_task (v : LPCVertex) : bool := on_layer kFree v && negb (scheduled v).

Lemma getVertex_at g i v : wf g -> vertices_ g !! i = Some v -> Layers.getVertex (uuid_of v) g = Ok v.
Proof.
  intros [_ Hn] Hi. unfold Layers.getVertex.
  destruct (List.find (Layers.has_uuid (uuid_of v)) (vertices_ g)) as [w|] eqn:Ef.
  - apply find_some in Ef as [Hw Hu]. apply list_elem_of_In, list_elem_of_lookup_1 in Hw as [k Hk].
    apply bool_decide_eq_true_1 in Hu. assert (k = i) as ->.
    { eapply NoDup_lookup; [exact Hn| |]; rewrite list_lookup_fmap; [rewrite Hk|rewrite Hi]; cbn; [reflexivity|by f_equal]. }
    congruence.
  - eapply find_none in Ef; [|apply list_elem_of_In; by eapply list_elem_of_lookup_2].
    unfold Layers.has_uuid in Ef. by rewrite bool_decide_true in Ef.
Qed.

Lemma auctionable_at g i v : wf g -> vertices_ g !! i = Some v -> Bids.auctionable (uuid_of v) g = Ok (open_task v).
Proof.
  intros Hw Hi. unfold Bids.auctionable, Layers.isTaskFree, Layers.isFreeTaskScheduled.
  rewrite (getVertex_at g i v) by done. cbn. unfold open_task. by destruct (on_layer kFree v).
Qed.

Lemma vertex_inj g i j v w :
  wf g -> vertices_ g !! i = Some v -> vertices_ g !! j = Some w -> uuid_of v = uuid_of w -> i = j.
Proof.
  intros [_ Hn] Hi Hj Hu. eapply NoDup_lookup; [exact Hn| |]; rewrite list_lookup_fmap; [rewrite Hi|rewrite Hj]; cbn;
    [reflexivity|by f_equal].
Qed.

(** ** [selectWinner()] *)

Definition makespan_of (b : BidSubmission) : outcome Duration := Metric.getMakespan (current_metrics_ (bid_metrics_composition b)).

(** Bids the initiator can work with: for tasks of the graph, with a makespan. *)
Definition proper_bid (g : LPG) (b : BidSubmission) : Prop :=
  (exists i v, vertices_ g !! i = Some v /\ uuid_of v = bid_task_uuid b) /\ exists t, makespan_of b = Ok t.

(** The winner of a task. *)
Definition winner_of (winners : list Winner) (uuid : string) : option Winner :=
  List.find (fun w => bool_decide (task_uuid w = uuid)) winners.

Definition after_award (winners : list Winner) (v : LPCVertex) : LPCVertex :=
  match winner_of winners (uuid_of v) with Some w => won (latest_finish_time w) v | None => v end.

Record awarded (bids : list BidSubmission) (g : LPG) (winners : list Winner) (g' : LPG) : Prop := {
  a_graph : same_graph g g';
  a_vertices i : vertices_ g' !! i = after_award winners <$> vertices_ g !! i;
  a_distinct : NoDup (task_uuid <$> winners);
  a_best w : w ∈ winners ->
    (exists i v, vertices_ g !! i = Some v /\ uuid_of v = task_uuid w /\ open_task v = true) /\
    exists b, b ∈ bids /\ bid_task_uuid b = task_uuid w /\ bid_participant_connection b = winner_connection w /\
      makespan_of b = Ok (latest_finish_time w) /\
      forall b', b' ∈ bids -> bid_task_uuid b' = task_uuid w -> Bid.gt b' b = false;
  a_all b i v : b ∈ bids -> vertices_ g !! i = Some v -> uuid_of v = bid_task_uuid b -> open_task v = true ->
    exists w, w ∈ winners /\ task_uuid w = bid_task_uuid b;
}.

Lemma winner_of_Some winners uuid w : winner_of winners uuid = Some w -> w ∈ winners /\ task_uuid w = uuid.
Proof. intros [Hw Hu]%find_some. split; [by apply list_elem_of_In|by apply bool_decide_eq_true_1 in Hu]. Qed.
Lemma winner_of_None winners uuid : winner_of winners uuid = None <-> uuid ∉ task_uuid <$> winners.
Proof.
  split.
  - intros Hn (w & -> & Hw)%list_elem_of_fmap. eapply find_none in Hn; [|by apply list_elem_of_In].
    by rewrite bool_decide_true in Hn.
  - intros Hn. destruct (winner_of winners uuid) as [w|] eqn:E; [|done]. apply winner_of_Some in E as [Hw <-].
    exfalso. apply Hn. by apply list_elem_of_fmap_2.
Qed.

Lemma award_at g i v b :
  wf g -> vertices_ g !! i = Some v -> uuid_of v = bid_task_uuid b -> proper_bid g b ->
  exists winner g', Bids.award b g = (Ok winner, g') /\
    if open_task v
    then exists t, makespan_of b = Ok t /\
      winner = [{| task_uuid := bid_task_uuid b; winner_connection := bid_participant_connection b; latest_finish_time := t |}] /\
      g' = Graph.set_vertices (alter (won t) i (vertices_ g)) g
    else winner = [] /\ g' = g.
Proof.
  intros Hw Hi Hu [_ [t Ht]]. unfold Bids.award. rewrite bind_get, <- Hu, (auctionable_at g i v), bind_lift by done.
  destruct (open_task v) eqn:Eo.
  - rewrite bind_lift. change (Metric.getMakespan _) with (makespan_of b). rewrite Ht.
    apply andb_prop in Eo as [Ef _]. apply bool_decide_eq_true_1 in Ef.
    pose proof (assign_at (fun _ => t) g i v Hw Hi Ef) as Ha. unfold assign in Ha. change (uuid_ (task v)) with (uuid_of v) in Ha.
    cbn in Ha. eexists _, _. split; [|by exists t].
    unfold mbind, M_bind in *. destruct (Layers.setLatestFinishTime (uuid_of v) t g) as [[[]| |] g1]; try discriminate Ha.
    rewrite Ha. reflexivity.
  - exists [], g. done.
Qed.

Lemma filter_shorter {A} (p : A -> bool) (l : list A) x :
  x ∈ l -> p x = false -> (length (List.filter p l) < length l)%nat.
Proof.
  induction l as [|y l IH]; [by intros ?%elem_of_nil|]. intros [<-|Hx]%elem_of_cons Hp; cbn.
  - rewrite Hp. pose proof (List.filter_length_le p l). lia.
  - specialize (IH Hx Hp). destruct (p y); cbn; lia.
Qed.

Lemma elem_of_removeBidsForTask b bids uuid : b ∈ Bids.removeBidsForTask bids uuid <-> b ∈ bids /\ bid_task_uuid b <> uuid.
Proof.
  unfold Bids.removeBidsForTask. rewrite !list_elem_of_In, filter_In, negb_true_iff, bool_decide_eq_false. done.
Qed.

Lemma proper_bid_same g g' b : same_graph g g' -> proper_bid g b -> proper_bid g' b.
Proof.
  intros Hs [(i & v & Hi & Hu) Ht]. split; [|done]. destruct (lookup_lt_is_Some_2 (vertices_ g') i) as [w Hw].
  { rewrite (same_length _ _ Hs). by eapply lookup_lt_Some. }
  exists i, w. split; [done|]. destruct (same_task _ _ _ _ Hs Hw) as (u & ? & Htu). unfold uuid_of in *. congruence.
Qed.

(** The step of the induction: a task was awarded (or was not open), the rest of the bids are for other tasks. *)
Lemma awarded_step bids rest best i v winner g g1 winners g' :
  wf g -> vertices_ g !! i = Some v -> uuid_of v = bid_task_uuid best -> best ∈ bids ->
  (forall b, b ∈ rest <-> b ∈ bids /\ bid_task_uuid b <> bid_task_uuid best) ->
  (forall b, b ∈ bids -> Bid.gt b best = false) ->
  (if open_task v
   then exists t, makespan_of best = Ok t /\
      winner = [{| task_uuid := bid_task_uuid best; winner_connection := bid_participant_connection best; latest_finish_time := t |}] /\
      g1 = Graph.set_vertices (alter (won t) i (vertices_ g)) g
   else winner = [] /\ g1 = g) ->
  awarded rest g1 winners g' -> awarded bids g (winner ++ winners) g'.
Proof.
  intros Hw Hi Hu Hbest Hrest Hmax Hstep Ha.
  assert (Hno : bid_task_uuid best ∉ task_uuid <$> winners).
  { intros (w & Hwu & Hwin)%list_elem_of_fmap. destruct (a_best _ _ _ _ Ha w Hwin) as [_ (b & Hb & Hbu & _)].
    apply Hrest in Hb as [_ Hb]. congruence. }
  assert (Hs1 : same_graph g g1).
  { destruct (open_task v); [destruct Hstep as (t & _ & _ & ->); by apply same_update|by destruct Hstep as [_ ->]]. }
  assert (Hother : forall j u, vertices_ g1 !! j = Some u -> j <> i -> vertices_ g !! j = Some u).
  { intros j u. destruct (open_task v); [destruct Hstep as (t & _ & _ & ->)|by destruct Hstep as [_ ->]].
    rewrite lookup_update. intros Hj Hne. by rewrite decide_False in Hj. }
  assert (Hother' : forall j u, vertices_ g !! j = Some u -> j <> i -> vertices_ g1 !! j = Some u).
  { intros j u. destruct (open_task v); [destruct Hstep as (t & _ & _ & ->)|by destruct Hstep as [_ ->]].
    intros Hj Hne. by rewrite lookup_update, decide_False. }
  split.
  - eapply same_graph_trans; [exact Hs1|apply Ha].
  - intros j. rewrite (a_vertices _ _ _ _ Ha). destruct (decide (j = i)) as [->|Hne].
    + rewrite Hi. cbn. destruct (open_task v); [destruct Hstep as (t & _ & -> & ->)|destruct Hstep as [-> ->]].
      * rewrite lookup_update, decide_True, Hi by done. cbn. f_equal. unfold after_award. cbn.
        change (uuid_of (won t v)) with (uuid_of v). rewrite Hu, bool_decide_true by done.
        by rewrite (proj2 (winner_of_None winners _) Hno).
      * by rewrite Hi.
    + destruct (vertices_ g !! j) as [u|] eqn:Ej.
      * rewrite (Hother' j u) by done. cbn. f_equal. unfold after_award.
        destruct (open_task v); [destruct Hstep as (t & _ & -> & _)|by destruct Hstep as [-> _]].
        unfold winner_of at 2. cbn. rewrite bool_decide_false; [done|]. rewrite <- Hu. intros E.
        apply Hne. symmetry. by eapply vertex_inj.
      * destruct (vertices_ g1 !! j) as [u|] eqn:Ej1; [|done]. rewrite (Hother j u) in Ej by done. done.
  - destruct (open_task v); [destruct Hstep as (t & _ & -> & _)|destruct Hstep as [-> _]; apply Ha].
    cbn. constructor; [done|apply Ha].
  - intros w Hwin. apply elem_of_app in Hwin as [Hwin|Hwin].
    + destruct (open_task v) eqn:Eo; [destruct Hstep as (t & Ht & -> & _)|by destruct Hstep as [-> _]; apply elem_of_nil in Hwin].
      apply list_elem_of_singleton in Hwin as ->. cbn. split; [by exists i, v|]. exists best.
      split; [done|]. split; [done|]. split; [done|]. split; [done|]. intros b' Hb' _. by apply Hmax.
    + destruct (a_best _ _ _ _ Ha w Hwin) as [(j & u & Hj & Huu & Ho) (b & Hb & Hbu & Hbc & Hbm & Hbest')].
      apply Hrest in Hb as [Hb Hne]. split.
      * exists j, u. split; [|done]. apply Hother; [done|]. intros ->.
        destruct (same_task _ _ _ _ Hs1 Hj) as (x & Hx & Hxt). assert (x = v) as -> by congruence.
        apply Hne. unfold uuid_of in *. congruence.
      * exists b. split; [done|]. split; [done|]. split; [done|]. split; [done|]. intros b' Hb' Hu'.
        apply Hbest'; [|done]. apply Hrest. split; [done|congruence].
  - intros b j u Hb Hj Huj Ho. destruct (decide (bid_task_uuid b = bid_task_uuid best)) as [E|Hne].
    + assert (j = i) as -> by (eapply vertex_inj; [exact Hw|exact Hj|exact Hi|congruence]).
      assert (u = v) as -> by congruence. rewrite Ho in Hstep. destruct Hstep as (t & _ & -> & _).
      eexists. split; [apply elem_of_app; left; by left|]. cbn. congruence.
    + destruct (a_all _ _ _ _ Ha b j u) as (w & Hwin & Hwu).
      * by apply Hrest.
      * apply Hother'; [done|]. intros ->. assert (u = v) as -> by congruence. congruence.
      * done.
      * done.
      * exists w. split; [|done]. apply elem_of_app. by right.
Qed.

Lemma select_awards fuel bids g :
  wf g -> (length bids <= fuel)%nat -> weak_order Bid.gt bids = true -> Forall (proper_bid g) bids ->
  exists winners g', Bids.select fuel bids g = (Ok winners, g') /\ awarded bids g winners g'.
Proof.
  revert bids g. induction fuel as [|fuel IH]; intros bids g Hw Hlen Hwo Hp.
  - destruct bids; [|cbn in Hlen; lia]. exists [], g. split; [done|]. split; try done.
    + intros i. by destruct (vertices_ g !! i).
    + constructor.
    + by intros w ?%elem_of_nil.
    + by intros b i v ?%elem_of_nil.
  - cbn [Bids.select]. unfold sorted_by. rewrite Hwo, bind_lift. pose proof (sort_front Bid.gt bids Hwo) as Hfront.
    pose proof (std_sort_Permutation Bid.gt bids) as Hperm.
    destruct (std_sort Bid.gt bids) as [|best sorted] eqn:Es.
    { subst bids. exists [], g. split; [done|]. split; try done.
      - intros i. by destruct (vertices_ g !! i).
      - constructor.
      - by intros w ?%elem_of_nil.
      - by intros b i v ?%elem_of_nil. }
    destruct Hfront as [Hbest Hmax]. pose proof (proj1 (Forall_forall _ _) Hp best Hbest) as Hpb.
    pose proof Hpb as [(i & v & Hi & Hu) _].
    destruct (award_at g i v best Hw Hi Hu Hpb) as (winner & g1 & Haward & Hstep).
    set (rest := Bids.removeBidsForTask (best :: sorted) (bid_task_uuid best)).
    assert (Hrest : forall b, b ∈ rest <-> b ∈ bids /\ bid_task_uuid b <> bid_task_uuid best).
    { intros b. unfold rest. rewrite elem_of_removeBidsForTask. by rewrite Hperm. }
    assert (Hs1 : same_graph g g1).
    { destruct (open_task v); [destruct Hstep as (t & _ & _ & ->); by apply same_update|by destruct Hstep as [_ ->]]. }
    destruct (IH rest g1) as (winners & g' & Hsel & Ha).
    + by eapply same_wf.
    + unfold rest, Bids.removeBidsForTask.
      pose proof (filter_shorter (fun bid => negb (bool_decide (bid_task_uuid bid = bid_task_uuid best))) (best :: sorted) best) as Hf.
      rewrite (Permutation_length Hperm) in Hf. specialize (Hf ltac:(by left)). rewrite bool_decide_true in Hf by done.
      specialize (Hf eq_refl). lia.
    + eapply weak_order_incl; [|exact Hwo]. intros b [Hb _]%Hrest. done.
    + apply Forall_forall. intros b [Hb _]%Hrest. eapply proper_bid_same; [exact Hs1|]. by eapply Forall_forall in Hp.
    + exists (winner ++ winners), g'. split; [|by eapply awarded_step].
      unfold mbind, M_bind. rewrite Haward. fold rest. by rewrite Hsel.
Qed.

Lemma selectWinner_ok bids g :
  wf g -> weak_order Bid.gt bids = true -> Forall (proper_bid g) bids ->
  exists winners g', Bids.selectWinner bids g = (Ok winners, g') /\ awarded bids g winners g'.
Proof. intros Hw Hwo Hp. by apply select_awards. Qed.

(** C13: [selectWinner], for bids on tasks of the graph that have a makespan and whose comparison orders them: every
    auctionable task with a bid gets exactly one winner, one of its bidders that no bid for the task beats, with the
    makespan of that bid; these tasks get that finish time and the scheduled flag, and nothing else changes. *)
Theorem selectWinner_awards bids g :
  wf g -> weak_order Bid.gt bids = true -> Forall (proper_bid g) bids ->
  exists winners g', Bids.selectWinner bids g = (Ok winners, g') /\ awarded bids g winners g'.
Proof. apply selectWinner_ok. Qed.

(** The layers after an award. *)
Lemma awarded_layered bids g winners g' :
  wf g -> layered g -> awarded bids g winners g' -> layered g' /\ forall i l, at_layer g' i l <-> at_layer g i l.
Proof.
  intros Hwf Hl Ha. pose proof (a_vertices _ _ _ _ Ha) as Hv. pose proof (a_graph _ _ _ _ Ha) as Hs.
  assert (Hlayer : forall v, layer (after_award winners v) = layer v) by (intros v; unfold after_award; by destruct (winner_of _ _)).
  assert (Hat : forall i l, at_layer g' i l <-> at_layer g i l).
  { intros i l. unfold at_layer. rewrite Hv. destruct (vertices_ g !! i) as [v|]; cbn.
    - split; intros (w & [= <-] & <-); eexists; (split; [reflexivity|by rewrite ?Hlayer]).
    - by split; intros (w & ? & _). }
  assert (Ho : forall i, open_at g' i <-> open_at g i) by (intros i; unfold open_at; by rewrite !Hat).
  assert (Hback : forall i v, vertices_ g' !! i = Some v -> vertices_ g !! i = Some v \/
    is_Some (latest_finish v) /\ layer v = kFree).
  { intros i v. rewrite Hv. destruct (vertices_ g !! i) as [u|] eqn:Eu; [|done]. cbn. intros [= <-].
    unfold after_award. destruct (winner_of winners (uuid_of u)) as [w|] eqn:Ew; [right|by left].
    split; [by eexists|]. cbn. apply winner_of_Some in Ew as [Hw Hwu].
    destruct (a_best _ _ _ _ Ha w Hw) as [(j & x & Hj & Hx & [Hox%bool_decide_eq_true_1 _]%andb_prop) _].
    assert (j = i) as -> by (eapply vertex_inj; [exact Hwf|exact Hj|exact Eu|congruence]). congruence. }
  split; [|done]. split.
  - intros k. rewrite Hat. apply (l_none g Hl).
  - intros k j. rewrite Ho, Hat, (same_edge g g') by done. apply (l_done g Hl).
  - intros j. rewrite !Hat. setoid_rewrite (same_edge g g'); [|done]. setoid_rewrite Hat. apply (l_waits g Hl).
  - intros j. rewrite !Hat. setoid_rewrite (same_edge g g'); [|done]. setoid_rewrite Ho. apply (l_hidden g Hl).
  - intros j w Hj Hlw. destruct (Hback j w Hj) as [Hj'|[? _]]; [|done]. by eapply (l_finish g Hl).
  - intros j w Hj Hfw. destruct (Hback j w Hj) as [Hj'|[_ ?]]; [|by right]. by eapply (l_flag g Hl).
Qed.

(** Every task that can be auctioned gets a bid. *)
Definition all_open_bid (bids : list BidSubmission) (g : LPG) : Prop :=
  forall i v, vertices_ g !! i = Some v -> open_task v = true -> exists b, b ∈ bids /\ bid_task_uuid b = uuid_of v.

Lemma awarded_all_free bids g winners g' :
  awarded bids g winners g' -> all_open_bid bids g -> Layers.areAllFreeTasksScheduled g' = true.
Proof.
  intros Ha Hall. apply forallb_forall. intros v Hv. apply list_elem_of_In, list_elem_of_lookup_1 in Hv as [i Hi].
  rewrite (a_vertices _ _ _ _ Ha) in Hi. destruct (vertices_ g !! i) as [u|] eqn:Eu; [|done]. cbn in Hi. injection Hi as <-.
  unfold after_award. destruct (winner_of winners (uuid_of u)) as [w|] eqn:Ew; cbn; [by rewrite orb_true_r|].
  destruct (on_layer kFree u) eqn:Ef; [|done]. cbn. destruct (scheduled u) eqn:Es; [done|]. exfalso.
  destruct (Hall i u Eu) as (b & Hb & Hbu); [unfold open_task; by rewrite Ef, Es|].
  destruct (a_all _ _ _ _ Ha b i u Hb Eu (eq_sym Hbu)) as (w & Hw & Hwu); [unfold open_task; by rewrite Ef, Es|].
  apply winner_of_None in Ew. apply Ew. apply list_elem_of_fmap. exists w. split; [congruence|done].
Qed.

(** ** An iteration of the initiator *)

#[local] Arguments Initiator.on_auction : simpl never.
#[local] Arguments Initiator.on_graph : simpl never.
#[local] Arguments Bids.selectWinner : simpl never.

Section Iteration.
Variable connection : string.
Context {AmrKinematics : Type}.
Variable fleet : list (AmrStaticAbility * AmrKinematics).
Abbreviation IS := InitiatorState.

(** Sending and scheduling leave the process and the material flow alone. *)
Definition same_core (s s' : IS) : Prop := process_ s' = process_ s /\ material_flow_ s' = material_flow_ s.

Lemma same_core_trans s1 s2 s3 : same_core s1 s2 -> same_core s2 s3 -> same_core s1 s3.
Proof. intros [? ?] [? ?]. split; congruence. Qed.

Lemma emit_all {A} (l : list A) (f : A -> M IS unit) :
  (forall a s, exists s', f a s = (Ok tt, s') /\ same_core s s') -> forall s, exists s', for_each l f s = (Ok tt, s') /\ same_core s s'.
Proof.
  intros Hf. induction l as [|a l IH]; intros s; cbn [for_each]; [by exists s|].
  destruct (Hf a s) as (s1 & H1 & Hs1), (IH s1) as (s2 & H2 & Hs2). exists s2. mred. rewrite H1.
  split; [done|by eapply same_core_trans].
Qed.

Lemma iterationNotification_core tasks s :
  exists s', Initiator.iterationNotification connection fleet tasks s = (Ok tt, s') /\ same_core s s'.
Proof. apply emit_all. intros a s'. unfold Initiator.topic_for, Initiator.emit. mred. by eexists. Qed.

Lemma on_graph_at {A} (m : M LPG A) s p :
  process_ s = Some p ->
  Initiator.on_graph m s = let (r, g') := m (layered_precedence_graph_ p) in
    (r, Initiator.set_process (Some {| layered_precedence_graph_ := g'; auction_initiator_state_ := auction_initiator_state_ p |}) s).
Proof.
  intros Hp. unfold Initiator.on_graph, Initiator.in_process, zoom. rewrite Hp.
  by destruct (m (layered_precedence_graph_ p)).
Qed.
Lemma on_auction_at {A} (m : M AuctionInitiatorState A) s p :
  process_ s = Some p ->
  Initiator.on_auction m s = let (r, a') := m (auction_initiator_state_ p) in
    (r, Initiator.set_process (Some {| layered_precedence_graph_ := layered_precedence_graph_ p; auction_initiator_state_ := a' |}) s).
Proof.
  intros Hp. unfold Initiator.on_auction, Initiator.in_process, zoom. rewrite Hp.
  by destruct (m (auction_initiator_state_ p)).
Qed.

(** The same where the process can be read off the state. *)
Ltac at_auction :=
  match goal with |- context [Initiator.on_auction ?m ?s] =>
    let p := eval cbn in (process_ s) in
    match p with Some ?q => rewrite (on_auction_at m s q eq_refl) end end.
Ltac at_graph :=
  match goal with |- context [Initiator.on_graph ?m ?s] =>
    let p := eval cbn in (process_ s) in
    match p with Some ?q => rewrite (on_graph_at m s q eq_refl) end end.

Lemma callForProposal_core s p :
  process_ s = Some p -> exists s', Initiator.callForProposal connection fleet s = (Ok tt, s') /\ same_core s s'.
Proof.
  intros Hp. unfold Initiator.callForProposal. unfold mbind at 1, M_bind at 1. rewrite (on_graph_at _ _ p) by done. cbn.
  match goal with |- exists s', for_each ?l ?f ?s0 = _ /\ _ => destruct (emit_all l f) with (s := s0) as (s' & He & Hs' & Hm') end.
  - intros a s'. unfold Initiator.topic_for, Initiator.emit. mred. by eexists.
  - exists s'. split; [exact He|]. split; [|done]. rewrite Hs', Hp. cbn. by destruct p.
Qed.

(** ** The scheduler of the material flow *)

Definition only_transport (t : Task) : Prop := Forall (fun o => match o with transport_order _ => True | _ => False end) (orders_ t).

(** The scheduler knows the tasks of the graph, all of transport orders. *)
Definition tracked (g : LPG) (mf : list Task) : Prop :=
  Forall only_transport mf /\
  forall i v, vertices_ g !! i = Some v -> exists x, x ∈ mf /\ uuid_ x = uuid_of v /\
    forall y, y ∈ mf -> uuid_ y = uuid_of v -> length (orders_ y) = length (orders_ (task v)).

Lemma setOrderState_ok index st t :
  only_transport t -> (Z.to_nat index < length (orders_ t))%nat ->
  exists t', TaskOf.setOrderState index st t = (Ok tt, t') /\ only_transport t' /\ uuid_ t' = uuid_ t /\
    length (orders_ t') = length (orders_ t).
Proof.
  intros Ht Hi. unfold TaskOf.setOrderState. rewrite bind_get.
  destruct (lookup_lt_is_Some_2 _ _ Hi) as [o Ho]. rewrite Ho. pose proof (Forall_lookup_1 _ _ _ _ Ht Ho) as Hto.
  destruct o as [o| |]; [|done|done]. eexists. split; [reflexivity|]. cbn.
  split; [by apply Forall_insert|]. split; [done|]. by rewrite length_insert.
Qed.

Lemma processOrderUpdate_ok g mf i v index st :
  tracked g mf -> vertices_ g !! i = Some v -> (Z.to_nat index < length (orders_ (task v)))%nat ->
  exists mf', Scheduler.processOrderUpdate (task v) index st mf = (Ok tt, mf') /\ tracked g mf'.
Proof.
  intros [Htr Hmf] Hi Hidx. unfold Scheduler.processOrderUpdate. rewrite bind_get.
  destruct (Hmf i v Hi) as (x & Hx & Hxu & Hlen).
  destruct (find_index (fun x => TaskOf.eqb x (task v)) mf) as [k|] eqn:Ek.
  2:{ rewrite find_index_None in Ek. specialize (Ek x Hx). unfold TaskOf.eqb in Ek.
      change (uuid_ (task v)) with (uuid_of v) in Ek. by rewrite bool_decide_true in Ek. }
  apply find_index_Some in Ek as (y & Hk & Hy%bool_decide_eq_true_1 & _). rewrite bind_lift, (vec_at_vertex _ _ _ Hk).
  change (uuid_ (task v)) with (uuid_of v) in Hy.
  destruct (setOrderState_ok index st y) as (y' & -> & Hy1 & Hy2 & Hy3).
  { by eapply Forall_lookup_1. }
  { rewrite (Hlen y); [done|by eapply list_elem_of_lookup_2|done]. }
  eexists. split; [reflexivity|]. split; [by apply Forall_insert|]. intros j u Hj.
  destruct (Hmf j u Hj) as (z & Hz & Hzu & Hzl). assert (Hyin : y ∈ mf) by by eapply list_elem_of_lookup_2.
  assert (Hk' : (k < length mf)%nat) by by eapply lookup_lt_Some.
  apply list_elem_of_lookup_1 in Hz as [m Hm]. exists (if decide (m = k) then y' else z). split; [|split].
  - apply (list_elem_of_lookup_2 _ m). destruct (decide (m = k)) as [->|].
    + by rewrite list_lookup_insert_eq.
    + by rewrite list_lookup_insert_ne.
  - destruct (decide (m = k)) as [->|]; [|done]. congruence.
  - intros w Hw Hwu. apply list_elem_of_lookup_1 in Hw as [n Hn]. destruct (decide (n = k)) as [->|].
    + rewrite list_lookup_insert_eq in Hn by done. injection Hn as <-. rewrite Hy3. apply Hzl; [done|congruence].
    + rewrite list_lookup_insert_ne in Hn by done. apply Hzl; [by eapply list_elem_of_lookup_2|done].
Qed.

Lemma log_ok g mf i v st :
  tracked g mf -> vertices_ g !! i = Some v -> forall s : IS, material_flow_ s = mf ->
  exists s', Initiator.logMaterialFlowOrderStatesOfTask (task v) st s = (Ok tt, s') /\ process_ s' = process_ s /\
    tracked g (material_flow_ s').
Proof.
  intros Htr Hi s Hs. unfold Initiator.logMaterialFlowOrderStatesOfTask.
  destruct (for_seq (fun k => zoom material_flow_ Initiator.set_material_flow
      (Scheduler.processOrderUpdate (task v) (u8 (Z.of_nat k)) st))
    (fun _ s' => process_ s' = process_ s /\ tracked g (material_flow_ s')) 0 (length (orders_ (task v))) s)
    as (s' & He & Hp & Ht); [by rewrite Hs| |by exists s'].
  intros k h Hk [Hph Hth]. unfold zoom.
  destruct (processOrderUpdate_ok g (material_flow_ h) i v (u8 (Z.of_nat k)) st Hth Hi) as (mf' & -> & Htr').
  { assert (0 <= u8 (Z.of_nat k) <= Z.of_nat k); [|lia]. unfold u8. split; [by apply Z.mod_pos_bound|apply Z.mod_le; lia]. }
  eexists. split; [reflexivity|]. done.
Qed.

(** An initiator that waits for bids on a graph; [c] rounds in a row no winner accepted. *)
Definition ready (g : LPG) (c : Z) (s : IS) : Prop :=
  exists a, process_ s = Some {| layered_precedence_graph_ := g; auction_initiator_state_ := a |} /\
    bid_submissions_ a = [] /\ winner_acceptions_ a = [] /\ no_winner_acceptions_counter_ a = c.

(** Between two passes: bids, [bidProcessing], the answers of the winners, [winnerResponseProcessing]. *)
Definition iteration (bids : list BidSubmission) (responses : list WinnerResponse) : M IS unit :=
  for_each bids Initiator.process_BidSubmission;;
  Initiator.bidProcessing connection fleet;;
  for_each responses Initiator.process_WinnerResponse;;
  Initiator.winnerResponseProcessing connection fleet.

Lemma bids_received bids s g a :
  process_ s = Some {| layered_precedence_graph_ := g; auction_initiator_state_ := a |} ->
  exists s', for_each bids Initiator.process_BidSubmission s = (Ok tt, s') /\ material_flow_ s' = material_flow_ s /\
    process_ s' = Some {| layered_precedence_graph_ := g;
      auction_initiator_state_ := Bids.set_bids (bid_submissions_ a ++ bids) a |}.
Proof.
  revert s a. induction bids as [|b bids IH]; intros s a Hs; cbn [for_each].
  - exists s. split; [done|]. split; [done|]. rewrite app_nil_r, Hs. by destruct a.
  - unfold mbind, M_bind, Initiator.process_BidSubmission. rewrite (on_auction_at _ _ _ Hs). cbn.
    match goal with |- context [for_each bids _ ?x] => destruct (IH x _ eq_refl) as (s' & He & Hm & Hp) end.
    exists s'. split; [exact He|]. split; [done|]. rewrite Hp. cbn. by rewrite <- app_assoc.
Qed.

Lemma bidProcessing_awards bids s g a winners g' :
  process_ s = Some {| layered_precedence_graph_ := g; auction_initiator_state_ := a |} -> bid_submissions_ a = bids ->
  bids <> [] -> Bids.selectWinner bids g = (Ok winners, g') -> winners <> [] ->
  exists s' nb, Initiator.bidProcessing connection fleet s = (Ok tt, s') /\ material_flow_ s' = material_flow_ s /\
    process_ s' = Some {| layered_precedence_graph_ := g'; auction_initiator_state_ :=
      {| bid_submissions_ := []; winner_acceptions_ := []; no_bid_submissions_counter_ := nb;
         no_winner_acceptions_counter_ := no_winner_acceptions_counter_ a |} |}.
Proof.
  intros Hs Hb Hne Hsel Hw. destruct winners as [|w winners]; [done|]. destruct bids as [|b bids]; [done|].
  unfold Initiator.bidProcessing, Bids.countBidSubmissionProcessing, mbind, M_bind.
  rewrite (on_auction_at _ _ _ Hs). cbn. rewrite Hb. cbn.
  at_auction. cbn -[Bids.selectWinner]. rewrite Hb.
  at_graph. cbn -[for_each Initiator.notifyWinners]. rewrite Hsel.
  unfold Initiator.notifyWinners, mbind, M_bind. at_auction. cbn -[for_each].
  match goal with |- context [for_each (w :: winners) ?f ?x] =>
    destruct (emit_all (w :: winners) f) with (s := x) as (s' & He & Hs' & Hm') end.
  { intros x s'. unfold Initiator.emit. mred. by eexists. }
  rewrite He. cbn. eexists _, _. split; [reflexivity|]. cbn. rewrite Hs', Hm'. cbn. done.
Qed.

(** Answers: of tasks of the graph, if they accept. *)
Definition proper_response (g : LPG) (r : WinnerResponse) : Prop :=
  wr_accept r = true -> exists i v, vertices_ g !! i = Some v /\ uuid_of v = wr_task_uuid r.

Lemma responses_received responses s g a :
  wf g -> process_ s = Some {| layered_precedence_graph_ := g; auction_initiator_state_ := a |} -> bid_submissions_ a = [] ->
  tracked g (material_flow_ s) -> Forall (proper_response g) responses ->
  exists s', for_each responses Initiator.process_WinnerResponse s = (Ok tt, s') /\ tracked g (material_flow_ s') /\
    process_ s' = Some {| layered_precedence_graph_ := g; auction_initiator_state_ :=
      Bids.set_acceptions (winner_acceptions_ a ++ List.filter wr_accept responses) a |}.
Proof.
  intros Hw. revert s a. induction responses as [|r responses IH]; intros s a Hs Hb Ht Hr; cbn [for_each].
  - exists s. split; [done|]. split; [done|]. rewrite app_nil_r, Hs. by destruct a.
  - apply Forall_cons in Hr as [Hr Hrs].
    assert (exists s1, Initiator.process_WinnerResponse r s = (Ok tt, s1) /\ tracked g (material_flow_ s1) /\
      process_ s1 = Some {| layered_precedence_graph_ := g; auction_initiator_state_ :=
        Bids.set_acceptions (winner_acceptions_ a ++ (if wr_accept r then [r] else [])) a |}) as (s1 & H1 & Ht1 & Hp1).
    { unfold Initiator.process_WinnerResponse, Bids.addWinnerResponse. destruct (wr_accept r) eqn:Er.
      - destruct (Hr Er) as (i & v & Hi & Hu). unfold mbind, M_bind. rewrite (on_graph_at _ _ _ Hs). cbn -[lift].
        unfold lift, Layers.getTask. rewrite <- Hu, (getVertex_at g i v) by done. cbn.
        match goal with |- context [Initiator.logMaterialFlowOrderStatesOfTask (task v) kQueued ?x] =>
          destruct (log_ok g _ i v kQueued Ht Hi x eq_refl) as (s1 & -> & Hp & Hm) end.
        cbn in Hp. rewrite (on_auction_at _ _ _ Hp). cbn. eexists. split; [reflexivity|]. done.
      - rewrite bind_ret. rewrite (on_auction_at _ _ _ Hs). cbn. rewrite Hb. eexists. split; [reflexivity|].
        split; [done|]. cbn. rewrite app_nil_r. destruct a. cbn in *. by subst. }
    destruct (IH s1 _ Hp1) as (s' & He & Ht' & Hp'); [done|done|done|].
    exists s'. unfold mbind, M_bind. rewrite H1. split; [done|]. split; [done|]. rewrite Hp'. cbn.
    destruct (wr_accept r); cbn; by rewrite <- app_assoc || rewrite app_nil_r.
Qed.

Lemma accepted_tasks_ok g responses a :
  wf g -> Forall (fun r => exists i v, vertices_ g !! i = Some v /\ uuid_of v = wr_task_uuid r) responses ->
  bid_submissions_ a = [] ->
  exists tasks, Bids.accepted_tasks responses g a = (Ok tasks, a).
Proof.
  intros Hw. induction responses as [|r responses IH]; intros Hr Hb; cbn [Bids.accepted_tasks]; [by exists []|].
  apply Forall_cons in Hr as [(i & v & Hi & Hu) Hr]. destruct (IH Hr Hb) as [tasks Ht].
  exists (task v :: tasks). unfold Layers.getTask. rewrite <- Hu, (getVertex_at g i v), bind_lift by done. cbn.
  unfold mbind, M_bind. cbn. rewrite Hb. cbn. assert (Bids.set_bids [] a = a) as -> by (destruct a; cbn in *; by subst).
  by rewrite Ht.
Qed.

Lemma tracked_same g g' mf : same_graph g g' -> tracked g mf -> tracked g' mf.
Proof.
  intros Hs [Htr Hmf]. split; [done|]. intros i v Hi. destruct (same_task _ _ _ _ Hs Hi) as (u & Hu & Ht).
  destruct (Hmf i u Hu) as (x & Hx & Hxu & Hl). exists x. unfold uuid_of in *. by rewrite Ht.
Qed.

(** After the last answer: the graph takes its step, and either the auction is over or the next call goes out. *)
Lemma finishIteration_ok s g a g' :
  process_ s = Some {| layered_precedence_graph_ := g; auction_initiator_state_ := a |} -> Layers.next g = (Ok tt, g') ->
  exists s', Initiator.finishIteration connection fleet s = (Ok tt, s') /\
    if Layers.areAllTasksScheduled g' then process_ s' = None
    else material_flow_ s' = material_flow_ s /\ process_ s' = Some {| layered_precedence_graph_ := g';
      auction_initiator_state_ := Bids.clearIterationInfo a |}.
Proof.
  intros Hs Hn. unfold Initiator.finishIteration, mbind, M_bind. rewrite (on_graph_at _ _ _ Hs).
  cbn -[Layers.next]. rewrite Hn. at_auction. cbn -[Layers.areAllTasksScheduled]. at_graph.
  cbn -[Layers.areAllTasksScheduled Initiator.startIteration]. destruct (Layers.areAllTasksScheduled g'); cbn [negb].
  - eexists. split; [reflexivity|]. done.
  - unfold Initiator.startIteration, mbind, M_bind.
    match goal with |- context [Initiator.callForProposal connection fleet ?x] =>
      destruct (callForProposal_core x _ eq_refl) as (s' & -> & Hp' & Hm') end.
    cbn. eexists. split; [reflexivity|]. cbn. rewrite Hp', Hm'. done.
Qed.

Lemma winnerResponseProcessing_ok s g a g' :
  wf g -> process_ s = Some {| layered_precedence_graph_ := g; auction_initiator_state_ := a |} ->
  bid_submissions_ a = [] -> 0 <= no_winner_acceptions_counter_ a < 99 ->
  Forall (fun r => exists i v, vertices_ g !! i = Some v /\ uuid_of v = wr_task_uuid r) (winner_acceptions_ a) ->
  (Layers.areAllFreeTasksScheduled g = true -> Layers.next g = (Ok tt, g')) ->
  exists s', Initiator.winnerResponseProcessing connection fleet s = (Ok tt, s') /\
    if Layers.areAllFreeTasksScheduled g && Layers.areAllTasksScheduled g' then process_ s' = None
    else material_flow_ s' = material_flow_ s /\
      ready (if Layers.areAllFreeTasksScheduled g then g' else g)
        (match winner_acceptions_ a with [] => no_winner_acceptions_counter_ a + 1 | _ => 0 end) s'.
Proof.
  intros Hw Hs Hb Hc Hr Hn. unfold Initiator.winnerResponseProcessing, mbind, M_bind. rewrite (on_auction_at _ _ _ Hs).
  cbn -[Bids.countWinnerResponseProcessing Layers.areAllTasksScheduled Layers.areAllFreeTasksScheduled].
  set (c := match winner_acceptions_ a with [] => no_winner_acceptions_counter_ a + 1 | _ => 0 end).
  assert (Hcount : Bids.countWinnerResponseProcessing a = (Ok tt, Bids.set_winner_counter c a)).
  { unfold Bids.countWinnerResponseProcessing. rewrite bind_get. unfold c. destruct (winner_acceptions_ a); [|done].
    rewrite bind_modify. unfold u8. rewrite Z.mod_small by lia. unfold throw_if.
    by rewrite (proj2 (Z.leb_gt 100 (no_winner_acceptions_counter_ a + 1))) by lia. }
  rewrite Hcount. at_graph.
  cbn -[Bids.processWinnerAcceptions Layers.areAllFreeTasksScheduled Layers.areAllTasksScheduled Initiator.finishIteration]. at_auction.
  destruct (accepted_tasks_ok g (winner_acceptions_ a) (Bids.set_winner_counter c a) Hw Hr Hb) as [tasks Htasks].
  unfold Bids.processWinnerAcceptions at 1. unfold mbind, M_bind.
  cbn -[Bids.accepted_tasks Layers.areAllFreeTasksScheduled Layers.areAllTasksScheduled Initiator.finishIteration].
  change (winner_acceptions_ (Bids.set_winner_counter c a)) with (winner_acceptions_ a). rewrite Htasks.
  cbn -[Layers.areAllFreeTasksScheduled Layers.areAllTasksScheduled Initiator.finishIteration].
  match goal with |- context [Initiator.iterationNotification connection fleet tasks ?x] =>
    destruct (iterationNotification_core tasks x) as (s1 & -> & Hp1 & Hm1) end.
  cbn in Hp1, Hm1. rewrite (on_graph_at _ _ _ Hp1).
  cbn -[Layers.areAllFreeTasksScheduled Layers.areAllTasksScheduled Initiator.finishIteration].
  destruct (Layers.areAllFreeTasksScheduled g) eqn:Hall.
  - match goal with |- context [Initiator.finishIteration connection fleet ?x] =>
      destruct (finishIteration_ok x g _ g' eq_refl (Hn eq_refl)) as (s' & -> & Hs') end.
    exists s'. split; [done|]. cbn [andb]. destruct (Layers.areAllTasksScheduled g'); [done|]. destruct Hs' as [Hm' Hp'].
    split; [by rewrite Hm'|]. eexists. split; [exact Hp'|]. done.
  - eexists. split; [reflexivity|]. cbn [andb]. split; [done|]. eexists. split; [reflexivity|]. done.
Qed.

(** What is left to be auctioned. *)
Definition unassigned (g : LPG) : nat := length (List.filter (fun v => negb (on_layer kScheduled v) && negb (scheduled v)) (vertices_ g)).

(** The graph after a pass. *)
Definition after_pass (bids : list BidSubmission) (g : LPG) : LPG :=
  let g1 := (Bids.selectWinner bids g).2 in
  if Layers.areAllFreeTasksScheduled g1 then (Layers.next g1).2 else g1.

(** An auction in good order: on consistent layers, waiting for bids, all known to the scheduler. *)
Record waiting (g : LPG) (c : Z) (s : IS) : Prop := {
  w_wf : wf g;
  w_layered : layered g;
  w_ready : ready g c s;
  w_tracked : tracked g (material_flow_ s);
}.

(** Bids a pass can work with; one is for a task that is still open. *)
Record useful_bids (g : LPG) (bids : list BidSubmission) : Prop := {
  u_order : weak_order Bid.gt bids = true;
  u_proper : Forall (proper_bid g) bids;
  u_open : exists i v b, vertices_ g !! i = Some v /\ open_task v = true /\ b ∈ bids /\ bid_task_uuid b = uuid_of v;
}.

Lemma proper_response_same g g' r : same_graph g g' -> proper_response g r -> proper_response g' r.
Proof.
  intros Hs Hr Ha. destruct (Hr Ha) as (k & u & Hk & Hu).
  destruct (lookup_lt_is_Some_2 (vertices_ g') k) as [u' Hu']; [rewrite (same_length _ _ Hs); by eapply lookup_lt_Some|].
  exists k, u'. split; [done|]. destruct (same_task _ _ _ _ Hs Hu') as (x & Hx & Hxt). unfold uuid_of in *. congruence.
Qed.

Lemma accept_counter responses (c : Z) :
  (match List.filter wr_accept responses with [] => c + 1 | _ => 0 end) = if existsb wr_accept responses then 0 else c + 1.
Proof. induction responses as [|r l IH]; [done|]. cbn. by destruct (wr_accept r). Qed.

Lemma open_task_at g i v : vertices_ g !! i = Some v -> open_task v = true -> at_layer g i kFree /\ scheduled v = false.
Proof. intros Hi [Hf Hs]%andb_prop. split; [by apply (on_layer_at _ _ _ _ Hi)|by apply negb_true_iff]. Qed.

Lemma count_le {A} (p : A -> bool) (l l' : list A) :
  (forall i x', l' !! i = Some x' -> p x' = true -> exists x, l !! i = Some x /\ p x = true) ->
  (length (List.filter p l') <= length (List.filter p l))%nat.
Proof.
  revert l. induction l' as [|x' l' IH]; intros l H; cbn; [lia|]. destruct l as [|x l].
  - specialize (IH [] ltac:(intros i y Hy Hp; by destruct (H (S i) y Hy Hp) as (? & ? & _))). cbn in IH.
    destruct (p x') eqn:E; [by destruct (H 0%nat x' eq_refl E) as (? & ? & _)|lia].
  - specialize (IH l ltac:(intros i y Hy Hp; exact (H (S i) y Hy Hp))). cbn. destruct (p x') eqn:E; [|destruct (p x); cbn; lia].
    destruct (H 0%nat x' eq_refl E) as (y & [= <-] & ->). cbn. lia.
Qed.

Lemma count_lt {A} (p : A -> bool) (l l' : list A) i x :
  (forall i x', l' !! i = Some x' -> p x' = true -> exists x, l !! i = Some x /\ p x = true) ->
  l !! i = Some x -> p x = true -> (forall x', l' !! i = Some x' -> p x' = false) ->
  (length (List.filter p l') < length (List.filter p l))%nat.
Proof.
  revert l i. induction l' as [|x' l' IH]; intros l i H Hi Hx Hno.
  - cbn. assert (Hin : x ∈ List.filter p l).
    { apply list_elem_of_In, filter_In. split; [|done]. apply list_elem_of_In. by eapply list_elem_of_lookup_2. }
    destruct (List.filter p l); [by apply elem_of_nil in Hin|cbn; lia].
  - destruct l as [|y l]; [done|]. destruct i as [|i]; cbn in Hi.
    + injection Hi as ->. cbn. rewrite Hx, (Hno x' eq_refl). cbn.
      pose proof (count_le p l l' ltac:(intros i z Hz Hp; exact (H (S i) z Hz Hp))). lia.
    + specialize (IH l i ltac:(intros j z Hz Hp; exact (H (S j) z Hz Hp)) Hi Hx Hno). cbn.
      destruct (p x') eqn:E; [|destruct (p y); cbn; lia]. destruct (H 0%nat x' eq_refl E) as (z & [= <-] & ->). cbn. lia.
Qed.

(** An award takes tasks out of those left, the step of the graph puts none back. *)
Lemma award_facts bids g :
  wf g -> useful_bids g bids ->
  exists winners g1, Bids.selectWinner bids g = (Ok winners, g1) /\ awarded bids g winners g1 /\ winners <> [] /\ bids <> [] /\
    (unassigned g1 < unassigned g)%nat.
Proof.
  intros Hw [Hwo Hp (i & v & b & Hi & Ho & Hb & Hbu)].
  destruct (selectWinner_ok bids g Hw Hwo Hp) as (winners & g1 & Hsel & Ha). exists winners, g1.
  destruct (a_all _ _ _ _ Ha b i v Hb Hi (eq_sym Hbu) Ho) as (w & Hwin & Hwu).
  split; [done|]. split; [done|]. split; [by destruct winners; [apply elem_of_nil in Hwin|]|].
  split; [by destruct bids; [apply elem_of_nil in Hb|]|].
  destruct (open_task_at g i v Hi Ho) as [(v' & Hv' & Hf) Hs]. assert (v' = v) as -> by congruence.
  apply (count_lt _ _ _ i v).
  - intros j x'. rewrite (a_vertices _ _ _ _ Ha). destruct (vertices_ g !! j) as [x|] eqn:Ex; [|done]. cbn. intros [= <-] Hx.
    exists x. split; [done|]. unfold after_award in Hx. destruct (winner_of winners (uuid_of x)); [|done].
    cbn in Hx. by rewrite andb_false_r in Hx.
  - done.
  - unfold on_layer. rewrite Hf, Hs. done.
  - intros x'. rewrite (a_vertices _ _ _ _ Ha), Hi. cbn. intros [= <-]. unfold after_award.
    destruct (winner_of winners (uuid_of v)) eqn:E; [cbn; by rewrite andb_false_r|]. apply winner_of_None in E. exfalso. apply E.
    apply list_elem_of_fmap. exists w. split; [congruence|done].
Qed.

Lemma next_unassigned g g' :
  wf g -> layered g -> same_graph g g' -> (forall i, at_layer g' i kScheduled <-> open_at g i) ->
  (unassigned g' <= unassigned g)%nat.
Proof.
  intros Hw Hl Hs Hd. apply count_le. intros i x' Hx' [Hns%negb_true_iff _]%andb_prop.
  destruct (same_task _ _ _ _ Hs Hx') as (x & Hx & _). exists x. split; [done|].
  assert (Hno : ~ open_at g i). { rewrite <- Hd. intros H%(on_layer_at _ _ _ _ Hx'). congruence. }
  apply andb_true_intro. split; apply negb_true_iff, not_true_iff_false.
  - intros H%(on_layer_at _ _ _ _ Hx). apply Hno. by left.
  - intros H. apply Hno. destruct (l_flag g Hl i x Hx H); [left|right]; by exists x.
Qed.

(** Without cycles something can always be auctioned, before the end. *)
Lemma exists_open g depth :
  wf g -> layered g -> (forall i j, edge g i j -> (depth i < depth j)%nat) ->
  (forall j v, vertices_ g !! j = Some v -> layer v = kFree -> scheduled v = false) ->
  Layers.areAllTasksScheduled g = false -> exists i v, vertices_ g !! i = Some v /\ open_task v = true.
Proof.
  intros Hw Hl Hd Hfresh Hns.
  assert (Hk : forall k i v, (depth i < k)%nat -> vertices_ g !! i = Some v -> layer v <> kScheduled ->
    exists i v, vertices_ g !! i = Some v /\ open_task v = true).
  { induction k as [|k IH]; intros i v Hik Hi Hv; [lia|].
    assert (Hwait : at_layer g i kSecond \/ at_layer g i kHidden -> exists i v, vertices_ g !! i = Some v /\ open_task v = true).
    { intros (p & He & Hp)%(l_waits g Hl). destruct (edge_source g p i Hw He) as [u Hu]. apply (IH p u); [|done|].
      - apply Hd in He. lia.
      - intros Hu'. apply Hp. by exists u. }
    destruct (layer v) eqn:El; try done.
    - exists i, v. split; [done|]. unfold open_task, on_layer. rewrite El, (Hfresh i v) by done. done.
    - apply Hwait. left. by exists v.
    - apply Hwait. right. by exists v.
    - exfalso. apply (l_none g Hl i). by exists v. }
  destruct (existsb (fun v => negb (on_layer kScheduled v)) (vertices_ g)) eqn:E.
  - apply existsb_exists in E as (v & Hv & Hn). apply list_elem_of_In, list_elem_of_lookup_1 in Hv as [i Hi].
    apply (Hk (S (depth i)) i v); [lia|done|]. intros El. unfold on_layer in Hn. by rewrite El in Hn.
  - exfalso. apply not_true_iff_false in Hns. apply Hns. apply forallb_forall. intros v Hv.
    apply not_false_iff_true. intros Hf. apply not_true_iff_false in E. apply E. apply existsb_exists. exists v. by rewrite Hf.
Qed.

Lemma open_of_unfinished g :
  Layers.areAllFreeTasksScheduled g = false -> exists i v, vertices_ g !! i = Some v /\ open_task v = true.
Proof.
  intros H. destruct (existsb open_task (vertices_ g)) eqn:E.
  - apply existsb_exists in E as (v & Hv & Ho). apply list_elem_of_In, list_elem_of_lookup_1 in Hv as [i Hi]. by exists i, v.
  - exfalso. apply not_true_iff_false in H. apply H. apply forallb_forall. intros v Hv.
    unfold open_task in E. rewrite <- not_true_iff_false, existsb_exists in E.
    destruct (on_layer kFree v) eqn:Ef; [|done]. cbn. apply not_false_iff_true. intros Hs. apply E. exists v. by rewrite Ef, Hs.
Qed.

(** What one pass does. *)
Lemma pass_ok g c s bids responses :
  waiting g c s -> 0 <= c < 99 -> useful_bids g bids -> Forall (proper_response g) responses ->
  exists s', iteration bids responses s = (Ok tt, s') /\ same_graph g (after_pass bids g) /\
    (unassigned (after_pass bids g) < unassigned g)%nat /\
    if Layers.areAllTasksScheduled (after_pass bids g) then process_ s' = None
    else waiting (after_pass bids g) (if existsb wr_accept responses then 0 else c + 1) s' /\
      ((forall j v, vertices_ (after_pass bids g) !! j = Some v -> layer v = kFree -> scheduled v = false) \/
       exists i v, vertices_ (after_pass bids g) !! i = Some v /\ open_task v = true).
Proof.
  intros [Hw Hl (a & Ha & Hb & Hacc & Hca) Ht] Hc Hu Hr.
  destruct (award_facts bids g Hw Hu) as (winners & g1 & Hsel & Haw & Hwin & Hbids & Hless).
  destruct (awarded_layered _ _ _ _ Hw Hl Haw) as [Hl1 Hat1]. pose proof (a_graph _ _ _ _ Haw) as Hs1.
  pose proof (same_wf _ _ Hw Hs1) as Hw1.
  assert (Hnext : Layers.areAllFreeTasksScheduled g1 = true -> Layers.next g1 = (Ok tt, (Layers.next g1).2)).
  { intros Hall. destruct (next_ok g1 Hw1 Hl1 Hall) as (g' & Hn & _). by rewrite Hn. }
  unfold iteration. unfold mbind, M_bind.
  destruct (bids_received bids s g a Ha) as (s1 & -> & Hm1 & Hp1). rewrite Hb in Hp1. cbn [app] in Hp1.
  destruct (bidProcessing_awards bids s1 g _ winners g1 Hp1 eq_refl Hbids Hsel Hwin) as (s2 & nb & -> & Hm2 & Hp2).
  assert (Hr1 : Forall (proper_response g1) responses).
  { eapply Forall_impl; [exact Hr|]. intros r. by apply proper_response_same. }
  destruct (responses_received responses s2 g1 _ Hw1 Hp2 eq_refl) as (s3 & -> & Ht3 & Hp3); [|done|].
  { rewrite Hm2, Hm1. by eapply tracked_same. }
  destruct (winnerResponseProcessing_ok s3 g1 _ (Layers.next g1).2 Hw1 Hp3) as (s' & -> & Hfinal); [done|cbn; lia| |done|].
  { cbn. apply Forall_forall. intros r Hrin. rewrite list_elem_of_In, filter_In, <- list_elem_of_In in Hrin.
    destruct Hrin as [Hrin Hra]. eapply Forall_forall in Hr1; [|exact Hrin]. by apply Hr1. }
  cbn [winner_acceptions_ Bids.set_acceptions Bids.set_bids no_winner_acceptions_counter_ app] in Hfinal. rewrite Hca, accept_counter in Hfinal.
  exists s'. split; [done|]. unfold after_pass. rewrite Hsel. cbn [snd].
  destruct (Layers.areAllFreeTasksScheduled g1) eqn:Hall; cbn [andb] in Hfinal.
  - destruct (next_ok g1 Hw1 Hl1 Hall) as (g' & Hn & Hs' & Hl' & Hd & Hfresh). rewrite Hn in *. cbn [snd] in *.
    split; [by eapply same_graph_trans|]. split; [pose proof (next_unassigned g1 g' Hw1 Hl1 Hs' Hd); lia|].
    destruct (Layers.areAllTasksScheduled g'); [done|]. destruct Hfinal as [Hm Hready]. split.
    + split; [by eapply same_wf|done|done|]. rewrite Hm. by eapply tracked_same.
    + left. intros j v Hj Hf. by apply (Hfresh j v).
  - split; [done|]. split; [done|]. destruct Hfinal as [Hm Hready].
    destruct (open_of_unfinished g1 Hall) as (i & v & Hi & Ho).
    destruct (Layers.areAllTasksScheduled g1) eqn:Hd.
    + exfalso. apply open_task_at with (g := g1) (i := i) in Ho as [(v' & Hv' & Hf) _]; [|done].
      apply forallb_forall with (x := v) in Hd; [|apply list_elem_of_In; by eapply list_elem_of_lookup_2].
      apply bool_decide_eq_true_1 in Hd. congruence.
    + split; [split; try done; by rewrite Hm|right; by exists i, v].
Qed.

Definition something_open (g : LPG) : Prop := exists i v, vertices_ g !! i = Some v /\ open_task v = true.


(** Passes while the auction is on, with the bids and answers that come in. *)
Fixpoint passes (world : IS -> list BidSubmission * list WinnerResponse) (k : nat) : M IS unit :=
  match k with
  | 0%nat => mret tt
  | S k =>
      s ← get;
      match process_ s with
      | None => mret tt
      | Some _ => iteration (world s).1 (world s).2;; passes world k
      end
  end.

(** A pass that returns is the first of the passes. *)
Lemma one_pass world g c s s1 :
  waiting g c s -> iteration (world s).1 (world s).2 s = (Ok tt, s1) -> forall k, passes world (S k) s = passes world k s1.
Proof.
  intros Hw Hit k. cbn [passes]. rewrite bind_get. destruct (w_ready _ _ _ Hw) as (a & -> & _). unfold mbind, M_bind. by rewrite Hit.
Qed.

Lemma something_unassigned g : something_open g -> ~ (unassigned g <= 0)%nat.
Proof.
  intros (i & v & Hi & Ho). unfold unassigned.
  assert (Hin : v ∈ List.filter (fun v => negb (on_layer kScheduled v) && negb (scheduled v)) (vertices_ g)).
  { apply list_elem_of_In, filter_In. split; [apply list_elem_of_In; by eapply list_elem_of_lookup_2|].
    apply open_task_at with (i := i) (g := g) in Ho as [(u & Hu & Hf) ->]; [|done]. unfold on_layer.
    assert (u = v) as -> by congruence. by rewrite Hf. }
  destruct (List.filter _ _); [by apply elem_of_nil in Hin|cbn; lia].
Qed.

Lemma all_scheduled g :
  Layers.areAllTasksScheduled g = true -> forall i v, vertices_ g !! i = Some v -> layer v = kScheduled.
Proof.
  intros H i v Hi. apply forallb_forall with (x := v) in H; [|apply list_elem_of_In; by eapply list_elem_of_lookup_2].
  by apply bool_decide_eq_true_1 in H.
Qed.

(** C10: an auction concludes. Take an auction of at most 99 tasks that waits for bids on well-formed layers, in a graph
    whose precedences have no cycle, with a scheduler that knows all tasks and their orders, which are transport orders.
    Suppose that in every pass, while a task is open, the bids name tasks of the graph and have a makespan, their
    comparison is a strict weak order (otherwise [std::sort] is undefined), at least one of them is for an open task, and
    acceptances name tasks of the graph. Then no handler throws, and in one of the first passes, of which there are at
    most as many as tasks, the awards bring every task to the scheduled layer and the auction ends, whatever winners
    answer; no pass after it does anything. *)
Theorem auction_concludes world g depth s :
  waiting g 0 s -> something_open g -> (length (vertices_ g) <= 99)%nat ->
  (forall i j, edge g i j -> (depth i < depth j)%nat) ->
  (forall g' c s', same_graph g g' -> waiting g' c s' -> something_open g' ->
    useful_bids g' (world s').1 /\ Forall (proper_response g') (world s').2) ->
  exists k g1 c s1 s', (k < length (vertices_ g))%nat /\
    passes world k s = (Ok tt, s1) /\ same_graph g g1 /\ waiting g1 c s1 /\ something_open g1 /\
    iteration (world s1).1 (world s1).2 s1 = (Ok tt, s') /\
    (forall i v, vertices_ (after_pass (world s1).1 g1) !! i = Some v -> layer v = kScheduled) /\
    process_ s' = None /\ passes world (length (vertices_ g)) s = (Ok tt, s').
Proof.
  intros Hwait Hopen Hn Hd Hworld.
  assert (Hk : forall k g' c s', same_graph g g' -> waiting g' c s' -> something_open g' -> (unassigned g' <= k)%nat ->
    0 <= c -> c + Z.of_nat k <= 99 -> exists m g1 c1 s1 s'', (m < k)%nat /\ passes world m s' = (Ok tt, s1) /\
      same_graph g g1 /\ waiting g1 c1 s1 /\ something_open g1 /\ iteration (world s1).1 (world s1).2 s1 = (Ok tt, s'') /\
      (forall i v, vertices_ (after_pass (world s1).1 g1) !! i = Some v -> layer v = kScheduled) /\
      process_ s'' = None /\ passes world k s' = (Ok tt, s'')).
  { induction k as [|k IH]; intros g' c s' Hs Hw' Ho Hun Hc Hck.
    - exfalso. by apply (something_unassigned g').
    - destruct (Hworld g' c s' Hs Hw' Ho) as [Hu Hr].
      destruct (pass_ok g' c s' _ _ Hw' ltac:(lia) Hu Hr) as (s1 & Hit & Hs1 & Hless & Hend).
      pose proof (one_pass world g' c s' s1 Hw' Hit) as Hpass.
      destruct (Layers.areAllTasksScheduled (after_pass (world s').1 g')) eqn:Hall.
      + exists 0%nat, g', c, s', s1. split; [lia|]. split_and!; [done..| |done|].
        * by apply all_scheduled.
        * rewrite Hpass. destruct k; cbn [passes]; [done|]. by rewrite bind_get, Hend.
      + destruct Hend as [Hw1 Ho1]. assert (Hs2 : same_graph g (after_pass (world s').1 g')) by by eapply same_graph_trans.
        destruct (IH _ _ s1 Hs2 Hw1) as (m & g1 & c1 & s2 & s3 & Hm & Hp & Hrest); [|lia|by destruct (existsb _ _); lia|
          destruct (existsb _ _); lia|].
        { destruct Ho1 as [Hfresh|?]; [|done]. apply (exists_open _ depth); [apply Hw1|apply Hw1| |done|done].
          intros i j. rewrite (same_edge g _ i j Hs2). apply Hd. }
        exists (S m), g1, c1, s2, s3. split; [lia|]. rewrite !Hpass. by split. }
  apply (Hk _ g 0 s); [done|done|done| |lia|lia]. unfold unassigned. apply List.filter_length_le.
Qed.
End Iteration.

(** ** The auction of the three tasks of the constructor *)

Definition package_ability : AmrStaticAbility := {| load_carrier_ := kPackage; max_payload_weight_kg_ := d_of_Z 20 |}.
Definition sample_fleet : list (AmrStaticAbility * unit) :=
  [(package_ability, tt); ({| load_carrier_ := kEuroBox; max_payload_weight_kg_ := d_of_Z 20 |}, tt)].
Definition sample_uuid (n : nat) : string := nth n ["order1"; "task1"; "order2"; "task2"; "order3"; "task3"]%string EmptyString.

(** A prepared initiator that got its material flow. *)
Definition sample_auction : InitiatorState :=
  ((Initiator.construct sample_fleet (fun a => Carrier.getTypeAsString (load_carrier_ a));; Initiator.setPreparationFinished;;
    Initiator.addMaterialFlow "initiator" sample_fleet sample_uuid 0 []) Initiator.initial).2.
Definition sample_auction_graph : LPG :=
  match process_ sample_auction with Some p => layered_precedence_graph_ p | None => Graph.empty end.

(** One vehicle that bids for all. *)
Definition sample_bid (t : Task) : BidSubmission :=
  {| bid_task_uuid := uuid_ t; bid_participant_connection := "amr"; bid_participant_ability := package_ability;
     bid_metrics_composition := Composition.of_current
       (Metric.with_times (d_of_Z 10) (S754_zero false) false (S754_zero false) false Metric.initial) |}.
Definition sample_world (s : InitiatorState) : list BidSubmission * list WinnerResponse :=
  (match process_ s with Some p => sample_bid <$> Layers.getAuctionableTasks (layered_precedence_graph_ p) | None => [] end, []).

Lemma sample_auction_wf : wf sample_auction_graph.
Proof.
  split; [|apply (bool_decide_unpack _); vm_compute; exact I].
  split; [vm_compute; reflexivity|]. apply (bool_decide_unpack _). vm_compute. exact I.
Qed.

Lemma sample_auction_layers :
  layer <$> vertices_ sample_auction_graph = [kFree; kFree; kSecond] /\
  (forall i j, edge sample_auction_graph i j <-> (i < 2)%nat /\ j = 2%nat) /\
  scheduled <$> vertices_ sample_auction_graph = [false; false; false].
Proof.
  split; [vm_compute; reflexivity|]. split; [|vm_compute; reflexivity].
  intros [|[|[|i]]] [|[|[|j]]]; (split; [intros He; vm_compute in He; try discriminate He; lia|intros [? ?]; first [lia|vm_compute; reflexivity]]).
Qed.

Lemma sample_auction_at i l : at_layer sample_auction_graph i l <-> [kFree; kFree; kSecond] !! i = Some l.
Proof.
  rewrite <- (proj1 sample_auction_layers), list_lookup_fmap. unfold at_layer.
  destruct (vertices_ sample_auction_graph !! i) as [v|]; cbn; [|split; [by intros (? & ? & _)|done]].
  split; [by intros (w & [= <-] & <-)|intros [= <-]; by exists v].
Qed.

Lemma sample_auction_layered : layered sample_auction_graph.
Proof.
  destruct sample_auction_layers as (_ & He & Hs).
  assert (Hflag : forall j v, vertices_ sample_auction_graph !! j = Some v -> scheduled v = false).
  { intros j v Hj. assert (Hj' : (scheduled <$> vertices_ sample_auction_graph) !! j = Some (scheduled v)) by by rewrite list_lookup_fmap, Hj.
    rewrite Hs in Hj'. destruct j as [|[|[|j]]]; [by injection Hj'..|discriminate Hj']. }
  assert (Hno : forall j, ~ at_layer sample_auction_graph j kScheduled).
  { intros j. rewrite sample_auction_at. by destruct j as [|[|[|j]]]. }
  split.
  - intros i. rewrite sample_auction_at. by destruct i as [|[|[|i]]].
  - intros i j [H|H] [_ ->]%He; [by apply Hno in H|]. by rewrite sample_auction_at in H.
  - intros j H. exists 0%nat. rewrite He. split; [|apply Hno]. split; [lia|].
    rewrite !sample_auction_at in H. destruct j as [|[|[|j]]]; cbn in H; by destruct H.
  - intros j H. rewrite sample_auction_at in H. by destruct j as [|[|[|j]]].
  - intros j v Hj [Hl|[_ Hf]]; [exfalso; apply (Hno j); by exists v|]. by rewrite (Hflag j v) in Hf.
  - intros j v Hj Hf. by rewrite (Hflag j v) in Hf.
Qed.

Lemma sample_auction_waiting : waiting sample_auction_graph 0 sample_auction.
Proof.
  split; [apply sample_auction_wf|apply sample_auction_layered| |].
  - eexists. split; [vm_compute; reflexivity|]. vm_compute. done.
  - split; [vm_compute; repeat constructor|].
    assert (Hu : uuid_ <$> material_flow_ sample_auction = ["task1"; "task2"; "task3"]%string) by (vm_compute; reflexivity).
    assert (Hug : uuid_of <$> vertices_ sample_auction_graph = ["task1"; "task2"; "task3"]%string) by (vm_compute; reflexivity).
    assert (Hl : Forall (fun y => length (orders_ y) = 1%nat) (material_flow_ sample_auction)) by (vm_compute; repeat constructor).
    assert (Hlg : Forall (fun v => length (orders_ (task v)) = 1%nat) (vertices_ sample_auction_graph)) by (vm_compute; repeat constructor).
    intros i v Hi. assert (Hin : uuid_of v ∈ uuid_ <$> material_flow_ sample_auction).
    { rewrite Hu, <- Hug. apply list_elem_of_fmap_2. by eapply list_elem_of_lookup_2. }
    apply list_elem_of_fmap in Hin as (x & Hx & Hin). exists x. split; [done|]. split; [done|]. intros y Hy _.
    rewrite Forall_forall in Hl. rewrite (Hl y Hy). symmetry. by eapply Forall_lookup_1 in Hlg.
Qed.

(** The vehicle can always be of use. *)
Lemma sample_world_useful g c s :
  waiting g c s -> something_open g -> useful_bids g (sample_world s).1 /\ Forall (proper_response g) (sample_world s).2.
Proof.
  intros [Hw Hl (a & Ha & _) _] (i & v & Hi & Ho). split; [|constructor]. unfold sample_world. rewrite Ha. cbn [fst layered_precedence_graph_].
  assert (Hin : forall b, b ∈ sample_bid <$> Layers.getAuctionableTasks g <->
    exists j u, vertices_ g !! j = Some u /\ open_task u = true /\ b = sample_bid (task u)).
  { intros b. rewrite list_elem_of_fmap. unfold Layers.getAuctionableTasks, Layers.getLayerVertices. split.
    - intros (t & -> & (u & -> & Hu)%list_elem_of_fmap). rewrite list_elem_of_In, !filter_In in Hu. destruct Hu as [[Hu Hf] Hs].
      apply list_elem_of_In, list_elem_of_lookup_1 in Hu as [j Hj]. exists j, u. split; [done|]. unfold open_task. by rewrite Hf, Hs.
    - intros (j & u & Hj & [Hf Hs]%andb_prop & ->). exists (task u). split; [done|]. apply list_elem_of_fmap_2.
      rewrite list_elem_of_In, !filter_In. split; [split; [|done]|done]. apply list_elem_of_In. by eapply list_elem_of_lookup_2. }
  split.
  - apply comparable_weak_order. split.
    + intros b (j & u & _ & _ & ->)%Hin. vm_compute. reflexivity.
    + intros b1 b2 (j & u & _ & _ & ->)%Hin (k & w & _ & _ & ->)%Hin. vm_compute. reflexivity.
  - apply Forall_forall. intros b (j & u & Hj & _ & ->)%Hin. split; [by exists j, u|]. eexists. vm_compute. reflexivity.
  - exists i, v, (sample_bid (task v)). split; [done|]. split; [done|]. split; [|done]. apply Hin. by exists i, v.
Qed.

Lemma sample_auction_open : something_open sample_auction_graph.
Proof. exists 0%nat. eexists. split; vm_compute; reflexivity. Qed.

Lemma selectWinner_awards_witness :
  sample_world sample_auction = (sample_bid <$> Layers.getAuctionableTasks sample_auction_graph, []) /\
  exists winners g', Bids.selectWinner (sample_world sample_auction).1 sample_auction_graph = (Ok winners, g') /\
    awarded (sample_world sample_auction).1 sample_auction_graph winners g'.
Proof.
  split; [vm_compute; reflexivity|].
  destruct (sample_world_useful _ _ _ sample_auction_waiting sample_auction_open) as [[Hwo Hp _] _].
  apply (selectWinner_awards (sample_world sample_auction).1 sample_auction_graph); [apply sample_auction_wf|exact Hwo|exact Hp].
Defined.

Lemma auction_concludes_witness :
  is_Some (process_ ((passes "initiator" sample_fleet sample_world 1) sample_auction).2) /\
  exists k g1 c s1 s', (k < 3)%nat /\
    passes "initiator" sample_fleet sample_world k sample_auction = (Ok tt, s1) /\ same_graph sample_auction_graph g1 /\
    waiting g1 c s1 /\ something_open g1 /\
    iteration "initiator" sample_fleet (sample_world s1).1 (sample_world s1).2 s1 = (Ok tt, s') /\
    (forall i v, vertices_ (after_pass (sample_world s1).1 g1) !! i = Some v -> layer v = kScheduled) /\
    process_ s' = None /\ passes "initiator" sample_fleet sample_world 3 sample_auction = (Ok tt, s').
Proof.
  split; [vm_compute; by eexists|].
  apply (auction_concludes "initiator" sample_fleet sample_world sample_auction_graph (fun i => if Nat.ltb i 2 then 0 else 1)%nat).
  - apply sample_auction_waiting.
  - apply sample_auction_open.
  - vm_compute. lia.
  - intros i j [Hi ->]%(proj1 (proj2 sample_auction_layers)). apply Nat.ltb_lt in Hi as ->. cbn. lia.
  - intros g' c s' _ Hw Ho. by apply (sample_world_useful g' c s').
Defined.



(** ** What goes wrong *)

(** A material flow that comes before the preparation is finished is taken, but its auction never starts: nothing is
    scheduled or sent, the end of the preparation does not start it either, and no other material flow is taken. *)
Lemma early_material_flow_never_starts :
  let printed := fun a => Carrier.getTypeAsString (load_carrier_ a) in
  let s := (Initiator.construct sample_fleet printed Initiator.initial).2 in
  let s' := ((Initiator.addMaterialFlow "initiator" sample_fleet sample_uuid 0 [];; Initiator.setPreparationFinished) s).2 in
  is_Some (process_ s') /\ scheduled_ s' = scheduled_ s /\ sent_ s' = [] /\
  List.filter (fun e => match e.2 with kBidProcessing => true | _ => false end) (scheduled_ s') = [] /\
  exists e, (Initiator.addMaterialFlow "initiator" sample_fleet sample_uuid 0 [] s').1 = Throw e.
Proof. vm_compute. split; [by eexists|]. split; [done|]. split; [done|]. split; [done|]. by eexists. Qed.

(** A bid or an acceptance that arrives after the end is handled through null pointers. *)
Lemma late_messages_undefined s b r :
  process_ s = None ->
  Initiator.process_BidSubmission b s = (Undefined, s) /\ Initiator.process_WinnerResponse r s = (Undefined, s).
Proof.
  intros Hs. assert (Hno : forall A (m : M AuctionInitiatorState A), Initiator.on_auction m s = (Undefined, s)).
  { intros A m. unfold Initiator.on_auction, Initiator.in_process. by rewrite Hs. }
  split; [apply Hno|]. unfold Initiator.process_WinnerResponse, mbind, M_bind. destruct (wr_accept r).
  - unfold Initiator.on_graph, Initiator.in_process. by rewrite Hs.
  - cbn. apply Hno.
Qed.

(** A participant that is notified of all its tasks leaves the auction, without a bid. *)
Lemma notified_of_all_leaves {T P} `{AuctionBasedTaskManagement T P} `{Unordered} connection ability m (s : ParticipantState T P) a :
  map_find (in_initiator_connection m) (initiator_auction_state_mapping_ s) = Some a ->
  Forall (fun e => e.1 ∈ in_task_uuids m) (task_state_mapping a) ->
  exists s', process_IterationNotification connection ability m s = (Ok tt, s') /\
    map_find (in_initiator_connection m) (initiator_auction_state_mapping_ s') = None /\
    participant_sent_ s' = participant_sent_ s.
Proof.
  intros Hf Hall. unfold process_IterationNotification. rewrite bind_get, Hf.
  assert (He : forall l (e : list (string * AuctionParticipantTaskState P)), Forall (fun x => x.1 ∈ l) e ->
    fold_left (fun l uuid => map_erase uuid l) l e = []).
  { induction l as [|u l IH]; intros e He; cbn.
    - destruct e as [|x e]; [done|]. apply Forall_cons in He as [He _]. by apply elem_of_nil in He.
    - apply IH. apply Forall_forall. intros x. unfold map_erase. rewrite list_elem_of_In, filter_In, <- list_elem_of_In.
      intros [Hx Hn%negb_true_iff%bool_decide_eq_false]. rewrite Forall_forall in He. specialize (He x Hx).
      apply elem_of_cons in He as [?|?]; [congruence|done]. }
  rewrite He by done. eexists. split; [reflexivity|]. split; [|done]. cbn.
  unfold map_find, map_erase. destruct (List.find _ _) as [e|] eqn:E; [|done]. exfalso.
  apply find_some in E as [Hin Hk%bool_decide_eq_true_1]. apply filter_In in Hin as [_ Hn].
  by rewrite bool_decide_true in Hn.
Qed.

(** When no bid came in, the initiator notifies of the very tasks that can still be auctioned. *)
Lemma renotification_names_open_tasks :
  let s' := (Initiator.bidProcessing "initiator" sample_fleet sample_auction).2 in
  (Initiator.bidProcessing "initiator" sample_fleet sample_auction).1 = Ok tt /\
  sent_ s' = sent_ sample_auction ++
    [Published "topicpackage" (iteration_notification {| in_initiator_connection := "initiator"; in_task_uuids := ["task1"%string] |});
     Published "topiceurobox" (iteration_notification {| in_initiator_connection := "initiator"; in_task_uuids := ["task2"%string] |})] /\
  Layers.getAuctionableTasks sample_auction_graph = Layers.getAuctionableTasks
    (match process_ s' with Some p => layered_precedence_graph_ p | None => Graph.empty end) /\
  uuid_ <$> Layers.getAuctionableTasks sample_auction_graph = ["task1"; "task2"]%string.
Proof. vm_compute. done. Qed.
