(* ===== verification/Mobility.v ===== *)
(** * How a vehicle moves

    Model of [cpps/amr]: the description of a vehicle ([amr_description.h] and the headers it
    includes), the topology it moves in ([amr_topology.cpp]) and [amr_mobility_helper.cpp], which
    estimates durations and distances and plans the phases of a movement in binary64. The
    addition, subtraction, length and default of [ns3::Vector2D] are parameters. *)

From Stdlib Require Import SpecFloat.
From S2P Require Import Prelude TreeMapper RouteCalculation MaterialFlow Metrics.

(** ** Vectors *)

Class Ns3Vector := {
  v_add : Vector2D -> Vector2D -> Vector2D;
  v_sub : Vector2D -> Vector2D -> Vector2D;
  GetLength : Vector2D -> double;
  v_default : Vector2D;
}.

Abbreviation d_zero := (S754_zero false).
Definition d_two : double := d_of_Z 2.
Definition d_sqrt : double -> double := SFsqrt 53 1024.
Abbreviation v_zero := (Build_Vector2D d_zero d_zero).

(** The operators of [utils/structure_helpers.h]. *)
Module Vec.
Definition div (vec : Vector2D) (d : double) : Vector2D := {| x := d_div (x vec) d; y := d_div (y vec) d |}.
Definition scale (vec : Vector2D) (d : double) : Vector2D := {| x := d_mul (x vec) d; y := d_mul (y vec) d |}.
Definition minus_eq (vec1 vec2 : Vector2D) : Vector2D := {| x := d_sub (x vec1) (x vec2); y := d_sub (y vec1) (y vec2) |}.
Definition plus_eq (vec1 vec2 : Vector2D) : Vector2D := {| x := d_add (x vec1) (x vec2); y := d_add (y vec1) (y vec2) |}.
Definition neg (vec : Vector2D) : Vector2D := {| x := SFopp (x vec); y := SFopp (y vec) |}.
End Vec.

Record Dimensions := { dim_x : double; dim_y : double; dim_z : double }.
Record Pose := { position : Position; orientation : double }.
(** [Pose(position)] and [Pose()] *)
Definition pose_at (p : Position) : Pose := {| position := p; orientation := d_zero |}.
Definition default_pose `{Ns3Vector} : Pose := pose_at v_default.

(** ** [AmrDescription] *)

Record AmrKinematics := {
  max_velocity_m_s_ : double;
  min_velocity_m_s_ : double;
  max_acceleration_m_s2_ : double;
  max_deceleration_m_s2_ : double;
}.
Record AmrLoadHandlingUnit := { load_time_s_ : double; unload_time_s_ : double; ability_ : AmrStaticAbility }.
Record AmrPhysicalProperties := { dimensions_m_ : list double; weight_kg_ : double }.

Module FunctionalityType.
Inductive t := kLoad | kMoveTo | kNavigate | kUnload.
End FunctionalityType.
Abbreviation FunctionalityType := FunctionalityType.t.
#[export] Instance FunctionalityType_eq_dec : EqDecision FunctionalityType.
Proof. solve_decision. Defined.

Record AmrProperties := {
  device_type_ : string;
  friendly_name_ : string;
  functionalities_ : list FunctionalityType;
  manufacturer_ : string;
  model_name_ : string;
  model_number_ : Z;
}.

Record AmrDescription := {
  serial_number_ : Z;
  kinematics_ : AmrKinematics;
  load_handling_ : AmrLoadHandlingUnit;
  properties_ : AmrProperties;
  physical_properties_ : AmrPhysicalProperties;
}.

(** ** [Topology] *)

Record Topology := { topology_uuid_ : string; size_ : Dimensions }.

Module Topo.
Definition construct (size : Dimensions) : outcome Topology :=
  if d_le (dim_x size) d_zero || d_le (dim_y size) d_zero
  then Throw (invalid_argument "Topology dimensions need to > 0")
  else Ok {| topology_uuid_ := EmptyString; size_ := size |}.

Definition getWidth (t : Topology) : double := dim_x (size_ t).
Definition getHeight (t : Topology) : double := dim_y (size_ t).
Definition isValid (t : Topology) : bool := d_gt (dim_x (size_ t)) d_zero && d_gt (dim_y (size_ t)) d_zero.

Definition isPositionInTopology (vector : Position) (t : Topology) : bool :=
  if d_lt (x vector) d_zero || d_lt (y vector) d_zero then false
  else if d_gt (x vector) (dim_x (size_ t)) || d_gt (y vector) (dim_y (size_ t)) then false
  else true.

Definition isPointInTopology (vector : Dimensions) (t : Topology) : outcome bool :=
  if d_lt (dim_x vector) d_zero || d_lt (dim_y vector) d_zero || d_lt (dim_z vector) d_zero
  then Throw (invalid_argument "Vector is negativ, should not be here the case ;)")
  else if d_gt (dim_x vector) (dim_x (size_ t)) || d_gt (dim_y vector) (dim_y (size_ t)) || d_gt (dim_z vector) (dim_z (size_ t))
  then Throw (invalid_argument "Vector is out of bounds")
  else Ok true.
End Topo.

(** ** [AmrMobilityStatus] *)

Inductive AmrMobilityState := kAccelerating | kConstSpeedTraveling | kDecelerating | kStationary | kIdle_.

Record AmrMobilityStatus := {
  ms_state : AmrMobilityState;
  ms_velocity : Vector2D;
  ms_position : Position;
  ms_acceleration : Vector2D;
  ms_timestamp : Duration;
}.

(** ** [AmrMobilityHelper] *)

Module Mobility.
Section Mobility.
Context `{Ns3Vector}.

Definition holds (f : Functionality) (types : list FunctionalityType) : bool :=
  match f with
  | Load _ => bool_decide (FunctionalityType.kLoad ∈ types)
  | MoveTo _ => bool_decide (FunctionalityType.kMoveTo ∈ types)
  | Unload _ => bool_decide (FunctionalityType.kUnload ∈ types)
  | Navigate _ => bool_decide (FunctionalityType.kNavigate ∈ types)
  | NoFunctionality => false
  end.
Definition isFunctionalityInDescription (f : Functionality) (description : AmrDescription) : bool :=
  holds f (functionalities_ (properties_ description)).

Definition arePositionsInTopology (f : Functionality) (topology : Topology) : outcome unit :=
  match f with
  | Load destination =>
      throw_when (negb (Topo.isPositionInTopology destination topology)) (invalid_argument "destination of Deliver is invalid")
  | MoveTo destination =>
      throw_when (negb (Topo.isPositionInTopology destination topology)) (invalid_argument "destination of MoveTo is invalid")
  | Unload destination =>
      throw_when (negb (Topo.isPositionInTopology destination topology)) (invalid_argument "destination of PickUp is invalid")
  | Navigate wpts =>
      throw_when (existsb (fun p => negb (Topo.isPositionInTopology p topology)) wpts)
        (invalid_argument "waypoint of Navigate is invalid")
  | NoFunctionality => mret tt
  end.

Definition sanityCheck (start_pose : Pose) (f : Functionality) (description : AmrDescription) (topology : Topology)
    : outcome unit :=
  throw_when (negb (isFunctionalityInDescription f description)) (invalid_argument "functionality is invalid");;
  throw_when (negb (Topo.isPositionInTopology (position start_pose) topology)) (invalid_argument "start_pose is invalid");;
  arePositionsInTopology f topology.

(** *** Distances *)

Definition navigate_distance (start_position : Position) (waypoints : list Position) : Distance :=
  (fold_left (fun (s : Distance * Position) p => (d_add s.1 (GetLength (v_sub p s.2)), p)) waypoints (d_zero, start_position)).1.

Definition calculateDistance (start_position : Position) (f : Functionality) : Distance :=
  match f with
  | Load destination | MoveTo destination | Unload destination => GetLength (v_sub start_position destination)
  | Navigate waypoints => navigate_distance start_position waypoints
  | NoFunctionality => d_of_Z (-1)
  end.

(** Where the vehicle is after a functionality. *)
Definition end_position (start : Position) (f : Functionality) : outcome Position :=
  match f with
  | MoveTo destination => Ok destination
  | Navigate waypoints => back waypoints
  | _ => Ok start
  end.

Fixpoint totalDistance_from (distance : Distance) (last_pos : Position) (functionalities : list Functionality)
    : outcome Distance :=
  match functionalities with
  | [] => mret distance
  | f :: rest =>
      last_pos' ← end_position last_pos f;
      totalDistance_from (d_add distance (calculateDistance last_pos f)) last_pos' rest
  end.
Definition totalDistance (start_position : Position) (functionalities : list Functionality) : outcome Distance :=
  totalDistance_from d_zero start_position functionalities.

(** *** Phases: acceleration, constant speed, deceleration *)

Record Phases := { p_acc : double; p_const : double; p_dec : double }.

Definition calculatePhaseDistances (start_position : Position) (f : Functionality) (description : AmrDescription) : Phases :=
  let distance_m := calculateDistance start_position f in
  let max_vel := max_velocity_m_s_ (kinematics_ description) in
  let max_dec := SFabs (max_deceleration_m_s2_ (kinematics_ description)) in
  let max_acc := max_acceleration_m_s2_ (kinematics_ description) in
  let distance_acc := d_div (d_mul max_vel max_vel) (d_mul d_two max_acc) in
  let distance_dec := d_div (d_mul max_vel max_vel) (d_mul d_two max_dec) in
  let distance_threshold := d_add distance_dec distance_acc in
  if d_lt distance_m distance_threshold then
    {| p_acc := d_div (d_mul distance_m max_dec) (d_add max_acc max_dec); p_const := d_zero;
       p_dec := d_div (d_mul distance_m max_acc) (d_add max_acc max_dec) |}
  else
    {| p_acc := distance_acc; p_const := d_sub (d_sub distance_m distance_acc) distance_dec; p_dec := distance_dec |}.

Definition calculatePhaseDurations (distances : Phases) (description : AmrDescription) : Phases :=
  let max_vel := max_velocity_m_s_ (kinematics_ description) in
  let max_dec := SFabs (max_deceleration_m_s2_ (kinematics_ description)) in
  let max_acc := max_acceleration_m_s2_ (kinematics_ description) in
  if d_eq (p_const distances) d_zero then
    {| p_acc := d_sqrt (d_div (d_mul d_two (p_acc distances)) max_acc); p_const := d_zero;
       p_dec := d_sqrt (d_div (d_mul d_two (p_dec distances)) max_dec) |}
  else
    {| p_acc := d_div max_vel max_acc; p_const := d_div (p_const distances) max_vel; p_dec := d_div max_vel max_dec |}.

(** [std::accumulate] *)
Definition total (p : Phases) : Duration := d_add (d_add (d_add d_zero (p_acc p)) (p_const p)) (p_dec p).

(** *** Durations *)

Definition estimateDuration (start_pose : Pose) (f : Functionality) (description : AmrDescription) (topology : Topology)
    (check_positioning : bool) : outcome Duration :=
  sanityCheck start_pose f description topology;;
  match f with
  | MoveTo _ | Navigate _ =>
      mret (total (calculatePhaseDurations (calculatePhaseDistances (position start_pose) f description) description))
  | Load _ =>
      throw_when (check_positioning && negb (d_eq (calculateDistance (position start_pose) f) d_zero))
        (invalid_argument "start_pose is invalid for destination of Load");;
      mret (load_time_s_ (load_handling_ description))
  | Unload _ =>
      throw_when (check_positioning && negb (d_eq (calculateDistance (position start_pose) f) d_zero))
        (invalid_argument "start_pose is invalid for destination of Unload");;
      mret (unload_time_s_ (load_handling_ description))
  | NoFunctionality => mret (d_of_Z (-1))
  end.

Fixpoint estimateTotal_from (total_duration : Duration) (start : Position) (functionalities : list Functionality)
    (description : AmrDescription) (topology : Topology) (check_positioning : bool) : outcome Duration :=
  match functionalities with
  | [] => mret total_duration
  | f :: rest =>
      duration ← estimateDuration (pose_at start) f description topology check_positioning;
      start' ← end_position start f;
      estimateTotal_from (d_add total_duration duration) start' rest description topology check_positioning
  end.
Definition estimateTotal (start_pose : Pose) (functionalities : list Functionality) (description : AmrDescription)
    (topology : Topology) (check_positioning : bool) : outcome Duration :=
  estimateTotal_from d_zero (position start_pose) functionalities description topology check_positioning.

(** *** The phases of a straight movement *)

Definition status (st : AmrMobilityState) (v : Vector2D) (p : Position) (a : Vector2D) (t : Duration) : AmrMobilityStatus :=
  {| ms_state := st; ms_velocity := v; ms_position := p; ms_acceleration := a; ms_timestamp := t |}.

(** The next position and time, and the speed reached. *)
Record Progress := { next_position : Position; next_timestamp : Duration; next_velocity_scalar : double }.

Definition direction_of (translation : Vector2D) : Vector2D := Vec.div translation (GetLength translation).

Definition accelerate (translation : Vector2D) (distance duration max_acc : double) (s : Progress)
    : outcome (list AmrMobilityStatus * Progress) :=
  if d_gt duration d_zero then
    if d_eq (GetLength translation) d_zero then Undefined
    else Ok
      ([status kAccelerating v_zero (next_position s) (Vec.scale (direction_of translation) max_acc) (next_timestamp s)],
       {| next_position := Vec.plus_eq (next_position s) (Vec.scale (direction_of translation) distance);
          next_timestamp := d_add (next_timestamp s) duration; next_velocity_scalar := d_mul duration max_acc |})
  else Ok ([], s).

Definition travel (translation : Vector2D) (distance duration max_vel : double) (s : Progress)
    : outcome (list AmrMobilityStatus * Progress) :=
  if d_gt duration d_zero then
    if d_eq (GetLength translation) d_zero then Undefined
    else Ok
      ([status kConstSpeedTraveling (Vec.scale (direction_of translation) max_vel) (next_position s) v_zero (next_timestamp s)],
       {| next_position := Vec.plus_eq (next_position s) (Vec.scale (direction_of translation) distance);
          next_timestamp := d_add (next_timestamp s) duration; next_velocity_scalar := max_vel |})
  else Ok ([], s).

Definition decelerate (translation : Vector2D) (distance duration max_dec : double) (s : Progress)
    : outcome (list AmrMobilityStatus * Progress) :=
  if d_gt duration d_zero then
    if d_eq (GetLength translation) d_zero then Undefined
    else Ok
      ([status kDecelerating (Vec.scale (direction_of translation) (next_velocity_scalar s)) (next_position s)
          (Vec.scale (Vec.div (Vec.neg translation) (GetLength translation)) max_dec) (next_timestamp s)],
       {| next_position := Vec.plus_eq (next_position s) (Vec.scale (direction_of translation) distance);
          next_timestamp := d_add (next_timestamp s) duration; next_velocity_scalar := next_velocity_scalar s |})
  else Ok ([], s).

Definition stand (destination : Position) (stationary_time : Duration) (s : Progress) : list AmrMobilityStatus * Progress :=
  if d_gt stationary_time d_zero then
    ([status kStationary v_zero destination v_zero (next_timestamp s)],
     {| next_position := next_position s; next_timestamp := d_add (next_timestamp s) stationary_time;
        next_velocity_scalar := next_velocity_scalar s |})
  else ([], s).

Definition straightPhases (start_timestamp : Duration) (start_position destination : Position) (distances : Phases)
    (stationary_time : Duration) (description : AmrDescription) : outcome (list AmrMobilityStatus) :=
  let durations := calculatePhaseDurations distances description in
  let k := kinematics_ description in
  let translation := v_sub destination start_position in
  let s := {| next_position := start_position; next_timestamp := start_timestamp; next_velocity_scalar := d_zero |} in
  acc ← accelerate translation (p_acc distances) (p_acc durations) (max_acceleration_m_s2_ k) s;
  const ← travel translation (p_const distances) (p_const durations) (max_velocity_m_s_ k) acc.2;
  dec ← decelerate translation (p_dec distances) (p_dec durations) (max_deceleration_m_s2_ k) const.2;
  let stat := stand destination stationary_time dec.2 in
  mret (acc.1 ++ const.1 ++ dec.1 ++ stat.1 ++ [status kIdle_ v_zero destination v_zero (next_timestamp stat.2)]).

(** *** The phases of a movement along waypoints

    The loops share the variables of the function; [waypoints.begin() + i] is what is left of the waypoints. *)
Record Course := {
  translation_ : Vector2D;
  cumulative_distance : double;
  cumulative_time : Duration;
  wp : Position;
  last_wp : Position;
  last_vel : Vector2D;
  ret : list AmrMobilityStatus;
}.

Definition step_to (p : Position) (c : Course) : Course :=
  let translation := v_sub p (wp c) in
  {| translation_ := translation; cumulative_distance := d_add (cumulative_distance c) (GetLength translation);
     cumulative_time := cumulative_time c; wp := p; last_wp := wp c; last_vel := last_vel c; ret := ret c |}.

(** A status is pushed; the time and the velocity go on. *)
Definition push (st : AmrMobilityStatus) (time : Duration) (vel : Vector2D) (c : Course) : Course :=
  {| translation_ := translation_ c; cumulative_distance := cumulative_distance c;
     cumulative_time := d_add (cumulative_time c) time; wp := wp c; last_wp := last_wp c; last_vel := vel;
     ret := ret c ++ [st] |}.

(** A phase ends between two waypoints: at a point of the course, with the distance and time of the phases so far. *)
Definition turn (st : AmrMobilityStatus) (point : Position) (distance : double) (time : Duration) (vel : Vector2D) (c : Course)
    : Course :=
  {| translation_ := translation_ c; cumulative_distance := distance; cumulative_time := time; wp := point;
     last_wp := last_wp c; last_vel := vel; ret := ret c ++ [st] |}.

Section Navigate.
Variables (start_timestamp : Duration) (distances durations : Phases) (max_acc max_dec max_vel : double).

(** The first loop; it breaks where the acceleration is over. *)
Fixpoint accelerating (waypoints : list Position) (c : Course) : list Position * Course :=
  match waypoints with
  | [] => ([], c)
  | p :: rest =>
      let c := step_to p c in
      let length := GetLength (translation_ c) in
      if d_eq length d_zero then accelerating rest c
      else if d_lt (cumulative_distance c) (p_acc distances) then
        let direction := Vec.div (translation_ c) length in
        let speed := GetLength (last_vel c) in
        let time := d_add (d_div (SFopp speed) max_acc)
          (d_sqrt (d_add (d_div (d_div (d_mul speed speed) max_acc) max_acc) (d_div (d_mul d_two length) max_acc))) in
        let velocity := Vec.scale direction (d_add speed (d_mul max_acc time)) in
        accelerating rest
          (push (status kAccelerating velocity (last_wp c) (Vec.scale direction max_acc)
                   (d_add start_timestamp (cumulative_time c))) time velocity c)
      else (waypoints, c)
  end.

Definition acceleration_ends (c : Course) : Course :=
  let length := GetLength (translation_ c) in
  if d_gt length d_zero && d_gt (p_acc durations) d_zero then
    turn (status kAccelerating (Vec.div (Vec.scale (translation_ c) (GetLength (last_vel c))) length) (last_wp c)
            (Vec.scale (Vec.div (translation_ c) length) max_acc) (d_add start_timestamp (cumulative_time c)))
      (v_add (last_wp c) (Vec.scale (Vec.div (translation_ c) length)
        (d_sub (d_add (p_acc distances) length) (cumulative_distance c))))
      (p_acc distances) (p_acc durations)
      (Vec.scale (Vec.div (translation_ c) length) (d_mul max_acc (p_acc durations))) c
  else c.

Fixpoint traveling (waypoints : list Position) (c : Course) : list Position * Course :=
  match waypoints with
  | [] => ([], c)
  | p :: rest =>
      let c := step_to p c in
      let length := GetLength (translation_ c) in
      if d_eq length d_zero then traveling rest c
      else if d_lt (cumulative_distance c) (d_add (p_acc distances) (p_const distances)) then
        let direction := Vec.div (translation_ c) length in
        traveling rest
          (push (status kConstSpeedTraveling (Vec.scale direction max_vel) (last_wp c) v_zero
                   (d_add start_timestamp (cumulative_time c))) (d_div length max_vel) (last_vel c) c)
      else (waypoints, c)
  end.

Definition travel_ends (c : Course) : Course :=
  let length := GetLength (translation_ c) in
  if d_gt length d_zero && d_gt (p_const durations) d_zero then
    let velocity := Vec.scale (Vec.div (translation_ c) length) max_vel in
    turn (status kConstSpeedTraveling velocity (last_wp c) v_zero (d_add start_timestamp (cumulative_time c)))
      (v_add (last_wp c) (Vec.scale (Vec.div (translation_ c) length)
        (d_sub (d_add (d_add (p_acc distances) (p_const distances)) length) (cumulative_distance c))))
      (d_add (p_acc distances) (p_const distances)) (d_add (p_acc durations) (p_const durations)) velocity c
  else
    {| translation_ := translation_ c; cumulative_distance := d_sub (cumulative_distance c) length;
       cumulative_time := cumulative_time c; wp := Vec.minus_eq (wp c) (translation_ c); last_wp := last_wp c;
       last_vel := last_vel c; ret := ret c |}.

Fixpoint decelerating (waypoints : list Position) (c : Course) : Course :=
  match waypoints with
  | [] => c
  | p :: rest =>
      let c := step_to p c in
      let length := GetLength (translation_ c) in
      if d_eq length d_zero then decelerating rest c
      else if d_gt (cumulative_distance c) (d_add (p_acc distances) (p_const distances)) then
        let direction := Vec.div (translation_ c) length in
        let speed := GetLength (last_vel c) in
        let time := d_sub (d_div speed max_dec)
          (d_sqrt (d_sub (d_div (d_div (d_mul speed speed) max_dec) max_dec) (d_div (d_mul d_two length) max_dec))) in
        decelerating rest
          (push (status kDecelerating (Vec.scale direction speed) (last_wp c) (Vec.scale (Vec.neg direction) max_dec)
                   (d_add start_timestamp (cumulative_time c))) time
             (Vec.scale direction (d_sub speed (d_mul max_dec time))) c)
      else decelerating rest c
  end.
End Navigate.

(** [navigate.waypoints[0]] of no waypoints is undefined; the first [last_wp] is never read. *)
Definition navigatePhases (start_timestamp : Duration) (start_position : Position) (waypoints : list Position)
    (description : AmrDescription) : outcome (list AmrMobilityStatus) :=
  let distances := calculatePhaseDistances start_position (Navigate waypoints) description in
  let durations := calculatePhaseDurations distances description in
  let max_acc := max_acceleration_m_s2_ (kinematics_ description) in
  let max_dec := max_deceleration_m_s2_ (kinematics_ description) in
  let max_vel := max_velocity_m_s_ (kinematics_ description) in
  match waypoints with
  | [] => Undefined
  | first :: _ =>
      let c := {| translation_ := v_sub first start_position; cumulative_distance := d_zero; cumulative_time := d_zero;
                  wp := start_position; last_wp := start_position; last_vel := v_zero; ret := [] |} in
      let '(rest, c) := accelerating start_timestamp distances max_acc waypoints c in
      let c := acceleration_ends start_timestamp distances durations max_acc c in
      let '(rest, c) := traveling start_timestamp distances max_vel rest c in
      let c := travel_ends start_timestamp distances durations max_vel c in
      let c := decelerating start_timestamp distances max_dec rest c in
      mret (ret c ++ [status kIdle_ v_zero (wp c) v_zero
        (d_add (d_add (d_add start_timestamp (p_acc durations)) (p_const durations)) (p_dec durations))])
  end.

(** *** The whole plan, and the status in between *)

Definition no_distances : Phases := {| p_acc := d_zero; p_const := d_zero; p_dec := d_zero |}.

Definition calculatePhases (start_timestamp : Duration) (start_pose : Pose) (f : Functionality) (description : AmrDescription)
    (topology : Topology) : outcome (list AmrMobilityStatus) :=
  sanityCheck start_pose f description topology;;
  match f with
  | Load destination =>
      straightPhases start_timestamp (position start_pose) destination no_distances (load_time_s_ (load_handling_ description))
        description
  | MoveTo destination =>
      straightPhases start_timestamp (position start_pose) destination
        (calculatePhaseDistances (position start_pose) f description) d_zero description
  | Unload destination =>
      straightPhases start_timestamp (position start_pose) destination no_distances (unload_time_s_ (load_handling_ description))
        description
  | Navigate waypoints => navigatePhases start_timestamp (position start_pose) waypoints description
  | NoFunctionality => mret []
  end.

(** [numeric_limits<float>::epsilon()], 1 / 2.0 *)
Definition float_epsilon : double := d_div (d_of_Z 1) (d_of_Z (2 ^ 23)).
Definition half : double := d_div (d_of_Z 1) d_two.

Definition accelerated (st : AmrMobilityStatus) (delta_t : Duration) : AmrMobilityStatus :=
  {| ms_state := ms_state st;
     ms_velocity := Vec.plus_eq (ms_velocity st) (Vec.scale (ms_acceleration st) delta_t);
     ms_position := Vec.plus_eq (ms_position st)
       (v_add (Vec.scale (ms_velocity st) delta_t) (Vec.scale (Vec.scale (Vec.scale (ms_acceleration st) half) delta_t) delta_t));
     ms_acceleration := ms_acceleration st; ms_timestamp := ms_timestamp st |}.

Definition calculateMobilityStatus (current_phase : AmrMobilityStatus) (current_timestamp : Duration)
    : outcome AmrMobilityStatus :=
  let delta_t := d_sub current_timestamp (ms_timestamp current_phase) in
  throw_when (d_lt delta_t (SFopp float_epsilon)) (invalid_argument "current_timestamp is before phase timestamp");;
  let st :=
    match ms_state current_phase with
    | kAccelerating | kDecelerating => accelerated current_phase delta_t
    | kConstSpeedTraveling =>
        status kConstSpeedTraveling (ms_velocity current_phase)
          (Vec.plus_eq (ms_position current_phase) (Vec.scale (ms_velocity current_phase) delta_t))
          (ms_acceleration current_phase) (ms_timestamp current_phase)
    | _ => current_phase
    end in
  mret (status (ms_state st) (ms_velocity st) (ms_position st) (ms_acceleration st) current_timestamp).

(** *** Metrics *)

Record Domains := {
  empty_time : Duration;
  loaded_time : Duration;
  action_time_ : Duration;
  empty_distance : Distance;
  loaded_distance : Distance;
}.

Definition no_metrics : Domains :=
  {| empty_time := d_zero; loaded_time := d_zero; action_time_ := d_zero; empty_distance := d_zero; loaded_distance := d_zero |}.

(** The metrics, whether the vehicle is loaded, and where it is. *)
Definition metrics_step (description : AmrDescription) (topology : Topology) (s : Domains * bool * Position) (f : Functionality)
    : outcome (Domains * bool * Position) :=
  let '(d, loaded, last_pos) := s in
  match f with
  | MoveTo destination =>
      let dist := calculateDistance last_pos f in
      time ← estimateDuration (pose_at last_pos) f description topology false;
      mret ((if loaded : bool then
         {| empty_time := empty_time d; loaded_time := d_add (loaded_time d) time; action_time_ := action_time_ d;
            empty_distance := empty_distance d; loaded_distance := d_add (loaded_distance d) dist |}
       else
         {| empty_time := d_add (empty_time d) time; loaded_time := loaded_time d; action_time_ := action_time_ d;
            empty_distance := d_add (empty_distance d) dist; loaded_distance := loaded_distance d |}), loaded, destination)
  | Load _ | Unload _ =>
      time ← estimateDuration (pose_at last_pos) f description topology false;
      mret ({| empty_time := empty_time d; loaded_time := loaded_time d; action_time_ := d_add (action_time_ d) time;
               empty_distance := empty_distance d; loaded_distance := loaded_distance d |},
            match f with Load _ => true | _ => false end, last_pos)
  | Navigate _ => Throw (invalid_argument "Functionality Navigate not implemented yet")
  | NoFunctionality => mret s
  end.

Fixpoint metrics_from (description : AmrDescription) (topology : Topology) (s : Domains * bool * Position)
    (functionalities : list Functionality) : outcome (Domains * bool * Position) :=
  match functionalities with
  | [] => mret s
  | f :: rest => s' ← metrics_step description topology s f; metrics_from description topology s' rest
  end.

Definition calculateMetricsByDomain (start_position : Position) (functionalities : list Functionality)
    (description : AmrDescription) (topology : Topology) : outcome Domains :=
  s ← metrics_from description topology (no_metrics, false, start_position) functionalities;
  mret s.1.1.
End Mobility.
End Mobility.
