(* ===== verification/MobilityProperties.v ===== *)
(** * Movements: the plan takes the time that was estimated

    A planned straight movement passes through its phases in order and is complete, at its
    destination, after the duration that is estimated for it; a transport order costs the way to
    the pickup unloaded, the way to the delivery loaded and the handling. *)

From Stdlib Require Import SpecFloat.
From S2P Require Import Prelude TreeMapper RouteCalculation MaterialFlow Metrics Mobility.

(** A duration: not below zero, and a number. *)
Definition proper_duration (t : Duration) : Prop := is_nan t = false /\ d_lt t d_zero = false.

Lemma not_positive_zero t : proper_duration t -> d_gt t d_zero = false -> exists s, t = S754_zero s.
Proof. unfold d_gt. destruct t as [s|[]| |[] m e]; intros [H1 H2] H; try done. by exists s. Qed.

(** Numbers without a minus sign stay so under addition; adding nothing does not change them. *)
Definition unsigned (a : double) : Prop :=
  match a with S754_zero true | S754_infinity true | S754_finite true _ _ => False | _ => True end.

Lemma d_add_nothing a s : unsigned a -> d_add a (S754_zero s) = a.
Proof. destruct a as [[]|[]| |[] m e]; intros H; try done; by destruct s. Qed.

Lemma round_unsigned m e : unsigned (binary_round 53 1024 false m e).
Proof.
  unfold binary_round. destruct (shl_align _ _ _) as [p e']. unfold binary_round_aux.
  destruct (shr_fexp 53 1024 (Z.pos p) e' loc_Exact) as [mrs e2]. destruct (shr_fexp 53 1024 _ e2 loc_Exact) as [mrs' e3].
  destruct (shr_m mrs'); [done| |done]. by destruct (_ <=? _).
Qed.

Lemma d_add_unsigned a b : unsigned a -> d_gt b d_zero = true -> unsigned (d_add a b).
Proof.
  unfold d_gt. destruct b as [[]|[]| |[] m e], a as [[]|[]| |[] m' e']; intros Ha Hb; try done.
  unfold d_add, SFadd, binary_normalize.
  destruct (_ + _) as [|p|p] eqn:E; [done|apply round_unsigned|]. cbn in E. lia.
Qed.

Section Plans.
Context `{Ns3Vector}.

(** The states of a list of phases. *)
Definition states (l : list AmrMobilityStatus) : list AmrMobilityState := ms_state <$> l.

(** One phase: at most one status, in its state; the time goes on by the duration. *)
Lemma phase_time (st : AmrMobilityState) (duration : Duration) (s s' : Mobility.Progress) (l : list AmrMobilityStatus) :
  proper_duration duration -> unsigned (Mobility.next_timestamp s) ->
  (if d_gt duration d_zero
   then states l = [st] /\ Mobility.next_timestamp s' = d_add (Mobility.next_timestamp s) duration
   else l = [] /\ s' = s) ->
  states l `sublist_of` [st] /\ Mobility.next_timestamp s' = d_add (Mobility.next_timestamp s) duration /\
  unsigned (Mobility.next_timestamp s').
Proof.
  intros Hd Hs Hl. destruct (d_gt duration d_zero) eqn:E.
  - destruct Hl as [-> ->]. split; [done|]. split; [done|]. by apply d_add_unsigned.
  - destruct Hl as [-> ->]. destruct (not_positive_zero _ Hd E) as [sign ->]. split; [by constructor|].
    by rewrite d_add_nothing.
Qed.

Lemma accelerate_phase translation distance duration max_acc s l s' :
  Mobility.accelerate translation distance duration max_acc s = Ok (l, s') ->
  if d_gt duration d_zero
  then states l = [kAccelerating] /\ Mobility.next_timestamp s' = d_add (Mobility.next_timestamp s) duration
  else l = [] /\ s' = s.
Proof.
  unfold Mobility.accelerate. destruct (d_gt duration d_zero); [|by intros [= <- <-]].
  destruct (d_eq _ _); [done|]. by intros [= <- <-].
Qed.
Lemma travel_phase translation distance duration max_vel s l s' :
  Mobility.travel translation distance duration max_vel s = Ok (l, s') ->
  if d_gt duration d_zero
  then states l = [kConstSpeedTraveling] /\ Mobility.next_timestamp s' = d_add (Mobility.next_timestamp s) duration
  else l = [] /\ s' = s.
Proof.
  unfold Mobility.travel. destruct (d_gt duration d_zero); [|by intros [= <- <-]].
  destruct (d_eq _ _); [done|]. by intros [= <- <-].
Qed.
Lemma decelerate_phase translation distance duration max_dec s l s' :
  Mobility.decelerate translation distance duration max_dec s = Ok (l, s') ->
  if d_gt duration d_zero
  then states l = [kDecelerating] /\ Mobility.next_timestamp s' = d_add (Mobility.next_timestamp s) duration
  else l = [] /\ s' = s.
Proof.
  unfold Mobility.decelerate. destruct (d_gt duration d_zero); [|by intros [= <- <-]].
  destruct (d_eq _ _); [done|]. by intros [= <- <-].
Qed.

(** C28: the plan of a straight movement, made at time zero, passes through acceleration, constant speed and deceleration
    in this order (each at most once), and ends with the vehicle idle at the destination, exactly at the time that
    [estimateDuration] gives, rounding included; provided the durations of the phases are proper. *)
Theorem plan_takes_the_estimated_time start_pose destination description topology check duration phases :
  let durations := Mobility.calculatePhaseDurations
    (Mobility.calculatePhaseDistances (position start_pose) (MoveTo destination) description) description in
  proper_duration (Mobility.p_acc durations) -> proper_duration (Mobility.p_const durations) ->
  proper_duration (Mobility.p_dec durations) ->
  Mobility.estimateDuration start_pose (MoveTo destination) description topology check = Ok duration ->
  Mobility.calculatePhases d_zero start_pose (MoveTo destination) description topology = Ok phases ->
  exists moving, phases = moving ++ [Mobility.status kIdle_ v_zero destination v_zero duration] /\
    states moving `sublist_of` [kAccelerating; kConstSpeedTraveling; kDecelerating].
Proof.
  intros durations Ha Hc Hd Hest Hplan. unfold Mobility.estimateDuration in Hest. unfold Mobility.calculatePhases in Hplan.
  destruct (Mobility.sanityCheck start_pose (MoveTo destination) description topology) as [[]| |]; [|done|done].
  cbn [mbind outcome_bind] in Hest, Hplan. injection Hest as <-. fold durations. unfold Mobility.straightPhases in Hplan.
  fold durations in Hplan. destruct (Mobility.accelerate _ _ _ _ _) as [[l1 s1]| |] eqn:E1; [|done|done]. cbn in Hplan.
  destruct (Mobility.travel _ _ _ _ _) as [[l2 s2]| |] eqn:E2; [|done|done]. cbn in Hplan.
  destruct (Mobility.decelerate _ _ _ _ _) as [[l3 s3]| |] eqn:E3; [|done|done]. cbn in Hplan. injection Hplan as <-.
  apply accelerate_phase in E1. apply travel_phase in E2. apply decelerate_phase in E3.
  destruct ((fun U => phase_time _ _ _ _ _ Ha U E1) I) as (S1 & T1 & U1).
  destruct (phase_time kConstSpeedTraveling _ _ _ _ Hc U1 E2) as (S2 & T2 & U2).
  destruct (phase_time kDecelerating _ _ _ _ Hd U2 E3) as (S3 & T3 & U3).
  exists (l1 ++ l2 ++ l3). split; [|unfold states; rewrite !fmap_app; by apply (sublist_app _ [_]), (sublist_app _ [_])].
  rewrite <- !app_assoc. do 4 f_equal. unfold Mobility.total. by rewrite T3, T2, T1.
Qed.

(** The positions are checked against the topology also where the documentation says they are not, that is when
    [check_positioning] is false. *)
Theorem positions_always_checked start_pose f description topology check :
  Mobility.isFunctionalityInDescription f description = true ->
  Topo.isPositionInTopology (position start_pose) topology = false ->
  Mobility.estimateDuration start_pose f description topology check = Throw (invalid_argument "start_pose is invalid").
Proof. intros Hf Hp. unfold Mobility.estimateDuration, Mobility.sanityCheck. by rewrite Hf, Hp. Qed.

(** ** A transport order *)

(** A vehicle that can do everything, and a place it may be. *)
Definition capable (description : AmrDescription) : Prop :=
  forall f, f <> NoFunctionality -> Mobility.isFunctionalityInDescription f description = true.
Definition inside (topology : Topology) (p : Position) : Prop := Topo.isPositionInTopology p topology = true.

Lemma sanity_ok description topology start f :
  capable description -> inside topology start ->
  match f with Load p | MoveTo p | Unload p => inside topology p | _ => False end ->
  Mobility.sanityCheck (pose_at start) f description topology = Ok tt.
Proof.
  intros Hc Hs Hf. unfold Mobility.sanityCheck. unfold inside in *. rewrite Hc by (by destruct f).
  cbn [position pose_at]. rewrite Hs. destruct f; try done; cbn; by rewrite Hf.
Qed.

(** The time of a way. *)
Definition travel_time (description : AmrDescription) (from to : Position) : Duration :=
  Mobility.total (Mobility.calculatePhaseDurations (Mobility.calculatePhaseDistances from (MoveTo to) description) description).

Lemma estimate_move description topology from to check :
  capable description -> inside topology from -> inside topology to ->
  Mobility.estimateDuration (pose_at from) (MoveTo to) description topology check = Ok (travel_time description from to).
Proof. intros Hc Hf Ht. unfold Mobility.estimateDuration. by rewrite sanity_ok. Qed.

Lemma estimate_load description topology p :
  capable description -> inside topology p ->
  Mobility.estimateDuration (pose_at p) (Load p) description topology false = Ok (load_time_s_ (load_handling_ description)).
Proof. intros Hc Hp. unfold Mobility.estimateDuration. by rewrite sanity_ok. Qed.
Lemma estimate_unload description topology p :
  capable description -> inside topology p ->
  Mobility.estimateDuration (pose_at p) (Unload p) description topology false = Ok (unload_time_s_ (load_handling_ description)).
Proof. intros Hc Hp. unfold Mobility.estimateDuration. by rewrite sanity_ok. Qed.

Lemma transport_metrics description topology start pickup delivery :
  capable description -> inside topology start -> inside topology pickup -> inside topology delivery ->
  Mobility.calculateMetricsByDomain start [MoveTo pickup; Load pickup; MoveTo delivery; Unload delivery] description topology =
    Ok {| Mobility.empty_time := d_add d_zero (travel_time description start pickup);
          Mobility.loaded_time := d_add d_zero (travel_time description pickup delivery);
          Mobility.action_time_ := d_add (d_add d_zero (load_time_s_ (load_handling_ description)))
            (unload_time_s_ (load_handling_ description));
          Mobility.empty_distance := d_add d_zero (GetLength (v_sub start pickup));
          Mobility.loaded_distance := d_add d_zero (GetLength (v_sub pickup delivery)) |}.
Proof.
  intros Hc Hs Hp Hd. unfold Mobility.calculateMetricsByDomain. cbn [Mobility.metrics_from Mobility.metrics_step].
  rewrite (estimate_move description topology start pickup false) by done.
  cbn -[Mobility.estimateDuration]. rewrite estimate_load by done.
  cbn -[Mobility.estimateDuration]. rewrite (estimate_move description topology pickup delivery false) by done.
  cbn -[Mobility.estimateDuration]. by rewrite estimate_unload.
Qed.
End Plans.

(** ** A vehicle in the plane *)

Definition plane : Ns3Vector := {|
  v_add := Vec.plus_eq;
  v_sub := Vec.minus_eq;
  GetLength v := d_sqrt (d_add (d_mul (x v) (x v)) (d_mul (y v) (y v)));
  v_default := v_zero;
|}.
Definition point (a b : Z) : Position := {| x := d_of_Z a; y := d_of_Z b |}.

Definition sample_description : AmrDescription := {|
  serial_number_ := 1;
  kinematics_ := {| max_velocity_m_s_ := d_of_Z 2; min_velocity_m_s_ := d_zero; max_acceleration_m_s2_ := d_of_Z 1;
                    max_deceleration_m_s2_ := d_of_Z 1 |};
  load_handling_ := {| load_time_s_ := d_of_Z 2; unload_time_s_ := d_of_Z 3;
                       ability_ := {| load_carrier_ := kPackage; max_payload_weight_kg_ := d_of_Z 20 |} |};
  properties_ := {| device_type_ := "none"; friendly_name_ := "none";
    functionalities_ := [FunctionalityType.kLoad; FunctionalityType.kMoveTo; FunctionalityType.kUnload; FunctionalityType.kNavigate];
    manufacturer_ := "none"; model_name_ := "none"; model_number_ := 0 |};
  physical_properties_ := {| dimensions_m_ := []; weight_kg_ := d_of_Z (-1) |};
|}.
Definition sample_topology : Topology :=
  {| topology_uuid_ := EmptyString; size_ := {| dim_x := d_of_Z 100; dim_y := d_of_Z 100; dim_z := d_of_Z 10 |} |}.

Definition sample_duration : Duration :=
  match Mobility.estimateDuration (H := plane) (pose_at (point 0 0)) (MoveTo (point 30 40)) sample_description sample_topology true with
  | Ok d => d | _ => d_zero end.
Definition sample_phases : list AmrMobilityStatus :=
  match Mobility.calculatePhases (H := plane) d_zero (pose_at (point 0 0)) (MoveTo (point 30 40)) sample_description sample_topology with
  | Ok l => l | _ => [] end.

Lemma plan_takes_the_estimated_time_witness :
  length sample_phases = 4%nat /\ sample_duration = d_of_Z 27 /\
  exists moving, sample_phases = moving ++ [Mobility.status kIdle_ v_zero (point 30 40) v_zero sample_duration] /\
    states moving `sublist_of` [kAccelerating; kConstSpeedTraveling; kDecelerating].
Proof.
  split; [vm_compute; reflexivity|]. split; [vm_compute; reflexivity|].
  apply (plan_takes_the_estimated_time (H := plane) (pose_at (point 0 0)) (point 30 40) sample_description sample_topology true);
    try (split; vm_compute; reflexivity); vm_compute; reflexivity.
Defined.
