(* ===== verification/TaskManagement.v ===== *)
(** * The tasks of a vehicle, in the order of their arrival

    Model of [cpps/logical/task_management/task_management.h], [task_management_helper.cpp] and
    [simple_task_management.cpp]: a queue of tasks, with the metrics and the position expected
    after the last one. *)

From Stdlib Require Import SpecFloat.
From S2P Require Import Prelude TreeMapper RouteCalculation MaterialFlow Metrics Mobility.

(** [TaskManagementHelper::getEndLocationOfOrder] *)
Definition getEndLocationOfOrder (order : Order) : option Location :=
  match order with
  | move_order o => Some (step_location (move_order_step o))
  | transport_order o => Some (step_location (delivery_transport_order_step o))
  | action_order _ => None
  end.

(** The index of an order among the orders of a task: [std::find] with [operator==]. *)
Definition index_of (order : Order) (orders : list Order) : nat :=
  match find_index (order_eqb order) orders with Some i => i | None => length orders end.

(** ** [TaskManagement]

    The callbacks are known by labels; what is called is kept. *)
Record TaskManagement := {
  task_assignment_callbacks_ : list string;
  amr_description_ : AmrDescription;
  topology_ : Topology;
  current_pose_ : Pose;
  called : list string;
}.

Module Base.
Definition construct (amr_description : AmrDescription) (topology : Topology) (pose : Pose) : TaskManagement :=
  {| task_assignment_callbacks_ := []; amr_description_ := amr_description; topology_ := topology;
     current_pose_ := pose; called := [] |}.

Definition set_callbacks (l : list string) (s : TaskManagement) : TaskManagement :=
  {| task_assignment_callbacks_ := l; amr_description_ := amr_description_ s; topology_ := topology_ s;
     current_pose_ := current_pose_ s; called := called s |}.
Definition addNotifyTaskAssignmentCallback (callback : string) : M TaskManagement unit :=
  modify (fun s => set_callbacks (task_assignment_callbacks_ s ++ [callback]) s).
Definition clearNotifyTaskAssignmentCallback : M TaskManagement unit := modify (set_callbacks []).
Definition notify : M TaskManagement unit :=
  modify (fun s => {| task_assignment_callbacks_ := task_assignment_callbacks_ s; amr_description_ := amr_description_ s;
    topology_ := topology_ s; current_pose_ := current_pose_ s; called := called s ++ task_assignment_callbacks_ s |}).

(** A copy of the object has the same callbacks, so what the copy calls is called for the original, too. *)
Definition calls_of (copy s : TaskManagement) : TaskManagement :=
  {| task_assignment_callbacks_ := task_assignment_callbacks_ s; amr_description_ := amr_description_ s;
     topology_ := topology_ s; current_pose_ := current_pose_ s; called := called copy |}.
End Base.

(** What is done to a copy of the object: its outcome, and what [seen] takes over from the copy, the calls. *)
Definition on_copy {S A} (seen : S -> S -> S) (m : M S A) : M S (A * S) := fun s =>
  match m s with
  | (Ok a, copy) => (Ok (a, copy), seen copy s)
  | (Throw e, copy) => (Throw e, seen copy s)
  | (Undefined, copy) => (Undefined, seen copy s)
  end.

(** ** [SimpleTaskManagement] *)

Record SimpleTaskManagement := {
  base : TaskManagement;
  active_task_ : option Task;
  queue_ : list Task;
  final_metrics_ : Metrics;
  expected_end_position_ : option Position;
  time_now_ : Duration;
}.

(** [m += d] of single metrics *)
Definition add_times (ett ltt at_ : Duration) (m : Metrics) : Metrics :=
  {| empty_travel_time := d_add (empty_travel_time m) ett; loaded_travel_time := d_add (loaded_travel_time m) ltt;
     action_time := d_add (action_time m) at_; empty_travel_distance := empty_travel_distance m;
     loaded_travel_distance := loaded_travel_distance m; start_up_time := start_up_time m; makespan_ := makespan_ m;
     start_time_ := start_time_ m; start_time_set_ := start_time_set_ m; execution_start_time_ := execution_start_time_ m;
     execution_start_time_set_ := execution_start_time_set_ m |}.
Definition set_distances (etd ltd : Distance) (m : Metrics) : Metrics :=
  {| empty_travel_time := empty_travel_time m; loaded_travel_time := loaded_travel_time m; action_time := action_time m;
     empty_travel_distance := etd; loaded_travel_distance := ltd; start_up_time := start_up_time m; makespan_ := makespan_ m;
     start_time_ := start_time_ m; start_time_set_ := start_time_set_ m; execution_start_time_ := execution_start_time_ m;
     execution_start_time_set_ := execution_start_time_set_ m |}.

(** Only the empty travel time and the action time grow. *)
Definition add_empty_time (d : Duration) (m : Metrics) : Metrics :=
  {| empty_travel_time := d_add (empty_travel_time m) d; loaded_travel_time := loaded_travel_time m;
     action_time := action_time m; empty_travel_distance := empty_travel_distance m;
     loaded_travel_distance := loaded_travel_distance m; start_up_time := start_up_time m; makespan_ := makespan_ m;
     start_time_ := start_time_ m; start_time_set_ := start_time_set_ m; execution_start_time_ := execution_start_time_ m;
     execution_start_time_set_ := execution_start_time_set_ m |}.
Definition add_action_time (d : Duration) (m : Metrics) : Metrics :=
  {| empty_travel_time := empty_travel_time m; loaded_travel_time := loaded_travel_time m;
     action_time := d_add (action_time m) d; empty_travel_distance := empty_travel_distance m;
     loaded_travel_distance := loaded_travel_distance m; start_up_time := start_up_time m; makespan_ := makespan_ m;
     start_time_ := start_time_ m; start_time_set_ := start_time_set_ m; execution_start_time_ := execution_start_time_ m;
     execution_start_time_set_ := execution_start_time_set_ m |}.

Section Orders.
Context `{Ns3Vector}.
Variables (description : AmrDescription) (topology : Topology).

(** A move order: the duration is estimated from the default pose, the distance from the previous position. *)
Definition add_move (order : Order) (previous_position : Position) (metrics : Metrics) : outcome Metrics :=
  funcs ← Mapping.materialFlowToFunctionalities [order] (Some previous_position);
  time ← Mobility.estimateTotal default_pose funcs description topology false;
  distance ← Mobility.totalDistance previous_position funcs;
  mret (set_distances distance (loaded_travel_distance metrics) (add_empty_time time metrics)).

Definition add_domains (d : Mobility.Domains) (metrics : Metrics) : Metrics :=
  set_distances (d_add (empty_travel_distance metrics) (Mobility.empty_distance d))
    (d_add (loaded_travel_distance metrics) (Mobility.loaded_distance d))
    (add_times (Mobility.empty_time d) (Mobility.loaded_time d) (Mobility.action_time_ d) metrics).

Definition add_action (order : Order) (previous_position : Position) (metrics : Metrics) : outcome Metrics :=
  funcs ← Mapping.materialFlowToFunctionalities [order] (Some previous_position);
  time ← Mobility.estimateTotal default_pose funcs description topology false;
  mret (add_action_time time metrics).
End Orders.

Module Simple.
Section Simple.
Context `{Ns3Vector}.
Abbreviation S := SimpleTaskManagement.

Definition construct (amr_description : AmrDescription) (topology : Topology) (pose : Pose) : outcome S :=
  metrics ← Metric.setStartTime d_zero Metric.initial;
  mret {| base := Base.construct amr_description topology pose; active_task_ := None; queue_ := [];
          final_metrics_ := metrics; expected_end_position_ := Some (position pose); time_now_ := d_zero |}.

Definition set_tasks (active : option Task) (queue : list Task) (s : S) : S :=
  {| base := base s; active_task_ := active; queue_ := queue; final_metrics_ := final_metrics_ s;
     expected_end_position_ := expected_end_position_ s; time_now_ := time_now_ s |}.
Definition set_final_metrics (m : Metrics) (s : S) : S :=
  {| base := base s; active_task_ := active_task_ s; queue_ := queue_ s; final_metrics_ := m;
     expected_end_position_ := expected_end_position_ s; time_now_ := time_now_ s |}.
Definition set_end_position (p : Position) (s : S) : S :=
  {| base := base s; active_task_ := active_task_ s; queue_ := queue_ s; final_metrics_ := final_metrics_ s;
     expected_end_position_ := Some p; time_now_ := time_now_ s |}.
Definition set_time (now : Duration) (s : S) : S :=
  {| base := base s; active_task_ := active_task_ s; queue_ := queue_ s; final_metrics_ := final_metrics_ s;
     expected_end_position_ := expected_end_position_ s; time_now_ := now |}.

Definition getFinalMetrics (s : S) : Metrics := final_metrics_ s.

Definition getExpectedEndPosition (s : S) : outcome Position :=
  match expected_end_position_ s with
  | Some p => Ok p
  | None => Throw (logic_error "There must exist at least a position for the AMR to start from.")
  end.

Definition setCurrentTime (now : Duration) : M S unit :=
  s ← get;
  throw_if (d_lt now (time_now_ s)) (invalid_argument "New time must be later than current time.");;
  modify (set_time now).

Definition hasTasks (s : S) : bool := bool_decide (is_Some (active_task_ s)).

Definition getCurrentTask (s : S) : outcome Task :=
  match active_task_ s with Some t => Ok t | None => Throw (logic_error "No tasks available!") end.

Definition setNextTask : M S bool :=
  s ← get;
  match queue_ s with
  | task :: rest => modify (set_tasks (Some task) rest);; mret true
  | [] => modify (set_tasks None []);; mret false
  end.

(** The end of the last order before the order at an index that has an end location. *)
Definition previous_location (orders : list Order) (order_index : nat) : option Location :=
  fold_left (fun (found : option Location) o => match found with Some l => Some l | None => getEndLocationOfOrder o end)
    (rev (take order_index orders)) None.

Definition insertOrderPropertiesIntoMetrics (order : Order) (metrics : Metrics) (task : Task) (start_time : Duration) (s : S)
    : outcome Metrics :=
  metrics ← (if negb (Metric.isStartTimeSet metrics) then Metric.setStartTime start_time metrics else mret metrics);
  (* [std::find] from the back *)
  let orders := orders_ task in
  let order_index := (length orders - 1 - index_of order (rev orders))%nat in
  previous_position ←
    match previous_location orders order_index with
    | None => getExpectedEndPosition s
    | Some l => mret (loc_position l)
    end;
  let description := amr_description_ (base s) in
  let topology := topology_ (base s) in
  match order with
  | move_order _ =>
      funcs ← Mapping.materialFlowToFunctionalities [order] (Some previous_position);
      throw_when (Nat.eqb order_index 0) (invalid_argument "Move order should not be first.");;
      add_move description topology order previous_position metrics
  | transport_order _ =>
      funcs ← Mapping.materialFlowToFunctionalities [order] (Some previous_position);
      domains ← Mobility.calculateMetricsByDomain previous_position funcs description topology;
      mret (add_domains domains metrics)
  | action_order _ => add_action description topology order previous_position metrics
  end.

(** The loop over the orders of a task: each starts when the one before is done. *)
Fixpoint metrics_of_orders (orders : list Order) (task : Task) (start_time : Duration) (metrics : Metrics) (s : S)
    : outcome Metrics :=
  match orders with
  | [] => mret metrics
  | order :: rest =>
      new_current_metrics ← insertOrderPropertiesIntoMetrics order Metric.initial task start_time s;
      start_time ← Metric.getMakespan new_current_metrics;
      metrics_of_orders rest task start_time new_current_metrics s
  end.

Definition updateFinalMetrics : M S unit :=
  s ← get;
  makespan ← lift (Metric.getMakespan (final_metrics_ s));
  let start_time := std_max makespan (time_now_ s) in
  new_task ← lift (back (queue_ s));
  metrics ← lift (metrics_of_orders (orders_ new_task) new_task start_time Metric.initial s);
  modify (set_final_metrics metrics).

(** The last order that ends somewhere. *)
Definition final_location (orders : list Order) : option Location := previous_location orders (length orders).

Definition addTask (task : Task) : M S bool :=
  let orders := orders_ task in
  throw_if (bool_decide (length orders = 0%nat)) (invalid_argument "Task must have at least one order.");;
  modify (fun s => set_tasks (active_task_ s) (queue_ s ++ [task]) s);;
  updateFinalMetrics;;
  match final_location orders with
  | None => throw (logic_error "Task must contain at least one TransportOrder or MoveOrder.")
  | Some end_location => modify (set_end_position (loc_position end_location));; mret true
  end.

Definition seen (copy s : S) : S :=
  {| base := Base.calls_of (base copy) (base s); active_task_ := active_task_ s; queue_ := queue_ s;
     final_metrics_ := final_metrics_ s; expected_end_position_ := expected_end_position_ s; time_now_ := time_now_ s |}.

Definition canAddTask (task : Task) : M S bool :=
  result ← on_copy seen (addTask task);
  mret result.1.
End Simple.
End Simple.
