(* ===== verification/StnTaskManagement.v ===== *)
(** * The tasks of a vehicle, in the order that suits it

    Model of [cpps/logical/task_management/stn_task_management.cpp] and of the vertices of
    [stn_task_management_components.cpp]: the orders of the queued tasks are vertices of a
    simple temporal network; a new task is inserted where it costs least. It implements the
    interface of [AuctionParticipant]. [value_or(back())] of the first order calls [back] on an
    empty vector, without reading what it refers to; only reading is undefined here. *)

From Stdlib Require Import SpecFloat.
From S2P Require Import Prelude TreeMapper RouteCalculation Graph MaterialFlow Metrics Mobility TaskManagement AuctionParticipant.

(** ** [StnTaskManagementVertex] *)

Record StnTaskManagementVertex := {
  initial_insert_metrics : Metrics;
  current_metrics : Metrics;
  order_ : Order;
  is_start_ : bool;
  is_origin_ : bool;
  position_ : Position;
}.

Module StnVertex.
Section Vertices.
Context `{Ns3Vector}.
Abbreviation V := StnTaskManagementVertex.

Definition make (order : Order) (is_start : bool) : V :=
  {| initial_insert_metrics := Metric.initial; current_metrics := Metric.initial; order_ := order; is_start_ := is_start;
     is_origin_ := false; position_ := v_default |}.

Definition createOrigin : V :=
  {| initial_insert_metrics := Metric.initial; current_metrics := Metric.initial;
     order_ := move_order {| mo_uuid := "origin"; move_order_step := {| step_name := "origin"; step_parameters := [];
       step_location := {| loc_id := "origin"; loc_type := "origin";
         loc_position := {| x := d_of_Z (-1); y := d_of_Z (-1) |} |} |} |};
     is_start_ := true; is_origin_ := true; position_ := v_default |}.

(** [operator==] *)
Definition eqb (v1 v2 : V) : bool :=
  if is_origin_ v1 && is_origin_ v2 then true
  else if negb (Bool.eqb (is_start_ v1) (is_start_ v2)) then false
  else order_eqb (order_ v1) (order_ v2).

Definition setLastPosition (p : Position) (v : V) : V :=
  if is_start_ v then
    {| initial_insert_metrics := initial_insert_metrics v; current_metrics := current_metrics v; order_ := order_ v;
       is_start_ := is_start_ v; is_origin_ := is_origin_ v; position_ := p |}
  else v.
End Vertices.
End StnVertex.

#[export] Instance stn_vertex_eq : VertexEq StnTaskManagementVertex := StnVertex.eqb.

(** ** [StnTaskManagement] *)

Record TaskInsertInfo := {
  info_task : Task;
  end_locations : list Location;
  metrics_composition : MetricsComposition;
}.

Record StnInsertionPoint := {
  previous_finish : StnTaskManagementVertex;
  next_start : option StnTaskManagementVertex;
  new_index : Z;
}.

Abbreviation TaskNetwork := (SimpleTemporalNetwork StnTaskManagementVertex (StnTaskManagementEdge double) double).
Abbreviation InsertionInfo := (MetricsComposition * option StnInsertionPoint)%type.

(** The task in execution. *)
Record Current := {
  current_task_ : option Task;
  current_task_end_location_ : option Location;
  current_task_expected_finish_time_ : Duration;
}.

(** [newest_task_insert_info_], an iterator into the ordering, is kept as an index. *)
Record StnTaskManagement := {
  stn_base : TaskManagement;
  stn : TaskNetwork;
  current : Current;
  current_ordering_ : list TaskInsertInfo;
  current_total_metrics_ : Metrics;
  newest_task_insert_info_ : option nat;
  stn_time_now_ : Duration;
  latest_calculated_insertion_info_ : option InsertionInfo;
}.

Module StnTasks.
Section StnTasks.
Context `{Ns3Vector}.
Abbreviation S := StnTaskManagement.
Abbreviation Vertex := StnTaskManagementVertex.

Definition set_base (b : TaskManagement) (s : S) : S :=
  {| stn_base := b; stn := stn s; current := current s; current_ordering_ := current_ordering_ s;
     current_total_metrics_ := current_total_metrics_ s; newest_task_insert_info_ := newest_task_insert_info_ s;
     stn_time_now_ := stn_time_now_ s; latest_calculated_insertion_info_ := latest_calculated_insertion_info_ s |}.
Definition set_stn (n : TaskNetwork) (s : S) : S :=
  {| stn_base := stn_base s; stn := n; current := current s; current_ordering_ := current_ordering_ s;
     current_total_metrics_ := current_total_metrics_ s; newest_task_insert_info_ := newest_task_insert_info_ s;
     stn_time_now_ := stn_time_now_ s; latest_calculated_insertion_info_ := latest_calculated_insertion_info_ s |}.
Definition set_current (c : Current) (s : S) : S :=
  {| stn_base := stn_base s; stn := stn s; current := c; current_ordering_ := current_ordering_ s;
     current_total_metrics_ := current_total_metrics_ s; newest_task_insert_info_ := newest_task_insert_info_ s;
     stn_time_now_ := stn_time_now_ s; latest_calculated_insertion_info_ := latest_calculated_insertion_info_ s |}.
Definition set_ordering (l : list TaskInsertInfo) (s : S) : S :=
  {| stn_base := stn_base s; stn := stn s; current := current s; current_ordering_ := l;
     current_total_metrics_ := current_total_metrics_ s; newest_task_insert_info_ := newest_task_insert_info_ s;
     stn_time_now_ := stn_time_now_ s; latest_calculated_insertion_info_ := latest_calculated_insertion_info_ s |}.
Definition set_total (m : Metrics) (s : S) : S :=
  {| stn_base := stn_base s; stn := stn s; current := current s; current_ordering_ := current_ordering_ s;
     current_total_metrics_ := m; newest_task_insert_info_ := newest_task_insert_info_ s;
     stn_time_now_ := stn_time_now_ s; latest_calculated_insertion_info_ := latest_calculated_insertion_info_ s |}.
Definition set_newest (i : nat) (s : S) : S :=
  {| stn_base := stn_base s; stn := stn s; current := current s; current_ordering_ := current_ordering_ s;
     current_total_metrics_ := current_total_metrics_ s; newest_task_insert_info_ := Some i;
     stn_time_now_ := stn_time_now_ s; latest_calculated_insertion_info_ := latest_calculated_insertion_info_ s |}.
Definition set_now (now : Duration) (s : S) : S :=
  {| stn_base := stn_base s; stn := stn s; current := current s; current_ordering_ := current_ordering_ s;
     current_total_metrics_ := current_total_metrics_ s; newest_task_insert_info_ := newest_task_insert_info_ s;
     stn_time_now_ := now; latest_calculated_insertion_info_ := latest_calculated_insertion_info_ s |}.
Definition set_latest (info : option InsertionInfo) (s : S) : S :=
  {| stn_base := stn_base s; stn := stn s; current := current s; current_ordering_ := current_ordering_ s;
     current_total_metrics_ := current_total_metrics_ s; newest_task_insert_info_ := newest_task_insert_info_ s;
     stn_time_now_ := stn_time_now_ s; latest_calculated_insertion_info_ := info |}.

Definition on_stn {A} (m : M TaskNetwork A) : M S A := zoom stn set_stn m.
Definition seen (copy s : S) : S := set_base (Base.calls_of (stn_base copy) (stn_base s)) s.
Definition on_base {A} (m : M TaskManagement A) : M S A := zoom stn_base set_base m.

(** The constructor, after that of the network. *)
Definition construct (amr_description : AmrDescription) (topology : Topology) (pose : Pose) : outcome S :=
  metrics ← Metric.setStartTime d_zero Metric.initial;
  let net := {| network := Graph.empty; d_graph_ := [] |} in
  match Stn.create StnVertex.createOrigin net with
  | (Ok _, net) =>
      Ok {| stn_base := Base.construct amr_description topology pose; stn := net;
            current := {| current_task_ := None; current_task_end_location_ := None; current_task_expected_finish_time_ := d_zero |};
            current_ordering_ := []; current_total_metrics_ := metrics; newest_task_insert_info_ := None;
            stn_time_now_ := d_zero; latest_calculated_insertion_info_ := None |}
  | (Throw e, _) => Throw e
  | (Undefined, _) => Undefined
  end.

(** *** Time *)

(** A failed [assert] ends the program. *)
Definition assertion {A} (b : bool) : M A unit := if b then mret tt else lift Undefined.

(** The edge of a cell of the matrix, if there is one, changed in place. *)
Definition on_cell (i j : nat) (f : StnTaskManagementEdge double -> outcome (StnTaskManagementEdge double))
    : M TaskNetwork unit :=
  n ← get;
  opt_edge ← lift (Graph.cell (network n) i j);
  match opt_edge with
  | None => mret tt
  | Some edge => edge' ← lift (f edge); Stn.on_graph (Graph.set_cell i j (Some edge'))
  end.

Definition move_outgoing (time_difference : Duration) (edge : StnTaskManagementEdge double)
    : outcome (StnTaskManagementEdge double) :=
  if Nat.eqb (StnEdge.getNumberOfWeights edge) 1 then
    weight ← StnEdge.weight edge;
    if d_le d_zero weight then StnEdge.updateWeight 0 (d_add weight time_difference) edge else Undefined
  else Undefined.

Definition move_incoming (time_difference : Duration) (edge : StnTaskManagementEdge double)
    : outcome (StnTaskManagementEdge double) :=
  weight ← StnEdge.weight edge;
  if d_le weight d_zero then StnEdge.updateWeight 0 (d_sub weight time_difference) edge else Undefined.

Definition updateOriginConstraints (time_difference : Duration) : M S unit :=
  if d_lt time_difference d_zero then mret tt
  else
    on_stn (
      n ← get;
      first ← lift (vec_at (vertices_ (network n)) 0);
      assertion (is_origin_ first);;
      row ← lift (vec_at (adjacency_matrix_ (network n)) 0);
      for_each (seq 0 (length row)) (fun j => on_cell 0 j (move_outgoing time_difference));;
      for_each (seq 0 (length (adjacency_matrix_ (network n)))) (fun i => on_cell i 0 (move_incoming time_difference))).

Definition setCurrentTime (now : Duration) : M S unit :=
  s ← get;
  throw_if (d_lt now (stn_time_now_ s)) (invalid_argument "new time must be later than current time");;
  updateOriginConstraints (d_sub now (stn_time_now_ s));;
  modify (set_now now).

(** *** The current task, and vertices *)

Definition hasTasks (s : S) : bool := bool_decide (is_Some (current_task_ (current s))).

Definition getCurrentTask (s : S) : outcome Task :=
  match current_task_ (current s) with Some t => Ok t | None => Throw (logic_error "no tasks available") end.

(** [orders.front()] *)
Definition front (orders : list Order) : outcome Order := vec_at orders 0.

Definition getVertexIndexOfOrder (order : Order) (start : bool) (s : S) : outcome nat :=
  match find_index (fun v => Bool.eqb (is_start_ v) start && order_eqb order (order_ v)) (vertices_ (network (stn s))) with
  | Some i => Ok i
  | None => Throw (runtime_error "Order not part of STN")
  end.

Definition getVertexOfOrder (order : Order) (start : bool) (s : S) : outcome Vertex :=
  i ← getVertexIndexOfOrder order start s; vec_at (vertices_ (network (stn s))) i.

Definition vertexOf (order : Order) (start : bool) : M S Vertex := s ← get; lift (getVertexOfOrder order start s).

Definition setNextTask : M S bool :=
  s ← get;
  match current_ordering_ s with
  | [] => modify (set_current {| current_task_ := None; current_task_end_location_ := current_task_end_location_ (current s);
            current_task_expected_finish_time_ := current_task_expected_finish_time_ (current s) |});; mret false
  | info :: _ =>
      let finish := d_add (stn_time_now_ s) (Metric.getTime (current_metrics_ (metrics_composition info))) in
      end_location ← lift (back (end_locations info));
      modify (set_current {| current_task_ := Some (info_task info); current_task_end_location_ := Some end_location;
        current_task_expected_finish_time_ := finish |});;
      setCurrentTime finish;;
      for_each (orders_ (info_task info)) (fun order =>
        start_vertex ← vertexOf order true;
        on_stn (Stn.removeVertex start_vertex);;
        finish_vertex ← vertexOf order false;
        on_stn (Stn.removeVertex finish_vertex));;
      modify (fun s => set_ordering (drop 1 (current_ordering_ s)) s);;
      mret true
  end.

(** *** Where the vehicle comes from, and how long an order takes *)

Definition getLastPositionBefore (task_index : Z) (s : S) : outcome Position :=
  if task_index =? 0 then
    if hasTasks s then
      match current_task_end_location_ (current s) with Some l => Ok (loc_position l) | None => Undefined end
    else Ok (position (current_pose_ (stn_base s)))
  else
    info ← vec_at (current_ordering_ s) (Z.to_nat (task_index - 1));
    l ← back (end_locations info);
    Ok (loc_position l).

(** [end_locations[order_index - 1]] *)
Definition location_before (info : TaskInsertInfo) (order_index : nat) : outcome Position :=
  match order_index with
  | O => Undefined
  | Datatypes.S i => l ← vec_at (end_locations info) i; mret (loc_position l)
  end.

Definition calcOrderDurationForInsert (order : Order) (info : TaskInsertInfo) (s : S) : outcome Duration :=
  let order_index := index_of order (orders_ (info_task info)) in
  let estimate := fun start funcs =>
    Mobility.estimateTotal start funcs (amr_description_ (stn_base s)) (topology_ (stn_base s)) false in
  match order with
  | action_order _ | move_order _ =>
      previous ← location_before info order_index;
      funcs ← Mapping.materialFlowToFunctionalities [order] (Some previous);
      estimate default_pose funcs
  | transport_order _ =>
      if Nat.ltb 0 order_index then
        previous ← location_before info order_index;
        funcs ← Mapping.materialFlowToFunctionalities [order] (Some previous);
        estimate default_pose funcs
      else
        funcs ← Mapping.materialFlowToFunctionalities [order] (Some {| x := d_of_Z (-1); y := d_of_Z (-1) |});
        match funcs with
        | MoveTo start_position :: funcs => estimate (pose_at start_position) funcs
        | [] => Undefined
        | _ => Throw (runtime_error "First functionality of TransportOrder must be MoveTo.")
        end
  end.

Definition insertOrderPropertiesIntoMetrics (order : Order) (metrics : Metrics) (info : TaskInsertInfo) (task_ordering_index : Z)
    (s : S) : outcome Metrics :=
  let order_index := index_of order (orders_ (info_task info)) in
  let description := amr_description_ (stn_base s) in
  let topology := topology_ (stn_base s) in
  match order with
  | move_order _ =>
      throw_when (Nat.eqb order_index 0) (invalid_argument "move order should not be first");;
      previous ← location_before info order_index;
      add_move description topology order previous metrics
  | transport_order _ =>
      previous_position ← (if Nat.ltb 0 order_index then location_before info order_index
                           else getLastPositionBefore task_ordering_index s);
      funcs ← Mapping.materialFlowToFunctionalities [order] None;
      domains ← Mobility.calculateMetricsByDomain previous_position funcs description topology;
      mret (add_domains domains metrics)
  | action_order _ =>
      previous ← location_before info order_index;
      add_action description topology order previous metrics
  end.

Definition calcGetToStartDuration (task_index_to_update : Z) (s : S) : outcome Duration :=
  last_position ← getLastPositionBefore task_index_to_update s;
  info ← vec_at (current_ordering_ s) (Z.to_nat task_index_to_update);
  first_order ← front (orders_ (info_task info));
  match first_order with
  | transport_order _ =>
      funcs ← Mapping.materialFlowToFunctionalities [first_order] (Some last_position);
      first ← vec_at funcs 0;
      Mobility.estimateTotal (pose_at last_position) [first] (amr_description_ (stn_base s)) (topology_ (stn_base s)) false
  | _ => Throw (invalid_argument "Only supports transport orders at the beginngin of a task.")
  end.

Definition updateGetToStartDurationConstraint (task_index_to_update : Z) : M S unit :=
  s ← get;
  duration ← lift (calcGetToStartDuration task_index_to_update s);
  info ← lift (vec_at (current_ordering_ s) (Z.to_nat task_index_to_update));
  first_order ← lift (front (orders_ (info_task info)));
  origin ← lift (Stn.getOrigin (stn s));
  previous_finish_vertex ←
    (if 0 <? task_index_to_update then
       previous ← lift (vec_at (current_ordering_ s) (Z.to_nat (task_index_to_update - 1)));
       last_order ← lift (back (orders_ (info_task previous)));
       vertexOf last_order false
     else mret origin);
  this_start_vertex ← vertexOf first_order true;
  on_stn (Stn.updateLastBinaryConstraint previous_finish_vertex this_start_vertex (Some duration) None).

(** *** The network is solved, the ordering follows *)

(** The entry of the ordering at an index, changed in place. *)
Definition update_info (i : nat) (f : TaskInsertInfo -> outcome TaskInsertInfo) : M S unit :=
  s ← get;
  info ← lift (vec_at (current_ordering_ s) i);
  info' ← lift (f info);
  modify (fun s => set_ordering (<[i := info']> (current_ordering_ s)) s).

Definition with_metrics (c : MetricsComposition) (info : TaskInsertInfo) : TaskInsertInfo :=
  {| info_task := info_task info; end_locations := end_locations info; metrics_composition := c |}.

(** The orders of a task: their start times, and its metrics. *)
Fixpoint order_times (orders : list Order) (metrics : Metrics) (info : TaskInsertInfo) (i : nat) (s : S)
    : outcome (list Duration * Metrics) :=
  match orders with
  | [] => mret ([], metrics)
  | order :: rest =>
      start_index ← getVertexIndexOfOrder order true s;
      row ← vec_at (d_graph_ (stn s)) start_index;
      to_origin ← vec_at row 0;
      let start_time := SFopp to_origin in
      metrics ← insertOrderPropertiesIntoMetrics order metrics info (Z.of_nat i) s;
      r ← order_times rest metrics info i s;
      mret (d_add start_time (stn_time_now_ s) :: r.1, r.2)
  end.

Definition update_metrics (i : nat) : M S (string * Duration) :=
  s ← get;
  info ← lift (vec_at (current_ordering_ s) i);
  r ← lift (order_times (orders_ (info_task info)) Metric.initial info i s);
  task_start_time ← lift (StnEdge.min_element r.1);
  new_current_metric ← lift (Metric.setExecutionStartTime task_start_time r.2);
  start_up ← lift (calcGetToStartDuration (Z.of_nat i) s);
  update_info i (fun info =>
    Ok (with_metrics (Composition.updateCurrentMetrics (Metric.set_start_up_time start_up new_current_metric)
          (metrics_composition info)) info));;
  mret (uuid_ (info_task info), task_start_time).

Fixpoint update_all_metrics (indices : list nat) : M S (list (string * Duration)) :=
  match indices with
  | [] => mret []
  | i :: rest => e ← update_metrics i; l ← update_all_metrics rest; mret (e :: l)
  end.

(** [start_time_mapping[task]]: what was entered last *)
Definition start_time_of (mapping : list (string * Duration)) (task : Task) : Duration :=
  match List.find (fun e => bool_decide (e.1 = uuid_ task)) (rev mapping) with Some e => e.2 | None => d_zero end.

(** [current_total_metrics_ = previous_total_metrics + ...] for each entry *)
Definition update_total : M S unit :=
  s ← get;
  let previous_total_metrics := current_total_metrics_ s in
  for_each (current_ordering_ s) (fun info =>
    total ← lift (Metric.plus previous_total_metrics (current_metrics_ (metrics_composition info)));
    modify (set_total total)).

Definition is_new (info : TaskInsertInfo) : bool := negb (Composition.hasDiffInsertionMetrics (metrics_composition info)).

Definition updateCurrentOrdering : M S unit :=
  s ← get;
  start_time_mapping ← update_all_metrics (seq 0 (length (current_ordering_ s)));
  s ← get;
  sorted ← lift (sorted_by (fun i1 i2 =>
    d_lt (start_time_of start_time_mapping (info_task i1)) (start_time_of start_time_mapping (info_task i2))) (current_ordering_ s));
  modify (set_ordering sorted);;
  let previous_total_metrics := current_total_metrics_ s in
  update_total;;
  throw_if (negb (bool_decide (length (List.filter is_new sorted) = 1%nat)))
    (logic_error "there should be exactly one entry without diff metrics");;
  s ← get;
  match find_index is_new sorted with
  | None => lift Undefined
  | Some new_task =>
      diff_metrics ← lift (Metric.minus (current_total_metrics_ s) previous_total_metrics);
      update_info new_task (fun info =>
        c ← Composition.setDiffInsertionMetrics diff_metrics (metrics_composition info); mret (with_metrics c info));;
      update_info new_task (fun info =>
        c ← Composition.fixInsertionMetrics (metrics_composition info); mret (with_metrics c info));;
      modify (set_newest new_task)
  end.

Definition solve : M S bool :=
  success ← on_stn Stn.solve;
  if (success : bool) then updateCurrentOrdering;; mret true else mret false.

(** [newest_task_insert_info_->metrics_composition] *)
Definition newest_metrics (s : S) : outcome MetricsComposition :=
  match newest_task_insert_info_ s with
  | Some i => info ← vec_at (current_ordering_ s) i; mret (metrics_composition info)
  | None => Undefined
  end.

(** *** Inserting a task *)

Definition addPrecedenceConstraintBetweenTask (start_vertex : Vertex) (precedence_task_name : string) : M S unit :=
  s ← get;
  match List.find (fun info => bool_decide (name_ (info_task info) = precedence_task_name)) (current_ordering_ s) with
  | None => mret tt
  | Some info =>
      last_order ← lift (back (orders_ (info_task info)));
      last_finish_vertex ← vertexOf last_order false;
      on_stn (Stn.addBinaryConstraint last_finish_vertex start_vertex (Some d_zero) None)
  end.

Definition addDurationConstraints (start_vertex finish_vertex : Vertex) (order : Order) (info : TaskInsertInfo) : M S unit :=
  s ← get;
  duration ← lift (calcOrderDurationForInsert order info s);
  on_stn (Stn.addBinaryConstraint start_vertex finish_vertex (Some duration) None).

(** The points after the entries of the ordering, the first of them at index [i]. *)
Fixpoint points_after (entries : list TaskInsertInfo) (i : Z) (s : S) : outcome (list StnInsertionPoint) :=
  match entries with
  | [] => mret []
  | info :: rest =>
      last_order ← back (orders_ (info_task info));
      previous ← getVertexOfOrder last_order false s;
      next ←
        match rest with
        | [] => mret None
        | following :: _ =>
            first_order ← front (orders_ (info_task following));
            v ← getVertexOfOrder first_order true s;
            mret (Some v)
        end;
      points ← points_after rest (i + 1) s;
      mret ({| previous_finish := previous; next_start := next; new_index := i |} :: points)
  end.

Definition calcInsertionPoints (s : S) : outcome (list StnInsertionPoint) :=
  origin ← vec_at (vertices_ (network (stn s))) 0;
  first ←
    match current_ordering_ s with
    | [] => mret None
    | info :: _ => first_order ← front (orders_ (info_task info)); v ← getVertexOfOrder first_order true s; mret (Some v)
    end;
  points ← points_after (current_ordering_ s) 1 s;
  mret ({| previous_finish := origin; next_start := first; new_index := 0 |} :: points).

(** [current_ordering_.insert(begin() + index, info)] *)
Definition insert_info (index : Z) (info : TaskInsertInfo) : M S unit :=
  s ← get;
  let i := Z.to_nat index in
  if (0 <=? index) && Nat.leb i (length (current_ordering_ s))
  then modify (fun s => set_ordering (take i (current_ordering_ s) ++ info :: drop i (current_ordering_ s)) s)
  else lift Undefined.

Definition addOrderingConstraintBetweenTasks (point : StnInsertionPoint) (info : TaskInsertInfo) : M S unit :=
  insert_info (new_index point) info;;
  first_order ← lift (front (orders_ (info_task info)));
  start_vertex ← vertexOf first_order true;
  on_stn (Stn.addBinaryConstraint (previous_finish point) start_vertex (Some d_zero) None);;
  updateGetToStartDurationConstraint (new_index point);;
  match next_start point with
  | None => mret tt
  | Some next =>
      last_order ← lift (back (orders_ (info_task info)));
      finish_vertex ← vertexOf last_order false;
      on_stn (Stn.addBinaryConstraint finish_vertex next (Some d_zero) None);;
      updateGetToStartDurationConstraint (new_index point + 1)
  end.

(** The loop over the insertion points: each is tried on a copy; the metrics and the point of the best so far. *)
Fixpoint best_point (points : list StnInsertionPoint) (info : TaskInsertInfo) (best : option (MetricsComposition * StnInsertionPoint))
    : M S (option (MetricsComposition * StnInsertionPoint)) :=
  match points with
  | [] => mret best
  | point :: rest =>
      tried ← on_copy seen (addOrderingConstraintBetweenTasks point info;; solve);
      if (tried.1 : bool) then
        metrics ← lift (newest_metrics tried.2);
        let better := match best with None => true | Some b => Composition.lt b.1 metrics end in
        best_point rest info (if better then Some (metrics, point) else best)
      else best_point rest info best
  end.

Definition addBestOrdering (info : TaskInsertInfo) : M S (option InsertionInfo) :=
  s ← get;
  points ← lift (calcInsertionPoints s);
  best ← best_point points info None;
  match best with
  | None => mret None
  | Some (_, point) =>
      addOrderingConstraintBetweenTasks point info;;
      success ← solve;
      throw_if (negb success) (logic_error "failed to solve although it was solvable on the copy");;
      s ← get;
      metrics ← lift (newest_metrics s);
      mret (Some (metrics, Some point))
  end.

(** The time window: the earliest start is for the first order of the task, the latest finish for the last one.
    [false] if the task must have started in the past. *)
Definition addTimeWindow (task : Task) (is_first is_last : bool) (start_curr finish_curr : Vertex) : M S bool :=
  if TaskOf.hasTimeWindow task then
    window ← lift (TaskOf.getTimeWindow task);
    s ← get;
    in_time ←
      (if is_first then
         earliest ← lift (Window.getAbsoluteEarliestStart window);
         if d_lt (d_sub earliest (stn_time_now_ s)) d_zero then mret false
         else on_stn (Stn.addUnaryConstraint start_curr (Some (d_sub earliest (stn_time_now_ s))) None);; mret true
       else mret true);
    if negb in_time then mret false
    else if is_last then
      latest ← lift (Window.getAbsoluteLatestFinish window);
      on_stn (Stn.addUnaryConstraint finish_curr None (Some (d_sub latest (stn_time_now_ s))));; mret true
    else mret true
  else mret true.

(** The loop over the orders of a task; [None] if it returns [false]. *)
Fixpoint add_orders (orders : list Order) (previous : option Order) (task : Task) (info : TaskInsertInfo)
    : M S (option TaskInsertInfo) :=
  match orders with
  | [] => mret (Some info)
  | order :: rest =>
      let start_curr := StnVertex.make order true in
      let finish_curr := StnVertex.make order false in
      on_stn (Stn.on_graph (Graph.addVertex start_curr));;
      on_stn (Stn.on_graph (Graph.addVertex finish_curr));;
      in_time ← addTimeWindow task (negb (bool_decide (is_Some previous))) (bool_decide (length rest = 0%nat)) start_curr finish_curr;
      if negb in_time then mret None
      else
        match previous with
        | None => mret tt
        | Some previous_order =>
            finish ← vertexOf previous_order false;
            on_stn (Stn.addBinaryConstraint finish start_curr (Some d_zero) None)
        end;;
        addDurationConstraints start_curr finish_curr order info;;
        end_location ← lift (match getEndLocationOfOrder order with
                             | Some l => Ok l | None => back (end_locations info) end);
        add_orders rest (Some order) task
          {| info_task := info_task info; end_locations := end_locations info ++ [end_location];
             metrics_composition := metrics_composition info |}
  end.

Definition insert_at (insertion_point : option StnInsertionPoint) (info : TaskInsertInfo) : M S bool :=
  match insertion_point with
  | Some point =>
      addOrderingConstraintBetweenTasks point info;;
      success ← solve;
      if (success : bool) then
        s ← get;
        metrics ← lift (newest_metrics s);
        modify (set_latest (Some (metrics, Some point)));;
        mret true
      else mret false
  | None =>
      result ← addBestOrdering info;
      match result with
      | Some r => modify (set_latest (Some r));; mret true
      | None => mret false
      end
  end.

Definition addTask (task : Task) (insertion_point : option StnInsertionPoint) : M S bool :=
  modify (set_latest None);;
  throw_if (bool_decide (length (orders_ task) = 0%nat)) (invalid_argument "Task must have at least one order");;
  added_orders ← add_orders (orders_ task) None task
    {| info_task := task; end_locations := []; metrics_composition := Composition.initial |};
  match added_orders with
  | None => mret false
  | Some info =>
      for_each (preceding_task_uuids_ task) (fun prec_task =>
        first_order ← lift (front (orders_ task));
        start_vertex ← vertexOf first_order true;
        addPrecedenceConstraintBetweenTask start_vertex prec_task);;
      added ← insert_at insertion_point info;
      if (added : bool) then on_base Base.notify;; mret true else mret false
  end.

Definition getLatestCalculatedInsertionInfo (s : S) : outcome InsertionInfo :=
  match latest_calculated_insertion_info_ s with
  | Some info => Ok info
  | None => Throw (logic_error "There are no intertion info if the canAddTask or addTask were not sucessful")
  end.

Definition canAddTask (task : Task) (insertion_point : option StnInsertionPoint) : M S bool :=
  modify (set_latest None);;
  result ← on_copy seen (on_base Base.clearNotifyTaskAssignmentCallback;; addTask task insertion_point);
  if (result.1 : bool) then
    info ← lift (getLatestCalculatedInsertionInfo result.2);
    modify (set_latest (Some info));;
    mret true
  else mret false.
End StnTasks.
End StnTasks.

(** A vehicle with such a task management can take part in auctions. *)
#[export] Instance stn_auction_management `{Ns3Vector} : AuctionBasedTaskManagement StnTaskManagement StnInsertionPoint := {|
  AuctionParticipant.addTask := StnTasks.addTask;
  AuctionParticipant.canAddTask := StnTasks.canAddTask;
  AuctionParticipant.getLatestCalculatedInsertionInfo := StnTasks.getLatestCalculatedInsertionInfo;
|}.
