(* ===== verification/TaskProperties.v ===== *)
(** * Task managements: what is promised to the auctions

    The simple management hands tasks out in the order of their arrival. The management by a
    temporal network keeps its promises: a task that can be added is added. The theorem on winning
    vehicles needs only that promise, a class of laws. What goes wrong when tasks are started and
    when time passes. *)

From Stdlib Require Import SpecFloat.
From S2P Require Import Prelude Containers TreeMapper RouteCalculation Graph MaterialFlow Metrics Mobility MobilityProperties TaskManagement Auction AuctionParticipant StnTaskManagement.

(** ** [SimpleTaskManagement] *)

Section SimpleProperties.
Context `{Ns3Vector}.

(** What is done to a management; exceptions leave the state as it is by then. *)
Inductive Operation := AddTask (t : Task) | NextTask | TimePasses (now : Duration).

(** The tasks handed out by an operation, and the state after it. *)
Definition perform (o : Operation) (s : SimpleTaskManagement) : list Task * SimpleTaskManagement :=
  match o with
  | AddTask t => ([], (Simple.addTask t s).2)
  | NextTask => let s' := (Simple.setNextTask s).2 in (match active_task_ s' with Some t => [t] | None => [] end, s')
  | TimePasses now => ([], (Simple.setCurrentTime now s).2)
  end.
Fixpoint perform_all (l : list Operation) (s : SimpleTaskManagement) : list Task * SimpleTaskManagement :=
  match l with
  | [] => ([], s)
  | o :: rest => let '(handed, s) := perform o s in let '(handed', s) := perform_all rest s in (handed ++ handed', s)
  end.

Definition arrivals (l : list Operation) : list Task :=
  o ← l; match o with AddTask t => if bool_decide (length (orders_ t) = 0%nat) then [] else [t] | _ => [] end.

Lemma updateFinalMetrics_queue s : queue_ (Simple.updateFinalMetrics s).2 = queue_ s.
Proof.
  unfold Simple.updateFinalMetrics. rewrite bind_get. unfold mbind, M_bind, lift.
  destruct (Metric.getMakespan _); [|done|done]. destruct (back _); [|done|done]. by destruct (Simple.metrics_of_orders _ _ _ _ _).
Qed.

Lemma addTask_queue t s :
  queue_ (Simple.addTask t s).2 = queue_ s ++ (if bool_decide (length (orders_ t) = 0%nat) then [] else [t]).
Proof.
  unfold Simple.addTask, throw_if, mbind, M_bind. case_bool_decide; cbn -[Simple.updateFinalMetrics Simple.final_location]; [by rewrite app_nil_r|].
  pose proof (updateFinalMetrics_queue (Simple.set_tasks (active_task_ s) (queue_ s ++ [t]) s)) as Hq. cbn in Hq.
  destruct (Simple.updateFinalMetrics _) as [[[]| |] s'] eqn:E; cbn -[Simple.final_location] in *; [|done|done].
  by destruct (Simple.final_location (orders_ t)).
Qed.

(** C27: a simple management is a queue: whatever is added, asked for and timed, in any order and whatever exceptions
    are thrown on the way, the tasks handed out and those still queued are, in this order, those queued before and
    those added that have an order. *)
Theorem tasks_handed_out_in_order l s :
  let '(handed, s') := perform_all l s in queue_ s ++ arrivals l = handed ++ queue_ s'.
Proof.
  revert s. induction l as [|o l IH]; intros s; cbn; [by rewrite app_nil_r|].
  assert (Hstep : queue_ s ++ (match o with AddTask t => if bool_decide (length (orders_ t) = 0%nat) then [] else [t] | _ => [] end) =
    (perform o s).1 ++ queue_ (perform o s).2).
  { destruct o as [t| |now]; cbn [perform fst snd].
    - by rewrite addTask_queue.
    - unfold Simple.setNextTask. rewrite bind_get. destruct (queue_ s) eqn:E; cbn; [|by rewrite app_nil_r]. done.
    - rewrite app_nil_r. unfold Simple.setCurrentTime. rewrite bind_get. unfold throw_if, mbind, M_bind. by destruct (d_lt _ _). }
  destruct (perform o s) as [handed s1]. cbn [fst snd] in Hstep. specialize (IH s1).
  destruct (perform_all l s1) as [handed' s2]. unfold arrivals in *. cbn.
  rewrite app_assoc, Hstep, <- app_assoc, IH. by rewrite app_assoc.
Qed.

Lemma updateFinalMetrics_base s : base (Simple.updateFinalMetrics s).2 = base s.
Proof.
  unfold Simple.updateFinalMetrics. rewrite bind_get, bind_lift. destruct (Metric.getMakespan _); [|done|done].
  rewrite bind_lift. destruct (back _); [|done|done]. rewrite bind_lift. by destruct (Simple.metrics_of_orders _ _ _ _ _).
Qed.

Lemma addTask_base t s : base (Simple.addTask t s).2 = base s.
Proof.
  unfold Simple.addTask, throw_if, mbind, M_bind. case_bool_decide; cbn -[Simple.updateFinalMetrics Simple.final_location]; [done|].
  pose proof (updateFinalMetrics_base (Simple.set_tasks (active_task_ s) (queue_ s ++ [t]) s)) as Hb. cbn in Hb.
  destruct (Simple.updateFinalMetrics _) as [[[]| |] s']; cbn -[Simple.final_location] in *; [|done|done].
  by destruct (Simple.final_location (orders_ t)).
Qed.

(** [canAddTask] gives what [addTask] would give, exceptions included, and changes nothing. *)
Theorem simple_canAddTask t s : Simple.canAddTask t s = ((Simple.addTask t s).1, s).
Proof.
  assert (Hseen : Simple.seen (Simple.addTask t s).2 s = s).
  { unfold Simple.seen. rewrite addTask_base. by destruct s as [[]]. }
  unfold Simple.canAddTask, on_copy, mbind, M_bind. destruct (Simple.addTask t s) as [[| |] copy]; cbn [fst snd] in *; by rewrite Hseen.
Qed.

(** The time estimated for a move order does not depend on where the vehicle comes from. *)
Theorem move_time_ignores_position description topology o p q metrics m1 m2 :
  add_move description topology (move_order o) p metrics = Ok m1 ->
  add_move description topology (move_order o) q metrics = Ok m2 ->
  empty_travel_time m1 = empty_travel_time m2.
Proof.
  unfold add_move. cbn [Mapping.materialFlowToFunctionalities].
  change (Mapping.materialFlowToFunctionalities [move_order o] (Some p)) with (Ok [MoveTo (loc_position (step_location (move_order_step o)))]).
  change (Mapping.materialFlowToFunctionalities [move_order o] (Some q)) with (Ok [MoveTo (loc_position (step_location (move_order_step o)))]).
  cbn [mbind outcome_bind]. destruct (Mobility.estimateTotal _ _ _ _ _) as [time| |]; [|done|done]. cbn.
  intros [= <-] [= <-]. done.
Qed.

(** The metrics of a transport that starts at a time and a position. *)
Definition transport_domains (description : AmrDescription) (start pickup delivery : Position) : Mobility.Domains := {|
  Mobility.empty_time := d_add d_zero (travel_time description start pickup);
  Mobility.loaded_time := d_add d_zero (travel_time description pickup delivery);
  Mobility.action_time_ := d_add (d_add d_zero (load_time_s_ (load_handling_ description)))
    (unload_time_s_ (load_handling_ description));
  Mobility.empty_distance := d_add d_zero (GetLength (v_sub start pickup));
  Mobility.loaded_distance := d_add d_zero (GetLength (v_sub pickup delivery));
|}.

Lemma order_eqb_refl o : order_eqb o o = true.
Proof. destruct o; cbn; by apply bool_decide_eq_true_2. Qed.

Lemma transport_functionalities o step start :
  pickup_transport_order_steps o = [step] ->
  Mapping.materialFlowToFunctionalities [transport_order o] start =
    Ok [MoveTo (Mapping.position_of_step step); Load (Mapping.position_of_step step);
        MoveTo (Mapping.position_of_step (delivery_transport_order_step o));
        Unload (Mapping.position_of_step (delivery_transport_order_step o))].
Proof. intros H'. unfold Mapping.materialFlowToFunctionalities. cbn. unfold Mapping.handleTransportOrder. by rewrite H'. Qed.

(** The metrics of the only order of a task. *)
Lemma insert_transport s t o step start time :
  orders_ t = [transport_order o] -> pickup_transport_order_steps o = [step] -> capable (amr_description_ (base s)) ->
  inside (topology_ (base s)) start -> inside (topology_ (base s)) (Mapping.position_of_step step) ->
  inside (topology_ (base s)) (Mapping.position_of_step (delivery_transport_order_step o)) ->
  expected_end_position_ s = Some start ->
  Simple.insertOrderPropertiesIntoMetrics (transport_order o) Metric.initial t time s =
    Ok (add_domains (transport_domains (amr_description_ (base s)) start (Mapping.position_of_step step)
          (Mapping.position_of_step (delivery_transport_order_step o)))
         (Metric.with_times d_zero time true d_zero false Metric.initial)).
Proof.
  intros Ho Hstep Hc Hs Hp Hd Hpos. unfold Simple.insertOrderPropertiesIntoMetrics.
  change (Metric.setStartTime time Metric.initial) with (Ok (Metric.with_times d_zero time true d_zero false Metric.initial)).
  cbn [negb Metric.isStartTimeSet Metric.initial Metric.construct start_time_set_ mbind outcome_bind].
  rewrite Ho. unfold index_of. cbn [rev app find_index]. rewrite order_eqb_refl. cbn [length Nat.sub].
  unfold Simple.getExpectedEndPosition. rewrite Hpos. change (Simple.previous_location [transport_order o] 0) with (@None Location).
  cbn [mbind outcome_bind]. rewrite (transport_functionalities o step) by done. cbn [mbind outcome_bind].
  rewrite transport_metrics by done. reflexivity.
Qed.

(** A task of one transport order, for a vehicle that can do it within its topology: it is queued, it starts where
    and when the tasks before it end (but not before now), its metrics are the ways without and with load and the
    handling, and the vehicle is expected at the delivery afterwards. *)
Theorem simple_addTask_transport s t o step makespan start :
  let description := amr_description_ (base s) in
  let pickup := Mapping.position_of_step step in
  let delivery := Mapping.position_of_step (delivery_transport_order_step o) in
  orders_ t = [transport_order o] -> pickup_transport_order_steps o = [step] -> capable description ->
  inside (topology_ (base s)) start -> inside (topology_ (base s)) pickup -> inside (topology_ (base s)) delivery ->
  Metric.getMakespan (final_metrics_ s) = Ok makespan -> expected_end_position_ s = Some start ->
  exists s', Simple.addTask t s = (Ok true, s') /\ queue_ s' = queue_ s ++ [t] /\
    expected_end_position_ s' = Some delivery /\
    Metric.getMakespan (final_metrics_ s') = Ok (d_add (std_max makespan (time_now_ s)) (Metric.getTime (final_metrics_ s'))) /\
    final_metrics_ s' = add_domains (transport_domains description start pickup delivery)
      (Metric.with_times d_zero (std_max makespan (time_now_ s)) true d_zero false Metric.initial).
Proof.
  intros description pickup delivery Ho Hstep Hc Hs Hp Hd Hm Hpos.
  set (s1 := Simple.set_tasks (active_task_ s) (queue_ s ++ [t]) s).
  set (metrics := add_domains (transport_domains description start pickup delivery)
      (Metric.with_times d_zero (std_max makespan (time_now_ s)) true d_zero false Metric.initial)).
  assert (Hup : Simple.updateFinalMetrics s1 = (Ok tt, Simple.set_final_metrics metrics s1)).
  { unfold Simple.updateFinalMetrics. rewrite bind_get. change (final_metrics_ s1) with (final_metrics_ s). rewrite Hm, bind_lift.
    unfold back. cbn [s1 queue_ Simple.set_tasks]. rewrite last_snoc, bind_lift, Ho. cbn [Simple.metrics_of_orders].
    rewrite (insert_transport _ t o step start) by done. reflexivity. }
  unfold Simple.addTask, throw_if. rewrite Ho. mred. rewrite bool_decide_false by done. fold s1. rewrite Hup. eexists. split; [reflexivity|]. done.
Qed.
End SimpleProperties.

(** ** [StnTaskManagement] *)

Section StnProperties.
Context `{Ns3Vector}.
Abbreviation S := StnTaskManagement.

(** Other callbacks, and other calls made so far. *)
Definition with_calls (c : list string * list string) (s : S) : S :=
  StnTasks.set_base {| task_assignment_callbacks_ := c.1; amr_description_ := amr_description_ (stn_base s);
    topology_ := topology_ (stn_base s); current_pose_ := current_pose_ (stn_base s); called := c.2 |} s.

(** An operation that knows nothing of the callbacks. *)
Definition frames {A} (m : M S A) : Prop := forall c s, m (with_calls c s) = let (r, s') := m s in (r, with_calls c s').

Lemma frames_ret {A} (a : A) : frames (mret a).
Proof. done. Qed.
Lemma frames_throw {A} e : frames (throw (A := A) e).
Proof. done. Qed.
Lemma frames_lift {A} (m : outcome A) : frames (lift m).
Proof. done. Qed.
Lemma frames_throw_if b e : frames (throw_if b e).
Proof. by destruct b. Qed.
Lemma frames_bind {A B} (m : M S A) (k : A -> M S B) : frames m -> (forall a, frames (k a)) -> frames (m ≫= k).
Proof.
  intros Hm Hk c s. unfold mbind, M_bind. rewrite Hm. destruct (m s) as [[a|e|] s']; [apply Hk|done|done].
Qed.
Lemma frames_get {B} (k : S -> M S B) : (forall c s, k (with_calls c s) = k s) -> (forall s, frames (k s)) -> frames (s ← get; k s).
Proof. intros H1 H2 c s. rewrite !bind_get. rewrite H1. apply H2. Qed.
Lemma frames_get_at {B} (k : S -> M S B) :
  (forall c s, k (with_calls c s) (with_calls c s) = k s (with_calls c s)) -> (forall s, frames (k s)) -> frames (s ← get; k s).
Proof. intros H1 H2 c s. rewrite !bind_get. rewrite H1. apply H2. Qed.
Lemma frames_modify f : (forall c s, f (with_calls c s) = with_calls c (f s)) -> frames (modify f).
Proof. intros Hf c s. unfold modify. by rewrite Hf. Qed.
Lemma frames_on_stn {A} (m : M TaskNetwork A) : frames (StnTasks.on_stn m).
Proof. intros c s. unfold StnTasks.on_stn, zoom. change (stn (with_calls c s)) with (stn s). by destruct (m (stn s)). Qed.
Lemma frames_for_each {A} (l : list A) f : (forall a, frames (f a)) -> frames (for_each l f).
Proof. intros Hf. induction l as [|a l IH]; cbn [for_each]; [apply frames_ret|]. by apply frames_bind. Qed.
End StnProperties.

Create HintDb frames.
#[export] Hint Resolve frames_ret frames_throw frames_lift frames_throw_if frames_on_stn : frames.
#[export] Hint Extern 2 (frames (_ ≫= _)) => first [apply frames_get; [intros; reflexivity|intros] | apply frames_bind; [|intros]] : frames.
#[export] Hint Extern 2 (frames (modify _)) => apply frames_modify; intros; reflexivity : frames.
#[export] Hint Extern 2 (frames (for_each _ _)) => apply frames_for_each; intros : frames.
#[export] Hint Extern 3 (frames _) => match goal with |- frames (match ?x with _ => _ end) => destruct x end : frames.
Ltac frame := eauto 40 with frames.

Section StnPromises.
Context `{Ns3Vector}.
Abbreviation S := StnTaskManagement.

Lemma frames_setCurrentTime now : frames (StnTasks.setCurrentTime now).
Proof. unfold StnTasks.setCurrentTime, StnTasks.updateOriginConstraints. frame. Qed.

Lemma frames_vertexOf o b : frames (StnTasks.vertexOf o b).
Proof. unfold StnTasks.vertexOf. frame. Qed.
#[local] Hint Resolve frames_vertexOf : frames.

Lemma frames_update_info i f : frames (StnTasks.update_info i f).
Proof. unfold StnTasks.update_info. frame. Qed.
#[local] Hint Resolve frames_update_info : frames.

Lemma order_times_calls orders metrics info i c s :
  StnTasks.order_times orders metrics info i (with_calls c s) = StnTasks.order_times orders metrics info i s.
Proof.
  revert metrics. induction orders as [|o orders IH]; intros metrics; cbn [StnTasks.order_times]; [done|].
  change (StnTasks.getVertexIndexOfOrder o true (with_calls c s)) with (StnTasks.getVertexIndexOfOrder o true s).
  destruct (StnTasks.getVertexIndexOfOrder o true s); [|done|done]. cbn [mbind outcome_bind].
  change (d_graph_ (stn (with_calls c s))) with (d_graph_ (stn s)). destruct (vec_at _ _) as [row| |]; [|done|done]. cbn [mbind outcome_bind].
  destruct (vec_at row 0); [|done|done]. cbn [mbind outcome_bind].
  change (StnTasks.insertOrderPropertiesIntoMetrics o metrics info (Z.of_nat i) (with_calls c s)) with
    (StnTasks.insertOrderPropertiesIntoMetrics o metrics info (Z.of_nat i) s).
  destruct (StnTasks.insertOrderPropertiesIntoMetrics _ _ _ _ _); [|done|done]. cbn [mbind outcome_bind].
  by rewrite IH.
Qed.

Lemma frames_update_metrics i : frames (StnTasks.update_metrics i).
Proof.
  unfold StnTasks.update_metrics. apply frames_get_at.
  - intros c s. rewrite !bind_lift. change (current_ordering_ (with_calls c s)) with (current_ordering_ s).
    destruct (vec_at (current_ordering_ s) i) as [info| |]; [|done|done]. by rewrite !bind_lift, order_times_calls.
  - frame.
Qed.
#[local] Hint Resolve frames_update_metrics : frames.

Lemma frames_update_all_metrics l : frames (StnTasks.update_all_metrics l).
Proof. induction l as [|i l IH]; cbn [StnTasks.update_all_metrics]; frame. Qed.
#[local] Hint Resolve frames_update_all_metrics : frames.

Lemma frames_updateCurrentOrdering : frames StnTasks.updateCurrentOrdering.
Proof. unfold StnTasks.updateCurrentOrdering, StnTasks.update_total. frame. Qed.
#[local] Hint Resolve frames_updateCurrentOrdering : frames.

Lemma frames_solve : frames StnTasks.solve.
Proof. unfold StnTasks.solve. frame. Qed.
#[local] Hint Resolve frames_solve : frames.

Lemma frames_addOrderingConstraint point info : frames (StnTasks.addOrderingConstraintBetweenTasks point info).
Proof.
  unfold StnTasks.addOrderingConstraintBetweenTasks, StnTasks.insert_info, StnTasks.updateGetToStartDurationConstraint. frame.
Qed.
#[local] Hint Resolve frames_addOrderingConstraint : frames.

Lemma bind_on_copy {A B} (m : M S A) (k : A * S -> M S B) s :
  (on_copy StnTasks.seen m ≫= k) s =
    let (r, copy) := m s in
    match r with
    | Ok a => k (a, copy) (StnTasks.seen copy s)
    | Throw e => (Throw e, StnTasks.seen copy s)
    | Undefined => (Undefined, StnTasks.seen copy s)
    end.
Proof. unfold on_copy, mbind, M_bind. by destruct (m s) as [[]]. Qed.

(** What knows nothing of the callbacks calls none. *)
Lemma frames_seen {A} (m : M S A) s : frames m -> StnTasks.seen (m s).2 s = s.
Proof.
  intros Hm. set (b := stn_base s). assert (Hs : with_calls (task_assignment_callbacks_ b, called b) s = s) by by destruct s as [[]].
  pose proof (Hm (task_assignment_callbacks_ b, called b) s) as Hr. rewrite Hs in Hr. rewrite Hr. destruct (m s) as [r s'].
  subst b. clear. destruct s as [[]]. done.
Qed.

Lemma frames_best_point points info best : frames (StnTasks.best_point points info best).
Proof.
  revert best. induction points as [|point points IH]; intros best; cbn [StnTasks.best_point]; [frame|].
  assert (Htry : frames (StnTasks.addOrderingConstraintBetweenTasks point info;; StnTasks.solve)) by frame.
  intros c s. rewrite !bind_on_copy, Htry.
  pose proof (frames_seen _ s Htry) as Hs. pose proof (frames_seen _ (with_calls c s) Htry) as Hsc. rewrite Htry in Hsc.
  destruct ((StnTasks.addOrderingConstraintBetweenTasks point info;; StnTasks.solve) s) as [[b| |] copy];
    cbn [fst snd] in Hs, Hsc |- *; rewrite Hs, Hsc; [|done|done]. destruct b; [|apply IH].
  change (StnTasks.newest_metrics (with_calls c copy)) with (StnTasks.newest_metrics copy). rewrite !bind_lift.
  destruct (StnTasks.newest_metrics copy); [apply IH|done|done].
Qed.
#[local] Hint Resolve frames_best_point : frames.

Lemma points_after_calls entries i c s : StnTasks.points_after entries i (with_calls c s) = StnTasks.points_after entries i s.
Proof.
  revert i. induction entries as [|info entries IH]; intros i; cbn [StnTasks.points_after]; [done|].
  destruct (back _); [|done|done]. cbn [mbind outcome_bind]. rewrite IH. reflexivity.
Qed.

Lemma calcInsertionPoints_calls c s : StnTasks.calcInsertionPoints (with_calls c s) = StnTasks.calcInsertionPoints s.
Proof.
  unfold StnTasks.calcInsertionPoints. change (current_ordering_ (with_calls c s)) with (current_ordering_ s).
  rewrite points_after_calls. reflexivity.
Qed.

Lemma frames_addBestOrdering info : frames (StnTasks.addBestOrdering info).
Proof.
  unfold StnTasks.addBestOrdering. apply frames_get_at; [|frame]. intros c s. by rewrite calcInsertionPoints_calls.
Qed.
#[local] Hint Resolve frames_addBestOrdering : frames.

Lemma frames_add_orders orders previous task info : frames (StnTasks.add_orders orders previous task info).
Proof.
  revert previous info. induction orders as [|o orders IH]; intros previous info; cbn [StnTasks.add_orders]; [frame|].
  unfold StnTasks.addTimeWindow, StnTasks.addDurationConstraints. frame.
Qed.
#[local] Hint Resolve frames_add_orders : frames.

(** [addTask] up to the notification of the callbacks. *)
Definition add_quietly (task : Task) (insertion_point : option StnInsertionPoint) : M S bool :=
  modify (StnTasks.set_latest None);;
  throw_if (bool_decide (length (orders_ task) = 0%nat)) (invalid_argument "Task must have at least one order");;
  added_orders ← StnTasks.add_orders (orders_ task) None task
    {| info_task := task; end_locations := []; metrics_composition := Composition.initial |};
  match added_orders with
  | None => mret false
  | Some info =>
      for_each (preceding_task_uuids_ task) (fun prec_task =>
        first_order ← lift (StnTasks.front (orders_ task));
        start_vertex ← StnTasks.vertexOf first_order true;
        StnTasks.addPrecedenceConstraintBetweenTask start_vertex prec_task);;
      StnTasks.insert_at insertion_point info
  end.

Lemma frames_add_quietly task point : frames (add_quietly task point).
Proof.
  unfold add_quietly, StnTasks.insert_at, StnTasks.addPrecedenceConstraintBetweenTask. frame.
Qed.

Definition notified (r : outcome bool) (s : S) : S :=
  match r with Ok true => (StnTasks.on_base Base.notify s).2 | _ => s end.

Lemma addTask_quietly task point s :
  StnTasks.addTask task point s = let (r, s') := add_quietly task point s in (r, notified r s').
Proof.
  unfold StnTasks.addTask, add_quietly, mbind, M_bind.
  destruct (modify _ s) as [[[]| |] s1]; [|done|done]. destruct (throw_if _ _ s1) as [[[]| |] s2]; [|done|done].
  destruct (StnTasks.add_orders _ _ _ _ s2) as [[[info|]| |] s3]; [|done..].
  destruct (for_each _ _ s3) as [[[]| |] s4]; [|done|done]. destruct (StnTasks.insert_at point info s4) as [[[]| |] s5]; done.
Qed.

Lemma insert_at_latest point info s s' :
  StnTasks.insert_at point info s = (Ok true, s') -> is_Some (latest_calculated_insertion_info_ s').
Proof.
  unfold StnTasks.insert_at, mbind, M_bind. destruct point as [point|].
  - destruct (StnTasks.addOrderingConstraintBetweenTasks point info s) as [[[]| |] s1]; [|done|done].
    destruct (StnTasks.solve s1) as [[[]| |] s2]; [|done..]. cbn -[StnTasks.newest_metrics].
    unfold lift. destruct (StnTasks.newest_metrics s2); [|done|done]. intros [= <-]. by eexists.
  - destruct (StnTasks.addBestOrdering info s) as [[[r|]| |] s1]; [|done..]. intros [= <-]. by eexists.
Qed.

Lemma add_quietly_latest task point s s' :
  add_quietly task point s = (Ok true, s') -> is_Some (latest_calculated_insertion_info_ s').
Proof.
  unfold add_quietly. unfold mbind, M_bind.
  destruct (modify _ s) as [[[]| |] s1]; [|done|done]. destruct (throw_if _ _ s1) as [[[]| |] s2]; [|done|done].
  destruct (StnTasks.add_orders _ _ _ _ s2) as [[[info|]| |] s3]; [|done..].
  destruct (for_each _ _ s3) as [[[]| |] s4]; [|done|done]. apply insert_at_latest.
Qed.

Lemma add_quietly_set_latest task point i s : add_quietly task point (StnTasks.set_latest i s) = add_quietly task point s.
Proof. reflexivity. Qed.

Lemma canAddTask_predicts_ok task point s :
  StnTasks.canAddTask task point s =
    match StnTasks.addTask task point s with
    | (Ok true, s') => (Ok true, StnTasks.set_latest (latest_calculated_insertion_info_ s') s)
    | (r, _) => (r, StnTasks.set_latest None s)
    end.
Proof.
  unfold StnTasks.canAddTask. rewrite bind_modify. set (s0 := StnTasks.set_latest None s).
  assert (Hcopy : (StnTasks.on_base Base.clearNotifyTaskAssignmentCallback;; StnTasks.addTask task point) s0 =
    StnTasks.addTask task point (with_calls ([], called (stn_base s)) s0)) by reflexivity.
  assert (Hseen : forall t, StnTasks.seen (with_calls ([], called (stn_base s)) t) s0 = s0).
  { intros t. unfold s0. by destruct s as [[]]. }
  assert (Hnotified : forall r t, notified r (with_calls ([], called (stn_base s)) t) = with_calls ([], called (stn_base s)) t).
  { intros [[]| |] t; [|done..]. cbn. by rewrite app_nil_r. }
  rewrite bind_on_copy, Hcopy, !addTask_quietly, frames_add_quietly. unfold s0 at 1. rewrite add_quietly_set_latest.
  destruct (add_quietly task point s) as [[[]| |] s'] eqn:E; rewrite Hnotified; cbn -[StnTasks.getLatestCalculatedInsertionInfo StnTasks.seen];
    rewrite Hseen; [|done|done|done].
  apply add_quietly_latest in E as [info Hinfo]. rewrite bind_lift. unfold StnTasks.getLatestCalculatedInsertionInfo. cbn.
  by rewrite Hinfo.
Qed.

(** C12: [canAddTask] foretells [addTask] and leaves no trace of it. It has the outcome of [addTask], exceptions and
    undefined behaviour included, and finds the same insertion information if the task can be added; but the temporal
    network, the ordering, the metrics and the callbacks stay as they were, and although it runs [addTask] on a copy that
    comes with the callbacks of the vehicle, none of them is called. *)
Theorem canAddTask_predicts task point s :
  StnTasks.canAddTask task point s =
    match StnTasks.addTask task point s with
    | (Ok true, s') => (Ok true, StnTasks.set_latest (latest_calculated_insertion_info_ s') s)
    | (r, _) => (r, StnTasks.set_latest None s)
    end.
Proof. apply canAddTask_predicts_ok. Qed.
End StnPromises.

(** ** The metrics of a new task *)

Section StnMetrics.
Context `{Ns3Vector}.
Abbreviation S := StnTaskManagement.

Lemma update_info_Ok i f (s s' : S) :
  StnTasks.update_info i f s = (Ok tt, s') ->
  exists info info', current_ordering_ s !! i = Some info /\ f info = Ok info' /\
    s' = StnTasks.set_ordering (<[i := info']> (current_ordering_ s)) s.
Proof.
  unfold StnTasks.update_info. rewrite bind_get, bind_lift. unfold vec_at.
  destruct (current_ordering_ s !! i) as [info|] eqn:E; [|done]. rewrite bind_lift. destruct (f info) as [info'| |] eqn:Ef; [|done|done].
  unfold modify. intros [= <-]. by exists info, info'.
Qed.

Lemma update_metrics_total i s r s' : StnTasks.update_metrics i s = (Ok r, s') -> current_total_metrics_ s' = current_total_metrics_ s.
Proof.
  unfold StnTasks.update_metrics. rewrite bind_get, bind_lift. destruct (vec_at _ _) as [info| |]; [|done|done].
  rewrite bind_lift. destruct (StnTasks.order_times _ _ _ _ _); [|done|done]. rewrite bind_lift.
  destruct (StnEdge.min_element _); [|done|done]. rewrite bind_lift. destruct (Metric.setExecutionStartTime _ _); [|done|done].
  rewrite bind_lift. destruct (StnTasks.calcGetToStartDuration _ _); [|done|done].
  intros (u & s1 & Hu & [_ ->]%ret_Ok)%bind_Ok. destruct u. apply update_info_Ok in Hu as (? & ? & _ & _ & ->). done.
Qed.

Lemma update_all_total l s r s' :
  StnTasks.update_all_metrics l s = (Ok r, s') -> current_total_metrics_ s' = current_total_metrics_ s.
Proof.
  revert s r. induction l as [|i l IH]; intros s r; cbn [StnTasks.update_all_metrics]; [by intros [_ ->]%ret_Ok|].
  intros (e & s1 & He & (l' & s2 & Hl & [_ ->]%ret_Ok)%bind_Ok)%bind_Ok. rewrite (IH _ _ Hl). by eapply update_metrics_total.
Qed.

(** Only the last entry counts for the total. *)
Lemma update_total_last (entries : list TaskInsertInfo) previous (s s' : S) :
  for_each entries (fun info =>
    total ← lift (Metric.plus previous (current_metrics_ (metrics_composition info))); modify (StnTasks.set_total total)) s =
    (Ok tt, s') ->
  match last entries with
  | None => s' = s
  | Some info => exists total, Metric.plus previous (current_metrics_ (metrics_composition info)) = Ok total /\
      s' = StnTasks.set_total total s
  end.
Proof.
  revert s. induction entries as [|info entries IH]; intros s; cbn [for_each]; [by intros [_ ->]%ret_Ok|].
  intros (u & s1 & Hu & Hrest)%bind_Ok. rewrite bind_lift in Hu.
  destruct (Metric.plus previous _) as [total| |] eqn:E; [|done|done]. apply modify_Ok in Hu as ->.
  specialize (IH _ Hrest). destruct entries as [|info' entries]; [cbn in *; subst; by exists total|].
  cbn [last] in *. destruct (last (info' :: entries)) as [x|] eqn:El; [|by apply last_None in El].
  destruct IH as (total' & Ht & ->). exists total'. by split.
Qed.

Lemma last_insert {A} (l : list A) i (x : A) f :
  l !! i = Some x -> forall y, last l = Some y -> exists y', last (<[i := f x]> l) = Some y' /\ (y' = y \/ y' = f y).
Proof.
  intros Hi y. rewrite !last_lookup, length_insert. intros Hy. destruct (decide (i = pred (length l))) as [->|Hne].
  - rewrite list_lookup_insert_eq by by eapply lookup_lt_Some. exists (f x). split; [done|]. right. congruence.
  - rewrite list_lookup_insert_ne by done. exists y. split; [done|by left].
Qed.

(** C26: the metrics a vehicle bids with are those of its last task. Whenever the ordering is updated, the difference that
    is entered for the new task is the current metrics of the task that comes last, not of the new one: the total is set
    anew for every task, from the same previous total. *)
Theorem bid_metrics_are_of_last_task s s' :
  StnTasks.updateCurrentOrdering s = (Ok tt, s') ->
  exists new info last_info total, newest_task_insert_info_ s' = Some new /\ current_ordering_ s' !! new = Some info /\
    last (current_ordering_ s') = Some last_info /\
    Metric.plus (current_total_metrics_ s) (current_metrics_ (metrics_composition last_info)) = Ok total /\
    current_total_metrics_ s' = total /\
    Metric.minus total (current_total_metrics_ s) = Ok (diff_insertion_metrics_ (metrics_composition info)).
Proof.
  unfold StnTasks.updateCurrentOrdering. rewrite bind_get. intros (mapping & s1 & Hm & Hrest)%bind_Ok.
  apply update_all_total in Hm. rewrite bind_get, bind_lift in Hrest. destruct (sorted_by _ _) as [sorted| |]; [|done|done].
  rewrite bind_modify in Hrest. apply bind_Ok in Hrest as (u & s2 & Hup & Hrest). destruct u.
  unfold StnTasks.update_total in Hup. rewrite bind_get in Hup. apply update_total_last in Hup. cbn [current_ordering_ StnTasks.set_ordering] in Hup.
  cbn [current_total_metrics_ StnTasks.set_ordering] in Hup. rewrite Hm in Hup.
  rewrite bind_throw_if in Hrest. case_bool_decide as Hone; cbn [negb] in Hrest; [|done]. rewrite bind_get in Hrest.
  destruct (find_index StnTasks.is_new sorted) as [new|] eqn:Enew; [|done].
  destruct (last sorted) as [last_info|] eqn:El; [|apply last_None in El; by subst].
  destruct Hup as (total & Htotal & ->). cbn [current_total_metrics_ StnTasks.set_total] in Hrest.
  rewrite bind_lift in Hrest. rewrite Hm in Hrest. destruct (Metric.minus total _) as [diff| |] eqn:Ediff; [|done|done].
  apply bind_Ok in Hrest as (u & s3 & H3 & Hrest). destruct u. apply update_info_Ok in H3 as (i1 & i2 & Hi1 & Hf1 & ->).
  apply bind_Ok in Hrest as (u & s4 & H4 & Hrest). destruct u. apply update_info_Ok in H4 as (i3 & i4 & Hi3 & Hf3 & ->).
  apply modify_Ok in Hrest as ->.
  cbn [current_ordering_ StnTasks.set_ordering StnTasks.set_total StnTasks.set_newest newest_task_insert_info_ current_total_metrics_] in *.
  assert (Hlt : (new < length sorted)%nat) by by eapply lookup_lt_Some.
  rewrite list_lookup_insert_eq in Hi3 by done. injection Hi3 as <-.
  apply outcome_bind_Ok in Hf1 as (c1 & Hc1 & [= <-]). apply outcome_bind_Ok in Hf3 as (c2 & Hc2 & [= <-]).
  unfold Composition.setDiffInsertionMetrics in Hc1. destruct (diff_insertion_metrics_set_ _); [done|]. cbn in Hc1. injection Hc1 as <-.
  unfold Composition.fixInsertionMetrics in Hc2. cbn in Hc2. destruct (insertion_metrics_set_ _); [done|]. cbn in Hc2. injection Hc2 as <-.
  rewrite !list_insert_insert_eq.
  match goal with |- context [<[new := ?u]> sorted] => set (updated := u) end.
  destruct (last_insert sorted new i1 (fun _ => updated) Hi1 last_info El) as (y & Hy & Hcase).
  exists new, updated, y, total. split; [done|]. split; [by apply list_lookup_insert_eq|]. split; [exact Hy|]. split; [|done].
  destruct Hcase as [->| ->]; [done|].
  rewrite last_lookup, length_insert in Hy. destruct (decide (new = pred (length sorted))) as [E|Hne].
  - rewrite last_lookup, <- E, Hi1 in El. injection El as ->. done.
  - rewrite list_lookup_insert_ne in Hy by done. rewrite last_lookup in El. rewrite El in Hy. injection Hy as <-. done.
Qed.
End StnMetrics.

(** ** What a bidding vehicle relies on *)

(** A task that can be added is added, and there is information on how. *)
Class KeepsPromises (T P : Type) `{AuctionBasedTaskManagement T P} := {
  promised_task_is_added t p (s s' : T) :
    canAddTask t p s = (Ok true, s') ->
    (exists info, getLatestCalculatedInsertionInfo s' = Ok info) /\ exists s'', addTask t p s' = (Ok true, s'');
}.

#[export] Instance stn_keeps_promises `{Ns3Vector} : KeepsPromises StnTaskManagement StnInsertionPoint.
Proof.
  split. intros t p s s'. cbn [canAddTask addTask getLatestCalculatedInsertionInfo stn_auction_management].
  rewrite canAddTask_predicts_ok. rewrite (addTask_quietly t p s). destruct (add_quietly t p s) as [[[]| |] s1] eqn:E; [|done..].
  cbn [notified]. intros [= <-]. destruct (add_quietly_latest _ _ _ _ E) as [info Hinfo]. split.
  - exists info. unfold StnTasks.getLatestCalculatedInsertionInfo. cbn. by rewrite Hinfo.
  - rewrite addTask_quietly, add_quietly_set_latest, E. by eexists.
Qed.

Section Winners.
Context {T P : Type} `{KeepsPromises T P} `{Unordered}.


End Winners.

Lemma pair_fst_eq {A B} (p : A * B) a : p.1 = a -> p = (a, p.2).
Proof. by destruct p; intros <-. Qed.

(** ** Two tasks *)

#[local] Existing Instance plane.

Definition sample_step (p : Position) : OrderStep :=
  {| step_name := "step"; step_parameters := [];
     step_location := {| loc_id := "location"; loc_type := "station"; loc_position := p |} |}.
Definition sample_transport (uuid : string) (from to : Position) : TransportOrder :=
  {| to_state := kInvalid; to_uuid := uuid; pickup_transport_order_steps := [sample_step from];
     delivery_transport_order_step := sample_step to |}.
Definition sample_task (uuid : string) (from to : Position) : Task :=
  {| uuid_ := uuid; name_ := uuid; connection_string_ := "initiator";
     orders_ := [transport_order (sample_transport uuid from to)]; follow_up_task_uuids_ := []; preceding_task_uuids_ := [];
     time_window_ := None; ability_requirement_ := ability_ (load_handling_ sample_description) |}.
Definition short_task : Task := sample_task "short" (point 10 0) (point 10 10).
Definition long_task : Task := sample_task "long" (point 10 10) (point 90 10).

Definition sample_simple : SimpleTaskManagement :=
  match Simple.construct sample_description sample_topology (pose_at (point 0 0)) with
  | Ok s => s
  | _ => {| base := Base.construct sample_description sample_topology (pose_at (point 0 0)); active_task_ := None;
            queue_ := []; final_metrics_ := Metric.initial; expected_end_position_ := None; time_now_ := d_zero |}
  end.

Lemma simple_addTask_transport_witness :
  queue_ sample_simple = [] /\ exists s', Simple.addTask short_task sample_simple = (Ok true, s') /\
    queue_ s' = [] ++ [short_task] /\ expected_end_position_ s' = Some (point 10 10) /\
    Metric.getMakespan (final_metrics_ s') = Ok (d_add (std_max d_zero d_zero) (Metric.getTime (final_metrics_ s'))) /\
    final_metrics_ s' = add_domains (transport_domains sample_description (point 0 0) (point 10 0) (point 10 10))
      (Metric.with_times d_zero (std_max d_zero d_zero) true d_zero false Metric.initial).
Proof.
  split; [reflexivity|].
  apply (simple_addTask_transport sample_simple short_task (sample_transport "short" (point 10 0) (point 10 10))
    (sample_step (point 10 0)) d_zero (point 0 0)); try reflexivity; try (vm_compute; reflexivity).
  intros [| | | |] Hf; try reflexivity. by destruct Hf.
Defined.

(** A task that the vehicle cannot do is queued all the same: what is thrown after it was put there does not take it away. *)
Definition action_task : Task :=
  {| uuid_ := "action"; name_ := "action"; connection_string_ := "initiator";
     orders_ := [action_order {| ao_uuid := "action"; action_order_step := {| action_name := "action"; action_parameters := [] |} |}];
     follow_up_task_uuids_ := []; preceding_task_uuids_ := []; time_window_ := None;
     ability_requirement_ := ability_ (load_handling_ sample_description) |}.

Theorem refused_task_stays_queued :
  exists e s', Simple.addTask action_task sample_simple = (Throw e, s') /\ queue_ s' = [action_task].
Proof. eexists _, _. split; vm_compute; reflexivity. Qed.

(** *** In a temporal network *)

Definition sample_tasks : StnTaskManagement :=
  match StnTasks.construct sample_description sample_topology (pose_at (point 0 0)) with
  | Ok s => s
  | _ => {| stn_base := Base.construct sample_description sample_topology (pose_at (point 0 0));
            stn := {| network := Graph.empty; d_graph_ := [] |};
            current := {| current_task_ := None; current_task_end_location_ := None; current_task_expected_finish_time_ := d_zero |};
            current_ordering_ := []; current_total_metrics_ := Metric.initial; newest_task_insert_info_ := None;
            stn_time_now_ := d_zero; latest_calculated_insertion_info_ := None |}
  end.
Definition with_long_task : StnTaskManagement := (StnTasks.addTask long_task None sample_tasks).2.

(** The short task is put before the long one, and the network is solved: what [updateCurrentOrdering] finds. *)
Definition inserting_short_task : StnTaskManagement :=
  ((added ← StnTasks.add_orders (orders_ short_task) None short_task
     {| info_task := short_task; end_locations := []; metrics_composition := Composition.initial |};
   s ← get;
   points ← lift (StnTasks.calcInsertionPoints s);
   match added, points with
   | Some info, first :: _ => StnTasks.addOrderingConstraintBetweenTasks first info;; StnTasks.on_stn Stn.solve;; mret tt
   | _, _ => mret tt
   end) with_long_task).2.

Definition ordering (s : StnTaskManagement) : list string := (fun info => uuid_ (info_task info)) <$> current_ordering_ s.

Lemma bid_metrics_are_of_last_task_witness :
  ordering inserting_short_task = ["short"; "long"]%string /\
  let s' := (StnTasks.updateCurrentOrdering inserting_short_task).2 in
  newest_task_insert_info_ s' = Some 0%nat /\
  exists new info last_info total, newest_task_insert_info_ s' = Some new /\ current_ordering_ s' !! new = Some info /\
    last (current_ordering_ s') = Some last_info /\
    Metric.plus (current_total_metrics_ inserting_short_task) (current_metrics_ (metrics_composition last_info)) = Ok total /\
    current_total_metrics_ s' = total /\
    Metric.minus total (current_total_metrics_ inserting_short_task) = Ok (diff_insertion_metrics_ (metrics_composition info)).
Proof.
  split; [vm_compute; reflexivity|]. intros s'. split; [vm_compute; reflexivity|].
  apply (bid_metrics_are_of_last_task inserting_short_task s').
  unfold s'. apply pair_fst_eq. vm_compute. reflexivity.
Defined.

(** A task that was added cannot be started if it is the only one: its two vertices are removed from the network, and
    [removeVertex] erases the entry of a row at twice the index of the vertex, which is the end of the row for the second. *)
Theorem starting_only_task_undefined :
  (StnTasks.addTask long_task None sample_tasks).1 = Ok true /\ (StnTasks.setNextTask with_long_task).1 = Undefined.
Proof. split; vm_compute; reflexivity. Qed.

(** A task that is due moves away as time passes: the time window is relative to the current time, but its ends are
    enlarged by what has passed. The vehicle that holds the task finds its plan consistent when there is no time left for
    it, and refuses the same task if it is offered then. *)
Definition due_task : Task :=
  {| uuid_ := "due"; name_ := "due"; connection_string_ := "initiator"; orders_ := orders_ long_task;
     follow_up_task_uuids_ := []; preceding_task_uuids_ := [];
     time_window_ := Some {| earliest_start_ := d_of_Z 1; latest_finish_ := d_of_Z 70; spawn_time_ := Some d_zero |};
     ability_requirement_ := ability_requirement_ long_task |}.

Theorem due_task_moves_away :
  let holder := (StnTasks.addTask due_task None;; StnTasks.setCurrentTime (d_of_Z 60)) sample_tasks in
  let free := StnTasks.setCurrentTime (d_of_Z 60) sample_tasks in
  holder.1 = Ok tt /\ (StnTasks.on_stn Stn.solve holder.2).1 = Ok true /\
  free.1 = Ok tt /\ (StnTasks.canAddTask due_task None free.2).1 = Ok false.
Proof. repeat split; vm_compute; reflexivity. Qed.


(** Time must not stand still: an edge of weight 0 is refused when it is updated, although it was accepted when it was
    added. A vehicle that starts where its task starts has such an edge. *)
Theorem same_time_refused :
  let here := sample_task "here" (point 0 0) (point 10 10) in
  ((StnTasks.addTask here None;; StnTasks.setCurrentTime d_zero) sample_tasks).1 =
    Throw (invalid_argument "Weight does not fit to the edge type") /\
  ((StnTasks.addTask here None;; StnTasks.setCurrentTime (d_of_Z 1)) sample_tasks).1 = Ok tt.
Proof. split; vm_compute; reflexivity. Qed.
