(* ===== verification/AuctionRuns.v ===== *)
(** * Auctions from the first call to the last answer

    The initiator and two vehicles with temporal networks, on a network that delivers everything
    in order: the tasks of the constructor's material flow are auctioned, iteration by iteration,
    and end up with the vehicles. The same with a vehicle that gets other work meanwhile, and with
    lost bids. *)

From Stdlib Require Import SpecFloat.
From S2P Require Import Prelude Containers TreeMapper RouteCalculation Graph MaterialFlow Precedence Metrics Mobility MobilityProperties TaskManagement Auction AuctionParticipant PrecedenceProperties AuctionProperties StnTaskManagement TaskProperties.

Abbreviation VehicleState := (ParticipantState StnTaskManagement StnInsertionPoint).
#[local] Existing Instance plane.
#[local] Existing Instance in_order.

(** ** Two vehicles *)

Record Vehicle := { v_connection : string; v_ability : AmrStaticAbility; v_topic : string }.
Definition package_vehicle : Vehicle :=
  {| v_connection := "amr1"; v_ability := package_ability; v_topic := "topicpackage" |}.
Definition eurobox_vehicle : Vehicle :=
  {| v_connection := "amr2"; v_ability := {| load_carrier_ := kEuroBox; max_payload_weight_kg_ := d_of_Z 20 |};
     v_topic := "topiceurobox" |}.

Definition management_at (p : Position) : StnTaskManagement :=
  match StnTasks.construct sample_description sample_topology (pose_at p) with Ok s => s | _ => sample_tasks end.
Definition vehicle_at (p : Position) : VehicleState :=
  {| initiator_auction_state_mapping_ := []; task_management_ := management_at p; participant_sent_ := [] |}.

(** ** The network *)

(** What reaches a vehicle: what is published on its topic or sent to it. *)
Definition to_vehicle (v : Vehicle) (m : Sent) : M VehicleState unit :=
  match m with
  | Published topic (call_for_proposal c) =>
      if bool_decide (topic = v_topic v) then process_CallForProposal (v_connection v) (v_ability v) c else mret tt
  | Published topic (iteration_notification n) =>
      if bool_decide (topic = v_topic v) then process_IterationNotification (v_connection v) (v_ability v) n else mret tt
  | SentTo connection (winner_notification n) =>
      if bool_decide (connection = v_connection v) then process_WinnerNotification (v_connection v) n else mret tt
  | _ => mret tt
  end.
Definition to_initiator (m : Sent) : M InitiatorState unit :=
  match m with
  | SentTo _ (bid_submission b) => Initiator.process_BidSubmission b
  | SentTo _ (winner_response r) => Initiator.process_WinnerResponse r
  | _ => mret tt
  end.

Record System := { initiator : InitiatorState; first_vehicle : VehicleState; second_vehicle : VehicleState }.

Definition on_initiator {A} (m : M InitiatorState A) : M System A :=
  zoom initiator (fun i s => {| initiator := i; first_vehicle := first_vehicle s; second_vehicle := second_vehicle s |}) m.
Definition on_first {A} (m : M VehicleState A) : M System A :=
  zoom first_vehicle (fun v s => {| initiator := initiator s; first_vehicle := v; second_vehicle := second_vehicle s |}) m.
Definition on_second {A} (m : M VehicleState A) : M System A :=
  zoom second_vehicle (fun v s => {| initiator := initiator s; first_vehicle := first_vehicle s; second_vehicle := v |}) m.

(** What was sent, which is taken from the outbox. *)
Definition outbox : M InitiatorState (list Sent) :=
  s ← get;
  modify (fun s => {| process_ := process_ s; material_flow_ := material_flow_ s;
    ability_topic_mapping_ := ability_topic_mapping_ s; preparation_finished_ := preparation_finished_ s;
    scheduled_ := scheduled_ s; sent_ := [] |});;
  mret (sent_ s).
Definition vehicle_outbox : M VehicleState (list Sent) :=
  s ← get;
  modify (fun s => {| initiator_auction_state_mapping_ := initiator_auction_state_mapping_ s;
    task_management_ := task_management_ s; participant_sent_ := [] |});;
  mret (participant_sent_ s).

(** Everything is delivered; the answers of the vehicles may be changed on their way. *)
Definition deliver_all (change : list Sent -> list Sent) : M System unit :=
  messages ← on_initiator outbox;
  on_first (for_each messages (to_vehicle package_vehicle));;
  on_second (for_each messages (to_vehicle eurobox_vehicle));;
  answers1 ← on_first vehicle_outbox;
  answers2 ← on_second vehicle_outbox;
  on_initiator (for_each (change (answers1 ++ answers2)) to_initiator).

(** A pass: bids come in, winners are told, their answers come in. *)
Definition pass (change : list Sent -> list Sent) : M System unit :=
  deliver_all change;;
  on_initiator (Initiator.bidProcessing "initiator" sample_fleet);;
  deliver_all change;;
  on_initiator (Initiator.winnerResponseProcessing "initiator" sample_fleet).

Definition system : System :=
  {| initiator := sample_auction; first_vehicle := vehicle_at (point 0 0); second_vehicle := vehicle_at (point 50 50) |}.

Definition tasks_of (v : VehicleState) : list string :=
  (fun info => uuid_ (info_task info)) <$> current_ordering_ (task_management_ v).
Definition answer_of (r : outcome unit * System) : outcome unit * bool * list string * list string :=
  (r.1, bool_decide (is_Some (process_ (initiator r.2))), tasks_of (first_vehicle r.2), tasks_of (second_vehicle r.2)).

(** The auction is over after two passes, and every task of the material flow is with the only vehicle that fits. *)
Theorem fleet_serves_material_flow :
  uuid_ <$> material_flow_ (initiator system) = ["task1"; "task2"; "task3"]%string /\
  answer_of ((pass id;; pass id) system) = (Ok tt, false, ["task1"; "task3"]%string, ["task2"]%string).
Proof. split; vm_compute; reflexivity. Qed.

(** ** A vehicle with other work *)

(** The first vehicle gets another task after its bid and before it learns that it won. *)
Definition interrupted_pass (other : Task) : M System unit :=
  deliver_all id;;
  on_initiator (Initiator.bidProcessing "initiator" sample_fleet);;
  (on_first (on_management (StnTasks.addTask other None));; mret tt);;
  deliver_all id;;
  on_initiator (Initiator.winnerResponseProcessing "initiator" sample_fleet).
Definition on_the_way : Task := sample_task "other" (point 0 0) (point 1 1).
Definition far_away : Task := sample_task "other" (point 50 50) (point 60 60).

(** If the other task does not make the first one dearer, all is well; if it does, the vehicle refuses, its task is lost
    to everybody, and the vehicle keeps an empty entry for the auction: the next call for proposals is an exception. *)
Theorem refusing_vehicle_is_out :
  answer_of ((interrupted_pass on_the_way;; pass id) system) =
    (Ok tt, false, ["other"; "task1"; "task3"]%string, ["task2"]%string) /\
  answer_of (interrupted_pass far_away system) = (Ok tt, true, ["other"]%string, ["task2"]%string) /\
  answer_of ((interrupted_pass far_away;; pass id) system) =
    (Throw (runtime_error "Auction Participant process already in place for initiator connection."), true,
     ["other"]%string, ["task2"]%string).
Proof. repeat split; vm_compute; reflexivity. Qed.

(** ** Lost bids *)

(** What the vehicles answer to the first call is lost. As there are no bids, the initiator names the tasks that are not
    taken; that is what a vehicle takes for the tasks that are: it gives them up, and no further bid ever comes. *)
Definition lost (answers : list Sent) : list Sent := [].
Definition bidding (change : list Sent -> list Sent) : M System unit :=
  deliver_all change;; on_initiator (Initiator.bidProcessing "initiator" sample_fleet).
Definition auctions_of (v : VehicleState) : list string := fst <$> initiator_auction_state_mapping_ v.

Theorem lost_bids_end_the_auction :
  let s1 := (bidding lost system).2 in
  let s2 := (bidding id s1).2 in
  let s4 := ((bidding id;; bidding id) s2).2 in
  (bidding lost system).1 = Ok tt /\ auctions_of (first_vehicle s1) = ["initiator"]%string /\
  (bidding id s1).1 = Ok tt /\ auctions_of (first_vehicle s2) = [] /\ auctions_of (second_vehicle s2) = [] /\
  ((bidding id;; bidding id) s2).1 = Ok tt /\ (bidding id s4).1 = Throw (runtime_error "No bid submissions.").
Proof. repeat split; vm_compute; reflexivity. Qed.

(** ** A winner that answers *)

Definition after_bids : System :=
  ((deliver_all id;; on_initiator (Initiator.bidProcessing "initiator" sample_fleet)) system).2.
Definition winning : WinnerNotification :=
  {| wn_task_uuid := "task1"; wn_initiator_connection := "initiator"; wn_latest_finish_time := d_zero |}.

Definition winner_state : AuctionParticipantState StnInsertionPoint :=
  match map_find "initiator" (initiator_auction_state_mapping_ (first_vehicle after_bids)) with
  | Some state => state
  | None => {| task_state_mapping := []; previously_submitted := EmptyString |}
  end.
Definition winner_task_state : AuctionParticipantTaskState StnInsertionPoint :=
  match map_find "task1" (task_state_mapping winner_state) with Some t => t | None => new_task_state far_away end.

(** ** A winner that has started a task since its bid *)

(** The first vehicle has two tasks, bids for a third, and starts its next task before it learns that it won. *)
Definition busy_system : System :=
  (on_first (on_management (StnTasks.addTask (sample_task "first" (point 0 0) (point 1 1)) None;;
     StnTasks.addTask (sample_task "second" (point 1 1) (point 2 2)) None)) system).2.
Definition started_since : System :=
  ((deliver_all id;; on_initiator (Initiator.bidProcessing "initiator" sample_fleet);;
    on_first (on_management StnTasks.setNextTask)) busy_system).2.

(** Its insertion point is next to a task that has left the ordering: the question whether it still can do the task is an
    exception, which leaves the handler, and the initiator gets no answer. *)
Theorem stale_bid_is_not_answered :
  tasks_of (first_vehicle busy_system) = ["first"; "second"]%string /\
  tasks_of (first_vehicle started_since) = ["second"]%string /\
  (process_WinnerNotification "amr1" winning (first_vehicle started_since)).1 =
    Throw (invalid_argument "Bound cannot be added for non-existent vertices") /\
  participant_sent_ (process_WinnerNotification "amr1" winning (first_vehicle started_since)).2 = [].
Proof. repeat split; vm_compute; reflexivity. Qed.


(** In this run the vehicle accepts. *)
Example winner_accepts :
  (still_acceptable winner_task_state (task_management_ (first_vehicle after_bids))).1 = Ok true.
Proof. vm_compute. reflexivity. Qed.
