(* ===== verification/Asset.v ===== *)
(** * What a vehicle does with an order

    Model of [cpps/amr/physical]: the mobility model ([amr_mobility_model_ns3.cpp]), which goes
    through the phases of a movement, and [amr_physical_asset.cpp], the state machine of an order.
    What the simulator is asked to run later is kept with an id, and so is what is sent to the
    logical agent. The time of the simulator, the equality of its vectors and [std::atan2] are
    parameters. *)

From Stdlib Require Import SpecFloat.
From S2P Require Import Prelude TreeMapper RouteCalculation MaterialFlow Metrics Mobility.

Class AssetEnvironment := {
  v_eq : Vector2D -> Vector2D -> bool;
  atan2 : double -> double -> double;
}.

(** ** Messages *)

Inductive AmrState := kAmrIdle | kAmrWorking | kAmrCharging | kAmrError.

Record AmrStatusUpdate := { su_position : Position; su_state : AmrState }.
Record AmrOrderUpdate := { ou_state : OrderStates; ou_position : Position }.
Record AmrOrderInfo := { oi_functionalities : list Functionality; oi_ability_requirement : AmrStaticAbility }.

Inductive AmrMessage :=
| amr_description (d : AmrDescription)
| amr_status_update (u : AmrStatusUpdate)
| amr_order_update (u : AmrOrderUpdate)
| amr_order_info (i : AmrOrderInfo)
| amr_topology (t : Topology).

(** ** The asset *)

(** The events of the state machine. *)
Inductive OrderEvent := ReceivedOrder | ReachedTarget | LoadedPayload | UnloadedPayload.

#[export] Instance OrderStates_eq_dec : EqDecision OrderStates.
Proof. solve_decision. Defined.
#[export] Instance OrderEvent_eq_dec : EqDecision OrderEvent.
Proof. solve_decision. Defined.

(** What is scheduled: [startNextPhase], [updateFunctionality], a [handleSkip] and the status updates. *)
Inductive AssetEvent :=
| StartNextPhase
| UpdateFunctionality (f : Functionality)
| HandleSkip (e : OrderEvent)
| ScheduleVehicleStatusUpdate.

Record Scheduled := { s_id : nat; s_delay : Duration; s_event : AssetEvent }.

Record AmrMobilityModelNs3 := { phases_ : list AmrMobilityStatus; current_functionality_ : Functionality }.

Record AmrPhysicalAsset := {
  m_state : OrderStates;
  mobility_model : AmrMobilityModelNs3;
  asset_description_ : AmrDescription;
  asset_topology_ : Topology;
  functionality_queue_ : list Functionality;
  last_sent_position_ : Position;
  amr_state_ : AmrState;
  next_update_event_ : option nat;
  scheduled_events : list Scheduled;
  next_event_id : nat;
  asset_sent : list AmrMessage;
}.

Module Asset.
Section Asset.
Context `{Ns3Vector, AssetEnvironment}.
Abbreviation A := AmrPhysicalAsset.

Definition set_state (st : OrderStates) (s : A) : A :=
  {| m_state := st; mobility_model := mobility_model s; asset_description_ := asset_description_ s;
     asset_topology_ := asset_topology_ s; functionality_queue_ := functionality_queue_ s;
     last_sent_position_ := last_sent_position_ s; amr_state_ := amr_state_ s; next_update_event_ := next_update_event_ s;
     scheduled_events := scheduled_events s; next_event_id := next_event_id s; asset_sent := asset_sent s |}.
Definition set_mobility (m : AmrMobilityModelNs3) (s : A) : A :=
  {| m_state := m_state s; mobility_model := m; asset_description_ := asset_description_ s;
     asset_topology_ := asset_topology_ s; functionality_queue_ := functionality_queue_ s;
     last_sent_position_ := last_sent_position_ s; amr_state_ := amr_state_ s; next_update_event_ := next_update_event_ s;
     scheduled_events := scheduled_events s; next_event_id := next_event_id s; asset_sent := asset_sent s |}.
Definition set_topology (t : Topology) (s : A) : A :=
  {| m_state := m_state s; mobility_model := mobility_model s; asset_description_ := asset_description_ s;
     asset_topology_ := t; functionality_queue_ := functionality_queue_ s;
     last_sent_position_ := last_sent_position_ s; amr_state_ := amr_state_ s; next_update_event_ := next_update_event_ s;
     scheduled_events := scheduled_events s; next_event_id := next_event_id s; asset_sent := asset_sent s |}.
Definition set_queue (q : list Functionality) (s : A) : A :=
  {| m_state := m_state s; mobility_model := mobility_model s; asset_description_ := asset_description_ s;
     asset_topology_ := asset_topology_ s; functionality_queue_ := q;
     last_sent_position_ := last_sent_position_ s; amr_state_ := amr_state_ s; next_update_event_ := next_update_event_ s;
     scheduled_events := scheduled_events s; next_event_id := next_event_id s; asset_sent := asset_sent s |}.
Definition set_last_sent (p : Position) (s : A) : A :=
  {| m_state := m_state s; mobility_model := mobility_model s; asset_description_ := asset_description_ s;
     asset_topology_ := asset_topology_ s; functionality_queue_ := functionality_queue_ s;
     last_sent_position_ := p; amr_state_ := amr_state_ s; next_update_event_ := next_update_event_ s;
     scheduled_events := scheduled_events s; next_event_id := next_event_id s; asset_sent := asset_sent s |}.
Definition set_amr_state (st : AmrState) (s : A) : A :=
  {| m_state := m_state s; mobility_model := mobility_model s; asset_description_ := asset_description_ s;
     asset_topology_ := asset_topology_ s; functionality_queue_ := functionality_queue_ s;
     last_sent_position_ := last_sent_position_ s; amr_state_ := st; next_update_event_ := next_update_event_ s;
     scheduled_events := scheduled_events s; next_event_id := next_event_id s; asset_sent := asset_sent s |}.
Definition set_update_event (id : option nat) (s : A) : A :=
  {| m_state := m_state s; mobility_model := mobility_model s; asset_description_ := asset_description_ s;
     asset_topology_ := asset_topology_ s; functionality_queue_ := functionality_queue_ s;
     last_sent_position_ := last_sent_position_ s; amr_state_ := amr_state_ s; next_update_event_ := id;
     scheduled_events := scheduled_events s; next_event_id := next_event_id s; asset_sent := asset_sent s |}.
Definition set_events (l : list Scheduled) (s : A) : A :=
  {| m_state := m_state s; mobility_model := mobility_model s; asset_description_ := asset_description_ s;
     asset_topology_ := asset_topology_ s; functionality_queue_ := functionality_queue_ s;
     last_sent_position_ := last_sent_position_ s; amr_state_ := amr_state_ s; next_update_event_ := next_update_event_ s;
     scheduled_events := l; next_event_id := next_event_id s; asset_sent := asset_sent s |}.
Definition send (m : AmrMessage) : M A unit :=
  modify (fun s => {| m_state := m_state s; mobility_model := mobility_model s; asset_description_ := asset_description_ s;
    asset_topology_ := asset_topology_ s; functionality_queue_ := functionality_queue_ s;
    last_sent_position_ := last_sent_position_ s; amr_state_ := amr_state_ s; next_update_event_ := next_update_event_ s;
    scheduled_events := scheduled_events s; next_event_id := next_event_id s; asset_sent := asset_sent s ++ [m] |}).

(** [Simulator::Schedule]; the id of the event is new. *)
Definition schedule (delay : Duration) (e : AssetEvent) : M A nat := fun s =>
  (Ok (next_event_id s),
   {| m_state := m_state s; mobility_model := mobility_model s; asset_description_ := asset_description_ s;
      asset_topology_ := asset_topology_ s; functionality_queue_ := functionality_queue_ s;
      last_sent_position_ := last_sent_position_ s; amr_state_ := amr_state_ s; next_update_event_ := next_update_event_ s;
      scheduled_events := scheduled_events s ++ [{| s_id := next_event_id s; s_delay := delay; s_event := e |}];
      next_event_id := Datatypes.S (next_event_id s); asset_sent := asset_sent s |}).

(** [Simulator::Cancel]; no event has no id. *)
Definition cancel (id : option nat) : M A unit :=
  match id with
  | Some i => modify (fun s => set_events (List.filter (fun e => negb (Nat.eqb (s_id e) i)) (scheduled_events s)) s)
  | None => mret tt
  end.

(** *** [AmrMobilityModelNs3] *)

(** [phases_.emplace_back()]: a default status *)
Definition default_status : AmrMobilityStatus :=
  {| ms_state := kIdle_; ms_velocity := v_default; ms_position := v_default; ms_acceleration := v_default; ms_timestamp := d_zero |}.
Definition new_mobility_model : AmrMobilityModelNs3 :=
  {| phases_ := [default_status]; current_functionality_ := NoFunctionality |}.

Section Now.
Variable now : Duration.

Definition getStatus (m : AmrMobilityModelNs3) : outcome AmrMobilityStatus :=
  phase ← vec_at (phases_ m) 0; Mobility.calculateMobilityStatus phase now.
Definition mobility_getPosition (m : AmrMobilityModelNs3) : outcome Position := st ← getStatus m; mret (ms_position st).
Definition mobility_getVelocity (m : AmrMobilityModelNs3) : outcome Vector2D := st ← getStatus m; mret (ms_velocity st).
Definition mobility_getAcceleration (m : AmrMobilityModelNs3) : outcome Vector2D := st ← getStatus m; mret (ms_acceleration st).
Definition mobility_getPose (m : AmrMobilityModelNs3) : outcome Pose :=
  st ← getStatus m;
  let v := ms_velocity st in
  mret {| position := ms_position st; orientation := atan2 (x v) (SFopp (y v)) |}.

Definition DoSetPosition (p : Position) (m : AmrMobilityModelNs3) : outcome AmrMobilityModelNs3 :=
  match phases_ m with
  | [] => Undefined
  | front :: rest =>
      mret (match ms_state front with
            | kIdle_ => {| phases_ := Mobility.status kIdle_ v_zero p v_zero now :: rest;
                           current_functionality_ := current_functionality_ m |}
            | _ => m
            end)
  end.

(** [notifyDone_], the callback of [executeFrontFunctionality] *)
Definition notifyDone (f : Functionality) : M A unit := schedule d_zero (UpdateFunctionality f);; mret tt.

Definition startNextPhase : M A unit :=
  s ← get;
  match phases_ (mobility_model s) with
  | [] => lift Undefined
  | _ :: rest =>
      let f := current_functionality_ (mobility_model s) in
      modify (set_mobility {| phases_ := rest; current_functionality_ := f |});;
      front ← lift (vec_at rest 0);
      match ms_state front with
      | kIdle_ => notifyDone f
      | _ =>
          match rest with
          | _ :: next :: _ => schedule (d_sub (ms_timestamp next) now) StartNextPhase;; mret tt
          | _ => throw (out_of_range "deque::_M_range_check")
          end
      end
  end.

(** [phases_.at(1)] throws if there is no second phase. *)
Definition execute_functionality (f : Functionality) : M A unit :=
  s ← get;
  let m := mobility_model s in
  let m := match phases_ m with
           | [] => {| phases_ := [default_status]; current_functionality_ := current_functionality_ m |}
           | _ => m
           end in
  modify (set_mobility m);;
  pose ← lift (mobility_getPose m);
  new_phases ← lift (Mobility.calculatePhases now pose f (asset_description_ s) (asset_topology_ s));
  modify (set_mobility {| phases_ := phases_ m ++ new_phases; current_functionality_ := f |});;
  startNextPhase.

(** *** Messages to the logical agent *)

Definition getPosition : M A Position := s ← get; lift (mobility_getPosition (mobility_model s)).

Definition sendVehicleStatusUpdateNs3 (force : bool) : M A unit :=
  position ← getPosition;
  s ← get;
  if negb force && v_eq (last_sent_position_ s) position then mret tt
  else
    modify (set_last_sent position);;
    s ← get;
    send (amr_status_update {| su_position := position; su_state := amr_state_ s |}).

Definition sendOrderUpdateNs3 : M A unit :=
  s ← get;
  position ← getPosition;
  send (amr_order_update {| ou_state := m_state s; ou_position := position |}).

Definition sendDescriptionNs3 : M A unit := s ← get; send (amr_description (asset_description_ s)).

(** [1.0 / kUpdateFrequencyHz] *)
Definition kUpdateFrequencyHz : Z := 10.
Definition scheduleVehicleStatusUpdateNs3 : M A unit :=
  sendVehicleStatusUpdateNs3 false;;
  id ← schedule (d_div (d_of_Z 1) (d_of_Z kUpdateFrequencyHz)) ScheduleVehicleStatusUpdate;
  modify (set_update_event (Some id)).

Definition startVehicleStatusUpdates : M A unit := scheduleVehicleStatusUpdateNs3.
Definition stopVehicleStatusUpdatesNs3 : M A unit := s ← get; cancel (next_update_event_ s).

(** [Connect] succeeds or not. *)
Definition connect (connected : bool) : M A unit :=
  throw_if (negb connected) (runtime_error "failed");;
  sendDescriptionNs3;;
  sendVehicleStatusUpdateNs3 true.

(** *** The state machine *)

Definition holdsMoveType (f : Functionality) : bool :=
  match f with MoveTo _ | Navigate _ => true | _ => false end.
Definition holdsLoad (f : Functionality) : bool := match f with Load _ => true | _ => false end.
Definition holdsUnload (f : Functionality) : bool := match f with Unload _ => true | _ => false end.

Definition front_functionality : M A Functionality :=
  s ← get; lift (vec_at (functionality_queue_ s) 0).

Definition executeFrontFunctionality : M A unit := f ← front_functionality; execute_functionality f.

(** [functionality_queue_.at(1)] throws if there is no second one. *)
Definition second_holds (p : Functionality -> bool) (s : A) : outcome bool :=
  match functionality_queue_ s with
  | [] => Ok false
  | f :: rest =>
      if holdsMoveType f then
        match rest with
        | next :: _ => Ok (p next)
        | [] => Throw (out_of_range "deque::_M_range_check")
        end
      else Ok false
  end.
Definition front_holds (p : Functionality -> bool) (s : A) : outcome bool :=
  Ok (match functionality_queue_ s with f :: _ => p f | [] => false end).

Definition isMoveToLoad : A -> outcome bool := second_holds holdsLoad.
Definition isMoveToUnload : A -> outcome bool := second_holds holdsUnload.
Definition isMove (s : A) : outcome bool :=
  match functionality_queue_ s with
  | [] => Ok false
  | f :: rest => Ok (holdsMoveType f && match rest with [] => true | next :: _ => holdsMoveType next end)
  end.
Definition isLoad : A -> outcome bool := front_holds holdsLoad.
Definition isUnload : A -> outcome bool := front_holds holdsUnload.
Definition isFinish (s : A) : outcome bool := Ok (match functionality_queue_ s with [] => true | _ => false end).
Definition always (s : A) : outcome bool := Ok true.

Definition skip (e : OrderEvent) : M A unit := schedule d_zero (HandleSkip e);; mret tt.

Definition execute (e : OrderEvent) : M A unit :=
  modify (set_amr_state kAmrWorking);;
  executeFrontFunctionality;;
  match e with ReceivedOrder => startVehicleStatusUpdates | _ => mret tt end.

Definition finish (e : OrderEvent) : M A unit :=
  match e with
  | ReceivedOrder => throw (invalid_argument "empty task")
  | _ =>
      stopVehicleStatusUpdatesNs3;;
      modify (set_amr_state kAmrIdle);;
      sendVehicleStatusUpdateNs3 true
  end.

Record Row := {
  r_start : OrderStates;
  r_event : OrderEvent;
  r_target : OrderStates;
  r_action : OrderEvent -> M A unit;
  r_guard : A -> outcome bool;
}.

Definition transition_table : list Row := [
  Build_Row kFinished_ ReceivedOrder kStarted skip always;
  Build_Row kStarted ReceivedOrder kGoToPickUpLocation execute isMoveToLoad;
  Build_Row kGoToPickUpLocation ReachedTarget kReachedPickUpLocation skip always;
  Build_Row kReachedPickUpLocation ReachedTarget MaterialFlow.kLoad execute isLoad;
  Build_Row kGoToDeliveryLocation ReachedTarget kReachedDeliveryLocation skip always;
  Build_Row kReachedDeliveryLocation ReachedTarget MaterialFlow.kUnload execute isUnload;
  Build_Row MaterialFlow.kLoad LoadedPayload kLoaded skip always;
  Build_Row kLoaded LoadedPayload kGoToPickUpLocation execute isMoveToLoad;
  Build_Row kLoaded LoadedPayload kGoToDeliveryLocation execute isMoveToUnload;
  Build_Row kLoaded LoadedPayload kFinished_ finish isFinish;
  Build_Row MaterialFlow.kUnload UnloadedPayload kUnloaded skip always;
  Build_Row kUnloaded UnloadedPayload kGoToPickUpLocation execute isMoveToLoad;
  Build_Row kUnloaded UnloadedPayload kFinished_ finish isFinish
].

(** fsmlite: the first row whose states, event and guard fit fires; without one the state stays. The state changes after
    the action. *)
Fixpoint handle_event (rows : list Row) (e : OrderEvent) (state : OrderStates) : M A OrderStates :=
  match rows with
  | [] => mret state
  | r :: rest =>
      s ← get;
      fits ← lift (if bool_decide (r_event r = e /\ r_start r = state) then r_guard r s else Ok false);
      if (fits : bool) then r_action r e;; mret (r_target r) else handle_event rest e state
  end.

Definition process_event (e : OrderEvent) : M A unit :=
  s ← get;
  state ← handle_event transition_table e (m_state s);
  modify (set_state state).

Definition handleSkip (e : OrderEvent) : M A unit := process_event e;; sendOrderUpdateNs3.

(** [functionality.index()] *)
Definition index (f : Functionality) : nat :=
  match f with NoFunctionality => 0 | Load _ => 1 | MoveTo _ => 2 | Navigate _ => 3 | Unload _ => 4 end.

Definition updateFunctionality (f : Functionality) : M A unit :=
  front ← front_functionality;
  throw_if (negb (Nat.eqb (index f) (index front))) (runtime_error "functionalities don't match");;
  modify (fun s => set_queue (drop 1 (functionality_queue_ s)) s);;
  (if holdsMoveType f then process_event ReachedTarget
   else if holdsLoad f then process_event LoadedPayload
   else if holdsUnload f then process_event UnloadedPayload
   else mret tt);;
  sendOrderUpdateNs3.

Definition processMessageOrderInfo (i : AmrOrderInfo) : M A unit :=
  s ← get;
  throw_if (negb (match functionality_queue_ s with [] => true | _ => false end))
    (runtime_error "Should not get new task before last task is finished");;
  modify (fun s => set_queue (functionality_queue_ s ++ oi_functionalities i) s);;
  process_event ReceivedOrder;;
  sendOrderUpdateNs3.

Definition readSocket (messages : list AmrMessage) : M A unit :=
  for_each messages (fun m =>
    match m with
    | amr_topology t => modify (set_topology t)
    | amr_order_info i => processMessageOrderInfo i
    | _ => throw (runtime_error "invalid packet type for physical amr")
    end).

(** *** What the simulator runs *)

Definition run_event (e : AssetEvent) : M A unit :=
  match e with
  | StartNextPhase => startNextPhase
  | UpdateFunctionality f => updateFunctionality f
  | HandleSkip e => handleSkip e
  | ScheduleVehicleStatusUpdate => scheduleVehicleStatusUpdateNs3
  end.
End Now.

(** The constructors *)
Definition construct (description : AmrDescription) (topology : Topology) : A := {|
  m_state := kFinished_; mobility_model := new_mobility_model; asset_description_ := description; asset_topology_ := topology;
  functionality_queue_ := []; last_sent_position_ := v_default; amr_state_ := kAmrIdle; next_update_event_ := None;
  scheduled_events := []; next_event_id := 0; asset_sent := [] |}.
End Asset.
End Asset.
