(* ===== verification/AssetProperties.v ===== *)
(** * An order is carried out

    Whatever the simulator runs in between, a vehicle that gets transport orders reports the
    states of picking up and delivering in their order, at the places of the orders, and is
    then free for the next order; it needs a bounded number of events for that. Other orders
    block it. *)

From Stdlib Require Import SpecFloat.
From S2P Require Import Prelude TreeMapper RouteCalculation MaterialFlow Metrics Mobility MobilityProperties Asset.

Section AssetProperties.
Context `{Ns3Vector, AssetEnvironment}.
Abbreviation A := AmrPhysicalAsset.

(** ** What a vehicle is to report *)

(** A state, and the position where it is reported if that is known. *)
Abbreviation Report := (OrderStates * option Position)%type.

Definition pickup_reports (p : Position) : list Report :=
  [(kGoToPickUpLocation, None); (kReachedPickUpLocation, Some p); (MaterialFlow.kLoad, Some p); (kLoaded, Some p)].
Definition delivery_reports (p : Position) : list Report :=
  [(kGoToDeliveryLocation, None); (kReachedDeliveryLocation, Some p); (MaterialFlow.kUnload, Some p); (kUnloaded, Some p)].

Definition delivery_of (o : TransportOrder) : Position := Mapping.position_of_step (delivery_transport_order_step o).
Definition order_reports (o : TransportOrder) : list Report :=
  (pickup_transport_order_steps o ≫= fun step => pickup_reports (Mapping.position_of_step step)) ++
  delivery_reports (delivery_of o).
Definition expected_reports (orders : list TransportOrder) : list Report :=
  (kStarted, None) :: (orders ≫= order_reports) ++ [(kFinished_, delivery_of <$> last orders)].

(** What is reported for functionalities that are left, by a vehicle that is loaded or not, and where it is. *)
Fixpoint reports (loaded : bool) (here : Position) (q : list Functionality) : option (list Report) :=
  match q with
  | [] => Some [(kFinished_, Some here)]
  | MoveTo p :: Load l :: rest =>
      R ← reports true l rest;
      Some ((kGoToPickUpLocation, None) :: (kReachedPickUpLocation, Some p) :: (MaterialFlow.kLoad, Some l) :: (kLoaded, Some l) :: R)
  | MoveTo p :: Unload l :: rest =>
      if loaded then
        R ← reports false l rest;
        Some ((kGoToDeliveryLocation, None) :: (kReachedDeliveryLocation, Some p) :: (MaterialFlow.kUnload, Some l) ::
              (kUnloaded, Some l) :: R)
      else None
  | _ => None
  end.

Definition matches (u : AmrOrderUpdate) (r : Report) : Prop :=
  ou_state u = r.1 /\ match r.2 with Some p => ou_position u = p | None => True end.

Definition order_updates (s : A) : list AmrOrderUpdate :=
  omap (fun m => match m with amr_order_update u => Some u | _ => None end) (asset_sent s).

(** ** The functionalities of transport orders *)

Definition functionalities_of (o : TransportOrder) : list Functionality :=
  (pickup_transport_order_steps o ≫= fun step => [MoveTo (Mapping.position_of_step step); Load (Mapping.position_of_step step)]) ++
  [MoveTo (delivery_of o); Unload (delivery_of o)].

Lemma bind_run {S X Y} (m : M S X) (k : X -> M S Y) s a s1 : m s = (Ok a, s1) -> (m ≫= k) s = k a s1.
Proof. unfold mbind, M_bind. by intros ->. Qed.

Lemma pickups_mapped steps fs last :
  for_each steps (fun step =>
    Mapping.emplace_back (MoveTo (Mapping.position_of_step step));; Mapping.emplace_back (Load (Mapping.position_of_step step)))
    (fs, last) =
  (Ok tt, (fs ++ (steps ≫= fun step => [MoveTo (Mapping.position_of_step step); Load (Mapping.position_of_step step)]), last)).
Proof.
  revert fs. induction steps as [|step steps IH]; intros fs; cbn [for_each]; [cbn; by rewrite app_nil_r|].
  rewrite (bind_run _ _ _ tt (fs ++ [MoveTo (Mapping.position_of_step step); Load (Mapping.position_of_step step)], last)).
  - rewrite IH. cbn [mbind list_bind]. by rewrite <- app_assoc.
  - unfold Mapping.emplace_back, mbind, M_bind, modify. cbn. by rewrite <- app_assoc.
Qed.

Lemma order_mapped o fs last :
  Mapping.handleTransportOrder o (fs, last) = (Ok tt, (fs ++ functionalities_of o, Some (delivery_of o))).
Proof.
  unfold Mapping.handleTransportOrder. rewrite (bind_run _ _ _ _ _ (pickups_mapped _ _ _)).
  unfold Mapping.emplace_back, Mapping.set_last_position. rewrite !bind_modify. unfold modify. cbn [fst snd].
  unfold functionalities_of. by rewrite <- !app_assoc.
Qed.

Lemma orders_mapped orders fs last :
  exists last', for_each (transport_order <$> orders) Mapping.handle_order (fs, last) =
    (Ok tt, (fs ++ (orders ≫= functionalities_of), last')).
Proof.
  revert fs last. induction orders as [|o orders IH]; intros fs last; [exists last; cbn; by rewrite app_nil_r|].
  cbn [fmap list_fmap for_each Mapping.handle_order]. rewrite (bind_run _ _ _ _ _ (order_mapped _ _ _)).
  destruct (IH (fs ++ functionalities_of o) (Some (delivery_of o))) as [last' ->]. exists last'. cbn. by rewrite <- app_assoc.
Qed.

Lemma pickups_reported steps rest loaded here :
  reports loaded here
    ((steps ≫= fun step => [MoveTo (Mapping.position_of_step step); Load (Mapping.position_of_step step)]) ++ rest) =
  R ← reports (loaded || negb (bool_decide (steps = [] :> list OrderStep)))
        (default here (Mapping.position_of_step <$> last steps)) rest;
  Some ((steps ≫= fun step => pickup_reports (Mapping.position_of_step step)) ++ R).
Proof.
  revert loaded here. induction steps as [|step steps IH]; intros loaded here.
  - rewrite bool_decide_true by done. cbn. rewrite orb_false_r. by destruct (reports loaded here rest).
  - rewrite (bool_decide_false (step :: steps = [])) by done. cbn [mbind list_bind app reports].
    rewrite IH. rewrite orb_true_l, orb_true_r.
    assert (default (Mapping.position_of_step step) (Mapping.position_of_step <$> last steps) =
      default here (Mapping.position_of_step <$> last (step :: steps))) as ->.
    { rewrite last_cons. by destruct (last steps). }
    by destruct (reports true _ rest).
Qed.

Lemma order_reported o rest loaded here :
  pickup_transport_order_steps o <> [] ->
  reports loaded here (functionalities_of o ++ rest) =
  R ← reports false (delivery_of o) rest; Some (order_reports o ++ R).
Proof.
  intros Hne. unfold functionalities_of. rewrite <- app_assoc, pickups_reported, bool_decide_false by done.
  rewrite orb_true_r. cbn [negb app reports mbind option_bind]. destruct (reports false (delivery_of o) rest); [|done].
  cbn. unfold order_reports. by rewrite <- app_assoc.
Qed.

Lemma orders_reported orders loaded here :
  Forall (fun o => pickup_transport_order_steps o <> []) orders ->
  reports loaded here (orders ≫= functionalities_of) =
  Some ((orders ≫= order_reports) ++ [(kFinished_, Some (default here (delivery_of <$> last orders)))]).
Proof.
  intros Ho. revert loaded here. induction Ho as [|o orders Hne Ho IH]; intros loaded here; [done|].
  cbn [mbind list_bind]. rewrite order_reported, IH by done. cbn [mbind option_bind]. rewrite <- app_assoc. do 4 f_equal.
  rewrite last_cons. by destruct (last orders).
Qed.

(** ** Phases of a movement *)

Definition destination (f : Functionality) : Position :=
  match f with Load p | MoveTo p | Unload p => p | _ => v_default end.
Definition simple (f : Functionality) : Prop := match f with Load _ | MoveTo _ | Unload _ => True | _ => False end.
Definition handling (f : Functionality) : Prop := match f with Load _ | Unload _ => True | _ => False end.

(** The phases end with the vehicle idle at the destination, and not before; while it handles something it stands there. *)
Definition going (f : Functionality) (moving phases : list AmrMobilityStatus) : Prop :=
  (exists t, phases = moving ++ [Mobility.status kIdle_ v_zero (destination f) v_zero t]) /\
  Forall (fun st => ms_state st <> kIdle_) moving /\
  (handling f -> Forall (fun st => ms_state st = kStationary /\ ms_position st = destination f) moving).

Definition idle_at (p : Position) (m : AmrMobilityModelNs3) : Prop :=
  exists st, phases_ m = [st] /\ ms_state st = kIdle_ /\ ms_position st = p.

Lemma zero_sqrt_div a : d_gt (d_sqrt (d_div (d_mul d_two d_zero) a)) d_zero = false.
Proof. destruct a as [[]|[]| |[] m e]; vm_compute; reflexivity. Qed.

Lemma no_phases_without_distance description :
  let durations := Mobility.calculatePhaseDurations Mobility.no_distances description in
  d_gt (Mobility.p_acc durations) d_zero = false /\ d_gt (Mobility.p_const durations) d_zero = false /\
  d_gt (Mobility.p_dec durations) d_zero = false.
Proof. cbn -[d_gt d_sqrt d_div d_mul d_two]. split; [|split]; [apply zero_sqrt_div|reflexivity|apply zero_sqrt_div]. Qed.

Lemma at_most_one st (b : bool) l (P Q : Prop) :
  (if b then states l = [st] /\ P else l = [] /\ Q) -> st <> kIdle_ ->
  Forall (fun x => ms_state x <> kIdle_) l /\ (length l <= 1)%nat /\ (b = false -> l = []).
Proof.
  intros H' Hst. destruct b; destruct H' as [H' _]; [|subst; split_and!; [constructor|cbn; lia|done]].
  destruct l as [|y [|]]; try discriminate H'. injection H' as Hy. split_and!; [|cbn; lia|done].
  constructor; [by rewrite Hy|constructor].
Qed.

Lemma straight_ends t0 from to distances stationary description l :
  Mobility.straightPhases t0 from to distances stationary description = Ok l ->
  exists moving t, l = moving ++ [Mobility.status kIdle_ v_zero to v_zero t] /\
    Forall (fun st => ms_state st <> kIdle_) moving /\ (length moving <= 4)%nat /\
    (distances = Mobility.no_distances -> Forall (fun st => ms_state st = kStationary /\ ms_position st = to) moving).
Proof.
  unfold Mobility.straightPhases.
  set (durations := Mobility.calculatePhaseDurations distances description).
  destruct (Mobility.accelerate _ _ _ _ _) as [[l1 s1]| |] eqn:E1; [|done|done]. cbn [mbind outcome_bind fst snd].
  destruct (Mobility.travel _ _ _ _ _) as [[l2 s2]| |] eqn:E2; [|done|done]. cbn [mbind outcome_bind fst snd].
  destruct (Mobility.decelerate _ _ _ _ _) as [[l3 s3]| |] eqn:E3; [|done|done]. cbn [mbind outcome_bind fst snd].
  intros [= <-]. set (stat := Mobility.stand to stationary s3).
  exists (l1 ++ l2 ++ l3 ++ stat.1), (Mobility.next_timestamp stat.2). split; [by rewrite <- !app_assoc|].
  apply accelerate_phase in E1. destruct (at_most_one kAccelerating _ _ _ _ E1) as (A1 & L1 & Z1); [done|].
  apply travel_phase in E2. destruct (at_most_one kConstSpeedTraveling _ _ _ _ E2) as (A2 & L2 & Z2); [done|].
  apply decelerate_phase in E3. destruct (at_most_one kDecelerating _ _ _ _ E3) as (A3 & L3 & Z3); [done|].
  assert (H4 : Forall (fun x => ms_state x = kStationary /\ ms_position x = to) stat.1 /\ (length stat.1 <= 1)%nat).
  { unfold stat, Mobility.stand. destruct (d_gt stationary d_zero); cbn; [|by split; [constructor|lia]]. split; [by repeat constructor|lia]. }
  destruct H4 as (A4 & L4).
  split_and!.
  - rewrite !Forall_app. split_and!; [done..|]. eapply Forall_impl; [exact A4|]. intros x [-> _]. done.
  - rewrite !length_app. lia.
  - intros ->. destruct (no_phases_without_distance description) as (Z1' & Z2' & Z3').
    by rewrite Z1, Z2, Z3.
Qed.

Lemma phases_going now pose f description topology l :
  simple f -> Mobility.calculatePhases now pose f description topology = Ok l ->
  exists moving, going f moving l /\ (length moving <= 4)%nat.
Proof.
  intros Hf. unfold Mobility.calculatePhases. destruct (Mobility.sanityCheck _ _ _ _) as [[]| |]; [|done|done]. cbn [mbind outcome_bind].
  unfold going. destruct f; try done; intros (moving & t & -> & Hi & Hl & Hs)%straight_ends; exists moving;
    (split; [split; [by exists t|split; [done|]]|done]); cbn [handling destination]; intros Hh; try done; by apply Hs.
Qed.

(** ** The machine between two events *)

(** What is scheduled besides the updates of the position. *)
Definition is_work (e : AssetEvent) : bool := match e with ScheduleVehicleStatusUpdate => false | _ => true end.
Definition pending (s : A) : list AssetEvent := List.filter is_work (s_event <$> scheduled_events s).

(** Ids are given once, and the one that is kept is that of an update. *)
Definition ids_ok (s : A) : Prop :=
  Forall (fun e => (s_id e < next_event_id s)%nat) (scheduled_events s) /\
  forall i, next_update_event_ s = Some i ->
    (i < next_event_id s)%nat /\ forall e, e ∈ scheduled_events s -> s_id e = i -> is_work (s_event e) = false.

(** What the position updates leave alone. *)
Record core := { c_state : OrderStates; c_mobility : AmrMobilityModelNs3; c_description : AmrDescription;
  c_topology : Topology; c_queue : list Functionality; c_pending : list AssetEvent; c_updates : list AmrOrderUpdate }.
Definition core_of (s : A) : core := {|
  c_state := m_state s; c_mobility := mobility_model s; c_description := asset_description_ s; c_topology := asset_topology_ s;
  c_queue := functionality_queue_ s; c_pending := pending s; c_updates := order_updates s |}.

Lemma schedule_pending delay e s s' i :
  Asset.schedule delay e s = (Ok i, s') -> ids_ok s ->
  ids_ok s' /\ i = next_event_id s /\ next_update_event_ s' = next_update_event_ s /\
  pending s' = pending s ++ (if is_work e then [e] else []) /\
  (forall x, x ∈ scheduled_events s' -> s_id x = i -> s_event x = e) /\
  m_state s' = m_state s /\ mobility_model s' = mobility_model s /\ asset_description_ s' = asset_description_ s /\
  asset_topology_ s' = asset_topology_ s /\ functionality_queue_ s' = functionality_queue_ s /\
  order_updates s' = order_updates s /\ next_event_id s' = Datatypes.S (next_event_id s).
Proof.
  intros [= <- <-] [Hlt Hid]. split_and!; try done.
  - split; cbn.
    + apply Forall_app. split; [|repeat constructor; cbn; lia]. eapply Forall_impl; [exact Hlt|]. cbn. lia.
    + intros i Hi. destruct (Hid i Hi) as [Hi' Hw]. split; [lia|]. intros x [Hx| ->%list_elem_of_singleton]%elem_of_app Hxi; [by apply Hw|].
      cbn in Hxi. lia.
  - unfold pending. cbn. by rewrite fmap_app, List.filter_app.
  - cbn. intros x [Hx| ->%list_elem_of_singleton]%elem_of_app Hxi; [|done].
    rewrite Forall_forall in Hlt. apply Hlt in Hx. lia.
Qed.

(** Statements that only update positions. *)
Definition quiet {B} (m : M A B) : Prop := forall s r s', ids_ok s -> m s = (Ok r, s') -> ids_ok s' /\ core_of s' = core_of s.

Lemma quiet_bind {B C} (m : M A B) (k : B -> M A C) : quiet m -> (forall b, quiet (k b)) -> quiet (m ≫= k).
Proof.
  intros Hm Hk s r s' Hi (b & s1 & H1 & H2)%bind_Ok. destruct (Hm _ _ _ Hi H1) as [Hi1 E1].
  destruct (Hk _ _ _ _ Hi1 H2) as [Hi2 E2]. split; [done|]. congruence.
Qed.
Lemma quiet_get {C} (k : A -> M A C) : (forall b, quiet (k b)) -> quiet (s ← get; k s).
Proof. intros Hk s r s' Hi. rewrite bind_get. by apply Hk. Qed.
Lemma quiet_lift {B} (m : outcome B) : quiet (lift m).
Proof. intros s r s' Hi [_ ->]%lift_Ok. done. Qed.
Lemma quiet_ret {B} (b : B) : quiet (mret b).
Proof. intros s r s' Hi [_ ->]%ret_Ok. done. Qed.
Lemma quiet_modify f : (forall s, ids_ok s -> ids_ok (f s) /\ core_of (f s) = core_of s) -> quiet (modify f).
Proof. intros Hf s r s' Hi ->%modify_Ok. by apply Hf. Qed.

Lemma quiet_status force now : quiet (Asset.sendVehicleStatusUpdateNs3 now force).
Proof.
  unfold Asset.sendVehicleStatusUpdateNs3, Asset.getPosition. apply quiet_bind; [apply quiet_get; intros; apply quiet_lift|].
  intros p. apply quiet_get. intros s. destruct (_ && _); [apply quiet_ret|]. apply quiet_bind; [by apply quiet_modify|].
  intros _. apply quiet_get. intros s'. apply quiet_modify. intros s1 Hi. split; [exact Hi|].
  unfold core_of. f_equal. unfold order_updates. cbn. by rewrite omap_app, app_nil_r.
Qed.

Lemma quiet_schedule_status now : quiet (Asset.scheduleVehicleStatusUpdateNs3 now).
Proof.
  unfold Asset.scheduleVehicleStatusUpdateNs3. apply quiet_bind; [apply quiet_status|]. intros _ s r s' Hi (i & s1 & H1 & ->%modify_Ok)%bind_Ok.
  destruct (schedule_pending _ _ _ _ _ H1 Hi) as (Hi1 & -> & Hu & Hp & Hnew & Hst & Hm & Hd & Ht & Hq & Ho & Hn).
  cbn in Hp. rewrite app_nil_r in Hp. split.
  - destruct Hi1 as [Hlt Hid]. split; [exact Hlt|]. cbn. intros i [= <-]. split; [lia|]. intros e He Hei. by rewrite (Hnew e He Hei).
  - unfold core_of. cbn. rewrite Hst, Hm, Hd, Ht, Hq. unfold order_updates, pending in *. cbn in *. by rewrite Hp, Ho.
Qed.

Lemma quiet_stop : quiet Asset.stopVehicleStatusUpdatesNs3.
Proof.
  intros s r s' Hi. unfold Asset.stopVehicleStatusUpdatesNs3. rewrite bind_get. unfold Asset.cancel.
  destruct (next_update_event_ s) as [i|] eqn:E; [|by intros [_ ->]%ret_Ok]. intros ->%modify_Ok. destruct Hi as [Hlt Hid].
  destruct (Hid i E) as [_ Hw]. split.
  - split; cbn.
    + rewrite Forall_forall in *. intros e [He _]%list_elem_of_In%List.filter_In. apply Hlt. by apply list_elem_of_In.
    + intros j Hj. destruct (Hid j Hj) as [Hj1 Hj2]. split; [done|]. intros e [He _]%list_elem_of_In%List.filter_In. apply Hj2. by apply list_elem_of_In.
  - unfold core_of. cbn. f_equal. unfold pending. cbn. clear Hlt Hid E. induction (scheduled_events s) as [|e l IH]; [done|]. cbn.
    assert (Hl : forall e, e ∈ l -> s_id e = i -> is_work (s_event e) = false) by (intros x Hx; apply Hw; by right).
    destruct (Nat.eqb_spec (s_id e) i) as [Hei|Hei]; cbn.
    + rewrite (Hw e) by (done || by left). by apply IH.
    + destruct (is_work (s_event e)); [f_equal|]; by apply IH.
Qed.

(** ** Where in an order the vehicle is *)

(** What is next when the next state is to be entered. *)
Inductive expects : OrderStates -> OrderEvent -> Position -> list Functionality -> list Report -> Prop :=
| expects_started here q R : q <> [] -> reports false here q = Some R -> expects kStarted ReceivedOrder here q R
| expects_loaded here q R : reports true here q = Some R -> expects kLoaded LoadedPayload here q R
| expects_unloaded here q R : reports false here q = Some R -> expects kUnloaded UnloadedPayload here q R
| expects_load here l q R : reports true l q = Some R ->
    expects kReachedPickUpLocation ReachedTarget here (Load l :: q) ((MaterialFlow.kLoad, Some l) :: (kLoaded, Some l) :: R)
| expects_unload here l q R : reports false l q = Some R ->
    expects kReachedDeliveryLocation ReachedTarget here (Unload l :: q)
      ((MaterialFlow.kUnload, Some l) :: (kUnloaded, Some l) :: R).

(** What is next when a functionality is done. *)
Inductive works : OrderStates -> Functionality -> list Functionality -> list Report -> Prop :=
| works_to_pickup p l q R : reports true l q = Some R ->
    works kGoToPickUpLocation (MoveTo p) (Load l :: q)
      ((kReachedPickUpLocation, Some p) :: (MaterialFlow.kLoad, Some l) :: (kLoaded, Some l) :: R)
| works_load l q R : reports true l q = Some R -> works MaterialFlow.kLoad (Load l) q ((kLoaded, Some l) :: R)
| works_to_delivery p l q R : reports false l q = Some R ->
    works kGoToDeliveryLocation (MoveTo p) (Unload l :: q)
      ((kReachedDeliveryLocation, Some p) :: (MaterialFlow.kUnload, Some l) :: (kUnloaded, Some l) :: R)
| works_unload l q R : reports false l q = Some R -> works MaterialFlow.kUnload (Unload l) q ((kUnloaded, Some l) :: R).

(** A functionality is carried out: phases are left, or it is to be taken for done. *)
Inductive launched (f : Functionality) (c : core) : nat -> Prop :=
| launched_moving moving :
    c_pending c = [StartNextPhase] -> current_functionality_ (c_mobility c) = f -> moving <> [] ->
    going f moving (phases_ (c_mobility c)) -> launched f c (length moving)
| launched_done : c_pending c = [UpdateFunctionality f] -> idle_at (destination f) (c_mobility c) -> launched f c 0.

(** The reports to come, and a bound on the work. *)
Inductive stage (c : core) : list Report -> nat -> Prop :=
| stage_skip e here R :
    c_pending c = [HandleSkip e] -> idle_at here (c_mobility c) -> expects (c_state c) e here (c_queue c) R ->
    stage c R (6 * length R)
| stage_busy f q n R :
    c_queue c = f :: q -> launched f c n -> works (c_state c) f q R -> stage c R (6 * length R + n)
| stage_free here :
    c_pending c = [] -> c_state c = kFinished_ -> c_queue c = [] -> idle_at here (c_mobility c) -> stage c [] 0.

(** *** The position that is reported *)

Lemma status_position now st st' :
  Mobility.calculateMobilityStatus st now = Ok st' -> ms_state st = kIdle_ \/ ms_state st = kStationary ->
  ms_position st' = ms_position st.
Proof.
  unfold Mobility.calculateMobilityStatus, throw_when. destruct (d_lt _ _); [done|]. cbn. intros [= <-] [-> | ->]; done.
Qed.

Lemma idle_position now here m p : idle_at here m -> Asset.mobility_getPosition now m = Ok p -> p = here.
Proof.
  intros (st & Hp & Hi & <-). unfold Asset.mobility_getPosition, Asset.getStatus. rewrite Hp. cbn -[Mobility.calculateMobilityStatus].
  destruct (Mobility.calculateMobilityStatus st now) as [st'| |] eqn:E; [|done|done]. cbn. intros [= <-].
  eapply status_position; [exact E|by left].
Qed.

Lemma launched_position now f c n p :
  launched f c n -> handling f -> Asset.mobility_getPosition now (c_mobility c) = Ok p -> p = destination f.
Proof.
  intros [moving _ _ Hne ((t & Hp) & _ & Hs)|_ Hi] Hh; [|by apply idle_position].
  destruct moving as [|st moving]; [done|]. specialize (Hs Hh). apply Forall_cons in Hs as [[Hst <-] _].
  unfold Asset.mobility_getPosition, Asset.getStatus. rewrite Hp. cbn -[Mobility.calculateMobilityStatus].
  destruct (Mobility.calculateMobilityStatus st now) as [st'| |] eqn:E; [|done|done]. cbn. intros [= <-].
  eapply status_position; [exact E|by right].
Qed.

(** *** Statements that work *)

Definition set_work (m : AmrMobilityModelNs3) (l : list AssetEvent) (c : core) : core := {|
  c_state := c_state c; c_mobility := m; c_description := c_description c; c_topology := c_topology c; c_queue := c_queue c;
  c_pending := l; c_updates := c_updates c |}.

Lemma next_phase now f x moving s s' :
  ids_ok s -> pending s = [] -> current_functionality_ (mobility_model s) = f ->
  (exists later, phases_ (mobility_model s) = x :: later /\ going f moving later) ->
  Asset.startNextPhase now s = (Ok tt, s') ->
  ids_ok s' /\ launched f (core_of s') (length moving) /\
  exists m l, core_of s' = set_work m l (core_of s).
Proof.
  intros Hi Hp Hf (later & Hph & Hg). unfold Asset.startNextPhase. rewrite bind_get, Hph, bind_modify, Hf, bind_lift.
  set (s1 := Asset.set_mobility _ s). assert (Hi1 : ids_ok s1) by exact Hi. assert (Hp1 : pending s1 = []) by exact Hp.
  pose proof Hg as ((t & Hl) & Hidle & Hstat). destruct moving as [|y moving].
  - assert (Hv : vec_at later 0 = Ok (Mobility.status kIdle_ v_zero (destination f) v_zero t)) by by rewrite Hl.
    rewrite Hv. unfold Asset.notifyDone. intros (i & s2 & H2 & [_ ->]%ret_Ok)%bind_Ok.
    destruct (schedule_pending _ _ _ _ _ H2 Hi1) as (Hi2 & _ & _ & Hp2 & _ & Hst & Hm & Hd & Ht & Hq & Ho & _).
    rewrite Hp1 in Hp2. split; [done|]. split.
    + apply launched_done; cbn; [done|]. rewrite Hm. cbn. rewrite Hl. by eexists.
    + exists (mobility_model s2), (pending s2). unfold core_of, set_work. cbn. by rewrite Hst, Hd, Ht, Hq, Ho.
  - assert (Hv : vec_at later 0 = Ok y) by by rewrite Hl. rewrite Hv. apply Forall_cons in Hidle as [Hy _].
    assert (Hrun : forall s2, (match later with
        | _ :: next :: _ => Asset.schedule (d_sub (ms_timestamp next) now) StartNextPhase;; mret tt
        | _ => throw (out_of_range "deque::_M_range_check") end) s1 = (Ok tt, s2) ->
      ids_ok s2 /\ launched f (core_of s2) (length (y :: moving)) /\ exists m l, core_of s2 = set_work m l (core_of s)).
    { rewrite Hl. cbn [app]. intros s2 Hrun.
      assert (exists next, (Asset.schedule (d_sub (ms_timestamp next) now) StartNextPhase;; mret tt) s1 = (Ok tt, s2)) as
        (next & (i & s3 & H2 & [_ ->]%ret_Ok)%bind_Ok) by (destruct moving as [|z moving]; cbn [app] in Hrun; by eexists).
      destruct (schedule_pending _ _ _ _ _ H2 Hi1) as (Hi2 & _ & _ & Hp2 & _ & Hst & Hm & Hd & Ht & Hq & Ho & _).
      rewrite Hp1 in Hp2. split; [done|]. split.
      - apply (launched_moving _ _ (y :: moving)); cbn; [done|by rewrite Hm|done|rewrite Hm; exact Hg].
      - exists (mobility_model s3), (pending s3). unfold core_of, set_work. cbn. by rewrite Hst, Hd, Ht, Hq, Ho. }
    destruct (ms_state y); try done; apply Hrun.
Qed.

Lemma execute_launches now f here s s' :
  ids_ok s -> pending s = [] -> idle_at here (mobility_model s) -> simple f ->
  Asset.execute_functionality now f s = (Ok tt, s') ->
  ids_ok s' /\ (exists n, (n <= 4)%nat /\ launched f (core_of s') n) /\ exists m l, core_of s' = set_work m l (core_of s).
Proof.
  intros Hi Hp (st & Hph & _ & _) Hf. unfold Asset.execute_functionality. rewrite bind_get, Hph, bind_modify, bind_lift.
  destruct (Asset.mobility_getPose _ _) as [pose| |]; [|done|done]. rewrite bind_lift.
  destruct (Mobility.calculatePhases _ _ _ _ _) as [l| |] eqn:E; [|done|done].
  apply phases_going in E as (moving & Hg & Hlen); [|done]. rewrite bind_modify. intros Hrun.
  eapply (next_phase _ f st moving) in Hrun; [|exact Hi|exact Hp|done|exists l; cbn; by rewrite Hph].
  destruct Hrun as (Hi' & Hl & m & l' & Hc). split; [done|]. split; [by eexists|]. by exists m, l'.
Qed.

Definition add_update (u : AmrOrderUpdate) (c : core) : core := {|
  c_state := c_state c; c_mobility := c_mobility c; c_description := c_description c; c_topology := c_topology c;
  c_queue := c_queue c; c_pending := c_pending c; c_updates := c_updates c ++ [u] |}.

Lemma report_sent now s s' :
  ids_ok s -> Asset.sendOrderUpdateNs3 now s = (Ok tt, s') ->
  ids_ok s' /\ exists u, core_of s' = add_update u (core_of s) /\ ou_state u = m_state s /\
    Asset.mobility_getPosition now (mobility_model s) = Ok (ou_position u).
Proof.
  intros Hi. unfold Asset.sendOrderUpdateNs3, Asset.getPosition. rewrite bind_get.
  intros (p & s1 & Hget & Hsend)%bind_Ok. rewrite bind_get in Hget. apply lift_Ok in Hget as [Hpos ->].
  apply modify_Ok in Hsend as ->. split; [exact Hi|]. exists {| ou_state := m_state s; ou_position := p |}.
  split; [|by split].
  unfold core_of, add_update. cbn. f_equal. unfold order_updates. cbn. by rewrite omap_app.
Qed.

(** *** The rows of the table *)

Definition set_state_of (st : OrderStates) (c : core) : core := {|
  c_state := st; c_mobility := c_mobility c; c_description := c_description c; c_topology := c_topology c;
  c_queue := c_queue c; c_pending := c_pending c; c_updates := c_updates c |}.

(** The first row that fits, by the guards' answers. *)
Definition fires (now : Duration) (e : OrderEvent) (s : A) : option (Asset.Row) :=
  List.find (fun r => bool_decide (Asset.r_event r = e /\ Asset.r_start r = m_state s) &&
    match Asset.r_guard r s with Ok b => b | _ => false end) (Asset.transition_table now).

Lemma process_fires now e r s s' :
  (forall r', Asset.r_event r' = e /\ Asset.r_start r' = m_state s -> r' ∈ Asset.transition_table now ->
     exists b, Asset.r_guard r' s = Ok b) ->
  fires now e s = Some r -> Asset.process_event now e s = (Ok tt, s') ->
  exists s1, Asset.r_action r e s = (Ok tt, s1) /\ s' = Asset.set_state (Asset.r_target r) s1.
Proof.
  unfold fires, Asset.process_event. rewrite bind_get. generalize (Asset.transition_table now) as rows.
  induction rows as [|r' rows IH]; intros Hg; [done|]. cbn [List.find Asset.handle_event].
  intros Hfind (target & s1 & Hrun & ->%modify_Ok)%bind_Ok. rewrite bind_get, bind_lift in Hrun.
  case_bool_decide as Hfit; cbn [andb] in Hfind.
  - destruct (Hg r' Hfit ltac:(by left)) as [b Hb]. rewrite Hb in Hfind, Hrun. destruct b.
    + injection Hfind as <-. apply bind_Ok in Hrun as ([] & s2 & Ha & [-> ->]%ret_Ok). by exists s2.
    + apply IH; [intros; apply Hg; [done|by right]|done|].
      unfold mbind, M_bind. by rewrite Hrun.
  - apply IH; [intros; apply Hg; [done|by right]|done|]. unfold mbind, M_bind. by rewrite Hrun.
Qed.

(** What [process_event] does at each state of an order. *)
Lemma process_skips now e target s s' :
  (m_state s, e, target) ∈ [(kFinished_, ReceivedOrder, kStarted); (kGoToPickUpLocation, ReachedTarget, kReachedPickUpLocation);
    (kGoToDeliveryLocation, ReachedTarget, kReachedDeliveryLocation); (MaterialFlow.kLoad, LoadedPayload, kLoaded);
    (MaterialFlow.kUnload, UnloadedPayload, kUnloaded)] ->
  ids_ok s -> Asset.process_event now e s = (Ok tt, s') ->
  ids_ok s' /\ core_of s' = set_state_of target (set_work (mobility_model s) (pending s ++ [HandleSkip e]) (core_of s)).
Proof.
  intros Hin Hi Hrun.
  assert (Hf : exists r, fires now e s = Some r /\ Asset.r_action r = Asset.skip /\ Asset.r_target r = target).
  { unfold fires. set_unfold in Hin. destruct_or!; simplify_eq; match goal with E : _ = m_state s |- _ => rewrite <- E | E : m_state s = _ |- _ => rewrite E end;
      eexists; split; try reflexivity; by split. }
  destruct Hf as (r & Hf & Ha & <-). eapply process_fires in Hrun as (s1 & H1 & ->); [|..|exact Hf].
  - rewrite Ha in H1. unfold Asset.skip in H1. apply bind_Ok in H1 as (i & s2 & H2 & [_ ->]%ret_Ok).
    destruct (schedule_pending _ _ _ _ _ H2 Hi) as (Hi2 & _ & _ & Hp2 & _ & Hst & Hm & Hd & Ht & Hq & Ho & _).
    split; [exact Hi2|]. unfold core_of, set_state_of, set_work. cbn. unfold order_updates, pending in *. cbn in *.
    by rewrite Hm, Hd, Ht, Hq, Ho, Hp2.
  - intros r' [He Hs] Hr. unfold Asset.transition_table in Hr. rewrite !elem_of_cons in Hr.
    destruct_or!; try (by apply elem_of_nil in Hr); subst r'; first [by eexists|exfalso; cbn in He, Hs; rewrite <- He, <- Hs in Hin;
      clear -Hin; set_unfold in Hin; naive_solver].
Qed.

Inductive launches : OrderStates -> OrderEvent -> list Functionality -> OrderStates -> Prop :=
| launches_first p l q : launches kStarted ReceivedOrder (MoveTo p :: Load l :: q) kGoToPickUpLocation
| launches_load l q : launches kReachedPickUpLocation ReachedTarget (Load l :: q) MaterialFlow.kLoad
| launches_unload l q : launches kReachedDeliveryLocation ReachedTarget (Unload l :: q) MaterialFlow.kUnload
| launches_pickup p l q : launches kLoaded LoadedPayload (MoveTo p :: Load l :: q) kGoToPickUpLocation
| launches_delivery p l q : launches kLoaded LoadedPayload (MoveTo p :: Unload l :: q) kGoToDeliveryLocation
| launches_next p l q : launches kUnloaded UnloadedPayload (MoveTo p :: Load l :: q) kGoToPickUpLocation.

Lemma execute_fires now e f q here s s' :
  functionality_queue_ s = f :: q -> simple f -> ids_ok s -> pending s = [] -> idle_at here (mobility_model s) ->
  Asset.execute now e s = (Ok tt, s') ->
  ids_ok s' /\ (exists n, (n <= 4)%nat /\ launched f (core_of s') n) /\ exists m l, core_of s' = set_work m l (core_of s).
Proof.
  intros Hq Hf Hi Hp Hh. unfold Asset.execute. rewrite bind_modify. set (s0 := Asset.set_amr_state kAmrWorking s).
  unfold Asset.executeFrontFunctionality, Asset.front_functionality.
  intros ([] & s1 & H1 & H2)%bind_Ok. apply bind_Ok in H1 as (f' & s2 & Hfront & Hexec).
  rewrite bind_get in Hfront. apply lift_Ok in Hfront as [Hfront ->]. cbn in Hfront. rewrite Hq in Hfront. injection Hfront as <-.
  destruct (execute_launches now f here s0 s1 Hi Hp Hh Hf Hexec) as (Hi1 & Hl & m & l & Hc).
  change (core_of s0) with (core_of s) in Hc.
  assert (Hquiet : ids_ok s' /\ core_of s' = core_of s1).
  { destruct e; [by eapply (quiet_schedule_status now); eauto|by apply ret_Ok in H2 as [_ ->]..]. }
  destruct Hquiet as [Hi' Hc']. split; [done|]. split; [by rewrite Hc'|]. exists m, l. congruence.
Qed.

Lemma process_launches now e f q target here s s' :
  launches (m_state s) e (f :: q) target -> functionality_queue_ s = f :: q -> ids_ok s -> pending s = [] ->
  idle_at here (mobility_model s) -> Asset.process_event now e s = (Ok tt, s') ->
  ids_ok s' /\ (exists n, (n <= 4)%nat /\ launched f (core_of s') n) /\
  exists m l, core_of s' = set_state_of target (set_work m l (core_of s)).
Proof.
  intros Hl Hq Hi Hp Hh Hrun.
  assert (Hf : simple f) by by inversion Hl.
  assert (Hr : exists r, fires now e s = Some r /\ Asset.r_action r = Asset.execute now /\ Asset.r_target r = target).
  { unfold fires, Asset.transition_table. inversion Hl; subst; cbn -[Asset.execute Asset.skip Asset.finish];
      unfold Asset.isMoveToLoad, Asset.isMoveToUnload, Asset.second_holds, Asset.isLoad, Asset.isUnload, Asset.front_holds, Asset.always;
      rewrite ?Hq; eexists; split; try reflexivity; by split. }
  destruct Hr as (r & Hr & Ha & <-). eapply process_fires in Hrun as (s1 & H1 & ->); [|..|exact Hr].
  - rewrite Ha in H1. eapply execute_fires in H1 as (Hi1 & (n & Hn & Hl1) & m & l & Hc); [|done..].
    split; [exact Hi1|]. split.
    + exists n. split; [done|]. destruct Hl1 as [moving ? ? ? ?|? ?]; [by apply launched_moving|by apply launched_done].
    + exists m, l. rewrite <- Hc. reflexivity.
  - intros r' _ Hr'. unfold Asset.transition_table in Hr'. rewrite !elem_of_cons in Hr'.
    destruct_or!; try (by apply elem_of_nil in Hr'); subst r'; try (by eexists); cbn;
      unfold Asset.isMoveToLoad, Asset.isMoveToUnload, Asset.second_holds; rewrite Hq; inversion Hl; subst; by eexists.
Qed.

Lemma process_finishes now e s s' :
  (m_state s, e) = (kLoaded, LoadedPayload) \/ (m_state s, e) = (kUnloaded, UnloadedPayload) ->
  functionality_queue_ s = [] -> ids_ok s -> Asset.process_event now e s = (Ok tt, s') ->
  ids_ok s' /\ core_of s' = set_state_of kFinished_ (core_of s).
Proof.
  intros Hst Hq Hi Hrun.
  assert (Hr : exists r, fires now e s = Some r /\ Asset.r_action r = Asset.finish now /\ Asset.r_target r = kFinished_).
  { unfold fires, Asset.transition_table. destruct Hst as [Hst|Hst]; injection Hst as Hst ->; cbn -[Asset.execute Asset.skip Asset.finish];
      unfold Asset.isMoveToLoad, Asset.isMoveToUnload, Asset.second_holds, Asset.isFinish, Asset.always;
      rewrite ?Hq, Hst; eexists; split; try reflexivity; by split. }
  destruct Hr as (r & Hr & Ha & Ht). eapply process_fires in Hrun as (s1 & H1 & ->); [|..|exact Hr].
  - rewrite Ha in H1. rewrite Ht.
    assert (Hquiet : ids_ok s1 /\ core_of s1 = core_of s).
    { assert (Hfin : quiet (Asset.stopVehicleStatusUpdatesNs3;; modify (Asset.set_amr_state kAmrIdle);; Asset.sendVehicleStatusUpdateNs3 now true)).
      { apply quiet_bind; [apply quiet_stop|]. intros _. apply quiet_bind; [by apply quiet_modify|]. intros _. apply quiet_status. }
      destruct Hst as [Hst|Hst]; injection Hst as _ ->; by apply (Hfin s tt). }
    destruct Hquiet as [Hi1 Hc]. split; [exact Hi1|]. rewrite <- Hc. reflexivity.
  - intros r' _ Hr'. unfold Asset.transition_table in Hr'. rewrite !elem_of_cons in Hr'.
    destruct_or!; try (by apply elem_of_nil in Hr'); subst r'; try (by eexists); cbn;
      unfold Asset.isMoveToLoad, Asset.isMoveToUnload, Asset.second_holds; rewrite Hq; by eexists.
Qed.

(** ** Runs *)

(** The simulator runs any of the scheduled events, at any time; [w] is whether it is work. *)
Inductive event_step : bool -> A -> A -> Prop :=
| event_step_run now i e s s' :
    scheduled_events s !! i = Some e ->
    Asset.run_event now (s_event e) (Asset.set_events (delete i (scheduled_events s)) s) = (Ok tt, s') ->
    event_step (is_work (s_event e)) s s'.

(** A run, with the number of events that are work. *)
Inductive run : A -> nat -> A -> Prop :=
| run_none s : run s 0 s
| run_step s n s1 w s2 : run s n s1 -> event_step w s1 s2 -> run s (n + if w then 1 else 0) s2.

Lemma taken_ids i s : ids_ok s -> ids_ok (Asset.set_events (delete i (scheduled_events s)) s).
Proof.
  intros [Hlt Hid]. split; cbn; [by apply Forall_delete|]. intros j Hj. destruct (Hid j Hj) as [Hj1 Hj2]. split; [done|].
  intros e He. apply Hj2. by eapply list_elem_of_delete_inv.
Qed.

Lemma taken_pending i e s :
  scheduled_events s !! i = Some e ->
  exists l1 l2, pending s = l1 ++ (if is_work (s_event e) then [s_event e] else []) ++ l2 /\
    pending (Asset.set_events (delete i (scheduled_events s)) s) = l1 ++ l2.
Proof.
  intros He. set (f := fun l : list Scheduled => List.filter is_work (s_event <$> l)).
  exists (f (take i (scheduled_events s))), (f (drop (Datatypes.S i) (scheduled_events s))). unfold f, pending. cbn. split.
  - rewrite <- (take_drop_middle _ _ _ He) at 1. rewrite fmap_app, List.filter_app. cbn. by destruct (is_work (s_event e)).
  - by rewrite delete_take_drop, fmap_app, List.filter_app.
Qed.

Lemma taken_work i e x s :
  scheduled_events s !! i = Some e -> is_work (s_event e) = true -> pending s = [x] ->
  s_event e = x /\ pending (Asset.set_events (delete i (scheduled_events s)) s) = [].
Proof.
  intros He Hw Hp. destruct (taken_pending i e s He) as (l1 & l2 & H1 & H2). rewrite Hw, Hp in H1. rewrite H2.
  destruct l1 as [|y [|]]; [|discriminate H1..]. injection H1 as -> <-. done.
Qed.
Lemma taken_update i e s :
  scheduled_events s !! i = Some e -> is_work (s_event e) = false ->
  pending (Asset.set_events (delete i (scheduled_events s)) s) = pending s.
Proof.
  intros He Hw. destruct (taken_pending i e s He) as (l1 & l2 & H1 & H2). rewrite Hw in H1. by rewrite H1, H2.
Qed.

(** What a step comes to: the reports it sends are the next ones. *)
Definition advances (c : core) (R : list Report) (bound : nat) (s' : A) : Prop :=
  ids_ok s' /\ exists sent R' done n, c_updates (core_of s') = c_updates c ++ sent /\ R = done ++ R' /\ Forall2 matches sent done /\
    stage (core_of s') R' n /\ (n <= bound)%nat.

Lemma report_advances now c r R bound n s s' :
  ids_ok s -> c_updates (core_of s) = c_updates c ->
  r.1 = m_state s ->
  (forall p q, r.2 = Some q -> Asset.mobility_getPosition now (mobility_model s) = Ok p -> p = q) ->
  (forall u, stage (add_update u (core_of s)) R n) -> (n <= bound)%nat ->
  Asset.sendOrderUpdateNs3 now s = (Ok tt, s') -> advances c (r :: R) bound s'.
Proof.
  intros Hi Hc Hr Hpos Hs Hn Hrun. destruct (report_sent now s s' Hi Hrun) as (Hi' & u & Hc' & Hst & Hp).
  split; [done|]. exists [u], R, [r], n. split_and!; [by rewrite Hc'; cbn; f_equal; rewrite <- Hc|done| |by rewrite Hc'; apply Hs|done].
  constructor; [|constructor]. split; [by rewrite Hst|]. destruct r as [st [q|]]; cbn in *; [|done]. by eapply Hpos.
Qed.

Lemma skip_launches now e f q target R r here s s' :
  launches (m_state s) e (f :: q) target -> works target f q R -> functionality_queue_ s = f :: q ->
  r.1 = target -> (r.2 = None \/ handling f /\ r.2 = Some (destination f)) ->
  ids_ok s -> pending s = [] -> idle_at here (mobility_model s) -> Asset.handleSkip now e s = (Ok tt, s') ->
  advances (core_of s) (r :: R) (6 * length R + 4) s'.
Proof.
  intros Hl Hw Hq Hr1 Hr2 Hi Hp Hh ([] & s1 & H1 & H2)%bind_Ok.
  eapply process_launches in H1 as (Hi1 & (n & Hn & Hlaunched) & m & l & Hc); [|done..].
  pose proof (f_equal c_state Hc) as Hst. pose proof (f_equal c_queue Hc) as Hq1. cbn in Hst, Hq1. rewrite Hq in Hq1.
  eapply (report_advances now _ r R _ (6 * length R + n)); [exact Hi1| | | | | |exact H2].
  - by rewrite Hc.
  - by rewrite Hst.
  - intros p q' Hq' Hpos. destruct Hr2 as [E|[Hh' E]]; [congruence|]. rewrite E in Hq'. injection Hq' as <-.
    eapply launched_position; [exact Hlaunched|done|exact Hpos].
  - intros u. apply (stage_busy _ f q); cbn; [done| |by rewrite Hst].
    destruct Hlaunched as [moving ? ? ? ?|? ?]; [by apply launched_moving|by apply launched_done].
  - lia.
Qed.

Lemma skip_advances now e here R s s' :
  expects (m_state s) e here (functionality_queue_ s) R -> ids_ok s -> pending s = [] -> idle_at here (mobility_model s) ->
  Asset.handleSkip now e s = (Ok tt, s') -> (1 <= length R)%nat /\ advances (core_of s) R (6 * length R - 2) s'.
Proof.
  intros He Hi Hp Hh Hrun.
  assert (Hlaunch : forall f q target r R', launches (m_state s) e (f :: q) target -> works target f q R' ->
    functionality_queue_ s = f :: q -> r.1 = target -> (r.2 = None \/ handling f /\ r.2 = Some (destination f)) ->
    R = r :: R' -> (1 <= length R)%nat /\ advances (core_of s) R (6 * length R - 2) s').
  { intros f q target r R' Hl Hw Hq Hr1 Hr2 ->. split; [cbn; lia|].
    replace (6 * length (r :: R') - 2)%nat with (6 * length R' + 4)%nat by (cbn; lia). by eapply skip_launches. }
  assert (Hfinish : (m_state s, e) = (kLoaded, LoadedPayload) \/ (m_state s, e) = (kUnloaded, UnloadedPayload) ->
    functionality_queue_ s = [] -> R = [(kFinished_, Some here)] -> (1 <= length R)%nat /\ advances (core_of s) R (6 * length R - 2) s').
  { intros Hst Hq ->. split; [cbn; lia|]. apply bind_Ok in Hrun as ([] & s1 & H1 & H2).
    eapply process_finishes in H1 as [Hi1 Hc]; [|done..].
    pose proof (f_equal c_state Hc) as Hst1. pose proof (f_equal c_mobility Hc) as Hm1. cbn in Hst1, Hm1.
    eapply (report_advances now _ _ [] _ 0); [exact Hi1|by rewrite Hc|by rewrite Hst1| | | |exact H2].
    - cbn. intros p q' [= <-] Hpos. eapply idle_position; [|exact Hpos]. by rewrite Hm1.
    - intros u. apply (stage_free _ here); cbn; [|done| |by rewrite Hm1].
      + pose proof (f_equal c_pending Hc) as E. cbn in E. by rewrite E.
      + pose proof (f_equal c_queue Hc) as E. cbn in E. by rewrite E.
    - lia. }
  remember (m_state s) as st eqn:Est. remember (functionality_queue_ s) as q eqn:Eq.
  destruct He as [here q R Hne HR|here q R HR|here q R HR|here l q R HR|here l q R HR].
  - destruct q as [|[] [|[] q]]; try done. cbn in HR. destruct (reports true _ q) as [R'|] eqn:E; [|done]. injection HR as <-.
    eapply Hlaunch; [| |reflexivity| | |reflexivity]; [constructor|by constructor|done|by left].
  - destruct q as [|[] [|[] q]]; try done; cbn in HR; [injection HR as <-; apply Hfinish; [by left|done..]|..];
      (destruct (reports _ _ q) as [R'|] eqn:E; [|done]; injection HR as <-;
       eapply Hlaunch; [| |reflexivity| | |reflexivity]; [constructor|by constructor|done|by left]).
  - destruct q as [|[] [|[] q]]; try done; cbn in HR; [injection HR as <-; apply Hfinish; [by right|done..]|..];
      (destruct (reports _ _ q) as [R'|] eqn:E; [|done]; injection HR as <-;
       eapply Hlaunch; [| |reflexivity| | |reflexivity]; [constructor|by constructor|done|by left]).
  - eapply Hlaunch; [| |reflexivity| | |reflexivity]; [constructor|by constructor|done|by right].
  - eapply Hlaunch; [| |reflexivity| | |reflexivity]; [constructor|by constructor|done|by right].
Qed.

Lemma works_simple st f q R : works st f q R -> simple f.
Proof. by destruct 1. Qed.

Lemma update_advances now f q R s s' :
  functionality_queue_ s = f :: q -> works (m_state s) f q R -> ids_ok s -> pending s = [] ->
  idle_at (destination f) (mobility_model s) -> Asset.updateFunctionality now f s = (Ok tt, s') ->
  (1 <= length R)%nat /\ advances (core_of s) R (6 * length R - 6) s'.
Proof.
  intros Hq Hw Hi Hp Hh. unfold Asset.updateFunctionality, Asset.front_functionality. intros (front & s1 & Hfront & Hrun)%bind_Ok.
  rewrite bind_get in Hfront. apply lift_Ok in Hfront as [Hfront ->]. rewrite Hq in Hfront. injection Hfront as <-.
  rewrite bind_throw_if, Nat.eqb_refl, bind_modify in Hrun. cbn [negb] in Hrun.
  set (s0 := Asset.set_queue (drop 1 (functionality_queue_ s)) s) in Hrun. apply bind_Ok in Hrun as ([] & s1 & H1 & H2).
  assert (Hgo : forall e target r R' here, (m_state s, e, target) ∈ [(kFinished_, ReceivedOrder, kStarted);
      (kGoToPickUpLocation, ReachedTarget, kReachedPickUpLocation); (kGoToDeliveryLocation, ReachedTarget, kReachedDeliveryLocation);
      (MaterialFlow.kLoad, LoadedPayload, kLoaded); (MaterialFlow.kUnload, UnloadedPayload, kUnloaded)] ->
    Asset.process_event now e s0 = (Ok tt, s1) -> R = r :: R' -> r = (target, Some (destination f)) -> here = destination f ->
    expects target e here q R' -> (1 <= length R)%nat /\ advances (core_of s) R (6 * length R - 6) s').
  { intros e target r R' here Hin Hproc -> -> -> Hexp. split; [cbn; lia|].
    destruct (process_skips now e target s0 s1 Hin Hi Hproc) as [Hi1 Hc].
    pose proof (f_equal c_state Hc) as Hst1. pose proof (f_equal c_mobility Hc) as Hm1. pose proof (f_equal c_queue Hc) as Hq1.
    pose proof (f_equal c_pending Hc) as Hp1. cbn in Hst1, Hm1, Hq1, Hp1.
    change (pending s1 = pending s ++ [HandleSkip e]) in Hp1. rewrite Hp in Hp1. rewrite Hq in Hq1. cbn in Hq1.
    eapply (report_advances now _ _ R' _ (6 * length R')); [exact Hi1|by rewrite Hc|by rewrite Hst1| | | |exact H2].
    - cbn. intros p q' [= <-] Hpos. eapply idle_position; [|exact Hpos]. by rewrite Hm1.
    - intros u. apply (stage_skip _ e (destination f)); cbn; [done|by rewrite Hm1|by rewrite Hst1, Hq1].
    - cbn. lia. }
  remember (m_state s) as st eqn:Est.
  destruct Hw as [p l q R HR|l q R HR|p l q R HR|l q R HR]; (eapply Hgo; [|exact H1|done|done|done|by constructor]); set_solver.
Qed.

Lemma advances_weaken c R n n' s : advances c R n s -> (n <= n')%nat -> advances c R n' s.
Proof.
  intros [Hi (sent & R' & done & k & H1 & H2 & H3 & H4 & H5)] Hle. split; [done|]. exists sent, R', done, k.
  split_and!; try done. lia.
Qed.

Lemma stage_core c c' R n :
  stage c R n -> c_state c' = c_state c -> c_mobility c' = c_mobility c -> c_queue c' = c_queue c -> c_pending c' = c_pending c ->
  stage c' R n.
Proof.
  intros Hs E1 E2 E3 E4.
  destruct Hs as [e here R Hp Hh He|f q n R Hq Hl Hw|here Hp Hst Hq Hh].
  - apply (stage_skip _ e here); [by rewrite E4|by rewrite E2|by rewrite E1, E3].
  - apply (stage_busy _ f q); [by rewrite E3| |by rewrite E1].
    destruct Hl as [moving ? ? ? ?|? ?]; [apply launched_moving|apply launched_done]; by rewrite ?E4, ?E2.
  - apply (stage_free _ here); [by rewrite E4|by rewrite E1|by rewrite E3|by rewrite E2].
Qed.

(** What is run at a stage. *)
Lemma work_advances now e R n s s' :
  ids_ok s -> pending s = [] ->
  (forall c, c = set_work (mobility_model s) [e] (core_of s) -> stage c R n) -> is_work e = true ->
  Asset.run_event now e s = (Ok tt, s') -> (1 <= n)%nat /\ advances (core_of s) R (n - 1) s'.
Proof.
  intros Hi Hp Hstage Hw Hrun. specialize (Hstage _ eq_refl).
  inversion Hstage as [e' here R' Hp' Hh He|f q k R' Hq Hl Hwk|here Hp' Hst Hq Hh]; subst; cbn in *.
  - injection Hp' as ->. destruct (skip_advances now e' here R s s' He Hi Hp Hh Hrun) as [Hlen Ha].
    split; [lia|]. eapply advances_weaken; [exact Ha|lia].
  - destruct Hl as [moving Hp' Hf Hne Hg|Hp' Hh]; cbn in *; injection Hp' as ->; cbn in Hrun.
    + destruct moving as [|x moving]; [done|]. split; [cbn; lia|].
      destruct Hg as ((t & Hph) & Hidle & Hstat). eapply (next_phase now f x moving) in Hrun; [|done..|].
      * destruct Hrun as (Hi' & Hl & m & l & Hc). split; [done|]. exists [], R, [], (6 * length R + length moving)%nat.
        pose proof (f_equal c_state Hc) as Hst1. pose proof (f_equal c_queue Hc) as Hq1. cbn in Hst1, Hq1.
        split_and!; [by rewrite Hc; cbn; rewrite app_nil_r|done|constructor| |cbn; lia].
        apply (stage_busy _ f q); cbn; [by rewrite Hq1|exact Hl|by rewrite Hst1].
      * exists (moving ++ [Mobility.status kIdle_ v_zero (destination f) v_zero t]). split; [exact Hph|]. split; [by eexists|].
        apply Forall_cons in Hidle as [_ Hidle]. split; [done|]. intros Hh. by apply Hstat in Hh as [_ Hh]%Forall_cons.
    + destruct (update_advances now f q R s s' Hq Hwk Hi Hp Hh Hrun) as [Hlen Ha].
      split; [lia|]. eapply advances_weaken; [exact Ha|lia].
  - done.
Qed.

Lemma step_advances w R n s s' :
  ids_ok s -> stage (core_of s) R n -> event_step w s s' ->
  ((if w then 1 else 0) <= n)%nat /\ advances (core_of s) R (n - if w then 1 else 0) s'.
Proof.
  intros Hi Hs Hstep. revert Hi Hs. destruct Hstep as [now i e s1 s2 He Hrun]. intros Hi Hs. pose proof (taken_ids i s1 Hi) as Hi0.
  destruct (is_work (s_event e)) eqn:Hw.
  - assert (Hone : exists x, pending s1 = [x]).
    { destruct Hs as [? ? ? Hp _ _|? ? ? ? _ [? Hp _ _ _|Hp _] _|? Hp _ _ _]; try (by eexists).
      destruct (taken_pending i e s1 He) as (l1 & l2 & H1 & _). change (pending s1 = []) in Hp. rewrite Hw, Hp in H1.
      by destruct l1. }
    destruct Hone as [x Hx]. destruct (taken_work i e x s1 He Hw Hx) as [<- Hp0].
    destruct (work_advances now (s_event e) R n _ s2 Hi0 Hp0) as [Hn Ha]; [|done|exact Hrun|by split].
    intros c ->. eapply stage_core; [exact Hs|done..|]. cbn. by rewrite Hx.
  - split; [lia|]. rewrite Nat.sub_0_r. assert (Hq : s_event e = ScheduleVehicleStatusUpdate) by by destruct (s_event e).
    rewrite Hq in Hrun. cbn in Hrun. pose proof (taken_update i e s1 He Hw) as Hp0.
    apply quiet_schedule_status in Hrun as [Hi' Hc]; [|done]. split; [done|]. exists [], R, [], n.
    assert (Hc' : core_of s2 = core_of s1).
    { rewrite Hc. unfold core_of. cbn. f_equal. exact Hp0. }
    rewrite Hc', app_nil_r. split_and!; [done|done|constructor|done|lia].
Qed.

Lemma run_advances R n s k s' :
  ids_ok s -> stage (core_of s) R n -> run s k s' -> (k <= n)%nat /\ advances (core_of s) R (n - k) s'.
Proof.
  intros Hi Hs Hrun. induction Hrun as [s|s k s1 w s2 Hrun IH Hstep].
  - split; [lia|]. split; [done|]. exists [], R, [], n. rewrite app_nil_r. split_and!; [done|done|constructor|done|lia].
  - destruct (IH Hi Hs) as (Hk & Hi1 & sent & R1 & done1 & n1 & Hu & -> & Hm & Hs1 & Hn1).
    destruct (step_advances w R1 n1 s1 s2 Hi1 Hs1 Hstep) as (Hw & Hi2 & sent2 & R2 & done2 & n2 & Hu2 & -> & Hm2 & Hs2 & Hn2).
    split; [lia|]. split; [done|]. exists (sent ++ sent2), R2, (done1 ++ done2), n2.
    split_and!; [by rewrite Hu2, Hu, app_assoc|by rewrite app_assoc|by apply Forall2_app|done|lia].
Qed.

(** A vehicle that is free: no order, nothing to do. *)
Definition free (s : A) : Prop :=
  ids_ok s /\ m_state s = kFinished_ /\ functionality_queue_ s = [] /\ pending s = [] /\ exists here, idle_at here (mobility_model s).

Lemma order_taken now i R s s' :
  free s -> oi_functionalities i <> [] -> (forall here, reports false here (oi_functionalities i) = Some R) ->
  Asset.processMessageOrderInfo now i s = (Ok tt, s') ->
  ids_ok s' /\ exists u, order_updates s' = order_updates s ++ [u] /\ ou_state u = kStarted /\ stage (core_of s') R (6 * length R).
Proof.
  intros (Hi & Hst & Hq & Hp & here & Hh) Hne HR. unfold Asset.processMessageOrderInfo. rewrite bind_get, bind_throw_if, Hq.
  cbn [negb]. rewrite bind_modify, Hq. set (s0 := Asset.set_queue _ s). intros ([] & s1 & H1 & H2)%bind_Ok.
  destruct (process_skips now ReceivedOrder kStarted s0 s1) as [Hi1 Hc]; [cbn; rewrite Hst; by left|exact Hi|exact H1|].
  pose proof (f_equal c_state Hc) as Hst1. pose proof (f_equal c_mobility Hc) as Hm1. pose proof (f_equal c_queue Hc) as Hq1.
  pose proof (f_equal c_pending Hc) as Hp1. cbn in Hst1, Hm1, Hq1, Hp1.
  change (pending s1 = pending s ++ [HandleSkip ReceivedOrder]) in Hp1. rewrite Hp in Hp1.
  destruct (report_sent now s1 s' Hi1 H2) as (Hi' & u & Hc' & Hu & _). split; [done|]. exists u.
  split; [|split; [by rewrite Hu|]].
  - pose proof (f_equal c_updates Hc') as E. cbn in E. rewrite E. pose proof (f_equal c_updates Hc) as E1. cbn in E1. rewrite E1. done.
  - rewrite Hc'. apply (stage_skip _ ReceivedOrder here); cbn; [done|by rewrite Hm1|]. rewrite Hst1, Hq1. by constructor.
Qed.

(** An order is carried out as long as nothing fails. A free vehicle takes the functionalities of one or more transport
    orders, each with something to pick up, and does not fail in doing so (the plan for a move can be refused). Then in every
    run in which no event fails, whatever the simulator runs in between and whenever, the vehicle reports the states of the
    pickups and deliveries one after the other in the order of the transport orders, each at the place of the order (a place is
    not pinned for the reports that it has started or sets out), and nothing else. At most six events of work are run per
    report, and when no work is left all reports have been sent and the vehicle is free for the next order. *)
Theorem order_carried_out now orders last_position fs ability s s1 k s2 :
  free s -> orders <> [] -> Forall (fun o => pickup_transport_order_steps o <> []) orders ->
  Mapping.materialFlowToFunctionalities (transport_order <$> orders) last_position = Ok fs ->
  Asset.processMessageOrderInfo now {| oi_functionalities := fs; oi_ability_requirement := ability |} s = (Ok tt, s1) ->
  run s1 k s2 ->
  (k <= 6 * length (expected_reports orders))%nat /\
  exists sent done rest, order_updates s2 = order_updates s ++ sent /\ expected_reports orders = done ++ rest /\
    Forall2 matches sent done /\ (pending s2 = [] -> rest = [] /\ free s2).
Proof.
  intros Hfree Hne Ho Hfs Htake Hrun. unfold Mapping.materialFlowToFunctionalities in Hfs.
  destruct (orders_mapped orders [] last_position) as [last' Hm]. rewrite Hm in Hfs. injection Hfs as <-. cbn [app] in Htake.
  set (R := (orders ≫= order_reports) ++ [(kFinished_, delivery_of <$> last orders)]).
  assert (HR : forall here, reports false here (orders ≫= functionalities_of) = Some R).
  { intros here. rewrite orders_reported by done. unfold R. destruct (last orders) eqn:E; [done|]. by apply last_None in E. }
  assert (Hfs : orders ≫= functionalities_of <> []).
  { destruct orders as [|o orders']; [done|]. cbn. unfold functionalities_of. by destruct (pickup_transport_order_steps o). }
  destruct (order_taken now {| oi_functionalities := orders ≫= functionalities_of; oi_ability_requirement := ability |} R s s1 Hfree Hfs HR Htake) as (Hi1 & u & Hu & Hst & Hs1).
  destruct (run_advances R _ s1 k s2 Hi1 Hs1 Hrun) as (Hk & Hi2 & sent & rest & done & n & Hu2 & HRd & Hmatch & Hs2 & Hn).
  split; [unfold expected_reports; fold R; cbn; lia|]. exists (u :: sent), ((kStarted, None) :: done), rest.
  split_and!.
  - cbn in Hu2. rewrite Hu2, Hu, <- app_assoc. done.
  - unfold expected_reports. fold R. by rewrite HRd.
  - constructor; [by split|done].
  - intros Hp. destruct Hs2 as [? ? ? Hp' _ _|? ? ? ? _ [? Hp' _ _ _|Hp' _] _|here Hp' Hf Hq Hh]; try (cbn in Hp'; congruence).
    split; [done|]. split_and!; try done. by exists here.
Qed.

(** ** What the simulator does if it runs the work in turn, each when it is due *)

Fixpoint work_through (fuel : nat) (now : Duration) (s : A) : outcome unit * A :=
  match fuel with
  | O => (Ok tt, s)
  | Datatypes.S fuel =>
      match find_index (fun e => is_work (s_event e)) (scheduled_events s) with
      | None => (Ok tt, s)
      | Some i =>
          match scheduled_events s !! i with
          | None => (Ok tt, s)
          | Some e =>
              let now := d_add now (s_delay e) in
              match Asset.run_event now (s_event e) (Asset.set_events (delete i (scheduled_events s)) s) with
              | (Ok _, s') => work_through fuel now s'
              | (Throw x, s') => (Throw x, s')
              | (Undefined, s') => (Undefined, s')
              end
          end
      end
  end.

Lemma run_head w s s1 k s2 : event_step w s s1 -> run s1 k s2 -> run s ((if w then 1 else 0) + k) s2.
Proof.
  intros Hstep Hrun. induction Hrun as [s1|s1 k s2 w' s3 Hrun IH Hstep'].
  - rewrite Nat.add_0_r. apply (run_step _ 0 s); [constructor|done].
  - rewrite Nat.add_assoc. eapply run_step; [by apply IH|done].
Qed.

Lemma work_through_run fuel now s s' : work_through fuel now s = (Ok tt, s') -> exists k, run s k s'.
Proof.
  revert now s. induction fuel as [|fuel IH]; intros now s; cbn [work_through]; [intros [= <-]; by exists 0%nat; constructor|].
  destruct (find_index _ _) as [i|]; [|intros [= <-]; by exists 0%nat; constructor].
  destruct (scheduled_events s !! i) as [e|] eqn:He; [|intros [= <-]; by exists 0%nat; constructor].
  destruct (Asset.run_event _ _ _) as [[[]| |] s1] eqn:Hrun; [|done|done]. intros [k Hk]%IH. eexists. eapply run_head; [|exact Hk].
  by econstructor.
Qed.
End AssetProperties.

(** ** A vehicle in the plane *)

#[local] Existing Instance plane.
#[export] Instance plane_environment : AssetEnvironment := {|
  v_eq p q := d_eq (x p) (x q) && d_eq (y p) (y q);
  atan2 _ _ := d_zero;
|}.

Lemma pair_ok {X Y} (p : X * Y) a : p.1 = a -> p = (a, p.2).
Proof. by destruct p; intros <-. Qed.

Definition idle_asset : AmrPhysicalAsset := Asset.construct sample_description sample_topology.

Lemma idle_asset_free : free idle_asset.
Proof.
  split_and!; try done. exists v_zero. by eexists.
Qed.

Definition asset_step (p : Position) : OrderStep :=
  {| step_name := "step"; step_parameters := [];
     step_location := {| loc_id := "location"; loc_type := "station"; loc_position := p |} |}.
Definition two_pickups : TransportOrder :=
  {| to_state := kInvalid; to_uuid := "first"; pickup_transport_order_steps := [asset_step (point 10 0); asset_step (point 10 10)];
     delivery_transport_order_step := asset_step (point 40 10) |}.
Definition one_pickup : TransportOrder :=
  {| to_state := kInvalid; to_uuid := "second"; pickup_transport_order_steps := [asset_step (point 40 10)];
     delivery_transport_order_step := asset_step (point 0 0) |}.

Definition order_info (orders : list Order) : AmrOrderInfo :=
  {| oi_functionalities := match Mapping.materialFlowToFunctionalities orders (Some (point 0 0)) with Ok fs => fs | _ => [] end;
     oi_ability_requirement := ability_ (load_handling_ sample_description) |}.
Definition carried_out (orders : list Order) : outcome unit * AmrPhysicalAsset :=
  work_through 200 d_zero (Asset.processMessageOrderInfo d_zero (order_info orders) idle_asset).2.
Definition reported (s : AmrPhysicalAsset) : list OrderStates := ou_state <$> order_updates s.

Lemma order_carried_out_witness :
  let orders := [two_pickups; one_pickup] in
  let s2 := (carried_out (transport_order <$> orders)).2 in
  reported s2 = (expected_reports orders).*1 /\ pending s2 = [] /\
  exists k, (k <= 6 * length (expected_reports orders))%nat /\
  exists sent done rest, order_updates s2 = order_updates idle_asset ++ sent /\ expected_reports orders = done ++ rest /\
    Forall2 matches sent done /\ (pending s2 = [] -> rest = [] /\ free s2).
Proof.
  intros orders s2. split; [vm_compute; reflexivity|]. split; [vm_compute; reflexivity|].
  destruct (work_through_run 200 d_zero (Asset.processMessageOrderInfo d_zero (order_info (transport_order <$> orders)) idle_asset).2 s2)
    as [k Hk].
  { unfold s2, carried_out. apply pair_ok. vm_compute. reflexivity. }
  exists k. eapply (order_carried_out d_zero orders (Some (point 0 0)) _ _ idle_asset _ k s2);
    [apply idle_asset_free|discriminate|repeat constructor; discriminate|vm_compute; reflexivity| |exact Hk].
  apply pair_ok. vm_compute. reflexivity.
Defined.

(** A move after a transport, and an action after it, are orders that the tasks may have; but after the delivery the
    vehicle looks for a load behind the move, which is not there, and it knows no transition for the action. *)
Definition move_behind : Order := move_order {| mo_uuid := "move"; move_order_step := asset_step (point 20 20) |}.
Definition load_behind : Order :=
  action_order {| ao_uuid := "action"; action_order_step := {| action_name := "load"; action_parameters := [("load", "")]%string |} |}.

Theorem other_orders_block :
  (carried_out [transport_order one_pickup; move_behind]).1 = Throw (out_of_range "deque::_M_range_check") /\
  let s := carried_out [transport_order one_pickup; load_behind] in
  s.1 = Ok tt /\ pending s.2 = [] /\ m_state s.2 = kUnloaded /\ functionality_queue_ s.2 = [Load (point 0 0)] /\
  exists e, (Asset.processMessageOrderInfo (d_of_Z 1000) (order_info [transport_order one_pickup]) s.2).1 = Throw e.
Proof. split; [vm_compute; reflexivity|]. cbn zeta. split_and!; [vm_compute; reflexivity..|]. eexists. vm_compute. reflexivity. Qed.
