(* ===== verification/LogicalAgent.v ===== *)
(** * The agent of a vehicle

    Model of [cpps/logical/amr/amr_logical_execution_state.cpp] and [amr_logical_agent.cpp], which
    hands tasks to the physical asset and forwards its reports to the agent of the material
    flow, and of the algorithm there that takes them ([material_flow_logical_agent.cpp]). What
    is sent and offered as a service is kept; logging, the sockets and the participants of the
    assignment algorithms, which share the task management, are left out. *)

From Stdlib Require Import SpecFloat.
From S2P Require Import Prelude TreeMapper RouteCalculation MaterialFlow Metrics Mobility TaskManagement Auction AuctionParticipant StnTaskManagement Asset.

(** ** [AmrLogicalExecutionState] *)

Record AmrLogicalExecutionState := {
  es_position_ : Position;
  es_amr_state_ : AmrState;
  es_task_ : Task;
  order_index_ : Z;
  order_state_ : OrderStates;
  send_next_task_to_physical_ : bool;
}.

Module Execution.
Section Execution.
Context `{Ns3Vector}.
Abbreviation E := AmrLogicalExecutionState.

(** [Task()] *)
Definition no_task : Task :=
  {| uuid_ := EmptyString; name_ := EmptyString; connection_string_ := EmptyString; orders_ := []; follow_up_task_uuids_ := [];
     preceding_task_uuids_ := []; time_window_ := None;
     ability_requirement_ := {| load_carrier_ := kNoLoadCarrierType; max_payload_weight_kg_ := d_zero |} |}.

Definition initial : E := {|
  es_position_ := v_default; es_amr_state_ := kAmrIdle; es_task_ := no_task; order_index_ := -1; order_state_ := kCreated;
  send_next_task_to_physical_ := true |}.

Definition processAmrStatusUpdate (u : AmrStatusUpdate) (s : E) : E := {|
  es_position_ := su_position u; es_amr_state_ := su_state u; es_task_ := es_task_ s; order_index_ := order_index_ s;
  order_state_ := order_state_ s; send_next_task_to_physical_ := send_next_task_to_physical_ s |}.

(** The index is an [int], compared with the unsigned size. *)
Definition setNextOrder (s : E) : E :=
  let index := order_index_ s + 1 in
  let last := u64 index <=? Z.of_nat (length (orders_ (es_task_ s))) in
  {| es_position_ := es_position_ s; es_amr_state_ := es_amr_state_ s; es_task_ := es_task_ s;
     order_index_ := if last then -1 else index; order_state_ := kCreated;
     send_next_task_to_physical_ := last || send_next_task_to_physical_ s |}.

Definition processAmrOrderUpdate (u : AmrOrderUpdate) (s : E) : E :=
  let s := {| es_position_ := ou_position u; es_amr_state_ := es_amr_state_ s; es_task_ := es_task_ s;
              order_index_ := order_index_ s; order_state_ := ou_state u;
              send_next_task_to_physical_ := send_next_task_to_physical_ s |} in
  match ou_state u with kFinished_ => setNextOrder s | _ => s end.

Definition setNextTask (t : Task) (s : E) : E := {|
  es_position_ := es_position_ s; es_amr_state_ := es_amr_state_ s; es_task_ := t; order_index_ := 0; order_state_ := kCreated;
  send_next_task_to_physical_ := false |}.
End Execution.
End Execution.

(** ** The task management behind the pointer *)

Inductive AnyTaskManagement :=
| stn_management (t : StnTaskManagement)
| simple_management (t : SimpleTaskManagement).

Inductive AlgorithmType :=
| kIteratedAuctionAssignmentInitiator | kIteratedAuctionAssignmentParticipant | kRoundRobinInitiator | kRoundRobinParticipant.

Record MaterialFlowUpdate := {
  mu_amr_uuid : string;
  mu_order_state : OrderStates;
  mu_task : Task;
  mu_order_index : Z;
  mu_position : Position;
}.

(** A value of a service is a text or a number. *)
Inductive ServiceValue := text_value (s : string) | number_value (d : double).
Record Service := {
  service_friendly_name : string;
  service_type : string;
  service_uuid : string;
  key_values : list (string * ServiceValue);
}.

(** ** [AmrLogicalAgent] *)

Record AmrLogicalAgent := {
  description_ : option AmrDescription;
  agent_topology_ : Topology;
  execution_state_ : AmrLogicalExecutionState;
  agent_task_management_ : option AnyTaskManagement;
  algorithms_ : list AlgorithmType;
  to_physical : list AmrMessage;
  forwarded : list (string * MaterialFlowUpdate);
  services : list Service;
}.

Module Agent.
Section Agent.
Context `{Ns3Vector}.
(** The agent's id and connection, and the id of its service. *)
Variables (uuid_ connection_string service_id : string).
Abbreviation G := AmrLogicalAgent.

Definition set_execution (e : AmrLogicalExecutionState) (s : G) : G := {|
  description_ := description_ s; agent_topology_ := agent_topology_ s; execution_state_ := e;
  agent_task_management_ := agent_task_management_ s; algorithms_ := algorithms_ s; to_physical := to_physical s;
  forwarded := forwarded s; services := services s |}.
Definition set_management (t : AnyTaskManagement) (s : G) : G := {|
  description_ := description_ s; agent_topology_ := agent_topology_ s; execution_state_ := execution_state_ s;
  agent_task_management_ := Some t; algorithms_ := algorithms_ s; to_physical := to_physical s;
  forwarded := forwarded s; services := services s |}.
Definition add_algorithm (a : AlgorithmType) (t : AnyTaskManagement) (s : G) : G := {|
  description_ := description_ s; agent_topology_ := agent_topology_ s; execution_state_ := execution_state_ s;
  agent_task_management_ := Some t; algorithms_ := algorithms_ s ++ [a]; to_physical := to_physical s;
  forwarded := forwarded s; services := services s |}.
Definition sendToPhysical (m : AmrMessage) : M G unit := modify (fun s => {|
  description_ := description_ s; agent_topology_ := agent_topology_ s; execution_state_ := execution_state_ s;
  agent_task_management_ := agent_task_management_ s; algorithms_ := algorithms_ s; to_physical := to_physical s ++ [m];
  forwarded := forwarded s; services := services s |}).
Definition forward (connection : string) (u : MaterialFlowUpdate) : M G unit := modify (fun s => {|
  description_ := description_ s; agent_topology_ := agent_topology_ s; execution_state_ := execution_state_ s;
  agent_task_management_ := agent_task_management_ s; algorithms_ := algorithms_ s; to_physical := to_physical s;
  forwarded := forwarded s ++ [(connection, u)]; services := services s |}).
Definition addService (v : Service) (s : G) : G := {|
  description_ := description_ s; agent_topology_ := agent_topology_ s; execution_state_ := execution_state_ s;
  agent_task_management_ := agent_task_management_ s; algorithms_ := algorithms_ s; to_physical := to_physical s;
  forwarded := forwarded s; services := services s ++ [v] |}.
Definition set_description (d : AmrDescription) (s : G) : G := {|
  description_ := Some d; agent_topology_ := agent_topology_ s; execution_state_ := execution_state_ s;
  agent_task_management_ := agent_task_management_ s; algorithms_ := algorithms_ s; to_physical := to_physical s;
  forwarded := forwarded s; services := services s |}.

(** *** The operations of the task management *)

Definition management_setNextTask : M G unit :=
  s ← get;
  match agent_task_management_ s with
  | None => lift Undefined
  | Some (stn_management t) =>
      let (r, t') := StnTasks.setNextTask t in
      modify (set_management (stn_management t'));; lift (_ ← r; mret tt)
  | Some (simple_management t) =>
      let (r, t') := Simple.setNextTask t in
      modify (set_management (simple_management t'));; lift (_ ← r; mret tt)
  end.
Definition management_hasTasks (t : AnyTaskManagement) : bool :=
  match t with stn_management t => StnTasks.hasTasks t | simple_management t => Simple.hasTasks t end.
Definition management_getCurrentTask (t : AnyTaskManagement) : outcome Task :=
  match t with stn_management t => StnTasks.getCurrentTask t | simple_management t => Simple.getCurrentTask t end.

(** *** Tasks for the physical asset *)

Definition sendTaskToPhysical : M G unit :=
  management_setNextTask;;
  s ← get;
  match agent_task_management_ s with
  | None => lift Undefined
  | Some t =>
      if management_hasTasks t then
        task ← lift (management_getCurrentTask t);
        modify (fun s => set_execution (Execution.setNextTask task (execution_state_ s)) s);;
        s ← get;
        functionalities ← lift (Mapping.materialFlowToFunctionalities (orders_ task) (Some (es_position_ (execution_state_ s))));
        match description_ s with
        | Some d => sendToPhysical (amr_order_info {| oi_functionalities := functionalities;
                      oi_ability_requirement := ability_ (load_handling_ d) |})
        | None => lift Undefined
        end
      else mret tt
  end.

Definition checkSendingNextTaskToPhysical : M G unit :=
  s ← get;
  if send_next_task_to_physical_ (execution_state_ s) && bool_decide (is_Some (agent_task_management_ s))
  then sendTaskToPhysical else mret tt.

Definition notifyTaskAssigned : M G unit := checkSendingNextTaskToPhysical.

Definition sendTopologyToPhysical : M G unit := s ← get; sendToPhysical (amr_topology (agent_topology_ s)).

(** *** Messages of the physical asset *)

Definition forwardOrderUpdate : M G unit :=
  s ← get;
  let e := execution_state_ s in
  let finished := order_index_ e =? -1 in
  forward (connection_string_ (es_task_ e)) {|
    mu_amr_uuid := uuid_;
    mu_order_state := if finished then kFinished_ else order_state_ e;
    mu_task := es_task_ e;
    mu_order_index := u8 (if finished then Z.of_nat (length (orders_ (es_task_ e))) - 1 else order_index_ e);
    mu_position := es_position_ e |}.

(** [description_] is set once it is a value; before that it is the default one, which is not used. *)
Definition setServices (d : AmrDescription) : M G unit :=
  modify (addService {|
    service_friendly_name := "service_" ++ friendly_name_ (properties_ d);
    service_type := EmptyString;
    service_uuid := service_id;
    key_values := [
      ("servicetype", text_value "transport");
      ("maxpayload", number_value (max_payload_weight_kg_ (ability_ (load_handling_ d))));
      ("loadcarriertype", text_value (Carrier.getTypeAsString (load_carrier_ (ability_ (load_handling_ d)))));
      ("amruuid", text_value uuid_);
      ("endpoint", text_value connection_string)]%string |}).

Definition processMessageAmrDescription (d : AmrDescription) : M G unit :=
  s ← get;
  match description_ s with
  | None => modify (set_description d);; setServices d
  | Some _ => throw (runtime_error "AmrDescription attempted to be set twice.")
  end.

Definition processMessageAmrStatusUpdate (u : AmrStatusUpdate) : M G unit :=
  modify (fun s => set_execution (Execution.processAmrStatusUpdate u (execution_state_ s)) s);;
  checkSendingNextTaskToPhysical.

Definition processMessageAmrOrderUpdate (u : AmrOrderUpdate) : M G unit :=
  modify (fun s => set_execution (Execution.processAmrOrderUpdate u (execution_state_ s)) s);;
  forwardOrderUpdate;;
  checkSendingNextTaskToPhysical.

Definition readFromPhysicalSocket (messages : list AmrMessage) : M G unit :=
  for_each messages (fun m =>
    match m with
    | amr_description d => processMessageAmrDescription d
    | amr_status_update u => processMessageAmrStatusUpdate u
    | amr_order_update u => processMessageAmrOrderUpdate u
    | _ => mret tt
    end).

(** *** Start *)

(** The callback is [notifyTaskAssigned]. *)
Abbreviation notify_label := "notifyTaskAssigned"%string.

Definition start_pose (s : G) : Pose := pose_at (es_position_ (execution_state_ s)).

Definition initAlgorithm (a : AlgorithmType) : M G unit :=
  s ← get;
  match description_ s with
  | None => lift Undefined
  | Some d =>
      match a with
      | kIteratedAuctionAssignmentParticipant =>
          t ← lift (StnTasks.construct d (agent_topology_ s) (start_pose s));
          modify (add_algorithm a (stn_management
            (StnTasks.on_base (Base.addNotifyTaskAssignmentCallback notify_label) t).2))
      | kRoundRobinParticipant =>
          t ← lift (Simple.construct d (agent_topology_ s) (start_pose s));
          modify (add_algorithm a (simple_management
            {| base := (Base.addNotifyTaskAssignmentCallback notify_label (base t)).2; active_task_ := active_task_ t;
               queue_ := queue_ t; final_metrics_ := final_metrics_ t; expected_end_position_ := expected_end_position_ t;
               time_now_ := time_now_ t |}))
      | _ => throw (invalid_argument "Algorithm Type cannot be initiated on Amr Logical Agent.")
      end
  end.

Definition initAlgorithms (algorithm_types : list AlgorithmType) : M G unit :=
  s ← get;
  throw_if (negb (bool_decide (is_Some (description_ s)))) (runtime_error "Initialization not finished yet.");;
  for_each algorithm_types initAlgorithm.

Definition start (algorithm_types : list AlgorithmType) : M G unit := initAlgorithms algorithm_types.

(** The constructor; the topology is a placeholder. *)
Definition construct : outcome G :=
  topology ← Topo.construct {| dim_x := d_of_Z 50; dim_y := d_of_Z 20; dim_z := d_of_Z 0 |};
  mret {| description_ := None; agent_topology_ := topology; execution_state_ := Execution.initial;
          agent_task_management_ := None; algorithms_ := []; to_physical := []; forwarded := []; services := [] |}.

(** *** A participant adds a task to the task management it shares with the agent

    The callbacks that are called run on the agent. *)
Definition callbacks_called (before after : list string) : list string := drop (length before) after.

Definition addTask (task : Task) : M G bool :=
  s ← get;
  match agent_task_management_ s with
  | None => lift Undefined
  | Some (stn_management t) =>
      let (r, t') := StnTasks.addTask task None t in
      modify (set_management (stn_management t'));;
      added ← lift r;
      for_each (callbacks_called (called (stn_base t)) (called (stn_base t'))) (fun _ => notifyTaskAssigned);;
      mret added
  | Some (simple_management t) =>
      let (r, t') := Simple.addTask task t in
      modify (set_management (simple_management t'));;
      added ← lift r;
      for_each (callbacks_called (called (base t)) (called (base t'))) (fun _ => notifyTaskAssigned);;
      mret added
  end.
End Agent.
End Agent.

(** ** [MaterialFlowStateLogger] *)

(** The updates are taken by the scheduler of the material flow, which is set by then. *)
Definition process_MaterialFlowUpdate (u : MaterialFlowUpdate) : M (list Task) unit :=
  Scheduler.processOrderUpdate (mu_task u) (mu_order_index u) (mu_order_state u).
