(* ===== verification/VehicleProperties.v ===== *)
(** * Tasks between the agent, the vehicle and the material flow

    A vehicle whose tasks are queued is never told to start them; one with a temporal network
    starts its first task, which is undefined. Of a task with several orders only the last one is
    ever reported finished, so the material flow is not. *)

From Stdlib Require Import SpecFloat.
From S2P Require Import Prelude TreeMapper RouteCalculation Graph MaterialFlow Metrics Mobility MobilityProperties TaskManagement Auction AuctionParticipant StnTaskManagement TaskProperties Asset AssetProperties LogicalAgent.

Section VehicleProperties.
Context `{Ns3Vector}.

(** ** Queued tasks are not started *)

Lemma updateFinalMetrics_called s : called (base (Simple.updateFinalMetrics s).2) = called (base s).
Proof.
  unfold Simple.updateFinalMetrics. rewrite bind_get. unfold mbind, M_bind, lift.
  destruct (Metric.getMakespan _); [|done|done]. destruct (back _); [|done|done]. by destruct (Simple.metrics_of_orders _ _ _ _ _).
Qed.

(** No callback is called when a task is queued. *)
Lemma simple_addTask_called t s : called (base (Simple.addTask t s).2) = called (base s).
Proof.
  unfold Simple.addTask, throw_if, mbind, M_bind. case_bool_decide; cbn -[Simple.updateFinalMetrics Simple.final_location]; [done|].
  pose proof (updateFinalMetrics_called (Simple.set_tasks (active_task_ s) (queue_ s ++ [t]) s)) as Hc. cbn in Hc.
  destruct (Simple.updateFinalMetrics _) as [[[]| |] s'] eqn:E; cbn -[Simple.final_location] in *; [|done|done].
  by destruct (Simple.final_location (orders_ t)).
Qed.

(** Assigning tasks to a vehicle with the simple task management starts nothing. Whatever tasks are assigned to it one after
    the other, nothing is sent to its physical asset and the state of its execution stays as it is: the tasks, those that
    have an order, are only queued, because adding a task calls none of the callbacks registered for it. *)
Theorem queued_tasks_not_started tasks g t :
  agent_task_management_ g = Some (simple_management t) ->
  let g' := fold_left (fun g task => (Agent.addTask task g).2) tasks g in
  to_physical g' = to_physical g /\ execution_state_ g' = execution_state_ g /\
  exists t', agent_task_management_ g' = Some (simple_management t') /\
    queue_ t' = queue_ t ++ List.filter (fun task => negb (bool_decide (length (orders_ task) = 0%nat))) tasks.
Proof.
  revert g t. induction tasks as [|task tasks IH]; intros g t Hg; cbn [fold_left].
  - split; [done|]. split; [done|]. exists t. by rewrite app_nil_r.
  - assert (Hstep : let g1 := (Agent.addTask task g).2 in to_physical g1 = to_physical g /\
      execution_state_ g1 = execution_state_ g /\ agent_task_management_ g1 = Some (simple_management (Simple.addTask task t).2)).
    { unfold Agent.addTask. rewrite bind_get, Hg. pose proof (simple_addTask_called task t) as Hc.
      destruct (Simple.addTask task t) as [r t1]. cbn [snd] in Hc. rewrite bind_modify.
      unfold Agent.callbacks_called. rewrite Hc, drop_all. destruct r; by repeat split. }
    destruct Hstep as (Hp & He & Hm). destruct (IH _ _ Hm) as (Hp' & He' & t' & Hm' & Hq').
    split; [congruence|]. split; [congruence|]. exists t'. split; [done|]. rewrite Hq', addTask_queue, <- app_assoc. f_equal.
    cbn [List.filter]. case_bool_decide; [done|]. done.
Qed.

(** ** Only the last order is reported finished *)

(** What the agent forwards while it has the same task. *)
Definition update_of (uuid : string) (e : AmrLogicalExecutionState) : MaterialFlowUpdate := {|
  mu_amr_uuid := uuid;
  mu_order_state := if order_index_ e =? -1 then kFinished_ else order_state_ e;
  mu_task := es_task_ e;
  mu_order_index := u8 (if order_index_ e =? -1 then Z.of_nat (length (orders_ (es_task_ e))) - 1 else order_index_ e);
  mu_position := es_position_ e |}.
Fixpoint updates_of (uuid : string) (us : list AmrOrderUpdate) (e : AmrLogicalExecutionState) : list MaterialFlowUpdate :=
  match us with
  | [] => []
  | u :: us => let e := Execution.processAmrOrderUpdate u e in update_of uuid e :: updates_of uuid us e
  end.

Lemma processed_update_forwarded uuid u g :
  exists g1, (modify (fun g => Agent.set_execution (Execution.processAmrOrderUpdate u (execution_state_ g)) g);;
      Agent.forwardOrderUpdate uuid) g = (Ok tt, g1) /\
    forwarded g1 = forwarded g ++ [(connection_string_ (es_task_ (execution_state_ g)),
      update_of uuid (Execution.processAmrOrderUpdate u (execution_state_ g)))] /\
    Agent.processMessageAmrOrderUpdate uuid u g = Agent.checkSendingNextTaskToPhysical g1.
Proof.
  eexists. split; [unfold Agent.forwardOrderUpdate; rewrite bind_modify, bind_get; unfold Agent.forward, modify; reflexivity|].
  split; [|reflexivity]. cbn. do 3 f_equal.
  unfold Execution.processAmrOrderUpdate. by destruct (ou_state u).
Qed.

(** The agent is at the first order of a task, or done with it. *)
Definition at_task (t : Task) (e : AmrLogicalExecutionState) : Prop :=
  es_task_ e = t /\ (order_index_ e = -1 \/ order_index_ e = 0).

Lemma update_at_task uuid t u e :
  orders_ t <> [] -> at_task t e ->
  let e' := Execution.processAmrOrderUpdate u e in
  at_task t e' /\ mu_task (update_of uuid e') = t /\
  (mu_order_state (update_of uuid e') = kFinished_ ->
   mu_order_index (update_of uuid e') = u8 (Z.of_nat (length (orders_ t)) - 1)).
Proof.
  intros Hne [<- Hi]. destruct (decide (ou_state u = kFinished_)) as [Hu|Hu].
  - unfold Execution.processAmrOrderUpdate. rewrite Hu. unfold Execution.setNextOrder. cbn [es_task_ order_index_].
    assert (Hlast : (u64 (order_index_ e + 1) <=? Z.of_nat (length (orders_ (es_task_ e)))) = true).
    { apply Z.leb_le. assert (0 < length (orders_ (es_task_ e)))%nat by (by destruct (orders_ (es_task_ e)); [|cbn; lia]).
      destruct Hi as [-> | ->]; [change (u64 (-1 + 1)) with 0|change (u64 (0 + 1)) with 1]; lia. }
    rewrite Hlast. split; [split; [done|by left]|]. by split.
  - assert (E : Execution.processAmrOrderUpdate u e = {| es_position_ := ou_position u; es_amr_state_ := es_amr_state_ e;
      es_task_ := es_task_ e; order_index_ := order_index_ e; order_state_ := ou_state u;
      send_next_task_to_physical_ := send_next_task_to_physical_ e |}).
    { unfold Execution.processAmrOrderUpdate. by destruct (ou_state u). }
    cbn zeta. rewrite E. split; [by split|]. split; [done|]. unfold update_of. cbn. destruct Hi as [-> | ->]; cbn; [done|]. done.
Qed.

Lemma updates_at_task uuid t us e :
  orders_ t <> [] -> at_task t e ->
  Forall (fun m => mu_task m = t /\ (mu_order_state m = kFinished_ -> mu_order_index m = u8 (Z.of_nat (length (orders_ t)) - 1)))
    (updates_of uuid us e).
Proof.
  intros Hne. revert e. induction us as [|u us IH]; intros e He; cbn [updates_of]; constructor.
  - by apply (update_at_task uuid t u e).
  - apply IH. by apply (update_at_task uuid t u e).
Qed.

(** *** The scheduler of the material flow *)

Definition first_open (t : Task) : Prop :=
  exists o rest, orders_ t = transport_order o :: rest /\ to_state o <> kFinished_.

Lemma all_of_true {B} (p : B -> outcome bool) l x : Scheduler.all_of p l = Ok true -> x ∈ l -> p x = Ok true.
Proof.
  induction l as [|y l IH]; [by intros _ ?%elem_of_nil|]. cbn. destruct (p y) as [[]| |] eqn:E; [|done..].
  cbn. intros Hl [->|Hx]%elem_of_cons; [done|by apply IH].
Qed.

Lemma first_open_not_finished tasks t : t ∈ tasks -> first_open t -> Scheduler.isFinished tasks <> Ok true.
Proof.
  intros Ht (o & rest & Ho & Hst) Hf. unfold Scheduler.isFinished in Hf. apply (all_of_true _ _ _ Hf) in Ht.
  cbn beta in Ht. rewrite Ho in Ht. cbn in Ht. by destruct (to_state o).
Qed.

(** The task at an index, with its first order open, whose updates are taken there. *)
Definition tracked (t : Task) (tasks : list Task) : Prop :=
  exists i x, find_index (fun x => TaskOf.eqb x t) tasks = Some i /\ tasks !! i = Some x /\ uuid_ x = uuid_ t /\ first_open x.

Lemma find_index_insert {B} (p : B -> bool) l i x : find_index p l = Some i -> p x = true -> find_index p (<[i := x]> l) = Some i.
Proof.
  revert i. induction l as [|y l IH]; intros i; [done|]. cbn. destruct (p y) eqn:E; cbn.
  - intros [= <-] Hx. cbn. by rewrite Hx.
  - destruct (find_index p l) as [j|] eqn:Ej; [|done]. cbn. intros [= <-] Hx.
    change (find_index p (y :: <[j := x]> l) = Some (S j)). cbn [find_index]. by rewrite E, (IH j).
Qed.

Lemma update_tracked t tasks m tasks' :
  (2 <= length (orders_ t) <= 256)%nat -> tracked t tasks -> mu_task m = t ->
  (mu_order_state m = kFinished_ -> mu_order_index m = u8 (Z.of_nat (length (orders_ t)) - 1)) -> 0 <= mu_order_index m ->
  process_MaterialFlowUpdate m tasks = (Ok tt, tasks') -> tracked t tasks'.
Proof.
  intros Hlen (i & x & Hi & Hx & Hu & o & rest & Ho & Hst) Hm Hf Hpos. unfold process_MaterialFlowUpdate, Scheduler.processOrderUpdate.
  rewrite bind_get, Hm, Hi, bind_lift. unfold vec_at. rewrite Hx. unfold TaskOf.setOrderState. rewrite bind_get, Ho.
  destruct (decide (mu_order_index m = 0)) as [E0|E0].
  - rewrite E0. cbn -[find_index]. intros [= <-]. eexists i, _. split; [apply find_index_insert; [done|]|].
    + unfold TaskOf.eqb. cbn. by apply bool_decide_eq_true.
    + split; [by apply list_lookup_insert_eq; eapply lookup_lt_Some|]. split; [done|]. eexists _, rest. cbn. rewrite Ho. split; [done|]. cbn.
      intros Hfin. specialize (Hf Hfin). rewrite E0 in Hf. unfold u8 in Hf. rewrite Z.mod_small in Hf by lia. lia.
  - destruct ((transport_order o :: rest) !! Z.to_nat (mu_order_index m)) as [[]|]; try done.
    intros [= <-]. eexists i, _. split; [apply find_index_insert; [done|]|].
    + unfold TaskOf.eqb. cbn. by apply bool_decide_eq_true.
    + split; [by apply list_lookup_insert_eq; eapply lookup_lt_Some|]. split; [done|].
      destruct (Z.to_nat (mu_order_index m)) as [|k] eqn:Ek; [lia|]. eexists o, (<[k := _]> rest). cbn. by rewrite Ho.
Qed.

Lemma updates_tracked t ms tasks tasks' :
  (2 <= length (orders_ t) <= 256)%nat -> tracked t tasks ->
  Forall (fun m => mu_task m = t /\ (mu_order_state m = kFinished_ -> mu_order_index m = u8 (Z.of_nat (length (orders_ t)) - 1))) ms ->
  Forall (fun m => 0 <= mu_order_index m) ms ->
  for_each ms process_MaterialFlowUpdate tasks = (Ok tt, tasks') -> tracked t tasks'.
Proof.
  intros Hlen. revert tasks. induction ms as [|m ms IH]; intros tasks Ht Hf Hp; cbn [for_each]; [by intros [_ <-]%ret_Ok|].
  apply Forall_cons in Hf as [[Hm Hfin] Hf]. apply Forall_cons in Hp as [Hp0 Hp]. intros ([] & s1 & H1 & H2)%bind_Ok.
  eapply IH; [|done|done|exact H2]. by eapply update_tracked.
Qed.

Lemma updates_index uuid us e : Forall (fun m => 0 <= mu_order_index m) (updates_of uuid us e).
Proof.
  revert e. induction us as [|u us IH]; intros e; cbn [updates_of]; constructor; [|apply IH].
  unfold update_of. cbn. unfold u8. apply Z.mod_pos_bound. lia.
Qed.

(** A task of several orders is never finished for its material flow. From when the agent starts a task of two to 256
    orders, whatever its vehicle reports while it has the task, of the updates it forwards only those of the last order
    say that it is finished. So if the scheduler of the material flow, which finds the task under its UUID with the first
    order open (and no earlier task equal to it), takes them all without an exception, the first order is still open
    afterwards and the material flow is not finished. *)
Theorem long_tasks_never_finished uuid t us e tasks tasks' :
  (2 <= length (orders_ t) <= 256)%nat -> tracked t tasks ->
  for_each (updates_of uuid us (Execution.setNextTask t e)) process_MaterialFlowUpdate tasks = (Ok tt, tasks') ->
  Scheduler.isFinished tasks' <> Ok true.
Proof.
  intros Hlen Ht Hrun.
  assert (Hne : orders_ t <> []) by (intros E; rewrite E in Hlen; cbn in Hlen; lia).
  pose proof (updates_at_task uuid t us (Execution.setNextTask t e) Hne ltac:(split; [done|by right])) as Hf.
  destruct (updates_tracked t _ tasks tasks' Hlen Ht Hf (updates_index _ _ _) Hrun) as (i & x & _ & Hx & _ & Ho).
  eapply first_open_not_finished; [by eapply list_elem_of_lookup_2|done].
Qed.
End VehicleProperties.

(** ** A vehicle in the plane *)

#[local] Existing Instance plane.

Definition started_agent (a : AlgorithmType) : AmrLogicalAgent :=
  match Agent.construct with
  | Ok g => (Agent.processMessageAmrDescription "amr1" "amr1:1" "service1" sample_description;; Agent.start [a]) g
  | _ => (Undefined, {| description_ := None; agent_topology_ := sample_topology; execution_state_ := Execution.initial;
                        agent_task_management_ := None; algorithms_ := []; to_physical := []; forwarded := []; services := [] |})
  end.2.

Definition queue_of (g : AmrLogicalAgent) : SimpleTaskManagement :=
  match agent_task_management_ g with Some (simple_management t) => t | _ => sample_simple end.

Lemma queued_tasks_not_started_witness :
  let g := started_agent kRoundRobinParticipant in
  let g' := fold_left (fun g task => (Agent.addTask task g).2) [short_task; short_task] g in
  to_physical g' = [] /\ to_physical g' = to_physical g /\ execution_state_ g' = execution_state_ g /\
  exists t', agent_task_management_ g' = Some (simple_management t') /\
    queue_ t' = queue_ (queue_of g) ++ [short_task; short_task].
Proof.
  intros g g'. split; [vm_compute; reflexivity|].
  apply (queued_tasks_not_started [short_task; short_task] g (queue_of g)). vm_compute. reflexivity.
Defined.

(** With a temporal network the callback is called, and the first task is started, which is undefined. *)
Theorem first_task_undefined : (Agent.addTask short_task (started_agent kIteratedAuctionAssignmentParticipant)).1 = Undefined.
Proof. vm_compute. reflexivity. Qed.

(** *** Two orders *)

Definition two_orders : Task :=
  {| uuid_ := "two"; name_ := "two"; connection_string_ := "initiator"; orders_ := [transport_order two_pickups; transport_order one_pickup];
     follow_up_task_uuids_ := []; preceding_task_uuids_ := []; time_window_ := None;
     ability_requirement_ := ability_ (load_handling_ sample_description) |}.

(** The reports of the vehicle that carries out both orders ([AssetProperties]). *)
Definition vehicle_reports : list AmrOrderUpdate := order_updates (carried_out (orders_ two_orders)).2.
Definition states_of (t : Task) : list OrderStates :=
  omap (fun o => match o with transport_order o => Some (to_state o) | _ => None end) (orders_ t).
Definition scheduled_after : outcome unit * list Task :=
  for_each (updates_of "amr1" vehicle_reports (Execution.setNextTask two_orders Execution.initial)) process_MaterialFlowUpdate [two_orders].

Lemma scheduled_after_ok :
  for_each (updates_of "amr1" vehicle_reports (Execution.setNextTask two_orders Execution.initial)) process_MaterialFlowUpdate [two_orders] =
    (Ok tt, scheduled_after.2).
Proof. vm_compute. reflexivity. Qed.

Lemma long_tasks_never_finished_witness :
  last (ou_state <$> vehicle_reports) = Some kFinished_ /\ states_of <$> scheduled_after.2 = [[kUnloaded; kFinished_]] /\
  Scheduler.isFinished scheduled_after.2 <> Ok true.
Proof.
  split; [vm_compute; reflexivity|]. split; [vm_compute; reflexivity|].
  apply (long_tasks_never_finished "amr1" two_orders vehicle_reports Execution.initial [two_orders] scheduled_after.2).
  - cbn. lia.
  - exists 0%nat, two_orders. split; [vm_compute; reflexivity|]. split; [reflexivity|]. split; [reflexivity|].
    exists two_pickups, [transport_order one_pickup]. split; [reflexivity|discriminate].
  - exact scheduled_after_ok.
Defined.
