(* ===== verification/RoundRobin.v ===== *)
(** * Tasks given to the vehicles in turn

    Model of [centralized_initiator.cpp], [round_robin_initiator.cpp] and
    [centralized_participant.cpp] of [cpps/logical/algorithms/assignment], with the messages of
    [message/central_allocation]. Which of several equal elements is on top of a
    [std::priority_queue], the random numbers and the UUIDs are parameters, and so is the fleet.
    What is sent and what is scheduled is kept. *)

From Stdlib Require Import SpecFloat.
From S2P Require Import Prelude TreeMapper NodeData RouteCalculation MaterialFlow Metrics Mobility TaskManagement.

(** ** Messages *)

Record AssignmentNotification := { an_task : Task; an_initiator_connection : string }.
Record AssignmentResponse := {
  ar_task_uuid : string;
  ar_accept : bool;
  ar_metrics : Metrics;
  ar_end_position : Position;
  ar_participant_connection : string;
}.
Record StatusUpdate := { su_participant_connection : string; su_metrics : Metrics; su_end_position : Position }.
Record StatusUpdateRequest := { sr_initiator_connection : string }.

(** ** The initiator *)

Record ParticipantInfo := { pi_connection_string : string; pi_ability : AmrStaticAbility }.

(** Unsigned 32 bits *)
Record ParticipantInfoRoundRobin := { info : ParticipantInfo; assignment_counter : Z }.

(** The elements in the order in which they were pushed, and how often the queue was changed. *)
Record PriorityQueue := { elements : list ParticipantInfoRoundRobin; changes : nat }.

(** The index of the top of a queue, the random index below a bound, and the UUIDs drawn. *)
Class RoundRobinEnvironment := {
  top_index : nat -> list ParticipantInfoRoundRobin -> nat;
  random_index : nat -> nat -> nat;
  generate_uuid : nat -> string;
}.

(** What the library promises of them. *)
Class RoundRobinLaws `{RoundRobinEnvironment} := {
  top_index_minimal n l : l <> [] -> exists p, l !! top_index n l = Some p /\
    Forall (fun q => assignment_counter p <= assignment_counter q) l;
  random_index_below n k : (0 < k)%nat -> (random_index n k < k)%nat;
  generate_uuid_inj n m : generate_uuid n = generate_uuid m -> n = m;
}.

(** [FindResult]: the entries of every node that was found *)
Abbreviation FindResult := (list (list (string * Value * ValueType))).

Record RoundRobinInitiator := {
  amr_find_result_ : option FindResult;
  preparation_finished_ : bool;
  material_flows_ : list (list Task);
  assignment_acceptions_ : list AssignmentResponse;
  unallocated_tasks_per_mf_ : gmap string (list Task);
  participants_per_ability_ : list (AmrStaticAbility * PriorityQueue);
  assigned : list (string * AssignmentNotification);
  scheduled_checks : list Z;
  drawn : nat;
}.

Module Queue.
Section Queue.
Context `{RoundRobinEnvironment}.

Definition empty : PriorityQueue := {| elements := []; changes := 0 |}.
Definition top (q : PriorityQueue) : outcome ParticipantInfoRoundRobin :=
  match elements q with
  | [] => Undefined
  | l => vec_at l (top_index (changes q) l)
  end.
Definition pop (q : PriorityQueue) : outcome PriorityQueue :=
  match elements q with
  | [] => Undefined
  | l => Ok {| elements := base.delete (top_index (changes q) l) l; changes := S (changes q) |}
  end.
Definition push (p : ParticipantInfoRoundRobin) (q : PriorityQueue) : PriorityQueue :=
  {| elements := elements q ++ [p]; changes := S (changes q) |}.
End Queue.
End Queue.

(** [operator[]] of the map from abilities to queues: a missing queue is entered. *)
Module QueueMap.
Definition matches (ability : AmrStaticAbility) (e : AmrStaticAbility * PriorityQueue) : bool := Ability.eqb e.1 ability.
Definition at_ (ability : AmrStaticAbility) (m : list (AmrStaticAbility * PriorityQueue)) : PriorityQueue :=
  match List.find (matches ability) m with Some e => e.2 | None => Queue.empty end.
Fixpoint set (ability : AmrStaticAbility) (q : PriorityQueue) (m : list (AmrStaticAbility * PriorityQueue))
    : list (AmrStaticAbility * PriorityQueue) :=
  match m with
  | [] => [(ability, q)]
  | e :: m' => if matches ability e then (e.1, q) :: m' else e :: set ability q m'
  end.
End QueueMap.

Module RoundRobin.
Section RoundRobin.
Context `{RoundRobinEnvironment}.
Context {AmrKinematics : Type}.
(** The fleet, and the connection string of the agent. *)
Variables (fleet : list (AmrStaticAbility * AmrKinematics)) (connection_string : string).
Abbreviation R := RoundRobinInitiator.

Definition set_participants (m : list (AmrStaticAbility * PriorityQueue)) (s : R) : R :=
  {| amr_find_result_ := amr_find_result_ s; preparation_finished_ := preparation_finished_ s; material_flows_ := material_flows_ s;
     assignment_acceptions_ := assignment_acceptions_ s; unallocated_tasks_per_mf_ := unallocated_tasks_per_mf_ s;
     participants_per_ability_ := m; assigned := assigned s; scheduled_checks := scheduled_checks s; drawn := drawn s |}.
Definition set_prepared (r : option FindResult) (b : bool) (s : R) : R :=
  {| amr_find_result_ := r; preparation_finished_ := b; material_flows_ := material_flows_ s;
     assignment_acceptions_ := assignment_acceptions_ s; unallocated_tasks_per_mf_ := unallocated_tasks_per_mf_ s;
     participants_per_ability_ := participants_per_ability_ s; assigned := assigned s; scheduled_checks := scheduled_checks s;
     drawn := drawn s |}.
Definition set_material_flows (l : list (list Task)) (s : R) : R :=
  {| amr_find_result_ := amr_find_result_ s; preparation_finished_ := preparation_finished_ s; material_flows_ := l;
     assignment_acceptions_ := assignment_acceptions_ s; unallocated_tasks_per_mf_ := unallocated_tasks_per_mf_ s;
     participants_per_ability_ := participants_per_ability_ s; assigned := assigned s; scheduled_checks := scheduled_checks s;
     drawn := drawn s |}.
Definition set_acceptions (l : list AssignmentResponse) (s : R) : R :=
  {| amr_find_result_ := amr_find_result_ s; preparation_finished_ := preparation_finished_ s; material_flows_ := material_flows_ s;
     assignment_acceptions_ := l; unallocated_tasks_per_mf_ := unallocated_tasks_per_mf_ s;
     participants_per_ability_ := participants_per_ability_ s; assigned := assigned s; scheduled_checks := scheduled_checks s;
     drawn := drawn s |}.
Definition set_unallocated (m : gmap string (list Task)) (s : R) : R :=
  {| amr_find_result_ := amr_find_result_ s; preparation_finished_ := preparation_finished_ s; material_flows_ := material_flows_ s;
     assignment_acceptions_ := assignment_acceptions_ s; unallocated_tasks_per_mf_ := m;
     participants_per_ability_ := participants_per_ability_ s; assigned := assigned s; scheduled_checks := scheduled_checks s;
     drawn := drawn s |}.
Definition send (to : string) (n : AssignmentNotification) (s : R) : R :=
  {| amr_find_result_ := amr_find_result_ s; preparation_finished_ := preparation_finished_ s; material_flows_ := material_flows_ s;
     assignment_acceptions_ := assignment_acceptions_ s; unallocated_tasks_per_mf_ := unallocated_tasks_per_mf_ s;
     participants_per_ability_ := participants_per_ability_ s; assigned := assigned s ++ [(to, n)];
     scheduled_checks := scheduled_checks s; drawn := drawn s |}.
Definition schedule_check (index : Z) (s : R) : R :=
  {| amr_find_result_ := amr_find_result_ s; preparation_finished_ := preparation_finished_ s; material_flows_ := material_flows_ s;
     assignment_acceptions_ := assignment_acceptions_ s; unallocated_tasks_per_mf_ := unallocated_tasks_per_mf_ s;
     participants_per_ability_ := participants_per_ability_ s; assigned := assigned s;
     scheduled_checks := scheduled_checks s ++ [index]; drawn := drawn s |}.
Definition draw : M R nat := fun s =>
  (Ok (drawn s),
   {| amr_find_result_ := amr_find_result_ s; preparation_finished_ := preparation_finished_ s; material_flows_ := material_flows_ s;
      assignment_acceptions_ := assignment_acceptions_ s; unallocated_tasks_per_mf_ := unallocated_tasks_per_mf_ s;
      participants_per_ability_ := participants_per_ability_ s; assigned := assigned s;
      scheduled_checks := scheduled_checks s; drawn := Datatypes.S (drawn s) |}).

(** The constructor sends the request whose result is read later. *)
Definition construct (result : FindResult) : R :=
  {| amr_find_result_ := Some result; preparation_finished_ := false; material_flows_ := []; assignment_acceptions_ := [];
     unallocated_tasks_per_mf_ := ∅; participants_per_ability_ := []; assigned := []; scheduled_checks := []; drawn := 0 |}.

(** *** Participants *)

Definition isValid (i : ParticipantInfo) : bool :=
  negb (bool_decide (pi_connection_string i = EmptyString)) && Ability.isValid (pi_ability i).

Definition storeParticipant (i : ParticipantInfo) : M R unit :=
  modify (fun s =>
    let m := participants_per_ability_ s in
    set_participants (QueueMap.set (pi_ability i)
      (Queue.push {| info := i; assignment_counter := 0 |} (QueueMap.at_ (pi_ability i) m)) m) s).

(** What is known of a vehicle while the entries of its service are read; the payload is a [float] that starts with [-1]. *)
Record Reading := { r_info : ParticipantInfo; r_max_payload : float; r_load_carrier : LoadCarrier }.

(** The weight of an ability is not initialised; the load carrier says that the ability is not valid. *)
Definition no_ability : AmrStaticAbility := {| load_carrier_ := kNoLoadCarrierType; max_payload_weight_kg_ := S754_zero false |}.
Definition start_reading : Reading :=
  {| r_info := {| pi_connection_string := EmptyString; pi_ability := no_ability |};
     r_max_payload := f_of_Z (-1); r_load_carrier := kNoLoadCarrierType |}.

Definition get_string (v : Value) : outcome string :=
  match v with Value_string t => Ok t | _ => Throw bad_variant_access end.
Definition get_float (v : Value) : outcome float :=
  match v with Value_float f => Ok f | _ => Throw bad_variant_access end.

Definition read_key (key : string) (value : Value) (r : Reading) : outcome Reading :=
  if bool_decide (key = "endpoint"%string) then
    c ← get_string value;
    mret {| r_info := {| pi_connection_string := c; pi_ability := pi_ability (r_info r) |};
            r_max_payload := r_max_payload r; r_load_carrier := r_load_carrier r |}
  else if bool_decide (key = "loadcarriertype"%string) then
    name ← get_string value;
    carrier ← Carrier.getTypeFromString name;
    mret {| r_info := r_info r; r_max_payload := r_max_payload r; r_load_carrier := carrier |}
  else if bool_decide (key = "maxpayload"%string) then
    f ← get_float value;
    mret {| r_info := r_info r; r_max_payload := f; r_load_carrier := r_load_carrier r |}
  else mret r.

Definition read_entry (key : string) (value : Value) (r : Reading) : outcome Reading :=
  r ← read_key key value r;
  mret (if negb (SFeqb (r_max_payload r) (f_of_Z (-1))) && Carrier.isValid (r_load_carrier r)
        then {| r_info := {| pi_connection_string := pi_connection_string (r_info r);
                             pi_ability := {| load_carrier_ := r_load_carrier r; max_payload_weight_kg_ := r_max_payload r |} |};
                r_max_payload := r_max_payload r; r_load_carrier := r_load_carrier r |}
        else r).

Fixpoint read_entries (entries : list (string * Value * ValueType)) (r : Reading) : outcome Reading :=
  match entries with
  | [] => mret r
  | (key, value, _) :: rest => r ← read_entry key value r; read_entries rest r
  end.

Definition readAmrRequestFuture : M R unit :=
  s ← get;
  match amr_find_result_ s with
  | None => lift Undefined
  | Some results =>
      modify (set_prepared None false);;
      for_each results (fun result =>
        r ← lift (read_entries result start_reading);
        throw_if (negb (isValid (r_info r))) (runtime_error "The AMR's ability and connection string should be known.");;
        storeParticipant (r_info r));;
      modify (set_prepared None true)
  end.

(** *** The choice of a participant *)

(** The loop over the abilities *)
Fixpoint possible_candidates (abilities : list AmrStaticAbility) (m : list (AmrStaticAbility * PriorityQueue))
    (candidates : list ParticipantInfoRoundRobin) : outcome (list ParticipantInfoRoundRobin) :=
  match abilities with
  | [] => mret candidates
  | ability :: rest =>
      first_participant ← Queue.top (QueueMap.at_ ability m);
      possible_candidates rest m
        (match candidates with
         | [] => [first_participant]
         | c :: _ =>
             if assignment_counter first_participant <? assignment_counter c then [first_participant]
             else if assignment_counter first_participant <=? assignment_counter c then candidates ++ [first_participant]
             else candidates
         end)
  end.

Definition chooseParticipantForTask (task : Task) : M R ParticipantInfoRoundRobin :=
  let fitting_abilities := Fleet.getFittingExistingAbilities fleet (ability_requirement_ task) in
  throw_if (match fitting_abilities with [] => true | _ => false end)
    (runtime_error "The task requirements cannot be met by any participant.");;
  s ← get;
  candidates ← lift (possible_candidates fitting_abilities (participants_per_ability_ s) []);
  throw_if (match candidates with [] => true | _ => false end) (runtime_error "No AMR matches the task requirements");;
  n ← draw;
  match candidates !! random_index n (length candidates) with
  | Some p => mret p
  | None => throw (out_of_range "vector::_M_range_check")
  end.

Definition assignTask (task : Task) : M R unit :=
  chosen_participant ← chooseParticipantForTask task;
  let i := info chosen_participant in
  modify (send (pi_connection_string i) {| an_task := task; an_initiator_connection := connection_string |});;
  let chosen_participant := {| info := i; assignment_counter := u32 (assignment_counter chosen_participant + 1) |} in
  s ← get;
  q ← lift (Queue.pop (QueueMap.at_ (pi_ability i) (participants_per_ability_ s)));
  modify (fun s => set_participants
    (QueueMap.set (pi_ability i) (Queue.push chosen_participant q) (participants_per_ability_ s)) s).

(** *** The tasks *)

Definition location_at (px py : Z) : Location :=
  {| loc_id := "0x0"; loc_type := "type"; loc_position := {| x := d_of_Z px; y := d_of_Z py |} |}.
Definition step_at (name : string) (px py : Z) : OrderStep :=
  {| step_name := name; step_parameters := []; step_location := location_at px py |}.

(** A transport order with one pickup, and a task with it; both draw a UUID. *)
Definition task_of (name : string) (pickup delivery : OrderStep) (ability : AmrStaticAbility) : M R Task :=
  order_id ← draw;
  task_id ← draw;
  task ← lift (TaskOf.construct (generate_uuid task_id) name connection_string
    [transport_order {| to_state := kInvalid; to_uuid := generate_uuid order_id; pickup_transport_order_steps := [pickup];
                        delivery_transport_order_step := delivery |}] []);
  mret (TaskOf.setAbilityRequirement ability task).

Definition hardcoded_tasks : M R (list Task) :=
  let pickup1 := step_at "tos11" 10 10 in
  let delivery1 := step_at "tos12" 10 20 in
  let pickup2 := step_at "tos21" 20 10 in
  let delivery2 := step_at "tos22" 10 20 in
  let pickup3 := step_at "tos31" 10 20 in
  let delivery3 := step_at "tos32" 5 5 in
  let pickup4 := step_at "tos41" 0 10 in
  let delivery4 := step_at "tos42" 15 15 in
  let ability1 := {| load_carrier_ := kPackage; max_payload_weight_kg_ := f_of_Z 20 |} in
  let ability2 := {| load_carrier_ := kEuroBox; max_payload_weight_kg_ := f_of_Z 20 |} in
  let ability3 := {| load_carrier_ := kPackage; max_payload_weight_kg_ := f_of_Z 40 |} in
  task1 ← task_of "task1" pickup1 delivery1 ability1;
  task2 ← task_of "task2" pickup2 delivery2 ability2;
  task3 ← task_of "task3" pickup3 delivery3 ability3;
  task4 ← task_of "task4" pickup4 delivery4 ability3;
  task5 ← task_of "task5" pickup2 delivery4 ability1;
  task6 ← task_of "task6" pickup1 delivery1 ability3;
  task7 ← task_of "task7" pickup3 delivery2 ability1;
  mret [task1; task2; task3; task4; task5; task6; task7].

Definition mf_id : string := "test_id".

(** [operator[]] enters a missing entry. *)
Definition unallocated : M R (list Task) :=
  modify (fun s => set_unallocated (partial_alter (fun o => Some (default [] o)) mf_id (unallocated_tasks_per_mf_ s)) s);;
  s ← get;
  mret (default [] (unallocated_tasks_per_mf_ s !! mf_id)).

Definition distributeMFTasks (index : Z) (previously_allocated : bool) : M R unit :=
  new_tasks ← hardcoded_tasks;
  tasks ← (if previously_allocated then unallocated
           else modify (fun s => set_unallocated (<[mf_id := new_tasks]> (unallocated_tasks_per_mf_ s)) s);; mret new_tasks);
  for_each tasks assignTask;;
  modify (schedule_check index).

Definition addMaterialFlow (scheduler : list Task) : M R unit :=
  s ← get;
  (if negb (preparation_finished_ s) then
     throw_if (bool_decide (amr_find_result_ s = None)) (runtime_error "Future is not ready yet but required.");;
     readAmrRequestFuture
   else mret tt);;
  modify (fun s => set_material_flows (material_flows_ s ++ [scheduler]) s);;
  s ← get;
  distributeMFTasks (u32 (Z.of_nat (length (material_flows_ s)) - 1)) false.

(** *** The answers *)

Definition process_AssignmentResponse (r : AssignmentResponse) : M R bool :=
  (if ar_accept r then modify (fun s => set_acceptions (assignment_acceptions_ s ++ [r]) s)
   else throw (logic_error "The AMR should always accept the task assignment!"));;
  mret true.

Definition process_StatusUpdate (u : StatusUpdate) : M R bool := mret true.

(** [find_if] and [erase]; the assertion says that the task is there. *)
Fixpoint erase_task (uuid : string) (tasks : list Task) : outcome (list Task) :=
  match tasks with
  | [] => Undefined
  | t :: rest => if bool_decide (uuid_ t = uuid) then mret rest else rest ← erase_task uuid rest; mret (t :: rest)
  end.
Fixpoint erase_accepted (uuids : list string) (tasks : list Task) : outcome (list Task) :=
  match uuids with
  | [] => mret tasks
  | uuid :: rest => tasks ← erase_task uuid tasks; erase_accepted rest tasks
  end.

Definition processAssignmentAcceptions (index : Z) : M R unit :=
  distributed_tasks ← unallocated;
  s ← get;
  left_over ← lift (erase_accepted (ar_task_uuid <$> assignment_acceptions_ s) distributed_tasks);
  match left_over with
  | [] => mret tt
  | _ => distributeMFTasks index true
  end.
End RoundRobin.
End RoundRobin.

(** ** The participant

    It shares its task management with the agent of the vehicle; what it sends is returned. *)
Module Centralized.
Section Centralized.
Context `{Ns3Vector}.
Variable connection_string : string.

Definition process_AssignmentNotification (n : AssignmentNotification) : M SimpleTaskManagement (string * AssignmentResponse) :=
  can ← Simple.canAddTask (an_task n);
  (if can : bool then Simple.addTask (an_task n);; mret tt
   else throw (runtime_error "The task management should always accept the assigned task."));;
  s ← get;
  end_position ← lift (Simple.getExpectedEndPosition s);
  mret (an_initiator_connection n,
        {| ar_task_uuid := uuid_ (an_task n); ar_accept := true; ar_metrics := Simple.getFinalMetrics s;
           ar_end_position := end_position; ar_participant_connection := connection_string |}).

Definition process_StatusUpdateRequest (r : StatusUpdateRequest) : M SimpleTaskManagement (string * StatusUpdate) :=
  s ← get;
  end_position ← lift (Simple.getExpectedEndPosition s);
  mret (sr_initiator_connection r,
        {| su_participant_connection := connection_string; su_metrics := Simple.getFinalMetrics s; su_end_position := end_position |}).
End Centralized.
End Centralized.
