(* ===== verification/RoundRobinProperties.v ===== *)
(** * Theorems on tasks given in turn

    The vehicle that is chosen has been given the fewest tasks of all that can do the task; the
    vehicles of an ability share the tasks evenly; an answer that is missing starts the whole
    distribution over, after which the answers do not fit any more. *)

From Stdlib Require Import SpecFloat.
From S2P Require Import Prelude TreeMapper NodeData RouteCalculation MaterialFlow Metrics Mobility TaskManagement TaskProperties RoundRobin.

(** ** Abilities and queues *)

(** On valid abilities [operator==] is equality. *)
Lemma valid_ability_eq a b : Ability.isValid a = true -> Ability.eqb a b = true -> a = b.
Proof.
  destruct a as [ca wa], b as [cb wb]. unfold Ability.isValid, Ability.eqb, Carrier.eqb. cbn.
  intros [_ Hw]%andb_prop [->%bool_decide_eq_true He]%andb_prop. f_equal.
  assert (Ha : is_nan wa = false) by (by destruct wa as [[]|[]| |[]]).
  assert (Hb : is_nan wb = false) by (by destruct wa as [[]|[]| |[]], wb as [[]|[]| |[]]).
  apply (d_eq_key wa wb Ha Hb) in He.
  destruct wa as [[]|[]| |[] m e], wb as [[]|[]| |[] m' e']; cbn in He, Hw; try done.
  injection He as ? ?. subst. by f_equal.
Qed.

Lemma valid_ability_refl a : Ability.isValid a = true -> Ability.eqb a a = true.
Proof.
  destruct a as [ca wa]. unfold Ability.isValid, Ability.eqb, Carrier.eqb. cbn. intros [_ Hw]%andb_prop.
  rewrite bool_decide_eq_true_2 by done. cbn.
  assert (Ha : is_nan wa = false) by (by destruct wa as [[]|[]| |[]]). by apply (d_eq_key wa wa Ha Ha).
Qed.

Abbreviation Queues := (list (AmrStaticAbility * PriorityQueue)).

Definition valid_keys (m : Queues) : Prop := Forall (fun e => Ability.isValid e.1 = true) m.

Lemma at_cons k q (m : Queues) a : QueueMap.at_ a ((k, q) :: m) = if Ability.eqb k a then q else QueueMap.at_ a m.
Proof. unfold QueueMap.at_, QueueMap.matches. cbn. by destruct (Ability.eqb k a). Qed.

Lemma set_cons k q (m : Queues) a q' :
  QueueMap.set a q' ((k, q) :: m) = if Ability.eqb k a then (k, q') :: m else (k, q) :: QueueMap.set a q' m.
Proof. done. Qed.

(** The queue of an ability is the first with it; changing it leaves the others. *)
Lemma queue_split (ability : AmrStaticAbility) (m : Queues) :
  valid_keys m -> elements (QueueMap.at_ ability m) <> [] ->
  exists m1 m2, m = m1 ++ (ability, QueueMap.at_ ability m) :: m2 /\ Ability.isValid ability = true /\
    forall q, QueueMap.set ability q m = m1 ++ (ability, q) :: m2 /\ QueueMap.at_ ability (m1 ++ (ability, q) :: m2) = q.
Proof.
  induction m as [|[k q] m IH]; intros Hv; [done|]. inversion Hv as [|? ? Hk Hm]; subst. cbn in Hk.
  rewrite at_cons. destruct (Ability.eqb k ability) eqn:E; intros Hq.
  - apply (valid_ability_eq _ _ Hk) in E as ->. exists [], m. split_and!; [done|done|]. intros q'. cbn [app].
    by rewrite set_cons, at_cons, valid_ability_refl.
  - destruct (IH Hm Hq) as (m1 & m2 & Em & Ha & Hset). exists ((k, q) :: m1), m2. split_and!; [cbn; by f_equal|done|].
    intros q'. destruct (Hset q') as [Hs Hat]. cbn [app]. by rewrite set_cons, at_cons, E, Hs.
Qed.

Lemma at_app_ne (a b : AmrStaticAbility) q q' (m1 m2 : Queues) :
  Ability.eqb b a = false -> QueueMap.at_ a (m1 ++ (b, q) :: m2) = QueueMap.at_ a (m1 ++ (b, q') :: m2).
Proof.
  intros Hb. induction m1 as [|[k r] m1 IH]; cbn [app]; rewrite !at_cons; [by rewrite Hb|by rewrite IH].
Qed.

Section Laws.
Context `{RoundRobinEnvironment, !RoundRobinLaws}.

Lemma top_Ok q : elements q <> [] -> exists p, Queue.top q = Ok p /\ p ∈ elements q /\
  Forall (fun p' => assignment_counter p <= assignment_counter p') (elements q) /\
  exists rest, elements q ≡ₚ p :: rest /\
    Queue.pop q = Ok {| elements := base.delete (top_index (changes q) (elements q)) (elements q); changes := Datatypes.S (changes q) |} /\
    base.delete (top_index (changes q) (elements q)) (elements q) ≡ₚ rest.
Proof.
  intros Hq. destruct (top_index_minimal (changes q) (elements q) Hq) as (p & Hp & Hmin).
  exists p. unfold Queue.top, Queue.pop, vec_at. destruct (elements q) as [|p0 l] eqn:El; [done|]. rewrite <- El in *.
  rewrite Hp. split_and!; [done|by eapply list_elem_of_lookup_2|done|].
  exists (base.delete (top_index (changes q) (elements q)) (elements q)). split_and!; [|done|done].
  by apply delete_Permutation.
Qed.

(** ** The candidates *)

Lemma candidates_least abilities m candidates c :
  (forall p, p ∈ candidates -> assignment_counter p = c) ->
  (forall a, a ∈ abilities -> elements (QueueMap.at_ a m) <> []) ->
  exists l c', RoundRobin.possible_candidates abilities m candidates = Ok l /\
    (forall p, p ∈ l -> assignment_counter p = c') /\ (candidates <> [] -> c' <= c) /\
    (candidates <> [] \/ abilities <> [] -> l <> []) /\
    (forall p, p ∈ l -> p ∈ candidates \/ exists a, a ∈ abilities /\ Queue.top (QueueMap.at_ a m) = Ok p) /\
    (forall a p, a ∈ abilities -> p ∈ elements (QueueMap.at_ a m) -> c' <= assignment_counter p).
Proof.
  revert candidates c. induction abilities as [|a abilities IH]; intros candidates c Hc Hne.
  { exists candidates, c. cbn. split_and!; try done; [tauto|auto|set_solver]. }
  cbn [RoundRobin.possible_candidates].
  destruct (top_Ok (QueueMap.at_ a m)) as (t & Ht & _ & Hmin & _); [apply Hne; set_solver|]. rewrite Ht. mred.
  rewrite Forall_forall in Hmin.
  set (next := match candidates with [] => [t] | c0 :: _ => _ end).
  assert (Hnext : exists c1, (forall p, p ∈ next -> assignment_counter p = c1) /\ (candidates <> [] -> c1 <= c) /\
    next <> [] /\ c1 <= assignment_counter t /\ forall p, p ∈ next -> p ∈ candidates \/ p = t).
  { unfold next. destruct candidates as [|c0 cs].
    - exists (assignment_counter t). split_and!; try done; [set_solver|set_solver].
    - assert (Hc0 : assignment_counter c0 = c) by (apply Hc; set_solver). rewrite Hc0.
      destruct (Z.ltb_spec (assignment_counter t) c); [|destruct (Z.leb_spec (assignment_counter t) c)].
      + exists (assignment_counter t). split_and!; [set_solver|lia|done|lia|set_solver].
      + exists c. split_and!; [|lia|done|lia|set_solver].
        intros p [Hp|Hp]%elem_of_app; [by apply Hc|]. assert (p = t) as -> by set_solver. lia.
      + exists c. split_and!; [done|lia|done|lia|set_solver]. }
  destruct Hnext as (c1 & Hc1 & Hle & Hn & Ht1 & Hin).
  destruct (IH next c1 Hc1) as (l & c' & El & Hc' & Hle' & Hl & Hfrom & Hmin'); [set_solver|].
  exists l, c'. split_and!; [done|done|intros Hcs; specialize (Hle Hcs); specialize (Hle' Hn); lia|by auto| |].
  - intros p Hp. destruct (Hfrom p Hp) as [Hpn|(a' & Ha' & Htop)]; [|right; exists a'; set_solver].
    destruct (Hin p Hpn) as [?| ->]; [by left|right; exists a; set_solver].
  - intros a' p [->|Ha']%elem_of_cons Hp; [|by apply (Hmin' a')]. specialize (Hmin p Hp). specialize (Hle' Hn). lia.
Qed.
End Laws.

(** ** One assignment *)

Definition one_more (p : ParticipantInfoRoundRobin) : ParticipantInfoRoundRobin :=
  {| info := info p; assignment_counter := u32 (assignment_counter p + 1) |}.

(** The participants are where their ability says. *)
Definition placed (m : Queues) : Prop :=
  valid_keys m /\ forall a q p, (a, q) ∈ m -> p ∈ elements q -> pi_ability (info p) = a.

Section Assignment.
Context `{RoundRobinEnvironment}.
Context {AmrKinematics : Type}.
Variables (fleet : list (AmrStaticAbility * AmrKinematics)) (connection_string : string).
Abbreviation assignTask := (RoundRobin.assignTask fleet connection_string).

Definition fitting (task : Task) : list AmrStaticAbility :=
  Fleet.getFittingExistingAbilities fleet (ability_requirement_ task).

(** There are abilities that fit, and a vehicle with each. *)
Definition served (m : Queues) (task : Task) : Prop :=
  fitting task <> [] /\ forall a, a ∈ fitting task -> elements (QueueMap.at_ a m) <> [].

Lemma assignTask_step `{!RoundRobinLaws} task s :
  let m := participants_per_ability_ s in
  placed m -> served m task ->
  exists ability p rest m1 m2 q', ability ∈ fitting task /\
    let q := QueueMap.at_ ability m in
    m = m1 ++ (ability, q) :: m2 /\ elements q ≡ₚ p :: rest /\ elements q' ≡ₚ one_more p :: rest /\
    QueueMap.at_ ability (m1 ++ (ability, q') :: m2) = q' /\
    (forall a p', a ∈ fitting task -> p' ∈ elements (QueueMap.at_ a m) -> assignment_counter p <= assignment_counter p') /\
    assignTask task s =
      (Ok tt, RoundRobin.set_participants (m1 ++ (ability, q') :: m2)
        (RoundRobin.send (pi_connection_string (info p)) {| an_task := task; an_initiator_connection := connection_string |}
          (RoundRobin.draw s).2)).
Proof.
  intros m [Hkeys Hplaced] [Hfit Hserved].
  destruct (candidates_least (fitting task) m [] 0) as (l & c & El & Hc & _ & Hne & Hfrom & Hmin); [set_solver|done|].
  assert (Hl : l <> []) by auto. clear Hne.
  assert (Hlen : (random_index (drawn s) (length l) < length l)%nat) by (apply random_index_below; destruct l; [done|cbn; lia]).
  apply lookup_lt_is_Some_2 in Hlen as [p Hp].
  destruct (Hfrom p) as [?|(ability & Ha & Htop)]; [by eapply list_elem_of_lookup_2|set_solver|].
  destruct (top_Ok (QueueMap.at_ ability m)) as (t & Ht & Htq & _ & rest & Hperm & Hpop & Hrest); [by auto|].
  rewrite Htop in Ht. injection Ht as <-.
  destruct (queue_split ability m Hkeys) as (m1 & m2 & Em & _ & Hset); [by auto|].
  assert (Hability : pi_ability (info p) = ability).
  { apply (Hplaced ability (QueueMap.at_ ability m)); [|done]. rewrite Em at 2. set_solver. }
  destruct (Queue.pop (QueueMap.at_ ability m)) as [q1| |] eqn:Epop; [|done|done]. injection Hpop as Eq1.
  exists ability, p, rest, m1, m2, (Queue.push (one_more p) q1). split; [done|]. cbn zeta.
  split_and!; [exact Em|exact Hperm| |exact (proj2 (Hset _))| |].
  - cbn [Queue.push elements]. rewrite Eq1. cbn [elements]. rewrite <- Hrest. by rewrite <- Permutation_cons_append.
  - intros a p' Hin Hp'. rewrite (Hc p) by (by eapply list_elem_of_lookup_2). by apply (Hmin a).
  - unfold RoundRobin.assignTask, RoundRobin.chooseParticipantForTask. mred.
    change (Fleet.getFittingExistingAbilities fleet (ability_requirement_ task)) with (fitting task).
    destruct (fitting task) as [|f fs] eqn:Ef; [done|]. rewrite <- Ef in *. fold m. rewrite El. mred.
    destruct l as [|l0 l'] eqn:Ecand; [done|]. rewrite <- Ecand in *. cbn [RoundRobin.draw]. rewrite Hp. cbn.
    fold m. rewrite Hability, Epop. cbn. fold m. by rewrite (proj1 (Hset _)).
Qed.

(** As long as there is a vehicle for every ability that fits the task, and all are stored
    under their abilities (with a priority queue that has a least element on top and a random
    index in range), [assignTask] sends the task to exactly one vehicle, whose ability fits and which has been given the fewest
    tasks of all vehicles with a fitting ability. Its counter goes up by one and the other
    vehicles keep theirs; the answers, the tasks of the material flow and what is scheduled
    are not touched. If no ability fits, it throws without a change. *)
Theorem assignTask_takes_least_used `{!RoundRobinLaws} task s :
  placed (participants_per_ability_ s) ->
  (fitting task = [] ->
   assignTask task s = (Throw (runtime_error "The task requirements cannot be met by any participant."), s)) /\
  (served (participants_per_ability_ s) task -> exists s' p ability rest m1 m2 q q',
     assignTask task s = (Ok tt, s') /\
     assigned s' = assigned s ++
       [(pi_connection_string (info p), {| an_task := task; an_initiator_connection := connection_string |})] /\
     participants_per_ability_ s = m1 ++ (ability, q) :: m2 /\ participants_per_ability_ s' = m1 ++ (ability, q') :: m2 /\
     Ability.le (ability_requirement_ task) ability = true /\
     elements q ≡ₚ p :: rest /\ elements q' ≡ₚ one_more p :: rest /\
     (forall a p', a ∈ fitting task -> p' ∈ elements (QueueMap.at_ a (participants_per_ability_ s)) ->
        assignment_counter p <= assignment_counter p') /\
     assignment_acceptions_ s' = assignment_acceptions_ s /\
     unallocated_tasks_per_mf_ s' = unallocated_tasks_per_mf_ s /\ scheduled_checks s' = scheduled_checks s).
Proof.
  intros Hp. split.
  - intros Hf. unfold RoundRobin.assignTask, RoundRobin.chooseParticipantForTask. mred. unfold fitting in Hf. by rewrite Hf.
  - intros Hs. destruct (assignTask_step task s Hp Hs) as (ability & p & rest & m1 & m2 & q' & Ha & Em & Hq & Hq' & _ & Hmin & E).
    eexists _, p, ability, rest, m1, m2, _, q'. split; [exact E|]. split_and!; try done.
    unfold fitting, Fleet.getFittingExistingAbilities in Ha. by apply list_elem_of_In, filter_In in Ha as [_ Ha].
Qed.
End Assignment.

(** ** Fairness *)

(** The tasks given to the participants whose connection is in a set: as counted, and as sent. *)
Definition queue_weight (P : string -> bool) (l : list ParticipantInfoRoundRobin) : Z :=
  foldr (fun p n => (if P (pi_connection_string (info p)) then assignment_counter p else 0) + n) 0 l.
Definition weight (P : string -> bool) (m : Queues) : Z := foldr (fun e n => queue_weight P (elements e.2) + n) 0 m.
Definition sent_to (P : string -> bool) (l : list (string * AssignmentNotification)) : Z :=
  Z.of_nat (length (List.filter (fun e => P e.1) l)).

#[global] Instance queue_weight_perm P : Proper ((≡ₚ) ==> eq) (queue_weight P).
Proof. unfold queue_weight. intros l k Hlk. induction Hlk; cbn [foldr]; lia. Qed.

Lemma queue_weight_cons P p l : queue_weight P (p :: l) = (if P (pi_connection_string (info p)) then assignment_counter p else 0) + queue_weight P l.
Proof. done. Qed.
Lemma weight_cons P e m : weight P (e :: m) = queue_weight P (elements e.2) + weight P m.
Proof. done. Qed.
Lemma queue_weight_app P l k : queue_weight P (l ++ k) = queue_weight P l + queue_weight P k.
Proof. unfold queue_weight. induction l; cbn [foldr app]; lia. Qed.
Lemma weight_app P m m' : weight P (m ++ m') = weight P m + weight P m'.
Proof. unfold weight. induction m; cbn [foldr app]; lia. Qed.
Lemma sent_to_snoc P l e : sent_to P (l ++ [e]) = sent_to P l + (if P e.1 then 1 else 0).
Proof. unfold sent_to. rewrite List.filter_app, length_app. cbn. destruct (P e.1); cbn; lia. Qed.

Definition nonneg (m : Queues) : Prop := forall a q p, (a, q) ∈ m -> p ∈ elements q -> 0 <= assignment_counter p.
Definition balanced (m : Queues) : Prop := forall a q p p', (a, q) ∈ m -> p ∈ elements q -> p' ∈ elements q ->
  assignment_counter p <= assignment_counter p' + 1.

Lemma queue_weight_nonneg l : (forall p', p' ∈ l -> 0 <= assignment_counter p') -> 0 <= queue_weight (fun _ => true) l.
Proof.
  induction l as [|p l IH]; intros Hl; [done|]. rewrite queue_weight_cons.
  pose proof (Hl p ltac:(set_solver)). specialize (IH ltac:(set_solver)). lia.
Qed.

Lemma weight_nonneg m : nonneg m -> 0 <= weight (fun _ => true) m.
Proof.
  induction m as [|[a q] m IH]; intros Hn; [done|]. rewrite weight_cons. cbn [snd].
  pose proof (queue_weight_nonneg (elements q) ltac:(intros p; apply (Hn a q); set_solver)).
  assert (nonneg m) as Hm by (intros b r p ?; apply (Hn b r); set_solver). specialize (IH Hm). lia.
Qed.

Lemma weight_bound m a q p :
  nonneg m -> (a, q) ∈ m -> p ∈ elements q -> assignment_counter p <= weight (fun _ => true) m.
Proof.
  intros Hn Hq Hp. apply list_elem_of_split in Hq as (m1 & m2 & ->). rewrite weight_app, weight_cons. cbn [snd].
  pose proof (weight_nonneg m1 ltac:(intros b r p' ?; apply (Hn b r); set_solver)).
  pose proof (weight_nonneg m2 ltac:(intros b r p' ?; apply (Hn b r); set_solver)).
  assert (Hnq : forall p', p' ∈ elements q -> 0 <= assignment_counter p') by (intros p'; apply (Hn a q); set_solver).
  apply list_elem_of_split in Hp as (l1 & l2 & El). rewrite El in *. rewrite queue_weight_app, queue_weight_cons.
  pose proof (queue_weight_nonneg l1 ltac:(set_solver)). pose proof (queue_weight_nonneg l2 ltac:(set_solver)). lia.
Qed.

Record good (s : RoundRobinInitiator) : Prop := {
  good_placed : placed (participants_per_ability_ s);
  good_nonneg : nonneg (participants_per_ability_ s);
  good_balanced : balanced (participants_per_ability_ s);
  good_weight P : weight P (participants_per_ability_ s) = sent_to P (assigned s);
}.

(** A queue whose least used participant gets a task. *)
Lemma good_assigned s s' a q q' p rest m1 m2 n :
  good s -> Z.of_nat (length (assigned s')) < 2 ^ 32 ->
  participants_per_ability_ s = m1 ++ (a, q) :: m2 -> participants_per_ability_ s' = m1 ++ (a, q') :: m2 ->
  assigned s' = assigned s ++ [(pi_connection_string (info p), n)] ->
  elements q ≡ₚ p :: rest -> elements q' ≡ₚ one_more p :: rest ->
  (forall p', p' ∈ elements q -> assignment_counter p <= assignment_counter p') -> good s'.
Proof.
  intros [[Hkeys Hpl] Hn Hb Hw] Hlen Em Em' Es Hq Hq' Hmin.
  assert (Hin : (a, q) ∈ participants_per_ability_ s) by (rewrite Em; set_solver).
  assert (Hp : p ∈ elements q) by (rewrite Hq; set_solver).
  assert (Hc : u32 (assignment_counter p + 1) = assignment_counter p + 1).
  { apply u32_id. pose proof (Hn a q p Hin Hp). pose proof (weight_bound _ _ _ _ Hn Hin Hp) as Hwb. rewrite Hw in Hwb.
    unfold sent_to in Hwb. rewrite Es, length_app in Hlen. cbn in Hlen.
    pose proof (List.filter_length_le (fun e : string * AssignmentNotification => true) (assigned s)). unfold in_u32. lia. }
  assert (Hnew : forall p', p' ∈ elements q' -> p' = one_more p \/ p' ∈ elements q).
  { intros p'. rewrite Hq', Hq. set_solver. }
  assert (Hold : forall b r, (b, r) ∈ participants_per_ability_ s' -> (b, r) = (a, q') \/ (b, r) ∈ participants_per_ability_ s).
  { intros b r. rewrite Em, Em'. set_solver. }
  split.
  - split.
    + unfold valid_keys in *. rewrite Em' in *. rewrite Em in Hkeys. apply Forall_app in Hkeys as [? Hk]. inversion Hk; subst.
      apply Forall_app; split; [done|]. by constructor.
    + intros b r p' [[= -> ->]|Hr]%Hold; [|by apply Hpl].
      intros [->|Hp']%Hnew; [by apply (Hpl a q p)|by apply (Hpl a q)].
  - intros b r p' [[= -> ->]|Hr]%Hold; [|by apply (Hn b r)].
    intros [->|Hp']%Hnew; [|by apply (Hn a q)]. cbn. rewrite Hc. pose proof (Hn a q p Hin Hp). lia.
  - intros b r p1 p2 [[= -> ->]|Hr]%Hold; [|by apply (Hb b r)].
    intros [->|H1]%Hnew [->|H2]%Hnew; cbn; rewrite ?Hc.
    + lia.
    + specialize (Hmin p2 H2). lia.
    + pose proof (Hb a q p1 p Hin H1 Hp). lia.
    + by apply (Hb a q).
  - intros P. rewrite Es, sent_to_snoc, <- Hw, Em, Em', !weight_app, !weight_cons. cbn [snd fst].
    rewrite Hq, Hq', !queue_weight_cons. cbn [one_more info assignment_counter].
    destruct (P _); rewrite ?Hc; lia.
Qed.

(** ** Runs *)

Definition holds_after {A} (I : RoundRobinInitiator -> Prop) (m : M RoundRobinInitiator A) : Prop := forall s, I s -> I (m s).2.

Lemma holds_bind {A B} I (m : M RoundRobinInitiator A) (k : A -> M RoundRobinInitiator B) :
  holds_after I m -> (forall a, holds_after I (k a)) -> holds_after I (m ≫= k).
Proof. intros Hm Hk s Hs. mred. specialize (Hm s Hs). destruct (m s) as [[a| |] s1]; [by apply Hk|done|done]. Qed.

Lemma after_bind {A B} (I : RoundRobinInitiator -> Prop) (m : M RoundRobinInitiator A) (k : A -> M RoundRobinInitiator B) s :
  I (m s).2 -> (forall a, holds_after I (k a)) -> I ((m ≫= k) s).2.
Proof. intros Hm Hk. mred. destruct (m s) as [[a| |] s1]; [by apply Hk|done|done]. Qed.

Lemma holds_for_each {A} I (l : list A) (f : A -> M RoundRobinInitiator unit) :
  (forall a, holds_after I (f a)) -> holds_after I (for_each l f).
Proof. intros Hf. induction l as [|a l IH]; cbn [for_each]; [by intros ?|]. by apply holds_bind. Qed.

Lemma candidates_need_queues `{RoundRobinEnvironment} abilities m candidates l a :
  RoundRobin.possible_candidates abilities m candidates = Ok l -> a ∈ abilities -> elements (QueueMap.at_ a m) <> [].
Proof.
  revert candidates. induction abilities as [|b abilities IH]; intros candidates E Ha; [set_solver|].
  cbn [RoundRobin.possible_candidates] in E. apply outcome_bind_Ok in E as (t & Ht & E).
  apply elem_of_cons in Ha as [->|Ha]; [|by eapply IH]. intros Hq. unfold Queue.top in Ht. by rewrite Hq in Ht.
Qed.

(** What an agent does with the initiator *)
Inductive Op :=
| AddMaterialFlow (scheduler : list Task)
| Answer (r : AssignmentResponse)
| Status (u : StatusUpdate)
| CheckAnswers (index : Z).

Section Runs.
Context `{RoundRobinEnvironment, !RoundRobinLaws}.
Context {AmrKinematics : Type}.
Variables (fleet : list (AmrStaticAbility * AmrKinematics)) (connection_string : string).

Definition perform (o : Op) (s : RoundRobinInitiator) : RoundRobinInitiator :=
  match o with
  | AddMaterialFlow f => (RoundRobin.addMaterialFlow fleet connection_string f s).2
  | Answer r => (RoundRobin.process_AssignmentResponse r s).2
  | Status u => (RoundRobin.process_StatusUpdate u s).2
  | CheckAnswers i => (RoundRobin.processAssignmentAcceptions fleet connection_string i s).2
  end.

(** From the construction, whatever the operations return *)
Inductive reachable : RoundRobinInitiator -> Prop :=
| reach_start result : reachable (RoundRobin.construct result)
| reach_step o s : reachable s -> reachable (perform o s).

Definition few (s : RoundRobinInitiator) : Prop := Z.of_nat (length (assigned s)) < 2 ^ 32.
Definition fair (s : RoundRobinInitiator) : Prop := few s -> good s.
Definition waiting (s : RoundRobinInitiator) : Prop :=
  assigned s = [] /\ preparation_finished_ s = false /\ default [] (unallocated_tasks_per_mf_ s !! RoundRobin.mf_id) = [].
Definition invariant (s : RoundRobinInitiator) : Prop := fair s /\ (is_Some (amr_find_result_ s) -> waiting s).
(** After the participants have been read *)
Definition settled (s : RoundRobinInitiator) : Prop := fair s /\ amr_find_result_ s = None.
(** While they are read *)
Definition reading (s : RoundRobinInitiator) : Prop := good s /\ assigned s = [] /\ amr_find_result_ s = None.

Lemma settled_invariant s : settled s -> invariant s.
Proof. intros [Hf Hn]. split; [done|]. rewrite Hn. by intros []. Qed.

(** Whatever leaves the participants and what was sent alone *)
Lemma fair_frame s s' :
  participants_per_ability_ s' = participants_per_ability_ s -> assigned s' = assigned s -> fair s -> fair s'.
Proof.
  intros Em Es Hs Hlen. unfold few in *. rewrite Es in Hlen. destruct (Hs Hlen) as [H1 H2 H3 H4].
  split; rewrite ?Em; [done..|]. intros P. by rewrite Es, H4.
Qed.

Lemma settled_modify f :
  (forall s, participants_per_ability_ (f s) = participants_per_ability_ s /\ assigned (f s) = assigned s /\
     amr_find_result_ (f s) = amr_find_result_ s) -> holds_after settled (modify f).
Proof. intros Hf s [Hs Hn]. destruct (Hf s) as (Em & Es & Ef). unfold settled. cbn. rewrite Ef. split; [by apply (fair_frame s)|done]. Qed.

Lemma assignTask_grows task s :
  (length (assigned s) <= length (assigned (RoundRobin.assignTask fleet connection_string task s).2))%nat /\
  amr_find_result_ (RoundRobin.assignTask fleet connection_string task s).2 = amr_find_result_ s.
Proof.
  unfold RoundRobin.assignTask, RoundRobin.chooseParticipantForTask. mred. fold (fitting fleet task).
  destruct (fitting fleet task) as [|f fs] eqn:Ef; [done|]. destruct (RoundRobin.possible_candidates _ _ _) as [l| |]; [|done|done].
  destruct l as [|p l0] eqn:Ecand; [done|]. cbn [RoundRobin.draw]. destruct (_ !! random_index _ _) as [p'|]; [|done]. cbn.
  destruct (Queue.pop _); cbn; rewrite length_app; split; done || lia.
Qed.

Lemma assignTask_refused task s :
  is_Ok (RoundRobin.possible_candidates (fitting fleet task) (participants_per_ability_ s) []) = false ->
  (RoundRobin.assignTask fleet connection_string task s).2 = s.
Proof.
  intros Hc. unfold RoundRobin.assignTask, RoundRobin.chooseParticipantForTask. mred. fold (fitting fleet task).
  destruct (fitting fleet task) eqn:E; [done|]. rewrite <- E in *. by destruct (RoundRobin.possible_candidates _ _ _).
Qed.

Lemma assignTask_settled task : holds_after settled (RoundRobin.assignTask fleet connection_string task).
Proof.
  intros s [Hf Hn]. unfold settled.
  destruct (RoundRobin.possible_candidates (fitting fleet task) (participants_per_ability_ s) []) as [l| |] eqn:El.
  - destruct (decide (fitting fleet task = [])) as [E|E].
    { unfold RoundRobin.assignTask, RoundRobin.chooseParticipantForTask. mred. unfold fitting in E. by rewrite E. }
    assert (Hs : served fleet (participants_per_ability_ s) task).
    { split; [done|]. intros a. by eapply candidates_need_queues. }
    assert (Hlarge : few s \/ ~ few s) by (unfold few; lia). destruct Hlarge as [Hs'|Hs'].
    + pose proof (Hf Hs') as Hg.
      destruct (assignTask_step fleet connection_string task s (good_placed s Hg) Hs)
        as (a & p & rest & m1 & m2 & q' & Ha & Em & Hq & Hq' & _ & Hmin & ->).
      split; [|done]. intros Hfew. eapply (good_assigned s _ a (QueueMap.at_ a (participants_per_ability_ s)) q' p rest m1 m2); try done.
      intros p'. by apply Hmin.
    + destruct (assignTask_grows task s) as [Hg ->]. split; [|done]. intros Hfew. unfold few in *. lia.
  - by rewrite assignTask_refused; [split|rewrite El].
  - by rewrite assignTask_refused; [split|rewrite El].
Qed.
Lemma task_of_settled name pickup delivery ability : holds_after settled (RoundRobin.task_of connection_string name pickup delivery ability).
Proof.
  intros s [Hf Hn]. unfold RoundRobin.task_of. mred. cbn. split; [by apply (fair_frame s)|done].
Qed.

Lemma hardcoded_settled : holds_after settled (RoundRobin.hardcoded_tasks connection_string).
Proof. unfold RoundRobin.hardcoded_tasks. cbv zeta. repeat (apply holds_bind; [apply task_of_settled|intros ?]). by intros ?. Qed.

Lemma unallocated_Ok s : exists s', RoundRobin.unallocated s = (Ok (default [] (unallocated_tasks_per_mf_ s !! RoundRobin.mf_id)), s') /\
  s' = RoundRobin.set_unallocated (partial_alter (fun o => Some (default [] o)) RoundRobin.mf_id (unallocated_tasks_per_mf_ s)) s /\
  default [] (unallocated_tasks_per_mf_ s' !! RoundRobin.mf_id) = default [] (unallocated_tasks_per_mf_ s !! RoundRobin.mf_id).
Proof.
  eexists. unfold RoundRobin.unallocated. mred. split; [|split; [reflexivity|]]; cbn; by rewrite lookup_partial_alter_eq.
Qed.

Lemma unallocated_settled : holds_after settled RoundRobin.unallocated.
Proof.
  intros s [Hf Hn]. destruct (unallocated_Ok s) as (s' & -> & -> & _). split; [by apply (fair_frame s)|done].
Qed.

Lemma distribute_settled index b : holds_after settled (RoundRobin.distributeMFTasks fleet connection_string index b).
Proof.
  unfold RoundRobin.distributeMFTasks. apply holds_bind; [apply hardcoded_settled|intros tasks]. apply holds_bind.
  - destruct b; [apply unallocated_settled|]. apply holds_bind; [by apply settled_modify|by intros _ ?].
  - intros ts. apply holds_bind; [apply holds_for_each, assignTask_settled|intros _]. by apply settled_modify.
Qed.

(** While the participants are read nothing has been sent, so that everybody's counter is zero. *)
Lemma zero_counters s : good s -> assigned s = [] ->
  forall a q p, (a, q) ∈ participants_per_ability_ s -> p ∈ elements q -> assignment_counter p = 0.
Proof.
  intros [_ Hn _ Hw] Ha a q p Hq Hp. pose proof (weight_bound _ _ _ _ Hn Hq Hp) as Hb. rewrite Hw, Ha in Hb. change (sent_to _ []) with 0 in Hb.
  pose proof (Hn a q p Hq Hp). lia.
Qed.

(** Entering a participant: a queue that is there grows, or one is added. *)
Lemma stored_queues (ability : AmrStaticAbility) (m : Queues) p :
  valid_keys m -> Ability.isValid ability = true ->
  exists m1 m2 q', QueueMap.set ability (Queue.push p (QueueMap.at_ ability m)) m = m1 ++ (ability, q') :: m2 /\
    (forall e, e ∈ m1 ++ m2 -> e ∈ m) /\
    (forall p', p' ∈ elements q' -> p' = p \/ exists q, (ability, q) ∈ m /\ p' ∈ elements q) /\
    forall P, weight P (m1 ++ (ability, q') :: m2) = weight P m + queue_weight P [p].
Proof.
  intros Hv Ha. induction m as [|[k q] m IH].
  { exists [], [], (Queue.push p Queue.empty). split_and!; [done|done| |].
    - intros p'. cbn. set_solver.
    - intros P. cbn. lia. }
  inversion Hv as [|? ? Hk Hm]; subst. cbn in Hk. rewrite at_cons, set_cons. destruct (Ability.eqb k ability) eqn:E.
  - apply (valid_ability_eq _ _ Hk) in E as ->. exists [], m, (Queue.push p q). split_and!; [done|set_solver| |].
    + intros p'. cbn. intros [Hp|Hp]%elem_of_app; [right; exists q; set_solver|left; set_solver].
    + intros P. cbn [app]. rewrite !weight_cons. cbn [snd Queue.push elements]. rewrite queue_weight_app. lia.
  - destruct (IH Hm) as (m1 & m2 & q' & -> & Hin & Hq & Hw). exists ((k, q) :: m1), m2, q'. split_and!; [done| | |].
    + intros e. cbn [app]. intros [->|He]%elem_of_cons; [set_solver|]. apply elem_of_cons. right. by apply Hin.
    + intros p' [->|(r & Hr & Hp)]%Hq; [by left|]. right. exists r. set_solver.
    + intros P. cbn [app]. rewrite !weight_cons, Hw. lia.
Qed.

Lemma store_reading i : Ability.isValid (pi_ability i) = true -> holds_after reading (RoundRobin.storeParticipant i).
Proof.
  intros Hi s (Hg & Ha & Hn). pose proof (zero_counters s Hg Ha) as Hz. destruct Hg as [[Hkeys Hpl] Hnn Hb Hw].
  set (p := {| info := i; assignment_counter := 0 |}). split_and!; [|done|done].
  destruct (stored_queues (pi_ability i) (participants_per_ability_ s) p Hkeys Hi) as (m1 & m2 & q' & Em & Hin & Hq & Hwt).
  assert (Hold : forall b r p', (b, r) ∈ m1 ++ (pi_ability i, q') :: m2 -> p' ∈ elements r ->
    assignment_counter p' = 0 /\ pi_ability (info p') = b).
  { intros b r p' Hbr Hp'. assert ((b, r) = (pi_ability i, q') \/ (b, r) ∈ m1 ++ m2) as [[= -> ->]|Hbr'] by set_solver.
    - destruct (Hq p' Hp') as [->|(q & Hqm & Hpq)]; [done|]. split; [by eapply Hz|by eapply Hpl].
    - apply Hin in Hbr'. split; [by eapply Hz|by eapply Hpl]. }
  assert (Es : participants_per_ability_ (RoundRobin.storeParticipant i s).2 = m1 ++ (pi_ability i, q') :: m2) by exact Em.
  assert (Eas : assigned (RoundRobin.storeParticipant i s).2 = assigned s) by done. split; rewrite ?Es, ?Eas.
  - split; [|intros b r p' Hbr Hp'; by eapply Hold]. apply Forall_forall. intros [b r] Hbr.
    assert ((b, r) = (pi_ability i, q') \/ (b, r) ∈ m1 ++ m2) as [[= -> ->]|Hbr'] by set_solver; [done|].
    by apply (proj1 (Forall_forall _ _) Hkeys), Hin.
  - intros b r p' Hbr Hp'. destruct (Hold b r p' Hbr Hp') as [-> _]. done.
  - intros b r p1 p2 Hbr H1 H2. destruct (Hold b r p1 Hbr H1) as [-> _], (Hold b r p2 Hbr H2) as [-> _]. done.
  - intros P. rewrite ?Eas, Hwt, Hw, queue_weight_cons. subst p. cbn. destruct (P _); lia.
Qed.

Lemma read_settled s : good s -> assigned s = [] -> is_Some (amr_find_result_ s) -> settled (RoundRobin.readAmrRequestFuture s).2.
Proof.
  intros Hg Ha [results Hr]. unfold RoundRobin.readAmrRequestFuture. rewrite bind_get, Hr, bind_modify.
  assert (Hs : reading (RoundRobin.set_prepared None false s)) by (split_and!; [by destruct Hg; split|done|done]).
  revert Hs. generalize (RoundRobin.set_prepared None false s). intros s0 Hs0.
  match goal with |- context [for_each results ?r] => set (read := r) end.
  assert (Hread : holds_after reading (for_each results read)).
  { apply holds_for_each. intros result s1 Hs1. unfold read. rewrite bind_lift.
    destruct (RoundRobin.read_entries _ _) as [r| |]; [|done|done]. rewrite bind_throw_if.
    destruct (RoundRobin.isValid (RoundRobin.r_info r)) eqn:Hv; [|done]. apply store_reading; [|done].
    by apply andb_prop in Hv as [_ Hv]. }
  specialize (Hread s0 Hs0). mred. destruct (for_each results read s0) as [[] s1]; destruct Hread as (Hg1 & Ha1 & Hn1); cbn.
  - split; [apply (fair_frame s1); [done|done|by intros _]|done].
  - by split; [intros _|].
  - by split; [intros _|].
Qed.

Lemma add_invariant f s : invariant s -> invariant (RoundRobin.addMaterialFlow fleet connection_string f s).2.
Proof.
  intros [Hf Hw]. unfold RoundRobin.addMaterialFlow. rewrite bind_get.
  assert (Hrest : holds_after settled (modify (fun s => RoundRobin.set_material_flows (material_flows_ s ++ [f]) s);;
    s ← get; RoundRobin.distributeMFTasks fleet connection_string (u32 (Z.of_nat (length (material_flows_ s)) - 1)) false)).
  { apply holds_bind; [by apply settled_modify|intros _ s1 Hs1]. rewrite bind_get. by apply distribute_settled. }
  destruct (preparation_finished_ s) eqn:Ep; cbn [negb].
  - apply settled_invariant. rewrite bind_ret. apply Hrest. split; [done|].
    destruct (amr_find_result_ s) eqn:Er; [|done]. destruct (Hw ltac:(done)) as (_ & ? & _). congruence.
  - destruct (amr_find_result_ s) as [r|] eqn:Er.
    + apply settled_invariant. destruct (Hw ltac:(done)) as (Ha & _ & _).
      assert (Hs : settled (RoundRobin.readAmrRequestFuture s).2).
      { apply read_settled; [apply Hf; unfold few; by rewrite Ha|done|by rewrite Er]. }
      apply after_bind; [|intros _; exact Hrest]. rewrite bind_throw_if, bool_decide_eq_false_2 by done. exact Hs.
    + rewrite bool_decide_eq_true_2 by done. split; [done|]. intros [r Hr]. change (amr_find_result_ s = Some r) in Hr. congruence.
Qed.

Lemma check_invariant i s : invariant s -> invariant (RoundRobin.processAssignmentAcceptions fleet connection_string i s).2.
Proof.
  intros [Hf Hw]. unfold RoundRobin.processAssignmentAcceptions.
  destruct (unallocated_Ok s) as (s' & E & Es' & Hu). mred. rewrite E.
  assert (Hinv : invariant s').
  { split; [subst s'; by apply (fair_frame s)|]. intros Hs. destruct Hw as (H1 & H2 & H3); [by subst s'|].
    split_and!; [by subst s'..|by rewrite Hu]. }
  destruct (RoundRobin.erase_accepted _ _) as [[|t l]| |] eqn:El; [done| |done|done].
  apply settled_invariant, distribute_settled. split; [apply Hinv|].
  destruct (amr_find_result_ s') eqn:Er; [|done]. destruct (proj2 Hinv) as (_ & _ & H3); [by rewrite Er|].
  rewrite Hu in H3. rewrite H3 in El. by destruct (ar_task_uuid <$> _).
Qed.

(** C31: the round robin is fair. From the construction of the initiator on, however material
    flows, answers and checks follow each other, and whether they end in an exception or not, as
    long as fewer than [2^32] tasks have been sent, with a priority queue that has a least element
    on top and a random index in range: two vehicles with the same ability have been counted numbers of tasks that differ by
    at most one, every vehicle is stored under its own ability, and the counters are right, in
    that for any set of connections the counters of the vehicles with them sum up to the number
    of tasks sent to them. *)
Theorem round_robin_fair s :
  reachable s -> Z.of_nat (length (assigned s)) < 2 ^ 32 ->
  (forall ability q p p', (ability, q) ∈ participants_per_ability_ s -> p ∈ elements q -> p' ∈ elements q ->
     pi_ability (info p) = ability /\ 0 <= assignment_counter p <= assignment_counter p' + 1) /\
  (forall P, weight P (participants_per_ability_ s) = sent_to P (assigned s)).
Proof.
  intros Hs Hfew. assert (Hinv : invariant s).
  { clear Hfew. induction Hs as [result|o s Hs IH].
    - split; [|done]. intros _. split; [by split; [constructor|set_solver]|intros ???; set_solver|intros ????; set_solver|done].
    - destruct o as [f|r|u|i]; cbn [perform].
      + by apply add_invariant.
      + unfold RoundRobin.process_AssignmentResponse. mred. destruct IH as [Hf Hw]. destruct (ar_accept r); [|done].
        split; [by apply (fair_frame s)|done].
      + done.
      + by apply check_invariant. }
  destruct (proj1 Hinv Hfew) as [[Hk Hp] Hn Hb Hw]. split; [|done].
  intros a q p p' Hq H1 H2. split_and!; [by eapply Hp|by eapply Hn|by eapply Hb].
Qed.

(** *** Distributing many tasks *)

Definition sent_tasks (s : RoundRobinInitiator) : list Task := (fun e => an_task e.2) <$> assigned s.

(** What a distribution leaves alone *)
Definition same_answers (s s' : RoundRobinInitiator) : Prop :=
  assignment_acceptions_ s' = assignment_acceptions_ s /\
  default [] (unallocated_tasks_per_mf_ s' !! RoundRobin.mf_id) = default [] (unallocated_tasks_per_mf_ s !! RoundRobin.mf_id) /\
  scheduled_checks s' = scheduled_checks s.

Lemma same_answers_trans s1 s2 s3 : same_answers s1 s2 -> same_answers s2 s3 -> same_answers s1 s3.
Proof. unfold same_answers. intros (-> & -> & ->) (-> & -> & ->). done. Qed.

Definition ready (tasks : list Task) (s : RoundRobinInitiator) : Prop :=
  placed (participants_per_ability_ s) /\ forall t, t ∈ tasks -> served fleet (participants_per_ability_ s) t.

Lemma assignTask_ready tasks t s : ready tasks s -> t ∈ tasks ->
  exists s', RoundRobin.assignTask fleet connection_string t s = (Ok tt, s') /\ ready tasks s' /\
    sent_tasks s' = sent_tasks s ++ [t] /\ same_answers s s'.
Proof.
  intros [Hp Hs] Ht.
  destruct (assignTask_step fleet connection_string t s Hp (Hs t Ht)) as (a & p & rest & m1 & m2 & q' & Ha & Em & Hq & Hq' & Hat & _ & E).
  eexists. split; [exact E|]. split_and!; [|unfold sent_tasks; cbn; by rewrite fmap_app|done].
  destruct Hp as [Hk Hp]. set (q := QueueMap.at_ a (participants_per_ability_ s)) in *.
  assert (Hin : (a, q) ∈ participants_per_ability_ s) by (rewrite Em; set_solver). split.
  - split; cbn [participants_per_ability_ RoundRobin.set_participants].
    + unfold valid_keys in *. rewrite Em in Hk. apply Forall_app in Hk as [? Hk]. inversion Hk; subst.
      apply Forall_app; split; [done|]. by constructor.
    + intros b r p' Hbr. assert ((b, r) = (a, q') \/ (b, r) ∈ participants_per_ability_ s) as [[= -> ->]|Hbr'].
      { rewrite Em. set_solver. }
      * rewrite Hq'. intros [->|Hr]%elem_of_cons; [apply (Hp a q p Hin); rewrite Hq; set_solver|].
        apply (Hp a q p' Hin). rewrite Hq. set_solver.
      * by apply Hp.
  - intros t' Ht'. destruct (Hs t' Ht') as [Hf Hne]. split; [done|]. intros b Hb. cbn [participants_per_ability_ RoundRobin.set_participants].
    destruct (Ability.eqb a b) eqn:Eab.
    + apply valid_ability_eq in Eab as <-; [|by apply (proj1 (Forall_forall _ _) Hk _ Hin)]. rewrite Hat. intros Hnil.
      rewrite Hnil in Hq'. by apply Permutation_nil_cons in Hq'.
    + rewrite (at_app_ne b a q' q m1 m2 Eab), <- Em. by apply Hne.
Qed.

Lemma assign_all_ready tasks todo s : ready tasks s -> (forall t, t ∈ todo -> t ∈ tasks) ->
  exists s', for_each todo (RoundRobin.assignTask fleet connection_string) s = (Ok tt, s') /\ ready tasks s' /\
    sent_tasks s' = sent_tasks s ++ todo /\ same_answers s s'.
Proof.
  revert s. induction todo as [|t todo IH]; intros s Hs Hin; cbn [for_each].
  { exists s. rewrite app_nil_r. by split_and!. }
  destruct (assignTask_ready tasks t s Hs ltac:(set_solver)) as (s1 & E1 & H1 & Es1 & Ha1).
  destruct (IH s1 H1 ltac:(set_solver)) as (s' & E & H' & Es & Ha). exists s'. mred. rewrite E1.
  split_and!; [done|done| |by eapply same_answers_trans]. rewrite Es, Es1, <- app_assoc. done.
Qed.

(** *** The answers that are checked *)

Definition uuids (tasks : list Task) : list string := uuid_ <$> tasks.

Lemma erase_task_Ok uuid tasks : NoDup (uuids tasks) -> uuid ∈ uuids tasks ->
  exists rest, RoundRobin.erase_task uuid tasks = Ok rest /\ NoDup (uuids rest) /\
    (forall t, t ∈ rest <-> t ∈ tasks /\ uuid_ t <> uuid) /\ (forall u, u ∈ uuids rest <-> u ∈ uuids tasks /\ u <> uuid).
Proof.
  induction tasks as [|t tasks IH]; [set_solver|]. cbn [uuids RoundRobin.erase_task fmap list_fmap]. intros [Ht Hnd]%NoDup_cons Hu.
  case_bool_decide as E.
  - exists tasks. split_and!; [done|done| |set_solver]. intros t'. split; [|set_solver].
    intros Ht'. split; [set_solver|]. intros <-. apply Ht. rewrite E. by apply list_elem_of_fmap_2.
  - destruct (IH Hnd) as (rest & -> & Hnd' & Hin & Hin'); [set_solver|]. exists (t :: rest). split_and!; [done| |set_solver|].
    + cbn. apply NoDup_cons. split; [|done]. intros Hbad%Hin'. set_solver.
    + intros u. cbn. rewrite !elem_of_cons, Hin'. set_solver.
Qed.

Lemma erase_task_Undefined uuid tasks : uuid ∉ uuids tasks -> RoundRobin.erase_task uuid tasks = Undefined.
Proof.
  induction tasks as [|t tasks IH]; [done|]. cbn. intros Hu. rewrite bool_decide_eq_false_2 by set_solver.
  by rewrite IH by set_solver.
Qed.

(** Each answer must fit a task that is left. *)
Lemma erase_accepted_decides answers tasks : NoDup (uuids tasks) ->
  (NoDup answers -> (forall u, u ∈ answers -> u ∈ uuids tasks) ->
   exists rest, RoundRobin.erase_accepted answers tasks = Ok rest /\ forall t, t ∈ rest <-> t ∈ tasks /\ uuid_ t ∉ answers) /\
  (~ (NoDup answers /\ forall u, u ∈ answers -> u ∈ uuids tasks) -> RoundRobin.erase_accepted answers tasks = Undefined).
Proof.
  revert tasks. induction answers as [|u answers IH]; intros tasks Hnd; cbn [RoundRobin.erase_accepted].
  { split; [|intros []; split; [constructor|set_solver]]. intros _ _. exists tasks. split; [done|]. set_solver. }
  destruct (decide (u ∈ uuids tasks)) as [Hu|Hu].
  - destruct (erase_task_Ok u tasks Hnd Hu) as (rest & E & Hnd' & Hin & Hin'). rewrite E. mred.
    destruct (IH rest Hnd') as [IH1 IH2]. split.
    + intros [Hua Ha]%NoDup_cons Hall. destruct IH1 as (l & -> & Hl); [done|set_solver|]. exists l. split; [done|].
      intros t. rewrite Hl, Hin. set_solver.
    + intros Hbad. apply IH2. intros [Ha Hall]. apply Hbad. split; [|set_solver]. apply NoDup_cons. split; [set_solver|done].
  - rewrite erase_task_Undefined by done. split; [intros _ Hall; exfalso; set_solver|done].
Qed.

(** The tasks are made without touching anything but the UUIDs. *)
Definition untouched (s s' : RoundRobinInitiator) : Prop :=
  participants_per_ability_ s' = participants_per_ability_ s /\ assigned s' = assigned s /\ same_answers s s'.
Definition only_draws {A} (m : M RoundRobinInitiator A) : Prop := forall s, exists a s', m s = (Ok a, s') /\ untouched s s'.

Lemma only_draws_bind {A B} (m : M RoundRobinInitiator A) (k : A -> M RoundRobinInitiator B) :
  only_draws m -> (forall a, only_draws (k a)) -> only_draws (m ≫= k).
Proof.
  intros Hm Hk s. destruct (Hm s) as (a & s1 & E1 & Hm1 & Ha1 & Hs1), (Hk a s1) as (b & s2 & E2 & Hm2 & Ha2 & Hs2).
  exists b, s2. mred. rewrite E1. split; [done|]. split_and!; [congruence|congruence|by eapply same_answers_trans].
Qed.

Lemma task_of_draws name pickup delivery ability : only_draws (RoundRobin.task_of connection_string name pickup delivery ability).
Proof. intros s. unfold RoundRobin.task_of. mred. cbn. eexists _, _. done. Qed.

Lemma hardcoded_draws : only_draws (RoundRobin.hardcoded_tasks connection_string).
Proof.
  unfold RoundRobin.hardcoded_tasks. cbv zeta. repeat (apply only_draws_bind; [apply task_of_draws|intros ?]).
  intros s. by eexists _, s.
Qed.

Lemma unallocated_untouched s :
  exists s', RoundRobin.unallocated s = (Ok (default [] (unallocated_tasks_per_mf_ s !! RoundRobin.mf_id)), s') /\ untouched s s'.
Proof.
  destruct (unallocated_Ok s) as (s' & E & Es & Hu). exists s'. split; [done|]. subst s'. by split_and!.
Qed.

Lemma check_undefined index s :
  let tasks := default [] (unallocated_tasks_per_mf_ s !! RoundRobin.mf_id) in
  let answers := ar_task_uuid <$> assignment_acceptions_ s in
  NoDup (uuids tasks) /\ ~ (NoDup answers /\ forall u, u ∈ answers -> u ∈ uuids tasks) ->
  (RoundRobin.processAssignmentAcceptions fleet connection_string index s).1 = Undefined.
Proof.
  intros tasks answers [Hnd Hbad]. unfold RoundRobin.processAssignmentAcceptions.
  destruct (unallocated_untouched s) as (s1 & E1 & _ & _ & Hs1). mred. rewrite E1. fold tasks. rewrite (proj1 Hs1). fold answers.
  by rewrite (proj2 (erase_accepted_decides answers tasks Hnd) Hbad).
Qed.

Lemma distributes_again s index tasks :
  ready tasks s -> default [] (unallocated_tasks_per_mf_ s !! RoundRobin.mf_id) = tasks ->
  exists s', RoundRobin.distributeMFTasks fleet connection_string index true s = (Ok tt, s') /\
    sent_tasks s' = sent_tasks s ++ tasks /\ scheduled_checks s' = scheduled_checks s ++ [index] /\
    assignment_acceptions_ s' = assignment_acceptions_ s /\ default [] (unallocated_tasks_per_mf_ s' !! RoundRobin.mf_id) = tasks.
Proof.
  intros Hr Htasks. destruct (hardcoded_draws s) as (new & s2 & E2 & Em2 & Ea2 & Hs2).
  destruct (unallocated_untouched s2) as (s3 & E3 & Em3 & Ea3 & Hs3). rewrite (proj1 (proj2 Hs2)), Htasks in E3.
  destruct (assign_all_ready tasks tasks s3) as (s4 & E4 & _ & Es4 & Hs4); [unfold ready; by rewrite Em3, Em2|done|].
  destruct (same_answers_trans _ _ _ (same_answers_trans _ _ _ Hs2 Hs3) Hs4) as (H1 & H2 & H3).
  exists (RoundRobin.schedule_check index s4). split_and!.
  - unfold RoundRobin.distributeMFTasks. mred. by rewrite E2, E3, E4.
  - change (sent_tasks s4 = sent_tasks s ++ tasks). rewrite Es4. unfold sent_tasks. by rewrite Ea3, Ea2.
  - cbn. by rewrite H3.
  - exact H1.
  - by rewrite <- Htasks, <- H2.
Qed.

(** What a check of the answers does when the tasks of the flow differ, each has been answered
    at most once, no other task has been answered, and there is a vehicle for every ability that
    fits one of the tasks (all stored under their abilities, with a priority queue that has a least
    element on top and a random index in range). It does nothing if all have been answered. If one is missing, although the answers to the others are
    there, all tasks of the flow are sent again, not only those without an answer, and the
    check is scheduled again. The answers of the first round are kept: as soon as a vehicle that
    had answered answers again, the next check is undefined, since its assertion does not find
    the task any more. *)
Theorem missing_answer_starts_over s index :
  let tasks := default [] (unallocated_tasks_per_mf_ s !! RoundRobin.mf_id) in
  let answers := ar_task_uuid <$> assignment_acceptions_ s in
  let check := RoundRobin.processAssignmentAcceptions fleet connection_string in
  ready tasks s -> NoDup (uuids tasks) -> NoDup answers -> (forall u, u ∈ answers -> u ∈ uuids tasks) ->
  ((forall t, t ∈ tasks -> uuid_ t ∈ answers) ->
     exists s', check index s = (Ok tt, s') /\ assigned s' = assigned s /\ scheduled_checks s' = scheduled_checks s) /\
  ((exists t, t ∈ tasks /\ uuid_ t ∉ answers) ->
     exists s', check index s = (Ok tt, s') /\ sent_tasks s' = sent_tasks s ++ tasks /\
       scheduled_checks s' = scheduled_checks s ++ [index] /\ assignment_acceptions_ s' = assignment_acceptions_ s /\
       forall more, (exists u, u ∈ answers /\ u ∈ ar_task_uuid <$> more) -> forall later,
         (check later (RoundRobin.set_acceptions (assignment_acceptions_ s' ++ more) s')).1 = Undefined).
Proof.
  intros tasks answers check Hready Hnd Ha Hall.
  destruct (unallocated_untouched s) as (s1 & E1 & Em1 & Ea1 & Hs1).
  destruct (erase_accepted_decides answers tasks Hnd) as [Hok _]. destruct (Hok Ha Hall) as (rest & Erest & Hrest).
  assert (Hcheck : check index s = match rest with [] => (Ok tt, s1) | _ => RoundRobin.distributeMFTasks fleet connection_string index true s1 end).
  { unfold check, RoundRobin.processAssignmentAcceptions. mred. rewrite E1. fold tasks. rewrite (proj1 Hs1). fold answers.
    rewrite Erest. by destruct rest. }
  rewrite Hcheck. split.
  - intros Hdone. destruct rest as [|t rest]; [|exfalso; destruct (proj1 (Hrest t)) as [Ht Hn]; [apply elem_of_cons; by left|by apply Hn, Hdone]].
    exists s1. split_and!; [done|done|apply Hs1].
  - intros (t & Ht & Hn). assert (Hne : t ∈ rest) by (by apply Hrest). destruct rest as [|t0 rest]; [by apply not_elem_of_nil in Hne|]. clear Hne.
    destruct (distributes_again s1 index tasks) as (s' & E' & Es' & Hc' & Ha' & Hu').
    + unfold ready. by rewrite Em1.
    + apply Hs1.
    + exists s'. split_and!; [done| | | |].
      * rewrite Es'. unfold sent_tasks. by rewrite Ea1.
      * rewrite Hc'. f_equal. apply Hs1.
      * rewrite Ha'. apply Hs1.
      * intros more (u & Hu & Hmore) later. apply check_undefined. cbn [RoundRobin.set_acceptions assignment_acceptions_ unallocated_tasks_per_mf_].
        rewrite Hu', fmap_app, Ha', (proj1 Hs1). fold answers. split; [done|].
        intros [[_ [Hd _]]%NoDup_app _]. by apply (Hd u).
Qed.
End Runs.

(** ** The participant *)

(** A vehicle that is sent the same task twice takes it twice, and gives the same answer. *)
Lemma assigned_again_queued_again `{Ns3Vector} connection n s r1 s1 r2 s2 :
  Centralized.process_AssignmentNotification connection n s = (Ok r1, s1) ->
  Centralized.process_AssignmentNotification connection n s1 = (Ok r2, s2) ->
  queue_ s2 = queue_ s ++ [an_task n; an_task n] /\ ar_task_uuid r1.2 = ar_task_uuid r2.2 /\ r1.1 = r2.1.
Proof.
  assert (Hone : forall s r s', Centralized.process_AssignmentNotification connection n s = (Ok r, s') ->
    queue_ s' = queue_ s ++ [an_task n] /\ ar_task_uuid r.2 = uuid_ (an_task n) /\ r.1 = an_initiator_connection n).
  { intros t r t' E. unfold Centralized.process_AssignmentNotification in E. apply bind_Ok in E as (can & t1 & Ec & E).
    assert (t1 = t) as ->.
    { rewrite simple_canAddTask in Ec. by injection Ec. }
    destruct can; [|done]. apply bind_Ok in E as (u & t2 & E2 & E). apply bind_Ok in E2 as (b & t3 & Ea & [_ ->]%ret_Ok).
    rewrite bind_get in E. apply bind_Ok in E as (p & t4 & [_ ->]%lift_Ok & [-> ->]%ret_Ok). cbn. split; [|done].
    pose proof (addTask_queue (an_task n) t) as Hq. rewrite Ea in Hq. cbn in Hq. rewrite Hq.
    case_bool_decide as Ho; [|done]. unfold Simple.addTask in Ea. rewrite bind_throw_if, bool_decide_eq_true_2 in Ea by done. done. }
  intros H1%Hone H2%Hone. destruct H2 as (-> & -> & ->), H1 as (-> & -> & ->).
  by rewrite <- app_assoc.
Qed.

(** ** A fleet of three vehicles *)

(** The first of the least used ones. *)
Definition first_least (l : list ParticipantInfoRoundRobin) : nat :=
  default 0%nat (find_index (fun p => forallb (fun q => assignment_counter p <=? assignment_counter q) l) l).

Lemma some_least (l : list ParticipantInfoRoundRobin) : l <> [] ->
  exists p, p ∈ l /\ Forall (fun q => assignment_counter p <= assignment_counter q) l.
Proof.
  induction l as [|p l IH]; [done|]. intros _. destruct l as [|p' l]; [exists p; split; [set_solver|repeat constructor; lia]|].
  destruct IH as (r & Hr & Hall); [done|]. rewrite Forall_forall in Hall.
  destruct (Z.le_gt_cases (assignment_counter p) (assignment_counter r)).
  - exists p. split; [set_solver|]. apply Forall_cons; split; [lia|]. apply Forall_forall. intros q Hq. specialize (Hall q Hq). lia.
  - exists r. split; [set_solver|]. apply Forall_cons; split; [lia|]. by apply Forall_forall.
Qed.

#[local] Instance sample_environment : RoundRobinEnvironment := {|
  top_index := fun _ l => first_least l;
  random_index := fun n k => (n mod k)%nat;
  generate_uuid := fun n => Nat.iter n (String "u"%char) EmptyString;
|}.

#[local] Instance sample_laws : RoundRobinLaws.
Proof.
  split.
  - intros n l Hl. cbn. unfold first_least. destruct (find_index _ l) as [i|] eqn:E.
    + apply find_index_Some in E as (p & Hp & Hall & _). exists p. split; [done|]. apply Forall_forall. intros q Hq.
      rewrite forallb_forall in Hall. apply Z.leb_le, Hall. by apply list_elem_of_In.
    + exfalso. destruct (some_least l Hl) as (p & Hp & Hall). apply (proj1 (find_index_None _ _)) with (x := p) in E; [|done].
      rewrite Forall_forall in Hall. apply not_true_iff_false in E. apply E, forallb_forall. intros q Hq.
      apply Z.leb_le, Hall. by apply list_elem_of_In.
  - intros n k Hk. cbn. by apply Nat.mod_upper_bound; lia.
  - intros n m. cbn. revert m. induction n as [|n IH]; intros [|m]; cbn; try done. intros [= Hnm]. by rewrite (IH m).
Qed.

Definition service_of (endpoint type : string) (payload : Z) : list (string * Value * ValueType) := [
  ("servicetype", Value_string "transport", kValueDynamic); ("maxpayload", Value_float (f_of_Z payload), kValueDynamic);
  ("loadcarriertype", Value_string type, kValueDynamic); ("endpoint", Value_string endpoint, kValueDynamic)]%string.
Definition package40 : AmrStaticAbility := {| load_carrier_ := kPackage; max_payload_weight_kg_ := f_of_Z 40 |}.
Definition box20 : AmrStaticAbility := {| load_carrier_ := kEuroBox; max_payload_weight_kg_ := f_of_Z 20 |}.
Definition sample_fleet : list (AmrStaticAbility * unit) := [(package40, tt); (box20, tt)].
Definition sample_found : FindResult :=
  [service_of "amr1" "package" 40; service_of "amr2" "package" 40; service_of "amr3" "eurobox" 20].
Definition sample_start : RoundRobinInitiator := RoundRobin.construct sample_found.
Abbreviation do := (perform sample_fleet "agent").

Definition sample_distributed : RoundRobinInitiator := do (AddMaterialFlow []) sample_start.
Example sample_sent : (fun e => (e.1, name_ (an_task e.2))) <$> assigned sample_distributed =
  [("amr1", "task1"); ("amr3", "task2"); ("amr2", "task3"); ("amr1", "task4"); ("amr2", "task5"); ("amr1", "task6"); ("amr2", "task7")]%string.
Proof. vm_compute. reflexivity. Qed.

(** After six of the seven answers *)
Definition answer_to (t : Task) : AssignmentResponse :=
  {| ar_task_uuid := uuid_ t; ar_accept := true; ar_metrics := Metric.initial; ar_end_position := {| x := d_zero; y := d_zero |};
     ar_participant_connection := "amr" |}.
Definition sample_answered : RoundRobinInitiator :=
  fold_left (fun s t => do (Answer (answer_to t)) s) (take 6 (sent_tasks sample_distributed)) sample_distributed.

Lemma sample_reachable : reachable sample_fleet "agent" sample_answered.
Proof.
  unfold sample_answered. generalize (take 6 (sent_tasks sample_distributed)). intros l.
  assert (Hs : reachable sample_fleet "agent" sample_distributed) by (apply reach_step, reach_start).
  revert Hs. generalize sample_distributed. induction l as [|t l IH]; intros s Hs; [done|]. by apply IH, reach_step.
Qed.

Lemma sample_counts : Z.of_nat (length (assigned sample_answered)) = 7.
Proof. vm_compute. reflexivity. Qed.

Lemma round_robin_fair_witness : Z.of_nat (length (assigned sample_answered)) = 7 /\
  weight (fun _ => true) (participants_per_ability_ sample_answered) = sent_to (fun _ => true) (assigned sample_answered).
Proof.
  split; [apply sample_counts|].
  apply (round_robin_fair sample_fleet "agent" sample_answered sample_reachable); rewrite sample_counts; lia.
Defined.

(** [ready] by computation *)
Definition placed_b (m : Queues) : bool :=
  forallb (fun e => Ability.isValid e.1 && forallb (fun p => Ability.eqb e.1 (pi_ability (info p))) (elements e.2)) m.
Definition served_b (m : Queues) (t : Task) : bool :=
  let abilities := fitting sample_fleet t in
  negb (Nat.eqb (length abilities) 0) &&
  forallb (fun a => negb (Nat.eqb (length (elements (QueueMap.at_ a m))) 0)) abilities.

Lemma placed_b_sound m : placed_b m = true -> placed m.
Proof.
  unfold placed_b. rewrite forallb_forall. intros Hall. split.
  - apply Forall_forall. intros e He. apply list_elem_of_In, Hall in He. by apply andb_prop in He as [? _].
  - intros a q p Hq Hp. apply list_elem_of_In, Hall in Hq. cbn in Hq. apply andb_prop in Hq as [Hv Hq].
    rewrite forallb_forall in Hq. apply list_elem_of_In, Hq in Hp. symmetry. by apply valid_ability_eq.
Qed.

Lemma served_b_sound m t : served_b m t = true -> served sample_fleet m t.
Proof.
  unfold served_b, served. intros [Hf Hall]%andb_prop. split; [by destruct (fitting sample_fleet t)|].
  rewrite forallb_forall in Hall. intros a Ha. apply list_elem_of_In, Hall in Ha. by destruct (elements _).
Qed.

Lemma ready_by_computation tasks s :
  placed_b (participants_per_ability_ s) && forallb (served_b (participants_per_ability_ s)) tasks = true -> ready sample_fleet tasks s.
Proof.
  intros [Hp Hs]%andb_prop. split; [by apply placed_b_sound|]. rewrite forallb_forall in Hs.
  intros t Ht. apply served_b_sound, Hs. by apply list_elem_of_In.
Qed.

Definition light_task : Task :=
  {| uuid_ := "light"; name_ := "light"; connection_string_ := "agent"; orders_ := []; follow_up_task_uuids_ := []; preceding_task_uuids_ := [];
     time_window_ := None; ability_requirement_ := {| load_carrier_ := kPackage; max_payload_weight_kg_ := f_of_Z 20 |} |}.
Abbreviation sample_tasks := (default [] (unallocated_tasks_per_mf_ sample_answered !! RoundRobin.mf_id)).
Abbreviation sample_answers := (ar_task_uuid <$> assignment_acceptions_ sample_answered).

Lemma sample_ready : ready sample_fleet (light_task :: sample_tasks) sample_answered.
Proof. apply ready_by_computation. vm_compute. reflexivity. Qed.

Lemma sample_answers_fit :
  bool_decide (NoDup (uuids sample_tasks)) && bool_decide (NoDup sample_answers) &&
  bool_decide (Forall (fun u => u ∈ uuids sample_tasks) sample_answers) &&
  bool_decide (Exists (fun t => uuid_ t ∉ sample_answers) sample_tasks) = true.
Proof. vm_compute. reflexivity. Qed.

Lemma assignTask_takes_least_used_witness : exists s' p,
  RoundRobin.assignTask sample_fleet "agent" light_task sample_answered = (Ok tt, s') /\
  assigned s' = assigned sample_answered ++
    [(pi_connection_string (info p), {| an_task := light_task; an_initiator_connection := "agent" |})].
Proof.
  destruct sample_ready as [Hp Hs].
  destruct (proj2 (assignTask_takes_least_used sample_fleet "agent" light_task sample_answered Hp) (Hs light_task ltac:(apply elem_of_cons; by left)))
    as (s' & p & _ & _ & _ & _ & _ & _ & E & Ea & _).
  exists s', p. split; [exact E|exact Ea].
Defined.

Lemma missing_answer_starts_over_witness : exists s',
  RoundRobin.processAssignmentAcceptions sample_fleet "agent" 0 sample_answered = (Ok tt, s') /\
  sent_tasks s' = sent_tasks sample_answered ++ sample_tasks.
Proof.
  destruct sample_ready as [Hp Hs]. pose proof sample_answers_fit as Hfit.
  apply andb_prop in Hfit as [[[H1%bool_decide_eq_true H2%bool_decide_eq_true]%andb_prop H3%bool_decide_eq_true]%andb_prop H4%bool_decide_eq_true].
  destruct (missing_answer_starts_over sample_fleet "agent" sample_answered 0) as [_ Hmissing]; [|exact H1|exact H2| |].
  - split; [exact Hp|]. intros t Ht. apply Hs, elem_of_cons. by right.
  - intros u Hu. exact (proj1 (Forall_forall _ _) H3 u Hu).
  - apply Exists_exists in H4 as (t & Ht & Hn). destruct (Hmissing (ex_intro _ t (conj Ht Hn))) as (s' & E & Es & _).
    exists s'. split; [exact E|exact Es].
Defined.
