(* ===== verification/Dissemination.v ===== *)
(** * Topics: a tree of MINHTON per topic, and Minhcast on it

    Model of [sola/src/event_dissemination/natter/event_dissemination_minhcast.cpp] with its
    [_impl], and of the state of [minhton.cpp]. For every topic there is a
    MINHTON node of its own ([MinhtonNode.v]); what it reports about its neighbours becomes peers
    of Minhcast ([Minhcast.v]). The nodes' logic, what the storage answers, the port a node gets,
    the UUIDs and the serializer are parameters; logging is left out. What a step of a node reports is
    handed to the callback when the step is done, not in its middle. *)

From S2P Require Import Prelude RoutingCalculations TreeMapper TreeHelper NodeInfo Containers NodeData RoutingInformation Message Fsm MinhtonNode Minhcast.

(** ** What a node reports *)

(** [ConnectionInfo] *)
Record ConnectionInfo := {
  ci_node : NodeInfo;
  ci_relationship : NeighborRelationship;
  ci_ip_old : list ascii;
  ci_port_old : Z;
  ci_position : Z;
  ci_ourself : NodeInfo;
}.

(** The subscription in the constructor of the node *)
Definition connection_info (ourself new_node : NodeInfo) (relationship : NeighborRelationship) (old_node : NodeInfo) (position : Z)
    : ConnectionInfo :=
  {| ci_node := new_node; ci_relationship := relationship; ci_ip_old := address_ (p_node_info_ old_node);
     ci_port_old := port_ (p_node_info_ old_node); ci_position := position; ci_ourself := ourself |}.

Definition reports (ourself : NodeInfo) (l : list Notification) : list ConnectionInfo :=
  omap (fun n => match n with
    | NeighborChange new_node relationship old_node index => Some (connection_info ourself new_node relationship old_node index)
    | NodeInfoChange _ _ => None
    end) l.

(** [Minhton::getState] *)
Inductive OverlayState := overlay_idle | overlay_started | overlay_connected | overlay_error.

#[export] Instance OverlayState_eq_dec : EqDecision OverlayState.
Proof. solve_decision. Defined.

(** The default case is for values that are no state. *)
Definition Minhton_getState (fsm_state : FSMState) : OverlayState :=
  match fsm_state with
  | Fsm.kIdle => overlay_idle
  | kWaitForBootstrapResponse | kWaitForJoinAccept => overlay_started
  | kConnected | kConnectedAcceptingChild | kConnectedReplacing | kWaitForReplacementOffer | kConnectedWaitingParentResponse
  | kSignOffFromInlevelNeighbors | kConnectedWaitingParentResponseDirectLeaveWoReplacement
  | kSignOffFromInlevelNeighborsDirectLeaveWoReplacement => overlay_connected
  | kJoinFailed | kErrorState => overlay_error
  end.

(** ** Event dissemination *)

Record TopicMessage := { tm_topic : string; tm_sender : string; tm_content : string; tm_uuid : string }.
Record Request := { all : bool; permissive : bool; request : string }.

(** [Info] *)
Abbreviation Address := (list ascii * Z)%type.
Abbreviation FindResult := (list (list (string * Value * ValueType))).
Abbreviation text := String.string_of_list_ascii.

Definition kNatterPort : Z := 2001.

Section Topics.
Context `{Payloads} {LogicState : Type} `{Platform, Inet, UuidText, StdSet, Unordered}.
Context {logic : Logic (LogicState := LogicState)}.
Abbreviation Tree := (MinhtonNode (LogicState := LogicState)).
(** The state of a new node's algorithms, our address, the port of the node of a topic, the UUID
    of a node as Minhcast takes it, and the serializer. *)
Variables (logic0 : LogicState) (own_ip : list ascii) (tree_port : string -> Z) (raw_uuid : NodeInfo -> uuid)
  (serialize : TopicMessage -> string).

Record EventDissemination := {
  minhcast_ : Impl;
  result_ : gset string;
  minhton_loggers_ : list string;
  topic_trees_ : gmap string Tree;
  peers_added_natter_ : gmap Address Z;
  stopping_ : bool;
  asked : list Request;
  stored : list (list (string * Value));
}.

Abbreviation D := EventDissemination.

Definition construct (me : uuid) : D :=
  {| minhcast_ := {| uuid_ := me; own_node_info_ := ∅; other_peers_ := ∅; received_messages_ := []; Minhcast.sent_ := [];
                     delivered_ := [] |};
     result_ := ∅; minhton_loggers_ := []; topic_trees_ := ∅; peers_added_natter_ := ∅; stopping_ := false; asked := [];
     stored := [] |}.

Definition set_minhcast (v : Impl) (s : D) : D :=
  let '(Build_EventDissemination _ r l t p b a o) := s in Build_EventDissemination v r l t p b a o.
Definition set_results (v : gset string) (s : D) : D :=
  let '(Build_EventDissemination m _ l t p b a o) := s in Build_EventDissemination m v l t p b a o.
Definition set_loggers (v : list string) (s : D) : D :=
  let '(Build_EventDissemination m r _ t p b a o) := s in Build_EventDissemination m r v t p b a o.
Definition set_trees (v : gmap string Tree) (s : D) : D :=
  let '(Build_EventDissemination m r l _ p b a o) := s in Build_EventDissemination m r l v p b a o.
Definition set_added (v : gmap Address Z) (s : D) : D :=
  let '(Build_EventDissemination m r l t _ b a o) := s in Build_EventDissemination m r l t v b a o.
Definition set_stopping (v : bool) (s : D) : D :=
  let '(Build_EventDissemination m r l t p _ a o) := s in Build_EventDissemination m r l t p v a o.
Definition ask_storage (r : Request) (s : D) : D :=
  let '(Build_EventDissemination m c l t p b a o) := s in Build_EventDissemination m c l t p b (a ++ [r]) o.
Definition store (e : list (string * Value)) (s : D) : D :=
  let '(Build_EventDissemination m r l t p b a o) := s in Build_EventDissemination m r l t p b a (o ++ [e]).

Definition on_minhcast {A} (m : M Impl A) : M D A := zoom minhcast_ set_minhcast m.

(** *** The callback of the node of a topic *)

(** [peers_added_natter_.at(a)] *)
Definition added_at (a : Address) : M D Z :=
  s ← get;
  match peers_added_natter_ s !! a with Some n => mret n | None => throw (out_of_range "unordered_map::at") end.

Definition level_number (n : NodeInfo) : LevelNumber := (Node.getLevel n, Node.getNumber n, Node.getFanout n).
Definition address_of (n : NodeInfo) : Address := (address_ (p_node_info_ n), port_ (p_node_info_ n)).

(** The UUID of our own node is left to its default. *)
Definition ourselves (n : NodeInfo) : MinhcastNodeInfo :=
  {| position := level_number n; network_info := (text (address_of n).1, (address_of n).2); peer_uuid := 0 |}.
Definition peer_of (n : NodeInfo) : MinhcastNodeInfo :=
  {| position := level_number n; network_info := (text (address_of n).1, kNatterPort); peer_uuid := raw_uuid n |}.

Definition neighbor_callback (topic : string) (neighbor : ConnectionInfo) : M D unit :=
  let a := address_of (ci_node neighbor) in
  s ← get;
  (match peers_added_natter_ s !! a with None => modify (fun s => set_added (<[a := 0]> (peers_added_natter_ s)) s) | Some _ => mret tt end);;
  n ← added_at a;
  modify (fun s => set_added (<[a := u32 (n + 1)]> (peers_added_natter_ s)) s);;
  number_current_added ← added_at a;
  s ← get;
  (if negb (isSubscribedToTopic topic (minhcast_ s))
   then on_minhcast (subscribeTopic topic (ourselves (ci_ourself neighbor))) else mret tt);;
  (if number_current_added =? 1 then on_minhcast (addPeer topic (peer_of (ci_node neighbor)));; mret tt else mret tt);;
  if bool_decide (ci_ip_old neighbor = []) then mret tt
  else
    let old := (ci_ip_old neighbor, ci_port_old neighbor) in
    n ← added_at old;
    modify (fun s => set_added (<[old := u32 (n - 1)]> (peers_added_natter_ s)) s);;
    number_old_added ← added_at old;
    if number_old_added =? 0 then
      on_minhcast (removePeer topic (text (ci_ip_old neighbor)) kNatterPort);;
      modify (fun s => set_added (delete old (peers_added_natter_ s)) s)
    else mret tt.

(** What a step of a node reports goes to the callback when the step is done. *)
Definition run_tree {A} (topic : string) (m : M Tree A) : M D A :=
  s ← get;
  match topic_trees_ s !! topic with
  | None => throw (out_of_range "unordered_map::at")
  | Some tree =>
      let (r, tree') := m tree in
      modify (fun s => set_trees (<[topic := tree']> (topic_trees_ s)) s);;
      for_each (reports (getNodeInfo tree') (drop (length (notified_ (routing_info_ tree))) (notified_ (routing_info_ tree'))))
        (neighbor_callback topic);;
      lift r
  end.

(** *** Joining *)

(** The timeouts of a topic's node *)
Definition timeouts : TimeoutLengthsContainer :=
  {| bootstrap_response := 500; join_response := 500; join_accept_ack_response := 500; replacement_offer_response := 500;
     replacement_ack_response := 500; dsn_aggregation := 1000; inquiry_aggregation := 500 |}.

(** The value of the last entry with the topic for its key *)
Fixpoint connection_string (topic : string) (values : list (string * Value * ValueType)) (found : list ascii) : outcome (list ascii) :=
  match values with
  | [] => Ok found
  | (key, variant, _) :: rest =>
      if bool_decide (key = topic) then
        match variant with
        | Value_string v => connection_string topic rest (String.list_ascii_of_string v)
        | _ => Throw bad_variant_access
        end
      else connection_string topic rest found
  end.

(** [substr] up to the colon, and [stoi] of what follows it; the port has 16 bits. *)
Definition join_info (connection : list ascii) : outcome JoinInfo :=
  let '(ip, rest) := match find_index (fun c => bool_decide (c = colon)) connection with
    | Some i => (take i connection, drop (i + 1) connection)
    | None => (connection, connection)
    end in
  port ← std_stoi rest;
  mret {| join_mode := kIp; MinhtonNode.ip := ip; MinhtonNode.port := u16 port |}.

Definition no_join : JoinInfo := {| join_mode := kNoJoin; MinhtonNode.ip := []; MinhtonNode.port := 0 |}.

(** The constructor of the node: its configuration, then its start *)
Definition new_tree (topic : string) (root : bool) (info : JoinInfo) : outcome Tree :=
  tree ← setConfig own_ip (tree_port topic) root 2 timeouts logic0;
  Logical.construct tree (MinhtonNode.start info true).

Definition joinMinhton (result : FindResult) (topic : string) : M D unit :=
  s ← get;
  throw_if (stopping_ s) (runtime_error "already stopping!");;
  config ← (match result with
            | values :: _ =>
                connection ← lift (connection_string topic values []);
                (if bool_decide (connection = []) then lift Undefined else mret tt);;
                info ← lift (join_info connection);
                mret (false, info)
            | [] => mret (true, no_join)
            end);
  tree ← lift (new_tree topic config.1 config.2);
  modify (fun s => set_trees (<[topic := tree]> (topic_trees_ s)) s);;
  (if bool_decide (Minhton_getState (m_state (fsm_ tree)) = overlay_connected)
   then on_minhcast (subscribeTopic topic (ourselves (getNodeInfo tree))) else mret tt);;
  match result with
  | [] =>
      let info := getNodeInfo tree in
      modify (store [(topic, Value_string (text ((address_of info).1 ++ [colon] ++ to_string (address_of info).2)))])
  | _ => mret tt
  end.

(** The future is ready when it has been waited for; its topic is forgotten when the join is done. *)
Definition waitForResults (topic : string) (result : FindResult) : M D unit :=
  s ← get;
  throw_if (negb (bool_decide (topic ∈ result_ s))) (out_of_range "unordered_map::at");;
  throw_if (negb (bool_decide (topic ∈ minhton_loggers_ s))) (runtime_error "no logger found");;
  joinMinhton result topic;;
  modify (fun s => set_results (result_ s ∖ {[topic]}) s);;
  modify (fun s => set_loggers (match find_index (fun t => bool_decide (t = topic)) (minhton_loggers_ s) with
                                | Some i => base.delete i (minhton_loggers_ s)
                                | None => minhton_loggers_ s
                                end) s).

(** *** The operations *)

(** [generateUUID()] is the argument [message_id]. *)
Definition publish (msg : TopicMessage) (message_id : uuid) : M D unit :=
  s ← get;
  throw_if (stopping_ s) (runtime_error "already stopping!");;
  on_minhcast (Minhcast.publish (tm_topic msg) (serialize msg) message_id);;
  mret tt.

(** [result] is what the storage finds. *)
Definition subscribe (topic : string) (result : FindResult) : M D unit :=
  s ← get;
  throw_if (stopping_ s) (runtime_error "already stopping!");;
  throw_if (bool_decide (is_Some (topic_trees_ s !! topic))) (runtime_error "already part of topic");;
  throw_if (bool_decide (topic ∈ result_ s)) (runtime_error "joining topic already in progress");;
  modify (ask_storage {| all := false; permissive := true; request := "(HAS " ++ topic ++ ")" |});;
  modify (fun s => set_results ({[topic]} ∪ result_ s) s);;
  modify (fun s => set_loggers (minhton_loggers_ s ++ [topic]) s);;
  waitForResults topic result.

Definition unsubscribe (topic : string) : M D unit :=
  s ← get;
  throw_if (negb (bool_decide (is_Some (topic_trees_ s !! topic)))) (runtime_error "not part of topic!");;
  run_tree topic MinhtonNode.stop;;
  on_minhcast (unsubscribeTopic topic).

Definition stop : M D unit :=
  modify (set_stopping true);;
  s ← get;
  for_each (walk (map_to_list (topic_trees_ s)).*1) unsubscribe.

Definition canStop (s : D) : bool :=
  stopping_ s &&
  forallb (fun e => bool_decide (Minhton_getState (m_state (fsm_ e.2)) = overlay_idle)) (map_to_list (topic_trees_ s)).
End Topics.
