(* ===== verification/DisseminationProperties.v ===== *)
(** * Theorems on topics

    When every link of a node is made and cut on its own, the peers Minhcast knows for a topic are
    the nodes that are linked. When a link changes from one node to another at the same position,
    or an adjacent node is lost, they are not. *)

From S2P Require Import Prelude RoutingCalculations TreeMapper TreeHelper NodeInfo Containers NodeData RoutingInformation Message Fsm MinhtonNode Minhcast MinhcastInvariants Dissemination.

(** ** The peers of Minhcast *)

Abbreviation Key := (LevelNumber * (string * Z))%type.
Definition key (i : MinhcastNodeInfo) : Key := (position i, network_info i).

Lemma ln_eqb_eq p q : ln_eqb p q = true <-> p = q.
Proof.
  destruct p as [[l n] f], q as [[l' n'] f']. unfold ln_eqb, ln_level, ln_number, ln_fanout. cbn.
  rewrite !andb_true_iff, !Z.eqb_eq. split; [by intros [[-> ->] ->]|by intros [= -> -> ->]].
Qed.

Lemma knows_spec peers p : knows peers p = true <-> exists y, y ∈ peers /\ position y = p.
Proof.
  unfold knows, find_peer. split.
  - destruct (List.find _ peers) as [y|] eqn:E; [|done]. intros _. apply List.find_some in E as [Hy E%ln_eqb_eq].
    exists y. split; [by apply list_elem_of_In|done].
  - intros (y & Hy & <-). destruct (List.find _ peers) eqn:E; [done|].
    apply list_elem_of_In in Hy. apply (List.find_none _ _ E) in Hy. apply not_true_iff_false in Hy. exfalso. by apply Hy, ln_eqb_eq.
Qed.

Lemma set_insert_new x peers : (forall y, y ∈ peers -> position y <> position x) -> set_insert peer_lt x peers ≡ₚ x :: peers.
Proof.
  induction peers as [|y peers IH]; intros Hnew; [done|]. cbn. unfold peer_lt at 1 2.
  destruct (ln_lt (position x) (position y)) eqn:E1; [done|]. destruct (ln_lt (position y) (position x)) eqn:E2.
  - rewrite IH by set_solver. by rewrite Permutation_swap.
  - exfalso. apply (Hnew y); [set_solver|]. symmetry. by apply ln_lt_spec.
Qed.

Lemma text_inj a b : text a = text b -> a = b.
Proof. intros H. rewrite <- (String.list_ascii_of_string_of_list_ascii a), H. apply String.list_ascii_of_string_of_list_ascii. Qed.

Lemma bind_after {S A B} (m : M S A) (k : A -> M S B) s a s' : m s = (Ok a, s') -> (m ≫= k) s = k a s'.
Proof. intros E. mred. by rewrite E. Qed.

Lemma addPeer_new topic i peers (mc : Impl) :
  other_peers_ mc !! topic = Some peers -> knows peers (position i) = false -> 2 <= ln_fanout (position i) ->
  addPeer topic i mc = (Ok true, set_peers (own_node_info_ mc) (<[topic := set_insert peer_lt i peers]> (other_peers_ mc)) mc).
Proof. intros Hp Hk Hf%Z.leb_le. unfold addPeer, NATTER_CHECK. rewrite bind_get, Hp, Hk, Hf. done. Qed.

Lemma addPeer_known topic i peers (mc : Impl) :
  other_peers_ mc !! topic = Some peers -> knows peers (position i) = true -> addPeer topic i mc = (Ok false, mc).
Proof. intros Hp Hk. unfold addPeer. by rewrite bind_get, Hp, Hk. Qed.

Lemma removePeer_found topic ip port peers i (mc : Impl) :
  other_peers_ mc !! topic = Some peers -> i ∈ peers -> network_info i = (ip, port) ->
  exists j rest, peers ≡ₚ j :: rest /\ network_info j = (ip, port) /\
    removePeer topic ip port mc = (Ok true, set_peers (own_node_info_ mc) (<[topic := rest]> (other_peers_ mc)) mc).
Proof.
  intros Hp Hi Hn. unfold removePeer. rewrite bind_get, Hp.
  destruct (find_index _ peers) as [k|] eqn:E.
  - apply find_index_Some in E as (j & Hj & Hnet%bool_decide_eq_true & _). exists j, (base.delete k peers).
    split_and!; [by apply delete_Permutation|done|]. by rewrite <- delete_take_drop.
  - apply (proj1 (find_index_None _ _)) with (x := i) in E; [|done]. by rewrite bool_decide_eq_true_2 in E.
Qed.

Section Topics.
Context `{Payloads} {LogicState : Type}.
Variable raw_uuid : NodeInfo -> uuid.
Abbreviation D := (EventDissemination (LogicState := LogicState)).
Abbreviation callback := (neighbor_callback raw_uuid (LogicState := LogicState)).

(** Nodes that can be told apart by their address, by their ip and by their position. *)
Record distinct_nodes (U : NodeInfo -> Prop) : Prop := {
  u_fanout n : U n -> 2 <= Node.getFanout n;
  u_ip n : U n -> (address_of n).1 <> [];
  u_ip_inj n m : U n -> U m -> (address_of n).1 = (address_of m).1 -> address_of n = address_of m;
  u_position n m : U n -> U m -> level_number n = level_number m <-> address_of n = address_of m;
}.

Definition count_at (a : Address) (l : list NodeInfo) : nat := length (List.filter (fun n => bool_decide (address_of n = a)) l).
Definition counter (k : nat) : option Z := match k with O => None | _ => Some (Z.of_nat k) end.

(** What Minhcast and the counters know when the links in a list are there; a node that is linked
    several times is in the list as often. *)
Record linked (U : NodeInfo -> Prop) (topic : string) (l : list NodeInfo) (s : D) : Prop := {
  linked_subscribed : is_Some (own_node_info_ (minhcast_ s) !! topic);
  linked_peers : exists peers, other_peers_ (minhcast_ s) !! topic = Some peers /\ NoDup (key <$> peers) /\
    forall k, k ∈ key <$> peers <-> exists n, n ∈ l /\ k = key (peer_of raw_uuid n);
  linked_added n : U n -> peers_added_natter_ s !! address_of n = counter (count_at (address_of n) l);
}.

#[local] Instance count_at_perm a : Proper ((≡ₚ) ==> eq) (count_at a).
Proof. intros l k Hlk. unfold count_at. induction Hlk; cbn; repeat case_bool_decide; cbn; congruence. Qed.

Lemma linked_perm U topic l l' s : l ≡ₚ l' -> linked U topic l s -> linked U topic l' s.
Proof.
  intros Hp [Hs (peers & Hpeers & Hnd & Hk) Ha]. split; [done| |intros n Hn; by rewrite <- Hp, Ha].
  exists peers. split_and!; [done|done|]. intros k. rewrite Hk. by setoid_rewrite Hp.
Qed.

Lemma count_at_zero a l : count_at a l = 0%nat <-> forall n, n ∈ l -> address_of n <> a.
Proof.
  unfold count_at. induction l as [|m l IH]; cbn; [set_solver|]. case_bool_decide; cbn; [|rewrite IH; set_solver].
  split; [done|]. intros Hn. exfalso. apply (Hn m); [set_solver|done].
Qed.

Lemma count_at_length a l : (count_at a l <= length l)%nat.
Proof. apply List.filter_length_le. Qed.

Lemma counter_next k : Z.of_nat k + 1 < 2 ^ 32 -> u32 (default 0 (counter k) + 1) = Z.of_nat (Datatypes.S k).
Proof.
  intros Hk. assert (Hd : default 0 (counter k) = Z.of_nat k) by by destruct k.
  rewrite Hd, u32_id by (unfold in_u32; lia). lia.
Qed.

Lemma on_minhcast_Ok {A B} (m : M Impl A) (k : A -> M D B) s a mc :
  m (minhcast_ s) = (Ok a, mc) -> (on_minhcast m ≫= k) s = k a (set_minhcast mc s).
Proof. intros E. unfold on_minhcast. mred. by rewrite E. Qed.

(** The callback with a subscribed topic, one statement after the other *)
Lemma callback_subscribed topic c s :
  is_Some (own_node_info_ (minhcast_ s) !! topic) ->
  let a := address_of (ci_node c) in
  let n := u32 (default 0 (peers_added_natter_ s !! a) + 1) in
  let s1 := set_added (<[a := n]> (peers_added_natter_ s)) s in
  callback topic c s =
    ((if n =? 1 then on_minhcast (addPeer topic (peer_of raw_uuid (ci_node c)));; mret tt else mret tt);;
     if bool_decide (ci_ip_old c = []) then mret tt
     else
       let old := (ci_ip_old c, ci_port_old c) in
       n ← added_at old;
       modify (fun s => set_added (<[old := u32 (n - 1)]> (peers_added_natter_ s)) s);;
       number_old_added ← added_at old;
       if number_old_added =? 0 then
         on_minhcast (removePeer topic (text (ci_ip_old c)) kNatterPort);;
         modify (fun s => set_added (delete old (peers_added_natter_ s)) s)
       else mret tt) s1.
Proof.
  intros Hs a n s1. unfold neighbor_callback, added_at. fold a. rewrite bind_get. destruct s as [m r lg t p b q o]. cbn in *.
  unfold isSubscribedToTopic. subst n s1.
  destruct (p !! a) as [k|] eqn:E; mred; cbn; rewrite ?lookup_insert_eq; cbn; rewrite ?insert_insert_eq, ?E, ?lookup_insert_eq; cbn;
    rewrite ?lookup_insert_eq; cbn; rewrite bool_decide_eq_true_2 by done; cbn; done.
Qed.

Section Distinct.
Context (U : NodeInfo -> Prop) (HU : distinct_nodes U) (topic : string).

Lemma key_inj n m : U n -> U m -> key (peer_of raw_uuid n) = key (peer_of raw_uuid m) <-> address_of n = address_of m.
Proof.
  intros Hn Hm. rewrite <- (u_position U HU n m Hn Hm). split; [intros Hkey; exact (f_equal fst Hkey)|].
  intros Hp. pose proof (proj1 (u_position U HU n m Hn Hm) Hp) as Ha.
  change ((level_number n, (text (address_of n).1, kNatterPort)) = (level_number m, (text (address_of m).1, kNatterPort))).
  by rewrite Hp, Ha.
Qed.

Lemma network_inj n m : U n -> U m -> network_info (peer_of raw_uuid n) = network_info (peer_of raw_uuid m) -> address_of n = address_of m.
Proof. intros Hn Hm [= Ht]. apply (u_ip_inj U HU n m Hn Hm). by apply text_inj. Qed.

Lemma key_of_linked (l : list NodeInfo) (peers : list MinhcastNodeInfo) : (forall k, k ∈ key <$> peers <-> exists n, n ∈ l /\ k = key (peer_of raw_uuid n)) ->
  forall y, y ∈ peers -> exists n, n ∈ l /\ key y = key (peer_of raw_uuid n).
Proof. intros Hk y Hy. apply Hk. by apply list_elem_of_fmap_2. Qed.

(** Removing a linked node takes exactly its key away. *)
Lemma removePeer_linked (l : list NodeInfo) (peers : list MinhcastNodeInfo) n (mc : Impl) :
  other_peers_ mc !! topic = Some peers -> NoDup (key <$> peers) ->
  (forall k, k ∈ key <$> peers <-> exists m, m ∈ l /\ k = key (peer_of raw_uuid m)) -> (forall m, m ∈ l -> U m) -> n ∈ l ->
  exists rest : list MinhcastNodeInfo, removePeer topic (text (address_of n).1) kNatterPort mc =
      (Ok true, set_peers (own_node_info_ mc) (<[topic := rest]> (other_peers_ mc)) mc) /\
    NoDup (key <$> rest) /\ forall k, k ∈ key <$> rest <-> k ∈ key <$> peers /\ k <> key (peer_of raw_uuid n).
Proof.
  intros Hpeers Hnd Hk Hl Hn.
  assert (Hkey : key (peer_of raw_uuid n) ∈ key <$> peers) by (apply Hk; by exists n).
  apply list_elem_of_fmap in Hkey as (y & Hyp & Hy).
  destruct (removePeer_found topic (text (address_of n).1) kNatterPort peers y mc Hpeers Hy) as (j & rest & Hrest & Hj & ->);
    [symmetry; exact (f_equal snd Hyp)|].
  destruct (key_of_linked l peers Hk j) as (m & Hm & Hjm); [rewrite Hrest; set_solver|].
  assert (Hjn : key j = key (peer_of raw_uuid n)).
  { rewrite Hjm. apply key_inj; [by apply Hl..|]. apply network_inj; [by apply Hl..|].
    etrans; [symmetry; exact (f_equal snd Hjm)|exact Hj]. }
  assert (Hkeys : key <$> peers ≡ₚ key j :: (key <$> rest)) by (by rewrite Hrest).
  exists rest. split; [done|]. rewrite Hkeys in Hnd. apply NoDup_cons in Hnd as [Hjr Hnd]. split; [done|].
  intros k. rewrite Hkeys, elem_of_cons, <- Hjn. split; [intros Hin; split; [by right|by intros ->]|by intros [[?|?] ?]].
Qed.

(** A new link: the node becomes a peer with its first link. *)
Lemma link_step l s n c :
  linked U topic l s -> U n -> (forall m, m ∈ l -> U m) -> Z.of_nat (length l) + 1 < 2 ^ 32 ->
  ci_node c = n -> ci_ip_old c = [] -> exists s', callback topic c s = (Ok tt, s') /\ linked U topic (n :: l) s'.
Proof.
  intros [Hsub (peers & Hpeers & Hnd & Hk) Hadd] Hn Hl Hlen Hcn Hold. rewrite callback_subscribed by done.
  rewrite Hcn, Hold, (Hadd n Hn). set (k := count_at (address_of n) l).
  assert (Hkl : (k <= length l)%nat) by apply count_at_length.
  rewrite counter_next by lia. rewrite (bool_decide_eq_true_2 ([] = [])) by done.
  assert (Hadd' : forall m, U m -> <[address_of n := Z.of_nat (Datatypes.S k)]> (peers_added_natter_ s) !! address_of m =
    counter (count_at (address_of m) (n :: l))).
  { intros m Hm. unfold count_at. cbn. case_bool_decide as E; cbn.
    - rewrite E, lookup_insert_eq. unfold k. by rewrite E.
    - rewrite lookup_insert_ne by done. by apply Hadd. }
  destruct s as [mc r lg t p b q o]. cbn [minhcast_ peers_added_natter_ set_added] in Hsub, Hpeers, Hadd, Hadd' |- *.
  destruct (Z.eqb_spec (Z.of_nat (Datatypes.S k)) 1) as [E1|E1].
  - assert (Ek0 : k = 0%nat) by lia. pose proof (proj1 (count_at_zero (address_of n) l) Ek0) as Ek.
    assert (Hnew : forall y, y ∈ peers -> position y <> position (peer_of raw_uuid n)).
    { intros y Hy Hpos. destruct (key_of_linked l peers Hk y Hy) as (m & Hm & Hkey). pose proof (f_equal fst Hkey) as Hp. cbn in Hp.
      apply (Ek m Hm). apply (u_position U HU m n (Hl m Hm) Hn). etrans; [symmetry; exact Hp|exact Hpos]. }
    assert (Hkn : knows peers (position (peer_of raw_uuid n)) = false).
    { apply not_true_iff_false. intros (y & Hy & Hpos)%knows_spec. by apply (Hnew y). }
    assert (Hf : 2 <= ln_fanout (position (peer_of raw_uuid n))) by apply (u_fanout U HU n Hn).
    eexists. split.
    { unfold on_minhcast. mred. cbn [minhcast_]. rewrite (addPeer_new _ _ peers) by done. reflexivity. }
    split; [done| |exact Hadd']. exists (set_insert peer_lt (peer_of raw_uuid n) peers). cbn.
    assert (Hsi : key <$> set_insert peer_lt (peer_of raw_uuid n) peers ≡ₚ key (peer_of raw_uuid n) :: (key <$> peers)).
    { by rewrite (set_insert_new _ _ Hnew). }
    rewrite lookup_insert_eq. split_and!; [done| |].
    + rewrite Hsi. apply NoDup_cons. split; [|done]. intros (m & Hm & Hkey)%Hk. apply (Ek m Hm). apply key_inj; [by apply Hl|done|done].
    + intros k'. rewrite Hsi, elem_of_cons, Hk. set_solver.
  - eexists. split; [reflexivity|]. split; [done| |exact Hadd']. exists peers. split_and!; [done|done|]. intros k'. rewrite Hk.
    assert (Hin : exists m, m ∈ l /\ address_of m = address_of n).
    { assert (Hk0 : k <> 0%nat) by lia. destruct (decide (Exists (fun m => address_of m = address_of n) l)) as [He|He].
      - by apply Exists_exists in He.
      - exfalso. apply Hk0, count_at_zero. intros m Hm Ha. apply He, Exists_exists. by exists m. }
    destruct Hin as (m & Hm & Ea). split; [set_solver|]. intros (n' & [->|Hn']%elem_of_cons & ->); [|by exists n'].
    exists m. split; [done|]. symmetry. apply key_inj; [by apply Hl|done|done].
Qed.

(** A link that is cut: the position is still known to Minhcast when the node without address comes in. *)
Lemma unlink_step l l' s n c :
  linked U topic l s -> l ≡ₚ n :: l' -> (forall m, m ∈ l -> U m) -> Z.of_nat (length l) + 1 < 2 ^ 32 ->
  ci_node c = Node.setPhysicalNodeInfo Physical.default n -> (ci_ip_old c, ci_port_old c) = address_of n ->
  exists s', callback topic c s = (Ok tt, s') /\ linked U topic l' s'.
Proof.
  intros Hlinked Hperm Hl Hlen Hcn Hold.
  assert (Hn : U n) by (apply Hl; rewrite Hperm; set_solver).
  assert (Hl' : forall m, m ∈ l' -> U m) by (intros m Hm; apply Hl; rewrite Hperm; set_solver).
  apply (linked_perm U topic _ _ s Hperm) in Hlinked. destruct Hlinked as [Hsub (peers & Hpeers & Hnd & Hk) Hadd].
  rewrite callback_subscribed by done. injection Hold as Hip Hport. rewrite Hcn, Hip, Hport.
  rewrite bool_decide_eq_false_2 by (apply (u_ip U HU n Hn)).
  set (e := address_of (Node.setPhysicalNodeInfo Physical.default n)).
  assert (He : e = ([], 0)) by done.
  assert (Hne : forall m, U m -> e <> address_of m).
  { intros m Hm Ha. apply (u_ip U HU m Hm). by rewrite <- Ha, He. }
  set (k := count_at (address_of n) l').
  assert (Hcount : count_at (address_of n) (n :: l') = Datatypes.S k) by (unfold count_at; cbn; by rewrite bool_decide_eq_true_2).
  assert (Hkl : (k <= length l')%nat) by apply count_at_length.
  assert (Elen : length l = Datatypes.S (length l')) by (by rewrite Hperm).
  assert (Hkn : knows peers (position (peer_of raw_uuid (Node.setPhysicalNodeInfo Physical.default n))) = true).
  { apply knows_spec. assert (Hkey : key (peer_of raw_uuid n) ∈ key <$> peers) by (apply Hk; exists n; set_solver).
    apply list_elem_of_fmap in Hkey as (y & Hy & Hyp). exists y. split; [done|]. by injection Hy. }
  destruct s as [mc r lg t p b q o]. cbn in Hsub, Hpeers, Hadd |- *.
  set (p1 := <[e := _]> p). set (s1 := Build_EventDissemination _ _ _ _ _ _ _ _).
  assert (Hfirst : (if u32 (default 0 (p !! e) + 1) =? 1 then on_minhcast (addPeer topic (peer_of raw_uuid (Node.setPhysicalNodeInfo Physical.default n)));; mret tt else mret tt) s1
    = (Ok tt, s1)).
  { destruct (_ =? 1); [|done]. unfold on_minhcast. mred. subst s1. cbn [minhcast_]. by rewrite (addPeer_known _ _ peers). }
  assert (Hp1 : forall m, U m -> p1 !! address_of m = counter (count_at (address_of m) (n :: l'))).
  { intros m Hm. unfold p1. rewrite lookup_insert_ne by (by apply Hne). by apply Hadd. }
  clearbody p1. clear Hip Hport.
  rewrite (bind_after _ _ _ _ _ Hfirst). unfold added_at. subst s1. mred. cbn [peers_added_natter_ set_added].
  change (address_ (p_node_info_ n), port_ (p_node_info_ n)) with (address_of n). rewrite (Hp1 n Hn), Hcount. cbn [counter peers_added_natter_ set_added].
  rewrite lookup_insert_eq.
  assert (Hu : u32 (Z.of_nat (Datatypes.S k) - 1) = Z.of_nat k) by (rewrite u32_id; [lia|unfold in_u32; lia]).
  rewrite Hu. assert (Hcm : forall m, U m -> address_of m <> address_of n -> count_at (address_of m) (n :: l') = count_at (address_of m) l').
  { intros m _ Hmn. unfold count_at. cbn. by rewrite bool_decide_eq_false_2 by congruence. }
  destruct (Z.eqb_spec (Z.of_nat k) 0) as [Ek|Ek].
  - assert (Hgone : forall m, m ∈ l' -> address_of m <> address_of n) by (apply count_at_zero; unfold k in Ek; lia).
    unfold on_minhcast. mred. cbn [minhcast_ set_added]. change (address_ (p_node_info_ n)) with (address_of n).1.
    destruct (removePeer_linked (n :: l') peers n mc) as (rest & -> & Hnd' & Hk'); try done; [|set_solver|].
    { intros m Hm. apply elem_of_cons in Hm as [->|Hm]; auto. }
    eexists. split; [reflexivity|]. split; [done| |].
    + exists rest. cbn. rewrite lookup_insert_eq. split_and!; [done|done|]. intros k'. rewrite Hk', Hk. split.
      * intros [(m & Hm & ->) Hnk]. exists m. split; [|done]. apply elem_of_cons in Hm as [->|Hm]; done.
      * intros (m & Hm & ->). split; [exists m; set_solver|]. intros Hkn'. apply (Hgone m Hm), key_inj; auto.
    + intros m Hm. cbn [peers_added_natter_ set_added set_minhcast]. rewrite delete_insert_eq.
      destruct (decide (address_of m = address_of n)) as [Emn|Emn].
      * rewrite Emn, lookup_delete_eq. change (count_at (address_of n) l') with k. by destruct k.
      * rewrite lookup_delete_ne by congruence. by rewrite Hp1, Hcm.
  - eexists. split; [reflexivity|]. split; [done| |].
    + exists peers. split_and!; [done|done|]. intros k'. rewrite Hk. split; [|set_solver].
      intros (m & [->|Hm]%elem_of_cons & ->); [|by exists m].
      assert (Hin : exists m, m ∈ l' /\ address_of m = address_of n).
      { destruct (decide (Exists (fun m => address_of m = address_of n) l')) as [He'|He']; [by apply Exists_exists in He'|].
        exfalso. apply Ek. cut (k = 0%nat); [lia|]. apply count_at_zero. intros m Hm Ha. apply He', Exists_exists. by exists m. }
      destruct Hin as (m & Hm & Ea). exists m. split; [done|]. symmetry. apply key_inj; auto.
    + intros m Hm. cbn [peers_added_natter_ set_added]. destruct (decide (address_of m = address_of n)) as [Emn|Emn].
      * rewrite Emn, lookup_insert_eq. change (count_at (address_of n) l') with k. by destruct k.
      * rewrite lookup_insert_ne by congruence. by rewrite Hp1, Hcm.
Qed.
End Distinct.

(** ** Links that are made and cut *)

(** A link to a node at a place where no node was, and a link that is cut: the place keeps the position. *)
Inductive Change :=
| Linked (relationship : NeighborRelationship) (index : Z) (old n : NodeInfo)
| Unlinked (relationship : NeighborRelationship) (index : Z) (n : NodeInfo).

Definition node_of (c : Change) : NodeInfo := match c with Linked _ _ _ n | Unlinked _ _ n => n end.
Definition report (ourself : NodeInfo) (c : Change) : ConnectionInfo :=
  match c with
  | Linked r i old n => connection_info ourself n r old i
  | Unlinked r i n => connection_info ourself (Node.setPhysicalNodeInfo Physical.default n) r n i
  end.

(** One occurrence less *)
Fixpoint without (n : NodeInfo) (l : list NodeInfo) : option (list NodeInfo) :=
  match l with
  | [] => None
  | m :: l' => if decide (m = n) then Some l' else cons m <$> without n l'
  end.

Lemma without_Some n l k : without n l = Some k -> l ≡ₚ n :: k.
Proof.
  revert k. induction l as [|m l IH]; intros k; cbn; [done|]. case_decide as E; [by intros [= <-]; rewrite E|].
  destruct (without n l) as [k'|]; [|done]. intros [= <-]. rewrite (IH k') by done. by rewrite Permutation_swap.
Qed.

(** The links after some changes: nothing may be linked where a node is linked, only a link that is there can be cut. *)
Fixpoint links_after (changes : list Change) (l : list NodeInfo) : option (list NodeInfo) :=
  match changes with
  | [] => Some l
  | Linked _ _ old n :: rest => if bool_decide (address_ (p_node_info_ old) = []) then links_after rest (n :: l) else None
  | Unlinked _ _ n :: rest => l' ← without n l; links_after rest l'
  end.

(** C30: the peers of a topic are the nodes its tree is linked with, as long as links are made
    where no node was and cut afterwards (a node that directly takes the place of another is
    lost). Take a subscribed topic whose peers and counters are those of its links, and a sequence
    of reports (links and reports together fewer than 2^32 - 1), each of a new link at a place without an address or of the cut of a link that is
    there (the place keeps the position). All nodes have an ip and a fanout of at least 2, and
    different nodes have different ips and different positions. Then the callback never fails,
    and afterwards the peers Minhcast knows are exactly the nodes that still have a link, each
    once, with their position, their ip and the port of Minhcast, and the counter of every node is
    the number of its links. *)
Theorem peers_are_links U topic ourself changes l l' s :
  distinct_nodes U -> Forall U (node_of <$> changes) -> Forall U l -> linked U topic l s ->
  links_after changes l = Some l' -> Z.of_nat (length l + length changes) + 1 < 2 ^ 32 ->
  exists s', for_each (report ourself <$> changes) (callback topic) s = (Ok tt, s') /\ linked U topic l' s'.
Proof.
  intros HU. revert l s. induction changes as [|c changes IH]; intros l s Hc Hl Hs El Hlen.
  { injection El as <-. by exists s. }
  cbn [fmap list_fmap for_each] in *. apply Forall_cons in Hc as [Hn Hc]. rewrite Forall_forall in Hl. cbn [length] in Hlen.
  destruct c as [r i old n|r i n]; cbn [links_after node_of report] in *.
  - case_bool_decide as Hold; [|done].
    destruct (link_step U HU topic l s n (connection_info ourself n r old i)) as (s1 & E1 & Hs1); try done; [lia|].
    rewrite (bind_after _ _ _ _ _ E1). apply (IH (n :: l)); try done; [|cbn; lia].
    apply Forall_cons; split; [done|]. by apply Forall_forall.
  - destruct (without n l) as [k|] eqn:Ek; [|done]. cbn in El. apply without_Some in Ek.
    assert (Elen : length l = Datatypes.S (length k)) by (by rewrite Ek).
    destruct (unlink_step U HU topic l k s n (connection_info ourself (Node.setPhysicalNodeInfo Physical.default n) r n i))
      as (s1 & E1 & Hs1); try done; [lia|].
    rewrite (bind_after _ _ _ _ _ E1). apply (IH k); try done; [|lia]. apply Forall_forall. intros m Hm. apply Hl. rewrite Ek. set_solver.
Qed.

(** A topic that has just been subscribed to, with counters for none of the nodes *)
Lemma subscribed_linked U topic i (s : D) :
  (forall n, U n -> peers_added_natter_ s !! address_of n = None) ->
  linked U topic [] (set_minhcast (set_peers (<[topic := i]> (own_node_info_ (minhcast_ s))) (<[topic := []]> (other_peers_ (minhcast_ s)))
    (minhcast_ s)) s).
Proof.
  intros Ha. destruct s as [mc r lg t p b q o]. cbn in *. split; cbn.
  - rewrite lookup_insert_eq. by eexists.
  - exists []. rewrite lookup_insert_eq. split_and!; [done|constructor|]. intros k. cbn. set_solver.
  - done.
Qed.

(** ** A node that takes the place of another *)

(** When a link changes from one node directly to another at the same position, as with the
    parent, the adjacent nodes and the routing table after a node has been replaced, Minhcast
    loses the position: the new node is refused because the position is known, then the old node
    is removed. The counter of the new node says that it is a peer, so that the next link to it
    at a free place does not enter it either. This holds for a subscribed topic whose peers and
    counters are those of its links, in which the old node has one link and the new one, at
    another address, none. All linked nodes have an ip and a fanout of at least 2, and different
    ones have different ips and positions. *)
Theorem replaced_neighbor_is_lost U topic l s old new ourself relationship index :
  distinct_nodes U -> Forall U l -> linked U topic l s -> old ∈ l -> count_at (address_of old) l = 1%nat ->
  level_number new = level_number old -> address_of new <> address_of old ->
  peers_added_natter_ s !! address_of new = None ->
  exists s' peers, callback topic (connection_info ourself new relationship old index) s = (Ok tt, s') /\
    other_peers_ (minhcast_ s') !! topic = Some peers /\ knows peers (level_number new) = false /\
    peers_added_natter_ s' !! address_of new = Some 1 /\
    forall ourself' relationship' index' nobody, address_ (p_node_info_ nobody) = [] ->
      exists s'', callback topic (connection_info ourself' new relationship' nobody index') s' = (Ok tt, s'') /\
        minhcast_ s'' = minhcast_ s'.
Proof.
  intros HU Hl [Hsub (peers & Hpeers & Hnd & Hk) Hadd] Hold Hcount Hpos Hne Hnew. rewrite Forall_forall in Hl.
  assert (Uo : U old) by auto. rewrite callback_subscribed by done. cbn [connection_info ci_node ci_ip_old ci_port_old].
  rewrite Hnew. change (u32 (default 0 None + 1)) with 1. cbn [Z.eqb Pos.eqb].
  change (address_ (p_node_info_ old)) with (address_of old).1. rewrite bool_decide_eq_false_2 by (apply (u_ip U HU old Uo)).
  change ((address_of old).1, port_ (p_node_info_ old)) with (address_of old).
  destruct s as [mc r lg t p b q o]. cbn [minhcast_ peers_added_natter_ set_added] in Hsub, Hpeers, Hadd, Hnew |- *.
  assert (Hkey : key (peer_of raw_uuid old) ∈ key <$> peers) by (apply Hk; by exists old).
  apply list_elem_of_fmap in Hkey as (y & Hyk & Hy).
  assert (Hkn : knows peers (position (peer_of raw_uuid new)) = true).
  { apply knows_spec. exists y. split; [done|]. etrans; [symmetry; exact (f_equal fst Hyk)|]. symmetry. exact Hpos. }
  pose proof (Hadd old Uo) as Ha. rewrite Hcount in Ha. cbn [counter] in Ha.
  set (p1 := <[address_of new := 1]> p).
  assert (Hp1 : p1 !! address_of old = Some 1) by (unfold p1; by rewrite lookup_insert_ne).
  assert (Hp1n : p1 !! address_of new = Some 1) by (unfold p1; by rewrite lookup_insert_eq). clearbody p1.
  destruct (removePeer_linked U HU topic l peers old mc) as (rest & Erem & _ & Hrest); try done.
  unfold on_minhcast, added_at. mred. cbn [minhcast_]. rewrite (addPeer_known _ _ peers) by done.
  cbn [minhcast_ peers_added_natter_ set_added set_minhcast]. rewrite Hp1. cbn [minhcast_ peers_added_natter_ set_added set_minhcast].
  rewrite lookup_insert_eq. change (u32 (1 - 1)) with 0. cbn [Z.eqb minhcast_]. rewrite Erem.
  cbn [minhcast_ peers_added_natter_ set_added set_minhcast]. rewrite delete_insert_eq.
  match goal with |- exists _ _, (Ok tt, ?x) = _ /\ _ => set (s' := x) end.
  assert (Hs' : peers_added_natter_ s' !! address_of new = Some 1).
  { subst s'. cbn. by rewrite lookup_delete_ne by congruence. }
  assert (Hpeers' : other_peers_ (minhcast_ s') !! topic = Some rest) by (subst s'; cbn; by rewrite lookup_insert_eq).
  exists s', rest. split; [done|]. split; [done|]. split; [|split; [done|]].
  - apply not_true_iff_false. intros (z & Hz & Hzp)%knows_spec.
    assert (Hzk : key z ∈ key <$> rest) by by apply list_elem_of_fmap_2.
    apply Hrest in Hzk as [(m & Hm & Hzm)%Hk Hz'].
    apply Hz'. rewrite Hzm. apply (key_inj U HU); [by auto|done|]. apply (u_position U HU m old); [by auto|done|].
    rewrite <- Hpos, <- Hzp. symmetry. exact (f_equal fst Hzm).
  - intros ourself' relationship' index' nobody Hno. rewrite callback_subscribed by exact Hsub.
    cbn [connection_info ci_node ci_ip_old]. rewrite Hs', Hno. change (u32 (default 0 (Some 1) + 1)) with 2. cbn [Z.eqb Pos.eqb].
    eexists. split; [reflexivity|]. by destruct s'.
Qed.

(** ** An adjacent node that is lost *)

(** The report of a lost adjacent node fails. The place is reset to a node without position,
    and when this node is counted for the first time the callback hands it to Minhcast, which
    refuses its fanout: the exception leaves the callback before the node that was lost is
    removed, so that Minhcast still has it for a peer. This holds for a subscribed topic whose
    peers and counters are those of its links (to nodes with a fanout of at least 2, and different
    ips and positions), as long as no place was reset before. *)
Theorem lost_adjacent_throws U topic l s lost ourself relationship index :
  distinct_nodes U -> Forall U l -> linked U topic l s -> lost ∈ l ->
  peers_added_natter_ s !! address_of Node.default = None ->
  exists s', callback topic (connection_info ourself Node.default relationship lost index) s =
      (Throw (runtime_error "Fanout must be >= 2"), s') /\
    minhcast_ s' = minhcast_ s /\ peers_added_natter_ s' !! address_of lost = peers_added_natter_ s !! address_of lost /\
    exists peers, other_peers_ (minhcast_ s') !! topic = Some peers /\ knows peers (level_number lost) = true.
Proof.
  intros HU Hl [Hsub (peers & Hpeers & _ & Hk) _] Hlost Hnone. rewrite Forall_forall in Hl. assert (Ul : U lost) by auto.
  assert (Hknows : forall p, knows peers p = true <-> exists m, m ∈ l /\ level_number m = p).
  { intros p. rewrite knows_spec. split.
    - intros (y & Hy & <-). destruct (key_of_linked l peers Hk y Hy) as (m & Hm & Hym). exists m. split; [done|].
      symmetry. exact (f_equal fst Hym).
    - intros (m & Hm & <-). assert (Hin : key (peer_of raw_uuid m) ∈ key <$> peers) by (apply Hk; by exists m).
      apply list_elem_of_fmap in Hin as (y & Hy & Hin). exists y. split; [done|]. symmetry. exact (f_equal fst Hy). }
  rewrite callback_subscribed by done. cbn [connection_info ci_node]. rewrite Hnone. change (u32 (default 0 None + 1) =? 1) with true.
  assert (Hnew : knows peers (position (peer_of raw_uuid Node.default)) = false).
  { apply not_true_iff_false. intros (m & Hm & Hp)%Hknows. pose proof (u_fanout U HU m (Hl m Hm)) as Hf.
    change (Node.getFanout m) with (ln_fanout (level_number m)) in Hf. rewrite Hp in Hf. by cbn in Hf. }
  destruct s as [mc r lg t p b q o]. cbn [minhcast_ peers_added_natter_ set_added] in Hpeers |- *.
  eexists. split.
  { unfold on_minhcast, addPeer. mred. cbn [minhcast_]. rewrite Hpeers. cbn [position peer_of] in Hnew |- *. rewrite Hnew. reflexivity. }
  cbn. split; [by destruct mc|]. split.
  - rewrite lookup_insert_ne; [done|]. intros Ha. apply (u_ip U HU lost Ul). by rewrite <- Ha.
  - exists peers. split; [by destruct mc|]. apply Hknows. by exists lost.
Qed.

End Topics.

(** ** A topic with two other nodes *)

Section Concrete.
Definition no_payloads : Payloads := {| ValueAndType := unit; OtherPayload := unit; validateOther := fun _ => true |}.
#[local] Existing Instance no_payloads.

Definition at_ip (ip : string) (level number : Z) : NodeInfo :=
  {| l_node_info_ := {| level_ := level; number_ := number; fanout_ := 2; NodeInfo.uuid_ := UUID_generated; initialized_ := true |};
     p_node_info_ := {| port_ := 2000; address_ := String.list_ascii_of_string ip |}; status_ := NodeInfo.kRunning |}.
Definition node_a : NodeInfo := at_ip "10.0.0.1" 0 0.
Definition node_b : NodeInfo := at_ip "10.0.0.2" 1 0.
Definition node_c : NodeInfo := at_ip "10.0.0.3" 1 1.
Definition two_nodes (n : NodeInfo) : Prop := n = node_b \/ n = node_c.

Lemma two_distinct : distinct_nodes two_nodes.
Proof. split; [intros n [->| ->]|intros n [->| ->]|intros n m [->| ->] [->| ->]|intros n m [->| ->] [->| ->]]; by cbn. Qed.

(** Our node after it has subscribed *)
Definition fresh : EventDissemination (LogicState := unit) := construct 1.
Definition subscribed : EventDissemination (LogicState := unit) :=
  set_minhcast (set_peers (<["topic" := ourselves node_a]> (own_node_info_ (minhcast_ fresh)))
    (<["topic" := []]> (other_peers_ (minhcast_ fresh))) (minhcast_ fresh)) fresh.

(** The callback of the topic *)
Abbreviation told := (neighbor_callback (LogicState := unit) (fun _ => 7) "topic").

Lemma subscribed_linked_nothing : linked (fun _ => 7) two_nodes "topic" [] subscribed.
Proof. apply (subscribed_linked (fun _ => 7) two_nodes "topic" (ourselves node_a) fresh). by intros n Hn. Qed.

(** Both nodes become children, one is a routing-table child too; then a link of each is cut. *)
Definition some_changes : list Change :=
  [Linked kChild 0 Node.default node_b; Linked kChild 1 Node.default node_c; Linked kAdjacentLeft 0 Node.default node_b;
   Unlinked kChild 0 node_b; Unlinked kChild 1 node_c].

Lemma peers_are_links_witness :
  exists s', for_each (report node_a <$> some_changes) told subscribed = (Ok tt, s') /\ linked (fun _ => 7) two_nodes "topic" [node_b] s'.
Proof.
  apply (peers_are_links (fun _ => 7) two_nodes "topic" node_a some_changes []);
    [exact two_distinct|by repeat (constructor; [by left + by right|])|constructor|exact subscribed_linked_nothing|vm_compute; reflexivity|vm_compute; reflexivity].
Defined.

(** With one child *)
Definition with_child : EventDissemination (LogicState := unit) :=
  (told (report node_a (Linked kChild 0 Node.default node_b)) subscribed).2.

Lemma with_child_linked : linked (fun _ => 7) two_nodes "topic" [node_b] with_child.
Proof.
  destruct (link_step (fun _ => 7) two_nodes two_distinct "topic" [] subscribed node_b (report node_a (Linked kChild 0 Node.default node_b)))
    as (s' & E & Hl); [exact subscribed_linked_nothing|by left|intros m Hm; set_solver|done|done|done|].
  unfold with_child. by rewrite E.
Qed.

(** Another node at the place of the child *)
Definition node_d : NodeInfo := at_ip "10.0.0.4" 1 0.

Lemma replaced_neighbor_is_lost_witness :
  exists s' peers, told (connection_info node_a node_d kChild node_b 0) with_child = (Ok tt, s') /\
    other_peers_ (minhcast_ s') !! "topic" = Some peers /\ knows peers (level_number node_d) = false /\
    peers_added_natter_ s' !! address_of node_d = Some 1 /\
    forall ourself' relationship' index' nobody, address_ (p_node_info_ nobody) = [] ->
      exists s'', told (connection_info ourself' node_d relationship' nobody index') s' = (Ok tt, s'') /\
    minhcast_ s'' = minhcast_ s'.
Proof.
  apply (replaced_neighbor_is_lost (fun _ => 7) two_nodes "topic" [node_b]);
    [exact two_distinct|by repeat (constructor; [by left + by right|])|exact with_child_linked|by left|vm_compute; reflexivity|vm_compute; reflexivity| |vm_compute; reflexivity].
  intros H. vm_compute in H. congruence.
Defined.

Lemma lost_adjacent_throws_witness :
  exists s', told (connection_info node_a Node.default kAdjacentLeft node_b 0) with_child =
      (Throw (runtime_error "Fanout must be >= 2"), s') /\
    minhcast_ s' = minhcast_ with_child /\
    peers_added_natter_ s' !! address_of node_b = peers_added_natter_ with_child !! address_of node_b /\
    exists peers, other_peers_ (minhcast_ s') !! "topic" = Some peers /\ knows peers (level_number node_b) = true.
Proof.
  apply (lost_adjacent_throws (fun _ => 7) two_nodes "topic" [node_b]);
    [exact two_distinct|by repeat (constructor; [by left + by right|])|exact with_child_linked|by left|vm_compute; reflexivity].
Defined.
End Concrete.
